(* ===== verification/_CoqProject ===== *)
-Q . S2P
Prelude.v
Ordering.v
Protocol.v
Utf8.v
Sse.v
Decimal.v
SessionState.v
Reducer.v
ReducerReplay.v
ReducerSteps.v
SessionInvariants.v
SessionHeads.v
SessionTheorems.v
Tools.v
Validation.v
External.v
Usage.v
ModelSpec.v
ContextData.v
ContextCompiler.v
ContextTheorems.v
ContextProviders.v
Event.v
Registry.v
Policy.v
KernelBase.v
Command.v
RecordCodec.v
RecordCodecTheorems.v
Profile.v
ModelStream.v
ProviderHttp.v
ProviderStream.v
ProviderStreamLogic.v
OpenAiChat.v
OpenAiResponses.v
OpenAiStream.v
OpenAiTheorems.v
OpenAiResponsesTheorems.v
Anthropic.v
AnthropicStream.v
AnthropicTheorems.v
ModelProvider.v
Approval.v
ToolAudit.v
Artifact.v
Store.v
StoreTheorems.v
Archive.v
ArchiveTheorems.v
KernelConfig.v
KernelMonad.v
KernelRequest.v
KernelTools.v
KernelTurn.v
KernelRun.v
KernelLogic.v
KernelTheorems.v
KernelTurnTheorems.v
KernelRunTheorems.v
KernelLiveness.v
RuntimeData.v
RuntimeWiring.v
Runtime.v
RuntimeLogic.v
RuntimeTheorems.v
FetchAddress.v
FetchUrl.v
FetchData.v
FetchHttp.v
FetchHttpTheorems.v
FetchBody.v
FetchCache.v
FetchCacheTheorems.v
FetchProvider.v
FetchProviderTheorems.v
FetchTool.v
