(* ===== verification/Prelude.v ===== *)
(** * tea-rs: a verification library

    tea-rs is an agent runtime written in Rust ([src/crates/]).  A run of the
    agent alternates model requests and tool calls; everything it decides and
    does is first written to an append-only log of typed records, and the state
    of a session is whatever replaying that log gives.  This library models the
    parts that decide what may be executed and what is durable, and proves them
    correct.

    ** The parts and how they interact

    - [tea-protocol] defines the data: identifiers, canonical messages and the
      sixteen kinds of durable record with their envelope.
    - [tea-session] owns the log.  [SessionReducer] checks each record against
      the materialized state and applies it; branches are forks of the log with
      a projection each.  The store engine wraps the reducer in transactions
      with optimistic concurrency and two side journals (approvals, grants);
      [InMemorySessionStore] is the reference store.
    - [tea-tools] describes tools: declared effects, resources, provenance, and
      the scheduler class derived from them.  Its registry validates invocations
      against compiled schemas and runs executors as validated event streams.
    - [tea-policy] decides about a validated tool invocation: layered rules, and
      grants that may turn an Ask into an Allow.  Approvals carry a redacted
      presentation to the user and may issue a grant, which the store journals
      against the approval record.
    - [tea-model] describes models and providers: capabilities, reasoning
      profiles, the requests a provider accepts, the validated stream of events
      it answers with, and the registry that routes a request to a provider.
    - [tea-provider-openai] and [tea-provider-anthropic], over
      [tea-provider-http], are the providers: the bytes of a response become
      server-sent events, a reducer per API maps their JSON to normalized events,
      and the provider relays those as one stream; errors become bounded
      diagnostics without secrets.
    - [tea-profile] describes an agent: model, active tools, policy rules, limits
      and instructions, built canonically and refined by overlays.
    - [tea-context] compiles the system prompt: providers contribute modules of
      segments; the compiler orders them by authority, resolves conflicts, keeps
      within a budget and explains the result row by row.
    - [tea-kernel] runs the agent.  A run freezes a request from the committed
      session, streams a model turn with retries and budgets, assembles and
      commits the assistant message, and hands the tool calls it declares to the
      tool turn: that asks the registry and the policy engine, commits starts to
      the store, executes in scheduled lanes, commits terminals with their
      result messages, and turns an Ask into a durable approval wait.  The run
      loop alternates the two until the model stops, a budget is spent or the
      run fails, and records the run's terminal.
    - [tea] is the facade an application uses.  Its builder binds profiles to
      tools, rules and prompts; the runtime takes commands (create, configure,
      prompt, steer, abort, resolve, compact, fork), keeps which sessions have an
      active run, and starts a kernel run with the session's binding.
    - [tea-coding-tools] holds the tools of the coding product.  Its web fetch is
      the one that reaches the network on the model's behalf: a URL policy and an
      address policy guard a transport that follows redirects itself, a decoder
      bounds what comes back, and a cache keeps it per scope and policy.

    ** Files

    - [Prelude]: Rust's [Result] and [?], a state monad in which the mutations
      made before an error survive it ([&mut self]), byte and integer helpers,
      stable sorting, the hint database [keeps] and the tactics of the library.
    - [Ordering]: lawful comparisons and the sorts they determine.
    - [Protocol]: [tea-protocol] data ([id.rs], [record.rs], [message.rs],
      [content.rs], [external.rs], [change.rs] ...).
    - [Decimal]: decimal text and the versions written in it ([version.rs] of
      [tea-protocol] and [tea-profile]).
    - [SessionState]: [state.rs], the materialized state and its setters.
    - [Reducer]: [reducer.rs].  One definition per method and per record kind;
      [apply] is [SessionReducer::apply], with the rebuild after a failure.
    - [ReducerReplay]: atomicity, determinism, and the replay that computes
      where a fork starts.
    - [ReducerSteps]: the abstract machine ([record_step], [session_step]) and
      the refinement of the reducer into it.
    - [SessionInvariants], [SessionHeads]: invariants of every branch by rule
      induction over the machine; the global invariant of heads and log.
    - [SessionTheorems]: the claims about the reducer, over a sample session.
    - [Tools]: [effect.rs], [resource.rs], [source.rs], [spec.rs],
      [invocation.rs], [schema.rs].
    - [Policy]: [identity.rs], [grant.rs], [input.rs], [decision.rs],
      [engine.rs], [policies.rs].
    - [Approval]: [redaction.rs], [approval.rs].
    - [Artifact]: [artifact.rs], the journals and their validation.
    - [Store]: [store.rs], [store_engine.rs], [error.rs], [memory.rs].
    - [StoreTheorems]: the claims about storage.
    - [RecordCodec], [RecordCodecTheorems]: the JSON of a record envelope
      ([record.rs], [envelope.rs], [sequence.rs], [timestamp.rs] of
      [tea-protocol]) and its round trip.
    - [Archive], [ArchiveTheorems]: [archive.rs], [catalog.rs] and the listing of
      [memory.rs]; an archive against the store it is exported from and the one
      it is imported into.
    - [Validation]: the validating constructors of [message.rs], [content.rs],
      [external.rs], [metadata.rs] and [record.rs].
    - [Usage]: token counts and exact costs ([usage.rs]).
    - [ModelSpec]: hosted tools, model specifications and reasoning
      profiles, requests and their validation ([hosted.rs], [spec.rs],
      [request.rs]).
    - [Event]: agent events, their bounds and envelopes ([event.rs]).
    - [Registry]: [registry.rs], [result.rs], [executor.rs], compiled schemas of
      [schema.rs], hosted options; the claims about execution streams.
    - [ContextData]: [error.rs], [identity.rs], [provenance.rs], [segment.rs],
      [module.rs], [budget.rs], [diagnostic.rs], [inspection.rs], [skill.rs] of
      [tea-context].
    - [ContextCompiler]: [compiler.rs].
    - [ContextTheorems]: the claims about compiled prompts.
    - [ContextProviders]: [provider.rs] and the built-in providers, with their
      claims.
    - [ModelStream]: model stream events and the validated stream ([stream.rs]),
      with the grammar every prefix of an accepted stream satisfies.
    - [ModelProvider]: [provider.rs], [router.rs]: providers and the routing
      registry.
    - [Utf8]: characters and their encoding, lossy decoding, boundaries.
    - [Sse]: server-sent events ([sse.rs] of [tea-provider-openai], which
      [tea-provider-anthropic] repeats).
    - [ProviderHttp]: bounded error bodies and redacted diagnostics ([lib.rs] of
      [tea-provider-http]).
    - [ProviderStream], [ProviderStreamLogic]: what the providers share: methods
      that map payloads to events, the generator that relays them, and the
      program logic of both.
    - [OpenAiChat]: the Chat Completions reducer and complete responses
      ([stream.rs], [error.rs] of [tea-provider-openai]).
    - [External]: the constructors of [external.rs] a reducer calls: sources,
      citations and hosted-tool activity.
    - [OpenAiResponses]: the Responses reducer ([responses_stream.rs]).
    - [OpenAiStream]: the stream of one request ([provider.rs]), over an
      interface of reducers.
    - [OpenAiTheorems]: lawful reducers, and the claims about failures.
    - [OpenAiResponsesTheorems]: the Responses reducer is lawful; the claim about
      the streams of either API.
    - [Anthropic], [AnthropicStream], [AnthropicTheorems]: the Messages reducer
      ([stream.rs], [error.rs] of [tea-provider-anthropic]), its streams
      ([provider.rs]) and the claim about them.
    - [ToolAudit]: audit metadata of tool results ([audit.rs]) and its round trip.
    - [KernelBase]: [error.rs], [config.rs] limits, [state.rs], [retry.rs],
      [queue.rs], [scheduler.rs], [policy.rs] of [tea-kernel].
    - [Command]: agent commands, their envelopes and selectors ([command.rs] of
      [tea-protocol]).
    - [Profile]: agent profiles, overlays and the built-in profiles
      ([tea-profile]).
    - [KernelMonad]: the world a handler works on and its primitives
      ([observe.rs], [record.rs], [approval.rs], the appends of [kernel.rs]).
    - [KernelTools]: [tool_call.rs], [tool_execution.rs] and the tool turns,
      approval waits and resolutions, run terminals and compaction of
      [kernel.rs].
    - [KernelConfig]: run configurations and compaction ([config.rs],
      [compaction.rs]).
    - [KernelRequest]: freezing a request from a session snapshot and the
      context window ([request.rs], [context_window.rs]).
    - [KernelTurn]: [model_turn.rs] and the streaming of [kernel.rs]
      ([stream_turn], [stream_attempts]): retries, budgets, assembly.
    - [KernelRun]: the run loop of [kernel.rs]: [run], [run_loop], [run_turn],
      [resume_approval], cancellation, terminals.
    - [KernelLogic]: the program logic of kernel handlers: what they keep, and
      what they learn of the trace.
    - [KernelTheorems]: every handler against that logic, over a sample kernel.
    - [KernelTurnTheorems]: the reference reading of a model stream, and the
      claims that the assembler computes it.
    - [KernelRunTheorems]: the run loop against the program logic; the claims
      about whole runs.
    - [KernelLiveness]: a run that fails has its terminal recorded.
    - [RuntimeData]: [error.rs], [policy_wiring.rs], [binding.rs], [prompt.rs],
      [prompt_inspection.rs], [builder.rs] of [tea].
    - [RuntimeWiring]: what a builder registers and what [build] binds.
    - [Runtime]: [runtime.rs], [command.rs], [session_host.rs], [health.rs]: the
      state of the runtime and the handlers of its commands.
    - [RuntimeLogic]: the handlers against a program logic over the kernel's.
    - [RuntimeTheorems]: the claims about commands, over a sample runtime.
    - [FetchAddress], [FetchUrl]: [address_policy.rs], [url_policy.rs] of
      [tea-coding-tools/src/web_fetch], with the ranges the first refuses written
      by octets and groups.
    - [FetchData], [FetchTool]: requests, errors, results and the executor
      ([mod.rs]), the presentation of results ([external.rs]).
    - [FetchHttp], [FetchHttpTheorems]: the transport ([http.rs]) over an
      environment of resolver, client and clock; the claim about its requests.
    - [FetchBody]: decoding ([body.rs]).
    - [FetchCache], [FetchCacheTheorems]: the cache ([cache.rs]) against a
      reference cache without bounds.
    - [FetchProvider], [FetchProviderTheorems]: [provider.rs]; the claim about
      results, which composes those of the transport, the decoder and the cache.

    ** What is proved

    - Session: [apply] is atomic and never panics; the incremental reducer is
      the replay of its log; replay is total and accepts only contiguous logs;
      every accepted record is a step of an abstract machine; nothing executes
      without recorded authorization, on any branch; approvals wait, results
      match terminals, tool calls only progress; branches are isolated, forks
      restore the past, compaction touches the transcript only.
    - Storage: transactions are all or nothing; a restart rebuilds the same
      session; a stale writer is rejected; grants exist only for durable
      approvals that issued them; revocation is permanent.  Any stored session
      can be exported, and its archive restores exactly that session elsewhere:
      the journals a store validated transaction by transaction are valid against
      the whole log at once.  The JSON of a valid archive within its size
      bounds decodes to it, provided the serializers of the payloads and the
      text of [serde_json] round-trip; the catalog lists every session once,
      latest first.
    - Policy: the exact authorization condition, its independence of the order
      of rules, the finality of hard denies, well-formedness of engines, grant
      construction and revocation; an issued grant authorizes what was
      approved; redaction leaves no secret and is total within its bounds.
    - Tools: effect names round-trip; the scheduler class admits parallel
      execution exactly for declared-safe tools; depth checks agree; a validated
      invocation executes, and its stream has one terminal, at its end, that
      conforms to the tool's output schema.
    - Models: a profile's resolution clamps into what the model supports; an
      accepted stream obeys the event grammar; the registry routes a request to
      the provider registered for it, or refuses it; audit metadata with a
      parsed version decodes to what was encoded.
    - Providers: the way a body is cut into chunks does not change its events;
      whatever the exchange yields, a stream of either provider is grammatical,
      which is what the validator of [tea-model] accepts; diagnostics are bounded and printable.
    - Context: the order of modules does not change a prompt; the inspection
      has a row for every segment, exact duplicates included, and its rows slice
      the text exactly; a conflict is won by the highest precedence;
      budgets hold and only a required segment can fail one, which the built-in
      providers never contribute.
    - Profiles: building does not depend on the order of declarations; overlays
      compose; the text of a version determines it.
    - Kernel: whatever the provider, the executors, the host's ports and
      concurrent writers do, every run and every resumed run terminates with an
      outcome or a typed error and nothing panics; no tool executes before its
      start is durable; each invocation that executes was prepared from a call
      the session declares and allowed by the engine on the grants of a store
      the run had read and the time its clock showed then, or approved by a
      resolution the run had committed; terminals commit together with their
      result messages; and each request was built from a state of the session
      that the run had loaded, in the run's own configuration.  The assistant
      message a turn commits is the reference reading of the provider's stream,
      byte for byte.  A run that fails while the store answers has a failed
      terminal in the log.  Batches
      commit in source order; schedules partition the batch; the input queue
      loses and repeats nothing.  Concrete failures of the turn and run logic
      are stated as theorems.
    - Facade: however tools are registered, product tools win; a built runtime
      binds every profile to exactly what it declares, with the platform rule,
      which denies unknown effects unless a rule of the host poses as it;
      every command ends and leaves no active run behind; only prompts and
      approvals execute, and what they execute is a registered tool that the
      policy of their session's profile allowed, or that the user approved with
      this very command; an active run excludes every command that could change
      what it sees; a session-wide approval grants exactly the resources it
      names as prefixes.
    - Web fetch: the address policy refuses exactly the special-purpose ranges;
      every request goes to a validated, pinned address of the URL it is for, and
      a fetch ends; the cache is within its bounds and a hit is what was last
      stored under its key; every result is within the bounds of its request.

    ** Modelling conventions

    - [None] in an outer [option] is a panic (an [expect] that fails).  Every
      operation that has one is proved to return [Some].
    - A [BTreeMap] or [HashMap] is a [gmap], a [BTreeSet] a [gset]; where the
      iteration order shows, the entries are sorted explicitly.
    - A UUID is its 128-bit number, a timestamp its millisecond count; [u64]
      arithmetic is checked where the code checks it.  Strings are bytes.
    - The two mutually recursive methods of the reducer (applying a fork record
      and replaying the prefix it forks from) recurse to depth two only, which
      the definitions make explicit.
    - Two loops of the kernel take fuel.  [stream_attempts] retries at most
      [max_attempts] times and gets [max_attempts + 1].  [run_loop_inner] gets
      [run_fuel], the iterations the run has left and two: each turn that goes
      on raises the iteration counter, which [run_turn] checks against its
      limit.  [runs_terminate] proves that neither runs out.  The transport of a
      web fetch takes a round per allowed redirect and one more, and two rounds
      per read of a body and two more; [fetch_requests_safe] proves these enough.
    - The length of serialised JSON ([serde_json::to_vec]), error texts
      ([Display]), the JSON Schema engine, calendar arithmetic and the kernel's
      clock, identity source, event sink and cancellation are parameters
      (classes); a host function receives the moment of the call, so it may
      answer differently each time.
    - A kernel handler runs in a state monad over a world with the shared store
      and a ghost trace of what it read, prepared, had validated, committed,
      requested, executed and emitted.  What a handler knows is a fact of that
      trace, and the claims about executions and requests speak of the trace
      older than them.  Before each
      store access of the kernel, transactions of other writers may be appended.
      A stream is the list of the events it yields, so loops over streams are
      structural recursions.
    - The body of a response is the list of what its reads yield: bytes, an error
      or the cancellation of the request.  Parsing and printing JSON text are
      parameters ([json_parse], [JsonText]); characters are code points.
    - A handler of the runtime works on that world and the maps the runtime's
      mutexes guard.  The handlers of other commands that run at the same time
      are the other writers of the store, the producers of the input queue and
      the callers of [abort], whom the cancellation parameter stands for.  The
      text form of a UUID is a parameter ([UuidText]).

    ** What is not modelled

    Derived serializers, SQL, terminals, sockets, processes and the asynchronous
    runtime; lock poisoning; time passes only through the clock parameter.  A run takes the
    compiled prompt from its configuration.  Of the providers, the bodies of
    requests, credentials and catalogs are not modelled: they are built from JSON
    text and environment variables.  The SQLite store is the store engine of
    [Store] over SQL text.  The command line, the terminal front end, the MCP client and the
    coding tools other than web fetch drive terminals, processes and file systems. *)

From Stdlib Require Export ZArith NArith Lia.
From stdpp Require Export prelude gmap strings sorting.

(** ** Results: Rust's [Result<T, E>] and [?] *)

Inductive Result (E A : Type) : Type :=
| Ok (a : A)
| Err (e : E).
Arguments Ok {E A} a.
Arguments Err {E A} e.

(** [Option::ok_or]. *)
Definition ok_or {E A} (o : option A) (e : E) : Result E A :=
  match o with Some a => Ok a | None => Err e end.

Definition result_bind {E A B} (m : Result E A) (k : A → Result E B) : Result E B :=
  match m with Ok a => k a | Err e => Err e end.

(** [Result::map_err], the conversion [?] performs through [From]. *)
Definition map_err {E F A} (f : E → F) (m : Result E A) : Result F A :=
  match m with Ok a => Ok a | Err e => Err (f e) end.

Definition is_ok {E A} (m : Result E A) : bool :=
  match m with Ok _ => true | Err _ => false end.

(** A guard: the [if bad { return Err(e) }] of the sources. *)
Definition ensure {E} (b : bool) (e : E) : Result E unit :=
  if b then Ok tt else Err e.

(** [Iterator::collect::<Result<Vec<_>, _>>]: the first error wins. *)
Fixpoint result_map {E A B} (f : A → Result E B) (l : list A) : Result E (list B) :=
  match l with
  | [] => Ok []
  | x :: l' => result_bind (f x) (λ y, result_bind (result_map f l') (λ ys, Ok (y :: ys)))
  end.

(** A [for] loop whose body may return early with [?]. *)
Fixpoint result_fold {E S A} (f : S → A → Result E S) (s : S) (l : list A) : Result E S :=
  match l with
  | [] => Ok s
  | x :: l' => result_bind (f s x) (λ s', result_fold f s' l')
  end.

Declare Scope tea_scope.
Delimit Scope tea_scope with tea.
Notation "'let?' x ':=' m 'in' k" := (result_bind m (λ x, k))
  (at level 10, x name, m at level 200, k at level 200) : tea_scope.
Notation "'try?' m 'in' k" := (result_bind m (λ _, k))
  (at level 10, m at level 200, k at level 200) : tea_scope.

(** ** Mutable receivers: [&mut self] methods returning [Result]

    A computation maps a state to a result and the state it leaves behind.  The
    state survives an error: a method that fails after some of its mutations
    leaves exactly those mutations in the receiver. *)

Definition ST (S E A : Type) : Type := S → Result E A * S.

Definition st_ret {S E A} (a : A) : ST S E A := λ s, (Ok a, s).
Definition st_throw {S E A} (e : E) : ST S E A := λ s, (Err e, s).
Definition st_bind {S E A B} (m : ST S E A) (k : A → ST S E B) : ST S E B :=
  λ s, match m s with
       | (Ok a, s') => k a s'
       | (Err e, s') => (Err e, s')
       end.
Definition st_gets {S E A} (f : S → A) : ST S E A := λ s, (Ok (f s), s).
Definition st_modify {S E} (f : S → S) : ST S E unit := λ s, (Ok tt, f s).
Definition st_lift {S E A} (r : Result E A) : ST S E A := λ s, (r, s).
Definition st_ensure {S E} (b : bool) (e : E) : ST S E unit := st_lift (ensure b e).

(** A [for] loop over [l] in a fallible method. *)
Fixpoint st_for {S E A} (l : list A) (f : A → ST S E unit) : ST S E unit :=
  match l with
  | [] => st_ret tt
  | x :: l' => st_bind (f x) (λ _, st_for l' f)
  end.

Notation "'let!' x ':=' m 'in' k" := (st_bind m (λ x, k))
  (at level 10, x name, m at level 200, k at level 200) : tea_scope.
Notation "'do!' m 'in' k" := (st_bind m (λ _, k))
  (at level 10, m at level 200, k at level 200) : tea_scope.

(** [Arguments] keep [simpl] from unfolding the binds of a handler. *)
Arguments st_bind : simpl never.
Arguments result_bind : simpl never.

(** ** Bytes of UTF-8 strings

    A Rust [String] is its sequence of UTF-8 bytes; [len] counts bytes. *)

Definition bytes (s : string) : list N := Ascii.N_of_ascii <$> String.list_ascii_of_string s.

Definition is_ascii_lowercase (b : N) : bool := (97 <=? b)%N && (b <=? 122)%N.
Definition is_ascii_uppercase (b : N) : bool := (65 <=? b)%N && (b <=? 90)%N.
Definition is_ascii_digit (b : N) : bool := (48 <=? b)%N && (b <=? 57)%N.
Definition is_ascii_alphanumeric (b : N) : bool :=
  is_ascii_lowercase b || is_ascii_uppercase b || is_ascii_digit b.
Definition to_ascii_lowercase (b : N) : N := if is_ascii_uppercase b then (b + 32)%N else b.

(** [chars().any(char::is_control)]: the C0 controls and DEL are one byte; the
    C1 controls U+0080 to U+009F are the pairs [C2 80] to [C2 9F]. *)
Fixpoint has_control (bs : list N) : bool :=
  match bs with
  | [] => false
  | b :: rest =>
      (b <? 32)%N || (b =? 127)%N
      || match rest with
         | c :: _ => (b =? 194)%N && (128 <=? c)%N && (c <=? 159)%N
         | [] => false
         end
      || has_control rest
  end.

(** [str::contains('\0')]. *)
Definition contains_nul (s : string) : bool := existsb (λ b, (b =? 0)%N) (bytes s).

(** [Vec::is_empty]. *)
Definition is_empty {A} (l : list A) : bool := match l with [] => true | _ => false end.

(** [str::strip_prefix]. *)
Fixpoint strip_prefix (prefix value : string) : option string :=
  match prefix, value with
  | EmptyString, _ => Some value
  | String a prefix', String b value' =>
      if Ascii.eqb a b then strip_prefix prefix' value' else None
  | String _ _, EmptyString => None
  end.

(** [message.retain(|character| character != '\0')]. *)
Fixpoint retain_non_nul (s : string) : string :=
  match s with
  | EmptyString => EmptyString
  | String a rest =>
      if (Ascii.N_of_ascii a =? 0)%N then retain_non_nul rest
      else String a (retain_non_nul rest)
  end.

(** The string of some bytes. *)
Definition string_of_bytes (bs : list N) : string :=
  String.string_of_list_ascii (Ascii.ascii_of_N <$> bs).

(** [str::len] as a machine size. *)
Definition str_len (s : string) : N := N.of_nat (String.length s).

(** [bytes.next().is_some_and(first) && bytes.all(rest)]: the shape of every
    canonical-identifier check of the code base. *)
Definition head_and_all (first rest : N → bool) (s : string) : bool :=
  match bytes s with
  | [] => false
  | b :: bs => first b && forallb rest bs
  end.

(** [str::contains("..")]. *)
Fixpoint contains_dot_dot (bs : list N) : bool :=
  match bs with
  | a :: rest =>
      match rest with
      | b :: _ => (a =? 46)%N && (b =? 46)%N || contains_dot_dot rest
      | [] => false
      end
  | [] => false
  end.

(** ** Truncation at a character boundary ([truncate_utf8]) *)

(** A UTF-8 continuation byte is [10xxxxxx]. *)
Definition is_continuation (b : N) : bool := (128 <=? b)%N && (b <? 192)%N.

Definition is_char_boundary (bs : list N) (i : nat) : bool :=
  match i with
  | O => true
  | _ => match bs !! i with
         | Some b => negb (is_continuation b)
         | None => (i =? length bs)%nat
         end
  end.

(** [while !value.is_char_boundary(end) { end -= 1 }]. *)
Fixpoint floor_boundary (bs : list N) (last : nat) : nat :=
  match last with
  | O => O
  | S i => if is_char_boundary bs last then last else floor_boundary bs i
  end.

Definition truncate_utf8 (value : string) (max_bytes : nat) : string :=
  if (String.length value <=? max_bytes)%nat then value
  else String.substring 0 (floor_boundary (bytes value) max_bytes) value.

(** ** Machine integers *)

Definition U64_MAX : N := 18446744073709551615.
Definition U32_MAX : N := 4294967295.

(** [saturating_add] of a 64-bit word. *)
Definition saturating_add (a b : N) : N := N.min (a + b) U64_MAX.

Definition checked_add_u64 (a b : N) : option N :=
  if (a + b <=? U64_MAX)%N then Some (a + b)%N else None.

(** ** Stable sorting and deduplication of [Vec]

    [slice::sort] and [sort_by_key] are stable; [dedup_by_key] keeps the first
    of each run of equal keys. *)

Section sorting.
Context {A : Type} (leb : A → A → bool).

Fixpoint insert_sorted (x : A) (l : list A) : list A :=
  match l with
  | [] => [x]
  | y :: l' => if leb x y then x :: y :: l' else y :: insert_sorted x l'
  end.

Fixpoint stable_sort (l : list A) : list A :=
  match l with
  | [] => []
  | x :: l' => insert_sorted x (stable_sort l')
  end.
End sorting.

Fixpoint dedup_from {A} (same : A → A → bool) (x : A) (l : list A) : list A :=
  match l with
  | [] => [x]
  | y :: l' => if same y x then dedup_from same x l' else x :: dedup_from same y l'
  end.

Definition dedup {A} (same : A → A → bool) (l : list A) : list A :=
  match l with [] => [] | x :: l' => dedup_from same x l' end.

(** [BTreeMap] iteration: entries in key order. *)
Definition btree_entries {K A} `{Countable K} (leb : K → K → bool) (m : gmap K A)
    : list (K * A) := stable_sort (λ a b, leb a.1 b.1) (map_to_list m).

(** [iter().collect::<BTreeMap<_, _>>()]: a later entry replaces an earlier one. *)
Definition btree_collect {K A} `{Countable K} (entries : list (K * A)) : gmap K A :=
  foldl (λ m kv, <[kv.1 := kv.2]> m) ∅ entries.

(** [Ord] on strings: lexicographic on bytes. *)
Definition str_leb (a b : string) : bool := String.leb a b.

(** A lexicographic comparison of two keys. *)
Definition lex_leb (c : comparison) (rest : bool) : bool :=
  match c with Lt => true | Eq => rest | Gt => false end.

(** [str::split] on one ASCII byte. *)
Fixpoint split_bytes (sep : N) (bs : list N) : list (list N) :=
  match bs with
  | [] => [[]]
  | b :: rest =>
      if (b =? sep)%N then [] :: split_bytes sep rest
      else match split_bytes sep rest with
           | seg :: segs => (b :: seg) :: segs
           | [] => [[b]]
           end
  end.

(** [head_and_all] on the bytes themselves. *)
Definition head_and_all_bytes (first rest : N → bool) (bs : list N) : bool :=
  match bs with [] => false | b :: bs' => first b && forallb rest bs' end.

(** ** Strings as bytes *)

Lemma bytes_app a b : bytes (a ++ b) = bytes a ++ bytes b.
Proof. unfold bytes. induction a as [|c a IH]; simpl; [done|]. f_equal. apply IH. Qed.

Lemma bytes_cons c s : bytes (String c s) = Ascii.N_of_ascii c :: bytes s.
Proof. done. Qed.

Lemma split_bytes_no_sep sep a : sep ∉ a → split_bytes sep a = [a].
Proof.
  induction a as [|b a IH]; [done|]. rewrite not_elem_of_cons. intros [Hb Ha]. simpl.
  destruct (N.eqb_spec b sep) as [->|_]; [done|]. by rewrite IH.
Qed.

Lemma split_bytes_app sep a rest :
  sep ∉ a → split_bytes sep (a ++ sep :: rest) = a :: split_bytes sep rest.
Proof.
  induction a as [|b a IH]; simpl; [by rewrite N.eqb_refl|].
  rewrite not_elem_of_cons. intros [Hb Ha].
  destruct (N.eqb_spec b sep) as [->|_]; [done|]. by rewrite IH.
Qed.

Lemma split_bytes_cons sep a l :
  split_bytes sep a = l →
  ∃ head rest, l = head :: rest ∧ sep ∉ head ∧
    match rest with
    | [] => a = head
    | _ => ∃ tail, a = head ++ sep :: tail ∧ split_bytes sep tail = rest
    end.
Proof.
  intros <-. induction a as [|b a IH]; simpl; [exists [], []; set_solver|].
  destruct (N.eqb_spec b sep) as [->|Hb].
  - exists [], (split_bytes sep a). split_and!; [done|set_solver|].
    destruct IH as (head & rest & Heq & _). rewrite Heq. exists a. by rewrite Heq.
  - destruct IH as (head & rest & -> & Hh & Ha). exists (b :: head), rest.
    split_and!; [done|set_solver|]. destruct rest; [by subst|].
    destruct Ha as (tail & -> & Ht). by exists tail.
Qed.

Lemma bytes_string_of_bytes bs :
  forallb (λ b, (b <? 256)%N) bs = true → bytes (string_of_bytes bs) = bs.
Proof.
  unfold bytes, string_of_bytes. rewrite String.list_ascii_of_string_of_list_ascii.
  induction bs as [|b bs IH]; [done|]. cbn [forallb].
  intros [Hb%N.ltb_lt Hbs]%andb_true_iff. rewrite !fmap_cons, IH by done.
  by rewrite Ascii.N_ascii_embedding.
Qed.

Lemma string_of_bytes_bytes s : string_of_bytes (bytes s) = s.
Proof.
  unfold bytes, string_of_bytes. rewrite <- list_fmap_compose.
  rewrite <- (String.string_of_list_ascii_of_string s) at 2. f_equal.
  rewrite <- (list_fmap_id (String.list_ascii_of_string s)) at 2.
  apply list_fmap_ext. intros i c _. apply Ascii.ascii_N_embedding.
Qed.

Lemma string_of_bytes_app l1 l2 :
  string_of_bytes (l1 ++ l2) = (string_of_bytes l1 ++ string_of_bytes l2)%string.
Proof.
  induction l1 as [|b l1 IH]; [done|].
  transitivity (String (Ascii.ascii_of_N b) (string_of_bytes l1 ++ string_of_bytes l2));
    [by rewrite <- IH|reflexivity].
Qed.

Lemma length_bytes s : length (bytes s) = String.length s.
Proof. induction s as [|c s IH]; [done|]. rewrite bytes_cons. simpl. by rewrite IH. Qed.

Lemma bytes_substring n s : bytes (String.substring 0 n s) = take n (bytes s).
Proof.
  revert s. induction n as [|n IH]; intros [|c s]; try done.
  change (Ascii.N_of_ascii c :: bytes (String.substring 0 n s) = Ascii.N_of_ascii c :: take n (bytes s)).
  by rewrite IH.
Qed.

Lemma floor_boundary_le bs n : floor_boundary bs n ≤ n.
Proof. induction n as [|n IH]; simpl; [done|]. case_match; lia. Qed.

Lemma length_substring n s : String.length (String.substring 0 n s) ≤ n.
Proof.
  rewrite <- length_bytes, bytes_substring, length_take. lia.
Qed.

Lemma string_app_assoc a b c : ((a ++ b) ++ c = a ++ (b ++ c))%string.
Proof.
  induction a as [|x a IH]; [done|]. change (String x ((a ++ b) ++ c) = String x (a ++ (b ++ c)))%string.
  by rewrite IH.
Qed.

Lemma str_len_app a b : str_len (a ++ b) = (str_len a + str_len b)%N.
Proof.
  unfold str_len. rewrite <- Nat2N.inj_add. f_equal.
  induction a as [|x a IH]; [done|].
  change (S (String.length (a ++ b)) = S (String.length a + String.length b)). by rewrite IH.
Qed.

Lemma string_app_nil_r s : (s ++ "")%string = s.
Proof. induction s as [|c s IH]; [done|]. change (String c (s ++ "") = String c s). by rewrite IH. Qed.

Lemma str_len_zero s : str_len s = 0%N ↔ s = ""%string.
Proof. unfold str_len. destruct s; simpl; split; (done || lia). Qed.

(** The middle of a string. *)
Lemma substring_prefix n s : String.substring 0 (String.length n) (n ++ s) = n.
Proof.
  induction n as [|c n IH]; [by destruct s|].
  change (String c (String.substring 0 (String.length n) (n ++ s)) = String c n). by rewrite IH.
Qed.

Lemma substring_middle a b c :
  String.substring (String.length a) (String.length b) (a ++ b ++ c) = b.
Proof.
  induction a as [|x a IH]; [apply (substring_prefix b c)|apply IH].
Qed.

Lemma floor_boundary_is bs n : is_char_boundary bs (floor_boundary bs n) = true.
Proof.
  induction n as [|n IH]; [done|].
  change (floor_boundary bs (S n))
    with (if is_char_boundary bs (S n) then S n else floor_boundary bs n).
  by destruct (is_char_boundary bs (S n)) eqn:Hb.
Qed.

(** ** Running a computation: inversion and construction lemmas *)

Section running.
Context {S E A B : Type}.

Lemma st_bind_ok (m : ST S E A) (k : A → ST S E B) s b s' :
  st_bind m k s = (Ok b, s') ↔ ∃ a s1, m s = (Ok a, s1) ∧ k a s1 = (Ok b, s').
Proof. unfold st_bind. destruct (m s) as [[a|e] s1]; naive_solver. Qed.

Lemma st_bind_run (m : ST S E A) (k : A → ST S E B) s a s1 r :
  m s = (Ok a, s1) → k a s1 = r → st_bind m k s = r.
Proof. unfold st_bind. by intros -> ->. Qed.

Lemma st_ret_ok (a b : A) (s s' : S) :
  st_ret (E:=E) a s = (Ok b, s') ↔ b = a ∧ s' = s.
Proof. unfold st_ret. naive_solver. Qed.

Lemma st_throw_ok (e : E) (b : A) (s s' : S) : st_throw e s = (Ok b, s') ↔ False.
Proof. unfold st_throw. naive_solver. Qed.

Lemma st_gets_ok (f : S → A) b (s s' : S) :
  st_gets (E:=E) f s = (Ok b, s') ↔ b = f s ∧ s' = s.
Proof. unfold st_gets. naive_solver. Qed.

Lemma st_modify_ok (f : S → S) u (s s' : S) :
  st_modify (E:=E) f s = (Ok u, s') ↔ s' = f s.
Proof. unfold st_modify. destruct u. naive_solver. Qed.

Lemma st_lift_ok (m : Result E A) b (s s' : S) :
  st_lift m s = (Ok b, s') ↔ m = Ok b ∧ s' = s.
Proof. unfold st_lift. naive_solver. Qed.

Lemma ok_or_ok (o : option A) (e : E) a : ok_or o e = Ok a ↔ o = Some a.
Proof. destruct o; simpl; naive_solver. Qed.

Lemma ensure_ok b (e : E) u : ensure b e = Ok u ↔ b = true.
Proof. destruct b, u; simpl; naive_solver. Qed.

Lemma st_ensure_ok b (e : E) u (s s' : S) :
  st_ensure b e s = (Ok u, s') ↔ b = true ∧ s' = s.
Proof. unfold st_ensure, st_lift, ensure. destruct b, u; naive_solver. Qed.

Lemma result_bind_ok (m : Result E A) (k : A → Result E B) b :
  result_bind m k = Ok b ↔ ∃ a, m = Ok a ∧ k a = Ok b.
Proof. destruct m; unfold result_bind; naive_solver. Qed.

Lemma st_for_app (l1 l2 : list A) (f : A → ST S E unit) s :
  st_for (l1 ++ l2) f s =
  match st_for l1 f s with
  | (Ok _, s1) => st_for l2 f s1
  | (Err e, s1) => (Err e, s1)
  end.
Proof.
  revert s. induction l1 as [|x l1 IH]; intros s; simpl; [done|].
  unfold st_bind. destruct (f x s) as [[]]; [apply IH|done].
Qed.

(** A computation never touches the part [f] of the state. *)
Definition keeps {C} (f : S → C) (m : ST S E A) : Prop := ∀ s, f (m s).2 = f s.
End running.

Lemma map_err_ok {E1 E2 A} (f : E1 → E2) (r : Result E1 A) a : map_err f r = Ok a ↔ r = Ok a.
Proof. destruct r; simpl; naive_solver. Qed.

Lemma keeps_bind {S E A B C : Type} (f : S → C) (m : ST S E A) (k : A → ST S E B) :
  keeps f m → (∀ a, keeps f (k a)) → keeps f (st_bind m k).
Proof.
  intros Hm Hk s. unfold st_bind. specialize (Hm s).
  destruct (m s) as [[a|e] s1]; simpl in *; [by rewrite (Hk a s1)|done].
Qed.

Lemma keeps_ret {S E A C : Type} (f : S → C) (a : A) : keeps f (st_ret (E:=E) a).
Proof. by intros s. Qed.
Lemma keeps_throw {S E A C : Type} (f : S → C) (e : E) : keeps f (st_throw (A:=A) e).
Proof. by intros s. Qed.
Lemma keeps_gets {S E A C : Type} (f : S → C) (g : S → A) : keeps f (st_gets (E:=E) g).
Proof. by intros s. Qed.
Lemma keeps_lift {S E A C : Type} (f : S → C) (m : Result E A) : keeps f (st_lift m).
Proof. by intros s. Qed.
Lemma keeps_ensure {S E C : Type} (f : S → C) b (e : E) : keeps f (st_ensure b e).
Proof. by intros s. Qed.
Lemma keeps_modify {S E C : Type} (f : S → C) (g : S → S) : (∀ s, f (g s) = f s) → keeps f (st_modify (E:=E) g).
Proof. intros Hg s. apply Hg. Qed.
Lemma keeps_for {S E A C : Type} (f : S → C) (l : list A) (g : A → ST S E unit) :
  (∀ x, keeps f (g x)) → keeps f (st_for l g).
Proof.
  intros Hg. induction l; simpl; [apply keeps_ret|by apply keeps_bind].
Qed.

(** ** Sorting lemmas *)

Section sorting_lemmas.
Context {A : Type} (leb : A → A → bool).

Lemma insert_sorted_perm x l : insert_sorted leb x l ≡ₚ x :: l.
Proof.
  induction l as [|y l IH]; simpl; [done|]. destruct (leb x y); [done|].
  rewrite IH. constructor.
Qed.

Lemma stable_sort_perm l : stable_sort leb l ≡ₚ l.
Proof. induction l as [|x l IH]; simpl; [done|]. by rewrite insert_sorted_perm, IH. Qed.

Context (leb_total : ∀ x y, leb x y = false → leb y x = true).

Lemma insert_sorted_sorted x l : Sorted leb l → Sorted leb (insert_sorted leb x l).
Proof.
  induction 1 as [|y l Hs IH Hd]; simpl; [by repeat constructor|].
  destruct (leb x y) eqn:Hxy.
  - repeat constructor; try done. by rewrite Hxy.
  - constructor; [done|]. apply leb_total in Hxy.
    destruct Hd as [|z l Hyz]; simpl; [by constructor; rewrite Hxy|].
    destruct (leb x z); constructor; [by rewrite Hxy|done].
Qed.

Lemma stable_sort_sorted l : Sorted leb (stable_sort leb l).
Proof. induction l; simpl; [constructor|by apply insert_sorted_sorted]. Qed.
End sorting_lemmas.

Lemma elem_of_stable_sort {A} leb (x : A) l : x ∈ stable_sort leb l ↔ x ∈ l.
Proof. by rewrite stable_sort_perm. Qed.

Lemma dedup_from_subseteq {A} (same : A → A → bool) x l y :
  y ∈ dedup_from same x l → y ∈ x :: l.
Proof.
  revert x. induction l as [|z l IH]; intros x; simpl; [done|].
  destruct (same z x); intros Hy.
  - apply IH in Hy. set_solver.
  - apply elem_of_cons in Hy as [->|Hy]; [set_solver|]. apply IH in Hy. set_solver.
Qed.

Lemma elem_of_dedup_subseteq {A} (same : A → A → bool) l (y : A) : y ∈ dedup same l → y ∈ l.
Proof. destruct l; [done|]. apply dedup_from_subseteq. Qed.

(** With a sound equality test [dedup] keeps the elements. *)
Lemma elem_of_dedup_from {A} (same : A → A → bool) x l y :
  (∀ a b, same a b = true → a = b) → y ∈ x :: l → y ∈ dedup_from same x l.
Proof.
  intros Hsame. revert x. induction l as [|z l IH]; intros x; simpl; [done|].
  destruct (same z x) eqn:Hz.
  - apply Hsame in Hz as ->. intros Hy. apply IH. set_solver.
  - intros [->|Hy]%elem_of_cons; [set_solver|]. apply elem_of_cons. right. by apply IH.
Qed.

Lemma elem_of_dedup {A} (same : A → A → bool) l (y : A) :
  (∀ a b, same a b = true → a = b) → y ∈ dedup same l ↔ y ∈ l.
Proof.
  intros Hsame. split; [apply elem_of_dedup_subseteq|].
  destruct l; [done|]. by apply elem_of_dedup_from.
Qed.

Lemma dedup_from_length {A} (same : A → A → bool) x l :
  length (dedup_from same x l) ≤ S (length l).
Proof.
  revert x. induction l as [|z l IH]; intros x; simpl; [done|].
  destruct (same z x); simpl; [specialize (IH x)|specialize (IH z)]; lia.
Qed.

(** Sorting and deduplicating again changes nothing. *)
Lemma stable_sort_id {A} (leb : A → A → bool) l : Sorted leb l → stable_sort leb l = l.
Proof.
  induction 1 as [|x l _ IH Hd]; simpl; [done|]. rewrite IH.
  destruct Hd as [|y l Hxy]; simpl; [done|]. by destruct (leb x y).
Qed.

Lemma result_map_ok {E A B} (f : A → Result E B) l ys :
  result_map f l = Ok ys → Forall2 (λ x y, f x = Ok y) l ys.
Proof.
  revert ys. induction l as [|x l IH]; intros ys; simpl; [by intros [= <-]|].
  intros (y & Hy & (ys' & Hys & [= <-])%result_bind_ok)%result_bind_ok.
  constructor; [done|by apply IH].
Qed.

Lemma result_bind_err {E A B} (m : Result E A) (k : A → Result E B) e :
  result_bind m k = Err e ↔ m = Err e ∨ ∃ a, m = Ok a ∧ k a = Err e.
Proof. destruct m; unfold result_bind; naive_solver. Qed.

Lemma strip_prefix_app prefix s : strip_prefix prefix (prefix ++ s) = Some s.
Proof.
  induction prefix as [|c prefix IH]; [done|].
  change (strip_prefix (String c prefix) (String c (prefix ++ s)) = Some s).
  simpl. by rewrite Ascii.eqb_refl.
Qed.

Lemma strip_prefix_some prefix s rest :
  strip_prefix prefix s = Some rest → s = (prefix ++ rest)%string.
Proof.
  revert s. induction prefix as [|a prefix IH]; intros s; [by intros [= ->]|].
  destruct s as [|b s]; [done|]. simpl. destruct (Ascii.eqb_spec a b) as [->|]; [|done].
  intros H. change (String b s = String b (prefix ++ rest)). by rewrite (IH s H).
Qed.

(** Induction on the length of a list. *)
Lemma list_length_ind {A} (P : list A → Prop) :
  (∀ l, (∀ l', length l' < length l → P l') → P l) → ∀ l, P l.
Proof.
  intros HP l. remember (length l) as n eqn:Hn. revert l Hn.
  induction n as [n IH] using lt_wf_ind. intros l ->. apply HP. intros l' Hl. by eapply IH.
Qed.

Lemma find_app {A} (f : A → bool) l1 l2 :
  List.find f (l1 ++ l2) = match List.find f l1 with Some x => Some x | None => List.find f l2 end.
Proof. induction l1 as [|x l1 IH]; simpl; [done|]. by destruct (f x). Qed.

Lemma result_fold_app {E S A} (f : S → A → Result E S) s l1 l2 :
  result_fold f s (l1 ++ l2) = result_bind (result_fold f s l1) (λ s', result_fold f s' l2).
Proof.
  revert s. induction l1 as [|x l1 IH]; intros s; simpl; [done|].
  destruct (f s x) as [s'|e]; [apply IH|done].
Qed.

Lemma result_fold_err {E S A} (f : S → A → Result E S) s l e :
  result_fold f s l = Err e → ∃ s' x, x ∈ l ∧ f s' x = Err e.
Proof.
  revert s. induction l as [|x l IH]; intros s; simpl; [done|].
  intros [Hx|(s1 & _ & (s' & y & ? & ?)%IH)]%result_bind_err; [exists s, x|exists s', y]; set_solver.
Qed.

Lemma btree_collect_Some {K A} `{Countable K} (entries : list (K * A)) k a :
  btree_collect entries !! k = Some a → (k, a) ∈ entries.
Proof.
  unfold btree_collect. induction entries as [|[k' a'] l IH] using rev_ind; simpl;
    [by rewrite lookup_empty|].
  rewrite foldl_app. simpl. intros [[-> ->]|[_ Hl]]%lookup_insert_Some; [set_solver|].
  apply elem_of_app. auto.
Qed.

Lemma btree_collect_is_Some {K A} `{Countable K} (entries : list (K * A)) k a :
  (k, a) ∈ entries → is_Some (btree_collect entries !! k).
Proof.
  unfold btree_collect. induction entries as [|[k' a'] l IH] using rev_ind; simpl;
    [by intros ?%elem_of_nil|].
  rewrite foldl_app. simpl. intros [Hl|Hl%list_elem_of_singleton]%elem_of_app.
  - destruct (decide (k' = k)) as [->|]; [by rewrite lookup_insert_eq|].
    rewrite lookup_insert_ne by done. auto.
  - simplify_eq. by rewrite lookup_insert_eq.
Qed.

(** Collecting the entries of a map gives the map. *)
Lemma btree_collect_entries {K A} `{Countable K} leb (m : gmap K A) :
  btree_collect (btree_entries leb m) = m.
Proof.
  assert (∀ k a, (k, a) ∈ btree_entries leb m ↔ m !! k = Some a) as Hin.
  { intros k a. unfold btree_entries. by rewrite elem_of_stable_sort, elem_of_map_to_list. }
  apply map_eq. intros k. destruct (btree_collect _ !! k) as [a|] eqn:Hc.
  - apply btree_collect_Some, Hin in Hc. done.
  - destruct (m !! k) as [a|] eqn:Hm; [|done].
    apply Hin, btree_collect_is_Some in Hm as [a' Ha']. congruence.
Qed.

Lemma dedup_from_head {A} (same : A → A → bool) x l :
  (∀ a b, same a b = true → a = b) → ∃ l', dedup_from same x l = x :: l'.
Proof.
  intros Hsame. revert x. induction l as [|y l IH]; intros x; simpl; [by eexists|].
  destruct (same y x); [apply IH|by eexists].
Qed.

Lemma dedup_from_sorted {A} (leb same : A → A → bool) x l :
  (∀ a b, same a b = true → a = b) → Sorted leb (x :: l) → Sorted leb (dedup_from same x l).
Proof.
  intros Hsame. revert x. induction l as [|y l IH]; intros x Hs; simpl; [done|].
  apply Sorted_inv in Hs as [Hs Hd]. destruct (same y x) eqn:Hyx.
  - apply Hsame in Hyx as ->. by apply IH.
  - specialize (IH y Hs). destruct (dedup_from_head same y l Hsame) as [l' Heq].
    rewrite Heq in *. constructor; [done|]. inversion Hd; subst. by constructor.
Qed.

Lemma dedup_dedup_from {A} (same : A → A → bool) x l :
  (∀ a b, same a b = true → a = b) → dedup same (dedup_from same x l) = dedup_from same x l.
Proof.
  intros Hsame. revert x. induction l as [|y l IH]; intros x; simpl; [done|].
  destruct (same y x) eqn:Hyx; [apply IH|]. simpl. specialize (IH y).
  destruct (dedup_from_head same y l Hsame) as [l' Heq]. rewrite Heq in *. simpl in *.
  by rewrite Hyx, IH.
Qed.

Lemma sorted_set_id {A} (leb same : A → A → bool) l :
  (∀ a b, same a b = true → a = b) → (∀ a b, leb a b = false → leb b a = true) →
  let l' := dedup same (stable_sort leb l) in dedup same (stable_sort leb l') = l'.
Proof.
  intros Hsame Htotal. pose proof (stable_sort_sorted leb Htotal l) as Hs. simpl.
  destruct (stable_sort leb l) as [|x s]; [done|]. simpl.
  rewrite stable_sort_id by (by apply dedup_from_sorted). by apply dedup_dedup_from.
Qed.

(** ** Proof automation *)

(** The steps that write nothing, and the lemmas of the components about their
    own primitives. *)
Create HintDb keeps discriminated.
#[export] Hint Resolve keeps_ret keeps_throw keeps_gets keeps_lift keeps_ensure : keeps.

(** Frame goals: walk the computation, discharging each write by computation. *)
Ltac solve_keeps :=
  repeat match goal with
  | |- ∀ _, _ => intro
  | |- keeps _ (st_bind _ _) => apply keeps_bind
  | |- keeps _ (st_for _ _) => apply keeps_for
  | |- keeps _ (match ?x with _ => _ end) => destruct x
  | |- keeps _ (st_modify _) => apply keeps_modify; done
  | |- keeps _ _ => solve [auto with keeps]
  end.

(** [st_inv] turns every hypothesis [m s = (Ok a, s')] into the facts its
    primitive steps establish. *)
Ltac st_inv_step :=
  match goal with
  | H : st_bind _ _ _ = (Ok _, _) |- _ =>
      apply st_bind_ok in H; let a := fresh "a" in let s1 := fresh "s" in
      destruct H as (a & s1 & ? & H)
  | H : st_ret _ _ = (Ok _, _) |- _ => apply st_ret_ok in H; destruct H; subst
  | H : st_throw _ _ = (Ok _, _) |- _ => apply st_throw_ok in H; destruct H
  | H : st_gets _ _ = (Ok _, _) |- _ => apply st_gets_ok in H; destruct H; subst
  | H : st_modify _ _ = (Ok _, _) |- _ => apply st_modify_ok in H; subst
  | H : st_ensure _ _ _ = (Ok _, _) |- _ => apply st_ensure_ok in H; destruct H; subst
  | H : st_lift _ _ = (Ok _, _) |- _ => apply st_lift_ok in H; destruct H; subst
  | H : ok_or _ _ = Ok _ |- _ => apply ok_or_ok in H
  | H : ensure _ _ = Ok _ |- _ => apply ensure_ok in H
  | u : unit |- _ => destruct u
  end.
Ltac st_inv := repeat st_inv_step.

(** Boolean guards as propositions. *)
Ltac bool_prop :=
  repeat match goal with
  | H : bool_decide _ = true |- _ => apply bool_decide_eq_true in H
  | H : bool_decide _ = false |- _ => apply bool_decide_eq_false in H
  | H : _ && _ = true |- _ => apply andb_true_iff in H; destruct H
  | H : negb _ = true |- _ => apply negb_true_iff in H
  | H : _ || _ = false |- _ => apply orb_false_iff in H; destruct H
  end.
