(* ===== verification/Ordering.v ===== *)
(** * Comparisons and the sorts they determine

    Rust sorts by [Ord::cmp] and its combinators [then_with] and [reverse].  The
    class [LawfulCompare] states what a total preorder promises; its instances
    cover the comparisons of the components.  A stable sort by a lawful
    comparison depends only on the multiset of its input when no two elements
    of it are equivalent. *)

From S2P Require Import Prelude.

Class LawfulCompare {A} (c : A → A → comparison) : Prop := {
  compare_flip x y : c y x = CompOpp (c x y);
  compare_trans x y z : c x y ≠ Gt → c y z ≠ Gt → c x z ≠ Gt
}.
Arguments compare_flip {A} c {_} x y.
Arguments compare_trans {A} c {_} x y z _ _.

(** The comparison a sort asks for: not greater. *)
Definition not_greater {A} (c : A → A → comparison) (x y : A) : bool :=
  match c x y with Gt => false | _ => true end.

(** [Ordering::then_with], a comparison of keys, [Ordering::reverse]. *)
Definition compare_then {A} (c1 c2 : A → A → comparison) (x y : A) : comparison :=
  match c1 x y with Eq => c2 x y | o => o end.
Definition compare_on {A B} (f : A → B) (c : B → B → comparison) (x y : A) : comparison :=
  c (f x) (f y).
Definition compare_reverse {A} (c : A → A → comparison) (x y : A) : comparison := c y x.

#[global] Typeclasses Opaque compare_then compare_on compare_reverse.

Section laws.
Context {A : Type} (c : A → A → comparison) `{!LawfulCompare c}.

Lemma compare_self x : c x x = Eq.
Proof. generalize (compare_flip c x x). by destruct (c x x). Qed.

Lemma compare_eq_l x y z : c x y = Eq → c x z = c y z.
Proof.
  intros Hxy. assert (c y x = Eq) as Hyx by (by rewrite (compare_flip c x y), Hxy).
  generalize (compare_trans c x y z) (compare_trans c y x z)
    (compare_trans c z x y) (compare_trans c z y x).
  rewrite (compare_flip c x z), (compare_flip c y z), Hxy, Hyx.
  destruct (c x z), (c y z); simpl; intros H1 H2 H3 H4;
    first [done | by destruct H1 | by destruct H2 | by destruct H3 | by destruct H4].
Qed.

Lemma not_greater_total x y : not_greater c x y = false → not_greater c y x = true.
Proof. unfold not_greater. rewrite (compare_flip c x y). by destruct (c x y). Qed.

Lemma not_greater_true x y : not_greater c x y = true ↔ c x y ≠ Gt.
Proof. unfold not_greater. destruct (c x y); naive_solver. Qed.

Lemma not_greater_both x y :
  not_greater c x y = true → not_greater c y x = true → c x y = Eq.
Proof. unfold not_greater. rewrite (compare_flip c x y). by destruct (c x y). Qed.

#[export] Instance not_greater_trans : Transitive (λ x y, not_greater c x y = true).
Proof. intros x y z. rewrite !not_greater_true. by apply (compare_trans c). Qed.
End laws.

#[export] Instance compare_then_lawful {A} (c1 c2 : A → A → comparison) :
  LawfulCompare c1 → LawfulCompare c2 → LawfulCompare (compare_then c1 c2).
Proof.
  intros H1 H2. unfold compare_then. split.
  - intros x y. rewrite (compare_flip c1 x y), (compare_flip c2 x y).
    by destruct (c1 x y).
  - intros x y z Hxy Hyz. destruct (c1 x y) eqn:E1; [|clear Hxy|done].
    + rewrite (compare_eq_l c1 x y z E1). destruct (c1 y z); [|done|done].
      by apply (compare_trans c2 x y z).
    + assert (c1 x z = Lt) as ->; [|done].
      pose proof (compare_trans c1 x y z) as Hle.
      pose proof (compare_trans c1 y z x) as Hback.
      rewrite (compare_flip c1 x y), (compare_flip c1 x z) in Hback.
      rewrite E1 in *. destruct (c1 y z), (c1 x z); simpl in *; naive_solver.
Qed.

#[export] Instance compare_on_lawful {A B} (f : A → B) (c : B → B → comparison) :
  LawfulCompare c → LawfulCompare (compare_on f c).
Proof.
  intros H. split; unfold compare_on; intros x y; [by apply (compare_flip c)|intros z].
  by apply (compare_trans c).
Qed.

#[export] Instance compare_reverse_lawful {A} (c : A → A → comparison) :
  LawfulCompare c → LawfulCompare (compare_reverse c).
Proof.
  intros H. split; unfold compare_reverse; intros x y; [by apply (compare_flip c)|intros z ??].
  by apply (compare_trans c z y x).
Qed.

#[export] Instance N_compare_lawful : LawfulCompare N.compare.
Proof.
  split; [apply N.compare_antisym|]. intros x y z. rewrite !N.compare_le_iff. lia.
Qed.
#[export] Instance Z_compare_lawful : LawfulCompare Z.compare.
Proof.
  split; [intros x y; by rewrite Z.compare_antisym|]. intros x y z.
  rewrite !Z.compare_le_iff. lia.
Qed.
#[export] Instance nat_compare_lawful : LawfulCompare Nat.compare.
Proof.
  split; [intros x y; by rewrite Nat.compare_antisym|]. intros x y z.
  rewrite !Nat.compare_le_iff. lia.
Qed.

(** [Ord] on strings is lexicographic. *)
#[export] Instance string_compare_lawful : LawfulCompare String.compare.
Proof.
  split; [intros x y; apply String.compare_antisym|].
  induction x as [|a x IH]; intros [|b y] [|d z]; simpl; try done.
  unfold Ascii.compare.
  destruct (N.compare_spec (Ascii.N_of_ascii a) (Ascii.N_of_ascii b)) as [Hab|Hab|Hab];
    destruct (N.compare_spec (Ascii.N_of_ascii b) (Ascii.N_of_ascii d)) as [Hbd|Hbd|Hbd];
    destruct (N.compare_spec (Ascii.N_of_ascii a) (Ascii.N_of_ascii d)) as [Had|Had|Had];
    try done; try (exfalso; lia).
  apply IH.
Qed.

(** A nested [lex_leb] is [not_greater] of the combined comparison. *)
Lemma lex_leb_then {A} (c1 c2 : A → A → comparison) x y :
  lex_leb (c1 x y) (not_greater c2 x y) = not_greater (compare_then c1 c2) x y.
Proof. unfold not_greater, compare_then. by destruct (c1 x y). Qed.

Lemma nat_leb_not_greater {A} (f : A → nat) x y :
  (f x <=? f y)%nat = not_greater (compare_on f Nat.compare) x y.
Proof. apply Nat.leb_compare. Qed.

Lemma N_leb_not_greater {A} (f : A → N) x y :
  (f x <=? f y)%N = not_greater (compare_on f N.compare) x y.
Proof. done. Qed.

(** ** Sorting by a lawful comparison *)

Section sort.
Context {A : Type} (c : A → A → comparison) `{!LawfulCompare c} (leb : A → A → bool).
Hypothesis (leb_compare : ∀ x y, leb x y = not_greater c x y).

Lemma leb_total_of_compare x y : leb x y = false → leb y x = true.
Proof. rewrite !leb_compare. apply not_greater_total, _. Qed.

Lemma leb_trans_of_compare : Transitive (λ x y, leb x y = true).
Proof. intros x y z. rewrite !leb_compare. apply not_greater_trans, _. Qed.

Lemma stable_sort_strong l : StronglySorted (λ x y, leb x y = true) (stable_sort leb l).
Proof.
  apply Sorted_StronglySorted; [apply leb_trans_of_compare|].
  eapply Sorted.Sorted_ind with (P := Sorted _);
    [constructor| |apply stable_sort_sorted, leb_total_of_compare].
  intros x l' _ IH Hd. constructor; [done|]. destruct Hd; constructor.
  by apply Is_true_true.
Qed.

Lemma strongly_sorted_unique l1 l2 :
  (∀ x y, x ∈ l1 → y ∈ l1 → c x y = Eq → x = y) →
  StronglySorted (λ x y, leb x y = true) l1 → StronglySorted (λ x y, leb x y = true) l2 →
  l1 ≡ₚ l2 → l1 = l2.
Proof.
  intros Heq H1 H2 Hp. eapply StronglySorted_unique_strong; [|done|done|done].
  intros x y Hx Hy Hxy Hyx. apply Heq; [done|by rewrite Hp|].
  cbn in Hxy, Hyx; rewrite leb_compare in Hxy, Hyx. by eapply not_greater_both.
Qed.

(** The order of the input does not matter. *)
Lemma stable_sort_unique l1 l2 :
  l1 ≡ₚ l2 → (∀ x y, x ∈ l1 → y ∈ l1 → c x y = Eq → x = y) →
  stable_sort leb l1 = stable_sort leb l2.
Proof.
  intros Hp Heq. apply strongly_sorted_unique; [|apply stable_sort_strong..|].
  - intros x y. rewrite !elem_of_stable_sort. apply Heq.
  - by rewrite !stable_sort_perm.
Qed.
End sort.

Lemma strongly_sorted_filter {A} (R : A → A → Prop) (P : A → Prop) `{∀ x, Decision (P x)} l :
  StronglySorted R l → StronglySorted R (filter P l).
Proof.
  induction 1 as [|x l _ IH Hx]; [constructor|]. rewrite filter_cons.
  destruct (decide (P x)); [|done]. constructor; [done|].
  apply Forall_forall. intros y [_ Hy]%list_elem_of_filter.
  by eapply Forall_forall in Hy; [|apply Hx].
Qed.

(** ** Sorting by a string key and refusing repetitions *)

(** [windows(2).any(|items| items[0].key() == items[1].key())]. *)
Fixpoint adjacent_repeat {A} (key : A → string) (l : list A) : bool :=
  match l with
  | x :: (y :: _) as rest => String.eqb (key x) (key y) || adjacent_repeat key rest
  | _ => false
  end.

Lemma str_leb_compare {A} (key : A → string) x y :
  str_leb (key x) (key y) = not_greater (compare_on key String.compare) x y.
Proof. done. Qed.

Lemma compare_on_key_eq {A} (key : A → string) x y :
  compare_on key String.compare x y = Eq → key x = key y.
Proof. apply String.compare_eq_iff. Qed.

(** In a list sorted by key, a repeated key is next to its first use. *)
Lemma adjacent_repeat_sorted {A} (key : A → string) l :
  StronglySorted (λ x y, str_leb (key x) (key y) = true) l →
  adjacent_repeat key l = false → NoDup (key <$> l).
Proof.
  induction 1 as [|x l Hs IH Hx]; [constructor|]. destruct l as [|y l]; [constructor; set_solver|].
  intros [Hxy%String.eqb_neq Hrest]%orb_false_iff. specialize (IH Hrest).
  rewrite fmap_cons. constructor; [|done]. intros (z & Hz & Hin)%list_elem_of_fmap.
  apply Hxy. apply elem_of_cons in Hin as [->|Hin]; [done|].
  apply StronglySorted_inv in Hs as [_ Hy]. rewrite Forall_forall in Hy.
  apply String.leb_antisym; [rewrite Forall_forall in Hx; apply Hx; set_solver|].
  rewrite Hz. by apply Hy.
Qed.

Lemma nodup_adjacent_repeat {A} (key : A → string) l :
  NoDup (key <$> l) → adjacent_repeat key l = false.
Proof.
  induction l as [|x l IH]; [done|]. destruct l as [|y l]; [done|].
  intros [Hx Hl]%NoDup_cons. apply orb_false_iff. split; [|by apply IH].
  apply String.eqb_neq. set_solver.
Qed.

Lemma adjacent_repeat_sort {A} (key : A → string) (leb : A → A → bool) l :
  (∀ x y, leb x y = str_leb (key x) (key y)) →
  adjacent_repeat key (stable_sort leb l) = false ↔ NoDup (key <$> l).
Proof.
  intros Hleb. split.
  - intros H. rewrite <- (stable_sort_perm leb l). apply adjacent_repeat_sorted; [|done].
    pose proof (stable_sort_strong (compare_on key String.compare) leb Hleb l) as Hs. clear H.
    induction Hs as [|x l' _ IH Hx]; [constructor|]. constructor; [done|].
    eapply Forall_impl; [done|]. intros y Hy. cbn in Hy. by rewrite <- Hleb.
  - intros Hnd. apply nodup_adjacent_repeat. by rewrite stable_sort_perm.
Qed.

(** Sorting by a key without repetitions forgets the order of the input. *)
Lemma sort_by_key_unique {A} (key : A → string) (leb : A → A → bool) l l' :
  (∀ x y, leb x y = str_leb (key x) (key y)) → NoDup (key <$> l) → l ≡ₚ l' →
  stable_sort leb l = stable_sort leb l'.
Proof.
  intros Hleb Hnd Hp.
  apply (stable_sort_unique (compare_on key String.compare) leb Hleb); [done|].
  intros x y Hx Hy Hkey%compare_on_key_eq.
  apply list_elem_of_lookup in Hx as [i Hi]. apply list_elem_of_lookup in Hy as [j Hj].
  assert (i = j) as ->; [|congruence].
  eapply NoDup_lookup; [done|by rewrite list_lookup_fmap, Hi|].
  rewrite list_lookup_fmap, Hj. simpl. congruence.
Qed.
