(* ===== verification/Protocol.v ===== *)
(** * Protocol: identifiers, JSON values, messages and durable records

    The provider-neutral data of [crates/tea-protocol]: the identifier and
    selector newtypes the macros [protocol_id!] and [selector!] generate, the
    session sequence and timestamp, JSON values as [serde_json] presents them,
    message content, canonical messages and the sixteen durable record kinds
    with their envelope. *)

From S2P Require Import Prelude.
Local Open Scope tea_scope.

(** ** Identifiers ([id.rs])

    [protocol_id!] generates one newtype over a 128-bit UUID per kind; two ids
    of different kinds never compare.  Order is the order of the UUID. *)

Inductive id_kind : Set :=
| KSession | KRun | KTurn | KMessage | KToolCall | KApproval
| KBranch | KRecord | KCorrelation | KCausation | KGrant | KEvent | KCommand.

Record protocol_id (k : id_kind) : Set := mk_id { as_uuid : N }.
Arguments mk_id {k} as_uuid.
Arguments as_uuid {k} p.

Notation SessionId := (protocol_id KSession).
Notation RunId := (protocol_id KRun).
Notation TurnId := (protocol_id KTurn).
Notation MessageId := (protocol_id KMessage).
Notation ToolCallId := (protocol_id KToolCall).
Notation ApprovalId := (protocol_id KApproval).
Notation BranchId := (protocol_id KBranch).
Notation RecordId := (protocol_id KRecord).
Notation CorrelationId := (protocol_id KCorrelation).
Notation CausationId := (protocol_id KCausation).
Notation GrantId := (protocol_id KGrant).
Notation EventId := (protocol_id KEvent).
Notation CommandId := (protocol_id KCommand).

#[export] Instance protocol_id_eq_dec k : EqDecision (protocol_id k).
Proof. solve_decision. Defined.

#[export] Program Instance protocol_id_countable k : Countable (protocol_id k) :=
  inj_countable' as_uuid mk_id _.
Next Obligation. by intros k []. Qed.

(** [Ord] on identifiers. *)
Definition id_le {k} (a b : protocol_id k) : Prop := (as_uuid a ≤ as_uuid b)%N.

#[export] Instance id_le_dec k (a b : protocol_id k) : Decision (id_le a b).
Proof. unfold id_le. apply _. Defined.

(** The [uuid] crate's text of a UUID ([Uuid::hyphenated]) and its parser, which
    accepts more forms than the canonical one. *)
Class UuidText : Type := {
  hyphenated : N → string;
  uuid_parse : string → option N
}.

Inductive ProtocolIdParseError : Set := InvalidUuid | NonCanonical | WrongVersion.

(** [Uuid::get_version] reads the high nibble of the seventh byte. *)
Definition uuid_version (uuid : N) : N := ((uuid / 2 ^ 76) mod 16)%N.

Definition show_protocol_id `{UuidText} {k} (id : protocol_id k) : string :=
  hyphenated (as_uuid id).

Definition parse_uuid_v7 `{UuidText} (value : string) : Result ProtocolIdParseError N :=
  let? uuid := ok_or (uuid_parse value) InvalidUuid in
  try? ensure (uuid_version uuid =? 7)%N WrongVersion in
  try? ensure (String.eqb (hyphenated uuid) value) NonCanonical in
  Ok uuid.

Definition parse_protocol_id `{UuidText} {k} (value : string)
    : Result ProtocolIdParseError (protocol_id k) :=
  let? uuid := parse_uuid_v7 value in Ok (mk_id uuid).

(** ** Selectors ([command.rs], macro [selector!]) *)

Inductive selector_kind : Set := KProfile | KModel | KProvider | KActor | KWorkspace.

Record selector (k : selector_kind) : Set := mk_selector { selector_str : string }.
Arguments mk_selector {k} selector_str.
Arguments selector_str {k} s.

Notation ProfileId := (selector KProfile).
Notation ModelId := (selector KModel).
Notation ProviderId := (selector KProvider).
Notation ActorId := (selector KActor).
Notation WorkspaceId := (selector KWorkspace).

#[export] Instance selector_eq_dec k : EqDecision (selector k).
Proof. solve_decision. Defined.

#[export] Program Instance selector_countable k : Countable (selector k) :=
  inj_countable' selector_str mk_selector _.
Next Obligation. by intros k []. Qed.

(** ** Sequence and timestamp ([sequence.rs], [timestamp.rs])

    A sequence is a [u64]; a timestamp is a UTC instant, here its milliseconds
    since the epoch, compared as an integer. *)

Record SessionSequence : Set := SessionSequence_new { seq_get : N }.

#[export] Instance SessionSequence_eq_dec : EqDecision SessionSequence.
Proof. solve_decision. Defined.

Definition checked_next (s : SessionSequence) : option SessionSequence :=
  SessionSequence_new <$> checked_add_u64 (seq_get s) 1.

Record ProtocolTimestamp : Set := Timestamp { as_utc : Z }.

#[export] Instance ProtocolTimestamp_eq_dec : EqDecision ProtocolTimestamp.
Proof. solve_decision. Defined.

Definition ts_ltb (a b : ProtocolTimestamp) : bool := (as_utc a <? as_utc b)%Z.
Definition ts_leb (a b : ProtocolTimestamp) : bool := (as_utc a <=? as_utc b)%Z.

(** ** JSON values

    [serde_json::Value] with its documented variants.  An object is its
    key-sorted entry list (the default [Map] is a [BTreeMap]).  A number is one
    of the three documented forms; a finite float is its bit pattern. *)

Inductive JsonNumber : Set :=
| PosInt (n : N)
| NegInt (z : Z)
| Float (bits : N).

Inductive Value : Set :=
| JNull
| JBool (b : bool)
| JNumber (n : JsonNumber)
| JString (s : string)
| JArray (values : list Value)
| JObject (entries : list (string * Value)).

#[export] Instance JsonNumber_eq_dec : EqDecision JsonNumber.
Proof. solve_decision. Defined.

Definition Value_eq_dec_aux : ∀ x y : Value, {x = y} + {x ≠ y}.
Proof.
  fix IH 1. intros x y. destruct x as [|b|n|s|l|l], y as [|b'|n'|s'|l'|l'];
    try (right; discriminate).
  - by left.
  - destruct (decide (b = b')); [left|right]; congruence.
  - destruct (decide (n = n')); [left|right]; congruence.
  - destruct (decide (s = s')); [left|right]; congruence.
  - destruct (List.list_eq_dec IH l l'); [left|right]; congruence.
  - assert (∀ p q : string * Value, {p = q} + {p ≠ q}) as IHp.
    { intros [k v] [k' v']. destruct (decide (k = k')), (IH v v'); [left|right..]; congruence. }
    destruct (List.list_eq_dec IHp l l'); [left|right]; congruence.
Defined.

#[export] Instance Value_eq_dec : EqDecision Value := Value_eq_dec_aux.

(** Induction over nested values. *)
Definition Value_nested_ind (P : Value → Prop)
    (Hnull : P JNull) (Hbool : ∀ b, P (JBool b)) (Hnum : ∀ n, P (JNumber n))
    (Hstr : ∀ s, P (JString s))
    (Harr : ∀ values, Forall P values → P (JArray values))
    (Hobj : ∀ entries, Forall (λ kv, P kv.2) entries → P (JObject entries)) : ∀ v, P v.
Proof.
  fix IH 1. intros [|b|n|s|values|entries].
  - exact Hnull.
  - apply Hbool.
  - apply Hnum.
  - apply Hstr.
  - apply Harr. induction values; constructor; auto.
  - apply Hobj. induction entries as [|[k v] entries]; constructor; simpl; auto.
Defined.

(** [Value::is_object]. *)
Definition is_object (v : Value) : bool :=
  match v with JObject _ => true | _ => false end.

(** [Value::get] with a key, and [Value::as_str]. *)
Definition json_get (v : Value) (key : string) : option Value :=
  match v with
  | JObject entries => (λ found, found.2.2) <$> list_find (λ kv, kv.1 = key) entries
  | _ => None
  end.

Definition json_as_str (v : Value) : option string :=
  match v with JString s => Some s | _ => None end.

(** [Map::insert] into the sorted entries of an object, and [Map::remove]. *)
Fixpoint insert_entry (key : string) (value : Value) (entries : list (string * Value))
    : list (string * Value) :=
  match entries with
  | [] => [(key, value)]
  | (key', value') :: entries =>
      match String.compare key key' with
      | Lt => (key, value) :: (key', value') :: entries
      | Eq => (key, value) :: entries
      | Gt => (key', value') :: insert_entry key value entries
      end
  end.

Definition without_key (key : string) (entries : list (string * Value)) : list (string * Value) :=
  List.filter (λ entry, negb (String.eqb entry.1 key)) entries.

(** [ProtocolMetadata] ([metadata.rs]): a namespace-keyed map of values. *)
Notation ProtocolMetadata := (gmap string Value).

(** ** Configuration selectors *)

(** [ModelRef] ([model.rs]). *)
Record ModelRef : Set := mk_ModelRef { mr_provider_id : ProviderId; mr_model_id : ModelId }.

#[export] Instance ModelRef_eq_dec : EqDecision ModelRef.
Proof. solve_decision. Defined.

(** [ReasoningEffort] ([reasoning.rs]). *)
Inductive ReasoningEffort : Set :=
| EffortOff | EffortMinimal | EffortLow | EffortMedium | EffortHigh
| EffortExtraHigh | EffortMaximum.

#[export] Instance ReasoningEffort_eq_dec : EqDecision ReasoningEffort.
Proof. solve_decision. Defined.

(** [FinalOutputFormat] ([final_output.rs]). *)
Inductive FinalOutputFormat : Set := FormatJsonObject | FormatJsonSchema (schema : Value).

(** ** External content ([external.rs]) *)

Record ExternalSource : Set := mk_ExternalSource {
  es_url : string;
  es_title : option string;
  es_snippet : option string
}.

Record ProviderContinuation : Set := mk_ProviderContinuation {
  pc_provider : string;
  pc_format : string;
  pc_payload : Value
}.

Record HostedToolError : Set := mk_HostedToolError { hte_code : string; hte_message : string }.

Inductive HostedToolOutcome : Set :=
| HostedSuccess
| HostedError (e : HostedToolError).

Record HostedToolActivity : Set := mk_HostedToolActivity {
  hta_tool_call_id : ToolCallId;
  hta_provider_call_id : string;
  hta_tool_name : string;
  hta_arguments : Value;
  hta_outcome : HostedToolOutcome;
  hta_sources : list ExternalSource;
  hta_continuation : option ProviderContinuation
}.

Record SourceCitation : Set := mk_SourceCitation {
  sc_tool_call_id : option ToolCallId;
  sc_source : ExternalSource;
  sc_start_index : option N;
  sc_end_index : option N;
  sc_cited_text : option string;
  sc_continuation : option ProviderContinuation
}.

#[export] Instance ExternalSource_eq_dec : EqDecision ExternalSource.
Proof. solve_decision. Defined.
#[export] Instance ProviderContinuation_eq_dec : EqDecision ProviderContinuation.
Proof. solve_decision. Defined.
#[export] Instance HostedToolError_eq_dec : EqDecision HostedToolError.
Proof. solve_decision. Defined.
#[export] Instance HostedToolOutcome_eq_dec : EqDecision HostedToolOutcome.
Proof. solve_decision. Defined.
#[export] Instance HostedToolActivity_eq_dec : EqDecision HostedToolActivity.
Proof. solve_decision. Defined.
#[export] Instance SourceCitation_eq_dec : EqDecision SourceCitation.
Proof. solve_decision. Defined.

(** ** Content blocks ([content.rs]) *)

Inductive ImageSource : Set :=
| InlineBase64 (data : string)
| Reference (reference : string).

Inductive ContentBlock : Set :=
| Text (text : string)
| ContextualText (text : string)
| Thinking (text : string)
| Image (mime_type : string) (source : ImageSource)
| ToolCall (tool_call_id : ToolCallId) (provider_call_id : option string)
    (tool_name : string) (arguments : Value)
| HostedTool (activity : HostedToolActivity)
| Citation (citation : SourceCitation).

#[export] Instance ImageSource_eq_dec : EqDecision ImageSource.
Proof. solve_decision. Defined.
#[export] Instance ContentBlock_eq_dec : EqDecision ContentBlock.
Proof. solve_decision. Defined.

(** ** Messages ([message.rs]) *)

Inductive MessageRole : Set := RoleUser | RoleAssistant | RoleToolResult.

#[export] Instance MessageRole_eq_dec : EqDecision MessageRole.
Proof. solve_decision. Defined.

Inductive StopReason : Set :=
| StopCompleted | StopLength | StopToolUse | StopPauseTurn | StopRefusal
| StopCancelled | StopError | StopUnknown (value : string).

#[export] Instance StopReason_eq_dec : EqDecision StopReason.
Proof. solve_decision. Defined.

Record ToolFailure : Set := mk_ToolFailure { tf_code : string; tf_message : string }.

#[export] Instance ToolFailure_eq_dec : EqDecision ToolFailure.
Proof. solve_decision. Defined.

Inductive CanonicalMessage : Set :=
| User (id : MessageId) (content : list ContentBlock) (timestamp : ProtocolTimestamp)
| Assistant (id : MessageId) (content : list ContentBlock) (stop_reason : StopReason)
    (timestamp : ProtocolTimestamp)
| ToolResult (id : MessageId) (tool_call_id : ToolCallId) (tool_name : string)
    (content : list ContentBlock) (is_error : bool) (error : option ToolFailure)
    (timestamp : ProtocolTimestamp).

#[export] Instance CanonicalMessage_eq_dec : EqDecision CanonicalMessage.
Proof. solve_decision. Defined.

(** [CanonicalMessage::role]. *)
Definition role (m : CanonicalMessage) : MessageRole :=
  match m with
  | User _ _ _ => RoleUser
  | Assistant _ _ _ _ => RoleAssistant
  | ToolResult _ _ _ _ _ _ _ => RoleToolResult
  end.

(** ** Tool presentations ([change.rs], [external.rs]) *)

Inductive CodeChangeKind : Set := ChangeCreate | ChangeUpdate | ChangeDelete.
Inductive CodeChangeTruncation : Set :=
| TruncatedHunks | TruncatedLines | TruncatedLineBytes | TruncatedPatchBytes.
Inductive CodeChangeLineKind : Set := LineContext | LineAddition | LineDeletion.

Record CodeChangeLine : Set := mk_CodeChangeLine {
  ccl_kind : CodeChangeLineKind;
  ccl_old_line : option N;
  ccl_new_line : option N;
  ccl_text : string
}.

Record CodeChangeHunk : Set := mk_CodeChangeHunk {
  cch_old_start : N;
  cch_old_lines : N;
  cch_new_start : N;
  cch_new_lines : N;
  cch_lines : list CodeChangeLine
}.

Record CodeChange : Set := mk_CodeChange {
  cc_path : string;
  cc_kind : CodeChangeKind;
  cc_hunks : list CodeChangeHunk;
  cc_truncated : bool;
  cc_truncation : option CodeChangeTruncation;
  cc_patch : option string;
  cc_first_changed_line : option N
}.

Inductive WebFetchTruncation : Set :=
| FetchCompressedBytes | FetchDecodedBytes | FetchBodyCharacters | FetchParserComplexity.

Record WebFetchRedirect : Set := mk_WebFetchRedirect {
  wfr_from : string;
  wfr_to : string;
  wfr_status : N
}.

Record WebFetchPresentation : Set := mk_WebFetchPresentation {
  wfp_requested_url : string;
  wfp_final_url : string;
  wfp_title : option string;
  wfp_mime_type : string;
  wfp_body : string;
  wfp_truncation : option WebFetchTruncation;
  wfp_redirects : list WebFetchRedirect
}.

Inductive ToolPresentation : Set :=
| PresentCodeChange (change : CodeChange)
| PresentWebFetch (fetch : WebFetchPresentation).

(** ** Durable records ([record.rs], [command.rs]) *)

Inductive ApprovalDecision : Set := AllowOnce | AllowSession | DenyApproval.

#[export] Instance ApprovalDecision_eq_dec : EqDecision ApprovalDecision.
Proof. solve_decision. Defined.

(** The policy outcome a durable record carries. *)
Inductive RecordedPolicyDecision : Set := PolicyAllow | PolicyDeny | PolicyRequireApproval.

#[export] Instance RecordedPolicyDecision_eq_dec : EqDecision RecordedPolicyDecision.
Proof. solve_decision. Defined.

Inductive ExecutionTarget : Set := TargetNative | TargetMcp | TargetRemote.
Inductive ToolIdempotency : Set := Idempotent | NonIdempotent | ExternallyReconciled.
Inductive NextTurnAction : Set := NextModelRequest | NextWaitForApproval | NextFinishRun.

Inductive SessionRecord : Set :=
| SessionCreated (profile_id : ProfileId) (metadata : ProtocolMetadata)
| MessageCommitted (message : CanonicalMessage)
| ConfigurationChanged (model : option ModelRef) (profile_id : option ProfileId)
    (reasoning_effort : option ReasoningEffort)
| ToolCallRequested (tool_call_id : ToolCallId) (tool_name : string) (arguments : Value)
| PolicyDecisionRecorded (tool_call_id : ToolCallId) (decision : RecordedPolicyDecision)
| ApprovalRequested (approval_id : ApprovalId) (tool_call_id : ToolCallId)
    (expires_at : ProtocolTimestamp)
| ApprovalResolved (approval_id : ApprovalId) (decision : ApprovalDecision)
| ToolExecutionStarted (tool_call_id : ToolCallId) (execution_target : ExecutionTarget)
    (idempotency : ToolIdempotency)
| ToolExecutionFinished (tool_call_id : ToolCallId) (is_error : bool)
    (content : list ContentBlock) (error : option ToolFailure)
    (presentation : option ToolPresentation)
| ToolExecutionInterrupted (tool_call_id : ToolCallId) (reason : string)
| RunInterrupted (run_id : RunId) (turn_id : TurnId) (reason : string)
| RunCancelled (run_id : RunId)
| BranchCreated (source_branch_id : BranchId) (branch_id : BranchId)
    (from_record_id : RecordId)
| ActiveBranchChanged (branch_id : BranchId)
| SessionCompacted (summary : CanonicalMessage) (compacted_through_record_id : RecordId)
| TurnCheckpointed (run_id : RunId) (turn_id : TurnId) (next_action : NextTurnAction).

(** [ProtocolVersion] ([version.rs]). *)
Record ProtocolVersion : Set := mk_ProtocolVersion { pv_major : N; pv_minor : N }.

Definition CURRENT_PROTOCOL_VERSION : ProtocolVersion := mk_ProtocolVersion 1 0.

Record RecordEnvelope : Set := mk_RecordEnvelope {
  env_protocol_version : ProtocolVersion;
  env_record_id : RecordId;
  env_session_id : SessionId;
  env_sequence : SessionSequence;
  env_timestamp : ProtocolTimestamp;
  env_causation_id : option CausationId;
  env_correlation_id : option CorrelationId;
  env_branch_id : option BranchId;
  env_metadata : ProtocolMetadata;
  env_record : SessionRecord
}.
