(* ===== verification/Utf8.v ===== *)
(** * UTF-8: characters of byte sequences

    What the sources use of the standard library's text handling: the
    characters of a [str], [char::len_utf8] and [String::from_utf8_lossy], which
    replaces every maximal invalid sequence by U+FFFD.  A character is its code
    point. *)

From Stdlib Require Import ZifyBool ZifyN.
From S2P Require Import Prelude.
Local Open Scope tea_scope.

(** ** Encoding *)

(** A Unicode scalar value: a code point that is not a surrogate. *)
Definition is_scalar (c : N) : bool :=
  (c <? 55296)%N || (57344 <=? c)%N && (c <? 1114112)%N.

Definition continuation (c : N) : N := (128 + c mod 64)%N.

Definition encode_char (c : N) : list N :=
  if (c <? 128)%N then [c]
  else if (c <? 2048)%N then [192 + c / 64; continuation c]%N
  else if (c <? 65536)%N then [224 + c / 4096; continuation (c / 64); continuation c]%N
  else [240 + c / 262144; continuation (c / 4096); continuation (c / 64); continuation c]%N.

Definition encode_chars (cs : list N) : list N := cs ≫= encode_char.

(** ** Decoding *)

Definition REPLACEMENT_CHARACTER : N := 65533.

Definition in_range (low high b : N) : bool := (low <=? b)%N && (b <=? high)%N.

(** What may follow the first byte of a three- and a four-byte sequence: no
    overlong form, no surrogate, nothing above U+10FFFF. *)
Definition second_of_three (b c : N) : bool :=
  if (b =? 224)%N then in_range 160 191 c
  else if (b =? 237)%N then in_range 128 159 c
  else in_range 128 191 c.
Definition second_of_four (b c : N) : bool :=
  if (b =? 240)%N then in_range 144 191 c
  else if (b =? 244)%N then in_range 128 143 c
  else in_range 128 191 c.

Fixpoint utf8_chars (bs : list N) : list N :=
  match bs with
  | [] => []
  | b :: r =>
      if (b <? 128)%N then b :: utf8_chars r
      else if in_range 194 223 b then
        match r with
        | c :: r1 =>
            if is_continuation c then ((b - 192) * 64 + (c - 128))%N :: utf8_chars r1
            else REPLACEMENT_CHARACTER :: utf8_chars r
        | [] => [REPLACEMENT_CHARACTER]
        end
      else if in_range 224 239 b then
        match r with
        | c :: r1 =>
            if second_of_three b c then
              match r1 with
              | d :: r2 =>
                  if is_continuation d then
                    ((b - 224) * 4096 + (c - 128) * 64 + (d - 128))%N :: utf8_chars r2
                  else REPLACEMENT_CHARACTER :: utf8_chars r1
              | [] => [REPLACEMENT_CHARACTER]
              end
            else REPLACEMENT_CHARACTER :: utf8_chars r
        | [] => [REPLACEMENT_CHARACTER]
        end
      else if in_range 240 244 b then
        match r with
        | c :: r1 =>
            if second_of_four b c then
              match r1 with
              | d :: r2 =>
                  if is_continuation d then
                    match r2 with
                    | e :: r3 =>
                        if is_continuation e then
                          ((b - 240) * 262144 + (c - 128) * 4096 + (d - 128) * 64 + (e - 128))%N
                          :: utf8_chars r3
                        else REPLACEMENT_CHARACTER :: utf8_chars r2
                    | [] => [REPLACEMENT_CHARACTER]
                    end
                  else REPLACEMENT_CHARACTER :: utf8_chars r1
              | [] => [REPLACEMENT_CHARACTER]
              end
            else REPLACEMENT_CHARACTER :: utf8_chars r
        | [] => [REPLACEMENT_CHARACTER]
        end
      else REPLACEMENT_CHARACTER :: utf8_chars r
  end.

(** [str::chars] and the string of some characters. *)
Definition chars (s : string) : list N := utf8_chars (bytes s).
Definition string_of_chars (cs : list N) : string := string_of_bytes (encode_chars cs).

Definition from_utf8_lossy (bs : list N) : string := string_of_chars (utf8_chars bs).

(** ** Decoding what was encoded *)

(** Boolean range checks as a goal of linear arithmetic with division. *)
Ltac range_lia :=
  unfold is_scalar, second_of_three, second_of_four, in_range, is_continuation, continuation in *;
  zify; Z.to_euclidean_division_equations; lia.

Lemma is_continuation_continuation c : is_continuation (continuation c) = true.
Proof. range_lia. Qed.

Lemma second_of_three_encode c :
  (2048 <= c)%N → (c < 65536)%N → is_scalar c = true →
  second_of_three (224 + c / 4096) (continuation (c / 64)) = true.
Proof.
  intros Hl Hu Hs. unfold second_of_three.
  destruct (N.eqb_spec (224 + c / 4096) 224); [range_lia|].
  destruct (N.eqb_spec (224 + c / 4096) 237); range_lia.
Qed.

Lemma second_of_four_encode c :
  (65536 <= c)%N → is_scalar c = true →
  second_of_four (240 + c / 262144) (continuation (c / 4096)) = true.
Proof.
  intros Hl Hs. unfold second_of_four.
  destruct (N.eqb_spec (240 + c / 262144) 240); [range_lia|].
  destruct (N.eqb_spec (240 + c / 262144) 244); range_lia.
Qed.

(** Decide the check [b] of the goal. *)
Ltac check b v := replace b with v by range_lia.

Lemma utf8_chars_encode c rest :
  is_scalar c = true → utf8_chars (encode_char c ++ rest) = c :: utf8_chars rest.
Proof.
  intros Hs. unfold encode_char.
  destruct (N.ltb_spec c 128) as [H|H]; [simpl; by rewrite (proj2 (N.ltb_lt _ _) H)|].
  destruct (N.ltb_spec c 2048) as [H'|H'].
  { cbn [app utf8_chars]. check (192 + c / 64 <? 128)%N false.
    check (in_range 194 223 (192 + c / 64)) true.
    rewrite is_continuation_continuation. f_equal. range_lia. }
  destruct (N.ltb_spec c 65536) as [H''|H''].
  { cbn [app utf8_chars]. check (224 + c / 4096 <? 128)%N false.
    check (in_range 194 223 (224 + c / 4096)) false.
    check (in_range 224 239 (224 + c / 4096)) true.
    rewrite second_of_three_encode, is_continuation_continuation by done.
    f_equal. range_lia. }
  cbn [app utf8_chars]. check (240 + c / 262144 <? 128)%N false.
  check (in_range 194 223 (240 + c / 262144)) false.
  check (in_range 224 239 (240 + c / 262144)) false.
  check (in_range 240 244 (240 + c / 262144)) true.
  rewrite second_of_four_encode, !is_continuation_continuation by done.
  f_equal. range_lia.
Qed.

Lemma utf8_chars_encode_chars cs rest :
  Forall (λ c, is_scalar c = true) cs →
  utf8_chars (encode_chars cs ++ rest) = cs ++ utf8_chars rest.
Proof.
  induction 1 as [|c cs Hc _ IH]; [done|]. unfold encode_chars. simpl. rewrite <- app_assoc.
  rewrite utf8_chars_encode by done. simpl. by f_equal.
Qed.

(** Decoding yields scalar values only. *)
Lemma utf8_chars_scalar bs : Forall (λ c, is_scalar c = true) (utf8_chars bs).
Proof.
  induction bs as [bs IH] using list_length_ind.
  assert (∀ c r, length r < length bs → is_scalar c = true →
    Forall (λ c, is_scalar c = true) (c :: utf8_chars r)) as Hcons by (constructor; auto).
  destruct bs as [|b r]; [constructor|]. cbn [utf8_chars].
  destruct (b <? 128)%N eqn:H1; [apply Hcons; [simpl; lia|range_lia]|].
  destruct (in_range 194 223 b) eqn:H2.
  { destruct r as [|c r1]; [by repeat constructor|].
    destruct (is_continuation c) eqn:Hc; apply Hcons; [simpl; lia|range_lia|simpl; lia|done]. }
  destruct (in_range 224 239 b) eqn:H3.
  { destruct r as [|c r1]; [by repeat constructor|].
    destruct (second_of_three b c) eqn:Hc; [|apply Hcons; [simpl; lia|done]].
    destruct r1 as [|d r2]; [by repeat constructor|].
    destruct (is_continuation d) eqn:Hd; [|apply Hcons; [simpl; lia|done]].
    apply Hcons; [simpl; lia|]. unfold second_of_three in Hc.
    destruct (N.eqb_spec b 224); [range_lia|]. destruct (N.eqb_spec b 237); range_lia. }
  destruct (in_range 240 244 b) eqn:H4; [|apply Hcons; [simpl; lia|done]].
  destruct r as [|c r1]; [by repeat constructor|].
  destruct (second_of_four b c) eqn:Hc; [|apply Hcons; [simpl; lia|done]].
  destruct r1 as [|d r2]; [by repeat constructor|].
  destruct (is_continuation d) eqn:Hd; [|apply Hcons; [simpl; lia|done]].
  destruct r2 as [|e r3]; [by repeat constructor|].
  destruct (is_continuation e) eqn:He; [|apply Hcons; [simpl; lia|done]].
  apply Hcons; [simpl; lia|]. unfold second_of_four in Hc.
  destruct (N.eqb_spec b 240); [range_lia|]. destruct (N.eqb_spec b 244); range_lia.
Qed.

Lemma encode_chars_bytes cs :
  Forall (λ c, is_scalar c = true) cs → forallb (λ b, (b <? 256)%N) (encode_chars cs) = true.
Proof.
  induction 1 as [|c cs Hc _ IH]; [done|]. unfold encode_chars. simpl.
  rewrite forallb_app. apply andb_true_iff. split; [|exact IH]. unfold encode_char.
  repeat case_match; cbn [forallb]; range_lia.
Qed.

Lemma chars_string_of_chars cs :
  Forall (λ c, is_scalar c = true) cs → chars (string_of_chars cs) = cs.
Proof.
  intros Hs. unfold chars, string_of_chars.
  rewrite bytes_string_of_bytes by by apply encode_chars_bytes.
  rewrite <- (app_nil_r (encode_chars cs)), utf8_chars_encode_chars by done. by apply app_nil_r.
Qed.

(** Lossy decoding keeps the characters, and keeps text that is UTF-8. *)
Lemma chars_from_utf8_lossy bs : chars (from_utf8_lossy bs) = utf8_chars bs.
Proof. apply chars_string_of_chars, utf8_chars_scalar. Qed.

Lemma from_utf8_lossy_encode cs :
  Forall (λ c, is_scalar c = true) cs → from_utf8_lossy (encode_chars cs) = string_of_chars cs.
Proof.
  intros Hs. unfold from_utf8_lossy.
  by rewrite <- (app_nil_r (encode_chars cs)), utf8_chars_encode_chars, app_nil_r.
Qed.


Lemma string_of_chars_app l1 l2 :
  string_of_chars (l1 ++ l2) = (string_of_chars l1 ++ string_of_chars l2)%string.
Proof.
  unfold string_of_chars, encode_chars. rewrite bind_app. apply string_of_bytes_app.
Qed.

(** ASCII text is its own encoding. *)
Lemma encode_chars_ascii cs :
  forallb (λ c, (c <? 128)%N) cs = true → encode_chars cs = cs.
Proof.
  induction cs as [|c cs IH]; [done|]. cbn [forallb]. intros [Hc Hcs]%andb_true_iff.
  unfold encode_chars. simpl. unfold encode_char at 1. rewrite Hc. simpl. f_equal. by apply IH.
Qed.

(** ** Classes and positions of characters *)

(** [char::is_control]: the general category [Cc]. *)
Definition is_control (c : N) : bool := (c <? 32)%N || in_range 127 159 c.

(** [char::is_whitespace]: the property [White_Space]. *)
Definition is_whitespace (c : N) : bool :=
  in_range 9 13 c || (c =? 32)%N || (c =? 133)%N || (c =? 160)%N || (c =? 5760)%N
  || in_range 8192 8202 c || in_range 8232 8233 c || (c =? 8239)%N || (c =? 8287)%N
  || (c =? 12288)%N.

(** [str::trim_start]. *)
Fixpoint skip_whitespace (cs : list N) : list N :=
  match cs with
  | c :: rest => if is_whitespace c then skip_whitespace rest else cs
  | [] => []
  end.

(** [str::trim]. *)
Definition trim_chars (cs : list N) : list N := rev (skip_whitespace (rev (skip_whitespace cs))).

(** [u8::is_ascii_whitespace]. *)
Definition is_ascii_whitespace (c : N) : bool :=
  (c =? 32)%N || (c =? 9)%N || (c =? 10)%N || (c =? 12)%N || (c =? 13)%N.

Definition is_ascii_alphabetic (c : N) : bool := is_ascii_lowercase c || is_ascii_uppercase c.

(** [char::len_utf8], and the [len] of the string of some characters. *)
Definition char_len (c : N) : nat := length (encode_char c).
Definition chars_len (cs : list N) : nat := length (encode_chars cs).

(** The characters before the last boundary at most [limit] bytes in. *)
Fixpoint floor_chars (limit : nat) (cs : list N) : list N :=
  match cs with
  | [] => []
  | c :: rest =>
      if (char_len c <=? limit)%nat then c :: floor_chars (limit - char_len c) rest else []
  end.

Lemma chars_len_cons c cs : chars_len (c :: cs) = char_len c + chars_len cs.
Proof. unfold chars_len, encode_chars. simpl. by rewrite length_app. Qed.

Lemma chars_len_app l1 l2 : chars_len (l1 ++ l2) = chars_len l1 + chars_len l2.
Proof. unfold chars_len, encode_chars. by rewrite bind_app, length_app. Qed.

Lemma floor_chars_len limit cs : chars_len (floor_chars limit cs) ≤ limit.
Proof.
  revert limit. induction cs as [|c cs IH]; intros limit; simpl; [unfold chars_len; simpl; lia|].
  destruct (Nat.leb_spec (char_len c) limit); [|unfold chars_len; simpl; lia].
  rewrite chars_len_cons. specialize (IH (limit - char_len c)). lia.
Qed.

Lemma floor_chars_prefix limit cs : floor_chars limit cs `prefix_of` cs.
Proof.
  revert limit. induction cs as [|c cs IH]; intros limit; simpl; [done|].
  case_match; [by apply prefix_cons|apply prefix_nil].
Qed.

Lemma str_len_string_of_chars cs :
  Forall (λ c, is_scalar c = true) cs → str_len (string_of_chars cs) = N.of_nat (chars_len cs).
Proof.
  intros Hs. unfold str_len, string_of_chars, chars_len. f_equal.
  by rewrite <- length_bytes, bytes_string_of_bytes by by apply encode_chars_bytes.
Qed.

(** The null characters of a text are its null bytes. *)
Lemma contains_nul_string_of_chars cs :
  Forall (λ c, is_scalar c = true) cs →
  contains_nul (string_of_chars cs) = existsb (λ c, (c =? 0)%N) cs.
Proof.
  intros Hs. unfold contains_nul, string_of_chars.
  rewrite bytes_string_of_bytes by by apply encode_chars_bytes. clear Hs.
  induction cs as [|c cs IH]; [done|]. unfold encode_chars. simpl. rewrite existsb_app.
  f_equal; [|exact IH]. unfold encode_char.
  repeat case_match; cbn [existsb]; range_lia.
Qed.

(** ** Trimming *)

Lemma skip_whitespace_forall P cs : Forall P cs → Forall P (skip_whitespace cs).
Proof. induction 1 as [|c cs]; [done|]. simpl. destruct (is_whitespace c); [done|by constructor]. Qed.

Lemma trim_chars_forall P cs : Forall P cs → Forall P (trim_chars cs).
Proof.
  intros Hcs. unfold trim_chars.
  apply Forall_rev, skip_whitespace_forall, Forall_rev, skip_whitespace_forall, Hcs.
Qed.

Lemma skip_whitespace_idemp cs : skip_whitespace (skip_whitespace cs) = skip_whitespace cs.
Proof.
  induction cs as [|c cs IH]; [done|]. simpl. destruct (is_whitespace c) eqn:Hc; [done|].
  simpl. by rewrite Hc.
Qed.

Lemma skip_whitespace_suffix cs : skip_whitespace cs `suffix_of` cs.
Proof.
  induction cs as [|c cs IH]; simpl; [done|].
  destruct (is_whitespace c); [by apply suffix_cons_r|done].
Qed.

(** A prefix of text that starts with no white space starts with none. *)
Lemma skip_whitespace_prefix l cs :
  l `prefix_of` cs → skip_whitespace cs = cs → skip_whitespace l = l.
Proof.
  destruct l as [|c l]; [done|]. intros [rest ->]. simpl.
  destruct (is_whitespace c) eqn:Hc; [|done]. intros Heq. exfalso.
  pose proof (suffix_length _ _ (skip_whitespace_suffix (l ++ rest))) as Hlen.
  rewrite Heq in Hlen. simpl in Hlen. lia.
Qed.

Lemma trim_chars_idemp cs : trim_chars (trim_chars cs) = trim_chars cs.
Proof.
  set (l := skip_whitespace cs).
  change (trim_chars (trim_chars cs)) with
    (rev (skip_whitespace (rev (skip_whitespace (trim_chars cs))))).
  change (trim_chars cs) with (rev (skip_whitespace (rev l))).
  assert (skip_whitespace (rev (skip_whitespace (rev l))) = rev (skip_whitespace (rev l))) as ->.
  { apply (skip_whitespace_prefix _ l); [|apply skip_whitespace_idemp].
    destruct (skip_whitespace_suffix (rev l)) as [k Hk]. exists (rev k).
    by rewrite <- rev_app_distr, <- Hk, rev_involutive. }
  by rewrite rev_involutive, skip_whitespace_idemp.
Qed.

Lemma chars_scalar s : Forall (λ c, is_scalar c = true) (chars s).
Proof. apply utf8_chars_scalar. Qed.

Lemma char_len_pos c : 0 < char_len c.
Proof. unfold char_len, encode_char. repeat case_match; simpl; lia. Qed.
