(* ===== verification/Sse.v ===== *)
(** * Server-sent events

    [crates/tea-provider-openai/src/sse.rs]: the incremental parser that turns
    the chunks of a response body into [data:] payloads.  The parser of
    [tea-provider-anthropic] is the same code.  The reference reading of a body
    knows nothing of chunks; the parser computes it however the body is cut. *)

From S2P Require Import Prelude Utf8.
Local Open Scope tea_scope.

(** ** The parser *)

Inductive SseEvent : Set :=
| SseData (payload : string)
| SseDone.

Record SseParser : Set := mk_SseParser {
  sse_buffer : list N;
  sse_pending : option string
}.

Definition sse_parser_new : SseParser := mk_SseParser [] None.

Definition classify (data : string) : SseEvent :=
  if String.eqb data "[DONE]" then SseDone else SseData data.

Definition LINE_FEED : string := string_of_bytes [10%N].

(** What the rest of a [data:] line adds. *)
Definition data_value (rest : string) : string := default rest (strip_prefix " " rest).

(** [if let Some(data) = self.pending.take() { events.push(classify(&data)) }]. *)
Definition flush (pending : option string) : list SseEvent :=
  match pending with Some data => [classify data] | None => [] end.

(** The pending data and the events after a line. *)
Definition process_line (line : string) (pending : option string)
    : option string * list SseEvent :=
  if String.eqb line "" then (None, flush pending)
  else if String.prefix ":" line then (pending, [])
  else match strip_prefix "data:" line with
       | Some rest =>
           let value := data_value rest in
           (match pending with
            | Some existing => Some (existing ++ LINE_FEED ++ value)%string
            | None => Some value
            end, [])
       | None => (pending, [])
       end.

(** [if line.last() == Some(&b'\r') { line.pop(); }]. *)
Definition pop_cr (line : list N) : list N :=
  match last line with
  | Some b => if (b =? 13)%N then take (length line - 1) line else line
  | None => line
  end.

(** The loop that drains a line up to each LF, without the LF, and what stays in
    the buffer. *)
Fixpoint drain_lines (buffer : list N) : list (list N) * list N :=
  match buffer with
  | [] => ([], [])
  | b :: rest =>
      let '(lines, buffer) := drain_lines rest in
      if (b =? 10)%N then ([] :: lines, buffer)
      else match lines with
           | [] => ([], b :: buffer)
           | line :: lines => ((b :: line) :: lines, buffer)
           end
  end.

Fixpoint process_lines (lines : list (list N)) (pending : option string)
    : option string * list SseEvent :=
  match lines with
  | [] => (pending, [])
  | line :: lines =>
      let '(pending, events) := process_line (from_utf8_lossy (pop_cr line)) pending in
      let '(pending, more) := process_lines lines pending in
      (pending, events ++ more)
  end.

Definition feed (parser : SseParser) (chunk : list N) : list SseEvent * SseParser :=
  let '(lines, buffer) := drain_lines (sse_buffer parser ++ chunk) in
  let '(pending, events) := process_lines lines (sse_pending parser) in
  (events, mk_SseParser buffer pending).

Definition sse_finish (parser : SseParser) : list SseEvent * SseParser :=
  let '(pending, events) :=
    match sse_buffer parser with
    | [] => (sse_pending parser, [])
    | line => process_line (from_utf8_lossy (pop_cr line)) (sse_pending parser)
    end in
  (events ++ flush pending, sse_parser_new).

(** A whole body, chunk by chunk. *)
Fixpoint feed_all (parser : SseParser) (chunks : list (list N)) : list SseEvent * SseParser :=
  match chunks with
  | [] => ([], parser)
  | chunk :: chunks =>
      let '(events, parser) := feed parser chunk in
      let '(more, parser) := feed_all parser chunks in
      (events ++ more, parser)
  end.

Definition sse_events (chunks : list (list N)) : list SseEvent :=
  let '(events, parser) := feed_all sse_parser_new chunks in
  events ++ (sse_finish parser).1.

(** ** The reference reading of a body

    Its lines, cut into blocks at the empty ones; a block with data lines is one
    event of their values, one per line. *)

Definition body_lines (body : list N) : list string :=
  let '(lines, rest) := drain_lines body in
  (λ line, from_utf8_lossy (pop_cr line)) <$>
    (lines ++ match rest with [] => [] | _ => [rest] end).

Fixpoint cut_blocks (lines : list string) : list (list string) :=
  match lines with
  | [] => [[]]
  | line :: lines =>
      let blocks := cut_blocks lines in
      if String.eqb line "" then [] :: blocks
      else match blocks with
           | block :: blocks => (line :: block) :: blocks
           | [] => [[line]]
           end
  end.

Definition data_line (line : string) : option string := data_value <$> strip_prefix "data:" line.

Definition join_lines (values : list string) : option string :=
  match values with
  | [] => None
  | value :: values =>
      Some (fold_left (λ text value, text ++ LINE_FEED ++ value)%string values value)
  end.

Definition block_event (block : list string) : option SseEvent :=
  classify <$> join_lines (omap data_line block).

Definition body_events (body : list N) : list SseEvent :=
  omap block_event (cut_blocks (body_lines body)).

(** ** Chunks do not matter *)

Lemma drain_lines_none a : (drain_lines a).1 = [] → drain_lines a = ([], a).
Proof.
  induction a as [|x a IH]; [done|]. simpl. destruct (drain_lines a) as [lines rest].
  destruct (x =? 10)%N; [done|]. destruct lines; [|done]. intros _. by injection (IH eq_refl) as ->.
Qed.

Lemma drain_lines_rest a : (drain_lines (drain_lines a).2).1 = [].
Proof.
  induction a as [|x a IH]; [done|]. simpl. destruct (drain_lines a) as [lines rest]. simpl in *.
  destruct (x =? 10)%N eqn:Hx; [done|]. destruct lines as [|line lines]; [|done].
  simpl. rewrite Hx. by destruct (drain_lines rest) as [[|] ?].
Qed.

(** Draining after more bytes arrive: first what was complete, then the rest. *)
Lemma drain_lines_app a b :
  drain_lines (a ++ b) =
    ((drain_lines a).1 ++ (drain_lines ((drain_lines a).2 ++ b)).1,
     (drain_lines ((drain_lines a).2 ++ b)).2).
Proof.
  induction a as [|x a IH]; simpl; [by destruct (drain_lines b)|].
  destruct (drain_lines a) as [lines rest]. rewrite IH. simpl in *.
  destruct (x =? 10)%N eqn:Hx; [done|]. destruct lines as [|line lines]; [|done].
  simpl. rewrite Hx. by destruct (drain_lines (rest ++ b)) as [[|] ?].
Qed.

Lemma process_lines_app l1 l2 pending :
  process_lines (l1 ++ l2) pending =
    ((process_lines l2 (process_lines l1 pending).1).1,
     (process_lines l1 pending).2 ++ (process_lines l2 (process_lines l1 pending).1).2).
Proof.
  revert pending. induction l1 as [|line l1 IH]; intros pending; simpl.
  { by destruct (process_lines l2 pending). }
  destruct (process_line _ _) as [p events]. rewrite IH.
  destruct (process_lines l1 p) as [p' more]. simpl. by rewrite app_assoc.
Qed.

(** Feeding a chunk and then another is feeding both at once. *)
Lemma feed_app parser a b :
  feed parser (a ++ b) =
    ((feed parser a).1 ++ (feed (feed parser a).2 b).1, (feed (feed parser a).2 b).2).
Proof.
  unfold feed. rewrite (app_assoc (sse_buffer parser)), drain_lines_app.
  destruct (drain_lines (sse_buffer parser ++ a)) as [l1 rest]. simpl.
  rewrite process_lines_app. destruct (process_lines l1 (sse_pending parser)) as [p e1]. simpl.
  destruct (drain_lines (rest ++ b)) as [l2 rest']. simpl.
  by destruct (process_lines l2 p).
Qed.

Lemma feed_all_concat parser chunks :
  (drain_lines (sse_buffer parser)).1 = [] →
  feed_all parser chunks = feed parser (concat chunks).
Proof.
  revert parser. induction chunks as [|chunk chunks IH]; intros parser Hb; simpl.
  { unfold feed. rewrite app_nil_r, (drain_lines_none _ Hb). simpl. by destruct parser. }
  rewrite feed_app. destruct (feed parser chunk) as [e1 p1] eqn:Hf. simpl.
  rewrite IH; [by destruct (feed p1 (concat chunks))|].
  pose proof (drain_lines_rest (sse_buffer parser ++ chunk)) as Hrest. unfold feed in Hf.
  destruct (drain_lines (sse_buffer parser ++ chunk)) as [l rest].
  destruct (process_lines l _). by injection Hf as <- <-.
Qed.

(** ** Lines and blocks *)

(** Values added to what is pending. *)
Definition joined (pending : option string) (values : list string) : option string :=
  match pending with
  | None => join_lines values
  | Some text => Some (fold_left (λ text value, text ++ LINE_FEED ++ value)%string values text)
  end.

Lemma joined_app pending l1 l2 : joined pending (l1 ++ l2) = joined (joined pending l1) l2.
Proof.
  destruct pending as [text|]; simpl; [by rewrite fold_left_app|].
  destruct l1 as [|v l1]; simpl; [done|]. by rewrite fold_left_app.
Qed.

Lemma process_line_text line pending :
  line ≠ "" → process_line line pending = (joined pending (option_list (data_line line)), []).
Proof.
  intros Hne. unfold process_line, data_line. apply String.eqb_neq in Hne as ->.
  destruct (String.prefix ":" line) eqn:Hcolon.
  - destruct (strip_prefix "data:" line) as [rest|] eqn:Hdata; [|by destruct pending].
    by apply strip_prefix_some in Hdata as ->.
  - destruct (strip_prefix "data:" line) as [rest|]; by destruct pending.
Qed.

Lemma cut_blocks_cons lines : ∃ block blocks, cut_blocks lines = block :: blocks.
Proof.
  destruct lines as [|line lines]; simpl; [by eexists _, _|].
  destruct (String.eqb line ""); [by eexists _, _|].
  destruct (cut_blocks lines) as [|block blocks]; by eexists _, _.
Qed.

Lemma flush_block block blocks :
  flush (joined None (omap data_line block)) ++ omap block_event blocks
  = omap block_event (block :: blocks).
Proof.
  simpl. destruct (block_event block) eqn:Hb; unfold block_event in Hb;
    destruct (join_lines (omap data_line block)); by simplify_eq/=.
Qed.

(** The events of some lines and the end of the body are those of their blocks,
    of which the first continues what is pending. *)
Lemma process_lines_blocks lines pending :
  (process_lines lines pending).2 ++ flush (process_lines lines pending).1 =
    match cut_blocks ((λ line, from_utf8_lossy (pop_cr line)) <$> lines) with
    | block :: blocks =>
        flush (joined pending (omap data_line block)) ++ omap block_event blocks
    | [] => []
    end.
Proof.
  revert pending. induction lines as [|line lines IH]; intros pending.
  { simpl. rewrite app_nil_r. by destruct pending. }
  rewrite fmap_cons. cbn [process_lines cut_blocks].
  set (text := from_utf8_lossy (pop_cr line)).
  destruct (cut_blocks_cons ((λ line, from_utf8_lossy (pop_cr line)) <$> lines))
    as (block & blocks & Hcut). rewrite Hcut. setoid_rewrite Hcut in IH.
  destruct (String.eqb_spec text "") as [Hempty|Hne].
  - rewrite Hempty. simpl. specialize (IH None).
    destruct (process_lines lines None) as [p events]. simpl in *.
    rewrite <- app_assoc, IH. f_equal; [by destruct pending|]. apply flush_block.
  - rewrite process_line_text by done.
    specialize (IH (joined pending (option_list (data_line text)))).
    destruct (process_lines lines _) as [p events]. simpl in *. rewrite IH, <- joined_app.
    by destruct (data_line text).
Qed.

(** C26: however a body is cut into chunks, the parser yields its events.  Fed
    the chunks of a response body in order and finished, it yields exactly the
    events of the reference reading of the whole body: one per block of lines
    between empty lines that has a data line. *)
Theorem sse_chunks_irrelevant chunks : sse_events chunks = body_events (concat chunks).
Proof.
  unfold sse_events, body_events, body_lines. rewrite feed_all_concat by done.
  unfold feed. simpl. destruct (drain_lines (concat chunks)) as [lines rest].
  destruct (process_lines lines None) as [pending events] eqn:Hlines. unfold sse_finish. simpl.
  set (last_line := match rest with [] => [] | _ => [rest] end).
  transitivity ((process_lines (lines ++ last_line) None).2
                ++ flush (process_lines (lines ++ last_line) None).1).
  { rewrite process_lines_app, Hlines. subst last_line. destruct rest as [|b rest]; simpl.
    - by rewrite app_nil_r.
    - destruct (process_line _ pending) as [p more]. simpl. by rewrite !app_nil_r, app_assoc. }
  rewrite process_lines_blocks.
  destruct (cut_blocks_cons ((λ line, from_utf8_lossy (pop_cr line)) <$> lines ++ last_line))
    as (block & blocks & ->).
  apply flush_block.
Qed.
