(* ===== verification/Decimal.v ===== *)
(** * Decimal text and versions

    The decimal text of machine integers, and the two dotted versions built on
    it: [crates/tea-protocol/src/version.rs] and
    [crates/tea-profile/src/version.rs].  A component is a [u16]. *)

From S2P Require Import Prelude Protocol.
Local Open Scope tea_scope.

(** ** Decimal text *)

(** [Display] of an unsigned integer; each round leaves a digit less, so the
    number of digits is enough fuel, and 20 digits are enough for a [u64]. *)
Fixpoint decimal_digits (fuel : nat) (n : N) : list N :=
  match fuel with
  | O => []
  | S fuel => (if (n <? 10)%N then [] else decimal_digits fuel (n / 10)) ++ [(48 + n mod 10)%N]
  end.

Definition decimal (n : N) : list N := decimal_digits 20 n.
Definition show_decimal (n : N) : string := string_of_bytes (decimal n).

(** The value of a digit string. *)
Definition decimal_value (digits : list N) : N :=
  foldl (λ value digit, (value * 10 + (digit - 48))%N) 0%N digits.

Definition U16_MAX : N := 65535.

(** [str::parse::<u16>] of text without a sign. *)
Definition parse_u16 (digits : list N) : option N :=
  if negb (length digits =? 0)%nat && forallb is_ascii_digit digits
     && (decimal_value digits <=? U16_MAX)%N
  then Some (decimal_value digits) else None.

Definition starts_with_zero (digits : list N) : bool :=
  match digits with d :: _ => (d =? 48)%N | [] => false end.

Definition canonical_decimal (digits : list N) : bool :=
  forallb is_ascii_digit digits && (bool_decide (digits = [48%N]) || negb (starts_with_zero digits)).

(** ** Protocol versions *)

Inductive ProtocolVersionParseError : Set :=
| ProtocolVersionInvalidFormat | ProtocolVersionOutOfRange.

(** [split_once('.')], on bytes. *)
Fixpoint split_once_dot (bs : list N) : option (list N * list N) :=
  match bs with
  | [] => None
  | b :: rest =>
      if (b =? 46)%N then Some ([], rest)
      else match split_once_dot rest with
           | Some (before, after) => Some (b :: before, after)
           | None => None
           end
  end.

Definition dot : string := ".".

Definition show_protocol_version (v : ProtocolVersion) : string :=
  (show_decimal (pv_major v) ++ dot ++ show_decimal (pv_minor v))%string.

Definition parse_protocol_version (value : string)
    : Result ProtocolVersionParseError ProtocolVersion :=
  let? parts := ok_or (split_once_dot (bytes value)) ProtocolVersionInvalidFormat in
  let '(major, minor) := parts in
  try? ensure (negb ((length major =? 0)%nat || (length minor =? 0)%nat
                     || existsb (λ b, (b =? 46)%N) minor
                     || negb (canonical_decimal major) || negb (canonical_decimal minor)))
         ProtocolVersionInvalidFormat in
  let? major := ok_or (parse_u16 major) ProtocolVersionOutOfRange in
  let? minor := ok_or (parse_u16 minor) ProtocolVersionOutOfRange in
  Ok (mk_ProtocolVersion major minor).

(** ** Profile schema versions *)

Record ProfileSchemaVersion : Set := mk_ProfileSchemaVersion {
  psv_major : N;
  psv_minor : N;
  psv_patch : N
}.

Inductive ProfileSchemaVersionParseError : Set :=
| SchemaVersionInvalidFormat | SchemaVersionOutOfRange.

#[export] Instance ProfileSchemaVersion_eq_dec : EqDecision ProfileSchemaVersion.
Proof. solve_decision. Defined.

Definition PROFILE_SCHEMA_V1_0_0 : ProfileSchemaVersion := mk_ProfileSchemaVersion 1 0 0.
Definition CURRENT_PROFILE_SCHEMA_VERSION : ProfileSchemaVersion := PROFILE_SCHEMA_V1_0_0.

Definition is_supported (v : ProfileSchemaVersion) : bool :=
  (psv_major v =? psv_major CURRENT_PROFILE_SCHEMA_VERSION)%N.

Definition show_schema_version (v : ProfileSchemaVersion) : string :=
  (show_decimal (psv_major v) ++ dot ++ show_decimal (psv_minor v) ++ dot
   ++ show_decimal (psv_patch v))%string.

Definition parse_schema_version (value : string)
    : Result ProfileSchemaVersionParseError ProfileSchemaVersion :=
  match split_bytes 46 (bytes value) with
  | [major; minor; patch] =>
      try? ensure (canonical_decimal major && canonical_decimal minor && canonical_decimal patch)
             SchemaVersionInvalidFormat in
      let? major := ok_or (parse_u16 major) SchemaVersionOutOfRange in
      let? minor := ok_or (parse_u16 minor) SchemaVersionOutOfRange in
      let? patch := ok_or (parse_u16 patch) SchemaVersionOutOfRange in
      Ok (mk_ProfileSchemaVersion major minor patch)
  | _ => Err SchemaVersionInvalidFormat
  end.

(** ** Decimal text round-trips *)

Lemma decimal_value_snoc l d : decimal_value (l ++ [d]) = (decimal_value l * 10 + (d - 48))%N.
Proof. unfold decimal_value. by rewrite foldl_app. Qed.

Lemma digit_range n : is_ascii_digit (48 + n mod 10) = true.
Proof.
  pose proof (N.mod_lt n 10 ltac:(done)) as Hlt. unfold is_ascii_digit.
  rewrite andb_true_iff, !N.leb_le. generalize dependent (n mod 10)%N. lia.
Qed.

Lemma decimal_digits_value fuel n :
  (n < 10 ^ N.of_nat fuel)%N → decimal_value (decimal_digits fuel n) = n.
Proof.
  revert n. induction fuel as [|fuel IH]; intros n Hn; [simpl in Hn; by destruct n as [|[]]|].
  cbn [decimal_digits]. rewrite decimal_value_snoc.
  rewrite (N.add_comm 48), N.add_sub. pose proof (N.Div0.div_mod n 10) as Hdm. destruct (N.ltb_spec n 10) as [Hlt|Hge].
  - rewrite N.mod_small by done. done.
  - rewrite IH; [by rewrite (N.mul_comm _ 10), <- Hdm|]. apply N.Div0.div_lt_upper_bound.
    rewrite Nat2N.inj_succ, N.pow_succ_r' in Hn. lia.
Qed.

Lemma decimal_digits_all fuel n : forallb is_ascii_digit (decimal_digits fuel n) = true.
Proof.
  revert n. induction fuel as [|fuel IH]; intros n; [done|]. cbn [decimal_digits].
  rewrite forallb_app. cbn [forallb]. rewrite digit_range, !andb_true_r.
  by destruct (n <? 10)%N.
Qed.

Lemma decimal_digits_canonical fuel n :
  (n < 10 ^ N.of_nat fuel)%N → n ≠ 0%N → starts_with_zero (decimal_digits fuel n) = false.
Proof.
  revert n. induction fuel as [|fuel IH]; intros n Hn Hz; [done|]. cbn [decimal_digits].
  destruct (N.ltb_spec n 10) as [Hlt|Hge].
  - simpl. rewrite N.mod_small by done. apply N.eqb_neq. lia.
  - assert (n / 10 < 10 ^ N.of_nat fuel)%N as Hd.
    { apply N.Div0.div_lt_upper_bound. rewrite Nat2N.inj_succ, N.pow_succ_r' in Hn. lia. }
    assert (n / 10 ≠ 0)%N as Hne by (intros H0%N.div_small_iff; lia).
    specialize (IH _ Hd Hne). destruct fuel as [|fuel]; [simpl in Hd; lia|].
    revert IH. destruct (decimal_digits (S fuel) (n / 10)) as [|d l] eqn:E; [|done].
    cbn [decimal_digits] in E. by apply app_eq_nil in E as [_ ?].
Qed.

Lemma decimal_nonempty n : decimal n ≠ [].
Proof. intros [_ ?]%app_eq_nil. done. Qed.

Lemma decimal_canonical n : (n <= U64_MAX)%N → canonical_decimal (decimal n) = true.
Proof.
  intros Hn. unfold canonical_decimal, decimal. rewrite decimal_digits_all, andb_true_l.
  destruct (decide (n = 0%N)) as [->|Hz]; [done|].
  rewrite decimal_digits_canonical; [by rewrite orb_true_r| |done].
  apply (N.le_lt_trans _ U64_MAX); [done|by vm_compute].
Qed.

Lemma parse_u16_decimal n : (n <= U16_MAX)%N → parse_u16 (decimal n) = Some n.
Proof.
  intros Hn. assert (decimal_value (decimal n) = n) as Hv.
  { apply decimal_digits_value. apply (N.le_lt_trans _ U16_MAX); [done|by vm_compute]. }
  unfold parse_u16. rewrite Hv. assert (forallb is_ascii_digit (decimal n) = true) as ->
    by apply decimal_digits_all.
  rewrite (proj2 (N.leb_le _ _) Hn).
  pose proof (decimal_nonempty n) as Hne. by destruct (decimal n).
Qed.

(** A canonical text is the text of its value. *)
Lemma digit_value d : is_ascii_digit d = true → (48 + (d - 48) = d ∧ d - 48 < 10)%N.
Proof. unfold is_ascii_digit. rewrite andb_true_iff, !N.leb_le. lia. Qed.

Lemma decimal_value_positive l :
  forallb is_ascii_digit l = true → l ≠ [] → starts_with_zero l = false → (1 <= decimal_value l)%N.
Proof.
  induction l as [|d l IH] using rev_ind; [done|]. intros Hall _ Hz.
  rewrite forallb_app in Hall. apply andb_true_iff in Hall as [Hall Hd].
  simpl in Hd. rewrite andb_true_r in Hd. rewrite decimal_value_snoc.
  apply digit_value in Hd as [Hd _]. destruct l as [|d' l].
  - simpl in *. apply N.eqb_neq in Hz. lia.
  - assert (1 <= decimal_value (d' :: l))%N by (by apply IH). lia.
Qed.

Lemma decimal_digits_of_value fuel l :
  forallb is_ascii_digit l = true → l ≠ [] →
  (l = [48%N] ∧ fuel ≠ 0) ∨ starts_with_zero l = false →
  (decimal_value l < 10 ^ N.of_nat fuel)%N → decimal_digits fuel (decimal_value l) = l.
Proof.
  revert l. induction fuel as [|fuel IH]; intros l Hall Hne Hz Hlt.
  { simpl in Hlt. destruct Hz as [[_ ?]|Hz]; [done|].
    pose proof (decimal_value_positive l Hall Hne Hz). lia. }
  destruct l as [|d l _] using rev_ind; [done|]. rewrite decimal_value_snoc in *.
  rewrite forallb_app in Hall. apply andb_true_iff in Hall as [Hall Hd].
  simpl in Hd. rewrite andb_true_r in Hd. apply digit_value in Hd as [Hd Hd10].
  cbn [decimal_digits]. rewrite N.add_comm, N.Div0.mod_add, N.mod_small, Hd by done.
  f_equal. destruct l as [|d' l].
  { simpl. by rewrite N.add_0_r, (proj2 (N.ltb_lt _ _) Hd10). }
  assert (starts_with_zero (d' :: l) = false) as Hz'.
  { destruct Hz as [[Hz _]|Hz]; [|done]. simpl in Hz. injection Hz as _ Hz. by destruct l. }
  pose proof (decimal_value_positive (d' :: l) Hall ltac:(done) Hz') as Hpos.
  assert ((d - 48 + decimal_value (d' :: l) * 10 <? 10)%N = false) as -> by (apply N.ltb_ge; lia).
  rewrite N.div_add, N.div_small by done. apply IH; [done|done|by right|].
  rewrite Nat2N.inj_succ, N.pow_succ_r' in Hlt. lia.
Qed.

Lemma parse_u16_canonical digits n :
  canonical_decimal digits = true → parse_u16 digits = Some n → decimal n = digits.
Proof.
  unfold canonical_decimal, parse_u16. intros [_ Hz]%andb_true_iff Hp.
  destruct (negb _ && forallb _ _ && _) eqn:Hall; [|done]. injection Hp as <-.
  apply andb_true_iff in Hall as [Hall Hmax%N.leb_le]. apply andb_true_iff in Hall as [Hne Hall].
  apply decimal_digits_of_value; [done| | |].
  - by destruct digits.
  - apply orb_true_iff in Hz as [Hz%bool_decide_eq_true|Hz%negb_true_iff]; auto.
  - apply (N.le_lt_trans _ U16_MAX); [done|by vm_compute].
Qed.

(** ** Versions round-trip *)

Lemma bytes_of_decimal n : bytes (show_decimal n) = decimal n.
Proof.
  apply bytes_string_of_bytes. apply forallb_forall. intros d Hd.
  pose proof (decimal_digits_all 20 n) as Hall. rewrite forallb_forall in Hall.
  specialize (Hall d Hd). apply digit_value in Hall. apply N.ltb_lt. lia.
Qed.

Lemma dot_not_digit l : forallb is_ascii_digit l = true → 46%N ∉ l.
Proof.
  intros Hall Hin%list_elem_of_In. rewrite forallb_forall in Hall. by apply Hall in Hin.
Qed.

Lemma dot_not_decimal n : 46%N ∉ decimal n.
Proof. apply dot_not_digit, decimal_digits_all. Qed.

Lemma canonical_digits l : canonical_decimal l = true → forallb is_ascii_digit l = true.
Proof. unfold canonical_decimal. by intros [? _]%andb_true_iff. Qed.

Lemma parse_u16_bound l n : parse_u16 l = Some n → (n <= U16_MAX)%N.
Proof.
  unfold parse_u16. destruct (_ && (decimal_value l <=? U16_MAX)%N) eqn:He; [|done].
  intros [= <-]. by apply andb_true_iff in He as [_ ?%N.leb_le].
Qed.

Lemma bytes_inj a b : bytes a = bytes b → a = b.
Proof. intros H. by rewrite <- (string_of_bytes_bytes a), H, string_of_bytes_bytes. Qed.

Lemma bytes_dotted a s : bytes (show_decimal a ++ dot ++ s) = decimal a ++ 46%N :: bytes s.
Proof. by rewrite !bytes_app, bytes_of_decimal. Qed.

Lemma u16_component n : (n <= U16_MAX)%N →
  canonical_decimal (decimal n) = true ∧ parse_u16 (decimal n) = Some n.
Proof.
  intros Hn. split; [|by apply parse_u16_decimal]. apply decimal_canonical.
  eapply N.le_trans; [exact Hn|]. by vm_compute.
Qed.

(** the text of a schema version determines it and is determined by it: parsing
    accepts exactly the texts that printing a version with [u16] components
    produces. *)
Theorem schema_version_text value v :
  parse_schema_version value = Ok v ↔
  show_schema_version v = value ∧
  (psv_major v <= U16_MAX)%N ∧ (psv_minor v <= U16_MAX)%N ∧ (psv_patch v <= U16_MAX)%N.
Proof.
  unfold parse_schema_version. split.
  - destruct (split_bytes 46 (bytes value)) as [|a [|b [|c [|]]]] eqn:Hs; try done.
    intros (u & Hc%ensure_ok & H)%result_bind_ok. rewrite !andb_true_iff in Hc.
    destruct Hc as [[Ha Hb] Hc].
    apply result_bind_ok in H as (na & Hna%ok_or_ok & H).
    apply result_bind_ok in H as (nb & Hnb%ok_or_ok & H).
    apply result_bind_ok in H as (nc & Hnc%ok_or_ok & [= <-]). simpl.
    split; [|split_and!; by eapply parse_u16_bound].
    apply bytes_inj. unfold show_schema_version. simpl.
    rewrite !bytes_dotted, bytes_of_decimal.
    rewrite (parse_u16_canonical a), (parse_u16_canonical b), (parse_u16_canonical c) by done.
    apply split_bytes_cons in Hs as (? & ? & [= <- <-] & _ & ? & -> & Hs).
    apply split_bytes_cons in Hs as (? & ? & [= <- <-] & _ & ? & -> & Hs).
    apply split_bytes_cons in Hs as (? & ? & [= <- <-] & _ & ->). done.
  - intros (<- & Ha & Hb & Hc). unfold show_schema_version.
    rewrite !bytes_dotted, bytes_of_decimal.
    rewrite !split_bytes_app, split_bytes_no_sep by apply dot_not_decimal.
    destruct (u16_component _ Ha) as [-> ->], (u16_component _ Hb) as [-> ->],
      (u16_component _ Hc) as [-> ->]. by destruct v.
Qed.

Lemma split_once_dot_spec bs before after :
  split_once_dot bs = Some (before, after) ↔ bs = before ++ 46%N :: after ∧ 46%N ∉ before.
Proof.
  revert before. induction bs as [|b bs IH]; intros before; simpl.
  - split; [done|]. intros [H _]. by destruct before.
  - destruct (N.eqb_spec b 46) as [->|Hb].
    + split; [intros [= <- <-]; split; [done|set_solver]|].
      intros [H Hn]. destruct before as [|b' before]; simplify_eq/=; [done|set_solver].
    + destruct (split_once_dot bs) as [[before' after']|].
      * split.
        -- intros [= <- <-]. destruct (proj1 (IH before') eq_refl) as [-> Hn].
           split; [done|set_solver].
        -- intros [H Hn]. destruct before as [|b' before]; simplify_eq/=.
           assert (Some (before', after') = Some (before, after)) as [= <- <-]; [|done].
           apply IH. split; [done|set_solver].
      * split; [done|]. intros [H Hn]. destruct before as [|b' before]; simplify_eq/=.
        assert (None = Some (before, after)); [|done]. apply IH. split; [done|set_solver].
Qed.

(** The same for protocol versions. *)
Theorem protocol_version_text value v :
  parse_protocol_version value = Ok v ↔
  show_protocol_version v = value ∧ (pv_major v <= U16_MAX)%N ∧ (pv_minor v <= U16_MAX)%N.
Proof.
  unfold parse_protocol_version. split.
  - intros ([a b] & Hs%ok_or_ok & H)%result_bind_ok.
    apply result_bind_ok in H as (u & Hc%ensure_ok & H).
    rewrite negb_true_iff, !orb_false_iff, !negb_false_iff in Hc.
    destruct Hc as [[_ Ha] Hb].
    apply result_bind_ok in H as (na & Hna%ok_or_ok & H).
    apply result_bind_ok in H as (nb & Hnb%ok_or_ok & [= <-]). simpl.
    split; [|split; by eapply parse_u16_bound]. apply bytes_inj. unfold show_protocol_version.
    simpl. rewrite !bytes_dotted, bytes_of_decimal.
    rewrite (parse_u16_canonical a), (parse_u16_canonical b) by done.
    by apply split_once_dot_spec in Hs as [-> _].
  - intros (<- & Ha & Hb). unfold show_protocol_version. rewrite bytes_dotted, bytes_of_decimal.
    assert (split_once_dot (decimal (pv_major v) ++ 46%N :: decimal (pv_minor v))
            = Some (decimal (pv_major v), decimal (pv_minor v))) as ->.
    { apply split_once_dot_spec. split; [done|apply dot_not_decimal]. }
    unfold ok_or at 1, result_bind at 1. cbv iota beta.
    destruct (u16_component _ Ha) as [Hca ->], (u16_component _ Hb) as [Hcb ->].
    assert (existsb (λ b, (b =? 46)%N) (decimal (pv_minor v)) = false) as Hdot.
    { apply not_true_iff_false. intros (d & Hd & Heq%N.eqb_eq)%existsb_exists. subst.
      apply (dot_not_decimal (pv_minor v)). by apply list_elem_of_In. }
    rewrite Hca, Hcb, Hdot.
    pose proof (decimal_nonempty (pv_major v)). pose proof (decimal_nonempty (pv_minor v)).
    destruct (decimal (pv_major v)), (decimal (pv_minor v)); try done. by destruct v.
Qed.
