(* ===== verification/SessionState.v ===== *)
(** * Session state: the materialized projection of a record log

    [crates/tea-session/src/state.rs]: the records the reducer maintains and the
    constructors and setters it builds them with.  A field accessor of the
    source is the projection of the record here.  A setter over [&mut T] is a
    function from the old value to the new one. *)

From S2P Require Import Prelude Protocol.

(** ** Data *)

Record SessionConfiguration : Set := mk_SessionConfiguration {
  cfg_model : option ModelRef;
  cfg_profile_id : ProfileId;
  cfg_reasoning_effort : option ReasoningEffort
}.

Record PendingApproval : Set := mk_PendingApproval {
  pa_approval_id : ApprovalId;
  pa_tool_call_id : ToolCallId;
  pa_expires_at : ProtocolTimestamp;
  pa_requested_at : ProtocolTimestamp
}.

Inductive ToolExecutionState : Set :=
| NotStarted
| Started (execution_target : ExecutionTarget) (idempotency : ToolIdempotency)
| Finished (is_error : bool) (content : list ContentBlock) (error : option ToolFailure)
    (presentation : option ToolPresentation)
| Interrupted (reason : string) (execution_target : ExecutionTarget)
    (idempotency : ToolIdempotency).

Record ToolCallState : Set := mk_ToolCallState {
  tc_tool_call_id : ToolCallId;
  tc_tool_name : string;
  tc_arguments : Value;
  tc_policy_decision : option RecordedPolicyDecision;
  tc_approval_id : option ApprovalId;
  tc_approval_decision : option ApprovalDecision;
  tc_execution : ToolExecutionState;
  tc_result_message_id : option MessageId
}.

Inductive RunRecoveryState : Set :=
| RecoveryInterrupted (turn_id : TurnId) (reason : string)
| RecoveryCancelled.

Record TurnCheckpoint : Set := mk_TurnCheckpoint {
  cp_run_id : RunId;
  cp_turn_id : TurnId;
  cp_record_id : RecordId;
  cp_sequence : SessionSequence;
  cp_next_action : NextTurnAction
}.

Record SessionCompaction : Set := mk_SessionCompaction {
  sco_summary : CanonicalMessage;
  sco_compacted_through_record_id : RecordId
}.

Record BranchSummary : Set := mk_BranchSummary {
  bs_branch_id : BranchId;
  bs_source_branch_id : option BranchId;
  bs_from_record_id : RecordId;
  bs_leaf_record_id : RecordId
}.

Record MaterializedSessionState : Set := mk_MaterializedSessionState {
  st_session_id : SessionId;
  st_tail_sequence : SessionSequence;
  st_tail_record_id : RecordId;
  st_metadata : ProtocolMetadata;
  st_configuration : SessionConfiguration;
  st_messages : list CanonicalMessage;
  st_pending_approvals : gmap ApprovalId PendingApproval;
  st_tool_calls : gmap ToolCallId ToolCallState;
  st_active_branch_id : option BranchId;
  st_branches : gmap BranchId BranchSummary;
  st_run_recovery : gmap RunId RunRecoveryState;
  st_latest_checkpoint : option TurnCheckpoint;
  st_latest_compaction : option SessionCompaction
}.

(** ** Field updates *)

Definition set_st_tail (seq : SessionSequence) (rid : RecordId)
    (s : MaterializedSessionState) : MaterializedSessionState :=
  mk_MaterializedSessionState (st_session_id s) seq rid (st_metadata s) (st_configuration s)
    (st_messages s) (st_pending_approvals s) (st_tool_calls s) (st_active_branch_id s)
    (st_branches s) (st_run_recovery s) (st_latest_checkpoint s) (st_latest_compaction s).

Definition set_st_configuration (c : SessionConfiguration)
    (s : MaterializedSessionState) : MaterializedSessionState :=
  mk_MaterializedSessionState (st_session_id s) (st_tail_sequence s) (st_tail_record_id s)
    (st_metadata s) c (st_messages s) (st_pending_approvals s) (st_tool_calls s)
    (st_active_branch_id s) (st_branches s) (st_run_recovery s) (st_latest_checkpoint s)
    (st_latest_compaction s).

Definition set_st_messages (ms : list CanonicalMessage)
    (s : MaterializedSessionState) : MaterializedSessionState :=
  mk_MaterializedSessionState (st_session_id s) (st_tail_sequence s) (st_tail_record_id s)
    (st_metadata s) (st_configuration s) ms (st_pending_approvals s) (st_tool_calls s)
    (st_active_branch_id s) (st_branches s) (st_run_recovery s) (st_latest_checkpoint s)
    (st_latest_compaction s).

Definition set_st_pending_approvals (p : gmap ApprovalId PendingApproval)
    (s : MaterializedSessionState) : MaterializedSessionState :=
  mk_MaterializedSessionState (st_session_id s) (st_tail_sequence s) (st_tail_record_id s)
    (st_metadata s) (st_configuration s) (st_messages s) p (st_tool_calls s)
    (st_active_branch_id s) (st_branches s) (st_run_recovery s) (st_latest_checkpoint s)
    (st_latest_compaction s).

Definition set_st_tool_calls (t : gmap ToolCallId ToolCallState)
    (s : MaterializedSessionState) : MaterializedSessionState :=
  mk_MaterializedSessionState (st_session_id s) (st_tail_sequence s) (st_tail_record_id s)
    (st_metadata s) (st_configuration s) (st_messages s) (st_pending_approvals s) t
    (st_active_branch_id s) (st_branches s) (st_run_recovery s) (st_latest_checkpoint s)
    (st_latest_compaction s).

Definition set_st_active_branch_id (b : option BranchId)
    (s : MaterializedSessionState) : MaterializedSessionState :=
  mk_MaterializedSessionState (st_session_id s) (st_tail_sequence s) (st_tail_record_id s)
    (st_metadata s) (st_configuration s) (st_messages s) (st_pending_approvals s)
    (st_tool_calls s) b (st_branches s) (st_run_recovery s) (st_latest_checkpoint s)
    (st_latest_compaction s).

Definition set_st_branches (bs : gmap BranchId BranchSummary)
    (s : MaterializedSessionState) : MaterializedSessionState :=
  mk_MaterializedSessionState (st_session_id s) (st_tail_sequence s) (st_tail_record_id s)
    (st_metadata s) (st_configuration s) (st_messages s) (st_pending_approvals s)
    (st_tool_calls s) (st_active_branch_id s) bs (st_run_recovery s) (st_latest_checkpoint s)
    (st_latest_compaction s).

Definition set_st_run_recovery (r : gmap RunId RunRecoveryState)
    (s : MaterializedSessionState) : MaterializedSessionState :=
  mk_MaterializedSessionState (st_session_id s) (st_tail_sequence s) (st_tail_record_id s)
    (st_metadata s) (st_configuration s) (st_messages s) (st_pending_approvals s)
    (st_tool_calls s) (st_active_branch_id s) (st_branches s) r (st_latest_checkpoint s)
    (st_latest_compaction s).

Definition set_st_latest_checkpoint (c : option TurnCheckpoint)
    (s : MaterializedSessionState) : MaterializedSessionState :=
  mk_MaterializedSessionState (st_session_id s) (st_tail_sequence s) (st_tail_record_id s)
    (st_metadata s) (st_configuration s) (st_messages s) (st_pending_approvals s)
    (st_tool_calls s) (st_active_branch_id s) (st_branches s) (st_run_recovery s) c
    (st_latest_compaction s).

Definition set_st_latest_compaction (c : option SessionCompaction)
    (s : MaterializedSessionState) : MaterializedSessionState :=
  mk_MaterializedSessionState (st_session_id s) (st_tail_sequence s) (st_tail_record_id s)
    (st_metadata s) (st_configuration s) (st_messages s) (st_pending_approvals s)
    (st_tool_calls s) (st_active_branch_id s) (st_branches s) (st_run_recovery s)
    (st_latest_checkpoint s) c.

(** ** Constructors and setters of the source *)

Definition set_leaf (b : BranchSummary) (record_id : RecordId) : BranchSummary :=
  mk_BranchSummary (bs_branch_id b) (bs_source_branch_id b) (bs_from_record_id b) record_id.

Definition message_id (m : CanonicalMessage) : MessageId :=
  match m with
  | User id _ _ | Assistant id _ _ _ | ToolResult id _ _ _ _ _ _ => id
  end.

Definition declared_tool_calls (m : CanonicalMessage) : list (ToolCallId * string * Value) :=
  match m with
  | Assistant _ content _ _ =>
      omap (λ block, match block with
                     | ToolCall tool_call_id _ tool_name arguments =>
                         Some (tool_call_id, tool_name, arguments)
                     | _ => None
                     end) content
  | User _ _ _ | ToolResult _ _ _ _ _ _ _ => []
  end.

Definition new_state (record_id : RecordId) (session_id : SessionId)
    (sequence : SessionSequence) (profile_id : ProfileId) (metadata : ProtocolMetadata)
    (root_branch_id : option BranchId) : MaterializedSessionState :=
  let branches : gmap BranchId BranchSummary :=
    match root_branch_id with
    | None => ∅
    | Some branch_id =>
        {[ branch_id := mk_BranchSummary branch_id None record_id record_id ]}
    end in
  mk_MaterializedSessionState session_id sequence record_id metadata
    (mk_SessionConfiguration None profile_id None) [] ∅ ∅ root_branch_id branches ∅ None None.

Definition new_pending_approval (approval_id : ApprovalId) (tool_call_id : ToolCallId)
    (expires_at requested_at : ProtocolTimestamp) : PendingApproval :=
  mk_PendingApproval approval_id tool_call_id expires_at requested_at.

Definition new_tool_call (tool_call_id : ToolCallId) (tool_name : string) (arguments : Value)
    : ToolCallState :=
  mk_ToolCallState tool_call_id tool_name arguments None None None NotStarted None.

Definition set_model (c : SessionConfiguration) (model : ModelRef) : SessionConfiguration :=
  mk_SessionConfiguration (Some model) (cfg_profile_id c) (cfg_reasoning_effort c).

Definition set_profile (c : SessionConfiguration) (profile_id : ProfileId)
    : SessionConfiguration :=
  mk_SessionConfiguration (cfg_model c) profile_id (cfg_reasoning_effort c).

Definition set_reasoning_effort (c : SessionConfiguration) (effort : ReasoningEffort)
    : SessionConfiguration :=
  mk_SessionConfiguration (cfg_model c) (cfg_profile_id c) (Some effort).

Definition set_policy (t : ToolCallState) (decision : RecordedPolicyDecision)
    : ToolCallState :=
  mk_ToolCallState (tc_tool_call_id t) (tc_tool_name t) (tc_arguments t) (Some decision)
    (tc_approval_id t) (tc_approval_decision t) (tc_execution t) (tc_result_message_id t).

Definition set_approval (t : ToolCallState) (approval_id : ApprovalId) : ToolCallState :=
  mk_ToolCallState (tc_tool_call_id t) (tc_tool_name t) (tc_arguments t)
    (tc_policy_decision t) (Some approval_id) (tc_approval_decision t) (tc_execution t)
    (tc_result_message_id t).

Definition resolve_approval (t : ToolCallState) (decision : ApprovalDecision)
    : ToolCallState :=
  mk_ToolCallState (tc_tool_call_id t) (tc_tool_name t) (tc_arguments t)
    (tc_policy_decision t) (tc_approval_id t) (Some decision) (tc_execution t)
    (tc_result_message_id t).

Definition with_execution (t : ToolCallState) (e : ToolExecutionState) : ToolCallState :=
  mk_ToolCallState (tc_tool_call_id t) (tc_tool_name t) (tc_arguments t)
    (tc_policy_decision t) (tc_approval_id t) (tc_approval_decision t) e
    (tc_result_message_id t).

Definition start_tool (t : ToolCallState) (execution_target : ExecutionTarget)
    (idempotency : ToolIdempotency) : ToolCallState :=
  with_execution t (Started execution_target idempotency).

Definition finish_tool (t : ToolCallState) (is_error : bool) (content : list ContentBlock)
    (error : option ToolFailure) (presentation : option ToolPresentation) : ToolCallState :=
  with_execution t (Finished is_error content error presentation).

Definition set_compaction (s : MaterializedSessionState) (summary : CanonicalMessage)
    (compacted_through_record_id : RecordId) : MaterializedSessionState :=
  set_st_latest_compaction (Some (mk_SessionCompaction summary compacted_through_record_id))
    (set_st_messages [summary] s).

Definition commit_tool_result (t : ToolCallState) (message_id : MessageId) : ToolCallState :=
  mk_ToolCallState (tc_tool_call_id t) (tc_tool_name t) (tc_arguments t)
    (tc_policy_decision t) (tc_approval_id t) (tc_approval_decision t) (tc_execution t)
    (Some message_id).

Definition interrupt_tool (t : ToolCallState) (reason : string) : ToolCallState :=
  match tc_execution t with
  | Started execution_target idempotency =>
      with_execution t (Interrupted reason execution_target idempotency)
  | _ => t
  end.

(** ** Execution-state tests (the [matches!] patterns of the reducer) *)

Definition is_not_started (e : ToolExecutionState) : bool :=
  match e with NotStarted => true | _ => false end.
Definition is_started (e : ToolExecutionState) : bool :=
  match e with Started _ _ => true | _ => false end.
Definition is_finished (e : ToolExecutionState) : bool :=
  match e with Finished _ _ _ _ => true | _ => false end.
