(* ===== verification/Reducer.v ===== *)
(** * The session reducer: deterministic replay of the append-only log

    [crates/tea-session/src/reducer.rs] and the replay errors of [error.rs].
    Every method over [&mut self] is a computation over the reducer that keeps
    the mutations it made when it returns an error, so that the recovery of
    [apply] (rebuilding the reducer from its durable records) is modelled and
    not assumed.  The methods that also receive the optional historical
    snapshots run over both ([ReducerCall]). *)

From S2P Require Import Prelude Protocol SessionState.
Local Open Scope tea_scope.

(** ** Errors ([error.rs]) *)

Inductive SessionReplayError : Set :=
| EmptyLog
| InvalidCreation
| SessionMismatch (expected actual : SessionId)
| SequenceMismatch (expected actual : SessionSequence)
| SequenceOverflow
| DuplicateRecord (record_id : RecordId)
| DuplicateEntity (entity : string)
| InvalidReference (reference : string)
| InvalidTransition (transition : string).

#[export] Instance SessionReplayError_eq_dec : EqDecision SessionReplayError.
Proof. solve_decision. Defined.

(** ** Reducer data *)

Record DeclaredToolCall : Set := mk_DeclaredToolCall {
  dtc_tool_name : string;
  dtc_arguments : Value
}.

Record BranchProjection : Set := mk_BranchProjection {
  bp_configuration : SessionConfiguration;
  bp_messages : list CanonicalMessage;
  bp_pending_approvals : gmap ApprovalId PendingApproval;
  bp_tool_calls : gmap ToolCallId ToolCallState;
  bp_run_recovery : gmap RunId RunRecoveryState;
  bp_latest_checkpoint : option TurnCheckpoint;
  bp_latest_compaction : option SessionCompaction
}.

(** [BranchProjection::capture]. *)
Definition projection_capture (s : MaterializedSessionState) : BranchProjection :=
  mk_BranchProjection (st_configuration s) (st_messages s) (st_pending_approvals s)
    (st_tool_calls s) (st_run_recovery s) (st_latest_checkpoint s) (st_latest_compaction s).

(** [BranchProjection::install]. *)
Definition projection_install (p : BranchProjection) (s : MaterializedSessionState)
    : MaterializedSessionState :=
  mk_MaterializedSessionState (st_session_id s) (st_tail_sequence s) (st_tail_record_id s)
    (st_metadata s) (bp_configuration p) (bp_messages p) (bp_pending_approvals p)
    (bp_tool_calls p) (st_active_branch_id s) (st_branches s) (bp_run_recovery p)
    (bp_latest_checkpoint p) (bp_latest_compaction p).

Record BranchSnapshot : Set := mk_BranchSnapshot {
  snap_projection : BranchProjection;
  snap_history : gset RecordId;
  snap_declared_tool_calls : gset ToolCallId
}.

(** The [is_some_and] test of [safe_to_fork] on one declared tool call. *)
Definition call_settled (tool : ToolCallState) : bool :=
  is_finished (tc_execution tool) && bool_decide (is_Some (tc_result_message_id tool)).

Definition safe_to_fork (snap : BranchSnapshot) : bool :=
  bool_decide (bp_pending_approvals (snap_projection snap) = ∅)
  && forallb (λ tool_call_id,
       match bp_tool_calls (snap_projection snap) !! tool_call_id with
       | Some tool => call_settled tool
       | None => false
       end) (elements (snap_declared_tool_calls snap)).

Record HistoricalSnapshots : Set := mk_HistoricalSnapshots {
  hs_required : gset RecordId;
  hs_captured : gmap RecordId BranchSnapshot
}.

(** The fork points a record list refers to. *)
Definition fork_points (records : list RecordEnvelope) : gset RecordId :=
  list_to_set (omap (λ envelope,
    match env_record envelope with
    | BranchCreated _ _ from_record_id => Some from_record_id
    | _ => None
    end) records).

(** [HistoricalSnapshots::for_prefix]. *)
Definition for_prefix (records : list RecordEnvelope) (target : RecordId)
    : option (HistoricalSnapshots * nat) :=
  match list_find (λ envelope, env_record_id envelope = target) records with
  | None => None
  | Some (target_index, _) =>
      Some (mk_HistoricalSnapshots
              ({[ target ]} ∪ fork_points (take (S target_index) records)) ∅, target_index)
  end.

(** [HistoricalSnapshots::capture] and [get]. *)
Definition historical_capture (h : HistoricalSnapshots) (record_id : RecordId)
    (snapshot : BranchSnapshot) : HistoricalSnapshots :=
  if bool_decide (record_id ∈ hs_required h)
  then mk_HistoricalSnapshots (hs_required h) (<[record_id := snapshot]> (hs_captured h))
  else h.

Definition historical_get (h : HistoricalSnapshots) (record_id : RecordId)
    : option BranchSnapshot := hs_captured h !! record_id.

Record SessionReducer : Set := mk_SessionReducer {
  r_state : option MaterializedSessionState;
  r_records : list RecordEnvelope;
  r_record_ids : gset RecordId;
  r_message_ids : gset MessageId;
  r_declared_tool_calls : gmap ToolCallId DeclaredToolCall;
  r_requested_tool_call_ids : gset ToolCallId;
  r_approval_ids : gset ApprovalId;
  r_branch_heads : gmap BranchId BranchSnapshot
}.

(** [SessionReducer::new]. *)
Definition reducer_new : SessionReducer := mk_SessionReducer None [] ∅ ∅ ∅ ∅ ∅ ∅.

(** Field updates. *)
Definition set_r_state (s : option MaterializedSessionState) (r : SessionReducer) :=
  mk_SessionReducer s (r_records r) (r_record_ids r) (r_message_ids r)
    (r_declared_tool_calls r) (r_requested_tool_call_ids r) (r_approval_ids r)
    (r_branch_heads r).
Definition push_record (envelope : RecordEnvelope) (r : SessionReducer) :=
  mk_SessionReducer (r_state r) (r_records r ++ [envelope]) (r_record_ids r)
    (r_message_ids r) (r_declared_tool_calls r) (r_requested_tool_call_ids r)
    (r_approval_ids r) (r_branch_heads r).
Definition insert_record_id (id : RecordId) (r : SessionReducer) :=
  mk_SessionReducer (r_state r) (r_records r) ({[ id ]} ∪ r_record_ids r)
    (r_message_ids r) (r_declared_tool_calls r) (r_requested_tool_call_ids r)
    (r_approval_ids r) (r_branch_heads r).
Definition insert_message_id (id : MessageId) (r : SessionReducer) :=
  mk_SessionReducer (r_state r) (r_records r) (r_record_ids r)
    ({[ id ]} ∪ r_message_ids r) (r_declared_tool_calls r) (r_requested_tool_call_ids r)
    (r_approval_ids r) (r_branch_heads r).
Definition insert_declared (id : ToolCallId) (d : DeclaredToolCall) (r : SessionReducer) :=
  mk_SessionReducer (r_state r) (r_records r) (r_record_ids r) (r_message_ids r)
    (<[id := d]> (r_declared_tool_calls r)) (r_requested_tool_call_ids r)
    (r_approval_ids r) (r_branch_heads r).
Definition insert_requested (id : ToolCallId) (r : SessionReducer) :=
  mk_SessionReducer (r_state r) (r_records r) (r_record_ids r) (r_message_ids r)
    (r_declared_tool_calls r) ({[ id ]} ∪ r_requested_tool_call_ids r)
    (r_approval_ids r) (r_branch_heads r).
Definition insert_approval_id (id : ApprovalId) (r : SessionReducer) :=
  mk_SessionReducer (r_state r) (r_records r) (r_record_ids r) (r_message_ids r)
    (r_declared_tool_calls r) (r_requested_tool_call_ids r)
    ({[ id ]} ∪ r_approval_ids r) (r_branch_heads r).
Definition insert_branch_head (id : BranchId) (snap : BranchSnapshot) (r : SessionReducer) :=
  mk_SessionReducer (r_state r) (r_records r) (r_record_ids r) (r_message_ids r)
    (r_declared_tool_calls r) (r_requested_tool_call_ids r) (r_approval_ids r)
    (<[id := snap]> (r_branch_heads r)).

(** ** Computations of the reducer *)

Notation reducer_m := (ST SessionReducer SessionReplayError).

(** A call that also carries the optional historical snapshots. *)
Record ReducerCall : Set := mk_ReducerCall {
  rc_self : SessionReducer;
  rc_historical : option HistoricalSnapshots
}.

Notation call_m := (ST ReducerCall SessionReplayError).

Definition on_self {A} (m : reducer_m A) : call_m A := λ c,
  let (res, self) := m (rc_self c) in (res, mk_ReducerCall self (rc_historical c)).

(** [if let Some(historical) = historical { historical.capture(..) }]. *)
Definition capture_historical (record_id : RecordId) (snapshot : BranchSnapshot) : call_m unit :=
  st_modify (λ c, mk_ReducerCall (rc_self c)
    ((λ h, historical_capture h record_id snapshot) <$> rc_historical c)).

(** [self.state.as_mut().ok_or(missing_materialized_state)?]. *)
Definition materialized : reducer_m MaterializedSessionState := λ r,
  (ok_or (r_state r) (InvalidTransition "missing_materialized_state"), r).

(** A write through the [&mut] borrow of the materialized state. *)
Definition update_state (f : MaterializedSessionState → MaterializedSessionState)
    : reducer_m unit :=
  st_modify (λ r, set_r_state (f <$> r_state r) r).

Definition update_tool (id : ToolCallId) (tool : ToolCallState) : reducer_m unit :=
  update_state (λ s, set_st_tool_calls (<[id := tool]> (st_tool_calls s)) s).

(** ** [apply_record], one definition per durable record kind *)

(** The loop over [declared_tool_calls(message)]: the insertion happens before
    the duplicate test. *)
Definition declare_tool_call (d : ToolCallId * string * Value) : reducer_m unit :=
  let '(tool_call_id, tool_name, arguments) := d in
  let! s := materialized in
  let! previous := st_gets (λ r, r_declared_tool_calls r !! tool_call_id) in
  do! st_modify (insert_declared tool_call_id (mk_DeclaredToolCall tool_name arguments)) in
  st_ensure
    (negb (bool_decide (is_Some previous)
           || bool_decide (is_Some (st_tool_calls s !! tool_call_id))))
    (DuplicateEntity "tool_call").

(** The terminal a tool-result message must repeat. *)
Definition terminal_matches (tool : ToolCallState) (tool_name : string)
    (content : list ContentBlock) (is_error : bool) (error : option ToolFailure) : bool :=
  match tc_execution tool with
  | Finished terminal_error terminal_content terminal_failure _ =>
      bool_decide (terminal_error = is_error)
      && bool_decide (terminal_content = content)
      && bool_decide (terminal_failure = error)
      && bool_decide (tc_tool_name tool = tool_name)
  | NotStarted | Started _ _ | Interrupted _ _ _ => false
  end.

Definition link_tool_result (message : CanonicalMessage) : reducer_m unit :=
  match message with
  | ToolResult id tool_call_id tool_name content is_error error _ =>
      let! s := materialized in
      let! tool := st_lift (ok_or (st_tool_calls s !! tool_call_id)
                              (InvalidReference "tool_result_tool_call")) in
      do! st_ensure (bool_decide (tc_result_message_id tool = None))
            (InvalidTransition "duplicate_tool_result_message") in
      do! st_ensure (terminal_matches tool tool_name content is_error error)
            (InvalidTransition "tool_result_before_matching_terminal") in
      update_tool tool_call_id (commit_tool_result tool id)
  | User _ _ _ | Assistant _ _ _ _ => st_ret tt
  end.

Definition insert_fresh_message_id (id : MessageId) : reducer_m unit :=
  let! ids := st_gets r_message_ids in
  do! st_ensure (negb (bool_decide (id ∈ ids))) (DuplicateEntity "message") in
  st_modify (insert_message_id id).

Definition apply_message_committed (message : CanonicalMessage) : reducer_m unit :=
  do! insert_fresh_message_id (message_id message) in
  do! st_for (declared_tool_calls message) declare_tool_call in
  do! link_tool_result message in
  update_state (λ s, set_st_messages (st_messages s ++ [message]) s).

(** [if let Some(v) = field { setter(&mut configuration, v) }]. *)
Definition set_if_some {A} (o : option A)
    (setter : SessionConfiguration → A → SessionConfiguration)
    (c : SessionConfiguration) : SessionConfiguration :=
  match o with Some a => setter c a | None => c end.

Definition apply_configuration_changed (model : option ModelRef)
    (profile_id : option ProfileId) (effort : option ReasoningEffort) : reducer_m unit :=
  update_state (λ s, set_st_configuration
    (set_if_some effort set_reasoning_effort
      (set_if_some profile_id set_profile
        (set_if_some model set_model (st_configuration s)))) s).

Definition visible_on_branch (r : SessionReducer) (s : MaterializedSessionState)
    (tool_call_id : ToolCallId) : bool :=
  match st_active_branch_id s with
  | None => true
  | Some branch_id =>
      match r_branch_heads r !! branch_id with
      | Some head => bool_decide (tool_call_id ∈ snap_declared_tool_calls head)
      | None => false
      end
  end.

Definition apply_tool_call_requested (tool_call_id : ToolCallId) (tool_name : string)
    (arguments : Value) : reducer_m unit :=
  let! s := materialized in
  let! visible := st_gets (λ r, visible_on_branch r s tool_call_id) in
  let! declared_here := st_gets (λ r, r_declared_tool_calls r !! tool_call_id) in
  let! declared := st_lift (ok_or (if visible then declared_here else None)
                              (InvalidReference "undeclared_tool_call")) in
  do! st_ensure (bool_decide (dtc_tool_name declared = tool_name)
                 && bool_decide (dtc_arguments declared = arguments))
        (InvalidReference "tool_call_declaration_mismatch") in
  let! requested := st_gets r_requested_tool_call_ids in
  do! st_modify (insert_requested tool_call_id) in
  do! st_ensure (negb (bool_decide (tool_call_id ∈ requested)
                       || bool_decide (is_Some (st_tool_calls s !! tool_call_id))))
        (DuplicateEntity "tool_call_request") in
  update_tool tool_call_id (new_tool_call tool_call_id tool_name arguments).

(** [state.tool_calls.get_mut(id).ok_or(InvalidReference(reference))?]. *)
Definition get_tool (tool_call_id : ToolCallId) (reference : string)
    : reducer_m ToolCallState :=
  let! s := materialized in
  st_lift (ok_or (st_tool_calls s !! tool_call_id) (InvalidReference reference)).

Definition apply_policy_decision_recorded (tool_call_id : ToolCallId)
    (decision : RecordedPolicyDecision) : reducer_m unit :=
  let! tool := get_tool tool_call_id "policy_tool_call" in
  do! st_ensure (bool_decide (tc_policy_decision tool = None))
        (InvalidTransition "duplicate_policy_decision") in
  update_tool tool_call_id (set_policy tool decision).

Definition apply_approval_requested (timestamp : ProtocolTimestamp)
    (approval_id : ApprovalId) (tool_call_id : ToolCallId)
    (expires_at : ProtocolTimestamp) : reducer_m unit :=
  let! ids := st_gets r_approval_ids in
  do! st_ensure (negb (bool_decide (approval_id ∈ ids))) (DuplicateEntity "approval") in
  do! st_modify (insert_approval_id approval_id) in
  let! tool := get_tool tool_call_id "approval_tool_call" in
  do! st_ensure (bool_decide (tc_policy_decision tool = Some PolicyRequireApproval)
                 && bool_decide (tc_approval_id tool = None)
                 && ts_ltb timestamp expires_at)
        (InvalidTransition "approval_request") in
  do! update_tool tool_call_id (set_approval tool approval_id) in
  update_state (λ s, set_st_pending_approvals
    (<[approval_id := new_pending_approval approval_id tool_call_id expires_at timestamp]>
       (st_pending_approvals s)) s).

Definition apply_approval_resolved (timestamp : ProtocolTimestamp)
    (approval_id : ApprovalId) (decision : ApprovalDecision) : reducer_m unit :=
  let! s := materialized in
  let! pending := st_lift (ok_or (st_pending_approvals s !! approval_id)
                             (InvalidReference "pending_approval")) in
  do! update_state (λ s, set_st_pending_approvals
        (delete approval_id (st_pending_approvals s)) s) in
  do! st_ensure (ts_leb (pa_requested_at pending) timestamp
                 && ts_ltb timestamp (pa_expires_at pending))
        (InvalidTransition "expired_approval_resolution") in
  let! tool := get_tool (pa_tool_call_id pending) "approval_resolution_tool_call" in
  update_tool (pa_tool_call_id pending) (resolve_approval tool decision).

(** The authorization test at the durable start boundary. *)
Definition authorized (tool : ToolCallState) : bool :=
  match tc_policy_decision tool with
  | Some PolicyAllow => true
  | Some PolicyRequireApproval =>
      match tc_approval_decision tool with
      | Some AllowOnce | Some AllowSession => true
      | Some DenyApproval | None => false
      end
  | Some PolicyDeny | None => false
  end.

Definition apply_tool_execution_started (tool_call_id : ToolCallId)
    (execution_target : ExecutionTarget) (idempotency : ToolIdempotency) : reducer_m unit :=
  let! tool := get_tool tool_call_id "execution_tool_call" in
  do! st_ensure (authorized tool && is_not_started (tc_execution tool))
        (InvalidTransition "tool_execution_start") in
  update_tool tool_call_id (start_tool tool execution_target idempotency).

Definition denied_without_execution (tool : ToolCallState) (is_error : bool) : bool :=
  is_not_started (tc_execution tool) && is_error
  && (bool_decide (tc_policy_decision tool = Some PolicyDeny)
      || bool_decide (tc_approval_decision tool = Some DenyApproval)).

Definition apply_tool_execution_finished (tool_call_id : ToolCallId) (is_error : bool)
    (content : list ContentBlock) (error : option ToolFailure)
    (presentation : option ToolPresentation) : reducer_m unit :=
  let! tool := get_tool tool_call_id "tool_terminal_tool_call" in
  do! st_ensure (is_started (tc_execution tool) || denied_without_execution tool is_error)
        (InvalidTransition "tool_execution_finish") in
  update_tool tool_call_id (finish_tool tool is_error content error presentation).

Definition apply_tool_execution_interrupted (tool_call_id : ToolCallId) (reason : string)
    : reducer_m unit :=
  let! tool := get_tool tool_call_id "tool_interruption_tool_call" in
  do! st_ensure (is_started (tc_execution tool))
        (InvalidTransition "tool_execution_interruption") in
  update_tool tool_call_id (interrupt_tool tool reason).

Definition apply_run_interrupted (run_id : RunId) (turn_id : TurnId) (reason : string)
    : reducer_m unit :=
  let! s := materialized in
  do! st_ensure (bool_decide (st_run_recovery s !! run_id = None))
        (InvalidTransition "duplicate_run_terminal") in
  update_state (λ s, set_st_run_recovery
    (<[run_id := RecoveryInterrupted turn_id reason]> (st_run_recovery s)) s).

(** [BTreeMap::insert(..).is_some()]: the write precedes the test. *)
Definition apply_run_cancelled (run_id : RunId) : reducer_m unit :=
  let! s := materialized in
  do! update_state (λ s, set_st_run_recovery
        (<[run_id := RecoveryCancelled]> (st_run_recovery s)) s) in
  st_ensure (bool_decide (st_run_recovery s !! run_id = None))
    (InvalidTransition "duplicate_run_terminal").

Definition is_assistant (m : CanonicalMessage) : bool :=
  match m with Assistant _ _ _ _ => true | _ => false end.

Definition source_is_active (r : SessionReducer) (s : MaterializedSessionState)
    (record_id : RecordId) : bool :=
  match st_active_branch_id s with
  | None => bool_decide (record_id ∈ r_record_ids r)
  | Some branch_id =>
      match r_branch_heads r !! branch_id with
      | Some head => bool_decide (record_id ∈ snap_history head)
      | None => false
      end
  end.

Definition apply_session_compacted (summary : CanonicalMessage)
    (compacted_through_record_id : RecordId) : reducer_m unit :=
  do! st_ensure (is_assistant summary) (InvalidTransition "compaction_summary_role") in
  let! s := materialized in
  let! active := st_gets (λ r, source_is_active r s compacted_through_record_id) in
  do! st_ensure active (InvalidReference "compaction_source") in
  do! insert_fresh_message_id (message_id summary) in
  update_state (λ s, set_compaction s summary compacted_through_record_id).

Definition apply_turn_checkpointed (envelope : RecordEnvelope) (run_id : RunId)
    (turn_id : TurnId) (next_action : NextTurnAction) : reducer_m unit :=
  update_state (set_st_latest_checkpoint
    (Some (mk_TurnCheckpoint run_id turn_id (env_record_id envelope) (env_sequence envelope)
             next_action))).

Definition apply_record (envelope : RecordEnvelope) : reducer_m unit :=
  do! materialized in
  match env_record envelope with
  | SessionCreated _ _ => st_throw InvalidCreation
  | MessageCommitted message => apply_message_committed message
  | ConfigurationChanged model profile_id effort =>
      apply_configuration_changed model profile_id effort
  | ToolCallRequested tool_call_id tool_name arguments =>
      apply_tool_call_requested tool_call_id tool_name arguments
  | PolicyDecisionRecorded tool_call_id decision =>
      apply_policy_decision_recorded tool_call_id decision
  | ApprovalRequested approval_id tool_call_id expires_at =>
      apply_approval_requested (env_timestamp envelope) approval_id tool_call_id expires_at
  | ApprovalResolved approval_id decision =>
      apply_approval_resolved (env_timestamp envelope) approval_id decision
  | ToolExecutionStarted tool_call_id execution_target idempotency =>
      apply_tool_execution_started tool_call_id execution_target idempotency
  | ToolExecutionFinished tool_call_id is_error content error presentation =>
      apply_tool_execution_finished tool_call_id is_error content error presentation
  | ToolExecutionInterrupted tool_call_id reason =>
      apply_tool_execution_interrupted tool_call_id reason
  | RunInterrupted run_id turn_id reason => apply_run_interrupted run_id turn_id reason
  | RunCancelled run_id => apply_run_cancelled run_id
  | BranchCreated _ _ _ | ActiveBranchChanged _ =>
      st_throw (InvalidTransition "branching_not_applied")
  | SessionCompacted summary compacted_through_record_id =>
      apply_session_compacted summary compacted_through_record_id
  | TurnCheckpointed run_id turn_id next_action =>
      apply_turn_checkpointed envelope run_id turn_id next_action
  end.

(** ** Branch maintenance *)

(** The set [capture_active_branch] collects from the active transcript. *)
Definition declared_ids (messages : list CanonicalMessage) : gset ToolCallId :=
  list_to_set ((λ d : ToolCallId * string * Value, d.1.1) <$> (messages ≫= declared_tool_calls)).

(** [state.branches.get_mut(id).ok_or(..)?.set_leaf(record_id)]. *)
Definition update_leaf (branch_id : BranchId) (record_id : RecordId) : reducer_m unit :=
  let! s := materialized in
  let! summary := st_lift (ok_or (st_branches s !! branch_id)
                             (InvalidReference "active_branch_summary")) in
  update_state (λ s, set_st_branches
    (<[branch_id := set_leaf summary record_id]> (st_branches s)) s).

Definition get_head (branch_id : BranchId) (reference : string) : reducer_m BranchSnapshot :=
  let! heads := st_gets r_branch_heads in
  st_lift (ok_or (heads !! branch_id) (InvalidReference reference)).

Definition snap_add_history (record_id : RecordId) (snap : BranchSnapshot) : BranchSnapshot :=
  mk_BranchSnapshot (snap_projection snap) ({[ record_id ]} ∪ snap_history snap)
    (snap_declared_tool_calls snap).

(** The head of the active branch after one more accepted record. *)
Definition refreshed_head (record_id : RecordId) (s : MaterializedSessionState)
    (head : BranchSnapshot) : BranchSnapshot :=
  mk_BranchSnapshot (projection_capture s) ({[ record_id ]} ∪ snap_history head)
    (declared_ids (st_messages s)).

Definition capture_active_branch (record_id : RecordId) : call_m unit :=
  let! s := on_self materialized in
  match st_active_branch_id s with
  | None => st_ret tt
  | Some branch_id =>
      let! head := on_self (get_head branch_id "active_branch") in
      let new_head := refreshed_head record_id s head in
      do! on_self (st_modify (insert_branch_head branch_id new_head)) in
      do! on_self (update_leaf branch_id record_id) in
      capture_historical record_id new_head
  end.

Definition apply_active_branch_changed (envelope : RecordEnvelope) (branch_id : BranchId)
    : call_m unit :=
  let record_id := env_record_id envelope in
  let! head := on_self (get_head branch_id "active_branch_change") in
  do! on_self materialized in
  let new_head := snap_add_history record_id head in
  do! on_self (update_state (projection_install (snap_projection head))) in
  do! on_self (st_modify (insert_branch_head branch_id new_head)) in
  do! on_self (update_state (set_st_active_branch_id (Some branch_id))) in
  do! on_self (update_leaf branch_id record_id) in
  capture_historical record_id new_head.

Definition validate_envelope (envelope : RecordEnvelope) : reducer_m unit :=
  let! s := materialized in
  do! st_ensure (bool_decide (env_session_id envelope = st_session_id s))
        (SessionMismatch (st_session_id s) (env_session_id envelope)) in
  let! expected := st_lift (ok_or (checked_next (st_tail_sequence s)) SequenceOverflow) in
  st_ensure (bool_decide (env_sequence envelope = expected))
    (SequenceMismatch expected (env_sequence envelope)).

Definition is_branch_record (record : SessionRecord) : bool :=
  match record with BranchCreated _ _ _ | ActiveBranchChanged _ => true | _ => false end.

Definition is_creation_record (record : SessionRecord) : bool :=
  match record with SessionCreated _ _ => true | _ => false end.

Definition validate_branch_scope (envelope : RecordEnvelope) : reducer_m unit :=
  let! s := materialized in
  st_ensure (is_branch_record (env_record envelope)
             || bool_decide (env_branch_id envelope = st_active_branch_id s))
    (InvalidReference "inactive_branch").

(** The snapshot the root branch starts with. *)
Definition root_snapshot (record_id : RecordId) (s : MaterializedSessionState)
    : BranchSnapshot :=
  mk_BranchSnapshot (projection_capture s) {[ record_id ]} ∅.

Definition apply_creation (envelope : RecordEnvelope) : call_m unit :=
  let record_id := env_record_id envelope in
  do! st_ensure (bool_decide (env_sequence envelope = SessionSequence_new 0))
        (SequenceMismatch (SessionSequence_new 0) (env_sequence envelope)) in
  match env_record envelope with
  | SessionCreated profile_id metadata =>
      let s := new_state record_id (env_session_id envelope) (env_sequence envelope)
                 profile_id metadata (env_branch_id envelope) in
      do! on_self (st_modify (set_r_state (Some s))) in
      do! match env_branch_id envelope with
          | None => st_ret tt
          | Some branch_id =>
              do! capture_historical record_id (root_snapshot record_id s) in
              on_self (st_modify (insert_branch_head branch_id (root_snapshot record_id s)))
          end in
      on_self (st_modify (insert_record_id record_id))
  | _ => st_throw InvalidCreation
  end.

(** ** Applying one record

    [apply_inner_with_history] and [replay_branch_snapshot] call each other:
    without historical snapshots a fork replays the log prefix, and that replay
    runs with historical snapshots, where a fork only looks its source up.  The
    recursion is therefore two levels deep; [branch_snapshot] below stands for
    the replay, and the two levels are tied after the section. *)

Section apply_inner.
Context (branch_snapshot :
  SessionReducer → BranchId → RecordId → Result SessionReplayError (option BranchSnapshot)).

(** [match historical.as_deref() { Some(h) => h.get(..), None => self.replay_..? }]. *)
Definition fork_source (source_branch_id : BranchId) (from_record_id : RecordId)
    : call_m (option BranchSnapshot) := λ c,
  match rc_historical c with
  | Some historical => (Ok (historical_get historical from_record_id), c)
  | None => (branch_snapshot (rc_self c) source_branch_id from_record_id, c)
  end.

Definition apply_branch_created (envelope : RecordEnvelope) (source_branch_id : BranchId)
    (branch_id : BranchId) (from_record_id : RecordId) : call_m unit :=
  let record_id := env_record_id envelope in
  let! heads := on_self (st_gets r_branch_heads) in
  do! st_ensure (bool_decide (heads !! branch_id = None)) (DuplicateEntity "branch") in
  let! source := on_self (get_head source_branch_id "source_branch") in
  do! st_ensure (bool_decide (from_record_id ∈ snap_history source))
        (InvalidReference "fork_point_outside_source_branch") in
  let! found := fork_source source_branch_id from_record_id in
  let! source_snapshot := st_lift (ok_or found (InvalidReference "fork_record_snapshot")) in
  do! st_ensure (safe_to_fork source_snapshot) (InvalidTransition "unsafe_fork_point") in
  let new_snapshot := snap_add_history record_id source_snapshot in
  do! capture_historical record_id new_snapshot in
  do! on_self (st_modify (insert_branch_head branch_id new_snapshot)) in
  do! on_self materialized in
  on_self (update_state (λ s, set_st_branches
    (<[branch_id := mk_BranchSummary branch_id (Some source_branch_id) from_record_id
                      record_id]> (st_branches s)) s)).

(** The dispatch on the record kind inside [apply_inner_with_history]. *)
Definition apply_body (envelope : RecordEnvelope) : call_m unit :=
  match env_record envelope with
  | BranchCreated source_branch_id branch_id from_record_id =>
      apply_branch_created envelope source_branch_id branch_id from_record_id
  | ActiveBranchChanged branch_id => apply_active_branch_changed envelope branch_id
  | _ =>
      do! on_self (apply_record envelope) in
      capture_active_branch (env_record_id envelope)
  end.

Definition apply_next (envelope : RecordEnvelope) : call_m unit :=
  do! on_self (validate_envelope envelope) in
  do! st_ensure (negb (is_creation_record (env_record envelope))) InvalidCreation in
  do! on_self (validate_branch_scope envelope) in
  do! apply_body envelope in
  do! on_self materialized in
  do! on_self (update_state (set_st_tail (env_sequence envelope) (env_record_id envelope))) in
  on_self (st_modify (insert_record_id (env_record_id envelope))).

Definition apply_inner_with_history (envelope : RecordEnvelope) : call_m unit :=
  let! ids := on_self (st_gets r_record_ids) in
  do! st_ensure (negb (bool_decide (env_record_id envelope ∈ ids)))
        (DuplicateRecord (env_record_id envelope)) in
  let! s := on_self (st_gets r_state) in
  match s with
  | None => apply_creation envelope
  | Some _ => apply_next envelope
  end.

(** The loop of [replay_branch_snapshot] over the log prefix. *)
Definition replay_prefix (records : list RecordEnvelope) : call_m unit :=
  st_for records (λ envelope,
    do! apply_inner_with_history envelope in
    on_self (st_modify (push_record envelope))).
End apply_inner.

(** Inside a replay the historical snapshots are present, and this level is
    never asked for a snapshot. *)
Definition no_branch_snapshot (_ : SessionReducer) (_ : BranchId) (_ : RecordId)
    : Result SessionReplayError (option BranchSnapshot) := Ok None.

(** The filter that closes [replay_branch_snapshot]. *)
Definition snapshot_on_branch (source_branch_id : BranchId) (from_record_id : RecordId)
    (replay : ReducerCall) : option BranchSnapshot :=
  match rc_historical replay with
  | None => None
  | Some historical =>
      match historical_get historical from_record_id,
            r_branch_heads (rc_self replay) !! source_branch_id with
      | Some snapshot, Some source =>
          if bool_decide (from_record_id ∈ snap_history source)
             && bool_decide (from_record_id ∈ snap_history snapshot)
          then Some snapshot else None
      | _, _ => None
      end
  end.

Definition replay_branch_snapshot (r : SessionReducer) (source_branch_id : BranchId)
    (from_record_id : RecordId) : Result SessionReplayError (option BranchSnapshot) :=
  match for_prefix (r_records r) from_record_id with
  | None => Ok None
  | Some (historical, target_index) =>
      match replay_prefix no_branch_snapshot (take (S target_index) (r_records r))
              (mk_ReducerCall reducer_new (Some historical)) with
      | (Err e, _) => Err e
      | (Ok _, replay) => Ok (snapshot_on_branch source_branch_id from_record_id replay)
      end
  end.

(** [apply_inner]: the call without historical snapshots. *)
Definition apply_inner (envelope : RecordEnvelope) : reducer_m unit := λ r,
  let (res, c) := apply_inner_with_history replay_branch_snapshot envelope
                    (mk_ReducerCall r None) in
  (res, rc_self c).

(** ** The public operations *)

(** The replay loop shared by [restore_durable_state] and [replay_reducer]. *)
Definition accept (envelope : RecordEnvelope) : reducer_m unit :=
  do! apply_inner envelope in
  st_modify (push_record envelope).

(** [restore_durable_state]: [None] is the panic of its [expect]. *)
Definition restore_durable_state (r : SessionReducer) : option SessionReducer :=
  match st_for (r_records r) accept reducer_new with
  | (Ok _, restored) => Some restored
  | (Err _, _) => None
  end.

(** [apply]: [None] is a panic, otherwise the returned result and the reducer
    the call leaves behind. *)
Definition apply (r : SessionReducer) (envelope : RecordEnvelope)
    : option (Result SessionReplayError unit * SessionReducer) :=
  match apply_inner envelope r with
  | (Err error, r') => (λ restored, (Err error, restored)) <$> restore_durable_state r'
  | (Ok _, r') => Some (Ok tt, push_record envelope r')
  end.

(** The [for] loop of [replay_reducer]; [None] is a panic. *)
Fixpoint apply_all (r : SessionReducer) (records : list RecordEnvelope)
    : option (Result SessionReplayError SessionReducer) :=
  match records with
  | [] => Some (Ok r)
  | envelope :: rest =>
      match apply r envelope with
      | None => None
      | Some (Err e, _) => Some (Err e)
      | Some (Ok _, r') => apply_all r' rest
      end
  end.

Definition replay_reducer (records : list RecordEnvelope)
    : option (Result SessionReplayError SessionReducer) :=
  match apply_all reducer_new records with
  | Some (Ok r) =>
      Some (match r_state r with None => Err EmptyLog | Some _ => Ok r end)
  | other => other
  end.

(** [SessionReducer::replay]. *)
Definition replay (records : list RecordEnvelope)
    : option (Result SessionReplayError MaterializedSessionState) :=
  (λ res, result_bind res (λ r, ok_or (r_state r) EmptyLog)) <$> replay_reducer records.
