(* ===== verification/ReducerReplay.v ===== *)
(** * Replay: atomicity, determinism and the historical fork replay

    What [SessionReducer] promises about its own machinery: a rejected record
    leaves the reducer as it was, the incremental reducer is the replay of its
    durable records, and the snapshot a fork starts from is the branch head
    the log had at the fork record. *)

From S2P Require Import Prelude Protocol SessionState Reducer.
Local Open Scope tea_scope.

(** ** Specifications of the replay *)

(** The reducers the public operations can produce. *)
Inductive reachable : SessionReducer → Prop :=
| reachable_new : reachable reducer_new
| reachable_apply r envelope res r' :
    reachable r → apply r envelope = Some (res, r') → reachable r'.

(** [r] is what replaying its durable records gives. *)
Definition replayed (r : SessionReducer) : Prop :=
  st_for (r_records r) accept reducer_new = (Ok tt, r).

(** The branch head an accepted record leaves behind: the head of the branch
    it creates or selects, or of the active branch. *)
Definition head_after (envelope : RecordEnvelope) (r : SessionReducer)
    : option BranchSnapshot :=
  match env_record envelope with
  | BranchCreated _ branch_id _ | ActiveBranchChanged branch_id => r_branch_heads r !! branch_id
  | _ =>
      match r_state r with
      | Some s =>
          match st_active_branch_id s with
          | Some branch_id => r_branch_heads r !! branch_id
          | None => None
          end
      | None => None
      end
  end.

(** The reducer the log has after its first [n] records. *)
Definition reducer_at (records : list RecordEnvelope) (n : nat) : SessionReducer :=
  (st_for (take n records) accept reducer_new).2.

(** The snapshot the log had at the record [record_id]. *)
Definition snapshot_at (records : list RecordEnvelope) (record_id : RecordId)
    : option BranchSnapshot :=
  match list_find (λ envelope, env_record_id envelope = record_id) records with
  | Some (i, envelope) => head_after envelope (reducer_at records (S i))
  | None => None
  end.

(** What [replay_branch_snapshot] is meant to return: the snapshot at the fork
    record, provided the source branch existed then and both histories hold
    the fork record. *)
Definition fork_snapshot_spec (r : SessionReducer) (source_branch_id : BranchId)
    (from_record_id : RecordId) : option BranchSnapshot :=
  match list_find (λ envelope, env_record_id envelope = from_record_id) (r_records r) with
  | None => None
  | Some (i, envelope) =>
      let then_ := reducer_at (r_records r) (S i) in
      match head_after envelope then_, r_branch_heads then_ !! source_branch_id with
      | Some snapshot, Some source =>
          if bool_decide (from_record_id ∈ snap_history source)
             && bool_decide (from_record_id ∈ snap_history snapshot)
          then Some snapshot else None
      | _, _ => None
      end
  end.

(** ** Running the reducer's primitives *)

Lemma materialized_ok r s r' :
  materialized r = (Ok s, r') ↔ r_state r = Some s ∧ r' = r.
Proof. unfold materialized. destruct (r_state r); simpl; naive_solver. Qed.

Lemma on_self_ok {A} (m : reducer_m A) c a c' :
  on_self m c = (Ok a, c') ↔
  ∃ r', m (rc_self c) = (Ok a, r') ∧ c' = mk_ReducerCall r' (rc_historical c).
Proof. unfold on_self. destruct (m (rc_self c)) as [[] ]; naive_solver. Qed.

Lemma update_state_ok f r u r' :
  update_state f r = (Ok u, r') ↔ r' = set_r_state (f <$> r_state r) r.
Proof. unfold update_state. by rewrite st_modify_ok. Qed.

Lemma get_tool_ok id reference r t r' :
  get_tool id reference r = (Ok t, r') ↔
  r' = r ∧ ∃ s, r_state r = Some s ∧ st_tool_calls s !! id = Some t.
Proof.
  unfold get_tool. rewrite st_bind_ok. setoid_rewrite materialized_ok.
  setoid_rewrite st_lift_ok. setoid_rewrite ok_or_ok. naive_solver.
Qed.

Lemma get_head_ok b reference r h r' :
  get_head b reference r = (Ok h, r') ↔ r' = r ∧ r_branch_heads r !! b = Some h.
Proof.
  unfold get_head. rewrite st_bind_ok. setoid_rewrite st_gets_ok.
  setoid_rewrite st_lift_ok. setoid_rewrite ok_or_ok. naive_solver.
Qed.

Lemma update_leaf_ok b rid r u r' :
  update_leaf b rid r = (Ok u, r') ↔
  ∃ s summary, r_state r = Some s ∧ st_branches s !! b = Some summary ∧
    r' = set_r_state (Some (set_st_branches (<[b := set_leaf summary rid]> (st_branches s)) s)) r.
Proof.
  unfold update_leaf. split.
  - intros (s & ? & [Hs ->]%materialized_ok & H)%st_bind_ok.
    apply st_bind_ok in H as (summary & ? & [Hb%ok_or_ok ->]%st_lift_ok & ->%update_state_ok).
    exists s, summary. by rewrite Hs.
  - intros (s & summary & Hs & Hb & ->).
    eapply st_bind_run; [by apply materialized_ok|].
    eapply st_bind_run; [by apply st_lift_ok; rewrite Hb|].
    apply update_state_ok. by rewrite Hs.
Qed.

Ltac red_inv_step :=
  match goal with
  | H : materialized _ = (Ok _, _) |- _ => apply materialized_ok in H; destruct H; subst
  | H : on_self _ _ = (Ok _, _) |- _ =>
      apply on_self_ok in H; let r := fresh "r" in destruct H as (r & H & ?); subst;
      simpl in H
  | H : update_state _ _ = (Ok _, _) |- _ => apply update_state_ok in H; subst
  | H : get_tool _ _ _ = (Ok _, _) |- _ =>
      apply get_tool_ok in H; destruct H as [? (? & ? & ?)]; subst
  | H : get_head _ _ _ = (Ok _, _) |- _ => apply get_head_ok in H; destruct H; subst
  | H : update_leaf _ _ _ = (Ok _, _) |- _ =>
      apply update_leaf_ok in H; destruct H as (? & ? & ? & ? & ?); subst
  | H : capture_historical _ _ _ = (Ok _, _) |- _ => apply st_modify_ok in H; subst
  end.
Ltac red_inv := repeat (st_inv_step || red_inv_step).

(** ** Frames: the handlers write neither the record list nor the record ids *)

Definition durable_part (r : SessionReducer) : list RecordEnvelope * gset RecordId :=
  (r_records r, r_record_ids r).

Lemma keeps_on_self {A C} (f : SessionReducer → C) (m : reducer_m A) :
  keeps f m → keeps (λ c, f (rc_self c)) (on_self m).
Proof. intros Hm c. unfold on_self. specialize (Hm (rc_self c)). by destruct (m _). Qed.

Lemma keeps_materialized {C} (f : SessionReducer → C) : keeps f materialized.
Proof. by intros r. Qed.

Lemma keeps_capture {C} (f : SessionReducer → C) rid snap :
  keeps (λ c, f (rc_self c)) (capture_historical rid snap).
Proof. by apply keeps_modify. Qed.

#[export] Hint Resolve keeps_on_self keeps_materialized keeps_capture : keeps.

(** Frames of [apply_record]: a field its handlers never write. *)
Ltac solve_keeps_record :=
  unfold apply_record, apply_message_committed, declare_tool_call,
    link_tool_result, apply_configuration_changed, apply_tool_call_requested,
    apply_policy_decision_recorded, apply_approval_requested, apply_approval_resolved,
    apply_tool_execution_started, apply_tool_execution_finished,
    apply_tool_execution_interrupted, apply_run_interrupted, apply_run_cancelled,
    apply_session_compacted, apply_turn_checkpointed, insert_fresh_message_id, get_tool,
    update_tool, update_state;
  solve_keeps.

Lemma apply_record_keeps envelope : keeps durable_part (apply_record envelope).
Proof. solve_keeps_record. Qed.

Lemma apply_record_keeps_heads envelope : keeps r_branch_heads (apply_record envelope).
Proof. solve_keeps_record. Qed.

Lemma apply_body_keeps bs envelope : keeps (λ c, durable_part (rc_self c)) (apply_body bs envelope).
Proof.
  assert (∀ src from, keeps (λ c, durable_part (rc_self c)) (fork_source bs src from)).
  { intros src from [r [h|]]; done. }
  pose proof apply_record_keeps.
  unfold apply_body, apply_branch_created, apply_active_branch_changed, capture_active_branch,
    get_head, update_leaf, update_state.
  repeat (solve_keeps; try (apply keeps_on_self)).
Qed.

Lemma apply_inner_with_history_keeps bs envelope :
  keeps (λ c, r_records (rc_self c)) (apply_inner_with_history bs envelope).
Proof.
  assert (keeps (λ c, r_records (rc_self c)) (apply_body bs envelope)).
  { intros c. pose proof (apply_body_keeps bs envelope c) as H. by injection H. }
  unfold apply_inner_with_history, apply_creation, apply_next, validate_envelope,
    validate_branch_scope, update_state.
  repeat (solve_keeps; try (apply (keeps_on_self r_records))).
Qed.

Lemma apply_inner_keeps envelope : keeps r_records (apply_inner envelope).
Proof.
  intros r. unfold apply_inner.
  pose proof (apply_inner_with_history_keeps replay_branch_snapshot envelope
                (mk_ReducerCall r None)) as H.
  by destruct (apply_inner_with_history _ _ _).
Qed.

(** ** The incremental reducer is the replay of its records *)

Lemma accept_ok envelope r u r' :
  accept envelope r = (Ok u, r') ↔
  ∃ r1, apply_inner envelope r = (Ok tt, r1) ∧ r' = push_record envelope r1.
Proof.
  unfold accept. rewrite st_bind_ok. setoid_rewrite st_modify_ok.
  split; [intros ([] & r1 & ? & ?)|intros (r1 & ? & ?)]; eauto.
Qed.

Lemma accept_records envelope r u r' :
  accept envelope r = (Ok u, r') → r_records r' = r_records r ++ [envelope].
Proof.
  intros (r1 & H & ->)%accept_ok. simpl.
  pose proof (apply_inner_keeps envelope r) as Hk. by rewrite H in Hk; rewrite <- Hk.
Qed.

Lemma replay_records records r u r' :
  st_for records accept r = (Ok u, r') → r_records r' = r_records r ++ records.
Proof.
  revert r. induction records as [|envelope records IH]; intros r; simpl; intros H; st_inv.
  - by rewrite app_nil_r.
  - rewrite (IH _ H), (accept_records _ _ _ _ H0). by rewrite <- app_assoc.
Qed.

Lemma replayed_new : replayed reducer_new.
Proof. done. Qed.

Lemma replayed_accept envelope r u r' :
  replayed r → accept envelope r = (Ok u, r') → replayed r'.
Proof.
  unfold replayed. intros Hr Ha. rewrite (accept_records _ _ _ _ Ha), st_for_app, Hr.
  simpl. unfold st_bind. by rewrite Ha.
Qed.

(** Restoring a reducer some of whose fields a failed record has overwritten
    gives the reducer before that record. *)
Lemma restore_after_failure r envelope e r1 :
  replayed r → apply_inner envelope r = (Err e, r1) → restore_durable_state r1 = Some r.
Proof.
  intros Hr H. unfold restore_durable_state.
  pose proof (apply_inner_keeps envelope r) as Hk. rewrite H in Hk. simpl in Hk.
  by rewrite Hk, Hr.
Qed.

Lemma apply_cases r envelope :
  replayed r →
  (∃ r', accept envelope r = (Ok tt, r') ∧ apply r envelope = Some (Ok tt, r')) ∨
  (∃ e r1, apply_inner envelope r = (Err e, r1) ∧ apply r envelope = Some (Err e, r)).
Proof.
  intros Hr. unfold apply. destruct (apply_inner envelope r) as [[[]|e] r1] eqn:H.
  - left. exists (push_record envelope r1). split; [|done]. apply accept_ok. eauto.
  - right. exists e, r1. by rewrite (restore_after_failure r envelope e r1).
Qed.

Lemma reachable_replayed r : reachable r → replayed r.
Proof.
  induction 1 as [|r envelope res r' _ IH Ha]; [apply replayed_new|].
  destruct (apply_cases r envelope IH) as [(r2 & H1 & H2)|(e & r1 & _ & H2)];
    rewrite H2 in Ha; simplify_eq; eauto using replayed_accept.
Qed.

Lemma reachable_replay records r u r' :
  reachable r → st_for records accept r = (Ok u, r') → reachable r'.
Proof.
  revert r. induction records as [|envelope records IH]; intros r Hr; simpl; intros H; st_inv.
  - done.
  - apply (IH s); [|done]. eapply reachable_apply; [done|].
    destruct (apply_cases r envelope (reachable_replayed r Hr)) as [(r2 & H1 & H2)|(e & r1 & H1 & H2)].
    + by rewrite H2, H1 in *; simplify_eq.
    + apply accept_ok in H0 as (? & ? & ?). congruence.
Qed.

Lemma replayed_reachable r : replayed r → reachable r.
Proof. apply reachable_replay, reachable_new. Qed.

(** Induction on the accepted records of a reachable reducer. *)
Lemma replayed_snoc_inv records envelope r :
  st_for (records ++ [envelope]) accept reducer_new = (Ok tt, r) →
  ∃ r0, st_for records accept reducer_new = (Ok tt, r0) ∧ accept envelope r0 = (Ok tt, r).
Proof.
  rewrite st_for_app. destruct (st_for records accept reducer_new) as [[[]|e] r0]; [|done].
  intros H. simpl in H. st_inv. eauto.
Qed.

Lemma reachable_ind_accept (P : SessionReducer → Prop) :
  P reducer_new →
  (∀ r envelope r', reachable r → P r → accept envelope r = (Ok tt, r') → P r') →
  ∀ r, reachable r → P r.
Proof.
  intros Hnew Hstep. induction 1 as [|r envelope res r' Hr IH Ha]; [done|].
  destruct (apply_cases r envelope (reachable_replayed r Hr)) as [(r2 & H1 & H2)|(e & r1 & _ & H2)];
    rewrite H2 in Ha; simplify_eq; eauto.
Qed.

(** ** The two modes of [apply_inner_with_history] agree on accepted records *)

(** The capture the historical mode performs for an accepted record. *)
Definition capture_after (envelope : RecordEnvelope) (r : SessionReducer)
    (h : HistoricalSnapshots) : HistoricalSnapshots :=
  match head_after envelope r with
  | Some snapshot => historical_capture h (env_record_id envelope) snapshot
  | None => h
  end.

(** The snapshots at hand hold what the plain mode replays for a fork. *)
Definition fork_agrees (bs : SessionReducer → BranchId → RecordId →
      Result SessionReplayError (option BranchSnapshot))
    (h : HistoricalSnapshots) (r : SessionReducer) (envelope : RecordEnvelope) : Prop :=
  match env_record envelope with
  | BranchCreated source_branch_id _ from_record_id =>
      ∀ snapshot, bs r source_branch_id from_record_id = Ok (Some snapshot) →
        historical_get h from_record_id = Some snapshot
  | _ => True
  end.

Lemma on_self_run {A} (m : reducer_m A) r h a r' :
  m r = (Ok a, r') → on_self m (mk_ReducerCall r h) = (Ok a, mk_ReducerCall r' h).
Proof. intros H. apply on_self_ok. eauto. Qed.

Lemma on_self_modify_run f r h :
  on_self (st_modify f) (mk_ReducerCall r h) = (Ok tt, mk_ReducerCall (f r) h).
Proof. done. Qed.

Lemma ensure_run {S} b (e : SessionReplayError) (s : S) :
  b = true → st_ensure b e s = (Ok tt, s).
Proof. by intros ->. Qed.

Lemma lift_ok_or_run {S A} (o : option A) a (e : SessionReplayError) (s : S) :
  o = Some a → st_lift (ok_or o e) s = (Ok a, s).
Proof. by intros ->. Qed.

Lemma materialized_run r s : r_state r = Some s → materialized r = (Ok s, r).
Proof. intros H. by apply materialized_ok. Qed.

Lemma get_head_run b reference r h :
  r_branch_heads r !! b = Some h → get_head b reference r = (Ok h, r).
Proof. intros H. by apply get_head_ok. Qed.

Lemma update_leaf_run b rid r s summary :
  r_state r = Some s → st_branches s !! b = Some summary →
  update_leaf b rid r = (Ok tt,
    set_r_state (Some (set_st_branches (<[b := set_leaf summary rid]> (st_branches s)) s)) r).
Proof. intros Hs Hb. apply update_leaf_ok. eauto 10. Qed.

Create HintDb run.
#[export] Hint Resolve on_self_run on_self_modify_run ensure_run lift_ok_or_run
  materialized_run get_head_run update_leaf_run : run.

(** One step of a run whose pieces are known. *)
Ltac run_step := eapply st_bind_run; [solve [eauto with run]|]; simpl.

Lemma capture_active_branch_sim rid r r1 h1 H :
  capture_active_branch rid (mk_ReducerCall r None) = (Ok tt, mk_ReducerCall r1 h1) →
  h1 = None ∧
  capture_active_branch rid (mk_ReducerCall r (Some H)) =
    (Ok tt, mk_ReducerCall r1 (Some
       match r_state r1 with
       | Some s => match st_active_branch_id s with
                   | Some b => match r_branch_heads r1 !! b with
                               | Some snap => historical_capture H rid snap
                               | None => H
                               end
                   | None => H
                   end
       | None => H
       end)).
Proof.
  unfold capture_active_branch. intros Hc. red_inv. simpl in *.
  destruct (st_active_branch_id a) as [b|] eqn:Hb; red_inv; simplify_eq/=.
  - split; [done|]. run_step. rewrite Hb. run_step. run_step.
    eapply st_bind_run; [eapply on_self_run, update_leaf_run; [done|done]|].
    unfold capture_historical, st_modify. simpl. by rewrite lookup_insert_eq.
  - split; [done|]. run_step. rename select (r_state r = Some a) into Hs. by rewrite Hs, Hb.
Qed.

Lemma apply_active_branch_changed_sim envelope b r r1 h1 H :
  apply_active_branch_changed envelope b (mk_ReducerCall r None) =
    (Ok tt, mk_ReducerCall r1 h1) →
  h1 = None ∧
  apply_active_branch_changed envelope b (mk_ReducerCall r (Some H)) =
    (Ok tt, mk_ReducerCall r1 (Some
       match r_branch_heads r1 !! b with
       | Some snap => historical_capture H (env_record_id envelope) snap
       | None => H
       end)).
Proof.
  unfold apply_active_branch_changed. intros Hc. red_inv. simplify_eq/=.
  rename select (r_state r = Some _) into Hs. rewrite Hs in *. simplify_eq/=.
  split; [done|]. unfold update_state. do 5 run_step. rewrite Hs. simpl.
  eapply st_bind_run; [eapply on_self_run, update_leaf_run; done|].
  unfold capture_historical, st_modify. simpl. by rewrite lookup_insert_eq.
Qed.

Lemma apply_branch_created_sim bs1 bs2 envelope src b from r r1 h1 H :
  env_record envelope = BranchCreated src b from →
  fork_agrees bs1 H r envelope →
  apply_branch_created bs1 envelope src b from (mk_ReducerCall r None) =
    (Ok tt, mk_ReducerCall r1 h1) →
  h1 = None ∧
  apply_branch_created bs2 envelope src b from (mk_ReducerCall r (Some H)) =
    (Ok tt, mk_ReducerCall r1 (Some
       match r_branch_heads r1 !! b with
       | Some snap => historical_capture H (env_record_id envelope) snap
       | None => H
       end)).
Proof.
  intros Henv Hagree Hc. unfold fork_agrees in Hagree. rewrite Henv in Hagree.
  unfold apply_branch_created in *. red_inv.
  match goal with Hf : fork_source _ _ _ _ = _ |- _ => unfold fork_source in Hf; simpl in Hf end.
  simplify_eq/=. rename select (r_state r = Some _) into Hs.
  rename select (bs1 _ _ _ = _) into Hbs. apply Hagree in Hbs.
  split; [done|]. do 4 run_step.
  eapply st_bind_run; [done|]. simpl. rewrite Hbs.
  run_step. run_step. eapply st_bind_run; [done|]. simpl.
  run_step. eapply st_bind_run; [by eapply on_self_run, materialized_run|].
  unfold update_state. rewrite on_self_modify_run. simpl. by rewrite lookup_insert_eq.
Qed.

Lemma apply_body_sim bs1 bs2 envelope r r1 h1 H :
  fork_agrees bs1 H r envelope →
  is_creation_record (env_record envelope) = false →
  apply_body bs1 envelope (mk_ReducerCall r None) = (Ok tt, mk_ReducerCall r1 h1) →
  h1 = None ∧
  apply_body bs2 envelope (mk_ReducerCall r (Some H)) =
    (Ok tt, mk_ReducerCall r1 (Some (capture_after envelope r1 H))).
Proof.
  intros Hagree Hnc Hb. unfold apply_body, capture_after, head_after in *.
  destruct (env_record envelope) eqn:Henv; try done;
    [..|by eapply apply_branch_created_sim|by eapply apply_active_branch_changed_sim| |];
    red_inv; eapply capture_active_branch_sim in Hb as [-> Hb]; (split; [done|]);
    (eapply st_bind_run; [by apply on_self_run|]); rewrite Hb; repeat case_match; done.
Qed.

(** The bookkeeping after [apply_body] changes no branch head. *)
Definition finish_record (envelope : RecordEnvelope) (r : SessionReducer) : SessionReducer :=
  insert_record_id (env_record_id envelope)
    (set_r_state (set_st_tail (env_sequence envelope) (env_record_id envelope) <$> r_state r) r).

Lemma head_after_finish envelope r : head_after envelope (finish_record envelope r) = head_after envelope r.
Proof.
  unfold head_after, finish_record. simpl. destruct (r_state r); by destruct (env_record envelope).
Qed.

Lemma validate_envelope_same envelope r u r' :
  validate_envelope envelope r = (Ok u, r') → r' = r.
Proof. unfold validate_envelope. intros H. by red_inv. Qed.

Lemma validate_branch_scope_same envelope r u r' :
  validate_branch_scope envelope r = (Ok u, r') → r' = r.
Proof. unfold validate_branch_scope. intros H. by red_inv. Qed.

Lemma apply_next_inv bs envelope r h r1 h1 :
  apply_next bs envelope (mk_ReducerCall r h) = (Ok tt, mk_ReducerCall r1 h1) →
  ∃ s r2,
    validate_envelope envelope r = (Ok tt, r) ∧
    validate_branch_scope envelope r = (Ok tt, r) ∧
    is_creation_record (env_record envelope) = false ∧
    apply_body bs envelope (mk_ReducerCall r h) = (Ok tt, mk_ReducerCall r2 h1) ∧
    r_state r2 = Some s ∧ r1 = finish_record envelope r2.
Proof.
  unfold apply_next. intros Hn. apply st_bind_ok in Hn as ([] & c & Hv & Hn).
  apply on_self_ok in Hv as (ra & Hv & ->). simpl in *.
  pose proof (validate_envelope_same _ _ _ _ Hv) as ->.
  apply st_bind_ok in Hn as ([] & c & [Hc ->]%st_ensure_ok & Hn). bool_prop.
  apply st_bind_ok in Hn as ([] & c & Hs & Hn).
  apply on_self_ok in Hs as (rb & Hs & ->). simpl in *.
  pose proof (validate_branch_scope_same _ _ _ _ Hs) as ->.
  apply st_bind_ok in Hn as ([] & [r2 h2] & Hbody & Hn). red_inv. simplify_eq/=.
  eexists _, r2. split_and!; try done.
Qed.

Lemma apply_next_sim bs1 bs2 envelope r r1 h1 H :
  fork_agrees bs1 H r envelope →
  apply_next bs1 envelope (mk_ReducerCall r None) = (Ok tt, mk_ReducerCall r1 h1) →
  h1 = None ∧
  apply_next bs2 envelope (mk_ReducerCall r (Some H)) =
    (Ok tt, mk_ReducerCall r1 (Some (capture_after envelope r1 H))).
Proof.
  intros Hagree (s & r2 & Hv & Hs & Hc & Hb & Hs2 & ->)%apply_next_inv.
  eapply apply_body_sim in Hb as [-> Hb]; [|done..]. split; [done|].
  unfold apply_next. eapply st_bind_run; [by apply on_self_run|].
  eapply st_bind_run; [by rewrite Hc|]. eapply st_bind_run; [by apply on_self_run|].
  eapply st_bind_run; [done|]. eapply st_bind_run; [by apply on_self_run, materialized_run|].
  unfold update_state. eapply st_bind_run; [apply on_self_modify_run|].
  rewrite on_self_modify_run. unfold capture_after. by rewrite head_after_finish.
Qed.

Lemma apply_creation_sim envelope r r1 h1 H :
  apply_creation envelope (mk_ReducerCall r None) = (Ok tt, mk_ReducerCall r1 h1) →
  h1 = None ∧
  apply_creation envelope (mk_ReducerCall r (Some H)) =
    (Ok tt, mk_ReducerCall r1 (Some (capture_after envelope r1 H))).
Proof.
  unfold apply_creation, capture_after, head_after. intros Hc. red_inv. bool_prop.
  destruct (env_record envelope) eqn:Henv; red_inv.
  destruct (env_branch_id envelope) as [b|] eqn:Hb; red_inv; simplify_eq/=;
    (split; [done|]); (eapply st_bind_run; [by apply ensure_run, bool_decide_eq_true|]);
    (eapply st_bind_run; [apply on_self_modify_run|]).
  - eapply st_bind_run; [eapply st_bind_run; [done|]; apply on_self_modify_run|]. simpl.
    rewrite on_self_modify_run. simpl. by rewrite lookup_insert_eq.
  - eapply st_bind_run; [done|]. by rewrite on_self_modify_run.
Qed.

(** One accepted record: with historical snapshots that hold its fork source,
    the call makes the same reducer and captures the head it leaves behind. *)
Lemma apply_inner_sim bs envelope r r1 H :
  apply_inner envelope r = (Ok tt, r1) →
  fork_agrees replay_branch_snapshot H r envelope →
  apply_inner_with_history bs envelope (mk_ReducerCall r (Some H)) =
    (Ok tt, mk_ReducerCall r1 (Some (capture_after envelope r1 H))).
Proof.
  unfold apply_inner. intros Hi Hagree.
  destruct (apply_inner_with_history replay_branch_snapshot envelope (mk_ReducerCall r None))
    as [res [r2 h2]] eqn:Hrun. simpl in Hi. simplify_eq.
  unfold apply_inner_with_history in *.
  apply st_bind_ok in Hrun as (ids & c & Hg & Hrun). red_inv.
  run_step. run_step. run_step. simpl in *.
  destruct (r_state r) as [s|].
  - by eapply apply_next_sim in Hrun as [_ ?].
  - by eapply apply_creation_sim in Hrun as [_ ?].
Qed.

(** ** The historical replay of a log prefix *)

Lemma list_find_snoc_None {A} (P : A → Prop) `{∀ x, Decision (P x)} l x :
  list_find P l = None →
  list_find P (l ++ [x]) = if decide (P x) then Some (length l, x) else None.
Proof.
  intros Hn. rewrite list_find_app_r by done. simpl. by case_decide.
Qed.

Lemma reducer_at_app l1 l2 n :
  n ≤ length l1 → reducer_at (l1 ++ l2) n = reducer_at l1 n.
Proof. intros. unfold reducer_at. by rewrite take_app_le. Qed.

Lemma reducer_at_all records r :
  st_for records accept reducer_new = (Ok tt, r) →
  reducer_at records (length records) = r.
Proof. intros H. unfold reducer_at. by rewrite firstn_all, H. Qed.

Lemma snapshot_at_app_l l1 l2 rid :
  is_Some (list_find (λ e, env_record_id e = rid) l1) →
  snapshot_at (l1 ++ l2) rid = snapshot_at l1 rid.
Proof.
  intros [[i e] Hf]. unfold snapshot_at.
  rewrite (list_find_app_l _ _ _ _ _ Hf), Hf.
  apply list_find_Some in Hf as (Hl & _). apply lookup_lt_Some in Hl.
  rewrite reducer_at_app by lia. done.
Qed.

Lemma snapshot_at_snoc records envelope r rid :
  st_for (records ++ [envelope]) accept reducer_new = (Ok tt, r) →
  list_find (λ e, env_record_id e = rid) records = None →
  snapshot_at (records ++ [envelope]) rid =
    if decide (env_record_id envelope = rid) then head_after envelope r else None.
Proof.
  intros Hr Hn. unfold snapshot_at. rewrite list_find_snoc_None by done.
  case_decide; [|done].
  replace (S (length records)) with (length (records ++ [envelope])).
  - by rewrite (reducer_at_all _ _ Hr).
  - rewrite length_app. simpl. lia.
Qed.

Lemma fork_points_app l1 l2 : fork_points (l1 ++ l2) = fork_points l1 ∪ fork_points l2.
Proof. unfold fork_points. rewrite omap_app. apply list_to_set_app_L. Qed.

(** Captured snapshots of a replay: exactly the required ones the log holds. *)
Definition captures (required : gset RecordId) (records : list RecordEnvelope)
    (h : HistoricalSnapshots) : Prop :=
  hs_required h = required ∧
  ∀ rid, historical_get h rid = if decide (rid ∈ required) then snapshot_at records rid else None.

Lemma captures_nil required : captures required [] (mk_HistoricalSnapshots required ∅).
Proof. split; [done|]. intros rid. case_decide; apply lookup_empty. Qed.

Lemma captures_snoc required records envelope r h :
  st_for (records ++ [envelope]) accept reducer_new = (Ok tt, r) →
  list_find (λ e, env_record_id e = env_record_id envelope) records = None →
  captures required records h →
  captures required (records ++ [envelope]) (capture_after envelope r h).
Proof.
  intros Hr Hfresh [Hreq Hget]. split.
  { unfold capture_after, historical_capture. by repeat case_match. }
  intros rid. specialize (Hget rid).
  destruct (decide (env_record_id envelope = rid)) as [<-|Hne].
  - rewrite (snapshot_at_snoc _ _ _ _ Hr) by done.
    rewrite (decide_True (P:=env_record_id envelope = env_record_id envelope)) by done.
    unfold snapshot_at in Hget. rewrite Hfresh in Hget.
    unfold capture_after. destruct (head_after envelope r) as [snap|].
    + unfold historical_capture, historical_get in *. rewrite Hreq.
      case_bool_decide; [rewrite decide_True by done; apply lookup_insert_eq|].
      by rewrite decide_False in * by done.
    + by case_decide.
  - assert (historical_get (capture_after envelope r h) rid = historical_get h rid) as ->.
    { unfold capture_after, historical_capture, historical_get. repeat case_match; try done.
      all: by apply lookup_insert_ne. }
    rewrite Hget. case_decide; [|done].
    destruct (list_find (λ e, env_record_id e = rid) records) as [[i e]|] eqn:Hf.
    + by rewrite snapshot_at_app_l by (rewrite Hf; eauto).
    + rewrite (snapshot_at_snoc _ _ _ _ Hr) by done. rewrite decide_False by done.
      unfold snapshot_at. by rewrite Hf.
Qed.

(** An accepted record has a fresh id, and that id is then recorded. *)
Lemma apply_inner_record_ids envelope r r1 :
  apply_inner envelope r = (Ok tt, r1) →
  env_record_id envelope ∉ r_record_ids r ∧
  r_record_ids r1 = {[ env_record_id envelope ]} ∪ r_record_ids r.
Proof.
  unfold apply_inner. intros Hi.
  destruct (apply_inner_with_history _ _ _) as [res [r2 h2]] eqn:Hrun. simplify_eq/=.
  unfold apply_inner_with_history in Hrun. red_inv. simpl in *. bool_prop. split; [done|].
  destruct (r_state r).
  - apply apply_next_inv in Hrun as (s & r2 & _ & _ & _ & Hb & _ & ->).
    pose proof (apply_body_keeps replay_branch_snapshot envelope (mk_ReducerCall r None)) as Hk.
    rewrite Hb in Hk. injection Hk as _ Hids. simpl. by rewrite Hids.
  - unfold apply_creation in Hrun. red_inv. destruct (env_record envelope); red_inv.
    destruct (env_branch_id envelope); red_inv; by simplify_eq/=.
Qed.

Lemma replay_record_ids records r :
  st_for records accept reducer_new = (Ok tt, r) →
  r_record_ids r = list_to_set (env_record_id <$> records) ∧
  NoDup (env_record_id <$> records).
Proof.
  revert r. induction records as [|envelope records IH] using rev_ind; intros r Hr.
  { simpl in Hr. st_inv. split; [done|constructor]. }
  apply replayed_snoc_inv in Hr as (r0 & Hr0 & (r1 & Hi & ->)%accept_ok).
  apply IH in Hr0 as [Hids Hnd]. apply apply_inner_record_ids in Hi as [Hfresh Hi].
  simpl. rewrite Hi, Hids, fmap_app in *. simpl. split.
  - rewrite list_to_set_app_L. set_solver.
  - apply NoDup_app. split; [done|]. split; [|apply NoDup_singleton].
    intros x Hx Heq%list_elem_of_singleton. subst. set_solver.
Qed.

Lemma fresh_not_found rid records :
  rid ∉ env_record_id <$> records →
  list_find (λ e, env_record_id e = rid) records = None.
Proof.
  intros Hn. apply list_find_None, Forall_forall. intros e He <-.
  by apply Hn, list_elem_of_fmap_2.
Qed.

Lemma prefix_accepted records n r :
  st_for records accept reducer_new = (Ok tt, r) →
  st_for (take n records) accept reducer_new = (Ok tt, reducer_at records n).
Proof.
  intros Hr. unfold reducer_at. rewrite <- (take_drop n records), st_for_app in Hr.
  destruct (st_for (take n records) accept reducer_new) as [[[]|e] r0]; done.
Qed.

Lemma found_prefix records rid i e :
  list_find (λ e, env_record_id e = rid) records = Some (i, e) →
  list_find (λ e, env_record_id e = rid) (take (S i) records) = Some (i, e).
Proof.
  rewrite !list_find_Some. intros (Hi & He & Hmin). split_and!; [|done|].
  - rewrite lookup_take_lt by lia. done.
  - intros j y [Hj ?]%lookup_take_Some. by apply Hmin.
Qed.

(** The replay of every prefix of [records] makes the reducer of that prefix
    and captures its heads. *)
Definition replays_exactly (records : list RecordEnvelope) : Prop :=
  ∀ r required,
    st_for records accept reducer_new = (Ok tt, r) →
    fork_points records ⊆ required →
    ∃ h, replay_prefix no_branch_snapshot records
           (mk_ReducerCall reducer_new (Some (mk_HistoricalSnapshots required ∅))) =
         (Ok tt, mk_ReducerCall r (Some h)) ∧ captures required records h.

Lemma replay_branch_snapshot_via r src from :
  replayed r →
  (∀ n, n ≤ length (r_records r) → replays_exactly (take n (r_records r))) →
  replay_branch_snapshot r src from = Ok (fork_snapshot_spec r src from).
Proof.
  intros Hr Hex. unfold replay_branch_snapshot, fork_snapshot_spec, for_prefix.
  destruct (list_find _ (r_records r)) as [[i e]|] eqn:Hf; [|done].
  pose proof (prefix_accepted _ (S i) _ Hr) as Hpre.
  assert (S i ≤ length (r_records r)) as Hi.
  { apply list_find_Some in Hf as (Hi & _). apply lookup_lt_Some in Hi. lia. }
  edestruct (Hex (S i) Hi _ ({[from]} ∪ fork_points (take (S i) (r_records r))) Hpre)
    as (h & Hrun & [_ Hget]); [set_solver|].
  rewrite Hrun. unfold snapshot_on_branch. simpl.
  rewrite Hget, decide_True by set_solver. unfold snapshot_at.
  rewrite (found_prefix _ _ _ _ Hf). unfold reducer_at at 1. rewrite take_take, Nat.min_id.
  done.
Qed.

Lemma fork_spec_snapshot_at r src from snap :
  fork_snapshot_spec r src from = Some snap → snapshot_at (r_records r) from = Some snap.
Proof.
  unfold fork_snapshot_spec, snapshot_at. intros H.
  repeat case_match; simplify_eq; congruence.
Qed.

Lemma replay_prefix_snoc bs records envelope c :
  replay_prefix bs (records ++ [envelope]) c =
  match replay_prefix bs records c with
  | (Ok _, c1) =>
      (do! apply_inner_with_history bs envelope in
       do! on_self (st_modify (push_record envelope)) in st_ret tt) c1
  | (Err e, c1) => (Err e, c1)
  end.
Proof.
  unfold replay_prefix. rewrite st_for_app.
  destruct (st_for records _ c) as [[[]|e] c1]; [|done]. simpl. unfold st_bind.
  by destruct (apply_inner_with_history bs envelope c1) as [[[]|e] c2].
Qed.

Lemma fork_agrees_of_captures records r required h envelope :
  replayed r → r_records r = records →
  (∀ n, n ≤ length records → replays_exactly (take n records)) →
  captures required records h →
  fork_points [envelope] ⊆ required →
  fork_agrees replay_branch_snapshot h r envelope.
Proof.
  intros Hr <- Hex [_ Hget] Hreq. unfold fork_agrees, fork_points in *. simpl in Hreq.
  destruct (env_record envelope); try done. intros snap Hs.
  rewrite (replay_branch_snapshot_via _ _ _ Hr Hex) in Hs. injection Hs as Hs.
  rewrite Hget, decide_True by set_solver. by eapply fork_spec_snapshot_at.
Qed.

Lemma replays_exactly_all records : replays_exactly records.
Proof.
  remember (length records) as n eqn:Hn. revert records Hn.
  induction (lt_wf n) as [n _ IH]. intros records -> r required Hr Hreq.
  destruct records as [|envelope records _] using rev_ind.
  { simpl in Hr. st_inv. eexists. split; [done|apply captures_nil]. }
  rewrite fork_points_app in Hreq. rewrite length_app in IH. simpl in IH.
  pose proof (replay_record_ids _ _ Hr) as [_ Hnd].
  pose proof Hr as (r0 & Hr0 & (r1 & Hi & Hpush)%accept_ok)%replayed_snoc_inv.
  assert (r_records r0 = records) as Hrec by apply (replay_records _ _ _ _ Hr0).
  edestruct (IH (length records) ltac:(lia) records eq_refl r0 required Hr0)
    as (h & Hrun & Hcap); [set_solver|].
  assert (fork_agrees replay_branch_snapshot h r0 envelope) as Hagree.
  { eapply (fork_agrees_of_captures records); try done.
    - unfold replayed. by rewrite Hrec.
    - intros m Hm. apply (IH (length (take m records))); [|done].
      rewrite length_take. lia.
    - set_solver. }
  exists (capture_after envelope r h). split.
  - rewrite replay_prefix_snoc, Hrun.
    eapply st_bind_run; [by apply apply_inner_sim|]. subst r. done.
  - apply captures_snoc; [done| |done]. apply fresh_not_found.
    rewrite fmap_app, NoDup_app in Hnd. set_solver.
Qed.
