(* ===== verification/ReducerSteps.v ===== *)
(** * The lifecycle step relation and invariants carried by every branch

    [record_step] is the abstract machine of one branch projection: one rule
    per durable record kind with the preconditions the reducer enforces.  The
    reducer's [apply_record] refines it, and an invariant of the machine holds
    of the active projection and of every branch head of a reachable reducer. *)

From S2P Require Import Prelude Protocol SessionState Reducer ReducerReplay.
Local Open Scope tea_scope.

(** ** The abstract machine *)

Definition with_tool (id : ToolCallId) (t : ToolCallState) (s : MaterializedSessionState) :=
  set_st_tool_calls (<[id := t]> (st_tool_calls s)) s.

Definition push_message (m : CanonicalMessage) (s : MaterializedSessionState) :=
  set_st_messages (st_messages s ++ [m]) s.

Definition is_tool_result (m : CanonicalMessage) : bool :=
  match m with ToolResult _ _ _ _ _ _ _ => true | _ => false end.

Inductive record_step (envelope : RecordEnvelope) (s : MaterializedSessionState)
    : MaterializedSessionState → Prop :=
| step_message m :
    env_record envelope = MessageCommitted m →
    is_tool_result m = false →
    record_step envelope s (push_message m s)
| step_tool_result id tool_call_id tool_name content is_error error ts tool presentation :
    let m := ToolResult id tool_call_id tool_name content is_error error ts in
    env_record envelope = MessageCommitted m →
    st_tool_calls s !! tool_call_id = Some tool →
    tc_execution tool = Finished is_error content error presentation →
    tc_tool_name tool = tool_name →
    tc_result_message_id tool = None →
    record_step envelope s
      (push_message m (with_tool tool_call_id (commit_tool_result tool id) s))
| step_configuration model profile_id effort :
    env_record envelope = ConfigurationChanged model profile_id effort →
    record_step envelope s (set_st_configuration
      (set_if_some effort set_reasoning_effort
        (set_if_some profile_id set_profile
          (set_if_some model set_model (st_configuration s)))) s)
| step_requested tool_call_id tool_name arguments :
    env_record envelope = ToolCallRequested tool_call_id tool_name arguments →
    st_tool_calls s !! tool_call_id = None →
    record_step envelope s
      (with_tool tool_call_id (new_tool_call tool_call_id tool_name arguments) s)
| step_policy tool_call_id decision tool :
    env_record envelope = PolicyDecisionRecorded tool_call_id decision →
    st_tool_calls s !! tool_call_id = Some tool →
    tc_policy_decision tool = None →
    record_step envelope s (with_tool tool_call_id (set_policy tool decision) s)
| step_approval_requested approval_id tool_call_id expires_at tool :
    env_record envelope = ApprovalRequested approval_id tool_call_id expires_at →
    st_tool_calls s !! tool_call_id = Some tool →
    tc_policy_decision tool = Some PolicyRequireApproval →
    tc_approval_id tool = None →
    (as_utc (env_timestamp envelope) < as_utc expires_at)%Z →
    record_step envelope s
      (let s' := with_tool tool_call_id (set_approval tool approval_id) s in
       set_st_pending_approvals
         (<[approval_id := new_pending_approval approval_id tool_call_id expires_at
                             (env_timestamp envelope)]> (st_pending_approvals s')) s')
| step_approval_resolved approval_id decision pending tool :
    env_record envelope = ApprovalResolved approval_id decision →
    st_pending_approvals s !! approval_id = Some pending →
    (as_utc (pa_requested_at pending) ≤ as_utc (env_timestamp envelope)
       < as_utc (pa_expires_at pending))%Z →
    st_tool_calls s !! pa_tool_call_id pending = Some tool →
    record_step envelope s
      (with_tool (pa_tool_call_id pending) (resolve_approval tool decision)
         (set_st_pending_approvals (delete approval_id (st_pending_approvals s)) s))
| step_started tool_call_id execution_target idempotency tool :
    env_record envelope = ToolExecutionStarted tool_call_id execution_target idempotency →
    st_tool_calls s !! tool_call_id = Some tool →
    authorized tool = true →
    tc_execution tool = NotStarted →
    record_step envelope s
      (with_tool tool_call_id (start_tool tool execution_target idempotency) s)
| step_finished tool_call_id is_error content error presentation tool :
    env_record envelope =
      ToolExecutionFinished tool_call_id is_error content error presentation →
    st_tool_calls s !! tool_call_id = Some tool →
    is_started (tc_execution tool) || denied_without_execution tool is_error = true →
    record_step envelope s
      (with_tool tool_call_id (finish_tool tool is_error content error presentation) s)
| step_interrupted tool_call_id reason tool execution_target idempotency :
    env_record envelope = ToolExecutionInterrupted tool_call_id reason →
    st_tool_calls s !! tool_call_id = Some tool →
    tc_execution tool = Started execution_target idempotency →
    record_step envelope s
      (with_tool tool_call_id
         (with_execution tool (Interrupted reason execution_target idempotency)) s)
| step_run_interrupted run_id turn_id reason :
    env_record envelope = RunInterrupted run_id turn_id reason →
    st_run_recovery s !! run_id = None →
    record_step envelope s (set_st_run_recovery
      (<[run_id := RecoveryInterrupted turn_id reason]> (st_run_recovery s)) s)
| step_run_cancelled run_id :
    env_record envelope = RunCancelled run_id →
    st_run_recovery s !! run_id = None →
    record_step envelope s (set_st_run_recovery
      (<[run_id := RecoveryCancelled]> (st_run_recovery s)) s)
| step_compacted summary through :
    env_record envelope = SessionCompacted summary through →
    is_assistant summary = true →
    record_step envelope s (set_compaction s summary through)
| step_checkpointed run_id turn_id next_action :
    env_record envelope = TurnCheckpointed run_id turn_id next_action →
    record_step envelope s (set_st_latest_checkpoint
      (Some (mk_TurnCheckpoint run_id turn_id (env_record_id envelope)
               (env_sequence envelope) next_action)) s).

(** ** The abstract session machine: one accepted record

    The state and branch heads one accepted record leaves behind. *)

(** A branch leaf moves to the accepted record. *)
Definition advance_leaf (b : BranchId) (summary : BranchSummary) (record_id : RecordId)
    (s : MaterializedSessionState) :=
  set_st_branches (<[b := set_leaf summary record_id]> (st_branches s)) s.

Definition new_tail (envelope : RecordEnvelope) (s : MaterializedSessionState) :=
  set_st_tail (env_sequence envelope) (env_record_id envelope) s.

(** The record extends the log of [s]. *)
Definition extends (envelope : RecordEnvelope) (s : MaterializedSessionState) : Prop :=
  env_session_id envelope = st_session_id s ∧
  checked_next (st_tail_sequence s) = Some (env_sequence envelope).

Inductive session_step (r : SessionReducer) (envelope : RecordEnvelope)
    : MaterializedSessionState → gmap BranchId BranchSnapshot → Prop :=
| session_created profile_id metadata s :
    r_state r = None →
    env_record envelope = SessionCreated profile_id metadata →
    env_sequence envelope = SessionSequence_new 0 →
    s = new_state (env_record_id envelope) (env_session_id envelope)
          (env_sequence envelope) profile_id metadata (env_branch_id envelope) →
    session_step r envelope s
      (match env_branch_id envelope with
       | None => r_branch_heads r
       | Some b => <[b := root_snapshot (env_record_id envelope) s]> (r_branch_heads r)
       end)
| session_forked s source_branch_id branch_id from_record_id source snapshot :
    r_state r = Some s →
    env_record envelope = BranchCreated source_branch_id branch_id from_record_id →
    extends envelope s →
    r_branch_heads r !! branch_id = None →
    r_branch_heads r !! source_branch_id = Some source →
    from_record_id ∈ snap_history source →
    replay_branch_snapshot r source_branch_id from_record_id = Ok (Some snapshot) →
    safe_to_fork snapshot = true →
    session_step r envelope
      (new_tail envelope (set_st_branches
        (<[branch_id := mk_BranchSummary branch_id (Some source_branch_id) from_record_id
                          (env_record_id envelope)]> (st_branches s)) s))
      (<[branch_id := snap_add_history (env_record_id envelope) snapshot]> (r_branch_heads r))
| session_switched s branch_id head summary :
    r_state r = Some s →
    env_record envelope = ActiveBranchChanged branch_id →
    extends envelope s →
    r_branch_heads r !! branch_id = Some head →
    st_branches s !! branch_id = Some summary →
    session_step r envelope
      (new_tail envelope (advance_leaf branch_id summary (env_record_id envelope)
        (set_st_active_branch_id (Some branch_id)
          (projection_install (snap_projection head) s))))
      (<[branch_id := snap_add_history (env_record_id envelope) head]> (r_branch_heads r))
| session_rootless s s1 :
    r_state r = Some s →
    extends envelope s →
    env_branch_id envelope = None →
    st_active_branch_id s = None →
    record_step envelope s s1 →
    session_step r envelope (new_tail envelope s1) (r_branch_heads r)
| session_recorded s s1 b head summary :
    r_state r = Some s →
    extends envelope s →
    env_branch_id envelope = Some b →
    st_active_branch_id s = Some b →
    record_step envelope s s1 →
    r_branch_heads r !! b = Some head →
    st_branches s !! b = Some summary →
    session_step r envelope
      (new_tail envelope (advance_leaf b summary (env_record_id envelope) s1))
      (<[b := refreshed_head (env_record_id envelope) s1 head]> (r_branch_heads r)).

(** ** [apply_record] refines the machine *)

Lemma declare_keeps_state messages : keeps r_state (st_for messages declare_tool_call).
Proof.
  apply keeps_for. intros [[id name] args]. unfold declare_tool_call.
  solve_keeps.
Qed.

Lemma for_declare_state l r u r' :
  st_for l declare_tool_call r = (Ok u, r') → r_state r' = r_state r.
Proof. intros H. pose proof (declare_keeps_state l r) as Hk. by rewrite H in Hk. Qed.

Lemma terminal_matches_spec tool name content is_error error :
  terminal_matches tool name content is_error error = true →
  tc_tool_name tool = name ∧
  ∃ presentation, tc_execution tool = Finished is_error content error presentation.
Proof.
  unfold terminal_matches. destruct (tc_execution tool); intros H; bool_prop; try done.
  subst. eauto.
Qed.

Lemma insert_fresh_message_id_state id r u r' :
  insert_fresh_message_id id r = (Ok u, r') → r' = insert_message_id id r.
Proof. unfold insert_fresh_message_id. intros H. by red_inv. Qed.

Lemma message_refines m envelope r s r1 :
  env_record envelope = MessageCommitted m →
  r_state r = Some s →
  apply_message_committed m r = (Ok tt, r1) →
  ∃ s1, r_state r1 = Some s1 ∧ record_step envelope s s1.
Proof.
  intros Henv Hs H. unfold apply_message_committed in H. st_inv.
  rename select (insert_fresh_message_id _ _ = _) into Hid.
  rename select (st_for _ _ _ = _) into Hfor. rename select (link_tool_result _ _ = _) into Hlink.
  apply insert_fresh_message_id_state in Hid as ->.
  apply for_declare_state in Hfor. simpl in Hfor. rewrite Hs in Hfor.
  destruct m; simpl in Hlink; unfold update_tool in *; red_inv; simplify_eq/=.
  1,2: rewrite Hfor; eexists; split; [done|]; by apply step_message.
  bool_prop. rewrite Hfor. simplify_eq/=. eexists; split; [done|].
  rename select (terminal_matches _ _ _ _ _ = true) into Hterm.
  apply terminal_matches_spec in Hterm as (? & ? & ?). by eapply step_tool_result.
Qed.

Lemma ts_ltb_lt a b : ts_ltb a b = true ↔ (as_utc a < as_utc b)%Z.
Proof. unfold ts_ltb. apply Z.ltb_lt. Qed.
Lemma ts_leb_le a b : ts_leb a b = true ↔ (as_utc a ≤ as_utc b)%Z.
Proof. unfold ts_leb. apply Z.leb_le. Qed.
Lemma is_not_started_eq e : is_not_started e = true → e = NotStarted.
Proof. by destruct e. Qed.

(** The unfolded handlers of the record kinds but messages. *)
Ltac handler_inv H :=
  unfold apply_configuration_changed, apply_tool_call_requested,
    apply_policy_decision_recorded, apply_approval_requested, apply_approval_resolved,
    apply_tool_execution_started, apply_tool_execution_finished,
    apply_tool_execution_interrupted, apply_run_interrupted, apply_run_cancelled,
    apply_session_compacted, apply_turn_checkpointed, update_tool in H;
  red_inv; simplify_eq/=; bool_prop.

Lemma apply_record_refines envelope r s r1 :
  r_state r = Some s →
  apply_record envelope r = (Ok tt, r1) →
  ∃ s1, r_state r1 = Some s1 ∧ record_step envelope s s1.
Proof.
  intros Hs H. unfold apply_record in H. red_inv.
  destruct (env_record envelope) eqn:Henv; [|by eapply message_refines|..].
  all: handler_inv H.
  all: try rename select (insert_fresh_message_id _ _ = _) into Hid;
       try apply insert_fresh_message_id_state in Hid as ->; simpl.
  all: repeat match goal with
         | H : context [r_state ?x], Hx : r_state ?x = Some _ |- _ =>
             lazymatch H with Hx => fail | _ => rewrite Hx in H; simplify_eq/= end
         end.
  all: repeat match goal with Hx : r_state ?x = Some _ |- _ => rewrite Hx; clear Hx end; simpl.
  all: eexists; (split; [done|]).
  all: repeat match goal with
         | H : ts_ltb _ _ = true |- _ => apply ts_ltb_lt in H
         | H : ts_leb _ _ = true |- _ => apply ts_leb_le in H
         | H : is_not_started _ = true |- _ => apply is_not_started_eq in H
         end.
  all: try (econstructor; solve [eauto]).
  - apply step_requested; [done|]. by apply eq_None_not_Some.
  - rename select (is_started _ = true) into Hx. unfold interrupt_tool.
    destruct (tc_execution a0) eqn:He; try done. by eapply step_interrupted.
Qed.

(** ** [accept] refines the session machine *)

(** A record step leaves everything outside the projection alone. *)
Lemma record_step_frame envelope s s1 :
  record_step envelope s s1 →
  is_branch_record (env_record envelope) = false ∧
  is_creation_record (env_record envelope) = false ∧
  st_session_id s1 = st_session_id s ∧ st_tail_sequence s1 = st_tail_sequence s ∧
  st_tail_record_id s1 = st_tail_record_id s ∧ st_metadata s1 = st_metadata s ∧
  st_active_branch_id s1 = st_active_branch_id s ∧ st_branches s1 = st_branches s.
Proof.
  destruct 1; repeat match goal with H : env_record envelope = _ |- _ => rewrite H end;
    split_and!; done.
Qed.

Lemma apply_creation_step envelope r h r1 h1 :
  r_state r = None →
  apply_creation envelope (mk_ReducerCall r h) = (Ok tt, mk_ReducerCall r1 h1) →
  ∃ s, r_state r1 = Some s ∧ session_step r envelope s (r_branch_heads r1).
Proof.
  intros Hs H. unfold apply_creation in H. red_inv. bool_prop.
  destruct (env_record envelope) eqn:Henv; red_inv.
  destruct (env_branch_id envelope) as [b|] eqn:Hb; red_inv; simplify_eq/=;
    (eexists; split; [done|]);
    epose proof (session_created r envelope _ _ _ Hs Henv ltac:(done) eq_refl) as Hstep;
    by rewrite Hb in Hstep.
Qed.

Lemma validate_envelope_extends envelope r s :
  r_state r = Some s →
  validate_envelope envelope r = (Ok tt, r) → extends envelope s.
Proof.
  intros Hs H. unfold validate_envelope in H. red_inv. bool_prop. simplify_eq. split; [done|].
  congruence.
Qed.

Lemma record_branch_step envelope r s r0 r1 h1 :
  r_state r = Some s → extends envelope s →
  is_branch_record (env_record envelope) = false →
  validate_branch_scope envelope r = (Ok tt, r) →
  apply_record envelope r = (Ok tt, r0) →
  capture_active_branch (env_record_id envelope) (mk_ReducerCall r0 None) =
    (Ok tt, mk_ReducerCall r1 h1) →
  ∃ s1, r_state r1 = Some s1 ∧
    session_step r envelope (new_tail envelope s1) (r_branch_heads r1).
Proof.
  intros Hs Hext Hnb Hscope Hrec Hcap.
  pose proof (apply_record_keeps_heads envelope r) as Hheads. rewrite Hrec in Hheads.
  destruct (apply_record_refines _ _ _ _ Hs Hrec) as (s1 & Hs1 & Hstep).
  destruct (record_step_frame _ _ _ Hstep) as (_ & _ & _ & _ & _ & _ & Hact & Hbr).
  unfold validate_branch_scope in Hscope. red_inv. simplify_eq.
  rename select (_ || _ = true) into Hsc. rewrite Hnb in Hsc. simpl in Hsc. bool_prop.
  unfold capture_active_branch in Hcap. red_inv. simplify_eq/=.
  destruct (st_active_branch_id a) as [b|] eqn:Hb;
    rewrite Hact in Hcap; red_inv; simplify_eq/=.
  - eexists. split; [done|]. rewrite Hheads in *.
    eapply session_recorded; try done; congruence.
  - exists a0. split; [done|]. rewrite Hheads. eapply session_rootless; try done; congruence.
Qed.

Lemma apply_body_step envelope r s r1 h1 :
  r_state r = Some s → extends envelope s →
  validate_branch_scope envelope r = (Ok tt, r) →
  is_creation_record (env_record envelope) = false →
  apply_body replay_branch_snapshot envelope (mk_ReducerCall r None) =
    (Ok tt, mk_ReducerCall r1 h1) →
  ∃ s1, r_state r1 = Some s1 ∧
    session_step r envelope (new_tail envelope s1) (r_branch_heads r1).
Proof.
  intros Hs Hext Hscope Hnc H. unfold apply_body in H.
  destruct (is_branch_record (env_record envelope)) eqn:Hbr.
  - destruct (env_record envelope) eqn:Henv; try done.
    + unfold apply_branch_created in H. red_inv. simplify_eq/=.
      match goal with Hf : fork_source _ _ _ _ = _ |- _ => unfold fork_source in Hf; simpl in Hf end.
      simplify_eq/=. bool_prop.
      eexists. split; [by rewrite Hs|]. by eapply session_forked.
    + unfold apply_active_branch_changed in H. red_inv. simplify_eq/=.
      rewrite Hs in *. simplify_eq/=. eexists. split; [done|]. by eapply session_switched.
  - assert (∃ r0, apply_record envelope r = (Ok tt, r0) ∧
      capture_active_branch (env_record_id envelope) (mk_ReducerCall r0 None) =
        (Ok tt, mk_ReducerCall r1 h1)) as (r0 & Hrec & Hcap).
    { destruct (env_record envelope); try done; red_inv; eauto. }
    by eapply record_branch_step.
Qed.

Lemma accept_step envelope r r1 :
  accept envelope r = (Ok tt, r1) →
  ∃ s1, r_state r1 = Some s1 ∧ session_step r envelope s1 (r_branch_heads r1).
Proof.
  intros (r2 & Hi & ->)%accept_ok. unfold apply_inner in Hi.
  destruct (apply_inner_with_history _ _ _) as [res [r3 h3]] eqn:Hrun. simplify_eq/=.
  unfold apply_inner_with_history in Hrun. red_inv. simpl in *.
  destruct (r_state r) as [s|] eqn:Hs.
  - apply apply_next_inv in Hrun as (s2 & r3 & Hv & Hscope & Hnc & Hb & Hs2 & ->).
    pose proof (validate_envelope_extends _ _ _ Hs Hv) as Hext.
    apply (apply_body_step _ _ _ _ _ Hs Hext Hscope Hnc) in Hb as (s1 & Hs1 & Hstep).
    exists (new_tail envelope s1). split; [|done]. simpl. by rewrite Hs1.
  - by eapply apply_creation_step.
Qed.
