(* ===== verification/SessionInvariants.v ===== *)
(** * Invariants of every branch of a reachable session

    A property of branch projections that the initial projection has and that
    the abstract machine preserves holds of the active projection and of every
    branch head, forks of earlier heads included.  The well-formedness of tool
    calls, approvals and results is one instance; the agreement of the branch
    heads with the state and with the log is a second, global, invariant. *)

From S2P Require Import Prelude Protocol SessionState Reducer ReducerReplay.
From S2P Require Import ReducerSteps.
Local Open Scope tea_scope.

(** ** Definitions *)

(** [P] holds of the active projection and of every branch head. *)
Definition everywhere (P : BranchProjection → Prop) (r : SessionReducer) : Prop :=
  (∀ s, r_state r = Some s → P (projection_capture s)) ∧
  (∀ b head, r_branch_heads r !! b = Some head → P (snap_projection head)).

(** A call executed only with authorization; one that ended in error may have
    been denied instead. *)
Definition execution_authorized (t : ToolCallState) : Prop :=
  match tc_execution t with
  | NotStarted => True
  | Started _ _ | Interrupted _ _ _ | Finished false _ _ _ => authorized t = true
  | Finished true _ _ _ =>
      authorized t = true ∨ tc_policy_decision t = Some PolicyDeny ∨
      tc_approval_decision t = Some DenyApproval
  end.

(** One tool call: what its lifecycle fields say about each other. *)
Record tool_wf (id : ToolCallId) (t : ToolCallState) : Prop := mk_tool_wf {
  wf_id : tc_tool_call_id t = id;
  wf_approval : is_Some (tc_approval_id t) → tc_policy_decision t = Some PolicyRequireApproval;
  wf_decision : is_Some (tc_approval_decision t) → is_Some (tc_approval_id t);
  wf_executed : execution_authorized t;
  wf_result : is_Some (tc_result_message_id t) → is_finished (tc_execution t) = true
}.

(** A pending approval belongs to exactly the undecided call that asked. *)
Definition pending_wf (tools : gmap ToolCallId ToolCallState) (id : ApprovalId)
    (p : PendingApproval) : Prop :=
  pa_approval_id p = id ∧
  (as_utc (pa_requested_at p) < as_utc (pa_expires_at p))%Z ∧
  ∃ t, tools !! pa_tool_call_id p = Some t ∧ tc_approval_id t = Some id ∧
       tc_approval_decision t = None ∧ tc_execution t = NotStarted.

(** A tool-result message repeats the terminal of its call. *)
Definition message_wf (tools : gmap ToolCallId ToolCallState) (m : CanonicalMessage) : Prop :=
  match m with
  | ToolResult id tool_call_id tool_name content is_error error _ =>
      ∃ t presentation, tools !! tool_call_id = Some t ∧ tc_tool_name t = tool_name ∧
        tc_execution t = Finished is_error content error presentation ∧
        tc_result_message_id t = Some id
  | User _ _ _ | Assistant _ _ _ _ => True
  end.

Record projection_wf (p : BranchProjection) : Prop := mk_projection_wf {
  pwf_tools : ∀ id t, bp_tool_calls p !! id = Some t → tool_wf id t;
  pwf_pending : ∀ id a, bp_pending_approvals p !! id = Some a → pending_wf (bp_tool_calls p) id a;
  pwf_messages : ∀ m, m ∈ bp_messages p → message_wf (bp_tool_calls p) m;
  pwf_compaction : ∀ c, bp_latest_compaction p = Some c →
    is_assistant (sco_summary c) = true ∧ head (bp_messages p) = Some (sco_summary c)
}.

(** How far a tool call has come; every field is written at most once. *)
Definition write_once {A} (before after : option A) : Prop := before = None ∨ after = before.

Inductive execution_le : ToolExecutionState → ToolExecutionState → Prop :=
| execution_same e : execution_le e e
| execution_started target idempotency : execution_le NotStarted (Started target idempotency)
| execution_denied is_error content error presentation :
    execution_le NotStarted (Finished is_error content error presentation)
| execution_finished target idempotency is_error content error presentation :
    execution_le (Started target idempotency) (Finished is_error content error presentation)
| execution_interrupted target idempotency reason :
    execution_le (Started target idempotency) (Interrupted reason target idempotency).

Record tool_progress (t t1 : ToolCallState) : Prop := mk_tool_progress {
  tp_id : tc_tool_call_id t1 = tc_tool_call_id t;
  tp_name : tc_tool_name t1 = tc_tool_name t;
  tp_arguments : tc_arguments t1 = tc_arguments t;
  tp_policy : write_once (tc_policy_decision t) (tc_policy_decision t1);
  tp_approval : write_once (tc_approval_id t) (tc_approval_id t1);
  tp_decision : write_once (tc_approval_decision t) (tc_approval_decision t1);
  tp_execution : execution_le (tc_execution t) (tc_execution t1);
  tp_result : write_once (tc_result_message_id t) (tc_result_message_id t1)
}.

(** ** The projection invariant principle *)

Lemma capture_install p s : projection_capture (projection_install p s) = p.
Proof. by destruct p. Qed.

Lemma head_after_in_heads envelope r head :
  head_after envelope r = Some head → ∃ b, r_branch_heads r !! b = Some head.
Proof. unfold head_after. intros H. repeat case_match; simplify_eq; eauto. Qed.

(** A fork snapshot is a branch head of an earlier reducer of the same log. *)
Lemma fork_spec_earlier r src from snapshot :
  reachable r → fork_snapshot_spec r src from = Some snapshot →
  ∃ r0 b, reachable r0 ∧ r_records r0 `prefix_of` r_records r ∧
    r_branch_heads r0 !! b = Some snapshot.
Proof.
  intros Hr Hspec. unfold fork_snapshot_spec in Hspec.
  destruct (list_find _ _) as [[i e]|] eqn:Hf; [|done].
  destruct (head_after e _) as [snap|] eqn:Hh; [|done].
  assert (snap = snapshot) as -> by (repeat case_match; by simplify_eq).
  apply head_after_in_heads in Hh as [b Hb].
  pose proof (prefix_accepted _ (S i) _ (reachable_replayed _ Hr)) as Hpre.
  eexists _, b. split_and!; [|..|done].
  - by eapply reachable_replay, Hpre; apply reachable_new.
  - rewrite (replay_records _ _ _ _ Hpre). simpl. apply prefix_take.
Qed.

Lemma replay_branch_snapshot_spec r src from :
  reachable r → replay_branch_snapshot r src from = Ok (fork_snapshot_spec r src from).
Proof.
  intros Hr. apply replay_branch_snapshot_via; [by apply reachable_replayed|].
  intros n _. apply replays_exactly_all.
Qed.

(** Induction on the accepted records, with the claim for every earlier log. *)
Lemma reachable_strong_ind (P : SessionReducer → Prop) :
  P reducer_new →
  (∀ r envelope r1 s1, reachable r →
    (∀ r0, reachable r0 → r_records r0 `prefix_of` r_records r → P r0) →
    accept envelope r = (Ok tt, r1) → r_state r1 = Some s1 →
    session_step r envelope s1 (r_branch_heads r1) → P r1) →
  ∀ r, reachable r → P r.
Proof.
  intros Hnew Hstep r. remember (length (r_records r)) as n eqn:Hn. revert r Hn.
  induction (lt_wf n) as [n _ IH]. intros r -> Hr.
  pose proof (reachable_replayed _ Hr) as Hrep. unfold replayed in Hrep.
  destruct (r_records r) as [|envelope records _] eqn:Hrec using rev_ind.
  { simpl in Hrep. by st_inv. }
  apply replayed_snoc_inv in Hrep as (r0 & Hr0 & Ha).
  pose proof (reachable_replay _ _ _ _ reachable_new Hr0) as Hreach.
  pose proof (replay_records _ _ _ _ Hr0) as Hrec0. simpl in Hrec0.
  destruct (accept_step _ _ _ Ha) as (s1 & Hs1 & Hs).
  eapply Hstep; [apply Hreach| |done..].
  intros r2 Hr2 Hlen%prefix_length. eapply (IH (length (r_records r2))); [|done|done].
  rewrite length_app. rewrite Hrec0 in Hlen. simpl. lia.
Qed.

Section projection_invariant.
Context (P : BranchProjection → Prop).
Context (P_new : ∀ rid sid seq profile_id metadata root,
  P (projection_capture (new_state rid sid seq profile_id metadata root))).
Context (P_step : ∀ envelope s s1,
  P (projection_capture s) → record_step envelope s s1 → P (projection_capture s1)).

Lemma everywhere_step r envelope s1 heads1 :
  reachable r →
  (∀ r0, reachable r0 → r_records r0 `prefix_of` r_records r → everywhere P r0) →
  session_step r envelope s1 heads1 →
  P (projection_capture s1) ∧ ∀ b head, heads1 !! b = Some head → P (snap_projection head).
Proof.
  intros Hr Hsmall Hstep. destruct (Hsmall r Hr ltac:(done)) as [Hstate Hheads].
  destruct Hstep; try (specialize (Hstate _ ltac:(done))); subst.
  - split; [apply P_new|]. intros b head Hb. destruct (env_branch_id envelope); [|eauto].
    apply lookup_insert_Some in Hb as [[_ <-]|[_ Hb]]; [apply P_new|eauto].
  - split; [done|]. intros b head [[_ <-]|[_ Hb]]%lookup_insert_Some; [|eauto].
    rewrite replay_branch_snapshot_spec in * by done. simplify_eq.
    destruct (fork_spec_earlier r source_branch_id from_record_id snapshot) as (r0 & b0 & ? & ? & ?);
      [done..|]. destruct (Hsmall r0) as [_ Hh]; [done..|]. simpl. by eapply Hh.
  - assert (P (snap_projection head)) as Hp by eauto. split.
    + change (P (projection_capture (projection_install (snap_projection head) s))).
      by rewrite capture_install.
    + intros b head' [[_ <-]|[_ Hb]]%lookup_insert_Some; eauto.
  - assert (P (projection_capture s1)) by eauto. split; [done|eauto].
  - assert (P (projection_capture s1)) by eauto. split; [done|].
    intros b' head' [[_ <-]|[_ Hb]]%lookup_insert_Some; eauto.
Qed.

Lemma reachable_everywhere r : reachable r → everywhere P r.
Proof.
  apply reachable_strong_ind.
  - split; simpl; [done|]. intros b head. by rewrite lookup_empty.
  - intros r0 envelope r1 s1 Hr0 Hsmall _ Hs1 Hstep.
    eapply everywhere_step in Hstep as [Hst Hh]; [|done..].
    split; [|done]. intros s Hs. congruence.
Qed.
End projection_invariant.

(** ** One step of the machine on one tool call *)

Ltac lookup_insert_cases H :=
  apply lookup_insert_Some in H as [[? ?]|[? H]]; subst.

(** Progress that keeps the fields of the call consistent. *)
Notation tool_update t t1 := (tool_progress t t1 ∧ ∀ id, tool_wf id t → tool_wf id t1).

#[local] Hint Constructors execution_le : core.

Ltac solve_progress := constructor; simpl; try (done || (by left) || (by right)).
Ltac solve_tool_wf :=
  intros ? [Hwid Hwa Hwd Hwe Hwr]; constructor; unfold execution_authorized in *; simpl; try done.

Lemma same_update t : tool_update t t.
Proof. split; [solve_progress|done]. Qed.

Lemma commit_result_update t id :
  is_finished (tc_execution t) = true → tc_result_message_id t = None →
  tool_update t (commit_tool_result t id).
Proof. intros Hf Hn. split; [solve_progress|solve_tool_wf]. Qed.

Lemma set_policy_update t decision :
  tc_policy_decision t = None → tool_update t (set_policy t decision).
Proof.
  intros Hn. split; [solve_progress|]. intros id [Hid Ha Hd He Hr].
  assert (tc_approval_id t = None) as Hna.
  { apply eq_None_not_Some. intros ?%Ha. congruence. }
  assert (tc_approval_decision t = None) as Hnd.
  { apply eq_None_not_Some. intros [? ?]%Hd. congruence. }
  assert (tc_execution t = NotStarted) as Hx.
  { unfold execution_authorized, authorized in He. rewrite Hn, Hnd in He. repeat case_match; naive_solver. }
  constructor; simpl; try done; rewrite ?Hna, ?Hnd; first [by intros [? ?]|unfold execution_authorized; simpl; by rewrite Hx|by rewrite Hx; intros [? ?]].
Qed.

Lemma set_approval_update t id :
  tc_policy_decision t = Some PolicyRequireApproval → tc_approval_id t = None →
  tool_update t (set_approval t id).
Proof. intros Hp Hn. split; [solve_progress|solve_tool_wf]. Qed.

Lemma resolve_update t decision :
  is_Some (tc_approval_id t) → tc_approval_decision t = None → tc_execution t = NotStarted →
  tool_update t (resolve_approval t decision).
Proof.
  intros Ha Hn Hx. split; [solve_progress|]. intros id [Hid Ha' Hd He Hr].
  constructor; unfold execution_authorized; simpl; try done. by rewrite Hx.
Qed.

Lemma start_update t target idempotency :
  authorized t = true → tc_execution t = NotStarted →
  tool_update t (start_tool t target idempotency).
Proof.
  intros Ha Hx. split; [solve_progress; rewrite Hx; auto|solve_tool_wf].
  by rewrite Hx in Hwr.
Qed.

Lemma finish_update t is_error content error presentation :
  is_started (tc_execution t) || denied_without_execution t is_error = true →
  tool_update t (finish_tool t is_error content error presentation).
Proof.
  intros Hg. apply orb_true_iff in Hg as [Hg|Hg].
  - destruct (tc_execution t) eqn:Hx; try done. split.
    + solve_progress. rewrite Hx. auto.
    + solve_tool_wf. rewrite Hx in *. destruct is_error; [by left|done].
  - unfold denied_without_execution in Hg. bool_prop. subst.
    rename select (is_not_started _ = true) into Hx. apply is_not_started_eq in Hx. split.
    + solve_progress. rewrite Hx. auto.
    + solve_tool_wf. rename select (_ || _ = true) into Hor.
      apply orb_true_iff in Hor as [?|?]; bool_prop; auto.
Qed.

Lemma interrupt_update t target idempotency reason :
  tc_execution t = Started target idempotency →
  tool_update t (with_execution t (Interrupted reason target idempotency)).
Proof.
  intros Hx. split; [solve_progress; rewrite Hx; auto|solve_tool_wf; by rewrite Hx in *].
Qed.

(** A tool call is new, unchanged, or has made progress from its previous value. *)
Lemma record_step_tool envelope s s1 id t1 :
  projection_wf (projection_capture s) →
  record_step envelope s s1 → st_tool_calls s1 !! id = Some t1 →
  (∃ name args, st_tool_calls s !! id = None ∧ t1 = new_tool_call id name args) ∨
  ∃ t, st_tool_calls s !! id = Some t ∧ tool_update t t1.
Proof.
  intros Hwf. destruct 1; simpl; intros Hl;
    try (right; exists t1; split; [done|apply same_update]);
    lookup_insert_cases Hl;
    try (right; exists t1; split; [done|apply same_update]).
  all: try (by left; eauto).
  all: right; eexists; split; [done|].
  - apply commit_result_update; [|done]. by rewrite H1.
  - by apply set_policy_update.
  - by apply set_approval_update.
  - destruct (pwf_pending _ Hwf approval_id pending) as (_ & _ & t & Ht & ? & ? & ?); [done|].
    simpl in Ht. simplify_eq. apply resolve_update; eauto.
  - by apply start_update.
  - by apply finish_update.
  - by apply interrupt_update.
Qed.

(** No tool call ever leaves the projection. *)
Lemma record_step_tools_grow envelope s s1 id :
  record_step envelope s s1 → is_Some (st_tool_calls s !! id) → is_Some (st_tool_calls s1 !! id).
Proof. destruct 1; simpl; try done; rewrite ?lookup_insert_is_Some'; eauto. Qed.

Lemma record_step_tool_forward envelope s s1 id t :
  projection_wf (projection_capture s) →
  record_step envelope s s1 → st_tool_calls s !! id = Some t →
  ∃ t1, st_tool_calls s1 !! id = Some t1 ∧ tool_update t t1.
Proof.
  intros Hwf Hstep Ht. destruct (record_step_tools_grow _ _ _ id Hstep) as [t1 Ht1]; [eauto|].
  exists t1. split; [done|].
  destruct (record_step_tool _ _ _ _ _ Hwf Hstep Ht1) as [(? & ? & ? & ?)|(t' & ? & ?)];
    simplify_eq; done.
Qed.

(** ** The well-formedness of projections is preserved *)

Lemma tool_wf_new id name args : tool_wf id (new_tool_call id name args).
Proof. constructor; simpl; try done; by intros [? ?]. Qed.

Lemma step_tools_wf envelope s s1 id t :
  projection_wf (projection_capture s) → record_step envelope s s1 →
  st_tool_calls s1 !! id = Some t → tool_wf id t.
Proof.
  intros Hwf Hstep Hl.
  destruct (record_step_tool _ _ _ _ _ Hwf Hstep Hl) as [(? & ? & _ & ->)|(t0 & Ht0 & _ & Hk)];
    [apply tool_wf_new|]. by apply Hk, (pwf_tools _ Hwf).
Qed.

(** A call that waits for its approval is neither authorized nor denied. *)
Lemma waiting_call id t aid :
  tool_wf id t → tc_approval_id t = Some aid → tc_approval_decision t = None →
  authorized t = false ∧ ∀ e, denied_without_execution t e = false.
Proof.
  intros Hwf Ha Hd. assert (tc_policy_decision t = Some PolicyRequireApproval) as Hp.
  { apply (wf_approval _ _ Hwf). eauto. }
  unfold authorized, denied_without_execution. rewrite Hp, Hd. split; [done|].
  intros e. rewrite !bool_decide_eq_false_2 by done. apply andb_false_r.
Qed.

(** A pending approval that no step resolves stays well formed. *)
Lemma step_pending_kept envelope s s1 id p :
  projection_wf (projection_capture s) → record_step envelope s s1 →
  (∀ decision, env_record envelope ≠ ApprovalResolved id decision) →
  st_pending_approvals s !! id = Some p →
  pending_wf (st_tool_calls s) id p → pending_wf (st_tool_calls s1) id p.
Proof.
  intros Hwf Hstep Hnr Hin (Hid & Hlt & t & Ht & Ha & Hd & Hx).
  pose proof (pwf_tools _ Hwf _ _ Ht) as Htw.
  destruct (waiting_call _ _ _ Htw Ha Hd) as [Hau Hden].
  split_and!; [done|done|].
  destruct Hstep; simpl; try (by exists t);
    (destruct (decide (tool_call_id = pa_tool_call_id p)) as [->|Hne];
      [simplify_eq|rewrite lookup_insert_ne by done; by exists t])
    || idtac.
  all: try (rewrite Hx in *; simpl in *; congruence).
  - rewrite lookup_insert_eq. eexists. by split_and!.
  - destruct (decide (pa_tool_call_id pending = pa_tool_call_id p)) as [Heq|Hne];
      [|rewrite lookup_insert_ne by done; by exists t].
    rename select (st_pending_approvals s !! approval_id = Some pending) into Hp.
    destruct (pwf_pending _ Hwf _ _ Hp) as (_ & _ & t' & Ht' & Ha' & _).
    simpl in Ht'. rewrite Heq in Ht'. simplify_eq. by destruct (Hnr decision).
Qed.

Lemma step_pending_wf envelope s s1 id p :
  projection_wf (projection_capture s) → record_step envelope s s1 →
  st_pending_approvals s1 !! id = Some p → pending_wf (st_tool_calls s1) id p.
Proof.
  intros Hwf Hstep Hin.
  assert (st_pending_approvals s !! id = Some p →
    (∀ decision, env_record envelope ≠ ApprovalResolved id decision) →
    pending_wf (st_tool_calls s1) id p) as Hkept.
  { intros Hin0 Hnr. eapply step_pending_kept; eauto. by apply (pwf_pending _ Hwf). }
  destruct Hstep; simpl in *; try (apply Hkept; [done|congruence]).
  - apply lookup_insert_Some in Hin as [[<- <-]|[Hne Hin]]; [|apply Hkept; [done|congruence]].
    split_and!; [done|done|]. simpl. rewrite lookup_insert_eq. eexists. split_and!; [done..| |].
    + apply eq_None_not_Some. intros Hd.
      apply (wf_decision _ _ (pwf_tools _ Hwf _ _ H0)) in Hd as [? ?]. congruence.
    + pose proof (pwf_tools _ Hwf _ _ H0) as Htw. pose proof (wf_executed _ _ Htw) as Hx.
      unfold execution_authorized, authorized in Hx. rewrite H1 in Hx. simpl.
      destruct (tc_approval_decision tool) as [[]|] eqn:Hd;
        try (destruct (wf_decision _ _ Htw); [by rewrite Hd|congruence]).
      repeat case_match; naive_solver.
  - apply lookup_delete_Some in Hin as [Hne Hin]. apply Hkept; [done|congruence].
Qed.

Lemma step_message_kept envelope s s1 m :
  projection_wf (projection_capture s) → record_step envelope s s1 →
  message_wf (st_tool_calls s) m → message_wf (st_tool_calls s1) m.
Proof.
  intros Hwf Hstep Hm. destruct m as [| |id tid name content is_error error ts]; try done.
  destruct Hm as (t & pres & Ht & Hn & Hx & Hr).
  destruct (record_step_tool_forward _ _ _ _ _ Hwf Hstep Ht) as (t1 & Ht1 & Hp & _).
  exists t1, pres. destruct Hp as [? Hname ? ? ? ? Hexec Hres]. split_and!; [done|congruence| |].
  - rewrite Hx in Hexec. by inversion Hexec.
  - destruct Hres; congruence.
Qed.

Lemma step_messages_wf envelope s s1 m :
  projection_wf (projection_capture s) → record_step envelope s s1 →
  m ∈ st_messages s1 → message_wf (st_tool_calls s1) m.
Proof.
  intros Hwf Hstep Hin.
  assert (m ∈ st_messages s → message_wf (st_tool_calls s1) m) as Hkept.
  { intros Hin0. eapply step_message_kept; eauto. by apply (pwf_messages _ Hwf). }
  destruct Hstep; simpl in *; try (by apply Hkept).
  - apply elem_of_app in Hin as [Hin| ->%list_elem_of_singleton]; [by apply Hkept|].
    by destruct m0.
  - apply elem_of_app in Hin as [Hin| ->%list_elem_of_singleton]; [by apply Hkept|].
    simpl. exists (commit_tool_result tool id), presentation.
    by rewrite lookup_insert_eq.
  - apply list_elem_of_singleton in Hin as ->. by destruct summary.
Qed.

Lemma step_compaction_wf envelope s s1 c :
  projection_wf (projection_capture s) → record_step envelope s s1 →
  st_latest_compaction s1 = Some c →
  is_assistant (sco_summary c) = true ∧ head (st_messages s1) = Some (sco_summary c).
Proof.
  intros Hwf Hstep Hc. pose proof (pwf_compaction _ Hwf c) as Hk. simpl in Hk.
  destruct Hstep; simpl in *; try (by apply Hk); [..|by simplify_eq];
    destruct (Hk Hc) as [? Hh]; (split; [done|]); by destruct (st_messages s).
Qed.

Lemma projection_wf_step envelope s s1 :
  projection_wf (projection_capture s) → record_step envelope s s1 →
  projection_wf (projection_capture s1).
Proof.
  intros Hwf Hstep. split; simpl.
  - intros. by eapply step_tools_wf.
  - intros. by eapply step_pending_wf.
  - intros. by eapply step_messages_wf.
  - intros. by eapply step_compaction_wf.
Qed.

Lemma projection_wf_new rid sid seq profile_id metadata root :
  projection_wf (projection_capture (new_state rid sid seq profile_id metadata root)).
Proof.
  split; simpl; try done; intros ? ?; try (by rewrite lookup_empty). set_solver.
Qed.

Lemma reachable_projection_wf r : reachable r → everywhere projection_wf r.
Proof. apply reachable_everywhere; [apply projection_wf_new|apply projection_wf_step]. Qed.
