(* ===== verification/SessionHeads.v ===== *)
(** * Branch heads, histories and the shape of the log

    The global invariant of a reachable reducer: its branch heads against its
    state, the fork points and leaves against the histories, and the durable
    log it was made from. *)

From S2P Require Import Prelude Protocol SessionState Reducer ReducerReplay.
From S2P Require Import ReducerSteps SessionInvariants.
Local Open Scope tea_scope.

(** ** Definitions *)

(** A branch summary agrees with the head of its branch. *)
Record summary_wf (b : BranchId) (summary : BranchSummary) (head : BranchSnapshot) : Prop :=
  mk_summary_wf {
    swf_id : bs_branch_id summary = b;
    swf_from : bs_from_record_id summary ∈ snap_history head;
    swf_leaf : bs_leaf_record_id summary ∈ snap_history head
  }.

Record heads_wf (s : MaterializedSessionState) (heads : gmap BranchId BranchSnapshot)
    (record_ids : gset RecordId) : Prop := mk_heads_wf {
  hwf_active : ∀ b, st_active_branch_id s = Some b →
    ∃ head, heads !! b = Some head ∧ snap_projection head = projection_capture s;
  hwf_rootless : st_active_branch_id s = None → heads = ∅;
  hwf_branches : dom heads = dom (st_branches s);
  hwf_summary : ∀ b summary head,
    st_branches s !! b = Some summary → heads !! b = Some head → summary_wf b summary head;
  hwf_history : ∀ b head, heads !! b = Some head → snap_history head ⊆ record_ids;
  hwf_declared : ∀ b head, heads !! b = Some head →
    snap_declared_tool_calls head = declared_ids (bp_messages (snap_projection head))
}.

Definition session_wf (r : SessionReducer) : Prop :=
  ∀ s, r_state r = Some s → heads_wf s (r_branch_heads r) (r_record_ids r).

(** The [i]-th record of the log of session [sid]. *)
Record record_wf (sid : SessionId) (i : nat) (envelope : RecordEnvelope) : Prop := mk_record_wf {
  rwf_session : env_session_id envelope = sid;
  rwf_sequence : seq_get (env_sequence envelope) = N.of_nat i;
  rwf_creation : is_creation_record (env_record envelope) = true ↔ i = 0
}.

Record log_wf (records : list RecordEnvelope) (s : MaterializedSessionState) : Prop := mk_log_wf {
  lwf_records : ∀ i e, records !! i = Some e → record_wf (st_session_id s) i e;
  lwf_tail : ∃ e, last records = Some e ∧
    st_tail_sequence s = env_sequence e ∧ st_tail_record_id s = env_record_id e
}.

(** ** Record ids of accepted records *)

Lemma accept_record_ids envelope r r1 :
  accept envelope r = (Ok tt, r1) →
  r_record_ids r1 = {[ env_record_id envelope ]} ∪ r_record_ids r.
Proof. intros (r2 & [_ Hi]%apply_inner_record_ids & ->)%accept_ok. done. Qed.

Lemma reachable_record_ids r :
  reachable r →
  r_record_ids r = list_to_set (env_record_id <$> r_records r) ∧
  NoDup (env_record_id <$> r_records r).
Proof. intros Hr. by apply replay_record_ids, reachable_replayed. Qed.

Lemma record_ids_mono r r1 :
  reachable r → reachable r1 → r_records r `prefix_of` r_records r1 →
  r_record_ids r ⊆ r_record_ids r1.
Proof.
  intros [-> _]%reachable_record_ids [-> _]%reachable_record_ids [l ->].
  rewrite fmap_app, list_to_set_app_L. set_solver.
Qed.

(** ** The branch heads *)

Lemma heads_empty_branches s record_ids heads :
  heads_wf s heads record_ids → heads = ∅ → st_branches s = ∅.
Proof.
  intros Hwf ->. pose proof (hwf_branches _ _ _ Hwf) as Hd.
  rewrite dom_empty_L in Hd. by apply dom_empty_inv_L.
Qed.

(** The active head of a state after one more record, with its leaf advanced. *)
Lemma heads_wf_refresh s heads ids b head new_head summary rid :
  heads_wf s heads ids →
  heads !! b = Some head → st_branches s !! b = Some summary →
  snap_history new_head = {[rid]} ∪ snap_history head →
  snap_declared_tool_calls new_head = declared_ids (bp_messages (snap_projection new_head)) →
  ∀ s1, st_active_branch_id s1 = Some b →
    st_branches s1 = <[b := set_leaf summary rid]> (st_branches s) →
    projection_capture s1 = snap_projection new_head →
    heads_wf s1 (<[b := new_head]> heads) ({[rid]} ∪ ids).
Proof.
  intros [Hact Hroot Hdom Hsum Hhist Hdecl] Hb Hs Hh Hd s1 Ha1 Hb1 Hp1. split.
  - intros b' Hb'. simplify_eq. exists new_head. by rewrite lookup_insert_eq.
  - congruence.
  - rewrite Hb1, !dom_insert_L. by rewrite Hdom.
  - intros b' summary' head' Hs' [[<- <-]|[Hne Hl]]%lookup_insert_Some;
      rewrite Hb1 in Hs'.
    + rewrite lookup_insert_eq in Hs'. simplify_eq. destruct (Hsum _ _ _ Hs Hb).
      split; simpl; rewrite ?Hh; set_solver.
    + rewrite lookup_insert_ne in Hs' by done. eauto.
  - intros b' head' [[<- <-]|[Hne Hl]]%lookup_insert_Some.
    + rewrite Hh. apply Hhist in Hb. set_solver.
    + apply Hhist in Hl. set_solver.
  - intros b' head' [[<- <-]|[Hne Hl]]%lookup_insert_Some; eauto.
Qed.

(** A new branch beside the others. *)
Lemma heads_wf_fork s heads ids b snapshot src from rid s1 :
  heads_wf s heads ids → heads !! b = None → is_Some (heads !! src) →
  from ∈ snap_history snapshot → snap_history snapshot ⊆ ids →
  snap_declared_tool_calls snapshot = declared_ids (bp_messages (snap_projection snapshot)) →
  st_active_branch_id s1 = st_active_branch_id s →
  st_branches s1 = <[b := mk_BranchSummary b (Some src) from rid]> (st_branches s) →
  projection_capture s1 = projection_capture s →
  heads_wf s1 (<[b := snap_add_history rid snapshot]> heads) ({[rid]} ∪ ids).
Proof.
  intros [Hact Hroot Hdom Hsum Hhist Hdecl] Hb Hsrc Hfrom Hsub Hd Ha1 Hb1 Hp1. split.
  - intros b' Hb'. rewrite Ha1 in Hb'. destruct (Hact b' Hb') as (head & Hl & Hp).
    exists head. rewrite lookup_insert_ne by congruence. by rewrite Hp1.
  - rewrite Ha1. intros Hn. apply Hroot in Hn. subst. rewrite lookup_empty in Hsrc.
    by destruct Hsrc.
  - rewrite Hb1, !dom_insert_L. by rewrite Hdom.
  - intros b' summary' head' Hs' [[<- <-]|[Hne Hl]]%lookup_insert_Some; rewrite Hb1 in Hs'.
    + rewrite lookup_insert_eq in Hs'. simplify_eq. split; simpl; [done|set_solver..].
    + rewrite lookup_insert_ne in Hs' by done. eauto.
  - intros b' head' [[<- <-]|[Hne Hl]]%lookup_insert_Some; simpl.
    + set_solver.
    + apply Hhist in Hl. set_solver.
  - intros b' head' [[<- <-]|[Hne Hl]]%lookup_insert_Some; eauto.
Qed.

Lemma heads_wf_new rid sid seq profile_id metadata root :
  let s := new_state rid sid seq profile_id metadata root in
  heads_wf s (match root with None => ∅ | Some b => <[b := root_snapshot rid s]> ∅ end)
    ({[rid]} ∪ ∅).
Proof.
  intros s. destruct root as [b|]; split; simpl.
  - intros b' [= <-]. eexists. by rewrite lookup_insert_eq.
  - done.
  - by rewrite insert_empty, !dom_singleton_L.
  - intros b' summary head [<- <-]%lookup_singleton_Some [[_ <-]|[? _]]%lookup_insert_Some;
      [|done]. split; simpl; set_solver.
  - intros b' head [[<- <-]|[_ Hl]]%lookup_insert_Some; [simpl; set_solver|].
    by rewrite lookup_empty in Hl.
  - intros b' head [[<- <-]|[_ Hl]]%lookup_insert_Some; [done|]. by rewrite lookup_empty in Hl.
  - done.
  - done.
  - set_solver.
  - intros ??? Hl. by rewrite lookup_empty in Hl.
  - intros ?? Hl. by rewrite lookup_empty in Hl.
  - intros ?? Hl. by rewrite lookup_empty in Hl.
Qed.

(** Before its first record a reducer is [reducer_new]. *)
Lemma reachable_no_state r : reachable r → r_state r = None → r = reducer_new.
Proof.
  revert r. apply (reachable_strong_ind (λ r, r_state r = None → r = reducer_new)); [done|].
  intros r envelope r1 s1 _ _ _ Hs1 _ Hn. congruence.
Qed.

Lemma fork_spec_from r src from snapshot :
  fork_snapshot_spec r src from = Some snapshot → from ∈ snap_history snapshot.
Proof.
  unfold fork_snapshot_spec. intros H. repeat case_match; simplify_eq. by bool_prop.
Qed.

Lemma reachable_session_wf r : reachable r → session_wf r.
Proof.
  revert r. apply reachable_strong_ind; [done|].
  intros r envelope r1 s1 Hr Hsmall Ha Hs1 Hstep s Hs. rewrite Hs1 in Hs. injection Hs as <-.
  rewrite (accept_record_ids _ _ _ Ha).
  destruct Hstep; try (pose proof (Hsmall r Hr ltac:(done) _ ltac:(done)) as Hwf).
  - assert (r = reducer_new) as -> by (by apply reachable_no_state). subst.
    destruct (env_branch_id envelope) eqn:Hb; apply heads_wf_new.
  - rewrite replay_branch_snapshot_spec in * by done.
    match goal with H : Ok _ = Ok _ |- _ => injection H as Hspec end.
    pose proof (fork_spec_from _ _ _ _ Hspec) as Hfrom.
    destruct (fork_spec_earlier _ _ _ _ Hr Hspec) as (r0 & b0 & Hr0 & Hpre & Hb0).
    destruct (r_state r0) as [s0|] eqn:Hs0.
    2:{ apply reachable_no_state in Hs0; [|done]. subst. simpl in Hb0. by rewrite lookup_empty in Hb0. }
    pose proof (Hsmall r0 Hr0 Hpre _ Hs0) as Hwf0.
    eapply heads_wf_fork; try done.
    + pose proof (hwf_history _ _ _ Hwf0 _ _ Hb0).
      pose proof (record_ids_mono _ _ Hr0 Hr Hpre). set_solver.
    + by apply (hwf_declared _ _ _ Hwf0 _ _ Hb0).
  - eapply heads_wf_refresh; try done; simpl.
    + by eapply (hwf_declared _ _ _ Hwf).
    + change (projection_capture (projection_install (snap_projection head) s)
              = snap_projection head). apply capture_install.
  - pose proof (hwf_rootless _ _ _ Hwf ltac:(done)) as Hempty.
    pose proof (heads_empty_branches _ _ _ Hwf Hempty) as Hnb.
    destruct (record_step_frame _ _ _ ltac:(done)) as (_ & _ & _ & _ & _ & _ & Hact & Hbr).
    rewrite Hempty. split; simpl; try (intros *; rewrite lookup_empty; done).
    + intros b. congruence.
    + done.
    + by rewrite Hbr, Hnb, !dom_empty_L.
  - destruct (record_step_frame _ _ _ ltac:(done)) as (_ & _ & _ & _ & _ & _ & Hact & Hbr).
    eapply heads_wf_refresh; try done; simpl; congruence.
Qed.

(** ** The shape of the log *)

(** What [session_step] says of the position of the accepted record. *)
Lemma session_step_log r envelope s1 heads1 :
  session_step r envelope s1 heads1 →
  st_session_id s1 = env_session_id envelope ∧
  st_tail_sequence s1 = env_sequence envelope ∧
  st_tail_record_id s1 = env_record_id envelope ∧
  match r_state r with
  | None => is_creation_record (env_record envelope) = true ∧
            env_sequence envelope = SessionSequence_new 0
  | Some s => is_creation_record (env_record envelope) = false ∧ extends envelope s
  end.
Proof.
  destruct 1; subst; repeat match goal with H : r_state r = _ |- _ => rewrite H end;
    try match goal with H : extends _ _ |- _ => pose proof H as [? ?] end;
    try match goal with H : record_step _ _ _ |- _ =>
      apply record_step_frame in H as (_ & ? & ? & _) end; simpl;
    repeat match goal with H : env_record envelope = _ |- _ => rewrite H end;
    split_and!; congruence || done.
Qed.

Lemma checked_next_seq a b : checked_next a = Some b → seq_get b = (seq_get a + 1)%N.
Proof.
  unfold checked_next, checked_add_u64. destruct (_ <=? _)%N; [|done]. by intros [= <-].
Qed.

Lemma log_wf_snoc records s s1 envelope :
  log_wf records s →
  is_creation_record (env_record envelope) = false → extends envelope s →
  st_session_id s1 = env_session_id envelope →
  st_tail_sequence s1 = env_sequence envelope → st_tail_record_id s1 = env_record_id envelope →
  log_wf (records ++ [envelope]) s1.
Proof.
  intros [Hrec (e & Hlast & Hseq & _)] Hnc [Hsid Hnext%checked_next_seq] Hs1 Hq1 Hr1. split.
  - intros i e' [Hi|[Hi He]]%lookup_app_Some.
    + destruct (Hrec _ _ Hi) as [? ? ?]. split; [congruence|done..].
    + apply list_lookup_singleton_Some in He as [Hi0 <-].
      assert (i = length records) as -> by lia. split; [congruence| |].
      * rewrite Hnext, Hseq. rewrite last_lookup in Hlast.
        destruct (Hrec _ _ Hlast) as [_ -> _].
        destruct records; [done|]. simpl. lia.
      * rewrite Hnc. destruct records; simpl in *; [done|]. lia.
  - exists envelope. by rewrite last_snoc.
Qed.

Lemma log_wf_first s1 envelope :
  is_creation_record (env_record envelope) = true →
  env_sequence envelope = SessionSequence_new 0 →
  st_session_id s1 = env_session_id envelope →
  st_tail_sequence s1 = env_sequence envelope → st_tail_record_id s1 = env_record_id envelope →
  log_wf [envelope] s1.
Proof.
  intros Hc Hq Hs1 Hq1 Hr1. split; [|by exists envelope].
  intros i e [-> <-]%list_lookup_singleton_Some. split; [done|by rewrite Hq|naive_solver].
Qed.

Lemma reachable_log_wf r s : reachable r → r_state r = Some s → log_wf (r_records r) s.
Proof.
  intros Hr. revert s.
  apply (reachable_strong_ind (λ r, ∀ s, r_state r = Some s → log_wf (r_records r) s)); [done| |done].
  clear r Hr. intros r envelope r1 s1 Hr Hsmall Ha Hs1 Hstep s Hs. simplify_eq.
  rewrite (accept_records _ _ _ _ Ha).
  apply session_step_log in Hstep as (? & ? & ? & Hcase).
  destruct (r_state r) as [s0|] eqn:Hs0; destruct Hcase.
  - eapply log_wf_snoc; try done. by apply Hsmall.
  - rewrite (reachable_no_state _ Hr Hs0) in *. by apply log_wf_first.
Qed.

(** A nonempty log has a state. *)
Lemma reachable_state r : reachable r → is_Some (r_state r) ↔ r_records r ≠ [].
Proof.
  intros Hr. split.
  - intros [s Hs] Hn. destruct (reachable_log_wf _ _ Hr Hs) as [_ (e & He & _)].
    by rewrite Hn in He.
  - intros Hn. destruct (r_state r) as [s|] eqn:Hs; [eauto|].
    by rewrite (reachable_no_state _ Hr Hs) in Hn.
Qed.
