(* ===== verification/SessionTheorems.v ===== *)
(** * Correctness of the session reducer

    The claims about [SessionReducer], each with a witness over a sample
    session that is replayed by computation: a rooted session whose tool call
    is approved, executed and answered, a fork of its second record, and a
    message on the fork. *)

From S2P Require Import Prelude Protocol SessionState Reducer ReducerReplay.
From S2P Require Import ReducerSteps SessionInvariants SessionHeads.
Local Open Scope tea_scope.

(** ** A sample session *)

Module Sample.

Definition envelope (n : N) (branch : option BranchId) (record : SessionRecord)
    : RecordEnvelope :=
  mk_RecordEnvelope CURRENT_PROTOCOL_VERSION (mk_id (100 + n)) (mk_id 1)
    (SessionSequence_new n) (Timestamp (Z.of_N n)) None None branch ∅ record.

Definition trunk : BranchId := mk_id 1.
Definition fork : BranchId := mk_id 2.
Definition second_fork : BranchId := mk_id 3.
Definition call : ToolCallId := mk_id 7.
Definition approval : ApprovalId := mk_id 9.
Definition arguments : Value := JObject [("path", JString "a")].
Definition output : list ContentBlock := [Text "done"].

Definition session_created := SessionCreated (mk_selector "default") ∅.
Definition user_message (n : N) := MessageCommitted (User (mk_id n) [Text "hi"] (Timestamp 0)).
Definition assistant_message := MessageCommitted
  (Assistant (mk_id 21) [ToolCall call None "write" arguments] StopToolUse (Timestamp 0)).
Definition result_message := MessageCommitted
  (ToolResult (mk_id 22) call "write" output false None (Timestamp 0)).
Definition started := ToolExecutionStarted call TargetNative NonIdempotent.
Definition finished := ToolExecutionFinished call false output None None.

(** The trunk up to an approved tool call that has not started. *)
Definition approved_log : list RecordEnvelope :=
  [ envelope 0 (Some trunk) session_created;
    envelope 1 (Some trunk) (user_message 20);
    envelope 2 (Some trunk) assistant_message;
    envelope 3 (Some trunk) (ToolCallRequested call "write" arguments);
    envelope 4 (Some trunk) (PolicyDecisionRecorded call PolicyRequireApproval);
    envelope 5 (Some trunk) (ApprovalRequested approval call (Timestamp 100));
    envelope 6 (Some trunk) (ApprovalResolved approval AllowOnce) ].

(** The rest of the trunk, a fork at the user message, and a turn on the fork. *)
Definition full_log : list RecordEnvelope :=
  approved_log ++
  [ envelope 7 (Some trunk) started;
    envelope 8 (Some trunk) finished;
    envelope 9 (Some trunk) result_message;
    envelope 10 (Some trunk) (BranchCreated trunk fork (mk_id 101));
    envelope 11 (Some trunk) (ActiveBranchChanged fork);
    envelope 12 (Some fork) (user_message 23) ].

(** The reducer of a log, [reducer_new] where the log is not accepted. *)
Definition reducer_of (records : list RecordEnvelope) : SessionReducer :=
  match replay_reducer records with Some (Ok r) => r | _ => reducer_new end.

(** The state of a reducer, of a blank session where there is none. *)
Definition state_of (r : SessionReducer) : MaterializedSessionState :=
  default (new_state (mk_id 0) (mk_id 0) (SessionSequence_new 0) (mk_selector "") ∅ None)
    (r_state r).

End Sample.

(** The record neither selects [b] nor is written on it. *)
Definition untouched_branch (envelope : RecordEnvelope) (s : MaterializedSessionState)
    (b : BranchId) : Prop :=
  match env_record envelope with
  | ActiveBranchChanged target => b ≠ target
  | BranchCreated _ _ _ => True
  | _ => st_active_branch_id s ≠ Some b
  end.

(** Work on other branches than [b]. *)
Inductive away (b : BranchId) : SessionReducer → SessionReducer → Prop :=
| away_refl r : away b r r
| away_step r envelope s r1 r2 :
    r_state r = Some s → untouched_branch envelope s b →
    apply r envelope = Some (Ok tt, r1) → away b r1 r2 → away b r r2.

(** The envelope is the valid next record of the session, on its active branch. *)
Definition well_addressed (r : SessionReducer) (s : MaterializedSessionState)
    (envelope : RecordEnvelope) : Prop :=
  extends envelope s ∧ env_record_id envelope ∉ r_record_ids r ∧
  env_branch_id envelope = st_active_branch_id s.

(** ** Lemmas *)

Lemma apply_all_reachable records r r' :
  reachable r → apply_all r records = Some (Ok r') → reachable r'.
Proof.
  revert r. induction records as [|e records IH]; intros r Hr; simpl; [by intros [= <-]|].
  destruct (apply r e) as [[[]]|] eqn:Ha; try done. apply IH. by eapply reachable_apply.
Qed.

Lemma replay_reducer_reachable records r :
  replay_reducer records = Some (Ok r) → reachable r.
Proof.
  unfold replay_reducer. destruct (apply_all reducer_new records) as [[r0|]|] eqn:Ha; try done.
  destruct (r_state r0) eqn:Hs; [|done]. intros [= <-].
  by eapply apply_all_reachable, Ha; apply reachable_new.
Qed.

Lemma reducer_of_reachable records : reachable (Sample.reducer_of records).
Proof.
  unfold Sample.reducer_of. destruct (replay_reducer records) as [[r|e]|] eqn:Hr;
    [by eapply replay_reducer_reachable|apply reachable_new..].
Qed.

(** [apply_all] is the replay loop of [restore_durable_state]. *)
Lemma apply_all_accept records r r' :
  reachable r → st_for records accept r = (Ok tt, r') → apply_all r records = Some (Ok r').
Proof.
  revert r. induction records as [|e records IH]; intros r Hr; simpl; intros H; st_inv; [done|].
  destruct (apply_cases r e (reachable_replayed _ Hr)) as [(r2 & Ha & Hap)|(er & r1 & Hi & _)].
  - rewrite Hap. rewrite Ha in *. simplify_eq. apply IH; [|done]. by eapply reachable_apply.
  - exfalso. rename select (accept e r = _) into Ha. apply accept_ok in Ha as (? & ? & _).
    congruence.
Qed.

Lemma apply_all_total records r :
  reachable r → ∃ res, apply_all r records = Some res ∧
    ∀ r', res = Ok r' → r_records r' = r_records r ++ records.
Proof.
  revert r. induction records as [|e records IH]; intros r Hr; simpl.
  { eexists. split; [done|]. intros r' [= <-]. by rewrite app_nil_r. }
  destruct (apply_cases r e (reachable_replayed _ Hr)) as [(r2 & Ha & Hap)|(er & r1 & Hi & Hap)];
    rewrite Hap; [|by eexists].
  destruct (IH r2) as (res & -> & Hres); [by eapply reachable_apply|].
  eexists. split; [done|]. intros r' Hr'. rewrite (Hres r' Hr').
  rewrite (accept_records _ _ _ _ Ha). by rewrite <- app_assoc.
Qed.

Lemma accept_apply r envelope r1 :
  reachable r → apply r envelope = Some (Ok tt, r1) → accept envelope r = (Ok tt, r1).
Proof.
  intros Hr Ha. destruct (apply_cases r envelope (reachable_replayed _ Hr))
    as [(r2 & Ha2 & Hap)|(er & r2 & Hi & Hap)]; congruence.
Qed.

Lemma apply_step r envelope r1 :
  reachable r → apply r envelope = Some (Ok tt, r1) →
  ∃ s1, r_state r1 = Some s1 ∧ session_step r envelope s1 (r_branch_heads r1).
Proof. intros Hr Ha. by apply accept_step, accept_apply. Qed.

(** A record that is untouched for [b] leaves the head of [b] alone. *)
Lemma untouched_head r envelope r1 s b head :
  reachable r → r_state r = Some s → untouched_branch envelope s b →
  apply r envelope = Some (Ok tt, r1) →
  r_branch_heads r !! b = Some head → r_branch_heads r1 !! b = Some head.
Proof.
  intros Hr Hs Hu Ha Hb. apply apply_step in Ha as (s1 & Hs1 & Hstep); [|done].
  assert (is_branch_record (env_record envelope) = false → st_active_branch_id s ≠ Some b) as Hn.
  { unfold untouched_branch in Hu. by destruct (env_record envelope). }
  destruct Hstep; [exfalso; congruence|..]; simplify_eq/=; [| |done|].
  - by rewrite lookup_insert_ne by congruence.
  - unfold untouched_branch in Hu. rewrite lookup_insert_ne; [done|]. intros ->.
    by match goal with H : env_record envelope = _ |- _ => rewrite H in Hu end.
  - rewrite lookup_insert_ne; [done|]. intros ->. apply Hn; [|done].
    by match goal with H : record_step _ _ _ |- _ => apply record_step_frame in H as [? _] end.
Qed.

Lemma away_head b r r1 head :
  away b r r1 → reachable r → r_branch_heads r !! b = Some head →
  reachable r1 ∧ r_branch_heads r1 !! b = Some head.
Proof.
  induction 1 as [|r envelope s r1 r2 Hs Hu Ha _ IH]; intros Hr Hb; [done|].
  apply IH; [by eapply reachable_apply|by eapply untouched_head].
Qed.

(** Selecting a branch installs the projection of its head. *)
Lemma switch_projection r envelope r1 b :
  reachable r → env_record envelope = ActiveBranchChanged b →
  apply r envelope = Some (Ok tt, r1) →
  ∃ head s1, r_branch_heads r !! b = Some head ∧ r_state r1 = Some s1 ∧
    st_active_branch_id s1 = Some b ∧ projection_capture s1 = snap_projection head.
Proof.
  intros Hr Henv Ha. apply apply_step in Ha as (s1 & Hs1 & Hstep); [|done].
  destruct Hstep; try congruence;
    try (match goal with H : record_step _ _ _ |- _ => apply record_step_frame in H as [Hnb _] end;
         by rewrite Henv in Hnb).
  assert (branch_id = b) as -> by congruence.
  exists head. eexists. split_and!; [done|done|done|]. apply capture_install.
Qed.

(** The head an accepted record leaves is the active projection, unless the
    record created a branch. *)
Lemma head_after_active r envelope head :
  reachable r → head_after envelope r = Some head →
  (∀ src b from, env_record envelope ≠ BranchCreated src b from) →
  (∀ b, env_record envelope = ActiveBranchChanged b →
     ∃ s, r_state r = Some s ∧ st_active_branch_id s = Some b) →
  ∃ s, r_state r = Some s ∧ snap_projection head = projection_capture s.
Proof.
  intros Hr Hh Hnb Hsw. pose proof (reachable_session_wf _ Hr) as Hwf.
  assert (∃ s b, r_state r = Some s ∧ st_active_branch_id s = Some b ∧
    r_branch_heads r !! b = Some head) as (s & b & Hs & Hb & Hl).
  { unfold head_after in Hh.
    destruct (env_record envelope) eqn:He; try (by destruct (Hnb _ _ _ eq_refl));
      try (destruct (Hsw _ eq_refl) as (s & ? & ?); by exists s, branch_id);
      (destruct (r_state r) as [s|] eqn:Hs; [|done]);
      (destruct (st_active_branch_id s) as [b|] eqn:Hb; [|done]); by exists s, b. }
  exists s. split; [done|]. destruct (hwf_active _ _ _ (Hwf _ Hs) _ Hb) as (head' & ? & ?).
  congruence.
Qed.

(** Each record of a reachable log was accepted by the reducer before it. *)
Lemma reducer_at_step r i e :
  reachable r → r_records r !! i = Some e →
  reachable (reducer_at (r_records r) i) ∧
  apply (reducer_at (r_records r) i) e = Some (Ok tt, reducer_at (r_records r) (S i)).
Proof.
  intros Hr Hi. pose proof (prefix_accepted _ i _ (reachable_replayed _ Hr)) as Hpre.
  pose proof (prefix_accepted _ (S i) _ (reachable_replayed _ Hr)) as Hnext.
  pose proof (reachable_replay _ _ _ _ reachable_new Hpre) as Hri.
  split; [done|]. rewrite (take_S_r _ _ _ Hi) in Hnext.
  apply replayed_snoc_inv in Hnext as (r0 & Hr0 & Ha). rewrite Hpre in Hr0. simplify_eq.
  destruct (apply_cases _ e (reachable_replayed _ Hri)) as [(r2 & Ha2 & Hap)|(er & r2 & Hi2 & Hap)].
  - rewrite Ha in Ha2. by simplify_eq.
  - apply accept_ok in Ha as (? & ? & _). congruence.
Qed.

(** An error of a record handler is the error [apply] returns, with the reducer
    unchanged, when the envelope passes the log checks. *)
Lemma record_error_is_returned r s envelope error r' :
  reachable r → r_state r = Some s → well_addressed r s envelope →
  is_branch_record (env_record envelope) = false ∧
    is_creation_record (env_record envelope) = false →
  apply_record envelope r = (Err error, r') →
  apply r envelope = Some (Err error, r).
Proof.
  intros Hr Hs ([Hsid Hnext] & Hfresh & Hb) [Hnb Hnc] Herr.
  assert (validate_envelope envelope r = (Ok tt, r)) as Hv.
  { unfold validate_envelope. eapply st_bind_run; [by apply materialized_run|].
    eapply st_bind_run; [by apply ensure_run, bool_decide_eq_true_2|].
    eapply st_bind_run; [by apply lift_ok_or_run|]. by apply ensure_run, bool_decide_eq_true_2. }
  assert (validate_branch_scope envelope r = (Ok tt, r)) as Hscope.
  { unfold validate_branch_scope. eapply st_bind_run; [by apply materialized_run|].
    apply ensure_run. by rewrite (bool_decide_eq_true_2 _ Hb), orb_true_r. }
  assert (apply_body replay_branch_snapshot envelope (mk_ReducerCall r None) =
    (Err error, mk_ReducerCall r' None)) as Hbody.
  { unfold apply_body. destruct (env_record envelope); try done;
      unfold on_self, st_bind; simpl; by rewrite Herr. }
  assert (apply_inner envelope r = (Err error, r')) as Hi.
  { unfold apply_inner.
    assert (apply_inner_with_history replay_branch_snapshot envelope (mk_ReducerCall r None) =
      (Err error, mk_ReducerCall r' None)) as ->; [|done].
    unfold apply_inner_with_history. eapply st_bind_run; [done|].
    eapply st_bind_run; [by apply ensure_run, negb_true_iff, bool_decide_eq_false_2|].
    eapply st_bind_run; [done|]. simpl. rewrite Hs. unfold apply_next.
    eapply st_bind_run; [by apply on_self_run|]. eapply st_bind_run; [by rewrite Hnc|].
    eapply st_bind_run; [by apply on_self_run|]. unfold st_bind at 1. by rewrite Hbody. }
  destruct (apply_cases _ envelope (reachable_replayed _ Hr)) as [(r2 & Ha & _)|(er & r2 & Hi2 & Hap)].
  - apply accept_ok in Ha as (? & ? & _). congruence.
  - rewrite Hi in Hi2. by simplify_eq.
Qed.

Lemma record_step_compacted envelope s s1 summary through :
  record_step envelope s s1 → env_record envelope = SessionCompacted summary through →
  s1 = set_compaction s summary through ∧ is_assistant summary = true.
Proof. intros Hstep Henv. destruct Hstep; try congruence. split; congruence. Qed.

Lemma list_find_unique {A B} (f : A → B) `{EqDecision B} l i x :
  NoDup (f <$> l) → l !! i = Some x → list_find (λ y, f y = f x) l = Some (i, x).
Proof.
  intros Hnd Hi. apply list_find_Some. split_and!; [done|done|]. intros j y Hj Hlt Heq.
  assert (j = i); [|lia]. eapply NoDup_lookup; [done|..]; rewrite list_lookup_fmap.
  - by rewrite Hj.
  - by rewrite Hi, Heq.
Qed.

(** ** The machinery: atomicity, determinism, the historical replay *)

(** a fork starts from the branch head the log had right after the fork
    record: the replay of the log prefix with historical snapshots, whatever
    forks that prefix contains, returns exactly the snapshot of the
    specification and never fails. *)
Theorem branch_snapshot_is_log_snapshot r source_branch_id from_record_id :
  reachable r →
  replay_branch_snapshot r source_branch_id from_record_id =
    Ok (fork_snapshot_spec r source_branch_id from_record_id).
Proof. apply replay_branch_snapshot_spec. Qed.

Lemma branch_snapshot_is_log_snapshot_witness :
  is_Some (fork_snapshot_spec (Sample.reducer_of Sample.full_log) Sample.trunk (mk_id 109)) ∧
  replay_branch_snapshot (Sample.reducer_of Sample.full_log) Sample.trunk (mk_id 109) =
    Ok (fork_snapshot_spec (Sample.reducer_of Sample.full_log) Sample.trunk (mk_id 109)).
Proof.
  split; [vm_compute; by eexists|].
  apply branch_snapshot_is_log_snapshot, reducer_of_reachable.
Defined.

(** C1: [apply] is atomic and never panics: it either appends the record, or
    it returns the error and leaves every field of the reducer as it was, also
    when the handler had already written some of them. *)
Theorem apply_atomic r envelope :
  reachable r →
  (∃ r', apply r envelope = Some (Ok tt, r') ∧ r_records r' = r_records r ++ [envelope]) ∨
  (∃ error, apply r envelope = Some (Err error, r)).
Proof.
  intros Hr. destruct (apply_cases r envelope (reachable_replayed _ Hr))
    as [(r2 & Ha & Hap)|(er & r2 & Hi & Hap)]; [left|right]; eexists; [|done].
  split; [done|]. by eapply accept_records.
Qed.

(** The sample rejects a cancelled run twice; the handler inserts first. *)
Lemma apply_atomic_witness :
  let r := Sample.reducer_of (Sample.approved_log ++
             [Sample.envelope 7 (Some Sample.trunk) (RunCancelled (mk_id 5))]) in
  let e := Sample.envelope 8 (Some Sample.trunk) (RunCancelled (mk_id 5)) in
  fst <$> apply r e = Some (Err (InvalidTransition "duplicate_run_terminal")) ∧
  ((∃ r', apply r e = Some (Ok tt, r') ∧ r_records r' = r_records r ++ [e]) ∨
   (∃ error, apply r e = Some (Err error, r))).
Proof. split; [by vm_compute|]. apply apply_atomic, reducer_of_reachable. Defined.

(** C2: the incremental reducer is the deterministic replay of its records:
    replaying the durable log of a reducer rebuilds it field by field. *)
Theorem replay_of_records r :
  reachable r → r_records r ≠ [] → replay_reducer (r_records r) = Some (Ok r).
Proof.
  intros Hr Hn. unfold replay_reducer.
  rewrite (apply_all_accept _ _ _ reachable_new (reachable_replayed _ Hr)).
  apply (reachable_state _ Hr) in Hn as [s ->]. done.
Qed.

Lemma replay_of_records_witness :
  length (r_records (Sample.reducer_of Sample.full_log)) = 13 ∧
  replay_reducer (r_records (Sample.reducer_of Sample.full_log)) =
    Some (Ok (Sample.reducer_of Sample.full_log)).
Proof.
  split; [by vm_compute|].
  apply replay_of_records; [apply reducer_of_reachable|by vm_compute].
Defined.

(** C3: [replay] is total on arbitrary records: it never panics, and when it
    succeeds the reducer holds exactly the given records, which are a
    contiguous log of one session (sequence numbers from 0, distinct record
    ids, one creation record, at the front), with the tail in the state. *)
Theorem replay_total records :
  ∃ res, replay_reducer records = Some res ∧
  ∀ r, res = Ok r →
    r_records r = records ∧ NoDup (env_record_id <$> records) ∧
    ∃ s, r_state r = Some s ∧ log_wf records s.
Proof.
  unfold replay_reducer. destruct (apply_all_total records _ reachable_new) as (res & Hall & Hrec).
  rewrite Hall. destruct res as [r|e]; [|by eexists]. eexists. split; [done|].
  intros r' Hr'. pose proof (apply_all_reachable _ _ _ reachable_new Hall) as Hr.
  destruct (r_state r) as [s|] eqn:Hs; simplify_eq. specialize (Hrec r' eq_refl). simpl in Hrec. subst records.
  split_and!; [done|by apply reachable_record_ids|]. exists s. split; [done|].
  by apply reachable_log_wf.
Qed.

(** ** The abstract machine *)

(** C4: an accepted record is one step of the abstract session machine, from
    the state and branch heads before it to those after it. *)
Theorem apply_refines_machine r envelope r1 :
  reachable r → apply r envelope = Some (Ok tt, r1) →
  ∃ s1, r_state r1 = Some s1 ∧ session_step r envelope s1 (r_branch_heads r1).
Proof. apply apply_step. Qed.

Lemma apply_refines_machine_witness :
  let r := Sample.reducer_of Sample.approved_log in
  let e := Sample.envelope 7 (Some Sample.trunk) Sample.started in
  ∃ r1, apply r e = Some (Ok tt, r1) ∧
    ∃ s1, r_state r1 = Some s1 ∧ session_step r e s1 (r_branch_heads r1).
Proof.
  eexists. split; [by vm_compute|].
  apply apply_refines_machine; [apply reducer_of_reachable|by vm_compute].
Defined.

(** C5: no tool call is executing, interrupted or successfully finished without
    authorization, on the active projection and on every branch head: the
    recorded policy allowed it, or it required approval and an approval was
    granted.  A call that ended in error was authorized or was denied. *)
Theorem execution_is_authorized r :
  reachable r →
  everywhere (λ p, ∀ id t, bp_tool_calls p !! id = Some t → execution_authorized t) r.
Proof.
  intros [Hs Hh]%reachable_projection_wf. split.
  - intros s Hst id t Ht. by apply (wf_executed id), (pwf_tools _ (Hs _ Hst)).
  - intros b head Hb id t Ht. by apply (wf_executed id), (pwf_tools _ (Hh _ _ Hb)).
Qed.

Lemma execution_is_authorized_witness :
  let r := Sample.reducer_of Sample.full_log in
  ((λ head, is_finished <$> (tc_execution <$>
     bp_tool_calls (snap_projection head) !! Sample.call)) <$> r_branch_heads r !! Sample.trunk)
    = Some (Some true) ∧
  everywhere (λ p, ∀ id t, bp_tool_calls p !! id = Some t → execution_authorized t) r.
Proof. split; [by vm_compute|]. apply execution_is_authorized, reducer_of_reachable. Defined.

(** Every pending approval, on every branch, is for a call that required
    approval, asked for exactly this one, is still undecided and has not
    started; and it expires after it was requested. *)
Theorem pending_approvals_are_waiting r :
  reachable r →
  everywhere (λ p, ∀ id a, bp_pending_approvals p !! id = Some a →
    pa_approval_id a = id ∧ (as_utc (pa_requested_at a) < as_utc (pa_expires_at a))%Z ∧
    ∃ t, bp_tool_calls p !! pa_tool_call_id a = Some t ∧ tc_approval_id t = Some id ∧
      tc_policy_decision t = Some PolicyRequireApproval ∧ tc_approval_decision t = None ∧
      tc_execution t = NotStarted) r.
Proof.
  assert (∀ p, projection_wf p → ∀ id a, bp_pending_approvals p !! id = Some a →
    pa_approval_id a = id ∧ (as_utc (pa_requested_at a) < as_utc (pa_expires_at a))%Z ∧
    ∃ t, bp_tool_calls p !! pa_tool_call_id a = Some t ∧ tc_approval_id t = Some id ∧
      tc_policy_decision t = Some PolicyRequireApproval ∧ tc_approval_decision t = None ∧
      tc_execution t = NotStarted) as Hp.
  { intros p Hwf id a Ha. destruct (pwf_pending _ Hwf _ _ Ha) as (? & ? & t & Ht & Hid & ? & ?).
    split_and!; [done..|]. exists t. split_and!; try done.
    apply (wf_approval _ _ (pwf_tools _ Hwf _ _ Ht)). eauto. }
  intros [Hs Hh]%reachable_projection_wf. split; eauto.
Qed.

Lemma pending_approvals_are_waiting_witness :
  let r := Sample.reducer_of (take 6 Sample.approved_log) in
  (∃ s a, r_state r = Some s ∧ st_pending_approvals s !! Sample.approval = Some a) ∧
  ∀ s, r_state r = Some s → ∀ id a, st_pending_approvals s !! id = Some a →
    pa_approval_id a = id.
Proof.
  intros r. split; [eexists _, _; split; by vm_compute|]. intros s Hs id a Ha.
  by apply (proj1 (pending_approvals_are_waiting r (reducer_of_reachable _)) s Hs id a Ha).
Defined.

(** A tool-result message in a transcript repeats the name, content, error
    flag and failure of the terminal its tool call durably ended with, and the
    call links back to that one message. *)
Theorem results_match_terminals r :
  reachable r →
  everywhere (λ p, ∀ m, m ∈ bp_messages p → message_wf (bp_tool_calls p) m) r.
Proof.
  intros [Hs Hh]%reachable_projection_wf.
  split; [intros s Hst|intros b head Hb]; apply pwf_messages; eauto.
Qed.

Lemma results_match_terminals_witness :
  let r := Sample.reducer_of (take 10 Sample.full_log) in
  (∃ s, r_state r = Some s ∧ length (st_messages s) = 3) ∧
  everywhere (λ p, ∀ m, m ∈ bp_messages p → message_wf (bp_tool_calls p) m) r.
Proof.
  split; [eexists; split; by vm_compute|]. apply results_match_terminals, reducer_of_reachable.
Defined.

(** While a session stays on its branch, a tool call never disappears, its
    name, arguments, decisions and result link are written at most once, and
    its execution only moves from not started through started to finished or
    interrupted: nothing is executed twice. *)
Theorem tool_calls_only_progress r envelope r1 s s1 id t :
  reachable r → apply r envelope = Some (Ok tt, r1) →
  r_state r = Some s → r_state r1 = Some s1 →
  (∀ b, env_record envelope ≠ ActiveBranchChanged b) →
  st_tool_calls s !! id = Some t →
  ∃ t1, st_tool_calls s1 !! id = Some t1 ∧ tool_progress t t1.
Proof.
  intros Hr Ha Hs Hs1 Hnb Ht. destruct (apply_step _ _ _ Hr Ha) as (s1' & Hs1' & Hstep).
  simplify_eq. pose proof (proj1 (reachable_projection_wf _ Hr) _ Hs) as Hwf.
  destruct Hstep; simplify_eq; try (by destruct (Hnb branch_id)).
  - exists t. split; [done|apply same_update].
  - destruct (record_step_tool_forward _ _ _ _ _ Hwf ltac:(done) Ht) as (t1 & ? & ? & _). eauto.
  - destruct (record_step_tool_forward _ _ _ _ _ Hwf ltac:(done) Ht) as (t1 & ? & ? & _). eauto.
Qed.

Lemma tool_calls_only_progress_witness :
  let r := Sample.reducer_of Sample.approved_log in
  let e := Sample.envelope 7 (Some Sample.trunk) Sample.started in
  ∃ r1 s s1 t t1, apply r e = Some (Ok tt, r1) ∧ r_state r = Some s ∧ r_state r1 = Some s1 ∧
    st_tool_calls s !! Sample.call = Some t ∧
    st_tool_calls s1 !! Sample.call = Some t1 ∧ tool_progress t t1.
Proof.
  eexists _, _, _, _. destruct (tool_calls_only_progress (Sample.reducer_of Sample.approved_log)
    (Sample.envelope 7 (Some Sample.trunk) Sample.started) _ _ _ Sample.call _
    (reducer_of_reachable _) ltac:(by vm_compute) ltac:(by vm_compute) ltac:(by vm_compute)
    ltac:(done) ltac:(by vm_compute)) as (t1 & Ht1 & Hp).
  exists t1. split_and!; [by vm_compute..|exact Ht1|exact Hp].
Defined.

(** The branch bookkeeping is consistent: the active branch's head is the
    active projection, every branch of the state has exactly one head, every
    fork point and leaf lies in the history of its branch, histories hold only
    accepted records, and the cached set of declared tool calls is the set the
    transcript declares. *)
Theorem branch_heads_consistent r : reachable r → session_wf r.
Proof. apply reachable_session_wf. Qed.

Lemma branch_heads_consistent_witness :
  size (r_branch_heads (Sample.reducer_of Sample.full_log)) = 2 ∧
  session_wf (Sample.reducer_of Sample.full_log).
Proof. split; [by vm_compute|]. apply branch_heads_consistent, reducer_of_reachable. Defined.

(** branches are isolated: leaving branch [b], doing any work elsewhere
    (messages, tools, forks, further switches) and selecting [b] again restores
    exactly the projection [b] was left with. *)
Theorem branch_round_trip r s b leave c r1 r2 return_ r3 :
  reachable r → r_state r = Some s → st_active_branch_id s = Some b →
  env_record leave = ActiveBranchChanged c → c ≠ b →
  apply r leave = Some (Ok tt, r1) → away b r1 r2 →
  env_record return_ = ActiveBranchChanged b → apply r2 return_ = Some (Ok tt, r3) →
  projection_capture <$> r_state r3 = Some (projection_capture s).
Proof.
  intros Hr Hs Hb Hl Hc Ha1 Haway Hret Ha3.
  destruct (hwf_active _ _ _ (reachable_session_wf _ Hr _ Hs) _ Hb) as (head & Hh & Hp).
  assert (reachable r1) as Hr1 by (by eapply reachable_apply).
  assert (r_branch_heads r1 !! b = Some head) as Hh1.
  { apply (untouched_head r leave r1 s b head); try done. unfold untouched_branch. by rewrite Hl. }
  destruct (away_head _ _ _ _ Haway Hr1 Hh1) as [Hr2 Hh2].
  destruct (switch_projection _ _ _ _ Hr2 Hret Ha3) as (head' & s3 & Hh3 & -> & _ & Hp3).
  simpl. congruence.
Qed.

Lemma branch_round_trip_witness :
  let r := Sample.reducer_of (take 11 Sample.full_log) in
  let r2 := Sample.reducer_of Sample.full_log in
  let return_ := Sample.envelope 13 (Some Sample.fork) (ActiveBranchChanged Sample.trunk) in
  ∃ s r3, r_state r = Some s ∧ apply r2 return_ = Some (Ok tt, r3) ∧
    projection_capture <$> r_state r3 = Some (projection_capture s).
Proof.
  intros r r2 return_.
  assert (∃ r3, apply r2 return_ = Some (Ok tt, r3)) as [r3 Hr3] by (eexists; by vm_compute).
  exists (Sample.state_of r), r3. split; [by vm_compute|]. split; [done|].
  apply (branch_round_trip r _ Sample.trunk
    (Sample.envelope 11 (Some Sample.trunk) (ActiveBranchChanged Sample.fork)) Sample.fork
    (Sample.reducer_of (take 12 Sample.full_log)) r2 return_).
  - apply reducer_of_reachable.
  - by vm_compute.
  - by vm_compute.
  - done.
  - done.
  - by vm_compute.
  - refine (away_step _ _ (Sample.envelope 12 (Some Sample.fork) (Sample.user_message 23))
      (Sample.state_of (Sample.reducer_of (take 12 Sample.full_log))) r2 _ _ _ _
      (away_refl _ _)); by vm_compute.
  - done.
  - done.
Defined.

(** The record a fork point stands for: itself, and for a record that created a
    branch, what the record it forked from stands for. *)
Inductive fork_origin (log : list RecordEnvelope) : nat → nat → Prop :=
| origin_here i e :
    log !! i = Some e → (∀ src b from, env_record e ≠ BranchCreated src b from) →
    fork_origin log i i
| origin_branch i e src b from k e' j :
    log !! i = Some e → env_record e = BranchCreated src b from →
    log !! k = Some e' → env_record_id e' = from → fork_origin log k j →
    fork_origin log i j.

(** The head a creation installs is the snapshot at its fork point. *)
Lemma created_head r create src b from r1 :
  reachable r → env_record create = BranchCreated src b from →
  apply r create = Some (Ok tt, r1) →
  ∃ head snapshot, r_branch_heads r1 !! b = Some head ∧
    fork_snapshot_spec r src from = Some snapshot ∧
    snap_projection head = snap_projection snapshot.
Proof.
  intros Hr Hc Ha. apply apply_step in Ha as (s1 & _ & Hstep); [|done].
  destruct Hstep; try congruence;
    try (match goal with H : record_step _ _ _ |- _ => apply record_step_frame in H as [H _] end;
         by rewrite Hc in *).
  rewrite replay_branch_snapshot_spec in * by done.
  rewrite Hc in *. simplify_eq. eexists _, _. split; [by rewrite lookup_insert_eq|]. eauto.
Qed.

Lemma fork_snapshot_found r src from snapshot :
  fork_snapshot_spec r src from = Some snapshot →
  ∃ k e, r_records r !! k = Some e ∧ env_record_id e = from ∧
    head_after e (reducer_at (r_records r) (S k)) = Some snapshot.
Proof.
  unfold fork_snapshot_spec. destruct (list_find _ _) as [[k e]|] eqn:Hf; [|done].
  apply list_find_Some in Hf as (Hk & Hid & _). intros Hs. exists k, e. split_and!; [done..|].
  by repeat case_match; simplify_eq.
Qed.

Lemma reducer_at_records r i e :
  reachable r → r_records r !! i = Some e → r_records (reducer_at (r_records r) i) = take i (r_records r).
Proof.
  intros Hr Hi. pose proof (prefix_accepted _ i _ (reachable_replayed _ Hr)) as Hpre.
  by apply replay_records in Hpre.
Qed.

(** The head after a record is the projection after its origin. *)
Lemma head_after_origin r : reachable r → ∀ i e snapshot,
  r_records r !! i = Some e → head_after e (reducer_at (r_records r) (S i)) = Some snapshot →
  ∃ j s, fork_origin (r_records r) i j ∧ r_state (reducer_at (r_records r) (S j)) = Some s ∧
    snap_projection snapshot = projection_capture s.
Proof.
  intros Hr i. induction i as [i IH] using lt_wf_ind. intros e snapshot Hi Hafter.
  destruct (reducer_at_step _ _ _ Hr Hi) as [Hri Hap].
  assert ((∃ src b from, env_record e = BranchCreated src b from) ∨
          (∀ src b from, env_record e ≠ BranchCreated src b from)) as [(src & b & from & Hc)|Hnb].
  { destruct (env_record e); try (by right); left; eauto. }
  - destruct (created_head _ _ _ _ _ _ Hri Hc Hap) as (head & found & Hh & Hspec & Hproj).
    unfold head_after in Hafter. rewrite Hc, Hh in Hafter. injection Hafter as ->.
    destruct (fork_snapshot_found _ _ _ _ Hspec) as (k & e' & Hk & Hid & Hafter).
    rewrite (reducer_at_records _ _ _ Hr Hi) in Hk, Hafter.
    assert (k < i) as Hlt.
    { apply lookup_lt_Some in Hk. rewrite length_take in Hk. lia. }
    rewrite lookup_take_lt in Hk by lia.
    assert (reducer_at (take i (r_records r)) (S k) = reducer_at (r_records r) (S k)) as Heq.
    { unfold reducer_at. by rewrite take_take, Nat.min_l by lia. }
    rewrite Heq in Hafter. destruct (IH k Hlt _ _ Hk Hafter) as (j & s & Hj & Hs & Hp).
    exists j, s. split; [by eapply origin_branch|]. split; [done|]. by rewrite Hproj.
  - destruct (head_after_active _ _ _ (reachable_apply _ _ _ _ Hri Hap) Hafter Hnb)
      as (s & Hs & Hps); [|exists i, s; split; [by eapply origin_here|done]].
    intros b' Hsw. destruct (switch_projection _ _ _ _ Hri Hsw Hap) as (? & s' & ? & ? & ? & ?).
    eauto.
Qed.

(** C28: forking restores the past: creating a branch from record [from] and
    selecting it gives the projection the session had right after [from] was
    accepted; where [from] itself created a branch, the one right after the
    record that branch was forked from, and so on ([fork_origin]). *)
Theorem fork_restores_projection r create src b from r1 select r2 i e :
  reachable r →
  env_record create = BranchCreated src b from → apply r create = Some (Ok tt, r1) →
  env_record select = ActiveBranchChanged b → apply r1 select = Some (Ok tt, r2) →
  r_records r !! i = Some e → env_record_id e = from →
  ∃ j, fork_origin (r_records r) i j ∧
    ((∀ src b from, env_record e ≠ BranchCreated src b from) → j = i) ∧
    projection_capture <$> r_state r2 =
      projection_capture <$> r_state (reducer_at (r_records r) (S j)).
Proof.
  intros Hr Hc Ha1 Hsel Ha2 Hi He.
  destruct (switch_projection _ _ _ _ (reachable_apply _ _ _ _ Hr Ha1) Hsel Ha2)
    as (head & s2 & Hh & Hs2 & _ & Hp).
  destruct (created_head _ _ _ _ _ _ Hr Hc Ha1) as (head' & found & Hh' & Hspec & Hproj).
  assert (head' = head) as -> by congruence.
  destruct (fork_snapshot_found _ _ _ _ Hspec) as (k & e' & Hk & Hid & Hafter).
  assert (k = i) as ->.
  { eapply (NoDup_lookup _ _ _ from); [apply (proj2 (reachable_record_ids _ Hr))|..];
      rewrite list_lookup_fmap; [rewrite Hk|rewrite Hi]; simpl; congruence. }
  assert (e' = e) as -> by congruence.
  destruct (head_after_origin _ Hr _ _ _ Hi Hafter) as (j & s & Hj & Hs & Hps).
  exists j. split; [done|]. split.
  - intros Hnb. destruct Hj as [|i e1 src' b' from' k e2 j He1 Hbr]; [done|].
    assert (e1 = e) as -> by congruence. by destruct (Hnb src' b' from').
  - rewrite Hs2, Hs. simpl. congruence.
Qed.

Lemma fork_restores_projection_witness :
  let r := Sample.reducer_of (take 10 Sample.full_log) in
  let r2 := Sample.reducer_of (take 12 Sample.full_log) in
  projection_capture <$> r_state r2 =
    projection_capture <$> r_state (reducer_at (r_records r) 2).
Proof.
  intros r r2.
  destruct (fork_restores_projection r
    (Sample.envelope 10 (Some Sample.trunk)
      (BranchCreated Sample.trunk Sample.fork (mk_id 101)))
    Sample.trunk Sample.fork (mk_id 101) (Sample.reducer_of (take 11 Sample.full_log))
    (Sample.envelope 11 (Some Sample.trunk) (ActiveBranchChanged Sample.fork)) r2 1
    (Sample.envelope 1 (Some Sample.trunk) (Sample.user_message 20))) as (j & _ & Hj & Hp);
    [exact (reducer_of_reachable _)|reflexivity|by vm_compute|reflexivity|by vm_compute..|].
  rewrite Hj in Hp by done. exact Hp.
Defined.

(** Nothing starts without authorization: for a valid next record that
    would start a call which is not authorized, or which has already started
    or ended, [apply] returns the [tool_execution_start] error and changes
    nothing. *)
Theorem unauthorized_start_rejected r s envelope id target idempotency t :
  reachable r → r_state r = Some s → well_addressed r s envelope →
  env_record envelope = ToolExecutionStarted id target idempotency →
  st_tool_calls s !! id = Some t →
  authorized t && is_not_started (tc_execution t) = false →
  apply r envelope = Some (Err (InvalidTransition "tool_execution_start"), r).
Proof.
  intros Hr Hs ([Hsid Hnext] & Hfresh & Hb) Henv Ht Hg.
  eapply record_error_is_returned; [done..| |].
  - rewrite Henv. done.
  - unfold apply_record. rewrite Henv. eapply st_bind_run; [by apply materialized_run|].
    unfold apply_tool_execution_started.
    eapply st_bind_run; [by apply get_tool_ok; eauto|]. unfold st_ensure, st_bind, st_lift.
    by rewrite Hg.
Qed.

Lemma unauthorized_start_rejected_witness :
  let r := Sample.reducer_of (take 6 Sample.approved_log) in
  apply r (Sample.envelope 6 (Some Sample.trunk) Sample.started) =
    Some (Err (InvalidTransition "tool_execution_start"), r).
Proof.
  intros r.
  assert (∃ t, st_tool_calls (Sample.state_of r) !! Sample.call = Some t ∧
    authorized t && is_not_started (tc_execution t) = false) as (t & Ht & Hg)
    by (eexists; split; by vm_compute).
  apply (unauthorized_start_rejected r (Sample.state_of r) _ Sample.call TargetNative
           NonIdempotent t); [apply reducer_of_reachable|by vm_compute| |done|done|done].
  split; [split; by vm_compute|]. split; [|by vm_compute].
  apply (bool_decide_unpack _). by vm_compute.
Defined.

(** Compaction replaces the transcript by its summary and nothing else:
    tool calls, approvals and configuration stay, later messages follow the
    summary. *)
Theorem compaction_replaces_transcript r envelope summary through r1 s :
  reachable r → apply r envelope = Some (Ok tt, r1) →
  env_record envelope = SessionCompacted summary through → r_state r = Some s →
  ∃ s1, r_state r1 = Some s1 ∧ st_messages s1 = [summary] ∧
    is_assistant summary = true ∧
    st_latest_compaction s1 = Some (mk_SessionCompaction summary through) ∧
    st_tool_calls s1 = st_tool_calls s ∧ st_pending_approvals s1 = st_pending_approvals s ∧
    st_configuration s1 = st_configuration s ∧ st_run_recovery s1 = st_run_recovery s ∧
    st_latest_checkpoint s1 = st_latest_checkpoint s.
Proof.
  intros Hr Ha Henv Hs. apply apply_step in Ha as (s1 & -> & Hstep); [|done].
  exists s1. split; [done|].
  destruct Hstep; simplify_eq; try congruence;
    match goal with H : record_step _ _ _ |- _ =>
      destruct (record_step_compacted _ _ _ _ _ H Henv) as [-> ?] end; done.
Qed.

Lemma compaction_replaces_transcript_witness :
  let r := Sample.reducer_of (take 4 Sample.full_log) in
  let summary := Assistant (mk_id 40) [Text "so far"] StopCompleted (Timestamp 0) in
  ∃ r1, apply r (Sample.envelope 4 (Some Sample.trunk) (SessionCompacted summary (mk_id 102)))
    = Some (Ok tt, r1) ∧ ∃ s1, r_state r1 = Some s1 ∧ st_messages s1 = [summary].
Proof.
  intros r summary.
  assert (∃ r1, apply r (Sample.envelope 4 (Some Sample.trunk)
    (SessionCompacted summary (mk_id 102))) = Some (Ok tt, r1)) as [r1 Hr1]
    by (eexists; by vm_compute).
  exists r1. split; [done|].
  destruct (compaction_replaces_transcript r _ summary (mk_id 102) r1 (Sample.state_of r)
    (reducer_of_reachable _) Hr1 eq_refl ltac:(by vm_compute)) as (s1 & ? & ? & _). eauto.
Defined.

(** The fork points of a branch are those it was the live branch for: a
    record the new branch only inherited from its source is in its history, but
    forking from it is rejected with [fork_record_snapshot]. *)
Theorem inherited_fork_point_rejected :
  let r := Sample.reducer_of Sample.full_log in
  let e := Sample.envelope 13 (Some Sample.fork)
             (BranchCreated Sample.fork Sample.second_fork (mk_id 101)) in
  (∃ head, r_branch_heads r !! Sample.fork = Some head ∧ mk_id 101 ∈ snap_history head) ∧
  apply r e = Some (Err (InvalidReference "fork_record_snapshot"), r) ∧
  is_ok <$> (fst <$> apply r (Sample.envelope 13 (Some Sample.fork)
    (BranchCreated Sample.trunk Sample.second_fork (mk_id 101)))) = Some true.
Proof.
  split_and!; [|by vm_compute..].
  eexists. split; [by vm_compute|]. apply (bool_decide_unpack _). by vm_compute.
Qed.

(** A call that policy allowed but that has not started when its transcript is
    compacted, a fork of the compaction record, and a start on each branch. *)
Definition compacted_fork_log : list RecordEnvelope :=
  [ Sample.envelope 0 (Some Sample.trunk) Sample.session_created;
    Sample.envelope 1 (Some Sample.trunk) Sample.assistant_message;
    Sample.envelope 2 (Some Sample.trunk)
      (ToolCallRequested Sample.call "write" Sample.arguments);
    Sample.envelope 3 (Some Sample.trunk) (PolicyDecisionRecorded Sample.call PolicyAllow);
    Sample.envelope 4 (Some Sample.trunk)
      (SessionCompacted (Assistant (mk_id 30) [Text "summary"] StopCompleted (Timestamp 4))
         (mk_id 101));
    Sample.envelope 5 (Some Sample.trunk)
      (BranchCreated Sample.trunk Sample.fork (mk_id 104));
    Sample.envelope 6 (Some Sample.trunk) Sample.started;
    Sample.envelope 7 (Some Sample.trunk) (ActiveBranchChanged Sample.fork);
    Sample.envelope 8 (Some Sample.fork) Sample.started ].

(** The fork guard does not see a call whose declaration was compacted
    away: a fork of a compaction record is accepted while a call is incomplete,
    and the same non-idempotent call then starts once on each branch. *)
Theorem compacted_fork_starts_twice :
  is_ok <$> replay_reducer compacted_fork_log = Some true ∧
  omap (λ e, match env_record e with
             | ToolExecutionStarted id _ idempotency => Some (id, idempotency)
             | _ => None
             end) compacted_fork_log = [(Sample.call, NonIdempotent); (Sample.call, NonIdempotent)] ∧
  is_ok <$> replay_reducer (take 4 compacted_fork_log ++
    [Sample.envelope 4 (Some Sample.trunk)
       (BranchCreated Sample.trunk Sample.fork (mk_id 103))]) = Some false.
Proof. split_and!; by vm_compute. Qed.
