(* ===== verification/Tools.v ===== *)
(** * Tool contracts: effects, resources, provenance, specifications

    [crates/tea-tools]: effect names and their parser ([effect.rs]), canonical
    resources and their resolvers ([resource.rs]), source provenance
    ([source.rs]), names, execution semantics, specifications and the derived
    scheduler class ([spec.rs]), JSON bounds ([schema.rs]).  The byte length
    [serde_json::to_vec] gives a value is a parameter ([json_len]).  A
    [ToolVersion] is its canonical text, which its parser requires to print
    back; the semver parser itself is not modelled. *)

From S2P Require Import Prelude Protocol.
Local Open Scope tea_scope.

(** ** Effects ([effect.rs]) *)

Inductive ToolEffect : Set :=
| FsRead | FsWrite | FsDelete | ProcessSpawn | NetworkRequest | CredentialRead
| ClipboardRead | ExternalRead | UserInteraction | ExternalMutation
| UnknownEffect (name : string).

#[export] Instance ToolEffect_eq_dec : EqDecision ToolEffect.
Proof. solve_decision. Defined.

Definition effect_as_str (e : ToolEffect) : string :=
  match e with
  | FsRead => "fs.read"
  | FsWrite => "fs.write"
  | FsDelete => "fs.delete"
  | ProcessSpawn => "process.spawn"
  | NetworkRequest => "network.request"
  | CredentialRead => "credential.read"
  | ClipboardRead => "clipboard.read"
  | ExternalRead => "external.read"
  | UserInteraction => "user.interaction"
  | ExternalMutation => "external.mutation"
  | UnknownEffect value => value
  end.

Definition is_unknown (e : ToolEffect) : bool :=
  match e with UnknownEffect _ => true | _ => false end.

Definition is_read_only (e : ToolEffect) : bool :=
  match e with
  | FsRead | CredentialRead | ClipboardRead | ExternalRead => true
  | _ => false
  end.

Definition known_effects : list ToolEffect :=
  [FsRead; FsWrite; FsDelete; ProcessSpawn; NetworkRequest; CredentialRead; ClipboardRead;
   ExternalRead; UserInteraction; ExternalMutation].

(** The [match value] of [from_str] on the known names. *)
Definition known_effect (value : string) : option ToolEffect :=
  snd <$> list_find (λ e, effect_as_str e = value) known_effects.

Definition dash_or_underscore (b : N) : bool := (b =? 45)%N || (b =? 95)%N.

Definition valid_segment : list N → bool :=
  head_and_all_bytes is_ascii_lowercase
    (λ b, is_ascii_lowercase b || is_ascii_digit b || dash_or_underscore b).

Definition valid_namespaced_effect (value : string) : bool :=
  let segments := split_bytes 46 (bytes value) in
  (3 <=? length segments)%nat && forallb valid_segment segments.

Inductive ToolEffectParseError : Set := InvalidEffect.

(** [FromStr for ToolEffect]. *)
Definition parse_effect (value : string) : Result ToolEffectParseError ToolEffect :=
  match known_effect value with
  | Some known => Ok known
  | None =>
      if (256 <? str_len value)%N || negb (valid_namespaced_effect value)
      then Err InvalidEffect
      else Ok (UnknownEffect value)
  end.

(** The derived [Ord]: by variant, then by name. *)
Definition effect_index (e : ToolEffect) : N :=
  match e with
  | FsRead => 0 | FsWrite => 1 | FsDelete => 2 | ProcessSpawn => 3 | NetworkRequest => 4
  | CredentialRead => 5 | ClipboardRead => 6 | ExternalRead => 7 | UserInteraction => 8
  | ExternalMutation => 9 | UnknownEffect _ => 10
  end%N.

Definition effect_leb (a b : ToolEffect) : bool :=
  lex_leb (effect_index a ?= effect_index b)%N
    (match a, b with
     | UnknownEffect x, UnknownEffect y => str_leb x y
     | _, _ => true
     end).

Definition effect_same (a b : ToolEffect) : bool := bool_decide (a = b).

(** ** Resources ([resource.rs]) *)

Definition MAX_TOOL_RESOURCES : nat := 128.

Inductive ToolResourceAccess : Set :=
| AccessRead | AccessWrite | AccessDelete | AccessExecute | AccessUnknown.

#[export] Instance ToolResourceAccess_eq_dec : EqDecision ToolResourceAccess.
Proof. solve_decision. Defined.

Definition access_index (a : ToolResourceAccess) : N :=
  match a with
  | AccessRead => 0 | AccessWrite => 1 | AccessDelete => 2 | AccessExecute => 3
  | AccessUnknown => 4
  end%N.

Record ToolResource : Set := mk_ToolResource {
  tr_scheme : string;
  tr_locator : string;
  tr_access : ToolResourceAccess
}.

#[export] Instance ToolResource_eq_dec : EqDecision ToolResource.
Proof. solve_decision. Defined.

Inductive ToolResourceError : Set :=
| InvalidScheme | InvalidLocator | TooManyResources | Unresolved.

#[export] Instance ToolResourceError_eq_dec : EqDecision ToolResourceError.
Proof. solve_decision. Defined.

(** The scheme check [ToolResource::new] and [ResourcePattern::new] share. *)
Definition valid_scheme (scheme : string) : bool :=
  (str_len scheme <=? 64)%N
  && head_and_all is_ascii_lowercase
       (λ b, is_ascii_lowercase b || is_ascii_digit b || (b =? 45)%N) scheme.

Definition valid_locator (locator : string) : bool :=
  negb (String.eqb locator "") && (str_len locator <=? 2048)%N
  && negb (has_control (bytes locator)).

Definition resource_new (scheme locator : string) (access : ToolResourceAccess)
    : Result ToolResourceError ToolResource :=
  if negb (valid_scheme scheme) then Err InvalidScheme
  else if negb (valid_locator locator) then Err InvalidLocator
  else Ok (mk_ToolResource scheme locator access).

(** The derived [Ord]: scheme, locator, access. *)
Definition resource_leb (a b : ToolResource) : bool :=
  lex_leb (String.compare (tr_scheme a) (tr_scheme b))
    (lex_leb (String.compare (tr_locator a) (tr_locator b))
      (access_index (tr_access a) <=? access_index (tr_access b))%N).

Definition resource_same (a b : ToolResource) : bool := bool_decide (a = b).

Record ArgumentResourceResolver : Set := mk_ArgumentResourceResolver {
  arr_argument : string;
  arr_scheme : string;
  arr_access : ToolResourceAccess
}.

Definition argument_resolver_new (argument scheme : string) (access : ToolResourceAccess)
    : Result ToolResourceError ArgumentResourceResolver :=
  if String.eqb argument "" || (128 <? str_len argument)%N
     || negb (forallb (λ b, is_ascii_lowercase b || is_ascii_digit b || (b =? 95)%N)
                (bytes argument))
  then Err Unresolved
  else try? resource_new scheme "validation" access in
       Ok (mk_ArgumentResourceResolver argument scheme access).

Definition argument_resolve (resolver : ArgumentResourceResolver) (arguments : Value)
    : Result ToolResourceError (list ToolResource) :=
  let? locator := ok_or (json_get arguments (arr_argument resolver) ≫= json_as_str)
                    Unresolved in
  let? resource := resource_new (arr_scheme resolver) locator (arr_access resolver) in
  Ok [resource].

(** [StaticResourceResolver::new]; [resolve] returns the stored set. *)
Definition static_resolver_new (resources : list ToolResource)
    : Result ToolResourceError (list ToolResource) :=
  let resources := dedup resource_same (stable_sort resource_leb resources) in
  if (MAX_TOOL_RESOURCES <? length resources)%nat then Err TooManyResources
  else Ok resources.

(** ** Provenance ([source.rs]) *)

Inductive ToolSourceKind : Set := SourceNative | SourceMcp | SourceRemote.
Inductive ToolTrust : Set := TrustProduct | TrustUser | TrustWorkspace | Untrusted.

#[export] Instance ToolSourceKind_eq_dec : EqDecision ToolSourceKind.
Proof. solve_decision. Defined.
#[export] Instance ToolTrust_eq_dec : EqDecision ToolTrust.
Proof. solve_decision. Defined.

Record ToolSource : Set := mk_ToolSource {
  ts_kind : ToolSourceKind;
  ts_source_id : string;
  ts_trust : ToolTrust;
  ts_descriptor_digest : string
}.

#[export] Instance ToolSource_eq_dec : EqDecision ToolSource.
Proof. solve_decision. Defined.

Definition NATIVE_PRODUCT_DIGEST : string :=
  "5c2fe6d5aa5a64dc09567ef61a02305036b9c96e3e2ad8fa6c4bd7eaeb234ecf".

Inductive ToolSourceError : Set := InvalidSourceId | InvalidDescriptorDigest.

Definition valid_source_id (source_id : string) : bool :=
  (str_len source_id <=? 256)%N
  && head_and_all is_ascii_lowercase
       (λ b, is_ascii_lowercase b || is_ascii_digit b || (b =? 46)%N || dash_or_underscore b)
       source_id.

Definition is_lowercase_hex (b : N) : bool := is_ascii_digit b || (97 <=? b)%N && (b <=? 102)%N.

Definition source_new (kind : ToolSourceKind) (source_id : string) (trust : ToolTrust)
    (descriptor_digest : string) : Result ToolSourceError ToolSource :=
  if negb (valid_source_id source_id) then Err InvalidSourceId
  else if negb (str_len descriptor_digest =? 64)%N
          || negb (forallb is_lowercase_hex (bytes descriptor_digest))
  then Err InvalidDescriptorDigest
  else Ok (mk_ToolSource kind source_id trust descriptor_digest).

Definition native_product : ToolSource :=
  mk_ToolSource SourceNative "tea-rs.product.native" TrustProduct NATIVE_PRODUCT_DIGEST.

Definition is_native_product (s : ToolSource) : bool :=
  bool_decide (ts_kind s = SourceNative) && String.eqb (ts_source_id s) "tea-rs.product.native"
  && bool_decide (ts_trust s = TrustProduct)
  && String.eqb (ts_descriptor_digest s) NATIVE_PRODUCT_DIGEST.

(** ** JSON bounds ([schema.rs], [spec.rs], [invocation.rs]) *)

(** Nesting depth where a scalar counts one. *)
Fixpoint json_depth (v : Value) : nat :=
  match v with
  | JArray values => S (foldr Nat.max 0 (List.map json_depth values))
  | JObject entries => S (foldr Nat.max 0 (List.map (λ kv, json_depth kv.2) entries))
  | _ => 1
  end.

Definition MAX_TOOL_VALUE_BYTES : N := 262144.
Definition MAX_TOOL_VALUE_DEPTH : nat := 32.

(** The early-exit depth test of [schema.rs]. *)
Fixpoint exceeds_json_depth (v : Value) (depth : nat) : bool :=
  (MAX_TOOL_VALUE_DEPTH <? depth)%nat ||
  match v with
  | JArray values => existsb (λ v, exceeds_json_depth v (S depth)) values
  | JObject entries => existsb (λ kv, exceeds_json_depth kv.2 (S depth)) entries
  | _ => false
  end.

Fixpoint contains_external_reference (v : Value) : bool :=
  match v with
  | JArray values => existsb contains_external_reference values
  | JObject entries =>
      existsb (λ kv,
        String.eqb kv.1 "$ref"
        && match json_as_str kv.2 with
           | Some reference => negb (String.prefix "#" reference)
           | None => false
           end
        || contains_external_reference kv.2) entries
  | _ => false
  end.

(** ** Names, execution semantics and specifications ([spec.rs]) *)

Record ToolName : Set := mk_ToolName { tn_str : string }.
Record ToolVersion : Set := mk_ToolVersion { tv_text : string }.

#[export] Instance ToolName_eq_dec : EqDecision ToolName.
Proof. solve_decision. Defined.
#[export] Instance ToolVersion_eq_dec : EqDecision ToolVersion.
Proof. solve_decision. Defined.
#[export] Program Instance ToolName_countable : Countable ToolName :=
  inj_countable' tn_str mk_ToolName _.
Next Obligation. by intros []. Qed.

Inductive ToolIdentityParseError : Set := InvalidToolName | InvalidToolVersion.

(** [FromStr for ToolName]. *)
Definition parse_tool_name (value : string) : Result ToolIdentityParseError ToolName :=
  if (128 <? str_len value)%N
     || negb (head_and_all is_ascii_lowercase
                (λ b, is_ascii_lowercase b || is_ascii_digit b || dash_or_underscore b
                      || (b =? 46)%N) value)
  then Err InvalidToolName
  else Ok (mk_ToolName value).

Inductive ToolRetrySafety : Set := RetryNever | RetryExplicitOnly | RetryAutomatic.
Inductive ToolConcurrency : Set := ConcurrencyParallel | ConcurrencySerial | ConcurrencyExclusive.

Inductive ToolSpecError : Set :=
| InvalidDescription | InvalidSchema | MissingEffects | TooManyEffects | InvalidTimeout
| UnsafeAutomaticRetry | InvalidPromptHint | InvalidLabel | InvalidPromptSnippet
| InvalidPromptGuideline | TooManyPromptGuidelines | InvalidRenderer.

#[export] Instance ToolRetrySafety_eq_dec : EqDecision ToolRetrySafety.
Proof. solve_decision. Defined.
#[export] Instance ToolConcurrency_eq_dec : EqDecision ToolConcurrency.
Proof. solve_decision. Defined.
#[export] Instance ToolIdempotency_eq_dec : EqDecision ToolIdempotency.
Proof. solve_decision. Defined.
#[export] Instance ToolSpecError_eq_dec : EqDecision ToolSpecError.
Proof. solve_decision. Defined.

Definition MAX_TOOL_TIMEOUT_MILLIS : N := 86400000.

Record ToolTimeout : Set := mk_ToolTimeout { as_millis : N }.

Definition timeout_from_millis (value : N) : Result ToolSpecError ToolTimeout :=
  if (value =? 0)%N || (MAX_TOOL_TIMEOUT_MILLIS <? value)%N
  then Err InvalidTimeout else Ok (mk_ToolTimeout value).

#[export] Instance ToolTimeout_eq_dec : EqDecision ToolTimeout.
Proof. solve_decision. Defined.

Record ToolExecutionSemantics : Set := mk_ToolExecutionSemantics {
  te_idempotency : ToolIdempotency;
  te_retry_safety : ToolRetrySafety;
  te_concurrency : ToolConcurrency;
  te_timeout : ToolTimeout
}.

#[export] Instance ToolExecutionSemantics_eq_dec : EqDecision ToolExecutionSemantics.
Proof. solve_decision. Defined.

Definition execution_semantics_new (idempotency : ToolIdempotency)
    (retry_safety : ToolRetrySafety) (concurrency : ToolConcurrency) (timeout : ToolTimeout)
    : Result ToolSpecError ToolExecutionSemantics :=
  match idempotency, retry_safety with
  | NonIdempotent, RetryAutomatic => Err UnsafeAutomaticRetry
  | _, _ => Ok (mk_ToolExecutionSemantics idempotency retry_safety concurrency timeout)
  end.

Inductive SchedulerClass : Set :=
| ParallelReadOnly | ParallelRetrySafe | SerialClass | ExclusiveClass | PolicyRequired.

#[export] Instance SchedulerClass_eq_dec : EqDecision SchedulerClass.
Proof. solve_decision. Defined.

Definition requires_policy (c : SchedulerClass) : bool :=
  match c with PolicyRequired => true | _ => false end.
Definition allows_parallel_execution (c : SchedulerClass) : bool :=
  match c with ParallelReadOnly | ParallelRetrySafe => true | _ => false end.

Record ToolSpec : Set := mk_ToolSpec {
  sp_name : ToolName;
  sp_version : ToolVersion;
  sp_label : option string;
  sp_description : string;
  sp_input_schema : Value;
  sp_output_schema : Value;
  sp_effects : list ToolEffect;
  sp_source : ToolSource;
  sp_execution : ToolExecutionSemantics;
  sp_prompt_snippet : option string;
  sp_prompt_guidelines : list string;
  sp_ui_renderer : option string
}.

#[export] Instance ToolSpec_eq_dec : EqDecision ToolSpec.
Proof. solve_decision. Defined.

Definition validate_text (value : string) (max_bytes : N) : bool :=
  negb (String.eqb value "" || (max_bytes <? str_len value)%N || contains_nul value).

Definition with_source (s : ToolSpec) (source : ToolSource) : ToolSpec :=
  mk_ToolSpec (sp_name s) (sp_version s) (sp_label s) (sp_description s) (sp_input_schema s)
    (sp_output_schema s) (sp_effects s) source (sp_execution s) (sp_prompt_snippet s)
    (sp_prompt_guidelines s) (sp_ui_renderer s).

Definition with_label (s : ToolSpec) (label : string) : Result ToolSpecError ToolSpec :=
  try? ensure (validate_text label 256) InvalidLabel in
  Ok (mk_ToolSpec (sp_name s) (sp_version s) (Some label) (sp_description s)
        (sp_input_schema s) (sp_output_schema s) (sp_effects s) (sp_source s)
        (sp_execution s) (sp_prompt_snippet s) (sp_prompt_guidelines s) (sp_ui_renderer s)).

Definition with_prompt_snippet (s : ToolSpec) (snippet : string)
    : Result ToolSpecError ToolSpec :=
  try? ensure (validate_text snippet 16384) InvalidPromptSnippet in
  Ok (mk_ToolSpec (sp_name s) (sp_version s) (sp_label s) (sp_description s)
        (sp_input_schema s) (sp_output_schema s) (sp_effects s) (sp_source s)
        (sp_execution s) (Some snippet) (sp_prompt_guidelines s) (sp_ui_renderer s)).

(** [with_prompt_hint]: the same field, with an error of its own. *)
Definition with_prompt_hint (s : ToolSpec) (hint : string) : Result ToolSpecError ToolSpec :=
  map_err (λ _, InvalidPromptHint) (with_prompt_snippet s hint).

Definition with_ui_renderer (s : ToolSpec) (renderer : string)
    : Result ToolSpecError ToolSpec :=
  try? ensure (negb (String.eqb renderer "" || (128 <? str_len renderer)%N
                     || negb (forallb (λ b, is_ascii_lowercase b || is_ascii_digit b
                                            || dash_or_underscore b || (b =? 46)%N)
                                (bytes renderer)))) InvalidRenderer in
  Ok (mk_ToolSpec (sp_name s) (sp_version s) (sp_label s) (sp_description s)
        (sp_input_schema s) (sp_output_schema s) (sp_effects s) (sp_source s)
        (sp_execution s) (sp_prompt_snippet s) (sp_prompt_guidelines s) (Some renderer)).

Definition MAX_TOOL_PROMPT_GUIDELINES : nat := 16.
Definition MAX_TOOL_PROMPT_GUIDELINES_BYTES : N := 16384.

(** The loop of [with_prompt_guidelines] over the accepted prefix and its size. *)
Definition push_guideline (acc : list string * N) (guideline : string)
    : Result ToolSpecError (list string * N) :=
  let '(bounded, total_bytes) := acc in
  try? ensure (negb (length bounded =? MAX_TOOL_PROMPT_GUIDELINES)%nat)
         TooManyPromptGuidelines in
  try? ensure (validate_text guideline 1024) InvalidPromptGuideline in
  let total_bytes := (total_bytes + str_len guideline)%N in
  try? ensure (negb (MAX_TOOL_PROMPT_GUIDELINES_BYTES <? total_bytes)%N)
         TooManyPromptGuidelines in
  Ok (bounded ++ [guideline], total_bytes).

Definition with_prompt_guidelines (s : ToolSpec) (guidelines : list string)
    : Result ToolSpecError ToolSpec :=
  let? acc := result_fold push_guideline ([], 0%N) guidelines in
  Ok (mk_ToolSpec (sp_name s) (sp_version s) (sp_label s) (sp_description s)
        (sp_input_schema s) (sp_output_schema s) (sp_effects s) (sp_source s)
        (sp_execution s) (sp_prompt_snippet s) acc.1 (sp_ui_renderer s)).

Definition scheduler_class (s : ToolSpec) : SchedulerClass :=
  if existsb is_unknown (sp_effects s) then PolicyRequired
  else if bool_decide (te_concurrency (sp_execution s) = ConcurrencyExclusive)
  then ExclusiveClass
  else if bool_decide (te_concurrency (sp_execution s) = ConcurrencySerial)
          || bool_decide (te_idempotency (sp_execution s) = NonIdempotent)
  then SerialClass
  else if forallb is_read_only (sp_effects s) then ParallelReadOnly
  else if bool_decide (te_retry_safety (sp_execution s) = RetryAutomatic)
  then ParallelRetrySafe else SerialClass.

(** ** What needs the encoded length of a value *)

Record ToolInvocation : Set := mk_ToolInvocation {
  ti_tool_call_id : ToolCallId;
  ti_name : ToolName;
  ti_arguments : Value;
  ti_metadata : ProtocolMetadata
}.

Inductive ToolInvocationError : Set := ArgumentsMustBeObject | ArgumentsOutOfBounds.

Record ValidatedToolInvocation : Set := mk_ValidatedToolInvocation {
  vi_invocation : ToolInvocation;
  vi_spec : ToolSpec;
  vi_source : ToolSource;
  vi_resources : list ToolResource
}.

(** [ValidatedToolInvocation::new] freezes the provenance of the spec. *)
Definition validated_new (invocation : ToolInvocation) (spec : ToolSpec)
    (resources : list ToolResource) : ValidatedToolInvocation :=
  mk_ValidatedToolInvocation invocation spec (sp_source spec) resources.

Section bounds.
Context (json_len : Value → option N).

Definition exceeds_bytes (v : Value) (limit : N) : bool :=
  match json_len v with None => true | Some n => (limit <? n)%N end.

Definition validate_json_bounds (v : Value) : bool :=
  negb (exceeds_json_depth v 1 || exceeds_bytes v MAX_TOOL_VALUE_BYTES).

Definition validate_object_schema (v : Value) : bool :=
  is_object v
  && bool_decide (json_get v "type" ≫= json_as_str = Some "object")
  && negb (exceeds_bytes v 262144)
  && (json_depth v <=? 32)%nat.

Definition MAX_TOOL_EFFECTS : nat := 64.

(** The [BTreeSet] of effects, in its order. *)
Definition effect_set (effects : list ToolEffect) : list ToolEffect :=
  dedup effect_same (stable_sort effect_leb effects).

Definition spec_new (name : ToolName) (version : ToolVersion) (description : string)
    (input_schema output_schema : Value) (effects : list ToolEffect)
    (execution : ToolExecutionSemantics) : Result ToolSpecError ToolSpec :=
  try? ensure (validate_text description 16384) InvalidDescription in
  try? ensure (validate_object_schema input_schema) InvalidSchema in
  try? ensure (validate_object_schema output_schema) InvalidSchema in
  let effects := effect_set effects in
  try? ensure (negb (length effects =? 0)%nat) MissingEffects in
  try? ensure (length effects <=? MAX_TOOL_EFFECTS)%nat TooManyEffects in
  Ok (mk_ToolSpec name version None description input_schema output_schema effects
        native_product execution None [] None).

Definition invocation_new (tool_call_id : ToolCallId) (name : ToolName) (arguments : Value)
    (metadata : ProtocolMetadata) : Result ToolInvocationError ToolInvocation :=
  try? ensure (is_object arguments) ArgumentsMustBeObject in
  try? ensure (negb (exceeds_bytes arguments 262144 || (32 <? json_depth arguments)%nat))
         ArgumentsOutOfBounds in
  Ok (mk_ToolInvocation tool_call_id name arguments metadata).
End bounds.

(** ** Lemmas *)

Lemma known_effect_Some value e :
  known_effect value = Some e → effect_as_str e = value ∧ is_unknown e = false.
Proof.
  unfold known_effect. destruct (list_find _ _) as [[i e']|] eqn:Hf; [|done].
  intros [= <-]. apply list_find_Some in Hf as (Hi & He & _). split; [done|].
  apply list_elem_of_lookup_2 in Hi. unfold known_effects in Hi.
  repeat (apply elem_of_cons in Hi as [->|Hi]; [done|]). by apply elem_of_nil in Hi.
Qed.

Lemma known_effect_as_str e : is_unknown e = false → known_effect (effect_as_str e) = Some e.
Proof. by destruct e. Qed.

Lemma known_effect_namespaced value :
  valid_namespaced_effect value = true → known_effect value = None.
Proof.
  intros Hv. destruct (known_effect value) as [e|] eqn:He; [|done]. exfalso.
  apply known_effect_Some in He as [<- Hk]. by destruct e.
Qed.

Lemma effect_leb_total a b : effect_leb a b = false → effect_leb b a = true.
Proof.
  destruct a, b; try done. unfold effect_leb. simpl. unfold str_leb. intros H.
  destruct (String.leb_total name name0) as [H'|H']; congruence.
Qed.

Lemma effect_same_eq a b : effect_same a b = true → a = b.
Proof. unfold effect_same. by intros ?%bool_decide_eq_true. Qed.

Lemma elem_of_effect_set e effects : e ∈ effect_set effects ↔ e ∈ effects.
Proof.
  unfold effect_set. rewrite elem_of_dedup by apply effect_same_eq.
  apply elem_of_stable_sort.
Qed.

Lemma existsb_depth {A} (f : A → nat) (g : A → bool) l k :
  Forall (λ x, g x = (32 <? k + f x)%nat) l →
  ((32 <? k)%nat || existsb g l) = (32 <? k + foldr Nat.max 0 (List.map f l))%nat.
Proof.
  induction 1 as [|x l Hx _ IH]; simpl.
  - rewrite orb_false_r. f_equal. lia.
  - rewrite Hx, orb_assoc, (orb_comm (32 <? k)%nat), <- orb_assoc, IH.
    apply eq_true_iff_eq. rewrite orb_true_iff, !Nat.ltb_lt. lia.
Qed.

(** ** Claims *)

(** [from_str] on effects accepts exactly the canonical names and is the
    inverse of [as_str]: what it parses prints back, every known effect and
    every bounded namespaced name parses to itself, and no unknown effect can
    alias a known one. *)
Theorem parse_effect_iff value e :
  parse_effect value = Ok e ↔
  effect_as_str e = value ∧
  match e with
  | UnknownEffect v => (str_len v ≤ 256)%N ∧ valid_namespaced_effect v = true
  | _ => True
  end.
Proof.
  unfold parse_effect. split.
  - destruct (known_effect value) as [k|] eqn:Hk.
    + intros [= ->]. apply known_effect_Some in Hk as [? ?]. split; [done|]. by destruct e.
    + destruct (_ || _) eqn:Hb; [done|]. intros [= <-]. bool_prop. split_and!; [done| |].
      * by apply N.ltb_ge.
      * by apply negb_false_iff.
  - intros [<- He]. destruct (is_unknown e) eqn:Hu.
    + destruct e; try done. simpl. destruct He as [Hlen Hv].
      rewrite known_effect_namespaced by done. rewrite Hv.
      by rewrite (proj2 (N.ltb_ge _ _)) by done.
    + by rewrite known_effect_as_str.
Qed.

(** the early-exit depth test of the schema module decides the depth the
    other modules compute: from level [depth] a value exceeds the limit exactly
    when its depth below that level does. *)
Theorem exceeds_json_depth_spec v depth :
  exceeds_json_depth v (S depth) = (MAX_TOOL_VALUE_DEPTH <? depth + json_depth v)%nat.
Proof.
  unfold MAX_TOOL_VALUE_DEPTH. revert depth.
  induction v as [| | | |values IH|entries IH] using Value_nested_ind; intros depth;
    unfold MAX_TOOL_VALUE_DEPTH; simpl exceeds_json_depth; simpl json_depth;
    try (rewrite orb_false_r; f_equal; lia).
  - rewrite <- Nat.add_succ_comm. apply (existsb_depth json_depth).
    eapply Forall_impl; [apply IH|]. simpl. intros v Hv. apply Hv.
  - rewrite <- Nat.add_succ_comm. apply (existsb_depth (λ kv, json_depth kv.2)).
    eapply Forall_impl; [apply IH|]. simpl. intros v Hv. apply Hv.
Qed.

(** a tool is scheduled concurrently exactly when every effect is known,
    it declares parallel concurrency, it is not non-idempotent, and it is
    read-only or safe to retry automatically. *)
Theorem parallel_class_iff s :
  allows_parallel_execution (scheduler_class s) = true ↔
  (∀ e, e ∈ sp_effects s → is_unknown e = false) ∧
  te_concurrency (sp_execution s) = ConcurrencyParallel ∧
  te_idempotency (sp_execution s) ≠ NonIdempotent ∧
  ((∀ e, e ∈ sp_effects s → is_read_only e = true) ∨
   te_retry_safety (sp_execution s) = RetryAutomatic).
Proof.
  assert (existsb is_unknown (sp_effects s) = false ↔
    (∀ e, e ∈ sp_effects s → is_unknown e = false)) as Hun.
  { rewrite <- not_true_iff_false, existsb_exists. setoid_rewrite <- list_elem_of_In.
    setoid_rewrite <- not_true_iff_false. naive_solver. }
  assert (forallb is_read_only (sp_effects s) = true ↔
    (∀ e, e ∈ sp_effects s → is_read_only e = true)) as Hro.
  { rewrite forallb_forall. setoid_rewrite <- list_elem_of_In. done. }
  rewrite <- Hun, <- Hro. unfold scheduler_class.
  destruct (existsb _ _), (te_concurrency _), (te_idempotency _), (forallb _ _),
    (te_retry_safety _); simpl; naive_solver.
Qed.
