(* ===== verification/Validation.v ===== *)
(** * Validation of protocol values

    The validating constructors of [crates/tea-protocol]: JSON bounds and
    metadata ([metadata.rs]), external content ([external.rs]), content blocks
    ([content.rs]), messages ([message.rs]), durable records ([record.rs])
    and final-output formats ([final_output.rs]).  Encoded JSON, Base64 and URL
    parsing come from [serde_json], [base64] and [url]; what the code asks of
    them is the class [Codec].  The JSON Schema engine ([jsonschema]) is the
    class [SchemaEngine]. *)

From S2P Require Import Prelude Protocol Tools.
Local Open Scope tea_scope.

(** What [url::Url] shows of a parsed URL. *)
Record ParsedUrl : Set := mk_ParsedUrl {
  pu_scheme : string;
  pu_cannot_be_a_base : bool;
  pu_host_str : option string;
  pu_username : string;
  pu_password : option string;
  pu_to_string : string
}.

Class Codec : Type := {
  (** [serde_json::to_vec(value).len()], [None] when encoding fails. *)
  json_len : Value → option N;
  (** [STANDARD.decode(data).is_ok()]. *)
  base64_decodes : string → bool;
  (** [url::Url::parse(text).ok()]. *)
  parse_url : string → option ParsedUrl;
  (** [serde_json::from_str::<Value>(text).ok()]. *)
  json_parse : string → option Value;
  (** [serde_json::to_vec(block).len()] of a block that validates. *)
  block_json_len : ContentBlock → N
}.

(** One error of [Validator::iter_errors]. *)
Record EngineError : Set := mk_EngineError {
  ee_instance_path : string;
  ee_schema_path : string;
  ee_text : string
}.

Class SchemaEngine : Type := {
  (** [draft202012::options().build(source).is_ok()]. *)
  schema_builds : Value → bool;
  (** The errors of a value against a schema that builds, in engine order. *)
  schema_errors : Value → Value → list EngineError
}.

(** ** Errors *)

Inductive ProtocolMetadataError : Set :=
| InvalidNamespace | TooManyNamespaces | MetadataTooLarge | MetadataTooDeep
| MetadataSerialization.

Inductive ExternalContentError : Set :=
| InvalidSourceUrl | InvalidSourceTitle | InvalidSourceText | InvalidContinuationIdentifier
| InvalidHostedToolIdentity | HostedToolArgumentsMustBeObject | TooManyHostedToolSources
| InvalidHostedToolError | InvalidCitationRange | InvalidWebFetchMetadata | InvalidWebFetchTitle
| InvalidWebFetchBody | InvalidWebFetchRedirect | JsonBounds (e : ProtocolMetadataError).

Inductive ContentValidationError : Set :=
| InvalidText | InvalidMimeType | InvalidImageData | InvalidImageReference
| InvalidContentToolName | InvalidProviderToolCallId | ContentArgumentsMustBeObject
| ContentArgumentsOutOfBounds (e : ProtocolMetadataError)
| InvalidExternalContent (e : ExternalContentError).

Inductive MessageValidationError : Set :=
| InvalidContent | InvalidContentValue (e : ContentValidationError)
| InvalidToolFailure | InconsistentMessageFailure.

Inductive RecordValidationError : Set :=
| EmptyConfigurationChange | InvalidToolCall (e : ContentValidationError)
| RecordArgumentsMustBeObject | RecordArgumentsOutOfBounds (e : ProtocolMetadataError)
| InvalidToolResultContent | BranchReferenceMismatch | InconsistentToolFailure
| PresentationOnFailure | InvalidInterruptionReason.

Inductive FinalOutputFormatError : Set :=
| FinalSchemaMustBeObject | FinalSchemaOutOfBounds | FinalSchemaInvalid.

Definition MAX_FINAL_OUTPUT_SCHEMA_BYTES : N := 262144.

(** ** Text checks *)

(** Non-empty, bounded and without a null character. *)
Definition bounded_text (value : string) (max_bytes : N) : bool :=
  (0 <? str_len value)%N && (str_len value <=? max_bytes)%N && negb (contains_nul value).

(** Non-empty, bounded and without a control character. *)
Definition bounded_line (value : string) (max_bytes : N) : bool :=
  (0 <? str_len value)%N && (str_len value <=? max_bytes)%N && negb (has_control (bytes value)).

Definition lower_or_digit (b : N) : bool := is_ascii_lowercase b || is_ascii_digit b.

(** [b'_' | b'-' | b'.']. *)
Definition name_punctuation (b : N) : bool := (b =? 95)%N || (b =? 45)%N || (b =? 46)%N.

(** ** JSON bounds and metadata ([metadata.rs]) *)

Definition MAX_METADATA_NAMESPACES : nat := 16.
Definition MAX_METADATA_BYTES : N := 16384.
Definition MAX_METADATA_DEPTH : nat := 8.

(** Container nesting: a scalar counts zero. *)
Fixpoint container_depth (v : Value) : nat :=
  match v with
  | JArray values => S (foldr Nat.max 0 (List.map container_depth values))
  | JObject entries => S (foldr Nat.max 0 (List.map (λ kv, container_depth kv.2) entries))
  | _ => 0
  end.

(** The last byte of a non-empty label. *)
Definition last_byte (bs : list N) : option N := last bs.

Definition valid_label (label : list N) : bool :=
  match head label, last_byte label with
  | Some first, Some final =>
      is_ascii_lowercase first && is_ascii_alphanumeric final
      && forallb (λ b, lower_or_digit b || (b =? 45)%N) label
  | _, _ => false
  end.

Definition validate_namespace (namespace : string) : Result ProtocolMetadataError unit :=
  let labels := split_bytes 46 (bytes namespace) in
  ensure ((2 <=? length labels)%nat && forallb valid_label labels) InvalidNamespace.

Section codec.
Context `{Codec}.

Definition validate_bounds (v : Value) (max_bytes : N) (max_depth : nat)
    : Result ProtocolMetadataError unit :=
  try? ensure (container_depth v <=? max_depth)%nat MetadataTooDeep in
  let? len := ok_or (json_len v) MetadataSerialization in
  ensure (len <=? max_bytes)%N MetadataTooLarge.

(** One entry of the loop of [ProtocolMetadata::try_from]. *)
Definition validate_entry (_ : unit) (entry : string * Value)
    : Result ProtocolMetadataError unit :=
  try? validate_namespace entry.1 in
  ensure (container_depth entry.2 <=? MAX_METADATA_DEPTH)%nat MetadataTooDeep.

(** [ProtocolMetadata::try_from]: the entries in key order, then the size of
    the whole map as one object. *)
Definition metadata_try_from (values : gmap string Value)
    : Result ProtocolMetadataError ProtocolMetadata :=
  let entries := btree_entries str_leb values in
  try? ensure (size values <=? MAX_METADATA_NAMESPACES)%nat TooManyNamespaces in
  try? result_fold validate_entry tt entries in
  let? len := ok_or (json_len (JObject entries)) MetadataSerialization in
  try? ensure (len <=? MAX_METADATA_BYTES)%N MetadataTooLarge in
  Ok values.

Definition metadata_from_entries (entries : list (string * Value))
    : Result ProtocolMetadataError ProtocolMetadata :=
  metadata_try_from (btree_collect entries).

(** ** Tool names and provider identifiers ([content.rs]) *)

Definition validate_tool_name (value : string) : Result ContentValidationError unit :=
  ensure (head_and_all is_ascii_lowercase (λ b, lower_or_digit b || name_punctuation b) value
          && (str_len value <=? 128)%N)
    InvalidContentToolName.

Definition validate_provider_tool_call_id (value : string)
    : Result ContentValidationError unit :=
  ensure (bounded_line value 256) InvalidProviderToolCallId.

Definition MAX_TOOL_ARGUMENT_BYTES : N := 262144.
Definition MAX_TOOL_ARGUMENT_DEPTH : nat := 32.

(** ** External content ([external.rs]) *)

Definition normalize_source_url (url : string) : Result ExternalContentError string :=
  try? ensure (bounded_line url 8192 && negb (existsb (λ b, (b =? 32)%N) (bytes url)))
         InvalidSourceUrl in
  let? parsed := ok_or (parse_url url) InvalidSourceUrl in
  try? ensure ((String.eqb (pu_scheme parsed) "http" || String.eqb (pu_scheme parsed) "https")
               && negb (pu_cannot_be_a_base parsed)
               && bool_decide (is_Some (pu_host_str parsed))
               && String.eqb (pu_username parsed) ""
               && bool_decide (pu_password parsed = None)) InvalidSourceUrl in
  try? ensure (str_len (pu_to_string parsed) <=? 8192)%N InvalidSourceUrl in
  Ok (pu_to_string parsed).

Definition validate_source_text (text : string) : Result ExternalContentError unit :=
  ensure (bounded_text text 65536) InvalidSourceText.

(** A check of an optional field. *)
Definition check_some {E A} (check : A → Result E unit) (o : option A) : Result E unit :=
  match o with Some x => check x | None => Ok tt end.

(** A [for] loop of checks. *)
Definition check_all {E A} (check : A → Result E unit) (l : list A) : Result E unit :=
  result_fold (λ _ x, check x) tt l.

Definition source_validate (source : ExternalSource) : Result ExternalContentError unit :=
  let? normalized := normalize_source_url (es_url source) in
  try? ensure (String.eqb normalized (es_url source)) InvalidSourceUrl in
  try? check_some (λ title, ensure (bounded_line title 1024) InvalidSourceTitle)
         (es_title source) in
  check_some validate_source_text (es_snippet source).

Definition validate_continuation_id (value : string) : Result ExternalContentError unit :=
  ensure ((str_len value <=? 128)%N
          && head_and_all is_ascii_lowercase (λ b, lower_or_digit b || name_punctuation b) value)
    InvalidContinuationIdentifier.

Definition continuation_validate (continuation : ProviderContinuation)
    : Result ExternalContentError unit :=
  try? validate_continuation_id (pc_provider continuation) in
  try? validate_continuation_id (pc_format continuation) in
  map_err JsonBounds (validate_bounds (pc_payload continuation) 4194304 64).

Definition activity_new (tool_call_id : ToolCallId) (provider_call_id tool_name : string)
    (arguments : Value) (outcome : HostedToolOutcome) (sources : list ExternalSource)
    (continuation : option ProviderContinuation)
    : Result ExternalContentError HostedToolActivity :=
  try? map_err (λ _, InvalidHostedToolIdentity)
         (validate_provider_tool_call_id provider_call_id) in
  try? map_err (λ _, InvalidHostedToolIdentity) (validate_tool_name tool_name) in
  try? ensure (is_object arguments) HostedToolArgumentsMustBeObject in
  try? map_err JsonBounds
         (validate_bounds arguments MAX_TOOL_ARGUMENT_BYTES MAX_TOOL_ARGUMENT_DEPTH) in
  try? ensure (length sources <=? 64)%nat TooManyHostedToolSources in
  try? check_all source_validate sources in
  try? check_some continuation_validate continuation in
  Ok (mk_HostedToolActivity tool_call_id provider_call_id tool_name arguments outcome sources
        continuation).

Definition activity_validate (activity : HostedToolActivity)
    : Result ExternalContentError unit :=
  try? activity_new (hta_tool_call_id activity) (hta_provider_call_id activity)
         (hta_tool_name activity) (hta_arguments activity) (hta_outcome activity)
         (hta_sources activity) (hta_continuation activity) in
  Ok tt.

Definition citation_range_ok (start_index end_index : option N) : bool :=
  match start_index, end_index with
  | Some start, Some final => (start <? final)%N
  | None, None => true
  | _, _ => false
  end.

Definition citation_validate (citation : SourceCitation) : Result ExternalContentError unit :=
  try? source_validate (sc_source citation) in
  try? ensure (citation_range_ok (sc_start_index citation) (sc_end_index citation))
         InvalidCitationRange in
  try? check_some validate_source_text (sc_cited_text citation) in
  check_some continuation_validate (sc_continuation citation).

(** ** Content blocks ([content.rs]) *)

Definition MAX_TEXT_BLOCK_BYTES : N := 1048576.

Definition validate_block_text (text : string) : Result ContentValidationError unit :=
  ensure (bounded_text text MAX_TEXT_BLOCK_BYTES) InvalidText.

(** [ContentBlock::text], [contextual_text] and [thinking]. *)
Definition block_text (text : string) : Result ContentValidationError ContentBlock :=
  try? validate_block_text text in Ok (Text text).
Definition block_contextual_text (text : string) : Result ContentValidationError ContentBlock :=
  try? validate_block_text text in Ok (ContextualText text).
Definition block_thinking (text : string) : Result ContentValidationError ContentBlock :=
  try? validate_block_text text in Ok (Thinking text).

Definition image_prefix : string := "image/".

Definition validate_mime_type (value : string) : Result ContentValidationError unit :=
  try? ensure (String.prefix image_prefix value) InvalidMimeType in
  let subtype := drop 6 (bytes value) in
  ensure (negb (length subtype =? 0)%nat
          && forallb (λ b, lower_or_digit b || (b =? 43)%N || (b =? 45)%N || (b =? 46)%N) subtype)
    InvalidMimeType.

Definition validate_image_source (source : ImageSource) : Result ContentValidationError unit :=
  match source with
  | InlineBase64 data =>
      try? ensure ((0 <? str_len data)%N && (str_len data <=? 6291456)%N) InvalidImageData in
      ensure (base64_decodes data) InvalidImageData
  | Reference reference => ensure (bounded_line reference 1024) InvalidImageReference
  end.

(** The checks [tool_call_inner] and [validate] share. *)
Definition validate_call (provider_call_id : option string) (tool_name : string)
    (arguments : Value) : Result ContentValidationError unit :=
  try? check_some validate_provider_tool_call_id provider_call_id in
  try? validate_tool_name tool_name in
  try? ensure (is_object arguments) ContentArgumentsMustBeObject in
  map_err ContentArgumentsOutOfBounds
    (validate_bounds arguments MAX_TOOL_ARGUMENT_BYTES MAX_TOOL_ARGUMENT_DEPTH).

Definition tool_call_inner (tool_call_id : ToolCallId) (provider_call_id : option string)
    (tool_name : string) (arguments : Value) : Result ContentValidationError ContentBlock :=
  try? validate_call provider_call_id tool_name arguments in
  Ok (ToolCall tool_call_id provider_call_id tool_name arguments).

(** [ContentBlock::validate]. *)
Definition block_validate (block : ContentBlock) : Result ContentValidationError unit :=
  match block with
  | Text text | ContextualText text | Thinking text => validate_block_text text
  | Image mime_type source =>
      try? validate_mime_type mime_type in validate_image_source source
  | ToolCall _ provider_call_id tool_name arguments =>
      validate_call provider_call_id tool_name arguments
  | HostedTool activity => map_err InvalidExternalContent (activity_validate activity)
  | Citation citation => map_err InvalidExternalContent (citation_validate citation)
  end.

Definition valid_for_user (block : ContentBlock) : bool :=
  match block with Text _ | ContextualText _ | Image _ _ => true | _ => false end.
Definition valid_for_assistant (block : ContentBlock) : bool :=
  match block with
  | Text _ | Thinking _ | ToolCall _ _ _ _ | HostedTool _ | Citation _ => true
  | _ => false
  end.
Definition valid_for_tool_result (block : ContentBlock) : bool :=
  match block with Text _ | Image _ _ => true | _ => false end.

(** ** Messages ([message.rs]) *)

(** Between one and 256 blocks, all allowed in this role. *)
Definition content_shape (content : list ContentBlock) (allowed : ContentBlock → bool) : bool :=
  negb (length content =? 0)%nat && (length content <=? 256)%nat && forallb allowed content.

Definition validate_content (content : list ContentBlock) (allowed : ContentBlock → bool)
    : Result MessageValidationError unit :=
  try? ensure (content_shape content allowed) InvalidContent in
  map_err InvalidContentValue (check_all block_validate content).

Definition message_user (id : MessageId) (content : list ContentBlock)
    (timestamp : ProtocolTimestamp) : Result MessageValidationError CanonicalMessage :=
  try? validate_content content valid_for_user in Ok (User id content timestamp).

Definition message_assistant (id : MessageId) (content : list ContentBlock)
    (stop_reason : StopReason) (timestamp : ProtocolTimestamp)
    : Result MessageValidationError CanonicalMessage :=
  try? validate_content content valid_for_assistant in
  Ok (Assistant id content stop_reason timestamp).

(** [CanonicalMessage::tool_result], with its two public forms. *)
Definition message_tool_result (id : MessageId) (tool_call_id : ToolCallId) (tool_name : string)
    (content : list ContentBlock) (error : option ToolFailure) (timestamp : ProtocolTimestamp)
    : Result MessageValidationError CanonicalMessage :=
  try? map_err InvalidContentValue (validate_tool_name tool_name) in
  try? validate_content content valid_for_tool_result in
  Ok (ToolResult id tool_call_id tool_name content (bool_decide (is_Some error)) error timestamp).

Definition valid_error_code (value : string) : bool :=
  head_and_all is_ascii_lowercase (λ b, lower_or_digit b || (b =? 95)%N) value
  && (str_len value <=? 128)%N.

(** [ToolFailure::new]. *)
Definition tool_failure_new (code message : string) : Result MessageValidationError ToolFailure :=
  try? ensure (valid_error_code code && bounded_text message 4096) InvalidToolFailure in
  Ok (mk_ToolFailure code message).

(** [CanonicalMessage::validate], which its [Serialize] runs first. *)
Definition message_validate (message : CanonicalMessage) : Result MessageValidationError unit :=
  match message with
  | User _ content _ => validate_content content valid_for_user
  | Assistant _ content _ _ => validate_content content valid_for_assistant
  | ToolResult _ _ tool_name content is_error error _ =>
      try? map_err InvalidContentValue (validate_tool_name tool_name) in
      try? validate_content content valid_for_tool_result in
      ensure (eqb is_error (bool_decide (is_Some error))) InconsistentMessageFailure
  end.

(** [serde_json::to_vec(&block)]: encoding validates the block. *)
Definition encoded_block_len (block : ContentBlock) : option N :=
  if is_ok (block_validate block) then Some (block_json_len block) else None.

(** ** Final-output formats ([final_output.rs]) *)

Definition final_output_validate `{SchemaEngine} (format : FinalOutputFormat)
    : Result FinalOutputFormatError unit :=
  match format with
  | FormatJsonObject => Ok tt
  | FormatJsonSchema schema =>
      try? ensure (is_object schema) FinalSchemaMustBeObject in
      try? ensure (negb (exceeds_json_depth schema 1)) FinalSchemaOutOfBounds in
      let? len := ok_or (json_len schema) FinalSchemaOutOfBounds in
      try? ensure (len <=? MAX_FINAL_OUTPUT_SCHEMA_BYTES)%N FinalSchemaOutOfBounds in
      ensure (schema_builds schema) FinalSchemaInvalid
  end.

(** ** Durable records ([record.rs]) *)

Definition validate_result_content (content : list ContentBlock)
    : Result RecordValidationError unit :=
  try? ensure (content_shape content valid_for_tool_result) InvalidToolResultContent in
  map_err InvalidToolCall (check_all block_validate content).

Definition validate_interruption (reason : string) : Result RecordValidationError unit :=
  ensure (bounded_text reason 4096) InvalidInterruptionReason.

(** [SessionRecord::validate]. *)
Definition record_validate (record : SessionRecord) : Result RecordValidationError unit :=
  match record with
  | ConfigurationChanged None None None => Err EmptyConfigurationChange
  | ToolCallRequested _ tool_name arguments =>
      try? map_err InvalidToolCall (validate_tool_name tool_name) in
      try? ensure (is_object arguments) RecordArgumentsMustBeObject in
      map_err RecordArgumentsOutOfBounds
        (validate_bounds arguments MAX_TOOL_ARGUMENT_BYTES MAX_TOOL_ARGUMENT_DEPTH)
  | ToolExecutionFinished _ is_error content error presentation =>
      try? validate_result_content content in
      try? ensure (eqb is_error (bool_decide (is_Some error))) InconsistentToolFailure in
      ensure (negb (is_error && bool_decide (is_Some presentation))) PresentationOnFailure
  | ToolExecutionInterrupted _ reason | RunInterrupted _ _ reason => validate_interruption reason
  | _ => Ok tt
  end.

(** [RecordEnvelope::validate]. *)
Definition envelope_validate (envelope : RecordEnvelope) : Result RecordValidationError unit :=
  try? record_validate (env_record envelope) in
  match env_record envelope with
  | BranchCreated _ branch_id _ | ActiveBranchChanged branch_id =>
      ensure (bool_decide (env_branch_id envelope = Some branch_id)) BranchReferenceMismatch
  | _ => Ok tt
  end.

(** [RecordEnvelope::new]. *)
Definition envelope_new (record_id : RecordId) (session_id : SessionId)
    (sequence : SessionSequence) (timestamp : ProtocolTimestamp)
    (causation_id : option CausationId) (correlation_id : option CorrelationId)
    (branch_id : option BranchId) (metadata : ProtocolMetadata) (record : SessionRecord)
    : Result RecordValidationError RecordEnvelope :=
  let envelope := mk_RecordEnvelope CURRENT_PROTOCOL_VERSION record_id session_id sequence
                    timestamp causation_id correlation_id branch_id metadata record in
  try? envelope_validate envelope in Ok envelope.
End codec.
