(* ===== verification/External.v ===== *)
(** * External content

    [crates/tea-protocol/src/external.rs]: the constructors of sources, hosted
    tool errors, continuations and citations.  Their checks are in [Validation]. *)

From S2P Require Import Prelude Protocol Tools Validation.
Local Open Scope tea_scope.

Definition MAX_PROVIDER_CONTINUATION_BYTES : N := 4194304.

Section codec.
Context `{Codec}.

Definition external_source_new (url : string) : Result ExternalContentError ExternalSource :=
  let? url := normalize_source_url url in
  Ok (mk_ExternalSource url None None).

Definition source_with_title (source : ExternalSource) (title : string)
    : Result ExternalContentError ExternalSource :=
  try? ensure (bounded_line title 1024) InvalidSourceTitle in
  Ok (mk_ExternalSource (es_url source) (Some title) (es_snippet source)).

Definition source_with_snippet (source : ExternalSource) (snippet : string)
    : Result ExternalContentError ExternalSource :=
  try? validate_source_text snippet in
  Ok (mk_ExternalSource (es_url source) (es_title source) (Some snippet)).

Definition continuation_new (provider format : string) (payload : Value)
    : Result ExternalContentError ProviderContinuation :=
  let continuation := mk_ProviderContinuation provider format payload in
  try? continuation_validate continuation in Ok continuation.

Definition error_code_byte (b : N) : bool := lower_or_digit b || name_punctuation b.

Definition hosted_tool_error_new (code message : string)
    : Result ExternalContentError HostedToolError :=
  try? ensure ((0 <? str_len code)%N && (str_len code <=? 128)%N
               && forallb error_code_byte (bytes code)) InvalidHostedToolError in
  try? ensure (bounded_text message 4096) InvalidHostedToolError in
  Ok (mk_HostedToolError code message).

Definition citation_new (source : ExternalSource) : SourceCitation :=
  mk_SourceCitation None source None None None None.

Definition with_range (citation : SourceCitation) (start_index end_index : N)
    : Result ExternalContentError SourceCitation :=
  try? ensure (start_index <? end_index)%N InvalidCitationRange in
  Ok (mk_SourceCitation (sc_tool_call_id citation) (sc_source citation) (Some start_index)
        (Some end_index) (sc_cited_text citation) (sc_continuation citation)).

Definition with_cited_text (citation : SourceCitation) (cited_text : string)
    : Result ExternalContentError SourceCitation :=
  try? validate_source_text cited_text in
  Ok (mk_SourceCitation (sc_tool_call_id citation) (sc_source citation) (sc_start_index citation)
        (sc_end_index citation) (Some cited_text) (sc_continuation citation)).

Definition with_continuation (citation : SourceCitation) (continuation : ProviderContinuation)
    : SourceCitation :=
  mk_SourceCitation (sc_tool_call_id citation) (sc_source citation) (sc_start_index citation)
    (sc_end_index citation) (sc_cited_text citation) (Some continuation).

End codec.
