(* ===== verification/Usage.v ===== *)
(** * Usage and cost

    [crates/tea-protocol/src/usage.rs]: token counts within the JSON
    safe-integer range, normalized usage and exact decimal cost. *)

From S2P Require Import Prelude Protocol.
Local Open Scope tea_scope.

Definition MAX_SAFE_INTEGER : N := 9007199254740991.

Record TokenCount : Set := mk_TokenCount { tok_get : N }.

#[export] Instance TokenCount_eq_dec : EqDecision TokenCount.
Proof. solve_decision. Defined.

Inductive UsageError : Set := UnsafeInteger | ReasoningExceedsOutput | TotalOverflow.

#[export] Instance UsageError_eq_dec : EqDecision UsageError.
Proof. solve_decision. Defined.

Definition token_count_new (value : N) : Result UsageError TokenCount :=
  if (value <=? MAX_SAFE_INTEGER)%N then Ok (mk_TokenCount value) else Err UnsafeInteger.

Record Usage : Set := mk_Usage {
  us_input_tokens : TokenCount;
  us_output_tokens : TokenCount;
  us_cache_read_tokens : option TokenCount;
  us_cache_write_tokens : option TokenCount;
  us_reasoning_tokens : option TokenCount
}.

#[export] Instance Usage_eq_dec : EqDecision Usage.
Proof. solve_decision. Defined.

Definition usage_new (input_tokens output_tokens : TokenCount) : Usage :=
  mk_Usage input_tokens output_tokens None None None.

Definition with_cache_read (u : Usage) (value : TokenCount) : Usage :=
  mk_Usage (us_input_tokens u) (us_output_tokens u) (Some value) (us_cache_write_tokens u)
    (us_reasoning_tokens u).
Definition with_cache_write (u : Usage) (value : TokenCount) : Usage :=
  mk_Usage (us_input_tokens u) (us_output_tokens u) (us_cache_read_tokens u) (Some value)
    (us_reasoning_tokens u).
Definition with_reasoning (u : Usage) (value : TokenCount) : Result UsageError Usage :=
  if (tok_get (us_output_tokens u) <? tok_get value)%N then Err ReasoningExceedsOutput
  else Ok (mk_Usage (us_input_tokens u) (us_output_tokens u) (us_cache_read_tokens u)
             (us_cache_write_tokens u) (Some value)).

(** The counts [total_tokens] adds up. *)
Definition counted (u : Usage) : list N :=
  tok_get <$> omap id [Some (us_input_tokens u); Some (us_output_tokens u);
                       us_cache_read_tokens u; us_cache_write_tokens u].

(** [try_fold(0, checked_add)]. *)
Definition checked_sum (total : option N) (value : N) : option N :=
  total ≫= λ t, checked_add_u64 t value.

Definition total_tokens (u : Usage) : Result UsageError TokenCount :=
  let? total := ok_or (foldl checked_sum (Some 0%N) (counted u)) TotalOverflow in
  token_count_new total.

(** ** Decimal amounts and currencies *)

Record DecimalAmount : Set := mk_DecimalAmount { da_str : string }.
Record CurrencyCode : Set := mk_CurrencyCode { cc_str : string }.

Inductive DecimalAmountParseError : Set := AmountFormat | AmountTooPrecise.
Inductive CurrencyCodeParseError : Set := mk_CurrencyCodeParseError.

(** [str::split_once('.')]. *)
Fixpoint split_point (bs : list N) : list N * option (list N) :=
  match bs with
  | [] => ([], None)
  | b :: rest =>
      if (b =? 46)%N then ([], Some rest)
      else let (integer, fraction) := split_point rest in (b :: integer, fraction)
  end.

Definition MAX_DECIMAL_DIGITS : nat := 36.
Definition MAX_DECIMAL_SCALE : nat := 18.

Definition integer_part_ok (integer : list N) : bool :=
  negb (length integer =? 0)%nat && forallb is_ascii_digit integer
  && negb ((1 <? length integer)%nat && bool_decide (head integer = Some 48%N)).

Definition fraction_part_ok (fraction : list N) : bool :=
  negb (length fraction =? 0)%nat && forallb is_ascii_digit fraction
  && negb (bool_decide (last fraction = Some 48%N)).

Definition parse_amount (value : string) : Result DecimalAmountParseError DecimalAmount :=
  let (integer, fraction) := split_point (bytes value) in
  try? ensure (integer_part_ok integer) AmountFormat in
  try? match fraction with
       | Some fraction =>
           try? ensure (fraction_part_ok fraction) AmountFormat in
           ensure (length fraction <=? MAX_DECIMAL_SCALE)%nat AmountTooPrecise
       | None => Ok tt
       end in
  try? ensure (length integer + length (default [] fraction) <=? MAX_DECIMAL_DIGITS)%nat
         AmountTooPrecise in
  Ok (mk_DecimalAmount value).

Definition parse_currency (value : string) : Result CurrencyCodeParseError CurrencyCode :=
  try? ensure ((String.length value =? 3)%nat && forallb is_ascii_uppercase (bytes value))
         mk_CurrencyCodeParseError in
  Ok (mk_CurrencyCode value).

(** [ExactCost]: the unit is always the major currency. *)
Inductive CostUnit : Set := MajorCurrency.
Record ExactCost : Set := mk_ExactCost {
  co_amount : DecimalAmount;
  co_currency : CurrencyCode;
  co_unit : CostUnit
}.
Definition cost_new (amount : DecimalAmount) (currency : CurrencyCode) : ExactCost :=
  mk_ExactCost amount currency MajorCurrency.

(** ** Lemmas *)

(** Every count of a usage built from token counts is a safe integer. *)
Definition usage_counts_safe (u : Usage) : Prop :=
  Forall (λ n, (n ≤ MAX_SAFE_INTEGER)%N) (counted u).

Lemma counted_length u : length (counted u) ≤ 4.
Proof. destruct u as [? ? [] [] ?]; simpl; lia. Qed.

(** A checked sum of few safe integers does not overflow. *)
Lemma checked_sum_safe l t :
  Forall (λ n, (n ≤ MAX_SAFE_INTEGER)%N) l →
  (t + N.of_nat (length l) * MAX_SAFE_INTEGER ≤ U64_MAX)%N →
  foldl checked_sum (Some t) l = Some (foldl N.add t l).
Proof.
  revert t. induction l as [|n l IH]; intros t Hl Ht; [done|].
  apply Forall_cons in Hl as [Hn Hl]. cbn [length] in Ht. cbn [foldl].
  unfold checked_sum at 2. cbn [mbind option_bind]. unfold checked_add_u64.
  destruct (N.leb_spec (t + n) U64_MAX); [|lia]. apply IH; [done|lia].
Qed.

(** The [TotalOverflow] error of [total_tokens] cannot happen for counts
    the constructors admit: the total is the exact sum, rejected only when it
    leaves the safe-integer range. *)
Theorem total_tokens_exact u :
  usage_counts_safe u →
  total_tokens u = token_count_new (foldl N.add 0%N (counted u)).
Proof.
  intros Hu. unfold total_tokens. rewrite checked_sum_safe; [done..|].
  pose proof (counted_length u). unfold MAX_SAFE_INTEGER, U64_MAX. lia.
Qed.

Lemma total_tokens_exact_witness :
  let u := with_cache_read (usage_new (mk_TokenCount 5) (mk_TokenCount 7)) (mk_TokenCount 11) in
  usage_counts_safe u ∧ total_tokens u = Ok (mk_TokenCount 23).
Proof.
  intros u. assert (Hu : usage_counts_safe u) by (repeat constructor; by vm_compute).
  split; [done|]. by rewrite (total_tokens_exact u Hu).
Defined.
