(* ===== verification/ModelSpec.v ===== *)
(** * Model specifications and requests

    [crates/tea-model]: hosted tools and their options ([hosted.rs]), model
    capabilities, reasoning profiles and specifications ([spec.rs]), and model
    requests with their validation against a specification ([request.rs]). *)

From S2P Require Import Prelude Protocol Tools Validation Usage.
Local Open Scope tea_scope.

Inductive ModelRequestError : Set :=
| RequestEmptyMessages | RequestTooManyMessages | RequestInvalidMessage
| RequestInvalidSystemPrompt | RequestInvalidToolName | RequestInvalidToolDescription
| RequestInvalidWebSearchDomain | RequestTooManyWebSearchDomains
| RequestConflictingWebSearchDomainFilters | RequestInvalidWebSearchLocation
| RequestToolSchemaMustBeObject | RequestToolSchemaMustDeclareObject
| RequestToolSchemaOutOfBounds | RequestTooManyTools | RequestDuplicateToolName
| RequestModelMismatch | RequestImageInputUnsupported | RequestReasoningUnsupported
| RequestReasoningEffortUnsupported | RequestToolsUnsupported
| RequestParallelToolsUnsupported | RequestHostedToolUnsupported
| RequestInvalidFinalOutputFormat | RequestFinalJsonObjectUnsupported
| RequestFinalJsonSchemaUnsupported | RequestFinalJsonSchemaWithToolsUnsupported
| RequestOutputLimitUnsupported | RequestReasoningBudgetUnsupported.

(** ** Hosted tools ([hosted.rs]) *)

Inductive HostedToolKind : Set := WebSearch.

#[export] Instance HostedToolKind_eq_dec : EqDecision HostedToolKind.
Proof. solve_decision. Defined.

Definition kind_name (kind : HostedToolKind) : string :=
  match kind with WebSearch => "web_search" end.

Record WebSearchLocation : Set := mk_WebSearchLocation {
  wl_country : option string;
  wl_city : option string;
  wl_region : option string;
  wl_timezone : option string
}.

Record WebSearchOptions : Set := mk_WebSearchOptions {
  wo_allowed_domains : list string;
  wo_blocked_domains : list string;
  wo_location : option WebSearchLocation
}.

Inductive HostedToolOptions : Set := HostedWebSearch (options : WebSearchOptions).

Definition options_kind (options : HostedToolOptions) : HostedToolKind :=
  match options with HostedWebSearch _ => WebSearch end.

Definition MAX_WEB_SEARCH_DOMAINS : nat := 100.
Definition MAX_WEB_SEARCH_DOMAIN_BYTES : N := 253.
Definition MAX_WEB_SEARCH_LOCATION_FIELD_BYTES : N := 128.

Definition location_new : WebSearchLocation := mk_WebSearchLocation None None None None.
Definition location_is_empty (l : WebSearchLocation) : bool :=
  bool_decide (wl_country l = None) && bool_decide (wl_city l = None)
  && bool_decide (wl_region l = None) && bool_decide (wl_timezone l = None).

Definition validate_location_text (value : string) : Result ModelRequestError string :=
  try? ensure (bounded_line value MAX_WEB_SEARCH_LOCATION_FIELD_BYTES)
         RequestInvalidWebSearchLocation in
  Ok value.

Definition with_country (l : WebSearchLocation) (country : string)
    : Result ModelRequestError WebSearchLocation :=
  try? ensure ((str_len country =? 2)%N && forallb is_ascii_uppercase (bytes country))
         RequestInvalidWebSearchLocation in
  Ok (mk_WebSearchLocation (Some country) (wl_city l) (wl_region l) (wl_timezone l)).
Definition with_city (l : WebSearchLocation) (city : string)
    : Result ModelRequestError WebSearchLocation :=
  let? city := validate_location_text city in
  Ok (mk_WebSearchLocation (wl_country l) (Some city) (wl_region l) (wl_timezone l)).
Definition with_region (l : WebSearchLocation) (region : string)
    : Result ModelRequestError WebSearchLocation :=
  let? region := validate_location_text region in
  Ok (mk_WebSearchLocation (wl_country l) (wl_city l) (Some region) (wl_timezone l)).

(** [b'/' | b'_' | b'-' | b'+']. *)
Definition timezone_byte (b : N) : bool :=
  is_ascii_alphanumeric b || (b =? 47)%N || (b =? 95)%N || (b =? 45)%N || (b =? 43)%N.
Definition with_timezone (l : WebSearchLocation) (timezone : string)
    : Result ModelRequestError WebSearchLocation :=
  try? ensure ((0 <? str_len timezone)%N
               && (str_len timezone <=? MAX_WEB_SEARCH_LOCATION_FIELD_BYTES)%N
               && forallb timezone_byte (bytes timezone)) RequestInvalidWebSearchLocation in
  Ok (mk_WebSearchLocation (wl_country l) (wl_city l) (wl_region l) (Some timezone)).

Definition label_ok (label : list N) : bool :=
  negb (length label =? 0)%nat && (length label <=? 63)%nat
  && bool_decide (head label ≠ Some 45%N) && bool_decide (last label ≠ Some 45%N).

Definition validate_domain (domain : string) : Result ModelRequestError unit :=
  let bs := bytes domain in
  ensure ((0 <? str_len domain)%N && (str_len domain <=? MAX_WEB_SEARCH_DOMAIN_BYTES)%N
          && bool_decide (head bs ≠ Some 46%N) && bool_decide (last bs ≠ Some 46%N)
          && forallb (λ b, lower_or_digit b || (b =? 46)%N || (b =? 45)%N) bs
          && forallb label_ok (split_bytes 46 bs)) RequestInvalidWebSearchDomain.

(** [collect_domains]: the limit is tested before each domain, the set is
    returned in order. *)
Definition collect_domain (values : gset string) (domain : string)
    : Result ModelRequestError (gset string) :=
  try? ensure (negb (size values =? MAX_WEB_SEARCH_DOMAINS)%nat) RequestTooManyWebSearchDomains in
  try? validate_domain domain in
  Ok ({[domain]} ∪ values).
Definition collect_domains (domains : list string) : Result ModelRequestError (list string) :=
  let? values := result_fold collect_domain ∅ domains in
  Ok (stable_sort str_leb (elements values)).

Definition web_options_new : WebSearchOptions := mk_WebSearchOptions [] [] None.
Definition with_allowed_domains (o : WebSearchOptions) (domains : list string)
    : Result ModelRequestError WebSearchOptions :=
  try? ensure (bool_decide (wo_blocked_domains o = []))
         RequestConflictingWebSearchDomainFilters in
  let? domains := collect_domains domains in
  Ok (mk_WebSearchOptions domains (wo_blocked_domains o) (wo_location o)).
Definition with_blocked_domains (o : WebSearchOptions) (domains : list string)
    : Result ModelRequestError WebSearchOptions :=
  try? ensure (bool_decide (wo_allowed_domains o = []))
         RequestConflictingWebSearchDomainFilters in
  let? domains := collect_domains domains in
  Ok (mk_WebSearchOptions (wo_allowed_domains o) domains (wo_location o)).
Definition with_location (o : WebSearchOptions) (location : WebSearchLocation) : WebSearchOptions :=
  mk_WebSearchOptions (wo_allowed_domains o) (wo_blocked_domains o)
    (if location_is_empty location then None else Some location).

(** ** Capabilities ([spec.rs]): a [u16] of flags *)

Record ModelDisplayName : Set := mk_ModelDisplayName { mdn_str : string }.
Inductive ModelTextParseError : Set := InvalidDisplayName.
Definition parse_display_name (value : string) : Result ModelTextParseError ModelDisplayName :=
  try? ensure (bounded_line value 256) InvalidDisplayName in Ok (mk_ModelDisplayName value).

Definition CAP_IMAGE_INPUT : N := N.shiftl 1 0.
Definition CAP_REASONING : N := N.shiftl 1 1.
Definition CAP_TOOLS : N := N.shiftl 1 2.
Definition CAP_PARALLEL_TOOLS : N := N.shiftl 1 3.
Definition CAP_USAGE : N := N.shiftl 1 4.
Definition CAP_HOSTED_WEB_SEARCH : N := N.shiftl 1 5.
Definition CAP_FINAL_JSON_OBJECT : N := N.shiftl 1 6.
Definition CAP_FINAL_JSON_SCHEMA : N := N.shiftl 1 7.
Definition CAP_FINAL_JSON_SCHEMA_WITH_TOOLS : N := N.shiftl 1 8.

Record ModelCapabilities : Set := mk_ModelCapabilities { cap_bits : N }.

Definition capabilities_text : ModelCapabilities := mk_ModelCapabilities 0.
Definition cap_set (mask : N) (c : ModelCapabilities) : ModelCapabilities :=
  mk_ModelCapabilities (N.lor (cap_bits c) mask).
(** [self.0 &= !mask] on 16 bits. *)
Definition cap_clear (mask : N) (c : ModelCapabilities) : ModelCapabilities :=
  mk_ModelCapabilities (N.land (cap_bits c) (N.lxor 65535 mask)).
Definition cap_has (mask : N) (c : ModelCapabilities) : bool :=
  negb (N.land (cap_bits c) mask =? 0)%N.

Definition with_image_input : ModelCapabilities → ModelCapabilities := cap_set CAP_IMAGE_INPUT.
Definition with_reasoning_cap : ModelCapabilities → ModelCapabilities := cap_set CAP_REASONING.
Definition with_tools_cap (parallel : bool) (c : ModelCapabilities) : ModelCapabilities :=
  let c := cap_set CAP_TOOLS c in
  if parallel then cap_set CAP_PARALLEL_TOOLS c else cap_clear CAP_PARALLEL_TOOLS c.
Definition with_usage_reporting : ModelCapabilities → ModelCapabilities := cap_set CAP_USAGE.
Definition with_hosted_tool (kind : HostedToolKind) : ModelCapabilities → ModelCapabilities :=
  match kind with WebSearch => cap_set CAP_HOSTED_WEB_SEARCH end.
Definition with_final_json_object : ModelCapabilities → ModelCapabilities :=
  cap_set CAP_FINAL_JSON_OBJECT.
Definition with_final_json_schema : ModelCapabilities → ModelCapabilities :=
  cap_set CAP_FINAL_JSON_SCHEMA.
Definition with_final_json_schema_with_tools : ModelCapabilities → ModelCapabilities :=
  cap_set (N.lor CAP_FINAL_JSON_SCHEMA CAP_FINAL_JSON_SCHEMA_WITH_TOOLS).

Definition accepts_images : ModelCapabilities → bool := cap_has CAP_IMAGE_INPUT.
Definition supports_reasoning : ModelCapabilities → bool := cap_has CAP_REASONING.
Definition supports_tools : ModelCapabilities → bool := cap_has CAP_TOOLS.
Definition supports_parallel_tool_calls : ModelCapabilities → bool := cap_has CAP_PARALLEL_TOOLS.
Definition reports_usage : ModelCapabilities → bool := cap_has CAP_USAGE.
Definition supports_hosted_tool (c : ModelCapabilities) (kind : HostedToolKind) : bool :=
  match kind with WebSearch => cap_has CAP_HOSTED_WEB_SEARCH c end.
Definition supports_final_json_object : ModelCapabilities → bool := cap_has CAP_FINAL_JSON_OBJECT.
Definition supports_final_json_schema : ModelCapabilities → bool := cap_has CAP_FINAL_JSON_SCHEMA.
Definition supports_final_json_schema_with_tools : ModelCapabilities → bool :=
  cap_has CAP_FINAL_JSON_SCHEMA_WITH_TOOLS.

(** ** Reasoning profiles ([spec.rs], [reasoning.rs]) *)

(** The derived order of [ReasoningEffort]. *)
Definition effort_rank (e : ReasoningEffort) : nat :=
  match e with
  | EffortOff => 0 | EffortMinimal => 1 | EffortLow => 2 | EffortMedium => 3
  | EffortHigh => 4 | EffortExtraHigh => 5 | EffortMaximum => 6
  end.
Definition effort_leb (a b : ReasoningEffort) : bool := (effort_rank a <=? effort_rank b)%nat.
Definition effort_ltb (a b : ReasoningEffort) : bool := (effort_rank a <? effort_rank b)%nat.

Definition SHORTCUT_LEVELS : list ReasoningEffort :=
  [EffortOff; EffortMinimal; EffortLow; EffortMedium; EffortHigh].

Inductive ModelSpecError : Set :=
| EmptyContextWindow | EmptyOutputLimit | OutputExceedsContext | EmptyReasoningEfforts
| DuplicateReasoningEffort | ReasoningDefaultUnsupported.

Record ReasoningProfile : Set := mk_ReasoningProfile {
  rp_default_effort : ReasoningEffort;
  rp_supported_efforts : list ReasoningEffort
}.

(** [windows(2).any(|levels| levels[0] == levels[1])]. *)
Fixpoint has_equal_window (l : list ReasoningEffort) : bool :=
  match l with
  | a :: (b :: _) as rest => bool_decide (a = b) || has_equal_window rest
  | _ => false
  end.

Definition profile_new (default_effort : ReasoningEffort) (supported : list ReasoningEffort)
    : Result ModelSpecError ReasoningProfile :=
  try? ensure (negb (length supported =? 0)%nat) EmptyReasoningEfforts in
  let supported := stable_sort effort_leb supported in
  try? ensure (negb (has_equal_window supported)) DuplicateReasoningEffort in
  try? ensure (bool_decide (default_effort ∈ supported)) ReasoningDefaultUnsupported in
  Ok (mk_ReasoningProfile default_effort supported).

Definition compatible_default : ReasoningProfile :=
  mk_ReasoningProfile EffortMedium SHORTCUT_LEVELS.

Record ReasoningResolution : Set := mk_ReasoningResolution {
  rr_requested : ReasoningEffort;
  rr_effective : ReasoningEffort
}.

Definition profile_resolve (p : ReasoningProfile) (requested : ReasoningEffort)
    : ReasoningResolution :=
  let effective :=
    if bool_decide (requested ∈ rp_supported_efforts p) then requested
    else match List.find (λ candidate, effort_ltb requested candidate) (rp_supported_efforts p) with
         | Some candidate => candidate
         | None =>
             match List.find (λ candidate, effort_ltb candidate requested)
                     (reverse (rp_supported_efforts p)) with
             | Some candidate => candidate
             | None => rp_default_effort p
             end
         end in
  mk_ReasoningResolution requested effective.

Definition was_clamped (r : ReasoningResolution) : bool :=
  negb (bool_decide (rr_requested r = rr_effective r)).

(** ** Specifications ([spec.rs]) *)

Record ModelSpec : Set := mk_ModelSpec {
  ms_model_ref : ModelRef;
  ms_display_name : ModelDisplayName;
  ms_context_window_tokens : TokenCount;
  ms_max_output_tokens : TokenCount;
  ms_capabilities : ModelCapabilities;
  ms_reasoning_profile : option ReasoningProfile
}.

Definition model_id_of (m : ModelSpec) : ModelId := mr_model_id (ms_model_ref m).
Definition provider_id_of (m : ModelSpec) : ProviderId := mr_provider_id (ms_model_ref m).

Definition model_spec_new (model_id : ModelId) (provider_id : ProviderId)
    (display_name : ModelDisplayName) (context_window_tokens max_output_tokens : TokenCount)
    (capabilities : ModelCapabilities) : Result ModelSpecError ModelSpec :=
  try? ensure (negb (tok_get context_window_tokens =? 0)%N) EmptyContextWindow in
  try? ensure (negb (tok_get max_output_tokens =? 0)%N) EmptyOutputLimit in
  try? ensure (tok_get max_output_tokens <=? tok_get context_window_tokens)%N
         OutputExceedsContext in
  Ok (mk_ModelSpec (mk_ModelRef provider_id model_id) display_name context_window_tokens
        max_output_tokens capabilities
        (if supports_reasoning capabilities then Some compatible_default else None)).

Definition with_reasoning_profile (m : ModelSpec) (profile : ReasoningProfile) : ModelSpec :=
  mk_ModelSpec (ms_model_ref m) (ms_display_name m) (ms_context_window_tokens m)
    (ms_max_output_tokens m) (with_reasoning_cap (ms_capabilities m)) (Some profile).

Definition resolve_reasoning (m : ModelSpec) (requested : option ReasoningEffort)
    : option ReasoningResolution :=
  match ms_reasoning_profile m, requested with
  | Some profile, Some requested => Some (profile_resolve profile requested)
  | Some profile, None => Some (profile_resolve profile (rp_default_effort profile))
  | None, Some requested => Some (mk_ReasoningResolution requested EffortOff)
  | None, None => None
  end.

(** ** Requests ([request.rs]) *)

Definition MAX_SYSTEM_PROMPT_BYTES : N := 1048576.
Definition MAX_REQUEST_MESSAGES : nat := 4096.
Definition MAX_MODEL_TOOLS : nat := 256.
Definition MAX_TOOL_DESCRIPTION_BYTES : N := 16384.
Definition MAX_TOOL_SCHEMA_BYTES : N := 262144.
Definition MAX_TOOL_SCHEMA_DEPTH : nat := 32.

Record ReasoningOptions : Set := mk_ReasoningOptions {
  ro_effort : ReasoningEffort;
  ro_budget_tokens : option TokenCount
}.

Record FunctionToolDefinition : Set := mk_FunctionToolDefinition {
  fd_name : string;
  fd_description : string;
  fd_input_schema : Value
}.

Record HostedToolDefinition : Set := mk_HostedToolDefinition {
  hd_name : string;
  hd_description : string;
  hd_input_schema : Value;
  hd_options : HostedToolOptions
}.

Inductive ModelToolDefinition : Set :=
| FunctionTool (tool : FunctionToolDefinition)
| HostedToolDef (tool : HostedToolDefinition).

Definition definition_name (d : ModelToolDefinition) : string :=
  match d with FunctionTool tool => fd_name tool | HostedToolDef tool => hd_name tool end.
Definition definition_description (d : ModelToolDefinition) : string :=
  match d with FunctionTool t => fd_description t | HostedToolDef t => hd_description t end.
Definition definition_schema (d : ModelToolDefinition) : Value :=
  match d with FunctionTool t => fd_input_schema t | HostedToolDef t => hd_input_schema t end.
Definition is_function (d : ModelToolDefinition) : bool :=
  match d with FunctionTool _ => true | HostedToolDef _ => false end.
Definition hosted_kind (d : ModelToolDefinition) : option HostedToolKind :=
  match d with FunctionTool _ => None | HostedToolDef t => Some (options_kind (hd_options t)) end.

Record ModelRequest : Set := mk_ModelRequest {
  mq_model_id : ModelId;
  mq_system_prompt : option string;
  mq_messages : list CanonicalMessage;
  mq_tools : list ModelToolDefinition;
  mq_allow_parallel_tool_calls : bool;
  mq_reasoning : option ReasoningOptions;
  mq_final_output_format : option FinalOutputFormat;
  mq_max_output_tokens : option TokenCount;
  mq_metadata : ProtocolMetadata
}.

Definition request_tool_name_ok (value : string) : Result ModelRequestError unit :=
  ensure ((str_len value <=? 128)%N
          && head_and_all is_ascii_lowercase (λ b, lower_or_digit b || name_punctuation b) value)
    RequestInvalidToolName.

Definition message_content (m : CanonicalMessage) : list ContentBlock :=
  match m with
  | User _ content _ | Assistant _ content _ _ | ToolResult _ _ _ content _ _ _ => content
  end.

Definition request_contains_image (messages : list CanonicalMessage) : bool :=
  existsb (λ m, existsb (λ block, match block with Image _ _ => true | _ => false end)
                  (message_content m)) messages.

(** [iter().any(|tool| !names.insert(tool.name()))]. *)
Fixpoint has_duplicate (seen : gset string) (names : list string) : bool :=
  match names with
  | [] => false
  | name :: rest => bool_decide (name ∈ seen) || has_duplicate ({[name]} ∪ seen) rest
  end.

Definition with_system_prompt (q : ModelRequest) (prompt : string)
    : Result ModelRequestError ModelRequest :=
  try? ensure (bounded_text prompt MAX_SYSTEM_PROMPT_BYTES) RequestInvalidSystemPrompt in
  Ok (mk_ModelRequest (mq_model_id q) (Some prompt) (mq_messages q) (mq_tools q)
        (mq_allow_parallel_tool_calls q) (mq_reasoning q) (mq_final_output_format q)
        (mq_max_output_tokens q) (mq_metadata q)).

Definition with_tools (q : ModelRequest) (tools : list ModelToolDefinition) (parallel : bool)
    : Result ModelRequestError ModelRequest :=
  try? ensure (length tools <=? MAX_MODEL_TOOLS)%nat RequestTooManyTools in
  try? ensure (negb (has_duplicate ∅ (definition_name <$> tools))) RequestDuplicateToolName in
  Ok (mk_ModelRequest (mq_model_id q) (mq_system_prompt q) (mq_messages q) tools parallel
        (mq_reasoning q) (mq_final_output_format q) (mq_max_output_tokens q) (mq_metadata q)).

Definition with_reasoning_options (q : ModelRequest) (reasoning : ReasoningOptions)
    : ModelRequest :=
  mk_ModelRequest (mq_model_id q) (mq_system_prompt q) (mq_messages q) (mq_tools q)
    (mq_allow_parallel_tool_calls q) (Some reasoning) (mq_final_output_format q)
    (mq_max_output_tokens q) (mq_metadata q).
Definition with_request_format (q : ModelRequest) (format : FinalOutputFormat) : ModelRequest :=
  mk_ModelRequest (mq_model_id q) (mq_system_prompt q) (mq_messages q) (mq_tools q)
    (mq_allow_parallel_tool_calls q) (mq_reasoning q) (Some format) (mq_max_output_tokens q)
    (mq_metadata q).
Definition with_max_output_tokens (q : ModelRequest) (limit : TokenCount) : ModelRequest :=
  mk_ModelRequest (mq_model_id q) (mq_system_prompt q) (mq_messages q) (mq_tools q)
    (mq_allow_parallel_tool_calls q) (mq_reasoning q) (mq_final_output_format q) (Some limit)
    (mq_metadata q).
Definition with_metadata (q : ModelRequest) (metadata : ProtocolMetadata) : ModelRequest :=
  mk_ModelRequest (mq_model_id q) (mq_system_prompt q) (mq_messages q) (mq_tools q)
    (mq_allow_parallel_tool_calls q) (mq_reasoning q) (mq_final_output_format q)
    (mq_max_output_tokens q) metadata.

Section codec.
Context `{Codec, SchemaEngine}.

Definition validate_schema_bounds (value : Value) : Result ModelRequestError unit :=
  let? len := ok_or (json_len value) RequestToolSchemaOutOfBounds in
  ensure ((len <=? MAX_TOOL_SCHEMA_BYTES)%N && (json_depth value <=? MAX_TOOL_SCHEMA_DEPTH)%nat)
    RequestToolSchemaOutOfBounds.

Definition validate_tool_contract (name description : string) (input_schema : Value)
    : Result ModelRequestError unit :=
  try? request_tool_name_ok name in
  try? ensure (bounded_text description MAX_TOOL_DESCRIPTION_BYTES)
         RequestInvalidToolDescription in
  try? ensure (is_object input_schema) RequestToolSchemaMustBeObject in
  try? ensure (bool_decide (json_get input_schema "type" ≫= json_as_str = Some "object"%string))
         RequestToolSchemaMustDeclareObject in
  validate_schema_bounds input_schema.

(** [ModelToolDefinition::new] and [hosted]. *)
Definition tool_definition_new (name description : string) (input_schema : Value)
    : Result ModelRequestError ModelToolDefinition :=
  try? validate_tool_contract name description input_schema in
  Ok (FunctionTool (mk_FunctionToolDefinition name description input_schema)).
Definition hosted_tool_definition (description : string) (input_schema : Value)
    (options : HostedToolOptions) : Result ModelRequestError ModelToolDefinition :=
  let name := kind_name (options_kind options) in
  try? validate_tool_contract name description input_schema in
  Ok (HostedToolDef (mk_HostedToolDefinition name description input_schema options)).

Definition validate_messages (messages : list CanonicalMessage) : Result ModelRequestError unit :=
  try? ensure (negb (length messages =? 0)%nat) RequestEmptyMessages in
  try? ensure (length messages <=? MAX_REQUEST_MESSAGES)%nat RequestTooManyMessages in
  ensure (forallb (λ m, is_ok (message_validate m)) messages) RequestInvalidMessage.

Definition model_request_new (model_id : ModelId) (messages : list CanonicalMessage)
    : Result ModelRequestError ModelRequest :=
  try? validate_messages messages in
  Ok (mk_ModelRequest model_id None messages [] false None None None ∅).

Definition check_format_support (q : ModelRequest) (c : ModelCapabilities)
    : Result ModelRequestError unit :=
  match mq_final_output_format q with
  | Some FormatJsonObject =>
      ensure (supports_final_json_object c) RequestFinalJsonObjectUnsupported
  | Some (FormatJsonSchema _) =>
      try? ensure (supports_final_json_schema c) RequestFinalJsonSchemaUnsupported in
      ensure (bool_decide (mq_tools q = []) || supports_final_json_schema_with_tools c)
        RequestFinalJsonSchemaWithToolsUnsupported
  | None => Ok tt
  end.

(** [ModelRequest::validate_for]. *)
Definition validate_for (q : ModelRequest) (m : ModelSpec) : Result ModelRequestError unit :=
  let c := ms_capabilities m in
  try? ensure (bool_decide (mq_model_id q = model_id_of m)) RequestModelMismatch in
  try? validate_messages (mq_messages q) in
  try? ensure (match mq_final_output_format q with
               | Some format => is_ok (final_output_validate format)
               | None => true
               end) RequestInvalidFinalOutputFormat in
  try? ensure (negb (request_contains_image (mq_messages q)) || accepts_images c)
         RequestImageInputUnsupported in
  try? match mq_reasoning q with
       | Some reasoning =>
           let? profile := ok_or (ms_reasoning_profile m) RequestReasoningUnsupported in
           ensure (bool_decide (ro_effort reasoning ∈ rp_supported_efforts profile))
             RequestReasoningEffortUnsupported
       | None => Ok tt
       end in
  try? ensure (negb (existsb is_function (mq_tools q)) || supports_tools c)
         RequestToolsUnsupported in
  try? ensure (forallb (λ tool, match hosted_kind tool with
                                | Some kind => supports_hosted_tool c kind
                                | None => true
                                end) (mq_tools q)) RequestHostedToolUnsupported in
  try? ensure (negb (mq_allow_parallel_tool_calls q && existsb is_function (mq_tools q))
               || supports_parallel_tool_calls c) RequestParallelToolsUnsupported in
  try? check_format_support q c in
  let output_limit := default (ms_max_output_tokens m) (mq_max_output_tokens q) in
  try? ensure (negb (tok_get output_limit =? 0)%N
               && (tok_get output_limit <=? tok_get (ms_max_output_tokens m))%N)
         RequestOutputLimitUnsupported in
  ensure (match mq_reasoning q ≫= ro_budget_tokens with
          | Some budget =>
              negb (tok_get budget =? 0)%N && (tok_get budget <=? tok_get output_limit)%N
          | None => true
          end) RequestReasoningBudgetUnsupported.
End codec.

(** ** Resolving a reasoning effort *)

Lemma effort_leb_total a b : effort_leb a b = false → effort_leb b a = true.
Proof. unfold effort_leb. rewrite Nat.leb_gt, Nat.leb_le. lia. Qed.

Lemma sorted_efforts_strong l : Sorted effort_leb l → StronglySorted effort_leb l.
Proof.
  apply Sorted_StronglySorted. intros a b c. unfold effort_leb.
  rewrite !Is_true_true, !Nat.leb_le. lia.
Qed.

Lemma find_least (f : ReasoningEffort → bool) l x y :
  StronglySorted effort_leb l → List.find f l = Some x → y ∈ l → f y = true →
  effort_rank x ≤ effort_rank y.
Proof.
  induction 1 as [|z l _ IH Hz]; simpl; [done|]. destruct (f z) eqn:Hfz.
  - intros [= <-] [->|Hy]%elem_of_cons _; [done|].
    apply (proj1 (Forall_forall _ _) Hz) in Hy. unfold effort_leb in Hy.
    by apply Is_true_true, Nat.leb_le in Hy.
  - intros Hf [->|Hy]%elem_of_cons Hfy; [congruence|by apply IH].
Qed.

Lemma find_greatest (f : ReasoningEffort → bool) l x y :
  StronglySorted effort_leb l → List.find f (reverse l) = Some x → y ∈ l → f y = true →
  effort_rank y ≤ effort_rank x.
Proof.
  induction 1 as [|z l _ IH Hz]; [done|]. rewrite reverse_cons, find_app.
  destruct (List.find f (reverse l)) as [x'|] eqn:Hf.
  - intros [= ->] [->|Hy]%elem_of_cons Hfy; [|by apply IH].
    apply List.find_some in Hf as [Hx _]. apply list_elem_of_In in Hx.
    rewrite elem_of_reverse in Hx. apply (proj1 (Forall_forall _ _) Hz) in Hx.
    unfold effort_leb in Hx. by apply Is_true_true, Nat.leb_le in Hx.
  - simpl. destruct (f z) eqn:Hfz; [|done]. intros [= <-] [->|Hy]%elem_of_cons Hfy; [done|].
    pose proof (List.find_none _ _ Hf y) as Hn. rewrite <- list_elem_of_In, elem_of_reverse in Hn.
    by rewrite Hn in Hfy.
Qed.

Lemma effort_rank_inj a b : effort_rank a = effort_rank b → a = b.
Proof. by destruct a, b. Qed.

(** a reasoning profile clamps upward first.  A supported effort is used
    as it is; otherwise the least supported effort above it is used, and when
    there is none, the greatest supported effort. *)
Theorem resolve_clamps default_effort supported p requested :
  profile_new default_effort supported = Ok p →
  let e := rr_effective (profile_resolve p requested) in
  e ∈ supported ∧
  (requested ∈ supported → e = requested) ∧
  (requested ∉ supported →
   (∃ c, c ∈ supported ∧ effort_rank requested < effort_rank c) →
   effort_rank requested < effort_rank e ∧
   ∀ c, c ∈ supported → effort_rank requested < effort_rank c → effort_rank e ≤ effort_rank c) ∧
  (requested ∉ supported →
   (∀ c, c ∈ supported → effort_rank c ≤ effort_rank requested) →
   ∀ c, c ∈ supported → effort_rank c ≤ effort_rank e).
Proof.
  unfold profile_new. intros (u & Hne%ensure_ok & Hp)%result_bind_ok.
  apply result_bind_ok in Hp as (u' & _ & Hp). apply result_bind_ok in Hp as (u'' & _ & [= <-]).
  set (l := stable_sort effort_leb supported).
  assert (StronglySorted effort_leb l) as Hs.
  { apply sorted_efforts_strong, stable_sort_sorted, effort_leb_total. }
  assert (∀ c, c ∈ l ↔ c ∈ supported) as Hl by (intros c; apply elem_of_stable_sort).
  setoid_rewrite <- Hl. unfold profile_resolve. simpl. fold l.
  case_bool_decide as Hin; [by split_and!|].
  destruct (List.find (effort_ltb requested) l) as [x|] eqn:Hf.
  - pose proof Hf as [Hx Hlt]%List.find_some. apply list_elem_of_In in Hx.
    apply Nat.ltb_lt in Hlt. split_and!; [done|done|intros _ _|intros _ Hall].
    + split; [done|]. intros c Hc Hrc. eapply find_least; [done|done|done|by apply Nat.ltb_lt].
    + apply Hall in Hx. lia.
  - assert (∀ c, c ∈ l → effort_rank c < effort_rank requested) as Hall.
    { intros c Hc. pose proof (List.find_none _ _ Hf c (proj1 (list_elem_of_In _ _) Hc)) as Hn.
      apply Nat.ltb_ge in Hn. destruct (decide (effort_rank c = effort_rank requested)) as [He|];
        [|lia]. apply effort_rank_inj in He as ->. done. }
    destruct (List.find (λ c, effort_ltb c requested) (reverse l)) as [x|] eqn:Hg.
    + pose proof Hg as [Hx _]%List.find_some. apply list_elem_of_In in Hx.
      rewrite elem_of_reverse in Hx. split_and!; [done|done| |].
      * intros _ (c & Hc & Hr). apply Hall in Hc. lia.
      * intros _ _ c Hc. eapply find_greatest; [done|done|done|]. by apply Nat.ltb_lt, Hall.
    + exfalso. destruct supported as [|c supported]; [done|].
      assert (c ∈ l) as Hc by (apply Hl; left).
      pose proof (List.find_none _ _ Hg c) as Hn.
      rewrite <- list_elem_of_In, elem_of_reverse in Hn. specialize (Hn Hc).
      apply Nat.ltb_ge in Hn. apply Hall in Hc. lia.
Qed.

Lemma resolve_clamps_witness :
  profile_new EffortLow [EffortHigh; EffortLow] = Ok (mk_ReasoningProfile EffortLow [EffortLow; EffortHigh]) ∧
  rr_effective (profile_resolve (mk_ReasoningProfile EffortLow [EffortLow; EffortHigh]) EffortMedium)
    ∈ [EffortHigh; EffortLow].
Proof.
  assert (profile_new EffortLow [EffortHigh; EffortLow]
          = Ok (mk_ReasoningProfile EffortLow [EffortLow; EffortHigh])) as Hp by reflexivity.
  split; [done|]. apply (resolve_clamps EffortLow [EffortHigh; EffortLow] _ EffortMedium Hp).
Defined.
