(* ===== verification/ContextData.v ===== *)
(** * Prompt context: data and budgets

    [crates/tea-context]: bounded errors ([error.rs]), canonical identities
    ([identity.rs]), provenance ([provenance.rs]), segments ([segment.rs]),
    modules ([module.rs]), budgets ([budget.rs]), diagnostics ([diagnostic.rs]),
    inspection rows ([inspection.rs]) and skills ([skill.rs]).  [usize] is 64
    bits. *)

From S2P Require Import Prelude Usage.
Local Open Scope tea_scope.

(** ** Errors ([error.rs]) *)

Inductive ContextErrorCode : Set :=
| ContextInvalidValue | ContextBoundsExceeded | ContextDuplicateIdentity
| ContextAmbiguousConflict | ContextBudgetExceeded | ContextProviderFailure.

Record ContextError : Set := mk_ContextError {
  ce_code : ContextErrorCode;
  ce_message : string
}.

#[export] Instance ContextErrorCode_eq_dec : EqDecision ContextErrorCode.
Proof. solve_decision. Defined.
#[export] Instance ContextError_eq_dec : EqDecision ContextError.
Proof. solve_decision. Defined.

(** [ContextError::new]. *)
Definition context_error (code : ContextErrorCode) (message : string) : ContextError :=
  let message := if String.eqb message "" then "context operation failed"%string else message in
  mk_ContextError code (truncate_utf8 (retain_non_nul message) 4096).

(** [map_err(value_error)]: the text of an error becomes an invalid value. *)
Definition value_error {E A} (text : E → string) (r : Result E A) : Result ContextError A :=
  map_err (λ e, context_error ContextInvalidValue (text e)) r.

(** ** Identities ([identity.rs], macro [context_id!]) *)

Inductive context_id_kind : Set := KModule | KSegment | KContextProvider | KConflict | KSkill.

Record context_id (k : context_id_kind) : Set := mk_context_id { cid_str : string }.
Arguments mk_context_id {k} cid_str.
Arguments cid_str {k} c.

Notation PromptModuleId := (context_id KModule).
Notation PromptSegmentId := (context_id KSegment).
Notation ContextProviderId := (context_id KContextProvider).
Notation ConflictKey := (context_id KConflict).
Notation SkillId := (context_id KSkill).

#[export] Instance context_id_eq_dec k : EqDecision (context_id k).
Proof. solve_decision. Defined.
#[export] Program Instance context_id_countable k : Countable (context_id k) :=
  inj_countable' cid_str mk_context_id _.
Next Obligation. by intros k []. Qed.

Inductive ContextIdentityError : Set := NotCanonicalIdentity.

Definition identity_error_text (e : ContextIdentityError) : string :=
  "context identifier is not canonical".

Definition identity_byte (b : N) : bool :=
  is_ascii_lowercase b || is_ascii_digit b
  || (b =? 95)%N || (b =? 45)%N || (b =? 46)%N || (b =? 47)%N.

Definition validate_id (value : string) : Result ContextIdentityError unit :=
  ensure (negb ((128 <? str_len value)%N || contains_dot_dot (bytes value)
                || negb (head_and_all is_ascii_lowercase identity_byte value)))
    NotCanonicalIdentity.

(** [FromStr]. *)
Definition parse_context_id {k} (value : string) : Result ContextIdentityError (context_id k) :=
  try? validate_id value in Ok (mk_context_id value).

(** The derived [Ord]. *)
Definition cid_compare {k} (a b : context_id k) : comparison :=
  String.compare (cid_str a) (cid_str b).

(** ** Provenance ([provenance.rs]) *)

Inductive PromptAuthority : Set :=
| AuthorityKernel | AuthorityOrganization | AuthorityProduct | AuthorityWorkspace
| AuthorityTool | AuthoritySkill | AuthoritySession | AuthorityUserAddition.

(** The derived [Ord]: the order of the variants. *)
Definition authority_index (a : PromptAuthority) : N :=
  match a with
  | AuthorityKernel => 0 | AuthorityOrganization => 1 | AuthorityProduct => 2
  | AuthorityWorkspace => 3 | AuthorityTool => 4 | AuthoritySkill => 5
  | AuthoritySession => 6 | AuthorityUserAddition => 7
  end.

Inductive TrustLevel : Set := Trusted | Delegated | Untrusted.
Inductive CacheScope : Set := CacheNone | CacheRun | CacheSession | CacheProfile | CacheGlobal.

Record PromptProvenance : Set := mk_PromptProvenance {
  pp_provider_id : ContextProviderId;
  pp_source_kind : string;
  pp_locator : option string
}.

Inductive ProvenanceError : Set := InvalidProvenance.

Definition provenance_error_text (e : ProvenanceError) : string := "prompt provenance is invalid".

Definition valid_source_kind (value : string) : bool :=
  (str_len value <=? 128)%N
  && head_and_all is_ascii_lowercase
       (λ b, is_ascii_lowercase b || is_ascii_digit b || (b =? 95)%N) value.

(** The condition [PromptProvenance::new] and [WorkspaceInstruction::new] refuse. *)
Definition bad_locator (value : string) : bool :=
  String.eqb value "" || (2048 <? str_len value)%N || has_control (bytes value).

Definition provenance_new (provider_id : ContextProviderId) (source_kind : string)
    (locator : option string) : Result ProvenanceError PromptProvenance :=
  if negb (valid_source_kind source_kind)
     || match locator with Some value => bad_locator value | None => false end
  then Err InvalidProvenance
  else Ok (mk_PromptProvenance provider_id source_kind locator).

#[export] Instance PromptAuthority_eq_dec : EqDecision PromptAuthority.
Proof. solve_decision. Defined.
#[export] Instance TrustLevel_eq_dec : EqDecision TrustLevel.
Proof. solve_decision. Defined.
#[export] Instance CacheScope_eq_dec : EqDecision CacheScope.
Proof. solve_decision. Defined.
#[export] Instance PromptProvenance_eq_dec : EqDecision PromptProvenance.
Proof. solve_decision. Defined.

(** ** Segments ([segment.rs]) *)

Definition MAX_SEGMENT_BYTES : N := 1048576.

Inductive BudgetBehavior : Set := BudgetRequired | BudgetTruncate | BudgetOmit.
Inductive ConflictMode : Set := ConflictProtected | ConflictReplaceable.

Record ConflictClaim : Set := mk_ConflictClaim {
  cc_key : ConflictKey;
  cc_mode : ConflictMode
}.

Record PromptSegment : Set := mk_PromptSegment {
  sg_id : PromptSegmentId;
  sg_content : string;
  sg_provenance : PromptProvenance;
  sg_trust : TrustLevel;
  sg_cache_scope : CacheScope;
  sg_conflict : option ConflictClaim;
  sg_budget_behavior : BudgetBehavior
}.

#[export] Instance BudgetBehavior_eq_dec : EqDecision BudgetBehavior.
Proof. solve_decision. Defined.
#[export] Instance ConflictMode_eq_dec : EqDecision ConflictMode.
Proof. solve_decision. Defined.
#[export] Instance ConflictClaim_eq_dec : EqDecision ConflictClaim.
Proof. solve_decision. Defined.
#[export] Instance PromptSegment_eq_dec : EqDecision PromptSegment.
Proof. solve_decision. Defined.

Inductive SegmentError : Set := InvalidSegment.

Definition segment_error_text (e : SegmentError) : string := "prompt segment content is invalid".

Definition validate_segment_content (content : string) : Result SegmentError unit :=
  if String.eqb content "" || (MAX_SEGMENT_BYTES <? str_len content)%N || contains_nul content
  then Err InvalidSegment else Ok tt.

Definition segment_new (id : PromptSegmentId) (content : string) (provenance : PromptProvenance)
    (trust : TrustLevel) (cache_scope : CacheScope) (budget_behavior : BudgetBehavior)
    : Result SegmentError PromptSegment :=
  try? validate_segment_content content in
  Ok (mk_PromptSegment id content provenance trust cache_scope None budget_behavior).

Definition with_conflict (s : PromptSegment) (conflict : ConflictClaim) : PromptSegment :=
  mk_PromptSegment (sg_id s) (sg_content s) (sg_provenance s) (sg_trust s) (sg_cache_scope s)
    (Some conflict) (sg_budget_behavior s).

(** ** Modules ([module.rs]) *)

Definition MAX_MODULE_SEGMENTS : N := 256.

(** An [i16]. *)
Record PromptPriority : Set := mk_PromptPriority { pr_get : Z }.

Record PromptModule : Set := mk_PromptModule {
  md_id : PromptModuleId;
  md_authority : PromptAuthority;
  md_priority : PromptPriority;
  md_segments : list PromptSegment
}.

#[export] Instance PromptPriority_eq_dec : EqDecision PromptPriority.
Proof. solve_decision. Defined.
#[export] Instance PromptModule_eq_dec : EqDecision PromptModule.
Proof. solve_decision. Defined.

Inductive ModuleError : Set := InvalidSegmentCount | DuplicateSegmentId.

Definition module_error_text (e : ModuleError) : string :=
  match e with
  | InvalidSegmentCount => "prompt module segment count is invalid"
  | DuplicateSegmentId => "prompt module contains a duplicate segment ID"
  end.

(** [segments.iter().any(|segment| !ids.insert(segment.id()))]. *)
Fixpoint repeats_segment (ids : gset PromptSegmentId) (segments : list PromptSegment) : bool :=
  match segments with
  | [] => false
  | s :: rest => bool_decide (sg_id s ∈ ids) || repeats_segment ({[sg_id s]} ∪ ids) rest
  end.

Definition module_new (id : PromptModuleId) (authority : PromptAuthority)
    (priority : PromptPriority) (segments : list PromptSegment)
    : Result ModuleError PromptModule :=
  let count := N.of_nat (length segments) in
  if (count =? 0)%N || (MAX_MODULE_SEGMENTS <? count)%N then Err InvalidSegmentCount
  else if repeats_segment ∅ segments then Err DuplicateSegmentId
  else Ok (mk_PromptModule id authority priority segments).

(** ** Budgets ([budget.rs]) *)

(** A line feed. *)
Definition LF : string := String (Ascii.ascii_of_N 10) "".

Definition PROMPT_SEPARATOR : string := LF ++ LF.
Definition TRUNCATION_MARKER : string := "[truncated]".

Record PromptBudget : Set := mk_PromptBudget {
  max_bytes : N;
  max_estimated_tokens : N
}.

Definition prompt_budget_new (max_bytes max_estimated_tokens : N)
    : Result ContextError PromptBudget :=
  if (max_bytes =? 0)%N || (16 * 1024 * 1024 <? max_bytes)%N
     || (max_estimated_tokens =? 0)%N || (MAX_SAFE_INTEGER <? max_estimated_tokens)%N
  then Err (context_error ContextInvalidValue "prompt budget is invalid")
  else Ok (mk_PromptBudget max_bytes max_estimated_tokens).

Definition saturating_mul (a b : N) : N := N.min (a * b) U64_MAX.

Definition estimate_tokens (bytes : N) : N := (saturating_add bytes 2 / 3)%N.

(** [saturating_sub] is the subtraction of [N]. *)
Definition effective_remaining_bytes (budget : PromptBudget) (used_bytes : N) : N :=
  let byte_remaining := (max_bytes budget - used_bytes)%N in
  let token_capacity := (saturating_mul (max_estimated_tokens budget) 3 - used_bytes)%N in
  N.min byte_remaining token_capacity.

Definition truncate (content : string) (maximum : N) : option string :=
  if (maximum <? str_len TRUNCATION_MARKER)%N then None
  else
    let content_limit := (maximum - str_len TRUNCATION_MARKER)%N in
    let boundary := floor_boundary (bytes content)
                      (N.to_nat (N.min content_limit (str_len content))) in
    Some (String.substring 0 boundary content ++ TRUNCATION_MARKER)%string.

(** ** Diagnostics ([diagnostic.rs]) *)

Inductive PromptDiagnosticCode : Set :=
| ExactDuplicate | DiagnosticConflictShadowed | ProtectedConflict
| DiagnosticOmittedForBudget | TruncatedForBudget.

(** The derived [Ord]. *)
Definition diagnostic_code_index (c : PromptDiagnosticCode) : N :=
  match c with
  | ExactDuplicate => 0 | DiagnosticConflictShadowed => 1 | ProtectedConflict => 2
  | DiagnosticOmittedForBudget => 3 | TruncatedForBudget => 4
  end.

Record PromptDiagnostic : Set := mk_PromptDiagnostic {
  dg_code : PromptDiagnosticCode;
  dg_segment_id : PromptSegmentId;
  dg_winner_id : option PromptSegmentId;
  dg_conflict_key : option ConflictKey
}.

(** ** Inspection ([inspection.rs]) *)

Inductive SegmentDisposition : Set :=
| Included | Truncated | DuplicateSegment | ConflictShadowed | OmittedForBudget.

Record PromptInspectionEntry : Set := mk_PromptInspectionEntry {
  pe_module_id : PromptModuleId;
  pe_segment_id : PromptSegmentId;
  pe_authority : PromptAuthority;
  pe_provenance : PromptProvenance;
  pe_trust : TrustLevel;
  pe_cache_scope : CacheScope;
  pe_disposition : SegmentDisposition;
  pe_byte_range : option (N * N);
  pe_rendered_bytes : N;
  pe_estimated_tokens : N
}.

Record PromptInspectionSegment : Set := mk_PromptInspectionSegment {
  ps_module_id : PromptModuleId;
  ps_segment_id : PromptSegmentId;
  ps_authority : PromptAuthority;
  ps_provenance : PromptProvenance;
  ps_trust : TrustLevel;
  ps_cache_scope : CacheScope;
  ps_disposition : SegmentDisposition;
  ps_rendered_bytes : N;
  ps_estimated_tokens : N
}.

Definition from_entry (e : PromptInspectionEntry) : PromptInspectionSegment :=
  mk_PromptInspectionSegment (pe_module_id e) (pe_segment_id e) (pe_authority e)
    (pe_provenance e) (pe_trust e) (pe_cache_scope e) (pe_disposition e) (pe_rendered_bytes e)
    (pe_estimated_tokens e).

Record PromptInspection : Set := mk_PromptInspection {
  pi_rendered_bytes : N;
  pi_estimated_tokens : N;
  pi_segments : list PromptInspectionSegment;
  pi_diagnostics : list PromptDiagnostic
}.

Definition prompt_inspection_new (rendered_bytes estimated_tokens : N)
    (entries : list PromptInspectionEntry) (diagnostics : list PromptDiagnostic)
    : PromptInspection :=
  mk_PromptInspection rendered_bytes estimated_tokens (from_entry <$> entries) diagnostics.

#[export] Instance PromptDiagnosticCode_eq_dec : EqDecision PromptDiagnosticCode.
Proof. solve_decision. Defined.
#[export] Instance PromptDiagnostic_eq_dec : EqDecision PromptDiagnostic.
Proof. solve_decision. Defined.
#[export] Instance SegmentDisposition_eq_dec : EqDecision SegmentDisposition.
Proof. solve_decision. Defined.
#[export] Instance PromptInspectionEntry_eq_dec : EqDecision PromptInspectionEntry.
Proof. solve_decision. Defined.

(** ** Skills ([skill.rs]) *)

Definition MAX_SKILL_DESCRIPTION_BYTES : N := 4096.
Definition MAX_SKILL_ARGUMENT_BYTES : N := 16384.

Inductive SkillError : Set :=
| InvalidSkillDescription | InvalidSkillInvocation | InvalidSkillCommand | InvalidSkillArguments.

Record SkillMetadata : Set := mk_SkillMetadata {
  sk_id : SkillId;
  sk_description : string
}.

Definition skill_metadata_new (id : SkillId) (description : string)
    : Result SkillError SkillMetadata :=
  if String.eqb description "" || (MAX_SKILL_DESCRIPTION_BYTES <? str_len description)%N
     || contains_nul description
  then Err InvalidSkillDescription
  else Ok (mk_SkillMetadata id description).

Record SkillInvocation : Set := mk_SkillInvocation { si_skill_id : SkillId }.

Record SkillCommand : Set := mk_SkillCommand {
  sc_skill_id : SkillId;
  sc_arguments : string
}.

Definition skill_command_new (skill_id : SkillId) (arguments : string)
    : Result SkillError SkillCommand :=
  if (MAX_SKILL_ARGUMENT_BYTES <? str_len arguments)%N || contains_nul arguments
  then Err InvalidSkillArguments
  else Ok (mk_SkillCommand skill_id arguments).

(** [SkillMetadata::invocation] and [From<SkillInvocation> for SkillCommand]. *)
Definition skill_invocation (s : SkillMetadata) : SkillInvocation := mk_SkillInvocation (sk_id s).
Definition command_of_invocation (i : SkillInvocation) : SkillCommand :=
  mk_SkillCommand (si_skill_id i) "".
Definition skill_command (s : SkillMetadata) : SkillCommand :=
  command_of_invocation (skill_invocation s).

(** [str::split_once(' ')]. *)
Fixpoint split_once_space (value : string) : option (string * string) :=
  match value with
  | EmptyString => None
  | String a rest =>
      if (Ascii.N_of_ascii a =? 32)%N then Some (""%string, rest)
      else match split_once_space rest with
           | Some (before, after) => Some (String a before, after)
           | None => None
           end
  end.

(** One leading [char::is_whitespace] character: its byte length.  White_Space
    is U+0009 to U+000D, U+0020, U+0085, U+00A0, U+1680, U+2000 to U+200A,
    U+2028, U+2029, U+202F, U+205F and U+3000. *)
Definition leading_whitespace (bs : list N) : option nat :=
  match bs with
  | b :: rest =>
      if ((9 <=? b) && (b <=? 13) || (b =? 32))%N then Some 1%nat
      else match rest with
           | c :: rest' =>
               if ((b =? 194) && ((c =? 133) || (c =? 160)))%N then Some 2%nat
               else match rest' with
                    | d :: _ =>
                        if ((b =? 225) && (c =? 154) && (d =? 128)
                            || (b =? 226) && (c =? 128)
                               && ((128 <=? d) && (d <=? 138) || (d =? 168) || (d =? 169)
                                   || (d =? 175))
                            || (b =? 226) && (c =? 129) && (d =? 159)
                            || (b =? 227) && (c =? 128) && (d =? 128))%N
                        then Some 3%nat else None
                    | [] => None
                    end
           | [] => None
           end
  | [] => None
  end.

(** [str::trim_start]; each round removes a byte, so the length is enough. *)
Fixpoint trim_start_fuel (fuel : nat) (value : string) : string :=
  match fuel with
  | O => value
  | S fuel =>
      match leading_whitespace (bytes value) with
      | Some n => trim_start_fuel fuel (String.substring n (String.length value - n) value)
      | None => value
      end
  end.

Definition trim_start (value : string) : string := trim_start_fuel (String.length value) value.

(** [FromStr] and [Display] of invocations and commands. *)
Definition parse_skill_invocation (value : string) : Result SkillError SkillInvocation :=
  let? remaining :=
    ok_or (match strip_prefix "@skill " value with
           | Some remaining =>
               if existsb (λ b, (b =? 32)%N) (bytes remaining) then None else Some remaining
           | None => None
           end) InvalidSkillInvocation in
  let? skill_id := map_err (λ _, InvalidSkillInvocation) (parse_context_id remaining) in
  Ok (mk_SkillInvocation skill_id).

Definition show_skill_invocation (i : SkillInvocation) : string :=
  ("@skill " ++ cid_str (si_skill_id i))%string.

Definition parse_skill_command (value : string) : Result SkillError SkillCommand :=
  let? remaining := ok_or (strip_prefix "/skill:" value) InvalidSkillCommand in
  let '(skill_id, arguments) :=
    match split_once_space remaining with
    | Some (skill_id, arguments) => (skill_id, trim_start arguments)
    | None => (remaining, ""%string)
    end in
  let? skill_id := map_err (λ _, InvalidSkillCommand) (parse_context_id skill_id) in
  skill_command_new skill_id arguments.

Definition show_skill_command (c : SkillCommand) : string :=
  ("/skill:" ++ cid_str (sc_skill_id c)
   ++ (if String.eqb (sc_arguments c) "" then "" else " " ++ sc_arguments c))%string.
