(* ===== verification/ContextCompiler.v ===== *)
(** * Prompt compiler

    [crates/tea-context/src/compiler.rs]: modules are flattened to candidates,
    sorted by precedence, deduplicated, freed of conflicts and rendered within
    the budget, with an inspection row per candidate.  The claims: what the
    compiler renders, which conflicting segment wins, and what the order of
    modules does not change. *)

From S2P Require Import Prelude Usage ContextData.
Local Open Scope tea_scope.

Definition MAX_COMPILE_MODULES : N := 1024.

Record CompiledPrompt : Set := mk_CompiledPrompt {
  cp_text : string;
  cp_estimated_tokens : N;
  cp_diagnostics : list PromptDiagnostic;
  cp_inspection : list PromptInspectionEntry
}.

(** [CompiledPrompt::inspection_snapshot]. *)
Definition inspection_snapshot (p : CompiledPrompt) : PromptInspection :=
  prompt_inspection_new (str_len (cp_text p)) (cp_estimated_tokens p) (cp_inspection p)
    (cp_diagnostics p).

Record Candidate : Set := mk_Candidate {
  cd_module_id : PromptModuleId;
  cd_authority : PromptAuthority;
  cd_priority : PromptPriority;
  cd_segment_order : nat;
  cd_segment : PromptSegment
}.

Definition same_precedence (a b : Candidate) : bool :=
  bool_decide (cd_authority a = cd_authority b) && bool_decide (cd_priority a = cd_priority b).

(** ** Flattening and sorting *)

Definition flatten (modules : list PromptModule) : list Candidate :=
  modules ≫= λ m,
    imap (λ segment_order segment,
            mk_Candidate (md_id m) (md_authority m) (md_priority m) segment_order segment)
      (md_segments m).

(** The comparison of [sort_by]: not greater. *)
Definition candidate_leb (a b : Candidate) : bool :=
  lex_leb (N.compare (authority_index (cd_authority a)) (authority_index (cd_authority b)))
    (lex_leb (Z.compare (pr_get (cd_priority b)) (pr_get (cd_priority a)))
      (lex_leb (cid_compare (cd_module_id a) (cd_module_id b))
        (cd_segment_order a <=? cd_segment_order b)%nat)).

(** ** Selection *)

Record Selection : Set := mk_Selection {
  sl_identities : gmap PromptSegmentId Candidate;
  sl_conflicts : gmap ConflictKey Candidate;
  sl_selected : list Candidate;
  sl_diagnostics : list PromptDiagnostic;
  sl_inspection : list PromptInspectionEntry
}.

Definition selection_start : Selection := mk_Selection ∅ ∅ [] [] [].

Definition nonrendered (c : Candidate) (disposition : SegmentDisposition)
    : PromptInspectionEntry :=
  mk_PromptInspectionEntry (cd_module_id c) (sg_id (cd_segment c)) (cd_authority c)
    (sg_provenance (cd_segment c)) (sg_trust (cd_segment c)) (sg_cache_scope (cd_segment c))
    disposition None 0 0.

(** A candidate that is not selected: its diagnostic and its row. *)
Definition reject (s : Selection) (d : PromptDiagnostic) (e : PromptInspectionEntry)
    : Selection :=
  mk_Selection (sl_identities s) (sl_conflicts s) (sl_selected s)
    (sl_diagnostics s ++ [d]) (sl_inspection s ++ [e]).

Definition accept_candidate (s : Selection) (c : Candidate) : Selection :=
  mk_Selection (sl_identities s) (sl_conflicts s) (sl_selected s ++ [c])
    (sl_diagnostics s) (sl_inspection s).

Definition set_identities (m : gmap PromptSegmentId Candidate) (s : Selection) : Selection :=
  mk_Selection m (sl_conflicts s) (sl_selected s) (sl_diagnostics s) (sl_inspection s).
Definition set_conflicts (m : gmap ConflictKey Candidate) (s : Selection) : Selection :=
  mk_Selection (sl_identities s) m (sl_selected s) (sl_diagnostics s) (sl_inspection s).

Definition conflict_code (winner : Candidate) : PromptDiagnosticCode :=
  if match sg_conflict (cd_segment winner) with
     | Some value => bool_decide (cc_mode value = ConflictProtected)
     | None => false
     end
  then ProtectedConflict else DiagnosticConflictShadowed.

(** One round of the loop of [select]. *)
Definition select_candidate (s : Selection) (candidate : Candidate)
    : Result ContextError Selection :=
  let segment := cd_segment candidate in
  match sl_identities s !! sg_id segment with
  | Some existing =>
      if decide (cd_segment existing = segment) then
        Ok (reject s (mk_PromptDiagnostic ExactDuplicate (sg_id segment)
                        (Some (sg_id (cd_segment existing))) None)
              (nonrendered candidate DuplicateSegment))
      else Err (context_error ContextDuplicateIdentity
                  "prompt segment identity has divergent definitions")
  | None =>
      let s := set_identities (<[sg_id segment := candidate]> (sl_identities s)) s in
      match sg_conflict segment with
      | None => Ok (accept_candidate s candidate)
      | Some claim =>
          match sl_conflicts s !! cc_key claim with
          | Some winner =>
              if same_precedence candidate winner
                 && negb (String.eqb (sg_content segment) (sg_content (cd_segment winner)))
              then Err (context_error ContextAmbiguousConflict
                          "equal-precedence prompt conflict is ambiguous")
              else
                Ok (reject s (mk_PromptDiagnostic (conflict_code winner) (sg_id segment)
                                (Some (sg_id (cd_segment winner))) (Some (cc_key claim)))
                      (nonrendered candidate ConflictShadowed))
          | None =>
              Ok (accept_candidate
                    (set_conflicts (<[cc_key claim := candidate]> (sl_conflicts s)) s) candidate)
          end
      end
  end.

Definition select (candidates : list Candidate) : Result ContextError Selection :=
  result_fold select_candidate selection_start candidates.

(** ** Rendering *)

Record Rendering : Set := mk_Rendering {
  rd_text : string;
  rd_diagnostics : list PromptDiagnostic;
  rd_inspection : list PromptInspectionEntry
}.

(** The text a candidate contributes with [remaining] bytes left. *)
Definition rendered_content (segment : PromptSegment) (remaining : N)
    : Result ContextError (option string * SegmentDisposition) :=
  let content := sg_content segment in
  if (str_len content <=? remaining)%N then Ok (Some content, Included)
  else
    match sg_budget_behavior segment with
    | BudgetRequired => Err (context_error ContextBudgetExceeded
                               "required prompt segment exceeds compilation budget")
    | BudgetOmit => Ok (None, OmittedForBudget)
    | BudgetTruncate =>
        Ok (match truncate content remaining with
            | Some value => (Some value, Truncated)
            | None => (None, OmittedForBudget)
            end)
    end.

Definition separator_of (text : string) : string :=
  if String.eqb text "" then "" else PROMPT_SEPARATOR.

(** One round of the loop of [render]. *)
Definition render_candidate (budget : PromptBudget) (r : Rendering) (candidate : Candidate)
    : Result ContextError Rendering :=
  let segment := cd_segment candidate in
  let separator_bytes :=
    (if String.eqb (rd_text r) "" then 0 else str_len PROMPT_SEPARATOR)%N in
  let used_with_separator := saturating_add (str_len (rd_text r)) separator_bytes in
  let remaining := effective_remaining_bytes budget used_with_separator in
  let? out := rendered_content segment remaining in
  let '(rendered, disposition) := out in
  match rendered with
  | None =>
      Ok (mk_Rendering (rd_text r)
            (rd_diagnostics r
             ++ [mk_PromptDiagnostic DiagnosticOmittedForBudget (sg_id segment) None None])
            (rd_inspection r ++ [nonrendered candidate OmittedForBudget]))
  | Some rendered =>
      let text := (rd_text r ++ separator_of (rd_text r))%string in
      let start := str_len text in
      let text := (text ++ rendered)%string in
      let diagnostics :=
        if decide (disposition = Truncated)
        then rd_diagnostics r ++ [mk_PromptDiagnostic TruncatedForBudget (sg_id segment) None None]
        else rd_diagnostics r in
      Ok (mk_Rendering text diagnostics
            (rd_inspection r
             ++ [mk_PromptInspectionEntry (cd_module_id candidate) (sg_id segment)
                   (cd_authority candidate) (sg_provenance segment) (sg_trust segment)
                   (sg_cache_scope segment) disposition (Some (start, str_len text))
                   (str_len rendered) (estimate_tokens (str_len rendered))]))
  end.

(** [byte_range().map_or(usize::MAX, |range| range.start)]. *)
Definition range_start (e : PromptInspectionEntry) : N :=
  match pe_byte_range e with Some range => range.1 | None => U64_MAX end.

Definition inspection_leb (a b : PromptInspectionEntry) : bool :=
  lex_leb (N.compare (range_start a) (range_start b))
    (lex_leb (cid_compare (pe_module_id a) (pe_module_id b))
      (lex_leb (cid_compare (pe_segment_id a) (pe_segment_id b)) true)).

Definition diagnostic_leb (a b : PromptDiagnostic) : bool :=
  lex_leb (cid_compare (dg_segment_id a) (dg_segment_id b))
    (diagnostic_code_index (dg_code a) <=? diagnostic_code_index (dg_code b))%N.

Definition render (selected : list Candidate) (budget : PromptBudget)
    (diagnostics : list PromptDiagnostic) (inspection : list PromptInspectionEntry)
    : Result ContextError CompiledPrompt :=
  let? r := result_fold (render_candidate budget) (mk_Rendering "" diagnostics inspection)
              selected in
  let inspection := stable_sort inspection_leb (rd_inspection r) in
  let diagnostics := stable_sort diagnostic_leb (rd_diagnostics r) in
  let estimated_tokens := estimate_tokens (str_len (rd_text r)) in
  if (max_bytes budget <? str_len (rd_text r))%N
     || (max_estimated_tokens budget <? estimated_tokens)%N
  then Err (context_error ContextBudgetExceeded "compiled prompt is empty or exceeds final budget")
  else Ok (mk_CompiledPrompt (rd_text r) estimated_tokens diagnostics inspection).

(** [PromptCompiler::compile]. *)
Definition compile (modules : list PromptModule) (budget : PromptBudget)
    : Result ContextError CompiledPrompt :=
  if (MAX_COMPILE_MODULES <? N.of_nat (length modules))%N
  then Err (context_error ContextBoundsExceeded "prompt compilation contains too many modules")
  else
    let candidates := stable_sort candidate_leb (flatten modules) in
    let? s := select candidates in
    render (sl_selected s) budget (sl_diagnostics s) (sl_inspection s).
