(* ===== verification/ContextTheorems.v ===== *)
(** * Prompt compiler: claims

    The order of candidates is a lawful comparison, selection is a loop with an
    invariant over the sorted candidates, rendering a loop that places pieces of
    text.  From these: the order of modules does not matter, a conflict is won
    by the highest precedence, the inspection rows slice the text, and the
    budget holds. *)

From S2P Require Import Prelude Ordering Usage ContextData ContextCompiler.
Local Open Scope tea_scope.

(** ** The order of candidates *)

#[export] Instance cid_compare_lawful k : LawfulCompare (cid_compare (k := k)) :=
  compare_on_lawful cid_str String.compare _.

Definition candidate_compare : Candidate → Candidate → comparison :=
  compare_then (compare_on (λ c, authority_index (cd_authority c)) N.compare)
    (compare_then (compare_reverse (compare_on (λ c, pr_get (cd_priority c)) Z.compare))
      (compare_then (compare_on cd_module_id cid_compare)
        (compare_on cd_segment_order Nat.compare))).

Definition inspection_compare : PromptInspectionEntry → PromptInspectionEntry → comparison :=
  compare_then (compare_on range_start N.compare)
    (compare_then (compare_on pe_module_id cid_compare) (compare_on pe_segment_id cid_compare)).

#[export] Instance candidate_compare_lawful : LawfulCompare candidate_compare.
Proof. unfold candidate_compare. apply _. Qed.
#[export] Instance inspection_compare_lawful : LawfulCompare inspection_compare.
Proof. unfold inspection_compare. apply _. Qed.

Lemma candidate_leb_compare a b : candidate_leb a b = not_greater candidate_compare a b.
Proof. unfold candidate_compare. by rewrite <- !lex_leb_then, <- nat_leb_not_greater. Qed.

Lemma inspection_leb_compare a b : inspection_leb a b = not_greater inspection_compare a b.
Proof.
  unfold inspection_compare. rewrite <- !lex_leb_then. unfold inspection_leb, lex_leb, not_greater,
    compare_on. by destruct (cid_compare (pe_segment_id a) (pe_segment_id b)).
Qed.

Lemma authority_index_inj a b : authority_index a = authority_index b → a = b.
Proof. by destruct a, b. Qed.

Lemma cid_compare_eq {k} (a b : context_id k) : cid_compare a b = Eq → a = b.
Proof. destruct a, b. intros H%String.compare_eq_iff. simpl in H. congruence. Qed.

Lemma same_precedence_true a b :
  same_precedence a b = true ↔ cd_authority a = cd_authority b ∧ cd_priority a = cd_priority b.
Proof. unfold same_precedence. rewrite andb_true_iff, !bool_decide_eq_true. done. Qed.

(** What one comparison says of authority and priority. *)
Lemma candidate_leb_precedence a b :
  candidate_leb a b = true →
  (authority_index (cd_authority a) < authority_index (cd_authority b))%N ∨
  cd_authority a = cd_authority b ∧ (pr_get (cd_priority b) ≤ pr_get (cd_priority a))%Z.
Proof.
  unfold candidate_leb, lex_leb.
  destruct (N.compare_spec (authority_index (cd_authority a)) (authority_index (cd_authority b)))
    as [E%authority_index_inj|?|?]; [|auto|done].
  destruct (Z.compare_spec (pr_get (cd_priority b)) (pr_get (cd_priority a))); [|auto with lia|done];
    intros _; right; (split; [done|lia]).
Qed.

Lemma precedence_between a b c :
  candidate_leb a b = true → candidate_leb b c = true → same_precedence c a = true →
  same_precedence b a = true.
Proof.
  rewrite !same_precedence_true. intros Hab%candidate_leb_precedence Hbc%candidate_leb_precedence
    [Hauth Hprio]. rewrite Hauth, Hprio in Hbc.
  destruct Hab as [?|[Ha Hp]], Hbc as [?|[Hb Hq]]; [lia|rewrite Hb in *; lia|rewrite Ha in *; lia|].
  split; [done|]. destruct (cd_priority a), (cd_priority b). simpl in *. f_equal. lia.
Qed.

Lemma candidate_leb_trans : Transitive (λ a b, candidate_leb a b = true).
Proof. eapply leb_trans_of_compare, candidate_leb_compare. apply _. Qed.

Lemma candidate_leb_refl c : candidate_leb c c = true.
Proof.
  rewrite candidate_leb_compare. unfold not_greater.
  by rewrite (compare_self candidate_compare).
Qed.

(** ** Candidates come from modules *)

Lemma elem_of_flatten c modules :
  c ∈ flatten modules ↔
  ∃ m i s, m ∈ modules ∧ md_segments m !! i = Some s ∧
    c = mk_Candidate (md_id m) (md_authority m) (md_priority m) i s.
Proof.
  unfold flatten. rewrite list_elem_of_bind. split.
  - intros (m & (i & s & -> & Hs)%elem_of_lookup_imap_1 & Hm). eauto 10.
  - intros (m & i & s & Hm & Hs & ->). exists m. split; [|done].
    eapply elem_of_lookup_imap_2 in Hs. exact Hs.
Qed.

Lemma candidates_distinct modules x y :
  NoDup (md_id <$> modules) → x ∈ flatten modules → y ∈ flatten modules →
  candidate_compare x y = Eq → x = y.
Proof.
  intros Hnd (m & i & s & Hm & Hs & ->)%elem_of_flatten
    (m' & j & s' & Hm' & Hs' & ->)%elem_of_flatten.
  unfold candidate_compare, compare_then, compare_on, compare_reverse. simpl.
  destruct (N.compare _ _); [|done|done]. destruct (Z.compare _ _); [|done|done].
  destruct (cid_compare (md_id m) (md_id m')) eqn:Hid; [|done|done].
  intros ->%Nat.compare_eq_iff. apply cid_compare_eq in Hid.
  assert (m = m') as ->; [|by simplify_eq].
  apply list_elem_of_lookup in Hm as [a Ha]. apply list_elem_of_lookup in Hm' as [b Hb].
  assert (a = b) as ->; [|congruence].
  eapply NoDup_lookup; [done|rewrite list_lookup_fmap, Ha; done|].
  rewrite list_lookup_fmap, Hb. simpl. congruence.
Qed.

Lemma flatten_perm modules modules' : modules ≡ₚ modules' → flatten modules ≡ₚ flatten modules'.
Proof. intros H. unfold flatten. by rewrite H. Qed.

(** ** Selection *)

Definition claims (c : Candidate) (key : ConflictKey) : Prop :=
  ∃ claim, sg_conflict (cd_segment c) = Some claim ∧ cc_key claim = key.

(** The row of a candidate. *)
Definition describes (c : Candidate) (e : PromptInspectionEntry) : Prop :=
  pe_module_id e = cd_module_id c ∧ pe_segment_id e = sg_id (cd_segment c) ∧
  pe_authority e = cd_authority c ∧ pe_provenance e = sg_provenance (cd_segment c) ∧
  pe_trust e = sg_trust (cd_segment c) ∧ pe_cache_scope e = sg_cache_scope (cd_segment c).

Definition is_rendered (e : PromptInspectionEntry) : Prop := is_Some (pe_byte_range e).
#[export] Instance is_rendered_dec e : Decision (is_rendered e).
Proof. unfold is_rendered. apply _. Defined.

Lemma describes_nonrendered c disposition : describes c (nonrendered c disposition).
Proof. done. Qed.

(** The loop invariant: [cs] are the candidates seen. *)
Record selected_from (cs : list Candidate) (s : Selection) : Prop := {
  sf_rows : ∃ rejected, cs ≡ₚ rejected ++ sl_selected s ∧
    Forall2 describes rejected (sl_inspection s);
  sf_unrendered : Forall (λ e, pe_byte_range e = None ∧
    pe_disposition e ∈ [DuplicateSegment; ConflictShadowed]) (sl_inspection s);
  sf_known c : c ∈ cs → ∃ d, sl_identities s !! sg_id (cd_segment c) = Some d ∧
    cd_segment d = cd_segment c;
  sf_identity id d : sl_identities s !! id = Some d → d ∈ cs ∧ sg_id (cd_segment d) = id;
  sf_selected c : c ∈ sl_selected s → c ∈ cs;
  sf_holder c key : c ∈ sl_selected s → claims c key → sl_conflicts s !! key = Some c;
  sf_winner key w : sl_conflicts s !! key = Some w → w ∈ cs ∧ claims w key;
  sf_won c key : c ∈ cs → claims c key → ∃ w, sl_conflicts s !! key = Some w ∧
    candidate_leb w c = true ∧
    (same_precedence c w = true → sg_content (cd_segment c) = sg_content (cd_segment w))
}.

Lemma selected_from_start : selected_from [] selection_start.
Proof.
  split; simpl; try (by intros; set_solver). by exists [].
Qed.

Section select_step.
Context (cs : list Candidate) (s : Selection) (c : Candidate).
Hypothesis (Hs : selected_from cs s).

(** A rejected candidate adds its row; it is known and its claim is won. *)
Lemma selected_reject s0 diagnostic disposition :
  disposition ∈ [DuplicateSegment; ConflictShadowed] →
  sl_selected s0 = sl_selected s → sl_inspection s0 = sl_inspection s →
  sl_conflicts s0 = sl_conflicts s →
  (∃ d, sl_identities s0 !! sg_id (cd_segment c) = Some d ∧ cd_segment d = cd_segment c) →
  (∀ id d, sl_identities s0 !! id = Some d →
    sl_identities s !! id = Some d ∨ d = c ∧ id = sg_id (cd_segment c)) →
  (∀ id d, sl_identities s !! id = Some d → sl_identities s0 !! id = Some d) →
  (∀ key, claims c key → ∃ w, sl_conflicts s !! key = Some w ∧ candidate_leb w c = true ∧
    (same_precedence c w = true → sg_content (cd_segment c) = sg_content (cd_segment w))) →
  selected_from (cs ++ [c]) (reject s0 diagnostic (nonrendered c disposition)).
Proof using Hs.
  intros Hdisp Hsel Hins Hconf Hknown Hnew Hold Hwon. destruct Hs as [(rejected & Hp & Hrows)].
  split; simpl; rewrite ?Hsel, ?Hins, ?Hconf.
  - exists (rejected ++ [c]). split.
    + rewrite Hp. solve_Permutation.
    + apply Forall2_app; [done|]. by repeat constructor.
  - apply Forall_app. split; [done|]. by constructor.
  - intros d [Hd| ->%list_elem_of_singleton]%elem_of_app; [|done].
    destruct (sf_known0 d Hd) as (d' & ? & ?). eauto.
  - intros id d [Hd|[-> ->]]%Hnew; [|set_solver]. apply sf_identity0 in Hd. set_solver.
  - set_solver.
  - done.
  - intros key w (? & ?)%sf_winner0. set_solver.
  - intros d key [Hd| ->%list_elem_of_singleton]%elem_of_app; eauto.
Qed.

(** An accepted candidate is new, and its claim was free. *)
Lemma selected_accept s0 :
  sl_selected s0 = sl_selected s → sl_inspection s0 = sl_inspection s →
  sl_identities s !! sg_id (cd_segment c) = None →
  sl_identities s0 = <[sg_id (cd_segment c) := c]> (sl_identities s) →
  (∀ key, claims c key → sl_conflicts s !! key = None) →
  (∀ key w, sl_conflicts s0 !! key = Some w ↔ sl_conflicts s !! key = Some w ∨ claims c key ∧ w = c) →
  selected_from (cs ++ [c]) (accept_candidate s0 c).
Proof using Hs.
  intros Hsel Hins Hfresh Hids Hfree Hconf. destruct Hs as [(rejected & Hp & Hrows)].
  split; simpl; rewrite ?Hsel, ?Hins, ?Hids.
  - exists rejected. split; [|done]. by rewrite Hp, <- app_assoc.
  - done.
  - intros d [Hd| ->%list_elem_of_singleton]%elem_of_app.
    + destruct (sf_known0 d Hd) as (d' & Hd' & ?). exists d'. split; [|done].
      rewrite lookup_insert_ne by congruence. done.
    + exists c. by rewrite lookup_insert_eq.
  - intros id d [[<- <-]|[_ (? & ?)%sf_identity0]]%lookup_insert_Some; set_solver.
  - set_solver.
  - intros d key [Hd| ->%list_elem_of_singleton]%elem_of_app Hk; apply Hconf; eauto.
  - intros key w [(? & ?)%sf_winner0|[? ->]]%Hconf; set_solver.
  - intros d key [Hd| ->%list_elem_of_singleton]%elem_of_app Hk.
    + destruct (sf_won0 d key Hd Hk) as (w & ? & ?). exists w. by rewrite Hconf; auto.
    + exists c. split; [apply Hconf; auto|]. split; [|done]. apply candidate_leb_refl.
Qed.

Hypothesis (Hsorted : Forall (λ d, candidate_leb d c = true) cs).

(** What a duplicate claims was won when its original came. *)
Lemma selected_duplicate_won existing key :
  sl_identities s !! sg_id (cd_segment c) = Some existing → cd_segment existing = cd_segment c →
  claims c key → ∃ w, sl_conflicts s !! key = Some w ∧ candidate_leb w c = true ∧
    (same_precedence c w = true → sg_content (cd_segment c) = sg_content (cd_segment w)).
Proof using Hs Hsorted.
  intros [Hd _]%(sf_identity _ _ Hs) Heq Hk.
  destruct (sf_won _ _ Hs existing key Hd) as (w & Hw & Hle & Hprec).
  { destruct Hk as (claim & ? & ?). exists claim. by rewrite Heq. }
  exists w. eapply Forall_forall in Hsorted; [|done]. split; [done|].
  split; [by eapply candidate_leb_trans|]. intros Hsame. rewrite <- Heq. apply Hprec.
  by eapply precedence_between.
Qed.

Lemma select_candidate_from s' : select_candidate s c = Ok s' → selected_from (cs ++ [c]) s'.
Proof using Hs Hsorted.
  unfold select_candidate. destruct (sl_identities s !! sg_id (cd_segment c)) eqn:Hid.
  { destruct (decide _) as [Heq|]; [|done]. intros [= <-]. apply selected_reject; eauto; [set_solver|].
    intros key. by eapply selected_duplicate_won. }
  destruct (sg_conflict (cd_segment c)) as [claim|] eqn:Hclaim.
  2:{ intros [= <-]. apply selected_accept; simpl; try done.
      - intros key (? & ? & _). congruence.
      - intros key w. split; [auto|]. intros [?|[(? & ? & _) _]]; [done|congruence]. }
  assert (∀ key, claims c key ↔ cc_key claim = key) as Hclaims.
  { intros key. unfold claims. rewrite Hclaim. naive_solver. }
  simpl. destruct (sl_conflicts s !! cc_key claim) as [winner|] eqn:Hwinner.
  - destruct (_ && _) eqn:Hsame; [done|]. intros [= <-].
    apply selected_reject; simpl; try done; [set_solver|..].
    + exists c. by rewrite lookup_insert_eq.
    + intros id d [[<- <-]|[_ ?]]%lookup_insert_Some; auto.
    + intros id d Hd. rewrite lookup_insert_ne by congruence. done.
    + intros key <-%Hclaims. exists winner. split; [done|].
      apply (sf_winner _ _ Hs) in Hwinner as [Hin _]. split; [by eapply Forall_forall in Hsorted|].
      intros Hprec. rewrite Hprec in Hsame. by apply negb_false_iff, String.eqb_eq in Hsame.
  - intros [= <-]. apply selected_accept; simpl; try done.
    + by intros key <-%Hclaims.
    + intros key w. rewrite Hclaims, lookup_insert_Some. split; [naive_solver|].
      intros [?|[<- ->]]; [right|by left]. split; [congruence|done].
Qed.
End select_step.

Lemma select_from candidates s :
  StronglySorted (λ a b, candidate_leb a b = true) candidates →
  select candidates = Ok s → selected_from candidates s.
Proof.
  unfold select. intros Hsorted. pose proof selected_from_start as Hstart. revert Hstart.
  change candidates with ([] ++ candidates) in Hsorted |- * at 2.
  generalize (@nil Candidate) selection_start Hsorted. clear Hsorted.
  induction candidates as [|c rest IH]; intros cs s0 Hsorted Hcs.
  { intros [= <-]. by rewrite app_nil_r. }
  simpl. intros (s1 & Hstep & Hrest)%result_bind_ok.
  rewrite cons_middle, app_assoc in *. eapply IH; [done| |done].
  eapply select_candidate_from; [done| |done].
  apply Forall_forall. intros d Hd. apply StronglySorted_app_1_l in Hsorted.
  eapply (StronglySorted_app_1_elem_of _ _ _ _ _ Hsorted Hd). set_solver.
Qed.

(** ** Pieces of text *)

(** A rendered row with the text it stands for. *)
Notation Piece := (PromptInspectionEntry * string)%type.

Definition text_of (pieces : list Piece) : string := String.concat PROMPT_SEPARATOR (pieces.*2).

(** The bytes of the text a row names. *)
Definition slice (text : string) (e : PromptInspectionEntry) : string :=
  match pe_byte_range e with
  | Some (first, last) => String.substring (N.to_nat first) (N.to_nat (last - first)) text
  | None => ""
  end.

Lemma separator_len : str_len PROMPT_SEPARATOR = 2%N.
Proof. done. Qed.
Lemma str_len_empty : str_len "" = 0%N.
Proof. done. Qed.

Definition separator_after (pieces : list Piece) : string :=
  match pieces with [] => "" | _ => PROMPT_SEPARATOR end.

(** Each piece starts after the previous one and a separator. *)
Fixpoint placed (start : N) (pieces : list Piece) : Prop :=
  match pieces with
  | [] => True
  | (e, s) :: rest =>
      pe_byte_range e = Some (start, start + str_len s)%N
      ∧ placed (start + str_len s + str_len PROMPT_SEPARATOR) rest
  end.

Lemma text_of_cons p pieces :
  text_of (p :: pieces) = (p.2 ++ separator_after pieces ++ text_of pieces)%string.
Proof. unfold text_of. destruct pieces; [|done]. symmetry. apply string_app_nil_r. Qed.

Lemma text_of_snoc pieces p :
  text_of (pieces ++ [p]) = (text_of pieces ++ separator_after pieces ++ p.2)%string.
Proof.
  induction pieces as [|q pieces IH]; [done|]. rewrite <- app_comm_cons, !text_of_cons, IH.
  destruct pieces; simpl separator_after; rewrite ?string_app_assoc; [|done].
  by change (text_of []) with ""%string.
Qed.

Lemma placed_snoc start pieces p :
  placed start (pieces ++ [p]) ↔ placed start pieces ∧
    let first := (start + str_len (text_of pieces) + str_len (separator_after pieces))%N in
    pe_byte_range p.1 = Some (first, first + str_len p.2)%N.
Proof.
  revert start. induction pieces as [|[e s] pieces IH]; intros start.
  - destruct p as [e s]. simpl. change (str_len (text_of [])) with 0%N.
    change (str_len "") with 0%N. rewrite !N.add_0_r. naive_solver.
  - simpl placed. rewrite IH, text_of_cons, !str_len_app. simpl.
    replace (start + str_len s + str_len PROMPT_SEPARATOR + str_len (text_of pieces)
             + str_len (separator_after pieces))%N
      with (start + (str_len s + (str_len (separator_after pieces) + str_len (text_of pieces)))
            + str_len PROMPT_SEPARATOR)%N; [naive_solver|].
    destruct pieces; simpl; [|lia]. change (str_len (text_of [])) with 0%N.
    change (str_len "") with 0%N. lia.
Qed.

Lemma placed_slices before pieces :
  placed (str_len before) pieces →
  Forall (λ p, slice (before ++ text_of pieces) p.1 = p.2) pieces.
Proof.
  revert before. induction pieces as [|[e s] pieces IH]; intros before; [constructor|].
  intros [He Hrest]. rewrite text_of_cons. constructor.
  - unfold slice. simpl. rewrite He. replace (str_len before + str_len s - str_len before)%N
      with (str_len s) by lia.
    unfold str_len. rewrite !Nat2N.id. apply substring_middle.
  - destruct pieces as [|q pieces]; [constructor|].
    specialize (IH (before ++ s ++ PROMPT_SEPARATOR)%string).
    rewrite !str_len_app, !string_app_assoc, N.add_assoc in IH. by apply IH.
Qed.

(** Rows in the order of their text. *)
Lemma placed_starts start pieces :
  placed start pieces →
  Forall (λ e, (start ≤ range_start e)%N) (pieces.*1) ∧
  StronglySorted (λ a b, range_start a < range_start b)%N (pieces.*1).
Proof.
  revert start. induction pieces as [|[e s] pieces IH]; intros start; [split; constructor|].
  intros [He [Hle Hs]%IH]. simpl. assert (range_start e = start) as Hstart
    by (unfold range_start; by rewrite He).
  change (str_len PROMPT_SEPARATOR) with 2%N in Hle. split.
  - constructor; [lia|]. eapply Forall_impl; [done|]. simpl. lia.
  - constructor; [done|]. eapply Forall_impl; [done|]. simpl. lia.
Qed.

Lemma strictly_sorted_distinct {A} (f : A → N) l x y :
  StronglySorted (λ a b, f a < f b)%N l → x ∈ l → y ∈ l → f x = f y → x = y.
Proof.
  induction 1 as [|z l _ IH Hz]; [by intros ?%elem_of_nil|].
  rewrite Forall_forall in Hz.
  intros [->|Hx]%elem_of_cons [->|Hy]%elem_of_cons Heq; [done|..|by apply IH];
    [specialize (Hz _ Hy)|specialize (Hz _ Hx)]; lia.
Qed.

(** ** Rendering *)

(** What a rendered row shows of its segment. *)
Definition shows (segment : PromptSegment) (disposition : SegmentDisposition) (s : string) : Prop :=
  match disposition with
  | Included => s = sg_content segment
  | Truncated =>
      sg_budget_behavior segment = BudgetTruncate ∧
      ∃ n, n < String.length (sg_content segment) ∧
        is_char_boundary (bytes (sg_content segment)) n = true ∧
        s = (String.substring 0 n (sg_content segment) ++ TRUNCATION_MARKER)%string
  | _ => False
  end.

Lemma truncate_shows segment remaining s :
  sg_budget_behavior segment = BudgetTruncate → (remaining < str_len (sg_content segment))%N →
  truncate (sg_content segment) remaining = Some s →
  shows segment Truncated s ∧ (str_len s ≤ remaining)%N.
Proof.
  unfold truncate. intros Hb Hlen. destruct (N.ltb_spec remaining (str_len TRUNCATION_MARKER))
    as [|Hm]; [done|]. intros [= <-].
  set (limit := N.to_nat _). assert (N.of_nat limit + str_len TRUNCATION_MARKER ≤ remaining)%N by lia.
  pose proof (floor_boundary_le (bytes (sg_content segment)) limit) as Hle.
  change (str_len TRUNCATION_MARKER) with 11%N in *. split.
  - split; [done|]. eexists. split; [|split; [apply floor_boundary_is|done]].
    unfold str_len in Hlen. lia.
  - rewrite str_len_app. change (str_len TRUNCATION_MARKER) with 11%N. unfold str_len at 1.
    pose proof (length_substring (floor_boundary (bytes (sg_content segment)) limit)
      (sg_content segment)). lia.
Qed.

(** The outcome of one segment. *)
Lemma rendered_content_ok segment remaining rendered disposition :
  rendered_content segment remaining = Ok (rendered, disposition) →
  match rendered with
  | Some s => shows segment disposition s ∧ (str_len s ≤ remaining)%N
  | None => disposition = OmittedForBudget
  end ∧ (sg_budget_behavior segment = BudgetRequired → disposition = Included).
Proof.
  unfold rendered_content. destruct (N.leb_spec (str_len (sg_content segment)) remaining).
  { intros [= <- <-]. done. }
  destruct (sg_budget_behavior segment) eqn:Hb; [done|..|by intros [= <- <-]].
  destruct (truncate _ _) eqn:Ht; intros [= <- <-]; split; try done.
  by apply truncate_shows.
Qed.

Lemma remaining_fits budget used s :
  (str_len s ≤ effective_remaining_bytes budget used)%N → (0 < str_len s)%N →
  (used + str_len s ≤ max_bytes budget ∧ used + str_len s ≤ 3 * max_estimated_tokens budget)%N.
Proof. unfold effective_remaining_bytes, saturating_mul. lia. Qed.

(** A candidate and its row. *)
Definition accounted (c : Candidate) (e : PromptInspectionEntry) : Prop :=
  describes c e ∧ (sg_budget_behavior (cd_segment c) = BudgetRequired → pe_disposition e = Included)
  ∧ (¬ is_rendered e → pe_disposition e = OmittedForBudget).

Definition within (budget : PromptBudget) (text : string) : Prop :=
  (str_len text ≤ max_bytes budget ∧ str_len text ≤ 3 * max_estimated_tokens budget)%N.

(** The loop invariant: [cs] are the candidates rendered or omitted. *)
Record rendered_from (budget : PromptBudget) (earlier : list PromptInspectionEntry)
    (cs : list Candidate) (r : Rendering) (rows : list PromptInspectionEntry)
    (pieces : list Piece) : Prop := {
  rf_rows : rd_inspection r = earlier ++ rows;
  rf_accounted : Forall2 accounted cs rows;
  rf_rendered : filter is_rendered rows = pieces.*1;
  rf_text : rd_text r = text_of pieces;
  rf_placed : placed 0 pieces;
  rf_pieces : Forall (λ p, (0 < str_len p.2)%N ∧
    ∃ c, c ∈ cs ∧ describes c p.1 ∧ shows (cd_segment c) (pe_disposition p.1) p.2) pieces;
  rf_within : within budget (rd_text r)
}.

Definition segment_valid (s : PromptSegment) : Prop := validate_segment_content (sg_content s) = Ok tt.

Lemma shows_nonempty s disposition text :
  segment_valid s → shows s disposition text → (0 < str_len text)%N.
Proof.
  unfold segment_valid, validate_segment_content. intros Hv. destruct disposition; simpl; try done.
  - intros ->. destruct (sg_content s); [done|]. unfold str_len. simpl. lia.
  - intros (_ & n & _ & _ & ->). rewrite str_len_app. change (str_len TRUNCATION_MARKER) with 11%N.
    lia.
Qed.

Lemma separator_of_text pieces :
  Forall (λ p : Piece, (0 < str_len p.2)%N) pieces →
  separator_of (text_of pieces) = separator_after pieces.
Proof.
  unfold separator_of. destruct 1 as [|p pieces Hp _]; [done|]. rewrite text_of_cons.
  destruct p as [e s]. simpl in *. destruct s; [|done]. by change (str_len "") with 0%N in Hp.
Qed.

Section render_step.
Context (a b : N) (budget : PromptBudget) (Hbudget : prompt_budget_new a b = Ok budget).

Lemma budget_bounded : (max_bytes budget ≤ 16777216)%N.
Proof using Hbudget.
  unfold prompt_budget_new in Hbudget. destruct (_ || _) eqn:Hb; [done|].
  rewrite !orb_false_iff, !N.ltb_ge in Hb. injection Hbudget as <-. simpl. lia.
Qed.

(** The budget also has room for the separator. *)
Lemma fits_within text s :
  within budget text → (0 < str_len s)%N →
  (str_len s ≤ effective_remaining_bytes budget
     (saturating_add (str_len text)
        (if String.eqb text "" then 0 else str_len PROMPT_SEPARATOR)))%N →
  within budget (text ++ separator_of text ++ s).
Proof using Hbudget.
  intros [Hw1 Hw2] Hs Hfits. pose proof budget_bounded.
  eapply remaining_fits in Hfits; [|done]. unfold within, separator_of.
  rewrite !str_len_app.
  assert (∀ n, (n ≤ max_bytes budget + 2 → saturating_add n 0 = n)%N) as Hexact.
  { intros n ?. unfold saturating_add. rewrite N.add_0_r. apply N.min_l. unfold U64_MAX. lia. }
  destruct (String.eqb text "").
  - rewrite Hexact in Hfits by lia. rewrite str_len_empty. lia.
  - rewrite separator_len in *. unfold saturating_add in Hfits. rewrite N.min_l in Hfits; [lia|].
    unfold U64_MAX. lia.
Qed.

Lemma render_candidate_from earlier cs r rows pieces c r' :
  rendered_from budget earlier cs r rows pieces → segment_valid (cd_segment c) →
  render_candidate budget r c = Ok r' →
  ∃ rows' pieces', rendered_from budget earlier (cs ++ [c]) r' rows' pieces'.
Proof using Hbudget.
  intros Hr Hvalid. unfold render_candidate. pose proof (rf_within _ _ _ _ _ _ Hr) as [Hw1 Hw2].
  intros ([rendered disposition] & [Hout Hreq]%rendered_content_ok & Hk)%result_bind_ok.
  assert (Forall (λ p : Piece, (0 < str_len p.2)%N ∧ ∃ d, d ∈ cs ++ [c] ∧ describes d p.1 ∧
    shows (cd_segment d) (pe_disposition p.1) p.2) pieces) as Hpieces.
  { eapply Forall_impl; [apply (rf_pieces _ _ _ _ _ _ Hr)|]. intros p (? & d & ? & ?).
    split; [done|]. exists d. set_solver. }
  destruct rendered as [s|].
  2:{ injection Hk as <-. eexists (rows ++ [_]), pieces. destruct Hr. split; simpl; try done.
      - by rewrite rf_rows0, <- app_assoc.
      - apply Forall2_app; [done|]. constructor; [|constructor]. split; [done|]. split; [|done].
        intros H%Hreq. by rewrite Hout in H.
      - rewrite filter_app, filter_cons_False, app_nil_r; [done|]. by intros [? ?]. }
  destruct Hout as [Hshows Hfits]. pose proof (shows_nonempty _ _ _ Hvalid Hshows) as Hs.
  injection Hk as <-.
  assert (separator_of (rd_text r) = separator_after pieces) as Hsep.
  { rewrite (rf_text _ _ _ _ _ _ Hr). apply separator_of_text.
    eapply Forall_impl; [apply Hpieces|]. by intros p [? _]. }
  assert (within budget (rd_text r ++ separator_of (rd_text r) ++ s)) as Hwithin.
  { by apply fits_within. }
  eexists (rows ++ [_]), (pieces ++ [(_, s)]). destruct Hr.
  split; cbn [rd_inspection rd_text].
  - by rewrite rf_rows0, <- app_assoc.
  - apply Forall2_app; [done|]. constructor; [|constructor]. split; [done|]. split; [done|].
    intros []. by eexists.
  - rewrite filter_app, filter_cons_True, fmap_app, rf_rendered0; [done|by eexists].
  - by rewrite text_of_snoc, <- rf_text0, <- Hsep, string_app_assoc.
  - rewrite placed_snoc. split; [done|]. cbv zeta. cbn [fst snd pe_byte_range].
    by rewrite N.add_0_l, !str_len_app, Hsep, rf_text0.
  - apply Forall_app. split; [done|]. constructor; [|constructor]. split; [done|].
    exists c. split; [set_solver|]. done.
  - by rewrite string_app_assoc.
Qed.
End render_step.

(** ** A compilation *)

Definition module_valid (m : PromptModule) : Prop := Forall segment_valid (md_segments m).

Lemma flatten_valid modules c :
  Forall module_valid modules → c ∈ flatten modules → segment_valid (cd_segment c).
Proof.
  rewrite Forall_forall. intros Hv (m & i & s & Hm%Hv & Hs & ->)%elem_of_flatten.
  by eapply Forall_lookup_1 in Hs.
Qed.

Lemma rendered_from_start budget diagnostics earlier :
  rendered_from budget earlier [] (mk_Rendering "" diagnostics earlier) [] [].
Proof.
  split; simpl; try done; [by rewrite app_nil_r|].
  unfold within. rewrite str_len_empty. lia.
Qed.

Lemma render_from a b budget earlier cs todo r r' rows pieces :
  prompt_budget_new a b = Ok budget → Forall (λ c, segment_valid (cd_segment c)) todo →
  rendered_from budget earlier cs r rows pieces →
  result_fold (render_candidate budget) r todo = Ok r' →
  ∃ rows' pieces', rendered_from budget earlier (cs ++ todo) r' rows' pieces'.
Proof.
  intros Hbudget Hvalid. revert cs r rows pieces.
  induction Hvalid as [|c todo Hc _ IH]; intros cs r rows pieces Hr; simpl.
  { intros [= <-]. rewrite app_nil_r. eauto. }
  intros (r1 & Hstep & Hrest)%result_bind_ok.
  eapply render_candidate_from in Hstep as (rows1 & pieces1 & Hr1); [|done..].
  rewrite cons_middle, app_assoc. by eapply IH.
Qed.

Definition sorted_candidates (modules : list PromptModule) : list Candidate :=
  stable_sort candidate_leb (flatten modules).

Lemma sorted_candidates_strong modules :
  StronglySorted (λ a b, candidate_leb a b = true) (sorted_candidates modules).
Proof. apply (stable_sort_strong candidate_compare), candidate_leb_compare. Qed.

(** A successful compilation: what was selected and what was rendered. *)
Record compiled (modules : list PromptModule) (budget : PromptBudget) (p : CompiledPrompt)
    (s : Selection) (rows : list PromptInspectionEntry) (pieces : list Piece) : Prop := {
  co_selected : selected_from (sorted_candidates modules) s;
  co_accounted : Forall2 accounted (sl_selected s) rows;
  co_rendered : filter is_rendered rows = pieces.*1;
  co_placed : placed 0 pieces;
  co_pieces : Forall (λ q, (0 < str_len q.2)%N ∧
    ∃ c, c ∈ sl_selected s ∧ describes c q.1 ∧ shows (cd_segment c) (pe_disposition q.1) q.2) pieces;
  co_text : cp_text p = text_of pieces;
  co_within : within budget (cp_text p);
  co_inspection : cp_inspection p = stable_sort inspection_leb (sl_inspection s ++ rows)
}.

Lemma selected_valid modules s :
  Forall module_valid modules → selected_from (sorted_candidates modules) s →
  Forall (λ c, segment_valid (cd_segment c)) (sl_selected s).
Proof.
  intros Hvalid Hsel. apply Forall_forall. intros c Hc%(sf_selected _ _ Hsel).
  apply elem_of_stable_sort in Hc. by eapply flatten_valid.
Qed.

(** Segments of one identity are equal. *)
Lemma selected_segment cs s c d :
  selected_from cs s → c ∈ cs → d ∈ cs →
  sg_id (cd_segment c) = sg_id (cd_segment d) → cd_segment c = cd_segment d.
Proof.
  intros Hs Hc Hd Hid. destruct (sf_known _ _ Hs c Hc) as (c' & Hc' & <-).
  destruct (sf_known _ _ Hs d Hd) as (d' & Hd' & <-). congruence.
Qed.

Lemma compile_estimate modules budget p :
  compile modules budget = Ok p → cp_estimated_tokens p = estimate_tokens (str_len (cp_text p)).
Proof.
  unfold compile. case_match; [done|]. intros (s & _ & (r & _ & Hp)%result_bind_ok)%result_bind_ok.
  cbv zeta in Hp. destruct (_ || _) in Hp; by simplify_eq.
Qed.

Lemma compile_ok modules a b budget p :
  prompt_budget_new a b = Ok budget → Forall module_valid modules →
  compile modules budget = Ok p → ∃ s rows pieces, compiled modules budget p s rows pieces.
Proof.
  intros Hbudget Hvalid. unfold compile. case_match; [done|].
  intros (s & Hs & (r & Hr & Hp)%result_bind_ok)%result_bind_ok.
  pose proof (select_from _ _ (sorted_candidates_strong modules) Hs) as Hsel.
  eapply render_from in Hr as (rows & pieces & [Hrows ??????]);
    [|done| |apply rendered_from_start].
  2:{ by eapply selected_valid. }
  cbv zeta in Hp. destruct (_ || _) in Hp; [done|]. injection Hp as <-. exists s, rows, pieces. split; simpl; try done.
  by rewrite Hrows.
Qed.

(** Sorting the rows keeps the rendered ones in the order of the text. *)
Lemma compiled_rendered modules budget p s rows pieces :
  compiled modules budget p s rows pieces →
  filter is_rendered (cp_inspection p) = pieces.*1.
Proof.
  intros Hc. destruct (placed_starts 0 pieces (co_placed _ _ _ _ _ _ Hc)) as [_ Hstarts].
  rewrite (co_inspection _ _ _ _ _ _ Hc).
  assert (filter is_rendered (sl_inspection s) = []) as Hnone.
  { pose proof (sf_unrendered _ _ (co_selected _ _ _ _ _ _ Hc)) as Hu.
    induction Hu as [|e l [He _] _ IH]; [done|]. rewrite filter_cons_False; [done|].
    unfold is_rendered. rewrite He. by intros [? ?]. }
  assert (pieces.*1 = filter is_rendered (sl_inspection s ++ rows)) as Heq.
  { by rewrite filter_app, Hnone, (co_rendered _ _ _ _ _ _ Hc). }
  symmetry. apply (strongly_sorted_unique inspection_compare inspection_leb inspection_leb_compare).
  - intros x y Hx Hy Hxy. eapply (strictly_sorted_distinct range_start); [done..|].
    unfold inspection_compare, compare_then, compare_on in Hxy.
    destruct (N.compare_spec (range_start x) (range_start y)); done.
  - clear Heq Hnone Hc. induction Hstarts as [|x l _ IH Hx]; [constructor|]. constructor; [done|].
    eapply Forall_impl; [done|]. intros y Hlt. unfold inspection_leb.
    by apply N.compare_lt_iff in Hlt as ->.
  - apply strongly_sorted_filter, (stable_sort_strong inspection_compare), inspection_leb_compare.
  - rewrite Heq. by rewrite stable_sort_perm.
Qed.

(** Every row stands for one candidate. *)
Lemma compiled_rows modules budget p s rows pieces :
  compiled modules budget p s rows pieces →
  ∃ cs, cs ≡ₚ flatten modules ∧ Forall2 describes cs (cp_inspection p).
Proof.
  intros [[(rejected & Hp & Hrej) _ _ _ _ _ _ _] Hacc _ _ _ _ _ Hins].
  assert (Forall2 describes (rejected ++ sl_selected s) (sl_inspection s ++ rows)) as Hall.
  { apply Forall2_app; [done|]. eapply Forall2_impl; [done|]. by intros ?? [? _]. }
  assert (sl_inspection s ++ rows ≡ₚ cp_inspection p) as Hperm
    by (by rewrite Hins, stable_sort_perm).
  apply Forall2_flip in Hall. eapply Permutation_Forall2 in Hall as (cs & Hcs & Hall); [|exact Hperm].
  exists cs. split; [|by apply Forall2_flip].
  rewrite <- Hcs, <- Hp. apply stable_sort_perm.
Qed.

Lemma select_err candidates e : select candidates = Err e → ce_code e ≠ ContextBudgetExceeded.
Proof.
  intros (s & c & _ & He)%result_fold_err. unfold select_candidate in He.
  repeat case_match; by simplify_eq.
Qed.

Lemma render_candidate_err budget r c e :
  render_candidate budget r c = Err e → sg_budget_behavior (cd_segment c) = BudgetRequired.
Proof.
  unfold render_candidate. intros [He|([[?|] ?] & _ & ?)]%result_bind_err; [|done..].
  unfold rendered_content in He. by repeat case_match.
Qed.

(** The check after rendering never fails. *)
Lemma within_estimate a b budget text :
  prompt_budget_new a b = Ok budget → within budget text →
  (max_bytes budget <? str_len text)%N
  || (max_estimated_tokens budget <? estimate_tokens (str_len text))%N = false.
Proof.
  intros _ [Hb Ht]. apply orb_false_iff. split; apply N.ltb_ge; [done|].
  unfold estimate_tokens, saturating_add.
  transitivity ((str_len text + 2) / 3)%N; [apply N.Div0.div_le_mono, N.le_min_l|].
  apply N.lt_succ_r, N.Div0.div_lt_upper_bound. lia.
Qed.

(** Only a required segment fails a compilation for its budget. *)
Lemma budget_failure_required modules a b budget e :
  prompt_budget_new a b = Ok budget → Forall module_valid modules →
  compile modules budget = Err e → ce_code e = ContextBudgetExceeded →
  ∃ c, c ∈ flatten modules ∧ sg_budget_behavior (cd_segment c) = BudgetRequired.
Proof.
  intros Hbudget Hvalid. unfold compile. case_match; [by intros [= <-]|].
  intros [He|(s & Hs & [He|(r & Hr & He)]%result_bind_err)]%result_bind_err Hcode.
  - by apply select_err in He.
  - apply result_fold_err in He as (r & c & Hc & He%render_candidate_err). exists c.
    pose proof (select_from _ _ (sorted_candidates_strong modules) Hs) as Hsel.
    apply (sf_selected _ _ Hsel), elem_of_stable_sort in Hc. done.
  - pose proof (select_from _ _ (sorted_candidates_strong modules) Hs) as Hsel.
    eapply render_from in Hr as (rows & pieces & Hrend);
      [|done|by eapply selected_valid|apply rendered_from_start].
    cbv zeta in He.
    by rewrite (within_estimate _ _ _ _ Hbudget (rf_within _ _ _ _ _ _ Hrend)) in He.
Qed.

(** ** A sample prompt *)

Module ContextSample.

Definition provenance : PromptProvenance :=
  mk_PromptProvenance (mk_context_id "sample.provider") "sample" None.
Definition segment (id content : string) (conflict : option ConflictClaim)
    (behavior : BudgetBehavior) : PromptSegment :=
  mk_PromptSegment (mk_context_id id) content provenance Trusted CacheProfile conflict behavior.
Definition style (mode : ConflictMode) : option ConflictClaim :=
  Some (mk_ConflictClaim (mk_context_id "style") mode).

(** The kernel's module wins the conflict with the product's; the workspace's
    text is cut. *)
Definition modules : list PromptModule :=
  [mk_PromptModule (mk_context_id "workspace") AuthorityWorkspace (mk_PromptPriority 0)
     [segment "notes" "a long note of the workspace" None BudgetTruncate];
   mk_PromptModule (mk_context_id "product") AuthorityProduct (mk_PromptPriority 5)
     [segment "product.style" "Be terse." (style ConflictReplaceable) BudgetOmit;
      segment "product.name" "You are tea." None BudgetRequired];
   mk_PromptModule (mk_context_id "kernel") AuthorityKernel (mk_PromptPriority 0)
     [segment "kernel.style" "Be safe." (style ConflictProtected) BudgetRequired]].
Definition budget : PromptBudget := mk_PromptBudget 40 1000.

Definition prompt : CompiledPrompt :=
  match compile modules budget with
  | Ok p => p
  | Err _ => mk_CompiledPrompt "" 0 [] []
  end.

Lemma modules_valid : Forall module_valid modules.
Proof. repeat constructor. Qed.

End ContextSample.

(** ** Claims *)

(** C36: The prompt a compilation produces does not depend on the order in which
    the context providers delivered their modules, as long as their modules
    have different identities. *)
Theorem compile_order_independent modules modules' budget :
  modules ≡ₚ modules' → NoDup (md_id <$> modules) →
  compile modules budget = compile modules' budget.
Proof.
  intros Hp Hnd. unfold compile. rewrite (Permutation_length Hp).
  replace (stable_sort candidate_leb (flatten modules'))
    with (stable_sort candidate_leb (flatten modules)); [done|].
  apply (stable_sort_unique candidate_compare); [apply candidate_leb_compare|by apply flatten_perm|].
  intros x y. by apply candidates_distinct.
Qed.

Lemma compile_order_independent_witness :
  cp_text ContextSample.prompt ≠ ""%string ∧
  compile ContextSample.modules ContextSample.budget =
  compile (reverse ContextSample.modules) ContextSample.budget.
Proof.
  split; [by vm_compute|]. apply compile_order_independent.
  - symmetry. apply reverse_Permutation.
  - apply (bool_decide_unpack _). by vm_compute.
Defined.

(** C37: The inspection explains the prompt: there is one row for every segment
    of the input, exact duplicates included (the comment at compiler.rs:43 and
    the crate's README speak of unique segments: [select] pushes a row for
    every candidate, so the duplicates have rows of their own); the text is the slices the rendered rows name, in the order of
    the rows and joined by the separator; and each slice is the content of a
    segment the row describes, or a proper prefix of it that ends at a character
    boundary followed by the truncation marker, where the segment allows that. *)
Theorem inspection_explains_prompt modules a b budget p :
  prompt_budget_new a b = Ok budget → Forall module_valid modules →
  compile modules budget = Ok p →
  (∃ cs, cs ≡ₚ flatten modules ∧ Forall2 describes cs (cp_inspection p)) ∧
  let rendered := filter is_rendered (cp_inspection p) in
  cp_text p = String.concat PROMPT_SEPARATOR (slice (cp_text p) <$> rendered) ∧
  ∀ e, e ∈ rendered → ∃ c, c ∈ flatten modules ∧ describes c e ∧
    shows (cd_segment c) (pe_disposition e) (slice (cp_text p) e).
Proof.
  intros Hbudget Hvalid Hp.
  destruct (compile_ok _ _ _ _ _ Hbudget Hvalid Hp) as (s & rows & pieces & Hc).
  split; [by eapply compiled_rows|]. cbv zeta. rewrite (compiled_rendered _ _ _ _ _ _ Hc).
  pose proof (placed_slices "" pieces (co_placed _ _ _ _ _ _ Hc)) as Hslices.
  change ("" ++ text_of pieces)%string with (text_of pieces) in Hslices.
  rewrite (co_text _ _ _ _ _ _ Hc). split.
  - unfold text_of at 1. f_equal. rewrite <- list_fmap_compose. symmetry.
    by apply Forall_fmap_ext_1.
  - intros e (q & -> & Hq)%list_elem_of_fmap. rewrite Forall_forall in Hslices.
    rewrite (Hslices q Hq). pose proof (co_pieces _ _ _ _ _ _ Hc) as Hpieces.
    rewrite Forall_forall in Hpieces. destruct (Hpieces q Hq) as (_ & c & Hin & ? & ?).
    exists c. split; [|done]. apply (sf_selected _ _ (co_selected _ _ _ _ _ _ Hc)) in Hin.
    by apply elem_of_stable_sort in Hin.
Qed.

Lemma inspection_explains_prompt_witness :
  length (filter is_rendered (cp_inspection ContextSample.prompt)) = 3 ∧
  (∃ cs, cs ≡ₚ flatten ContextSample.modules ∧
     Forall2 describes cs (cp_inspection ContextSample.prompt)).
Proof.
  split; [by vm_compute|].
  refine (proj1 (inspection_explains_prompt ContextSample.modules 40 1000 ContextSample.budget
    ContextSample.prompt _ ContextSample.modules_valid _)); by vm_compute.
Defined.

(** A conflict is won by precedence: of the segments that claim one key, some
    input segment precedes or equals all others in the order of authority,
    priority, module and position, agrees with every claimant of its own
    precedence, and is the only one of them the prompt may render. *)
Theorem conflicts_won_by_precedence modules a b budget p key :
  prompt_budget_new a b = Ok budget → Forall module_valid modules →
  compile modules budget = Ok p → Exists (λ c, claims c key) (flatten modules) →
  ∃ w, w ∈ flatten modules ∧ claims w key ∧
    (∀ c, c ∈ flatten modules → claims c key → candidate_leb w c = true ∧
       (same_precedence c w = true → sg_content (cd_segment c) = sg_content (cd_segment w))) ∧
    (∀ e c, e ∈ cp_inspection p → is_rendered e → c ∈ flatten modules → claims c key →
       pe_segment_id e = sg_id (cd_segment c) → describes w e).
Proof.
  intros Hbudget Hvalid Hp (c0 & Hc0 & Hk0)%Exists_exists.
  destruct (compile_ok _ _ _ _ _ Hbudget Hvalid Hp) as (s & rows & pieces & Hc).
  pose proof (co_selected _ _ _ _ _ _ Hc) as Hs.
  assert (∀ c, c ∈ sorted_candidates modules ↔ c ∈ flatten modules) as Hin
    by (intros c; apply elem_of_stable_sort).
  apply Hin in Hc0. destruct (sf_won _ _ Hs c0 key Hc0 Hk0) as (w & Hw & _).
  destruct (sf_winner _ _ Hs key w Hw) as [Hwin Hwk]. exists w.
  split; [by apply Hin|]. split; [done|]. split.
  - intros c Hcin%Hin Hck. destruct (sf_won _ _ Hs c key Hcin Hck) as (w' & Hw' & ? & ?).
    by simplify_eq.
  - intros e c He Hr Hcin%Hin Hck Hid.
    assert (e ∈ pieces.*1) as (q & -> & Hq)%list_elem_of_fmap.
    { rewrite <- (compiled_rendered _ _ _ _ _ _ Hc). by apply list_elem_of_filter. }
    pose proof (co_pieces _ _ _ _ _ _ Hc) as Hpieces. rewrite Forall_forall in Hpieces.
    destruct (Hpieces q Hq) as (_ & d & Hd & Hdesc & _).
    assert (cd_segment d = cd_segment c) as Heq.
    { destruct Hdesc as (_ & Hid' & _).
      eapply selected_segment; [done|by apply (sf_selected _ _ Hs)|done|congruence]. }
    assert (claims d key) as Hdk by (destruct Hck as (claim & ? & ?); exists claim; by rewrite Heq).
    pose proof (sf_holder _ _ Hs d key Hd Hdk) as Hh. by simplify_eq.
Qed.

Lemma conflicts_won_by_precedence_witness :
  ∃ w, w ∈ flatten ContextSample.modules ∧ claims w (mk_context_id "style").
Proof.
  destruct (conflicts_won_by_precedence ContextSample.modules 40 1000 ContextSample.budget
    ContextSample.prompt (mk_context_id "style")) as (w & Hw & Hk & _);
    [by vm_compute|apply ContextSample.modules_valid|by vm_compute| |by exists w].
  right. left. by eexists.
Defined.

(** C38: A compiled prompt is within its byte and token limits and shortens or
    omits no required segment; compilation fails for the budget only when the
    input has a required segment. *)
Theorem budget_respected modules a b budget :
  prompt_budget_new a b = Ok budget → Forall module_valid modules →
  (∀ p, compile modules budget = Ok p →
     (str_len (cp_text p) ≤ a)%N ∧ (cp_estimated_tokens p ≤ b)%N ∧
     ∀ e c, e ∈ cp_inspection p → c ∈ flatten modules →
       pe_segment_id e = sg_id (cd_segment c) →
       sg_budget_behavior (cd_segment c) = BudgetRequired →
       pe_disposition e ∉ [Truncated; OmittedForBudget]) ∧
  (∀ e, compile modules budget = Err e → ce_code e = ContextBudgetExceeded →
     ∃ c, c ∈ flatten modules ∧ sg_budget_behavior (cd_segment c) = BudgetRequired).
Proof.
  intros Hbudget Hvalid. assert (max_bytes budget = a ∧ max_estimated_tokens budget = b) as [Ha Hb].
  { unfold prompt_budget_new in Hbudget. destruct (_ || _) in Hbudget; by simplify_eq. }
  split.
  - intros p Hp. destruct (compile_ok _ _ _ _ _ Hbudget Hvalid Hp) as (s & rows & pieces & Hc).
    pose proof (co_selected _ _ _ _ _ _ Hc) as Hs.
    pose proof (within_estimate _ _ _ _ Hbudget (co_within _ _ _ _ _ _ Hc)) as Hw.
    rewrite orb_false_iff, !N.ltb_ge, Ha, Hb in Hw. destruct Hw as [Hw1 Hw2].
    split; [done|]. split; [by rewrite (compile_estimate _ _ _ Hp)|].
    intros e c He Hcin Hid Hreq. rewrite (co_inspection _ _ _ _ _ _ Hc), elem_of_stable_sort in He.
    apply elem_of_app in He as [He|He].
    + pose proof (sf_unrendered _ _ Hs) as Hu. rewrite Forall_forall in Hu.
      destruct (Hu e He) as [_ Hdisp]. revert Hdisp.
      by destruct (pe_disposition e); apply (bool_decide_unpack _).
    + apply list_elem_of_lookup in He as [i He].
      destruct (Forall2_lookup_r _ _ _ _ _ (co_accounted _ _ _ _ _ _ Hc) He)
        as (d & Hd%list_elem_of_lookup_2 & (_ & Hid' & _) & Hincl & _).
      rewrite Hincl; [set_solver|]. rewrite <- Hreq. f_equal.
      eapply selected_segment; [done|by apply (sf_selected _ _ Hs)|by apply elem_of_stable_sort|congruence].
  - intros e. by apply (budget_failure_required modules a b).
Qed.

Lemma budget_respected_witness :
  compile ContextSample.modules ContextSample.budget = Ok ContextSample.prompt ∧
  (str_len (cp_text ContextSample.prompt) ≤ 40)%N.
Proof.
  assert (compile ContextSample.modules ContextSample.budget = Ok ContextSample.prompt) as Hp
    by by vm_compute.
  split; [exact Hp|].
  refine (proj1 (proj1 (budget_respected ContextSample.modules 40 1000 ContextSample.budget _
    ContextSample.modules_valid) _ Hp)). by vm_compute.
Defined.
