(* ===== verification/ContextProviders.v ===== *)
(** * Context providers

    [crates/tea-context/src/provider.rs], [providers/]: requests, the provider
    port and the four built-in providers.  A provider is host code: its identity
    and a function that also receives the moment of the call.  The hyphenated
    text of a UUID is a parameter.  The claims: built-in providers stay within
    their authority and never exceed a budget, the order of tools does not
    matter, and skill commands round-trip. *)

From S2P Require Import Prelude Ordering Protocol Tools Usage ContextData ContextCompiler.
From S2P Require Import ContextTheorems.
Local Open Scope tea_scope.

(** ** Requests and the port ([provider.rs]) *)

Definition MAX_CONTEXT_TOOLS : N := 256.

Record ContextRequest : Set := mk_ContextRequest {
  xr_profile_id : ProfileId;
  xr_session_id : SessionId;
  xr_run_id : option RunId;
  xr_active_tools : list ToolSpec;
  xr_metadata : ProtocolMetadata
}.

Definition spec_name_leb (a b : ToolSpec) : bool :=
  str_leb (tn_str (sp_name a)) (tn_str (sp_name b)).

Definition context_request_new (profile_id : ProfileId) (session_id : SessionId)
    (run_id : option RunId) (active_tools : list ToolSpec) (metadata : ProtocolMetadata)
    : Result ContextError ContextRequest :=
  if (MAX_CONTEXT_TOOLS <? N.of_nat (length active_tools))%N
  then Err (context_error ContextBoundsExceeded "context request contains too many active tools")
  else
    let active_tools := stable_sort spec_name_leb active_tools in
    if adjacent_repeat (λ t, tn_str (sp_name t)) active_tools
    then Err (context_error ContextDuplicateIdentity
                "context request contains duplicate active tool names")
    else Ok (mk_ContextRequest profile_id session_id run_id active_tools metadata).

(** [dyn ContextProvider]. *)
Record ContextProvider : Type := mk_ContextProvider {
  xp_id : ContextProviderId;
  xp_provide : nat → ContextRequest → Result ContextError (list PromptModule)
}.

(** [StaticContextProvider]. *)
Definition static_provider (id : ContextProviderId) (modules : list PromptModule)
    : ContextProvider := mk_ContextProvider id (λ _ _, Ok modules).

(** ** Building blocks the providers share *)

Definition context_id_from {k} (value : string) : Result ContextError (context_id k) :=
  value_error identity_error_text (parse_context_id value).

Definition provenance_from (id : ContextProviderId) (source_kind locator : string)
    : Result ContextError PromptProvenance :=
  value_error provenance_error_text (provenance_new id source_kind (Some locator)).

Definition segment_from (id : PromptSegmentId) (content : string) (provenance : PromptProvenance)
    (trust : TrustLevel) (cache_scope : CacheScope) : Result ContextError PromptSegment :=
  value_error segment_error_text (segment_new id content provenance trust cache_scope BudgetOmit).

Definition module_from (id : string) (authority : PromptAuthority) (priority : Z)
    (segments : list PromptSegment) : Result ContextError PromptModule :=
  let? id := context_id_from id in
  value_error module_error_text (module_new id authority (mk_PromptPriority priority) segments).

(** ** Tool hints ([providers/tool_hints.rs]) *)

Definition tool_locator (tool : ToolSpec) : string :=
  (tn_str (sp_name tool) ++ "@" ++ tv_text (sp_version tool))%string.

Definition snippet_segment (id : ContextProviderId) (tool : ToolSpec) (snippet : string)
    : Result ContextError PromptSegment :=
  let? segment_id := context_id_from ("tool." ++ tn_str (sp_name tool) ++ ".snippet")%string in
  let? provenance := provenance_from id "tool_spec" (tool_locator tool) in
  segment_from segment_id ("Tool `" ++ tn_str (sp_name tool) ++ "`: " ++ snippet)%string provenance
    Delegated CacheProfile.

Definition guidelines_segment (id : ContextProviderId) (tool : ToolSpec)
    : Result ContextError PromptSegment :=
  let? segment_id := context_id_from ("tool." ++ tn_str (sp_name tool) ++ ".guidelines")%string in
  let guidelines :=
    String.concat LF ((λ guideline, "- " ++ guideline)%string <$> sp_prompt_guidelines tool) in
  let? provenance := provenance_from id "tool_spec" (tool_locator tool) in
  segment_from segment_id
    ("Tool `" ++ tn_str (sp_name tool) ++ "` guidelines:" ++ LF ++ guidelines)%string provenance
    Delegated CacheProfile.

(** [if !segments.is_empty() { modules.push(...) }]. *)
Definition optional_module (id : string) (authority : PromptAuthority) (priority : Z)
    (segments : list PromptSegment) : Result ContextError (list PromptModule) :=
  match segments with
  | [] => Ok []
  | _ => let? m := module_from id authority priority segments in Ok [m]
  end.

(** [ToolHintProvider::modules] after its check of the sorted tools. *)
Definition canonical_hint_modules (id : ContextProviderId) (active_tools : list ToolSpec)
    : Result ContextError (list PromptModule) :=
  let? snippets :=
    result_map (λ p, snippet_segment id p.1 p.2)
      (omap (λ tool, (λ snippet, (tool, snippet)) <$> sp_prompt_snippet tool) active_tools) in
  let? guidelines :=
    result_map (guidelines_segment id)
      (filter (λ tool, sp_prompt_guidelines tool ≠ []) active_tools) in
  let? snippets := optional_module "tool.active_snippets" AuthorityTool 1 snippets in
  let? guidelines := optional_module "tool.active_guidelines" AuthorityTool 0 guidelines in
  Ok (snippets ++ guidelines).

(** [ToolHintProvider::modules]. *)
Definition tool_hint_modules (id : ContextProviderId) (active_tools : list ToolSpec)
    : Result ContextError (list PromptModule) :=
  let active_tools := stable_sort spec_name_leb active_tools in
  if adjacent_repeat (λ t, tn_str (sp_name t)) active_tools
  then Err (context_error ContextDuplicateIdentity
              "active tool guidance contains a duplicate tool name")
  else canonical_hint_modules id active_tools.

Definition tool_hint_provider : Result ContextIdentityError ContextProvider :=
  let? id := parse_context_id "builtin.tool_hints" in
  Ok (mk_ContextProvider id (λ _ request, tool_hint_modules id (xr_active_tools request))).

(** ** Workspace instructions ([providers/workspace.rs]) *)

Definition MAX_WORKSPACE_INSTRUCTIONS : N := 128.

Record WorkspaceInstruction : Set := mk_WorkspaceInstruction {
  wi_id : PromptSegmentId;
  wi_content : string;
  wi_locator : string;
  wi_trust : TrustLevel
}.

Definition workspace_instruction_new (id : PromptSegmentId) (content locator : string)
    (trust : TrustLevel) : Result ContextError WorkspaceInstruction :=
  if bad_locator locator
  then Err (context_error ContextInvalidValue "workspace instruction locator is invalid")
  else
    let? provider_id := context_id_from "builtin.workspace_instructions" in
    let? provenance := provenance_from provider_id "workspace_file" locator in
    try? segment_from id content provenance trust CacheSession in
    Ok (mk_WorkspaceInstruction id content locator trust).

Definition instruction_leb (a b : WorkspaceInstruction) : bool :=
  str_leb (cid_str (wi_id a)) (cid_str (wi_id b)).

Definition instruction_segment (id : ContextProviderId) (instruction : WorkspaceInstruction)
    : Result ContextError PromptSegment :=
  let? provenance := provenance_from id "workspace_file" (wi_locator instruction) in
  segment_from (wi_id instruction) (wi_content instruction) provenance (wi_trust instruction)
    CacheSession.

Definition workspace_modules (id : ContextProviderId) (instructions : list WorkspaceInstruction)
    : Result ContextError (list PromptModule) :=
  match instructions with
  | [] => Ok []
  | _ =>
      let? segments := result_map (instruction_segment id) instructions in
      let? m := module_from "workspace.instructions" AuthorityWorkspace 0 segments in
      Ok [m]
  end.

Definition workspace_provider (instructions : list WorkspaceInstruction)
    : Result ContextError ContextProvider :=
  if (MAX_WORKSPACE_INSTRUCTIONS <? N.of_nat (length instructions))%N
  then Err (context_error ContextBoundsExceeded "workspace instruction collection is too large")
  else
    let instructions := stable_sort instruction_leb instructions in
    if adjacent_repeat (λ i, cid_str (wi_id i)) instructions
    then Err (context_error ContextDuplicateIdentity "workspace instruction ID is duplicated")
    else
      let? id := context_id_from "builtin.workspace_instructions" in
      Ok (mk_ContextProvider id (λ _ _, workspace_modules id instructions)).

(** ** Skill metadata ([providers/skills.rs]) *)

Definition MAX_ACTIVE_SKILLS : N := 128.

Definition skill_leb (a b : SkillMetadata) : bool :=
  str_leb (cid_str (sk_id a)) (cid_str (sk_id b)).

Definition skill_segment (id : ContextProviderId) (skill : SkillMetadata)
    : Result ContextError PromptSegment :=
  let? segment_id := context_id_from ("skill." ++ cid_str (sk_id skill) ++ ".metadata")%string in
  let? provenance := provenance_from id "skill_metadata" (cid_str (sk_id skill)) in
  segment_from segment_id
    ("Skill `" ++ cid_str (sk_id skill) ++ "`: " ++ sk_description skill
     ++ " Invoke explicitly with `" ++ show_skill_command (skill_command skill) ++ "`.")%string
    provenance Delegated CacheProfile.

Definition skill_modules (id : ContextProviderId) (skills : list SkillMetadata)
    : Result ContextError (list PromptModule) :=
  match skills with
  | [] => Ok []
  | _ =>
      let? segments := result_map (skill_segment id) skills in
      let? m := module_from "skill.active_metadata" AuthoritySkill 0 segments in
      Ok [m]
  end.

Definition skill_provider (skills : list SkillMetadata) : Result ContextError ContextProvider :=
  if (MAX_ACTIVE_SKILLS <? N.of_nat (length skills))%N
  then Err (context_error ContextBoundsExceeded "active skill collection is too large")
  else
    let skills := stable_sort skill_leb skills in
    if adjacent_repeat (λ s, cid_str (sk_id s)) skills
    then Err (context_error ContextDuplicateIdentity "active skill ID is duplicated")
    else
      let? id := context_id_from "builtin.skill_metadata" in
      Ok (mk_ContextProvider id (λ _ _, skill_modules id skills)).

(** ** The session summary ([providers/session.rs]) *)

Section session_summary.
Context `{UuidText}.

Definition summary_segment (id : ContextProviderId) (summary : string) (record_id : RecordId)
    (trust : TrustLevel) : Result ContextError PromptSegment :=
  let? segment_id := context_id_from "session.summary" in
  let? provenance := provenance_from id "session_record" (hyphenated (as_uuid record_id)) in
  segment_from segment_id summary provenance trust CacheSession.

Definition summary_modules (id : ContextProviderId)
    (summary : option (string * RecordId * TrustLevel))
    : Result ContextError (list PromptModule) :=
  match summary with
  | None => Ok []
  | Some (summary, record_id, trust) =>
      let? segment := summary_segment id summary record_id trust in
      let? key := context_id_from "session.summary" in
      let segment := with_conflict segment (mk_ConflictClaim key ConflictReplaceable) in
      let? m := module_from "session.summary" AuthoritySession 0 [segment] in
      Ok [m]
  end.

Definition empty_summary_provider : Result ContextError ContextProvider :=
  let? id := context_id_from "builtin.session_summary" in
  Ok (mk_ContextProvider id (λ _ _, summary_modules id None)).

Definition summary_provider (summary : string) (record_id : RecordId) (trust : TrustLevel)
    : Result ContextError ContextProvider :=
  let? id := context_id_from "builtin.session_summary" in
  try? summary_segment id summary record_id trust in
  Ok (mk_ContextProvider id (λ _ _, summary_modules id (Some (summary, record_id, trust)))).
End session_summary.

(** The loop of [compile_prompt] over its providers; [moment] counts the calls. *)
Fixpoint provide_all (moment : nat) (providers : list ContextProvider) (request : ContextRequest)
    : Result ContextError (list PromptModule) :=
  match providers with
  | [] => Ok []
  | provider :: rest =>
      let? provided := xp_provide provider moment request in
      let? modules := provide_all (S moment) rest request in
      Ok (provided ++ modules)
  end.

(** ** Canonical tools *)

Lemma canonical_tools {B} (tools tools' : list ToolSpec) (failed : B) (k : list ToolSpec → B) :
  tools ≡ₚ tools' →
  (let sorted := stable_sort spec_name_leb tools in
   if adjacent_repeat (λ t, tn_str (sp_name t)) sorted then failed else k sorted) =
  (let sorted := stable_sort spec_name_leb tools' in
   if adjacent_repeat (λ t, tn_str (sp_name t)) sorted then failed else k sorted).
Proof.
  intros Hp. cbv zeta. pose proof (adjacent_repeat_sort (λ t, tn_str (sp_name t)) spec_name_leb)
    as Hrep. assert (∀ x y, spec_name_leb x y = str_leb (tn_str (sp_name x)) (tn_str (sp_name y)))
    as Hleb by done.
  destruct (decide (NoDup ((λ t, tn_str (sp_name t)) <$> tools))) as [Hnd|Hnd].
  - by rewrite (sort_by_key_unique _ _ _ _ Hleb Hnd Hp).
  - assert (¬ NoDup ((λ t, tn_str (sp_name t)) <$> tools')) as Hnd' by (by rewrite <- Hp).
    rewrite <- (Hrep _ Hleb) in Hnd. rewrite <- (Hrep _ Hleb) in Hnd'.
    apply not_false_iff_true in Hnd as ->. by apply not_false_iff_true in Hnd' as ->.
Qed.

(** ** What the built-in providers build *)

Lemma value_error_ok {E A} (text : E → string) (r : Result E A) a :
  value_error text r = Ok a ↔ r = Ok a.
Proof. unfold value_error. destruct r; simpl; naive_solver. Qed.

Definition provided_segment (s : PromptSegment) : Prop :=
  segment_valid s ∧ sg_budget_behavior s = BudgetOmit.

Lemma segment_from_ok id content provenance trust cache_scope s :
  segment_from id content provenance trust cache_scope = Ok s → provided_segment s.
Proof.
  unfold segment_from. intros H%value_error_ok. unfold segment_new in H.
  by apply result_bind_ok in H as ([] & ? & [= <-]).
Qed.

(** Modules below the authority of workspaces, with segments that give way. *)
Definition provided_module (authority : PromptAuthority) (m : PromptModule) : Prop :=
  md_authority m = authority ∧ Forall provided_segment (md_segments m).

Lemma module_from_ok id authority priority segments m :
  module_from id authority priority segments = Ok m → Forall provided_segment segments →
  provided_module authority m.
Proof.
  unfold module_from. intros (i & _ & H%value_error_ok)%result_bind_ok. unfold module_new in H.
  cbv zeta in H. repeat case_match; by simplify_eq.
Qed.

Lemma result_map_Forall {E A B} (f : A → Result E B) (P : B → Prop) l ys :
  (∀ x y, f x = Ok y → P y) → result_map f l = Ok ys → Forall P ys.
Proof. intros Hf H%result_map_ok. induction H; constructor; eauto. Qed.

Lemma optional_module_ok id authority priority segments modules :
  optional_module id authority priority segments = Ok modules → Forall provided_segment segments →
  Forall (provided_module authority) modules.
Proof.
  unfold optional_module. destruct segments; [by intros [= <-]|].
  intros (m & Hm & [= <-])%result_bind_ok Hs. constructor; [|constructor]. by eapply module_from_ok.
Qed.

Lemma snippet_segment_ok id tool snippet s : snippet_segment id tool snippet = Ok s → provided_segment s.
Proof.
  unfold snippet_segment. intros (? & _ & (? & _ & H)%result_bind_ok)%result_bind_ok.
  by eapply segment_from_ok.
Qed.
Lemma guidelines_segment_ok id tool s : guidelines_segment id tool = Ok s → provided_segment s.
Proof.
  unfold guidelines_segment. intros (? & _ & (? & _ & H)%result_bind_ok)%result_bind_ok.
  by eapply segment_from_ok.
Qed.
Lemma instruction_segment_ok id i s : instruction_segment id i = Ok s → provided_segment s.
Proof.
  unfold instruction_segment. intros (? & _ & H)%result_bind_ok. by eapply segment_from_ok.
Qed.
Lemma skill_segment_ok id skill s : skill_segment id skill = Ok s → provided_segment s.
Proof.
  unfold skill_segment. intros (? & _ & (? & _ & H)%result_bind_ok)%result_bind_ok.
  by eapply segment_from_ok.
Qed.

(** The providers the crate builds. *)
Inductive builtin_provider `{UuidText} : PromptAuthority → ContextProvider → Prop :=
| builtin_tools p : tool_hint_provider = Ok p → builtin_provider AuthorityTool p
| builtin_workspace instructions p :
    workspace_provider instructions = Ok p → builtin_provider AuthorityWorkspace p
| builtin_skills skills p : skill_provider skills = Ok p → builtin_provider AuthoritySkill p
| builtin_no_summary p : empty_summary_provider = Ok p → builtin_provider AuthoritySession p
| builtin_summary summary record_id trust p :
    summary_provider summary record_id trust = Ok p → builtin_provider AuthoritySession p.

Section builtin.
Context `{UuidText}.

Lemma tool_hint_modules_ok id tools modules :
  tool_hint_modules id tools = Ok modules → Forall (provided_module AuthorityTool) modules.
Proof.
  unfold tool_hint_modules. cbv zeta. case_match; [done|]. unfold canonical_hint_modules.
  intros (snippets & Hs & (guidelines & Hg & Hm)%result_bind_ok)%result_bind_ok.
  apply result_bind_ok in Hm as (m1 & H1 & (m2 & H2 & [= <-])%result_bind_ok).
  apply Forall_app. split; eapply optional_module_ok; try done; eapply result_map_Forall;
    try done; [intros [??]; apply snippet_segment_ok|apply guidelines_segment_ok].
Qed.

Lemma listed_modules_ok {A} (f : A → Result ContextError PromptSegment) id authority l modules :
  (∀ x s, f x = Ok s → provided_segment s) →
  match l with
  | [] => Ok []
  | _ => let? segments := result_map f l in let? m := module_from id authority 0 segments in Ok [m]
  end%tea = Ok modules → Forall (provided_module authority) modules.
Proof.
  intros Hf. destruct l as [|x l]; [by intros [= <-]|].
  intros (segments & Hs & (m & Hm & [= <-])%result_bind_ok)%result_bind_ok.
  constructor; [|constructor]. eapply module_from_ok; [done|]. by eapply result_map_Forall.
Qed.

Lemma summary_modules_ok id summary modules :
  summary_modules id summary = Ok modules → Forall (provided_module AuthoritySession) modules.
Proof.
  unfold summary_modules. destruct summary as [[[text record_id] trust]|]; [|by intros [= <-]].
  intros (s & Hs & (key & _ & (m & Hm & [= <-])%result_bind_ok)%result_bind_ok)%result_bind_ok.
  constructor; [|constructor]. eapply module_from_ok; [done|]. constructor; [|constructor].
  unfold summary_segment in Hs. apply result_bind_ok in Hs as (? & _ & (? & _ & Hs)%result_bind_ok).
  by apply segment_from_ok in Hs.
Qed.

Lemma builtin_provides authority p moment request modules :
  builtin_provider authority p → xp_provide p moment request = Ok modules →
  Forall (provided_module authority) modules.
Proof.
  destruct 1 as [p Hp|instructions p Hp|skills p Hp|p Hp|summary record_id trust p Hp].
  - apply result_bind_ok in Hp as (id & _ & [= <-]). apply tool_hint_modules_ok.
  - unfold workspace_provider in Hp. cbv zeta in Hp. repeat case_match; try done.
    apply result_bind_ok in Hp as (id & _ & [= <-]). apply listed_modules_ok, instruction_segment_ok.
  - unfold skill_provider in Hp. cbv zeta in Hp. repeat case_match; try done.
    apply result_bind_ok in Hp as (id & _ & [= <-]). apply listed_modules_ok, skill_segment_ok.
  - apply result_bind_ok in Hp as (id & _ & [= <-]). by intros [= <-].
  - apply result_bind_ok in Hp as (id & _ & (? & _ & [= <-])%result_bind_ok).
    apply (summary_modules_ok id (Some (summary, record_id, trust))).
Qed.
End builtin.

(** ** Skill commands *)

Lemma split_once_space_app a b :
  existsb (λ c, (c =? 32)%N) (bytes a) = false → split_once_space (a ++ " " ++ b) = Some (a, b).
Proof.
  induction a as [|c a IH]; [done|]. rewrite bytes_cons. intros [Hc Ha]%orb_false_iff.
  change (split_once_space (String c (a ++ " " ++ b)) = Some (String c a, b)).
  simpl. rewrite Hc. simpl in IH. by rewrite IH.
Qed.

Lemma split_once_space_none a :
  existsb (λ c, (c =? 32)%N) (bytes a) = false → split_once_space a = None.
Proof.
  induction a as [|c a IH]; [done|]. rewrite bytes_cons. intros [Hc Ha]%orb_false_iff.
  simpl. by rewrite Hc, IH.
Qed.

Lemma identity_no_space {k} value (id : context_id k) :
  parse_context_id value = Ok id →
  cid_str id = value ∧ existsb (λ c, (c =? 32)%N) (bytes value) = false.
Proof.
  unfold parse_context_id. intros ([] & Hv & [= <-])%result_bind_ok. split; [done|].
  unfold validate_id in Hv. apply ensure_ok, negb_true_iff in Hv.
  rewrite !orb_false_iff, negb_false_iff in Hv. destruct Hv as [_ Hv].
  unfold head_and_all in Hv. destruct (bytes value) as [|b bs]; [done|].
  apply andb_true_iff in Hv as [Hb Hbs]. apply not_true_iff_false. simpl.
  rewrite orb_true_iff, existsb_exists. intros [->%N.eqb_eq|(x & Hx & ->%N.eqb_eq)]; [done|].
  rewrite forallb_forall in Hbs. by specialize (Hbs _ Hx).
Qed.

Lemma identity_parses {k} (id : context_id k) value :
  parse_context_id value = Ok id → parse_context_id (cid_str id) = Ok id.
Proof. intros H. by destruct (identity_no_space _ _ H) as [-> _]. Qed.

Lemma trim_start_id s : leading_whitespace (bytes s) = None → trim_start s = s.
Proof. unfold trim_start. intros H. destruct (String.length s); cbn [trim_start_fuel]; by rewrite ?H. Qed.

(** ** Samples *)

Module ProviderSample.

#[export] Instance uuid_text : UuidText := 
  {| hyphenated := λ _, "01890000-0000-7000-8000-000000000000"; uuid_parse := λ _, None |}.

Definition tool (name : string) (snippet : option string) (guidelines : list string) : ToolSpec :=
  mk_ToolSpec (mk_ToolName name) (mk_ToolVersion "1.0.0") None "A tool." (JObject []) (JObject [])
    [FsRead] native_product
    (mk_ToolExecutionSemantics Idempotent RetryNever ConcurrencySerial (mk_ToolTimeout 1000))
    snippet guidelines None.

Definition read : ToolSpec := tool "read" (Some "reads files") ["Prefer ranges."].
Definition grep : ToolSpec := tool "grep" (Some "searches files") [].
Definition tools : list ToolSpec := [read; grep].

Definition provider : ContextProvider :=
  match tool_hint_provider with
  | Ok p => p
  | Err _ => static_provider (mk_context_id "") []
  end.

Definition request : ContextRequest := mk_ContextRequest (mk_selector "p") (mk_id 1) None tools ∅.

Definition modules : list PromptModule :=
  match provide_all 0 [provider] request with Ok modules => modules | Err _ => [] end.

End ProviderSample.

(** ** Claims *)

(** The built-in context providers speak with the authority of workspaces,
    tools, skills or the session only, their segments are well formed and give
    way to the budget, and so a prompt built from them alone never fails for its
    budget. *)
Theorem builtin_prompts_fit `{UuidText} providers moment request modules a b budget :
  Forall (λ p, ∃ authority, builtin_provider authority p) providers →
  provide_all moment providers request = Ok modules → prompt_budget_new a b = Ok budget →
  Forall (λ m, md_authority m ∈ [AuthorityWorkspace; AuthorityTool; AuthoritySkill; AuthoritySession]
               ∧ Forall provided_segment (md_segments m)) modules ∧
  (∀ e, compile modules budget = Err e → ce_code e ≠ ContextBudgetExceeded).
Proof.
  intros Hp Hm Hbudget.
  assert (Forall (λ m, md_authority m ∈
    [AuthorityWorkspace; AuthorityTool; AuthoritySkill; AuthoritySession] ∧
    Forall provided_segment (md_segments m)) modules) as Hall.
  { revert moment modules Hm. induction Hp as [|p rest [authority Hp] _ IH]; intros moment modules.
    - intros [= <-]. constructor.
    - simpl. intros (m1 & H1 & (m2 & H2 & [= <-])%result_bind_ok)%result_bind_ok.
      apply Forall_app. split; [|by eapply IH]. eapply Forall_impl; [by eapply builtin_provides|].
      intros m [-> Hs]. split; [|done]. destruct Hp; set_solver. }
  split; [done|]. intros e He Hcode.
  eapply budget_failure_required in He as (c & Hc & Hreq); [|done| |done].
  - apply elem_of_flatten in Hc as (m & i & s & Hm' & Hs & ->). simpl in Hreq.
    rewrite Forall_forall in Hall. destruct (Hall m Hm') as [_ Hsegs].
    destruct (Forall_lookup_1 _ _ _ _ Hsegs Hs) as [_ Homit]. congruence.
  - eapply Forall_impl; [done|]. intros m [_ Hs]. eapply Forall_impl; [done|]. by intros s [? _].
Qed.

Lemma builtin_prompts_fit_witness :
  length ProviderSample.modules = 2 ∧
  ∀ e, compile ProviderSample.modules ContextSample.budget = Err e → ce_code e ≠ ContextBudgetExceeded.
Proof.
  split; [by vm_compute|].
  refine (proj2 (@builtin_prompts_fit ProviderSample.uuid_text [ProviderSample.provider] 0
    ProviderSample.request ProviderSample.modules 40 1000 ContextSample.budget _ _ _)).
  - constructor; [|constructor]. exists AuthorityTool. apply builtin_tools. reflexivity.
  - vm_compute. reflexivity.
  - reflexivity.
Defined.

(** The order in which active tools are listed changes neither a context
    request nor the modules of the tool-hint provider; a repeated tool name is
    refused in every order. *)
Theorem tool_order_irrelevant tools tools' id profile_id session_id run_id metadata :
  tools ≡ₚ tools' →
  context_request_new profile_id session_id run_id tools metadata =
  context_request_new profile_id session_id run_id tools' metadata ∧
  tool_hint_modules id tools = tool_hint_modules id tools'.
Proof.
  intros Hp. split.
  - unfold context_request_new. rewrite (Permutation_length Hp). case_match; [done|].
    apply (canonical_tools _ _ (Err _) (λ sorted,
      Ok (mk_ContextRequest profile_id session_id run_id sorted metadata)) Hp).
  - apply (canonical_tools _ _ (Err _) (canonical_hint_modules id) Hp).
Qed.

Lemma tool_order_irrelevant_witness :
  tool_hint_modules (mk_context_id "builtin.tool_hints") ProviderSample.tools =
  tool_hint_modules (mk_context_id "builtin.tool_hints") (reverse ProviderSample.tools).
Proof.
  refine (proj2 (tool_order_irrelevant ProviderSample.tools (reverse ProviderSample.tools) _
    (mk_selector "p") (mk_id 1) None ∅ _)).
  symmetry. apply reverse_Permutation.
Defined.

(** A skill command parses back from its text, unless its arguments begin
    with white space, which the parser trims; so does a skill invocation. *)
Theorem skill_command_round_trip value arguments id c :
  parse_context_id value = Ok id → skill_command_new id arguments = Ok c →
  leading_whitespace (bytes arguments) = None →
  parse_skill_command (show_skill_command c) = Ok c ∧
  parse_skill_invocation (show_skill_invocation (mk_SkillInvocation id)) =
    Ok (mk_SkillInvocation id).
Proof.
  intros Hid Hc Hws. destruct (identity_no_space _ _ Hid) as [Hstr Hspace].
  assert (c = mk_SkillCommand id arguments) as ->.
  { unfold skill_command_new in Hc. by destruct (_ || _); simplify_eq. }
  pose proof (identity_parses _ _ Hid) as Hparse. rewrite <- Hstr in Hspace. split.
  - unfold parse_skill_command, show_skill_command. rewrite strip_prefix_app.
    simpl sc_skill_id. simpl sc_arguments. simpl ok_or. unfold result_bind at 1.
    destruct (String.eqb_spec arguments "") as [->|Hne].
    + rewrite string_app_nil_r, split_once_space_none by done. by rewrite Hparse.
    + rewrite split_once_space_app, trim_start_id by done. by rewrite Hparse.
  - unfold parse_skill_invocation, show_skill_invocation. rewrite strip_prefix_app. simpl si_skill_id.
    rewrite Hspace. simpl ok_or. unfold result_bind at 1. by rewrite Hparse.
Qed.

Lemma skill_command_round_trip_witness :
  parse_skill_command "/skill:review src/main.rs" =
    Ok (mk_SkillCommand (mk_context_id "review") "src/main.rs") ∧
  parse_skill_invocation "@skill review" = Ok (mk_SkillInvocation (mk_context_id "review")).
Proof.
  refine (skill_command_round_trip "review" "src/main.rs" (mk_context_id "review")
    (mk_SkillCommand (mk_context_id "review") "src/main.rs") _ _ _); by vm_compute.
Defined.

(** A name that the tool registry accepts, and that fails every prompt of its
    profile: the identity of its segment is not canonical. *)
Lemma dotted_tool_name_fails_prompt :
  parse_tool_name "a..b" = Ok (mk_ToolName "a..b") ∧
  tool_hint_modules (mk_context_id "builtin.tool_hints")
    [ProviderSample.tool "a..b" (Some "does something") []] =
    Err (context_error ContextInvalidValue "context identifier is not canonical").
Proof. by vm_compute. Qed.
