(* ===== verification/Event.v ===== *)
(** * Agent events

    [crates/tea-protocol/src/event.rs]: the observations a run publishes, their
    payload bounds and the run and turn references each kind requires; and the
    retry classes of [error.rs].  Their JSON form and the inspection of unknown
    events are not modelled. *)

From S2P Require Import Prelude Protocol Usage Validation.
Local Open Scope tea_scope.

Definition MAX_EVENT_DELTA_BYTES : N := 65536.
Definition MAX_PROGRESS_MESSAGE_BYTES : N := 4096.
Definition MAX_APPROVAL_ITEMS : nat := 64.
Definition MAX_APPROVAL_ITEM_BYTES : N := 1024.
Definition MAX_HOSTED_TOOL_SOURCES : N := 64.

(** [RetryClass] ([error.rs]). *)
Inductive RetryClass : Set := RetryClassNever | RetryImmediate | RetryAfterBackoff.

#[export] Instance RetryClass_eq_dec : EqDecision RetryClass.
Proof. solve_decision. Defined.

Inductive EventCompatibility : Set := SkippableObservation | RequiredStateBearing.

Inductive AgentEventType : Set :=
| TypeRunStarted | TypeMessageDelta | TypeToolCallRequested | TypeApprovalRequested
| TypeToolExecutionProgress | TypeToolExecutionPreview | TypeHostedToolStarted
| TypeHostedToolCompleted | TypeModelRetryScheduled | TypeModelRetryStarted
| TypeTurnCheckpointed | TypeSessionCompacted | TypeSessionForked | TypeRunFinished.

Definition compatibility (kind : AgentEventType) : EventCompatibility :=
  match kind with
  | TypeMessageDelta | TypeToolExecutionProgress | TypeToolExecutionPreview
  | TypeHostedToolStarted | TypeHostedToolCompleted | TypeModelRetryScheduled
  | TypeModelRetryStarted => SkippableObservation
  | TypeRunStarted | TypeToolCallRequested | TypeApprovalRequested | TypeTurnCheckpointed
  | TypeSessionCompacted | TypeSessionForked | TypeRunFinished => RequiredStateBearing
  end.

Inductive EventDelta : Set := TextDelta (text : string) | ThinkingDelta (text : string).

Inductive RunStatus : Set :=
| StatusCompleted | StatusCancelled | StatusFailed | StatusInterrupted.

#[export] Instance RunStatus_eq_dec : EqDecision RunStatus.
Proof. solve_decision. Defined.

Inductive AgentEvent : Set :=
| EventRunStarted
| EventMessageDelta (message_id : MessageId) (content_index : N) (delta : EventDelta)
| EventToolCallRequested (tool_call_id : ToolCallId) (tool_name : string) (arguments : Value)
| EventApprovalRequested (approval_id : ApprovalId) (tool_call_id : ToolCallId)
    (capabilities resources : list string) (expires_at : ProtocolTimestamp)
| EventToolExecutionProgress (tool_call_id : ToolCallId) (message : string)
    (completed_units : N) (total_units : option N)
| EventToolExecutionPreview (tool_call_id : ToolCallId) (presentation : ToolPresentation)
| EventHostedToolStarted (tool_call_id : ToolCallId) (tool_name : string)
| EventHostedToolCompleted (tool_call_id : ToolCallId) (tool_name : string)
    (arguments : Value) (outcome : HostedToolOutcome) (source_count : N)
| EventModelRetryScheduled (message_id : MessageId) (attempt max_retries delay_ms : N)
| EventModelRetryStarted (message_id : MessageId) (attempt max_retries : N)
| EventTurnCheckpointed
| EventSessionCompacted (summary_message_id compacted_through_message_id : MessageId)
| EventSessionForked (source_branch_id branch_id : BranchId) (from_message_id : MessageId)
| EventRunFinished (status : RunStatus) (usage : option Usage) (cost : option ExactCost).

Definition event_type (event : AgentEvent) : AgentEventType :=
  match event with
  | EventRunStarted => TypeRunStarted
  | EventMessageDelta _ _ _ => TypeMessageDelta
  | EventToolCallRequested _ _ _ => TypeToolCallRequested
  | EventApprovalRequested _ _ _ _ _ => TypeApprovalRequested
  | EventToolExecutionProgress _ _ _ _ => TypeToolExecutionProgress
  | EventToolExecutionPreview _ _ => TypeToolExecutionPreview
  | EventHostedToolStarted _ _ => TypeHostedToolStarted
  | EventHostedToolCompleted _ _ _ _ _ => TypeHostedToolCompleted
  | EventModelRetryScheduled _ _ _ _ => TypeModelRetryScheduled
  | EventModelRetryStarted _ _ _ => TypeModelRetryStarted
  | EventTurnCheckpointed => TypeTurnCheckpointed
  | EventSessionCompacted _ _ => TypeSessionCompacted
  | EventSessionForked _ _ _ => TypeSessionForked
  | EventRunFinished _ _ _ => TypeRunFinished
  end.

Inductive EventValidationError : Set :=
| InvalidDelta | InvalidToolCallEvent (e : ContentValidationError) | InvalidApprovalItems
| InvalidProgressEvent | InvalidHostedToolObservation | InvalidModelRetry
| InvalidEventReferences.

Definition delta_validate (delta : EventDelta) : Result EventValidationError unit :=
  match delta with
  | TextDelta text | ThinkingDelta text =>
      ensure (bounded_text text MAX_EVENT_DELTA_BYTES) InvalidDelta
  end.

Definition validate_items (items : list string) : Result EventValidationError unit :=
  ensure (negb (length items =? 0)%nat && (length items <=? MAX_APPROVAL_ITEMS)%nat
          && forallb (λ item, bounded_line item MAX_APPROVAL_ITEM_BYTES) items)
    InvalidApprovalItems.

Definition validate_model_retry (attempt max_retries : N) (delay_ms : option N)
    : Result EventValidationError unit :=
  ensure (negb ((attempt =? 0)%N || (max_retries =? 0)%N || (max_retries <? attempt)%N
                || match delay_ms with
                   | Some delay => (MAX_SAFE_INTEGER <? delay)%N
                   | None => false
                   end)) InvalidModelRetry.

Section codec.
Context `{Codec}.

Definition validate_event_call (tool_call_id : ToolCallId) (tool_name : string)
    (arguments : Value) : Result EventValidationError unit :=
  try? map_err InvalidToolCallEvent (tool_call_inner tool_call_id None tool_name arguments) in
  Ok tt.

Definition event_validate (event : AgentEvent) : Result EventValidationError unit :=
  match event with
  | EventMessageDelta _ _ delta => delta_validate delta
  | EventToolCallRequested tool_call_id tool_name arguments =>
      validate_event_call tool_call_id tool_name arguments
  | EventApprovalRequested _ _ capabilities resources _ =>
      try? validate_items capabilities in validate_items resources
  | EventToolExecutionProgress _ message completed_units total_units =>
      ensure (bounded_text message MAX_PROGRESS_MESSAGE_BYTES
              && (completed_units <=? MAX_SAFE_INTEGER)%N
              && match total_units with
                 | Some total => (total <=? MAX_SAFE_INTEGER)%N && (completed_units <=? total)%N
                 | None => true
                 end) InvalidProgressEvent
  | EventHostedToolStarted tool_call_id tool_name =>
      validate_event_call tool_call_id tool_name (JObject [])
  | EventHostedToolCompleted tool_call_id tool_name arguments _ source_count =>
      try? validate_event_call tool_call_id tool_name arguments in
      ensure (source_count <=? MAX_HOSTED_TOOL_SOURCES)%N InvalidHostedToolObservation
  | EventModelRetryScheduled _ attempt max_retries delay_ms =>
      validate_model_retry attempt max_retries (Some delay_ms)
  | EventModelRetryStarted _ attempt max_retries =>
      validate_model_retry attempt max_retries None
  | EventToolExecutionPreview _ _ | EventRunStarted | EventTurnCheckpointed
  | EventSessionCompacted _ _ | EventSessionForked _ _ _ | EventRunFinished _ _ _ => Ok tt
  end.

Record EventEnvelope : Set := mk_EventEnvelope {
  evt_protocol_version : ProtocolVersion;
  evt_event_id : EventId;
  evt_session_id : SessionId;
  evt_run_id : option RunId;
  evt_turn_id : option TurnId;
  evt_sequence : SessionSequence;
  evt_timestamp : ProtocolTimestamp;
  evt_metadata : ProtocolMetadata;
  evt_event : AgentEvent
}.

(** The run and turn references an event kind requires. *)
Definition required_references (kind : AgentEventType) : bool * bool :=
  match kind with
  | TypeRunStarted | TypeRunFinished => (true, false)
  | TypeMessageDelta | TypeToolCallRequested | TypeApprovalRequested
  | TypeToolExecutionProgress | TypeToolExecutionPreview | TypeHostedToolStarted
  | TypeHostedToolCompleted | TypeModelRetryScheduled | TypeModelRetryStarted
  | TypeTurnCheckpointed => (true, true)
  | TypeSessionCompacted | TypeSessionForked => (false, false)
  end.

Definition event_envelope_validate (envelope : EventEnvelope)
    : Result EventValidationError unit :=
  try? event_validate (evt_event envelope) in
  let '(requires_run, requires_turn) := required_references (event_type (evt_event envelope)) in
  ensure (eqb (bool_decide (is_Some (evt_run_id envelope))) requires_run
          && eqb (bool_decide (is_Some (evt_turn_id envelope))) requires_turn)
    InvalidEventReferences.

Definition event_envelope_new (event_id : EventId) (session_id : SessionId)
    (run_id : option RunId) (turn_id : option TurnId) (sequence : SessionSequence)
    (timestamp : ProtocolTimestamp) (metadata : ProtocolMetadata) (event : AgentEvent)
    : Result EventValidationError EventEnvelope :=
  let envelope := mk_EventEnvelope CURRENT_PROTOCOL_VERSION event_id session_id run_id turn_id
                    sequence timestamp metadata event in
  try? event_envelope_validate envelope in Ok envelope.
End codec.
