(* ===== verification/Registry.v ===== *)
(** * The tool registry and tool execution streams

    [crates/tea-tools]: compiled schemas ([schema.rs]), results and failures
    ([result.rs]), execution events and the stream validator ([executor.rs]),
    and bindings and the registry ([registry.rs]) with its projection of the
    tools into a model request.  A resolver or executor is host code: a record
    of its methods, which also receive the moment of the call, so that it may
    answer differently at different times.  A stream is the list of the events
    it yields before it ends. *)

From S2P Require Import Prelude Protocol Tools Validation Usage ModelSpec.
Local Open Scope tea_scope.

(** ** Compiled schemas ([schema.rs]) *)

Inductive SchemaCompilationError : Set := SchemaOutOfBounds | ExternalReference | SchemaInvalid.

Record SchemaValidationError : Set := mk_SchemaValidationError {
  sve_code : string;
  sve_instance_path : string;
  sve_schema_path : string;
  sve_message : string
}.

Inductive SchemaValidationFailure : Set :=
| ValueOutOfBounds
| ValueInvalid (errors : list SchemaValidationError).

(** The validator of a compiled schema is a function of its source. *)
Record CompiledToolSchema : Set := mk_CompiledToolSchema { cs_source : Value }.

Definition MAX_SCHEMA_ERRORS : nat := 16.
Definition MAX_SCHEMA_ERROR_MESSAGE_BYTES : nat := 4096.

(** The last path segment that is neither empty nor an index, with ['~']
    replaced. *)
Definition schema_keyword (schema_path : string) : string :=
  match list_find (λ segment, negb (length segment =? 0)%nat
                              && negb (forallb is_ascii_digit segment) = true)
          (reverse (split_bytes 47 (bytes schema_path))) with
  | Some (_, segment) => string_of_bytes ((λ b, if (b =? 126)%N then 95%N else b) <$> segment)
  | None => "schema_validation"
  end.

Definition normalize_error (e : EngineError) : SchemaValidationError :=
  mk_SchemaValidationError (schema_keyword (ee_schema_path e)) (ee_instance_path e)
    (ee_schema_path e) (truncate_utf8 (ee_text e) MAX_SCHEMA_ERROR_MESSAGE_BYTES).

(** The order of the sort: instance path, schema path, message. *)
Definition schema_error_leb (a b : SchemaValidationError) : bool :=
  lex_leb (String.compare (sve_instance_path a) (sve_instance_path b))
    (lex_leb (String.compare (sve_schema_path a) (sve_schema_path b))
       (str_leb (sve_message a) (sve_message b))).

Section schema.
Context `{Codec, SchemaEngine}.

Definition schema_compile (source : Value) : Result SchemaCompilationError CompiledToolSchema :=
  try? ensure (validate_json_bounds json_len source) SchemaOutOfBounds in
  try? ensure (negb (contains_external_reference source)) ExternalReference in
  try? ensure (schema_builds source) SchemaInvalid in
  Ok (mk_CompiledToolSchema source).

Definition schema_validate_prebounded (schema : CompiledToolSchema) (value : Value)
    : Result SchemaValidationFailure unit :=
  let errors := take MAX_SCHEMA_ERRORS
                  (normalize_error <$> schema_errors (cs_source schema) value) in
  match stable_sort schema_error_leb errors with
  | [] => Ok tt
  | sorted => Err (ValueInvalid sorted)
  end.

Definition schema_validate (schema : CompiledToolSchema) (value : Value)
    : Result SchemaValidationFailure unit :=
  try? ensure (validate_json_bounds json_len value) ValueOutOfBounds in
  schema_validate_prebounded schema value.
End schema.

(** ** Results and failures ([result.rs]) *)

Inductive ToolExecutionFailureCode : Set :=
| ExecutionFailed | ExecutionCancelled | InvalidOutput | InternalFailure.

Record ToolExecutionFailure : Set := mk_ToolExecutionFailure {
  xf_code : ToolExecutionFailureCode;
  xf_message : string;
  xf_details : ProtocolMetadata
}.

Inductive ToolResultError : Set := InvalidResult | InvalidFailureMessage.

(** [ToolExecutionFailure::new] with the message check, and its fixed forms. *)
Definition failure_new (code : ToolExecutionFailureCode) (message : string)
    : Result ToolResultError ToolExecutionFailure :=
  try? ensure (bounded_text message 4096) InvalidFailureMessage in
  Ok (mk_ToolExecutionFailure code message ∅).
Definition failure_cancelled : ToolExecutionFailure :=
  mk_ToolExecutionFailure ExecutionCancelled "tool execution was cancelled" ∅.
Definition failure_invalid_output : ToolExecutionFailure :=
  mk_ToolExecutionFailure InvalidOutput "tool executor returned invalid output" ∅.
Definition failure_internal_contract : ToolExecutionFailure :=
  mk_ToolExecutionFailure InternalFailure
    "tool executor stream ended without a terminal result" ∅.

Record ToolResultValue : Set := mk_ToolResultValue {
  tr_content : list ContentBlock;
  tr_output : Value;
  tr_details : ProtocolMetadata;
  tr_presentation : option ToolPresentation;
  tr_usage : option Usage
}.

(** [ToolResult::new].  A block serialises exactly when it validates. *)
Definition tool_result_new `{Codec} (content : list ContentBlock) (output : Value)
    : Result ToolResultError ToolResultValue :=
  try? ensure (negb (length content =? 0)%nat && (length content <=? 256)%nat
               && is_object output && negb (exceeds_bytes json_len output 262144)
               && (json_depth output <=? 32)%nat) InvalidResult in
  try? ensure (forallb valid_for_tool_result content
               && forallb (λ block, is_ok (block_validate block)) content) InvalidResult in
  Ok (mk_ToolResultValue content output ∅ None None).

(** ** Execution events ([executor.rs]) *)

Record ToolProgress : Set := mk_ToolProgress {
  tp_message : string;
  tp_completed_units : N;
  tp_total_units : option N;
  tp_details : ProtocolMetadata
}.

Inductive ToolStreamViolation : Set := InvalidProgress | EventAfterTerminal | MissingTerminal.

Definition progress_new (message : string) (completed_units : N) (total_units : option N)
    : Result ToolStreamViolation ToolProgress :=
  try? ensure (bounded_text message 4096
               && match total_units with
                  | Some total => (completed_units <=? total)%N
                  | None => true
                  end) InvalidProgress in
  Ok (mk_ToolProgress message completed_units total_units ∅).

Inductive ToolExecutionEvent : Set :=
| ExecProgress (progress : ToolProgress)
| ExecFinished (result : ToolResultValue)
| ExecFailed (failure : ToolExecutionFailure).

Definition is_terminal (event : ToolExecutionEvent) : bool :=
  match event with ExecProgress _ => false | ExecFinished _ | ExecFailed _ => true end.

Record ToolStreamValidator : Set := mk_ToolStreamValidator {
  tv_terminal : bool;
  tv_events : N
}.

Definition tool_validator_new : ToolStreamValidator := mk_ToolStreamValidator false 0.

Definition tool_observe (event : ToolExecutionEvent) : ST ToolStreamValidator ToolStreamViolation unit :=
  let! terminal := st_gets tv_terminal in
  do! st_ensure (negb terminal) EventAfterTerminal in
  do! st_modify (λ v, if is_terminal event then mk_ToolStreamValidator true (tv_events v)
                      else v) in
  st_modify (λ v, mk_ToolStreamValidator (tv_terminal v) (tv_events v + 1)).

Definition tool_finish (v : ToolStreamValidator) : Result ToolStreamViolation N :=
  if tv_terminal v then Ok (tv_events v) else Err MissingTerminal.

(** ** Bindings and the registry ([registry.rs]) *)

Inductive ToolRoutePreference : Set := PreferHosted | ForceClient.

(** [dyn ToolResourceResolver]. *)
Record ToolResourceResolver : Type := mk_ToolResourceResolver {
  resolve : nat → ToolName → Value → Result ToolResourceError (list ToolResource)
}.

(** [dyn ToolExecutor]: a preview, and the events an execution yields. *)
Record ToolExecutor : Type := mk_ToolExecutor {
  executor_preview : nat → ValidatedToolInvocation → option ToolPresentation;
  executor_execute : nat → ValidatedToolInvocation → list ToolExecutionEvent
}.

Inductive ToolBinding : Type :=
| BindClient (resolver : ToolResourceResolver) (executor : ToolExecutor)
| BindHosted (options : HostedToolOptions)
| BindHybrid (options : HostedToolOptions) (resolver : ToolResourceResolver)
    (executor : ToolExecutor) (preference : ToolRoutePreference).

Definition has_client_execution (binding : ToolBinding) : bool :=
  match binding with BindClient _ _ | BindHybrid _ _ _ _ => true | BindHosted _ => false end.

Definition client_parts (binding : ToolBinding) : option (ToolResourceResolver * ToolExecutor) :=
  match binding with
  | BindClient resolver executor | BindHybrid _ resolver executor _ => Some (resolver, executor)
  | BindHosted _ => None
  end.

Definition hosted_options (binding : ToolBinding) : option HostedToolOptions :=
  match binding with
  | BindClient _ _ => None
  | BindHosted options | BindHybrid options _ _ _ => Some options
  end.

Record RegisteredTool : Type := mk_RegisteredTool {
  rt_spec : ToolSpec;
  rt_input : CompiledToolSchema;
  rt_output : CompiledToolSchema;
  rt_binding : ToolBinding
}.

Notation ToolRegistry := (gmap ToolName RegisteredTool).

Inductive ToolRegistryError : Set :=
| UnknownTool | DuplicateTool | VersionConflict | HostedToolNameMismatch
| HostedToolNotClientExecutable
| NoSupportedToolRoute (tool : ToolName) (model : ModelId)
| ModelProjection (e : ModelRequestError)
| SchemaError (e : SchemaCompilationError)
| InvalidArguments (e : SchemaValidationFailure)
| ResourcesError (e : ToolResourceError).

Section registry.
Context `{Codec, SchemaEngine}.

(** The name a binding's hosted route insists on. *)
Definition hosted_name_ok (spec : ToolSpec) (binding : ToolBinding) : bool :=
  match hosted_options binding with
  | Some options => String.eqb (tn_str (sp_name spec)) (kind_name (options_kind options))
  | None => true
  end.

Definition register_binding (spec : ToolSpec) (binding : ToolBinding)
    : ST ToolRegistry ToolRegistryError unit :=
  let! tools := st_gets (λ tools, tools) in
  do! match tools !! sp_name spec with
      | Some existing =>
          st_throw (if decide (sp_version (rt_spec existing) = sp_version spec)
                    then DuplicateTool else VersionConflict)
      | None => st_ret tt
      end in
  do! st_ensure (hosted_name_ok spec binding) HostedToolNameMismatch in
  let! input := st_lift (map_err SchemaError (schema_compile (sp_input_schema spec))) in
  let! output := st_lift (map_err SchemaError (schema_compile (sp_output_schema spec))) in
  st_modify (λ tools, <[sp_name spec := mk_RegisteredTool spec input output binding]> tools).

Definition MAX_RESOLVED_RESOURCES : nat := MAX_TOOL_RESOURCES.

(** ** Projection into a model request *)

Definition no_supported_tool_route (tool : RegisteredTool) (model : ModelSpec)
    : ToolRegistryError :=
  NoSupportedToolRoute (sp_name (rt_spec tool)) (model_id_of model).

Definition function_definition (tool : RegisteredTool)
    : Result ToolRegistryError ModelToolDefinition :=
  map_err ModelProjection
    (tool_definition_new (tn_str (sp_name (rt_spec tool))) (sp_description (rt_spec tool))
       (sp_input_schema (rt_spec tool))).

Definition hosted_definition (tool : RegisteredTool) (options : HostedToolOptions)
    : Result ToolRegistryError ModelToolDefinition :=
  map_err ModelProjection
    (hosted_tool_definition (sp_description (rt_spec tool)) (sp_input_schema (rt_spec tool))
       options).

Definition project_model_definition (tool : RegisteredTool) (model : ModelSpec)
    : Result ToolRegistryError ModelToolDefinition :=
  let capabilities := ms_capabilities model in
  match rt_binding tool with
  | BindClient _ _ =>
      if supports_tools capabilities then function_definition tool
      else Err (no_supported_tool_route tool model)
  | BindHosted options =>
      if supports_hosted_tool capabilities (options_kind options)
      then hosted_definition tool options
      else Err (no_supported_tool_route tool model)
  | BindHybrid options _ _ preference =>
      if match preference with PreferHosted => true | ForceClient => false end
         && supports_hosted_tool capabilities (options_kind options)
      then hosted_definition tool options
      else if supports_tools capabilities then function_definition tool
      else Err (no_supported_tool_route tool model)
  end.

Definition tool_name_leb (a b : ToolName) : bool := str_leb (tn_str a) (tn_str b).

(** [names] and [model_definitions], in canonical name order. *)
Definition registry_names (tools : ToolRegistry) : list ToolName :=
  (btree_entries tool_name_leb tools).*1.
Definition model_definitions (tools : ToolRegistry) (model : ModelSpec)
    : Result ToolRegistryError (list ModelToolDefinition) :=
  result_map (λ entry, project_model_definition entry.2 model)
    (btree_entries tool_name_leb tools).

(** [ToolRegistry::validate] at one moment. *)
Definition registry_validate (tools : ToolRegistry) (now : nat) (invocation : ToolInvocation)
    : Result ToolRegistryError ValidatedToolInvocation :=
  let? registered := ok_or (tools !! ti_name invocation) UnknownTool in
  let? parts := ok_or (client_parts (rt_binding registered)) HostedToolNotClientExecutable in
  try? map_err InvalidArguments
         (schema_validate (rt_input registered) (ti_arguments invocation)) in
  let? resources := map_err ResourcesError
                      (resolve parts.1 now (ti_name invocation) (ti_arguments invocation)) in
  let resources := dedup resource_same (stable_sort resource_leb resources) in
  try? ensure (length resources <=? MAX_RESOLVED_RESOURCES)%nat
         (ResourcesError TooManyResources) in
  Ok (validated_new invocation (rt_spec registered) resources).

(** [stream::unfold] over the executor's stream: the wrapper stops at the first
    terminal, checks a result against the output schema, and turns a stream
    that ends early into a contract failure. *)
Fixpoint validated_stream (output : CompiledToolSchema) (upstream : list ToolExecutionEvent)
    : list ToolExecutionEvent :=
  match upstream with
  | [] => [ExecFailed failure_internal_contract]
  | ExecFinished result :: _ =>
      if is_ok (schema_validate output (tr_output result)) then [ExecFinished result]
      else [ExecFailed failure_invalid_output]
  | ExecFailed failure :: _ => [ExecFailed failure]
  | ExecProgress progress :: rest => ExecProgress progress :: validated_stream output rest
  end.

(** The registered tool an invocation was validated against. *)
Definition registered_for (tools : ToolRegistry) (invocation : ValidatedToolInvocation)
    : option RegisteredTool :=
  match tools !! ti_name (vi_invocation invocation) with
  | Some tool => if decide (rt_spec tool = vi_spec invocation) then Some tool else None
  | None => None
  end.

Definition execute_validated (tools : ToolRegistry) (now : nat)
    (invocation : ValidatedToolInvocation)
    : Result ToolRegistryError (list ToolExecutionEvent) :=
  let? registered := ok_or (registered_for tools invocation) UnknownTool in
  let? parts := ok_or (client_parts (rt_binding registered)) HostedToolNotClientExecutable in
  Ok (validated_stream (rt_output registered) (executor_execute parts.2 now invocation)).

Definition registry_execute (tools : ToolRegistry) (now : nat) (invocation : ToolInvocation)
    : Result ToolRegistryError (list ToolExecutionEvent) :=
  let? validated := registry_validate tools now invocation in
  execute_validated tools now validated.

Definition preview_validated (tools : ToolRegistry) (now : nat)
    (invocation : ValidatedToolInvocation) : option ToolPresentation :=
  registered_for tools invocation ≫= λ tool,
  client_parts (rt_binding tool) ≫= λ parts,
  executor_preview parts.2 now invocation.
End registry.

(** ** Lemmas *)

(** A finished stream: progress, then exactly one terminal. *)
Definition well_formed_stream (events : list ToolExecutionEvent) : Prop :=
  ∃ progress final, events = progress ++ [final] ∧ is_terminal final = true ∧
    Forall (λ e, is_terminal e = false) progress.

Lemma observe_progress events v :
  tv_terminal v = false → Forall (λ e, is_terminal e = false) events →
  st_for events tool_observe v =
    (Ok tt, mk_ToolStreamValidator false (tv_events v + N.of_nat (length events))).
Proof.
  intros Hv Hevents. revert v Hv.
  induction Hevents as [|e events He Hevents IH]; intros v Hv; simpl.
  - destruct v as [t n]; simpl in *; subst. unfold st_ret. by rewrite N.add_0_r.
  - unfold st_bind at 1, tool_observe at 1, st_bind at 1, st_gets. rewrite Hv. simpl.
    unfold st_bind, st_ensure, st_lift, ensure, st_modify; simpl. rewrite He. simpl.
    rewrite IH by done. simpl. do 2 f_equal. lia.
Qed.

(** The validator accepts exactly the finished streams. *)
Lemma observe_well_formed events :
  well_formed_stream events →
  st_for events tool_observe tool_validator_new =
    (Ok tt, mk_ToolStreamValidator true (N.of_nat (length events))).
Proof.
  intros (progress & final & -> & Hfinal & Hprogress).
  rewrite st_for_app, observe_progress by done. simpl.
  unfold st_bind at 1, tool_observe, st_bind, st_gets, st_ensure, st_lift, ensure, st_modify.
  simpl. rewrite Hfinal. simpl. unfold st_ret. rewrite length_app. simpl. do 2 f_equal. lia.
Qed.

Section registry_lemmas.
Context `{Codec, SchemaEngine}.

Lemma validated_stream_wf output upstream :
  well_formed_stream (validated_stream output upstream).
Proof.
  induction upstream as [|[p|r|f] upstream IH]; simpl.
  - by exists [], (ExecFailed failure_internal_contract).
  - destruct IH as (progress & final & -> & ? & ?). exists (ExecProgress p :: progress), final.
    by repeat constructor.
  - destruct (is_ok _); by eexists [], _.
  - by exists [], (ExecFailed f).
Qed.

(** A result that gets through conforms to the output schema. *)
Lemma validated_stream_result output upstream result :
  ExecFinished result ∈ validated_stream output upstream →
  ExecFinished result ∈ upstream ∧ schema_validate output (tr_output result) = Ok tt.
Proof.
  induction upstream as [|[p|r|f] upstream IH]; simpl; intros Hr.
  - set_solver.
  - apply elem_of_cons in Hr as [?|Hr]; [done|]. destruct (IH Hr). set_solver.
  - destruct (schema_validate output (tr_output r)) as [[]|e] eqn:Hv; simpl in Hr;
      apply list_elem_of_singleton in Hr; simplify_eq.
    split; [left|done].
  - apply list_elem_of_singleton in Hr. done.
Qed.

Lemma registry_validate_ok tools now invocation v :
  registry_validate tools now invocation = Ok v ↔
  ∃ tool parts resources, tools !! ti_name invocation = Some tool ∧
    client_parts (rt_binding tool) = Some parts ∧
    schema_validate (rt_input tool) (ti_arguments invocation) = Ok tt ∧
    resolve parts.1 now (ti_name invocation) (ti_arguments invocation) = Ok resources ∧
    length (dedup resource_same (stable_sort resource_leb resources)) ≤ MAX_RESOLVED_RESOURCES ∧
    v = validated_new invocation (rt_spec tool)
          (dedup resource_same (stable_sort resource_leb resources)).
Proof.
  unfold registry_validate, ok_or, map_err, ensure, result_bind. split.
  - intros Hv. repeat case_match; simplify_eq;
      try discriminate.
    match goal with u : unit |- _ => destruct u end.
    eexists _, _, _. repeat split; try done; by apply Nat.leb_le.
  - intros (tool & parts & resources & -> & Hp & Hs & Hr & Hle & ->). simpl.
    rewrite Hp, Hs, Hr.
    by rewrite (proj2 (Nat.leb_le _ _) Hle).
Qed.

Lemma registered_for_Some tools v tool :
  registered_for tools v = Some tool ↔
  tools !! ti_name (vi_invocation v) = Some tool ∧ rt_spec tool = vi_spec v.
Proof.
  unfold registered_for. destruct (tools !! _) as [t|]; [|naive_solver].
  case_decide; naive_solver.
Qed.

Lemma execute_validated_ok tools now v events :
  execute_validated tools now v = Ok events ↔
  ∃ tool parts, registered_for tools v = Some tool ∧
    client_parts (rt_binding tool) = Some parts ∧
    events = validated_stream (rt_output tool) (executor_execute parts.2 now v).
Proof.
  unfold execute_validated, ok_or, result_bind. split.
  - intros Hv. repeat case_match; simplify_eq. by eexists _, _.
  - intros (tool & parts & -> & -> & ->). done.
Qed.

(** Whether a registration succeeds, and what it leaves behind. *)
Lemma register_binding_ok spec binding tools tools' u :
  register_binding spec binding tools = (Ok u, tools') ↔
  ∃ input output, tools !! sp_name spec = None ∧ hosted_name_ok spec binding = true ∧
    schema_compile (sp_input_schema spec) = Ok input ∧
    schema_compile (sp_output_schema spec) = Ok output ∧
    tools' = <[sp_name spec := mk_RegisteredTool spec input output binding]> tools.
Proof.
  destruct u. unfold register_binding, st_bind, st_gets, st_ensure, st_lift, map_err, ensure,
    st_throw, st_ret, st_modify. split.
  - intros Hr. repeat case_match; simplify_eq. by eexists _, _.
  - intros (input & output & Hnone & -> & -> & -> & ->).
    destruct (tools !! sp_name spec); done.
Qed.

Lemma register_binding_err spec binding tools tools' e :
  register_binding spec binding tools = (Err e, tools') → tools' = tools.
Proof.
  unfold register_binding, st_bind, st_gets, st_ensure, st_lift, map_err, ensure, st_throw,
    st_ret, st_modify. intros Hr. repeat case_match; by simplify_eq.
Qed.

(** The registries a host can build: from [new], by registrations that may fail. *)
Inductive built_registry : ToolRegistry → Prop :=
| registry_new : built_registry ∅
| registry_register tools spec binding r tools' :
    built_registry tools → register_binding spec binding tools = (r, tools') →
    built_registry tools'.

(** Every entry is what a registration of its specification made. *)
Definition registry_wf (tools : ToolRegistry) : Prop :=
  ∀ name tool, tools !! name = Some tool →
    sp_name (rt_spec tool) = name ∧ hosted_name_ok (rt_spec tool) (rt_binding tool) = true ∧
    schema_compile (sp_input_schema (rt_spec tool)) = Ok (rt_input tool) ∧
    schema_compile (sp_output_schema (rt_spec tool)) = Ok (rt_output tool).

(** ** Theorems *)

(** C35: whatever a tool executor yields, the stream an execution exposes has
    exactly one terminal, at its end: the stream validator accepts every event,
    counts them all, and finishes.  A successful result in it came from the
    executor and conforms to the output schema of the registered tool. *)
Theorem execution_stream_well_formed tools now v events :
  execute_validated tools now v = Ok events →
  (let '(r, validator) := st_for events tool_observe tool_validator_new in
   r = Ok tt ∧ tool_finish validator = Ok (N.of_nat (length events))) ∧
  ∀ result, ExecFinished result ∈ events →
    ∃ tool parts, tools !! ti_name (vi_invocation v) = Some tool ∧
      rt_spec tool = vi_spec v ∧ client_parts (rt_binding tool) = Some parts ∧
      ExecFinished result ∈ executor_execute parts.2 now v ∧
      schema_validate (rt_output tool) (tr_output result) = Ok tt.
Proof.
  intros (tool & parts & Hfor & Hparts & ->)%execute_validated_ok. split.
  - rewrite observe_well_formed by apply validated_stream_wf. done.
  - intros result [? ?]%validated_stream_result.
    apply registered_for_Some in Hfor as [??]. by eexists _, _.
Qed.

(** An invocation that validates carries the registered specification, its
    frozen provenance and exactly the resources the resolver named, at most
    [MAX_TOOL_RESOURCES] of them; and it executes, now or at any later time, on
    the registry that validated it and on every registry further registrations
    make of it, so policy never approves a call that cannot then be started. *)
Theorem validated_invocation_executes tools invocation now v later spec binding :
  registry_validate tools now invocation = Ok v →
  (∃ tool parts resources, tools !! ti_name invocation = Some tool ∧
     client_parts (rt_binding tool) = Some parts ∧
     resolve parts.1 now (ti_name invocation) (ti_arguments invocation) = Ok resources ∧
     vi_invocation v = invocation ∧ vi_spec v = rt_spec tool ∧
     vi_source v = sp_source (rt_spec tool) ∧
     (∀ resource, resource ∈ vi_resources v ↔ resource ∈ resources) ∧
     length (vi_resources v) ≤ MAX_TOOL_RESOURCES) ∧
  is_ok (execute_validated tools later v) = true ∧
  is_ok (execute_validated (register_binding spec binding tools).2 later v) = true.
Proof.
  intros (tool & parts & resources & Htool & Hparts & _ & Hresolve & Hlen & ->)%registry_validate_ok.
  assert (∀ tools', tools' !! ti_name invocation = Some tool →
    is_ok (execute_validated tools' later (validated_new invocation (rt_spec tool)
      (dedup resource_same (stable_sort resource_leb resources)))) = true) as Hexec.
  { intros tools' Htool'. unfold execute_validated, ok_or, result_bind.
    rewrite (proj2 (registered_for_Some _ _ tool)) by done. by rewrite Hparts. }
  split; [|split; [by apply Hexec|]].
  - exists tool, parts, resources. repeat split; try done; simpl.
    + intros Hr. by apply elem_of_dedup_subseteq, elem_of_stable_sort in Hr.
    + intros Hr. apply elem_of_dedup; [|by apply elem_of_stable_sort].
      intros a b Hab. by apply bool_decide_eq_true in Hab.
  - destruct (register_binding spec binding tools) as [[u|e] tools'] eqn:Hr; simpl.
    + apply register_binding_ok in Hr as (input & output & Hnone & _ & _ & _ & ->).
      apply Hexec. rewrite lookup_insert_ne; [done|congruence].
    + apply register_binding_err in Hr as ->. by apply Hexec.
Qed.

(** every registry a host can build keys each tool by its own name, holds
    validators compiled from that tool's own schemas, and serves a hosted route
    only under the provider's name for it. *)
Theorem built_registry_wf tools : built_registry tools → registry_wf tools.
Proof.
  induction 1 as [|tools spec binding [u|e] tools' Hbuilt IH Hr].
  - intros name tool Htool. by rewrite lookup_empty in Htool.
  - apply register_binding_ok in Hr as (input & output & _ & Hhosted & Hin & Hout & ->).
    intros name tool Htool. apply lookup_insert_Some in Htool as [[<- <-]|[_ Htool]]; [done|].
    by apply IH.
  - by apply register_binding_err in Hr as ->.
Qed.
End registry_lemmas.

(** ** Witnesses: a search tool whose executor talks after its terminal *)

Module RegistrySample.

#[export] Instance codec : Codec := {|
  json_len := λ _, Some 64%N;
  base64_decodes := λ _, true;
  parse_url := λ _, None;
  json_parse := λ _, None;
  block_json_len := λ _, 64%N
|}.

#[export] Instance engine : SchemaEngine := {|
  schema_builds := λ _, true;
  schema_errors := λ _ v,
    if is_object v then [] else [mk_EngineError "" "/type" "not an object"]
|}.

Definition spec : ToolSpec :=
  mk_ToolSpec (mk_ToolName "search") (mk_ToolVersion "1.0.0") None "Searches." (JObject [])
    (JObject []) [NetworkRequest] native_product
    (mk_ToolExecutionSemantics Idempotent RetryNever ConcurrencySerial (mk_ToolTimeout 1000))
    None [] None.

Definition progress : ToolExecutionEvent :=
  ExecProgress (mk_ToolProgress "working" 1 None ∅).
Definition result : ToolResultValue := mk_ToolResultValue [] (JObject []) ∅ None None.

Definition resource : ToolResource :=
  mk_ToolResource "https" "example.com" AccessRead.

Definition binding : ToolBinding :=
  BindClient (mk_ToolResourceResolver (λ _ _ _, Ok [resource; resource]))
    (mk_ToolExecutor (λ _ _, None)
       (λ _ _, [progress; ExecFinished result; progress])).

Definition registry : ToolRegistry := (register_binding spec binding ∅).2.

Definition invocation : ToolInvocation :=
  mk_ToolInvocation (mk_id 7) (mk_ToolName "search") (JObject []) ∅.

Definition validated : ValidatedToolInvocation :=
  validated_new invocation spec [resource].

End RegistrySample.
#[local] Existing Instances RegistrySample.codec RegistrySample.engine.

Lemma execution_stream_well_formed_witness :
  execute_validated RegistrySample.registry 0 RegistrySample.validated
    = Ok [RegistrySample.progress; ExecFinished RegistrySample.result] ∧
  let '(r, validator) := st_for [RegistrySample.progress; ExecFinished RegistrySample.result]
                           tool_observe tool_validator_new in
  r = Ok tt ∧ tool_finish validator = Ok 2%N.
Proof.
  split; [reflexivity|].
  by apply (execution_stream_well_formed RegistrySample.registry 0 RegistrySample.validated).
Defined.

Lemma validated_invocation_executes_witness :
  registry_validate RegistrySample.registry 0 RegistrySample.invocation = Ok RegistrySample.validated ∧
  is_ok (execute_validated RegistrySample.registry 9 RegistrySample.validated) = true.
Proof.
  assert (registry_validate RegistrySample.registry 0 RegistrySample.invocation = Ok RegistrySample.validated) as Hok
    by reflexivity.
  split; [done|].
  apply (validated_invocation_executes _ _ _ _ 9 RegistrySample.spec RegistrySample.binding Hok).
Defined.

Lemma built_registry_wf_witness :
  RegistrySample.registry !! mk_ToolName "search" ≠ None ∧ registry_wf RegistrySample.registry.
Proof.
  split; [by vm_compute|].
  apply built_registry_wf. eapply registry_register; [apply registry_new|].
  apply surjective_pairing.
Defined.
