(* ===== verification/Policy.v ===== *)
(** * Policy: identities, grants, rules and the layered engine

    [crates/tea-policy]: actor and workspace selectors ([identity.rs]), bounded
    grants and their matching ([grant.rs]), the immutable input ([input.rs]),
    decisions ([decision.rs]), the engine ([engine.rs]) and the built-in rules
    ([policies.rs]).  The trait [PolicyRule] is a record of its three methods. *)

From S2P Require Import Prelude Protocol Tools.
Local Open Scope tea_scope.

(** ** Identities ([identity.rs]) *)

Inductive PolicyIdentityParseError : Set := InvalidSelector | InvalidGrantId.

(** The bytes [_], [-], [.], [/] and [@], and [:] where allowed. *)
Definition selector_byte (allow_colon : bool) (b : N) : bool :=
  is_ascii_lowercase b || is_ascii_digit b || dash_or_underscore b || (b =? 46)%N
  || (b =? 47)%N || (b =? 64)%N || allow_colon && (b =? 58)%N.

Definition validate_selector (value : string) (allow_colon : bool)
    : Result PolicyIdentityParseError unit :=
  if (128 <? str_len value)%N || contains_dot_dot (bytes value)
     || negb (head_and_all is_ascii_lowercase (selector_byte allow_colon) value)
  then Err InvalidSelector else Ok tt.

(** The [FromStr] of [policy_selector!]. *)
Definition parse_actor_id (value : string) : Result PolicyIdentityParseError ActorId :=
  try? validate_selector value true in Ok (mk_selector value).
Definition parse_workspace_id (value : string) : Result PolicyIdentityParseError WorkspaceId :=
  try? validate_selector value false in Ok (mk_selector value).

Inductive ExecutionSurface : Set := SurfaceDesktop | SurfaceCli | SurfaceService | SurfaceIde | SurfaceTest.
Inductive PolicyExecutionTarget : Set :=
| PolicyNative | PolicySubprocess | PolicySandbox | PolicyMcp | PolicyRemote | PolicyWasm.

#[export] Instance ExecutionSurface_eq_dec : EqDecision ExecutionSurface.
Proof. solve_decision. Defined.
#[export] Instance PolicyExecutionTarget_eq_dec : EqDecision PolicyExecutionTarget.
Proof. solve_decision. Defined.

Record PolicyEnvironment : Set := mk_PolicyEnvironment {
  pe_surface : ExecutionSurface;
  pe_target : PolicyExecutionTarget;
  pe_metadata : ProtocolMetadata
}.

#[export] Instance PolicyEnvironment_eq_dec : EqDecision PolicyEnvironment.
Proof. solve_decision. Defined.

(** ** Grants ([grant.rs]) *)

Inductive PolicyGrantError : Set :=
| InvalidResourcePattern | InvalidGrantEffects | InvalidGrantResources | InvalidGrantExpiry
| InvalidGrantRevocation.

Record ResourcePattern : Set := mk_ResourcePattern {
  rp_scheme : string;
  rp_locator_prefix : string;
  rp_access : option ToolResourceAccess
}.

#[export] Instance ResourcePattern_eq_dec : EqDecision ResourcePattern.
Proof. solve_decision. Defined.

Definition pattern_new (scheme locator_prefix : string) (access : option ToolResourceAccess)
    : Result PolicyGrantError ResourcePattern :=
  if negb (valid_scheme scheme && valid_locator locator_prefix)
  then Err InvalidResourcePattern
  else Ok (mk_ResourcePattern scheme locator_prefix access).

Definition pattern_matches (p : ResourcePattern) (resource : ToolResource) : bool :=
  String.eqb (rp_scheme p) (tr_scheme resource)
  && String.prefix (rp_locator_prefix p) (tr_locator resource)
  && match rp_access p with
     | None => true
     | Some access => bool_decide (access = tr_access resource)
     end.

Inductive GrantScope : Set :=
| ScopeOnce (tool_call_id : ToolCallId)
| ScopeRun (run_id : RunId)
| ScopeSessionResource (session_id : SessionId)
| ScopePersistentResource (expires_at : ProtocolTimestamp).

#[export] Instance GrantScope_eq_dec : EqDecision GrantScope.
Proof. solve_decision. Defined.

Record PolicyGrant : Set := mk_PolicyGrant {
  gr_id : GrantId;
  gr_actor_id : ActorId;
  gr_profile_id : ProfileId;
  gr_tool_name : ToolName;
  gr_tool_version : ToolVersion;
  gr_tool_source : option ToolSource;
  gr_effects : list ToolEffect;
  gr_resources : list ResourcePattern;
  gr_scope : GrantScope;
  gr_issued_at : ProtocolTimestamp;
  gr_revoked_at : option ProtocolTimestamp
}.

#[export] Instance PolicyGrant_eq_dec : EqDecision PolicyGrant.
Proof. solve_decision. Defined.

(** The derived [Ord] of patterns; [None] is below [Some]. *)
Definition option_access_index (a : option ToolResourceAccess) : N :=
  match a with None => 0 | Some a => 1 + access_index a end.

Definition pattern_leb (a b : ResourcePattern) : bool :=
  lex_leb (String.compare (rp_scheme a) (rp_scheme b))
    (lex_leb (String.compare (rp_locator_prefix a) (rp_locator_prefix b))
      (option_access_index (rp_access a) <=? option_access_index (rp_access b))%N).

Definition pattern_same (a b : ResourcePattern) : bool := bool_decide (a = b).

Definition MAX_GRANT_EFFECTS : nat := 64.
Definition MAX_GRANT_PATTERNS : nat := 128.

Definition grant_new (id : GrantId) (actor_id : ActorId) (profile_id : ProfileId)
    (tool_name : ToolName) (tool_version : ToolVersion) (effects : list ToolEffect)
    (resources : list ResourcePattern) (scope : GrantScope) (issued_at : ProtocolTimestamp)
    : Result PolicyGrantError PolicyGrant :=
  let effects := dedup effect_same (stable_sort effect_leb effects) in
  try? ensure (negb (length effects =? 0)%nat && (length effects <=? MAX_GRANT_EFFECTS)%nat)
         InvalidGrantEffects in
  let resources := dedup pattern_same (stable_sort pattern_leb resources) in
  try? ensure (negb (length resources =? 0)%nat
               && (length resources <=? MAX_GRANT_PATTERNS)%nat) InvalidGrantResources in
  try? ensure (match scope with
               | ScopePersistentResource expires_at => negb (ts_leb expires_at issued_at)
               | _ => true
               end) InvalidGrantExpiry in
  Ok (mk_PolicyGrant id actor_id profile_id tool_name tool_version None effects resources
        scope issued_at None).

Definition grant_with_source (g : PolicyGrant) (source : ToolSource) : PolicyGrant :=
  mk_PolicyGrant (gr_id g) (gr_actor_id g) (gr_profile_id g) (gr_tool_name g)
    (gr_tool_version g) (Some source) (gr_effects g) (gr_resources g) (gr_scope g)
    (gr_issued_at g) (gr_revoked_at g).

Definition set_revoked_at (g : PolicyGrant) (revoked_at : option ProtocolTimestamp)
    : PolicyGrant :=
  mk_PolicyGrant (gr_id g) (gr_actor_id g) (gr_profile_id g) (gr_tool_name g)
    (gr_tool_version g) (gr_tool_source g) (gr_effects g) (gr_resources g) (gr_scope g)
    (gr_issued_at g) revoked_at.

Definition revoke (g : PolicyGrant) (revoked_at : ProtocolTimestamp)
    : Result PolicyGrantError PolicyGrant :=
  try? ensure (negb (ts_ltb revoked_at (gr_issued_at g))) InvalidGrantRevocation in
  Ok (set_revoked_at g (Some revoked_at)).

(** ** Input ([input.rs]) *)

Definition MAX_POLICY_GRANTS : nat := 128.

Record PolicyInput : Set := mk_PolicyInput {
  in_actor_id : ActorId;
  in_profile_id : ProfileId;
  in_session_id : SessionId;
  in_run_id : option RunId;
  in_workspace_id : option WorkspaceId;
  in_tool_call_id : ToolCallId;
  in_tool_name : ToolName;
  in_tool_version : ToolVersion;
  in_tool_source : ToolSource;
  in_arguments : Value;
  in_effects : list ToolEffect;
  in_resources : list ToolResource;
  in_environment : PolicyEnvironment;
  in_now : ProtocolTimestamp;
  in_grants : list PolicyGrant
}.

Inductive PolicyInputError : Set := TooManyGrants.

Definition grant_id_leb (a b : PolicyGrant) : bool :=
  (as_uuid (gr_id a) <=? as_uuid (gr_id b))%N.
Definition grant_id_same (a b : PolicyGrant) : bool := bool_decide (gr_id a = gr_id b).

Definition from_validated (actor_id : ActorId) (profile_id : ProfileId)
    (session_id : SessionId) (run_id : option RunId) (workspace_id : option WorkspaceId)
    (invocation : ValidatedToolInvocation) (environment : PolicyEnvironment)
    (now : ProtocolTimestamp) (grants : list PolicyGrant)
    : Result PolicyInputError PolicyInput :=
  let grants := dedup grant_id_same (stable_sort grant_id_leb grants) in
  try? ensure (length grants <=? MAX_POLICY_GRANTS)%nat TooManyGrants in
  Ok (mk_PolicyInput actor_id profile_id session_id run_id workspace_id
        (ti_tool_call_id (vi_invocation invocation)) (ti_name (vi_invocation invocation))
        (sp_version (vi_spec invocation)) (vi_source invocation)
        (ti_arguments (vi_invocation invocation)) (sp_effects (vi_spec invocation))
        (vi_resources invocation) environment now grants).

(** The resource and effect coverage [matches] and approval resolution share. *)
Definition covers_effects (g : PolicyGrant) (effects : list ToolEffect) : bool :=
  forallb (λ effect, bool_decide (effect ∈ gr_effects g)) effects.
Definition covers_resources (g : PolicyGrant) (resources : list ToolResource) : bool :=
  forallb (λ resource, existsb (λ pattern, pattern_matches pattern resource) (gr_resources g))
    resources.

(** [source.map_or_else(|| request.is_native_product(), |s| s == request)]. *)
Definition grant_source_matches (grant : option ToolSource) (request : ToolSource) : bool :=
  match grant with
  | None => is_native_product request
  | Some source => bool_decide (source = request)
  end.

Definition scope_matches (scope : GrantScope) (input : PolicyInput) : bool :=
  match scope with
  | ScopeOnce tool_call_id => bool_decide (tool_call_id = in_tool_call_id input)
  | ScopeRun run_id => bool_decide (in_run_id input = Some run_id)
  | ScopeSessionResource session_id => bool_decide (session_id = in_session_id input)
  | ScopePersistentResource expires_at => ts_ltb (in_now input) expires_at
  end.

(** [PolicyGrant::matches]. *)
Definition grant_matches (g : PolicyGrant) (input : PolicyInput) : bool :=
  if ts_ltb (in_now input) (gr_issued_at g)
     || match gr_revoked_at g with
        | Some revoked_at => ts_leb revoked_at (in_now input)
        | None => false
        end
     || negb (bool_decide (gr_actor_id g = in_actor_id input))
     || negb (bool_decide (gr_profile_id g = in_profile_id input))
     || negb (bool_decide (gr_tool_name g = in_tool_name input))
     || negb (bool_decide (gr_tool_version g = in_tool_version input))
     || negb (grant_source_matches (gr_tool_source g) (in_tool_source input))
     || negb (covers_effects g (in_effects input))
     || negb (covers_resources g (in_resources input))
  then false
  else scope_matches (gr_scope g) input.

(** ** Decisions ([decision.rs]) *)

Record ApprovalRequirement : Set := mk_ApprovalRequirement { ar_reason : string }.

#[export] Instance ApprovalRequirement_eq_dec : EqDecision ApprovalRequirement.
Proof. solve_decision. Defined.

Inductive PolicyDecisionError : Set := InvalidReason.

Definition validate_reason (value : string) : Result PolicyDecisionError unit :=
  ensure (validate_text value 4096) InvalidReason.

Definition requirement_new (reason : string) : Result PolicyDecisionError ApprovalRequirement :=
  try? validate_reason reason in Ok (mk_ApprovalRequirement reason).

Inductive PolicyDecision : Set :=
| Allow
| Redirect (target : PolicyExecutionTarget)
| Ask (requirement : ApprovalRequirement)
| Deny (reason : string)
| HardDeny (reason : string).

#[export] Instance PolicyDecision_eq_dec : EqDecision PolicyDecision.
Proof. solve_decision. Defined.

Definition restriction (d : PolicyDecision) : N :=
  match d with
  | Allow => 0 | Redirect _ => 1 | Ask _ => 2 | Deny _ => 3 | HardDeny _ => 4
  end.

Record PolicyRuleDecision : Set := mk_PolicyRuleDecision {
  rule_decision : option PolicyDecision
}.

Definition abstain : PolicyRuleDecision := mk_PolicyRuleDecision None.
Definition allow : PolicyRuleDecision := mk_PolicyRuleDecision (Some Allow).
Definition redirect (target : PolicyExecutionTarget) : PolicyRuleDecision :=
  mk_PolicyRuleDecision (Some (Redirect target)).
Definition ask (requirement : ApprovalRequirement) : PolicyRuleDecision :=
  mk_PolicyRuleDecision (Some (Ask requirement)).
Definition deny (reason : string) : Result PolicyDecisionError PolicyRuleDecision :=
  try? validate_reason reason in Ok (mk_PolicyRuleDecision (Some (Deny reason))).
Definition hard_deny (reason : string) : Result PolicyDecisionError PolicyRuleDecision :=
  try? validate_reason reason in Ok (mk_PolicyRuleDecision (Some (HardDeny reason))).

(** ** Engine ([engine.rs]) *)

Inductive PolicyLayer : Set :=
| LayerPlatform | LayerOrganization | LayerProduct | LayerWorkspace.

#[export] Instance PolicyLayer_eq_dec : EqDecision PolicyLayer.
Proof. solve_decision. Defined.

Definition layer_index (l : PolicyLayer) : N :=
  match l with
  | LayerPlatform => 0 | LayerOrganization => 1 | LayerProduct => 2 | LayerWorkspace => 3
  end.

(** The trait [PolicyRule]. *)
Record PolicyRule : Set := mk_PolicyRule {
  rule_id : string;
  rule_layer : PolicyLayer;
  rule_evaluate : PolicyInput → PolicyRuleDecision
}.

Record PolicyTraceEntry : Set := mk_PolicyTraceEntry {
  trace_rule_id : string;
  trace_layer : PolicyLayer;
  trace_decision : PolicyRuleDecision
}.

Record PolicyEvaluation : Set := mk_PolicyEvaluation {
  ev_decision : PolicyDecision;
  ev_trace : list PolicyTraceEntry;
  ev_matched_grant_id : option GrantId
}.

Notation PolicyEngine := (list PolicyRule).

Inductive PolicyRuleError : Set := InvalidRuleId | DuplicateRuleId | TooManyRules.

Definition MAX_POLICY_RULES : nat := 128.

Definition validate_rule_id (value : string) : Result PolicyRuleError unit :=
  ensure ((str_len value <=? 128)%N
          && head_and_all is_ascii_lowercase
               (λ b, is_ascii_lowercase b || is_ascii_digit b || dash_or_underscore b
                     || (b =? 46)%N) value) InvalidRuleId.

Definition layer_leb (a b : PolicyRule) : bool :=
  (layer_index (rule_layer a) <=? layer_index (rule_layer b))%N.

Definition add_rule (rules : PolicyEngine) (rule : PolicyRule)
    : Result PolicyRuleError PolicyEngine :=
  try? validate_rule_id (rule_id rule) in
  try? ensure (length rules <? MAX_POLICY_RULES)%nat TooManyRules in
  try? ensure (negb (existsb (λ existing, String.eqb (rule_id existing) (rule_id rule)) rules))
         DuplicateRuleId in
  Ok (stable_sort layer_leb (rules ++ [rule])).

Definition is_hard_deny (d : PolicyDecision) : bool :=
  match d with HardDeny _ => true | _ => false end.
Definition is_ask (d : PolicyDecision) : bool :=
  match d with Ask _ => true | _ => false end.

(** [current] takes a strictly more restrictive decision. *)
Definition more_restrictive (current : option PolicyDecision) (decision : PolicyDecision)
    : option PolicyDecision :=
  match current with
  | None => Some decision
  | Some value =>
      if (restriction value <? restriction decision)%N then Some decision else current
  end.

(** The rule loop: the early return of a hard deny, or what the loop leaves. *)
Fixpoint evaluate_rules (rules : PolicyEngine) (input : PolicyInput)
    (current : option PolicyDecision) (trace : list PolicyTraceEntry)
    : Result PolicyEvaluation (option PolicyDecision * list PolicyTraceEntry) :=
  match rules with
  | [] => Ok (current, trace)
  | rule :: rest =>
      let outcome := rule_evaluate rule input in
      let trace := trace ++ [mk_PolicyTraceEntry (rule_id rule) (rule_layer rule) outcome] in
      match rule_decision outcome with
      | None => evaluate_rules rest input current trace
      | Some decision =>
          if is_hard_deny decision then Err (mk_PolicyEvaluation decision trace None)
          else evaluate_rules rest input (more_restrictive current decision) trace
      end
  end.

Definition no_rule_reason : string := "no policy rule authorized the invocation".

Definition evaluate (rules : PolicyEngine) (input : PolicyInput) : PolicyEvaluation :=
  match evaluate_rules rules input None [] with
  | Err evaluation => evaluation
  | Ok (current, trace) =>
      let decision := default (HardDeny no_rule_reason) current in
      match (if is_ask decision
             then list_find (λ grant, grant_matches grant input = true) (in_grants input)
             else None) with
      | Some (_, grant) => mk_PolicyEvaluation Allow trace (Some (gr_id grant))
      | None => mk_PolicyEvaluation decision trace None
      end
  end.

(** ** Built-in rules ([policies.rs]) *)

(** [ask(reason)] and [hard_deny(reason)] of the module. *)
Definition ask_reason (reason : string) : PolicyRuleDecision :=
  match requirement_new reason with Ok requirement => ask requirement | Err _ => abstain end.
Definition hard_deny_reason (reason : string) : PolicyRuleDecision :=
  match hard_deny reason with Ok decision => decision | Err _ => abstain end.

Definition has_effect (e : ToolEffect) (input : PolicyInput) : bool :=
  bool_decide (e ∈ in_effects input).

Definition UnknownEffectPolicy : PolicyRule :=
  mk_PolicyRule "platform.unknown_effect" LayerPlatform (λ input,
    if existsb is_unknown (in_effects input)
    then hard_deny_reason "unknown tool effect is denied by default" else abstain).

Definition is_mcp_server (resource : ToolResource) : bool :=
  String.eqb (tr_scheme resource) "mcp-server"
  && bool_decide (tr_access resource = AccessExecute).

Definition ExternalSourcePolicy : PolicyRule :=
  mk_PolicyRule "platform.external_source" LayerPlatform (λ input,
    let source := in_tool_source input in
    if bool_decide (ts_trust source = Untrusted)
    then hard_deny_reason "untrusted tool sources are denied by default"
    else if negb (bool_decide (ts_kind source = SourceMcp)
                  || bool_decide (ts_kind source = SourceRemote))
    then abstain
    else if is_empty (in_effects input) || is_empty (in_resources input)
    then hard_deny_reason "external tool capabilities must be fully declared"
    else if bool_decide (ts_kind source = SourceMcp)
            && negb (existsb is_mcp_server (in_resources input))
    then hard_deny_reason "MCP tools require a host-declared server resource"
    else abstain).

Definition FilesystemReadPolicy : PolicyRule :=
  mk_PolicyRule "product.filesystem_read" LayerProduct (λ input,
    if negb (is_empty (in_effects input))
       && forallb (λ effect, bool_decide (effect = FsRead)) (in_effects input)
    then allow else abstain).

Definition is_known_read_only (e : ToolEffect) : bool :=
  match e with FsRead | ClipboardRead | ExternalRead => true | _ => false end.

(** [u8::is_ascii_whitespace]: space, tab, newline, form feed, return. *)
Definition is_ascii_whitespace (b : N) : bool :=
  (b =? 32)%N || (b =? 9)%N || (b =? 10)%N || (b =? 12)%N || (b =? 13)%N.

(** [str::split_ascii_whitespace]; [word] holds the word being read, reversed. *)
Fixpoint split_whitespace (word : list N) (bs : list N) : list (list N) :=
  let finished := if is_empty word then [] else [reverse word] in
  match bs with
  | [] => finished
  | b :: rest =>
      if is_ascii_whitespace b then finished ++ split_whitespace [] rest
      else split_whitespace (b :: word) rest
  end.

Definition is_read_only_git_status (arguments : Value) : bool :=
  match json_get arguments "command" ≫= json_as_str with
  | Some command =>
      bool_decide (split_whitespace [] (bytes command) = [bytes "git"; bytes "status"])
  | None => false
  end.

Definition is_workspace_mutation (e : ToolEffect) : bool :=
  match e with
  | FsWrite | FsDelete | NetworkRequest | UserInteraction | ExternalMutation => true
  | _ => false
  end.

Definition CodingWorkspacePolicy : PolicyRule :=
  mk_PolicyRule "product.coding_workspace" LayerProduct (λ input,
    if has_effect CredentialRead input
    then hard_deny_reason "credential reads are denied in coding workspace policy"
    else if has_effect ProcessSpawn input
    then if is_read_only_git_status (in_arguments input) then allow
         else ask_reason "process execution requires approval"
    else if forallb is_known_read_only (in_effects input) then allow
    else if existsb is_workspace_mutation (in_effects input)
    then ask_reason "coding workspace mutation requires approval"
    else abstain).

Definition is_desktop_sensitive (e : ToolEffect) : bool :=
  match e with ClipboardRead | UserInteraction | ExternalMutation => true | _ => false end.

Definition DesktopPolicy : PolicyRule :=
  mk_PolicyRule "product.desktop" LayerProduct (λ input,
    if has_effect CredentialRead input
    then hard_deny_reason "credential reads are denied by desktop policy"
    else if existsb is_desktop_sensitive (in_effects input)
    then ask_reason "desktop-sensitive operation requires approval"
    else abstain).

(** ** Specification of the engine *)

(** What the rules say, abstentions aside, in evaluation order. *)
Definition decisions (rules : PolicyEngine) (input : PolicyInput) : list PolicyDecision :=
  omap (λ rule, rule_decision (rule_evaluate rule input)) rules.

(** The engines that can be built. *)
Inductive built : PolicyEngine → Prop :=
| built_new : built []
| built_add rules rule rules' : built rules → add_rule rules rule = Ok rules' → built rules'.

Record engine_wf (rules : PolicyEngine) : Prop := mk_engine_wf {
  ewf_bound : length rules ≤ MAX_POLICY_RULES;
  ewf_ids : NoDup (rule_id <$> rules);
  ewf_layers : Sorted layer_leb rules
}.

(** A sample invocation: one network request by a native tool, with one grant. *)
Module PolicySample.

Definition resource : ToolResource := mk_ToolResource "url" "https://a.b/c" AccessRead.
Definition grant : PolicyGrant :=
  mk_PolicyGrant (mk_id 5) (mk_selector "alice") (mk_selector "coding") (mk_ToolName "fetch")
    (mk_ToolVersion "1.0.0") None [NetworkRequest]
    [mk_ResourcePattern "url" "https://a.b/" None] (ScopeSessionResource (mk_id 1))
    (Timestamp 10) None.
Definition input_at (now : Z) (effects : list ToolEffect) : PolicyInput :=
  mk_PolicyInput (mk_selector "alice") (mk_selector "coding") (mk_id 1) None None (mk_id 7)
    (mk_ToolName "fetch") (mk_ToolVersion "1.0.0") native_product (JObject []) effects
    [resource] (mk_PolicyEnvironment SurfaceCli PolicyNative ∅) (Timestamp now) [grant].
Definition rules : PolicyEngine :=
  match (let? r1 := add_rule [] CodingWorkspacePolicy in add_rule r1 UnknownEffectPolicy) with
  | Ok r => r
  | Err _ => []
  end.

End PolicySample.

(** ** Lemmas *)

Lemma more_restrictive_spec current d :
  ∃ d', more_restrictive current d = Some d' ∧ (restriction d ≤ restriction d')%N ∧
    (d' = d ∨ current = Some d') ∧
    (∀ c, current = Some c → (restriction c ≤ restriction d')%N).
Proof.
  unfold more_restrictive. destruct current as [c|]; [|by exists d; naive_solver lia].
  destruct (restriction c <? restriction d)%N eqn:Hlt.
  - apply N.ltb_lt in Hlt. exists d. naive_solver lia.
  - apply N.ltb_ge in Hlt. exists c. naive_solver lia.
Qed.

Lemma strongest_spec ds current :
  match foldl more_restrictive current ds with
  | None => ds = [] ∧ current = None
  | Some d =>
      (d ∈ ds ∨ current = Some d) ∧ (∀ d', d' ∈ ds → (restriction d' ≤ restriction d)%N) ∧
      (∀ c, current = Some c → (restriction c ≤ restriction d)%N)
  end.
Proof.
  revert current. induction ds as [|d ds IH]; intros current; simpl.
  - destruct current as [c|]; [|done]. split; [by right|]. split; [set_solver|naive_solver].
  - destruct (more_restrictive_spec current d) as (d' & Hd' & Hle & Hin & Hc).
    specialize (IH (more_restrictive current d)). rewrite Hd' in *.
    destruct (foldl more_restrictive (Some d') ds) as [e|]; [|naive_solver].
    destruct IH as (Hin' & Hmax & He). specialize (He d' eq_refl). split_and!.
    + destruct Hin' as [?|[= <-]]; [set_solver|]. destruct Hin as [->|?]; [set_solver|by right].
    + intros x [->|Hx]%elem_of_cons; [lia|by apply Hmax].
    + intros c Hcc. specialize (Hc c Hcc). lia.
Qed.

Lemma evaluate_rules_hard rules input current trace d :
  d ∈ decisions rules input → is_hard_deny d = true →
  ∃ ev, evaluate_rules rules input current trace = Err ev ∧
    is_hard_deny (ev_decision ev) = true ∧ ev_matched_grant_id ev = None.
Proof.
  revert current trace. induction rules as [|rule rules IH]; intros current trace;
    unfold decisions; simpl; [set_solver|]. intros Hd Hh.
  destruct (rule_decision (rule_evaluate rule input)) as [e|]; [|by apply IH].
  destruct (is_hard_deny e) eqn:He; [by eexists|].
  apply elem_of_cons in Hd as [->|Hd]; [congruence|]. by apply IH.
Qed.

Lemma evaluate_rules_soft rules input current trace :
  (∀ d, d ∈ decisions rules input → is_hard_deny d = false) →
  ∃ trace', evaluate_rules rules input current trace =
    Ok (foldl more_restrictive current (decisions rules input), trace').
Proof.
  revert current trace. induction rules as [|rule rules IH]; intros current trace Hs;
    [by eexists|].
  unfold decisions in *. simpl in *.
  destruct (rule_decision (rule_evaluate rule input)) as [e|]; [|by apply IH].
  rewrite (Hs e) by set_solver. apply IH. set_solver.
Qed.

Lemma hard_deny_dec (ds : list PolicyDecision) :
  (∃ d, d ∈ ds ∧ is_hard_deny d = true) ∨ (∀ d, d ∈ ds → is_hard_deny d = false).
Proof.
  destruct (existsb is_hard_deny ds) eqn:He.
  - left. apply existsb_exists in He as (d & Hd%list_elem_of_In & ?). eauto.
  - right. intros d Hd. apply not_true_iff_false. intros Hh.
    apply not_true_iff_false in He. apply He, existsb_exists. exists d.
    by rewrite <- list_elem_of_In.
Qed.

(** The outcome of an evaluation without a hard deny. *)
Lemma evaluate_soft rules input :
  (∀ d, d ∈ decisions rules input → is_hard_deny d = false) →
  let decision := default (HardDeny no_rule_reason)
                    (foldl more_restrictive None (decisions rules input)) in
  ev_decision (evaluate rules input) =
    (if is_ask decision && existsb (λ g, grant_matches g input) (in_grants input)
     then Allow else decision).
Proof.
  intros Hs decision. unfold evaluate.
  destruct (evaluate_rules_soft rules input None [] Hs) as [trace' ->].
  fold decision. destruct (is_ask decision); simpl; [|done].
  destruct (list_find _ (in_grants input)) as [[i g]|] eqn:Hf.
  - apply list_find_Some in Hf as (Hi & Hg & _). apply list_elem_of_lookup_2 in Hi.
    assert (existsb (λ g, grant_matches g input) (in_grants input) = true) as ->; [|done].
    apply existsb_exists. exists g. by rewrite <- list_elem_of_In.
  - apply list_find_None in Hf.
    assert (existsb (λ g, grant_matches g input) (in_grants input) = false) as ->; [|done].
    apply not_true_iff_false. intros (g & Hg%list_elem_of_In & Hm)%existsb_exists.
    rewrite Forall_forall in Hf. by apply (Hf g).
Qed.

Lemma evaluate_hard rules input d :
  d ∈ decisions rules input → is_hard_deny d = true →
  is_hard_deny (ev_decision (evaluate rules input)) = true ∧
  ev_matched_grant_id (evaluate rules input) = None.
Proof.
  intros Hd Hh. unfold evaluate.
  by destruct (evaluate_rules_hard rules input None [] d Hd Hh) as (ev & -> & ? & ?).
Qed.

Lemma restriction_allow d : restriction d = 0%N → d = Allow.
Proof. by destruct d. Qed.
Lemma restriction_ask d : restriction d = 2%N ↔ is_ask d = true.
Proof. by destruct d. Qed.
Lemma restriction_hard d : restriction d = 4%N ↔ is_hard_deny d = true.
Proof. by destruct d. Qed.
Lemma restriction_bound d : is_hard_deny d = false → (restriction d ≤ 3)%N.
Proof. destruct d; simpl; done || lia. Qed.

Lemma existsb_matches gs input :
  existsb (λ g, grant_matches g input) gs = true ↔
  ∃ g, g ∈ gs ∧ grant_matches g input = true.
Proof. rewrite existsb_exists. by setoid_rewrite list_elem_of_In. Qed.

(** ** Claims: the engine *)

(** C33: the exact authorization condition of the engine: an invocation is
    allowed when at least one rule decided and either every decision is allow,
    or some rule asked, none denied, and a candidate grant matches.  In
    particular no rules means no authorization, and a grant never overrides a
    deny or a hard deny. *)
Theorem allow_iff rules input :
  ev_decision (evaluate rules input) = Allow ↔
  decisions rules input ≠ [] ∧
  ((∀ d, d ∈ decisions rules input → d = Allow) ∨
   ((∃ d, d ∈ decisions rules input ∧ is_ask d = true) ∧
    (∀ d, d ∈ decisions rules input → (restriction d ≤ 2)%N) ∧
    ∃ g, g ∈ in_grants input ∧ grant_matches g input = true)).
Proof.
  destruct (hard_deny_dec (decisions rules input)) as [(d & Hd & Hh)|Hs].
  { pose proof (evaluate_hard _ _ _ Hd Hh) as [Hev _]. apply restriction_hard in Hh. split.
    - intros Ha. by rewrite Ha in Hev.
    - intros [_ [Hall|(_ & Hle & _)]].
      + by rewrite (Hall _ Hd) in Hh.
      + specialize (Hle _ Hd). lia. }
  rewrite (evaluate_soft _ _ Hs). pose proof (strongest_spec (decisions rules input) None) as Hmax.
  destruct (foldl more_restrictive None (decisions rules input)) as [d|]; simpl.
  2:{ destruct Hmax as [-> _]. naive_solver. }
  destruct Hmax as ([Hd|?] & Hmax & _); [|done].
  assert (decisions rules input ≠ []) as Hne by (intros Hn; rewrite Hn in Hd; set_solver).
  rewrite <- existsb_matches. destruct (is_ask d) eqn:Hask; simpl.
  - destruct (existsb _ _); (split; [intros Heq; split; [done|]|intros [_ Hor]]).
    + right. split; [eauto|]. split; [|done]. intros d' Hd'.
      apply restriction_ask in Hask. rewrite <- Hask. by apply Hmax.
    + done.
    + by subst.
    + destruct Hor as [Hall|(_ & _ & ?)]; [|done]. by apply Hall.
  - split; [intros ->; split; [done|]; left|].
    + intros d' Hd'. apply restriction_allow. specialize (Hmax _ Hd'). simpl in Hmax. lia.
    + intros [_ [Hall|((e & He & Hae) & Hle & _)]]; [by apply Hall|].
      apply restriction_ask in Hae. specialize (Hmax _ He). specialize (Hle _ Hd).
      assert (restriction d = 2%N) as Hr%restriction_ask by lia. congruence.
Qed.

(** The composition does not depend on the order of the rules: any
    permutation of an engine gives a decision of the same restriction level. *)
Theorem evaluate_order_independent rules rules' input :
  rules ≡ₚ rules' →
  restriction (ev_decision (evaluate rules input)) =
    restriction (ev_decision (evaluate rules' input)).
Proof.
  intros Hp. assert (decisions rules input ≡ₚ decisions rules' input) as Hds.
  { unfold decisions. by rewrite Hp. }
  destruct (hard_deny_dec (decisions rules input)) as [(d & Hd & Hh)|Hs].
  { pose proof (evaluate_hard _ _ _ Hd Hh) as [H1%restriction_hard _]. rewrite Hds in Hd.
    pose proof (evaluate_hard _ _ _ Hd Hh) as [H2%restriction_hard _]. congruence. }
  rewrite (evaluate_soft _ _ Hs). rewrite evaluate_soft by (intros d; rewrite <- Hds; apply Hs).
  pose proof (strongest_spec (decisions rules input) None) as H1.
  pose proof (strongest_spec (decisions rules' input) None) as H2.
  destruct (foldl _ None (decisions rules input)) as [d1|],
    (foldl _ None (decisions rules' input)) as [d2|]; simpl; try done.
  - destruct H1 as ([Hd1|?] & Hm1 & _); [|done]. destruct H2 as ([Hd2|?] & Hm2 & _); [|done].
    assert (restriction d1 = restriction d2) as Heq.
    { rewrite Hds in Hd1. specialize (Hm2 _ Hd1). rewrite <- Hds in Hd2.
      specialize (Hm1 _ Hd2). lia. }
    assert (is_ask d1 = is_ask d2) as ->; [|by destruct (_ && _)].
    apply eq_true_iff_eq. by rewrite <- !restriction_ask, Heq.
  - destruct H1 as ([Hd1|?] & _), H2 as [Hn _]; [|done]. rewrite Hds, Hn in Hd1. set_solver.
  - destruct H2 as ([Hd1|?] & _), H1 as [Hn _]; [|done]. rewrite <- Hds, Hn in Hd1. set_solver.
Qed.

Lemma evaluate_order_independent_witness :
  let i := PolicySample.input_at 20 [NetworkRequest] in
  ev_decision (evaluate PolicySample.rules i) = Allow ∧
  restriction (ev_decision (evaluate PolicySample.rules i)) =
    restriction (ev_decision (evaluate [CodingWorkspacePolicy; UnknownEffectPolicy] i)).
Proof.
  split; [by vm_compute|]. apply evaluate_order_independent.
  change PolicySample.rules with [UnknownEffectPolicy; CodingWorkspacePolicy]. constructor.
Defined.

(** A hard deny is final: whatever the other rules and grants say, an
    engine that holds the platform rule for unknown effects hard-denies every
    invocation with an unknown effect, and uses no grant. *)
Theorem unknown_effect_denied rules input name :
  UnknownEffectPolicy ∈ rules → UnknownEffect name ∈ in_effects input →
  is_hard_deny (ev_decision (evaluate rules input)) = true ∧
  ev_matched_grant_id (evaluate rules input) = None.
Proof.
  intros Hr He.
  apply (evaluate_hard _ _ (HardDeny "unknown tool effect is denied by default")); [|done].
  apply list_elem_of_omap. exists UnknownEffectPolicy. split; [done|]. simpl.
  assert (existsb is_unknown (in_effects input) = true) as ->; [|by vm_compute].
  apply existsb_exists. exists (UnknownEffect name). by rewrite <- list_elem_of_In.
Qed.

Lemma unknown_effect_denied_witness :
  let i := PolicySample.input_at 20 [NetworkRequest; UnknownEffect "a.b.c"] in
  is_hard_deny (ev_decision (evaluate PolicySample.rules i)) = true ∧
  ev_matched_grant_id (evaluate PolicySample.rules i) = None.
Proof.
  intros i. apply (unknown_effect_denied _ _ "a.b.c").
  - change PolicySample.rules with [UnknownEffectPolicy; CodingWorkspacePolicy]. left.
  - right. left.
Defined.

(** *** Registration *)

Lemma layer_leb_total a b : layer_leb a b = false → layer_leb b a = true.
Proof. unfold layer_leb. rewrite N.leb_gt, N.leb_le. lia. Qed.

Lemma insert_filter_layer x l layer :
  filter (λ r, rule_layer r = layer) (insert_sorted layer_leb x l) =
  filter (λ r, rule_layer r = layer) (x :: l).
Proof.
  induction l as [|y l IH]; [done|]. simpl insert_sorted.
  destruct (layer_leb x y) eqn:Hxy; [done|].
  rewrite filter_cons, IH, !filter_cons.
  destruct (decide (rule_layer y = layer)), (decide (rule_layer x = layer)); try done.
  exfalso. unfold layer_leb in Hxy. apply N.leb_gt in Hxy. subst.
  rewrite e0 in Hxy. lia.
Qed.

Lemma sort_filter_layer l layer :
  filter (λ r, rule_layer r = layer) (stable_sort layer_leb l) =
  filter (λ r, rule_layer r = layer) l.
Proof.
  induction l as [|x l IH]; simpl stable_sort; [done|].
  by rewrite insert_filter_layer, !filter_cons, IH.
Qed.

Lemma add_rule_ok rules rule rules' :
  add_rule rules rule = Ok rules' →
  rules' = stable_sort layer_leb (rules ++ [rule]) ∧ length rules < MAX_POLICY_RULES ∧
  rule_id rule ∉ rule_id <$> rules.
Proof.
  unfold add_rule. intros (? & _ & H)%result_bind_ok.
  apply result_bind_ok in H as (? & Hlen%ensure_ok & H).
  apply result_bind_ok in H as (? & Hdup%ensure_ok & [= <-]). bool_prop.
  split_and!; [done|by apply Nat.ltb_lt|].
  intros (r & Hid & Hr)%list_elem_of_fmap. apply not_true_iff_false in Hdup. apply Hdup.
  apply existsb_exists. exists r. rewrite <- list_elem_of_In. split; [done|].
  by rewrite Hid, String.eqb_refl.
Qed.

(** An engine built by registration has at most 128 rules with distinct
    ids, sorted from platform to workspace; and registering a rule adds it to
    the end of its own layer and leaves the order within the others. *)
Theorem built_engine_wf rules :
  built rules → engine_wf rules ∧
  ∀ rule rules', add_rule rules rule = Ok rules' → ∀ layer,
    filter (λ r, rule_layer r = layer) rules' =
    filter (λ r, rule_layer r = layer) rules ++ filter (λ r, rule_layer r = layer) [rule].
Proof.
  intros Hb. split.
  - induction Hb as [|rules rule rules' _ [Hn Hid Hl] (-> & Hlen & Hfresh)%add_rule_ok].
    { split; [simpl; lia|constructor|constructor]. }
    split.
    + rewrite stable_sort_perm, length_app. simpl. lia.
    + rewrite stable_sort_perm, fmap_app. apply NoDup_app. split; [done|].
      split; [set_solver|apply NoDup_singleton].
    + apply stable_sort_sorted, layer_leb_total.
  - intros rule rules' (-> & _ & _)%add_rule_ok layer.
    by rewrite sort_filter_layer, filter_app.
Qed.

Lemma built_engine_wf_witness :
  length PolicySample.rules = 2 ∧ engine_wf PolicySample.rules.
Proof.
  split; [by vm_compute|].
  refine (proj1 (built_engine_wf PolicySample.rules _)).
  apply (built_add [CodingWorkspacePolicy] UnknownEffectPolicy);
    [apply (built_add [] CodingWorkspacePolicy); [apply built_new|]|]; by vm_compute.
Defined.

(** *** Grants *)

Lemma covers_effects_elem g es :
  covers_effects g es = true ↔ ∀ e, e ∈ es → e ∈ gr_effects g.
Proof.
  unfold covers_effects. rewrite forallb_forall. setoid_rewrite <- list_elem_of_In.
  by setoid_rewrite bool_decide_eq_true.
Qed.

Lemma covers_resources_elem g rs :
  covers_resources g rs = true ↔
  ∀ r, r ∈ rs → ∃ p, p ∈ gr_resources g ∧ pattern_matches p r = true.
Proof.
  unfold covers_resources. rewrite forallb_forall. setoid_rewrite existsb_exists.
  by setoid_rewrite <- list_elem_of_In.
Qed.

(** revocation is permanent and nothing else: from the revocation time on
    the revoked grant matches no input, and before it matches exactly what the
    grant matched. *)
Theorem revoked_grant_matches g revoked_at g' input :
  revoke g revoked_at = Ok g' → gr_revoked_at g = None →
  grant_matches g' input = grant_matches g input && ts_ltb (in_now input) revoked_at.
Proof.
  unfold revoke. intros (? & _ & [= <-])%result_bind_ok Hn.
  unfold grant_matches, covers_effects, covers_resources. simpl. rewrite Hn.
  unfold ts_leb, ts_ltb. rewrite Z.leb_antisym.
  destruct (as_utc (in_now input) <? as_utc revoked_at)%Z; simpl.
  - by rewrite andb_true_r.
  - by rewrite orb_true_r, andb_false_r.
Qed.

Lemma revoked_grant_matches_witness :
  let g := PolicySample.grant in
  let g' := set_revoked_at g (Some (Timestamp 30)) in
  grant_matches g (PolicySample.input_at 40 [NetworkRequest]) = true ∧
  grant_matches g' (PolicySample.input_at 40 [NetworkRequest]) = false ∧
  grant_matches g' (PolicySample.input_at 29 [NetworkRequest]) = true.
Proof.
  intros g g'. split; [by vm_compute|].
  pose proof (λ i, revoked_grant_matches g (Timestamp 30) g' i eq_refl eq_refl) as H.
  rewrite !H. split; by vm_compute.
Defined.

(** what a constructed grant covers is the set of effects and patterns it
    was given: sorting and deduplication neither widen nor narrow it. *)
Theorem grant_new_covers id actor profile name version effects resources scope issued_at g :
  grant_new id actor profile name version effects resources scope issued_at = Ok g →
  (∀ es, covers_effects g es = true ↔ (∀ e, e ∈ es → e ∈ effects)) ∧
  (∀ rs, covers_resources g rs = true ↔
     ∀ r, r ∈ rs → ∃ p, p ∈ resources ∧ pattern_matches p r = true) ∧
  length (gr_effects g) ≤ MAX_GRANT_EFFECTS ∧ length (gr_resources g) ≤ MAX_GRANT_PATTERNS.
Proof.
  unfold grant_new. intros (? & He%ensure_ok & H)%result_bind_ok.
  apply result_bind_ok in H as (? & Hr%ensure_ok & H).
  apply result_bind_ok in H as (? & _ & [= <-]). bool_prop.
  assert (∀ a b, pattern_same a b = true → a = b) as Hps.
  { unfold pattern_same. intros a b Hab. by bool_prop. }
  split_and!; simpl.
  - intros es. rewrite covers_effects_elem. simpl.
    setoid_rewrite (elem_of_dedup _ _ _ effect_same_eq). by setoid_rewrite elem_of_stable_sort.
  - intros rs. rewrite covers_resources_elem. simpl.
    setoid_rewrite (elem_of_dedup _ _ _ Hps). by setoid_rewrite elem_of_stable_sort.
  - by apply Nat.leb_le.
  - by apply Nat.leb_le.
Qed.

Lemma grant_new_covers_witness :
  ∃ g, grant_new (mk_id 5) (mk_selector "alice") (mk_selector "coding") (mk_ToolName "fetch")
    (mk_ToolVersion "1.0.0") [NetworkRequest; FsRead; NetworkRequest]
    [mk_ResourcePattern "url" "https://a.b/" None] (ScopeSessionResource (mk_id 1))
    (Timestamp 10) = Ok g ∧ length (gr_effects g) = 2 ∧
  (∀ es, covers_effects g es = true ↔
     (∀ e, e ∈ es → e ∈ [NetworkRequest; FsRead; NetworkRequest])).
Proof.
  eexists. split; [by vm_compute|]. split; [by vm_compute|].
  refine (proj1 (grant_new_covers (mk_id 5) (mk_selector "alice") (mk_selector "coding")
    (mk_ToolName "fetch") (mk_ToolVersion "1.0.0") [NetworkRequest; FsRead; NetworkRequest]
    [mk_ResourcePattern "url" "https://a.b/" None] (ScopeSessionResource (mk_id 1))
    (Timestamp 10) _ _)). by vm_compute.
Defined.
