(* ===== verification/KernelBase.v ===== *)
(** * Kernel: values, limits, retry, input queue and scheduler

    [crates/tea-kernel]: errors ([error.rs]) and the model failures they carry
    ([tea-model/src/failure.rs]), run limits ([config.rs]), the run state
    machine ([state.rs]), the retry policy ([retry.rs]), the steering and
    follow-up queue ([queue.rs]), the scheduler ([scheduler.rs]) and the policy
    projections ([policy.rs]).  A [Duration] is its nanoseconds; [usize] is 64
    bits; the queue's lock is never poisoned. *)

From S2P Require Import Prelude Protocol Tools Policy Validation Usage Event.
Local Open Scope tea_scope.

(** The text of an error ([to_string]). *)
Class Display : Type := { to_string : ∀ {E : Set}, E → string }.

(** ** Errors ([error.rs], [failure.rs]) *)

Inductive ModelFailureCode : Set :=
| FailInvalidRequest | FailContextOverflow | FailAuthentication | FailPermissionDenied
| FailRateLimited | FailUnavailable | FailTransport | FailMalformedResponse
| FailCancelled | FailInternal.

#[export] Instance ModelFailureCode_eq_dec : EqDecision ModelFailureCode.
Proof. solve_decision. Defined.

(** Nanoseconds of a [std::time::Duration]. *)
Notation Duration := N (only parsing).
Definition DURATION_MAX : Duration := 18446744073709551615999999999%N.
Definition from_secs (s : N) : Duration := (s * 1000000000)%N.
Definition from_millis (ms : N) : Duration := (ms * 1000000)%N.
Definition duration_as_millis (d : Duration) : N := (d / 1000000)%N.

(** The errors of [stream.rs] values, failures included. *)
Inductive ModelStreamValueError : Set :=
| ValueInvalidProviderOpaqueId | ValueInvalidStreamIndex | ValueInvalidDelta
| ValueInvalidToolName | ValueToolArgumentsMustBeObject | ValueToolArgumentsOutOfBounds
| ValueTooManyHostedToolSources | ValueCitationAlreadyCanonical
| ValueInvalidCompletionReason | ValueInvalidFailureMessage.

Record ModelFailure : Set := mk_ModelFailure {
  mf_code : ModelFailureCode;
  mf_message : string;
  mf_retry : RetryClass;
  mf_retry_after : option Duration;
  mf_metadata : ProtocolMetadata;
  mf_safe_diagnostic : bool
}.

Definition model_failure_new (code : ModelFailureCode) (message : string) (retry : RetryClass)
    : Result ModelStreamValueError ModelFailure :=
  try? ensure (bounded_text message 4096) ValueInvalidFailureMessage in
  Ok (mk_ModelFailure code message retry None ∅ false).

Definition model_failure_safe (code : ModelFailureCode) (message : string) (retry : RetryClass)
    : Result ModelStreamValueError ModelFailure :=
  let? failure := model_failure_new code message retry in
  Ok (mk_ModelFailure (mf_code failure) (mf_message failure) (mf_retry failure)
        (mf_retry_after failure) (mf_metadata failure) true).

Definition internal_adapter_failure : ModelFailure :=
  mk_ModelFailure FailInternal "model adapter failed internally" RetryClassNever None ∅ false.

Inductive KernelErrorCode : Set :=
| CodeInvalidModel | CodeInvalidRequest | CodeInvalidState | CodeModelFailure
| CodeToolFailure | CodePolicyFailure | CodeSessionFailure | CodeEventSinkFailure
| CodeCancelled | CodeLimitExceeded | CodeIdExhausted | CodeClockFailure
| CodeContextOverflow | CodeRetryExhausted | CodeSchedulerConflict.

#[export] Instance KernelErrorCode_eq_dec : EqDecision KernelErrorCode.
Proof. solve_decision. Defined.

Record KernelError : Set := mk_KernelError {
  ke_code : KernelErrorCode;
  ke_model_failure_code : option ModelFailureCode;
  ke_message : string;
  ke_safe_diagnostic : bool
}.

#[export] Instance KernelError_eq_dec : EqDecision KernelError.
Proof. solve_decision. Defined.

(** [message.retain(|character| character != '\0')]. *)
Fixpoint strip_nul (s : string) : string :=
  match s with
  | String.EmptyString => String.EmptyString
  | String.String c rest =>
      if (Ascii.N_of_ascii c =? 0)%N then strip_nul rest else String.String c (strip_nul rest)
  end.

(** [KernelError::new]. *)
Definition kernel_error (code : KernelErrorCode) (message : string) : KernelError :=
  let message := if String.eqb message "" then "kernel operation failed" else message in
  mk_KernelError code None (strip_nul (truncate_utf8 message 4096)) false.

Definition model_failure_error (failure : ModelFailure) (retry_exhausted : bool) : KernelError :=
  let cancelled := bool_decide (mf_code failure = FailCancelled) in
  let code := if cancelled then CodeCancelled
              else if retry_exhausted then CodeRetryExhausted else CodeModelFailure in
  let message :=
    if cancelled then "model request was cancelled"
    else if mf_safe_diagnostic failure && retry_exhausted
    then ("model retry policy was exhausted: " ++ mf_message failure)%string
    else if mf_safe_diagnostic failure then mf_message failure
    else if retry_exhausted then "model retry policy was exhausted"
    else "model provider request failed" in
  let error := kernel_error code message in
  mk_KernelError (ke_code error) (Some (mf_code failure)) (ke_message error)
    (mf_safe_diagnostic failure && negb cancelled).

Definition provider_validation (failure : ModelFailure) : KernelError :=
  let error := model_failure_error failure false in
  if bool_decide (mf_code failure = FailInvalidRequest)
  then mk_KernelError CodeInvalidRequest (ke_model_failure_code error) (ke_message error)
         (ke_safe_diagnostic error)
  else error.

Definition malformed_response (message : string) : KernelError :=
  let error := kernel_error CodeModelFailure message in
  mk_KernelError (ke_code error) (Some FailMalformedResponse) (ke_message error) true.

(** ** Run limits ([config.rs]) *)

Record RunLimits : Set := mk_RunLimits {
  max_tool_iterations : N;
  max_elapsed : Duration;
  max_assistant_output_bytes : N;
  max_events : N;
  max_queued_messages : N
}.

Definition limits_new (max_tool_iterations : N) (max_elapsed : Duration)
    (max_assistant_output_bytes max_events max_queued_messages : N)
    : Result KernelError RunLimits :=
  if (max_tool_iterations =? 0)%N || (max_elapsed =? 0)%N || (from_secs 86400 <? max_elapsed)%N
     || (max_assistant_output_bytes =? 0)%N || (16777216 <? max_assistant_output_bytes)%N
     || (max_events =? 0)%N || (1000000 <? max_events)%N
     || (max_queued_messages =? 0)%N || (1024 <? max_queued_messages)%N
  then Err (kernel_error CodeInvalidRequest "run limits are invalid")
  else Ok (mk_RunLimits max_tool_iterations max_elapsed max_assistant_output_bytes max_events
             max_queued_messages).

Definition limits_default : RunLimits :=
  mk_RunLimits 16 (from_secs 300) 4194304 100000 64.

(** ** Run state machine ([state.rs]) *)

Inductive RunState : Set :=
| Idle | PreparingContext | StreamingModel | PlanningToolCalls | EvaluatingPolicy
| WaitingApproval | ExecutingTool | CommittingTurn | RunCompleted | RunStateCancelled
| RunStateInterrupted | RunFailed.

#[export] Instance RunState_eq_dec : EqDecision RunState.
Proof. solve_decision. Defined.

Inductive StateTransitionError : Set := mk_StateTransitionError.

Definition transition (s next : RunState) : Result StateTransitionError RunState :=
  match s, next with
  | Idle, PreparingContext
  | (PreparingContext | CommittingTurn), StreamingModel
  | (PreparingContext | EvaluatingPolicy), WaitingApproval
  | StreamingModel, (PlanningToolCalls | CommittingTurn)
  | (PlanningToolCalls | ExecutingTool), EvaluatingPolicy
  | (PlanningToolCalls | EvaluatingPolicy | WaitingApproval | ExecutingTool), CommittingTurn
  | (EvaluatingPolicy | WaitingApproval), ExecutingTool
  | CommittingTurn, RunCompleted
  | _, (RunStateCancelled | RunStateInterrupted | RunFailed) => Ok next
  | _, _ => Err mk_StateTransitionError
  end.

Definition run_state_is_terminal (s : RunState) : bool :=
  match s with
  | WaitingApproval | RunCompleted | RunStateCancelled | RunStateInterrupted | RunFailed => true
  | _ => false
  end.

(** ** Retry policy ([retry.rs]) *)

Definition MAX_MODEL_RETRY_ATTEMPTS : N := 8.
Definition MAX_MODEL_RETRY_BASE_DELAY : Duration := from_secs 30.
Definition MAX_MODEL_RETRY_MAX_DELAY : Duration := from_secs 300.

Record ModelRetryPolicy : Set := mk_ModelRetryPolicy {
  max_attempts : N;
  base_delay : Duration;
  max_delay : Duration
}.

Definition retry_policy_new (max_attempts : N) (base_delay max_delay : Duration)
    : Result KernelError ModelRetryPolicy :=
  if (max_attempts =? 0)%N || (MAX_MODEL_RETRY_ATTEMPTS <? max_attempts)%N
     || (base_delay =? 0)%N || (MAX_MODEL_RETRY_BASE_DELAY <? base_delay)%N
     || (max_delay <? base_delay)%N || (MAX_MODEL_RETRY_MAX_DELAY <? max_delay)%N
  then Err (kernel_error CodeInvalidRequest "model retry policy is invalid")
  else Ok (mk_ModelRetryPolicy max_attempts base_delay max_delay).

(** [u32::saturating_pow] of two. *)
Definition saturating_pow2_u32 (exponent : N) : N := N.min (2 ^ exponent) U32_MAX.

(** [Duration::checked_mul] by a [u32]. *)
Definition duration_checked_mul (d : Duration) (k : N) : option Duration :=
  if (d * k <=? DURATION_MAX)%N then Some (d * k)%N else None.

Definition next_delay (p : ModelRetryPolicy) (attempt : N) : Duration :=
  if (attempt =? 0)%N then base_delay p
  else
    let exponent := (N.min attempt 20 - 1)%N in
    let scaled := default (max_delay p)
                    (duration_checked_mul (base_delay p) (saturating_pow2_u32 exponent)) in
    N.min scaled (max_delay p).

Definition delay_for_failure (p : ModelRetryPolicy) (failure : ModelFailure) (attempt : N)
    : Duration :=
  N.min (default (next_delay p attempt) (mf_retry_after failure)) (max_delay p).

Definition should_retry (failure : ModelFailure) : option ModelFailureCode :=
  match mf_retry failure with
  | RetryClassNever => None
  | RetryImmediate | RetryAfterBackoff => Some (mf_code failure)
  end.

Definition retry_policy_default : ModelRetryPolicy :=
  mk_ModelRetryPolicy 3 (from_millis 500) (from_secs 10).

(** ** Steering and follow-up queue ([queue.rs]) *)

Record CommandText : Set := mk_CommandText { ct_str : string }.

#[export] Instance CommandText_eq_dec : EqDecision CommandText.
Proof. solve_decision. Defined.

(** The queue with the state its mutex guards. *)
Record KernelInputQueue : Set := mk_KernelInputQueue {
  q_max_messages : nat;
  q_max_steering_bytes : N;
  q_follow_ups : list CanonicalMessage;
  q_steering : list CommandText;
  q_steering_bytes : N
}.

Record QueueSnapshot : Set := mk_QueueSnapshot {
  qs_follow_ups : list CanonicalMessage;
  qs_steering : list CommandText
}.

Definition queue_overflow : KernelError :=
  kernel_error CodeLimitExceeded "steering queue limit was reached".

Definition queue_new (max_messages : nat) (max_steering_bytes : N)
    : Result KernelError KernelInputQueue :=
  if (max_messages =? 0)%nat || (1024 <? max_messages)%nat
     || (max_steering_bytes =? 0)%N || (1048576 <? max_steering_bytes)%N
  then Err (kernel_error CodeInvalidRequest "kernel input queue limits are invalid")
  else Ok (mk_KernelInputQueue max_messages max_steering_bytes [] [] 0).

Definition set_follow_ups (l : list CanonicalMessage) (q : KernelInputQueue) : KernelInputQueue :=
  mk_KernelInputQueue (q_max_messages q) (q_max_steering_bytes q) l (q_steering q)
    (q_steering_bytes q).
Definition set_steering (l : list CommandText) (bytes : N) (q : KernelInputQueue)
    : KernelInputQueue :=
  mk_KernelInputQueue (q_max_messages q) (q_max_steering_bytes q) (q_follow_ups q) l bytes.

Definition enqueue_follow_up (message : CanonicalMessage)
    : ST KernelInputQueue KernelError unit :=
  do! st_ensure (bool_decide (role message = RoleUser))
        (kernel_error CodeInvalidRequest "follow-up queue accepts only user messages") in
  let! q := st_gets (λ q, q) in
  do! st_ensure (negb (q_max_messages q <=? length (q_follow_ups q))%nat)
        (kernel_error CodeLimitExceeded "follow-up queue is full") in
  st_modify (set_follow_ups (q_follow_ups q ++ [message])).

Definition enqueue_steering (text : CommandText) : ST KernelInputQueue KernelError unit :=
  let! q := st_gets (λ q, q) in
  let! bytes := st_lift (ok_or (checked_add_u64 (q_steering_bytes q) (str_len (ct_str text))
                                ≫= λ value, checked_add_u64 value 1) queue_overflow) in
  do! st_ensure (negb ((q_max_messages q <=? length (q_steering q))%nat
                       || (q_max_steering_bytes q <? bytes)%N)) queue_overflow in
  st_modify (set_steering (q_steering q ++ [text]) bytes).

Definition queue_snapshot (q : KernelInputQueue) : QueueSnapshot :=
  mk_QueueSnapshot (q_follow_ups q) (q_steering q).

(** The loop of [acknowledge]: each expected follow-up is popped from the
    front. *)
Definition acknowledge_follow_up (expected : CanonicalMessage)
    : ST KernelInputQueue KernelError unit :=
  let! q := st_gets (λ q, q) in
  do! st_ensure (bool_decide (head (q_follow_ups q) = Some expected))
        (kernel_error CodeInvalidState "follow-up queue changed before acknowledgement") in
  st_modify (set_follow_ups (tail (q_follow_ups q))).

Definition steering_bytes_of (steering : list CommandText) : N :=
  foldr (λ text total, (str_len (ct_str text) + 1 + total)%N) 0%N steering.

Definition acknowledge (snapshot : QueueSnapshot) : ST KernelInputQueue KernelError unit :=
  do! st_for (qs_follow_ups snapshot) acknowledge_follow_up in
  let! q := st_gets (λ q, q) in
  let count := length (qs_steering snapshot) in
  do! st_ensure (bool_decide (take count (q_steering q) = qs_steering snapshot))
        (kernel_error CodeInvalidState "steering queue changed before acknowledgement") in
  let steering := drop count (q_steering q) in
  st_modify (set_steering steering (steering_bytes_of steering)).

(** ** Scheduler ([scheduler.rs]) *)

Record Lane : Set := mk_Lane {
  ln_class : SchedulerClass;
  ln_invocations : list ValidatedToolInvocation
}.

Definition lane_allows_parallel (lane : Lane) : bool :=
  allows_parallel_execution (ln_class lane).

Record SchedulePlan : Set := mk_SchedulePlan {
  sp_lanes : list Lane;
  sp_source_order : list ToolCallId
}.

Definition invocation_class (invocation : ValidatedToolInvocation) : SchedulerClass :=
  scheduler_class (vi_spec invocation).
Definition invocation_call_id (invocation : ValidatedToolInvocation) : ToolCallId :=
  ti_tool_call_id (vi_invocation invocation).

Definition scheduler_conflict : KernelError :=
  kernel_error CodeSchedulerConflict "tool invocation requires policy before scheduling".

(** The classification loop, on the three queues it fills. *)
Fixpoint classify_lanes (parallel serial exclusive : list ValidatedToolInvocation)
    (invocations : list ValidatedToolInvocation)
    : Result KernelError (list ValidatedToolInvocation * list ValidatedToolInvocation
                          * list ValidatedToolInvocation) :=
  match invocations with
  | [] => Ok (parallel, serial, exclusive)
  | invocation :: rest =>
      match invocation_class invocation with
      | ParallelReadOnly | ParallelRetrySafe =>
          classify_lanes (parallel ++ [invocation]) serial exclusive rest
      | SerialClass => classify_lanes parallel (serial ++ [invocation]) exclusive rest
      | ExclusiveClass => classify_lanes parallel serial (exclusive ++ [invocation]) rest
      | PolicyRequired => Err scheduler_conflict
      end
  end.

Definition plan (invocations : list ValidatedToolInvocation) : Result KernelError SchedulePlan :=
  try? ensure (negb (existsb (λ invocation, requires_policy (invocation_class invocation))
                       invocations)) scheduler_conflict in
  let? lanes := classify_lanes [] [] [] invocations in
  let '(parallel, serial, exclusive) := lanes in
  Ok (mk_SchedulePlan
        ((if is_empty parallel then [] else [mk_Lane ParallelReadOnly parallel])
         ++ (if is_empty serial then [] else [mk_Lane SerialClass serial])
         ++ ((λ invocation, mk_Lane ExclusiveClass [invocation]) <$> exclusive))
        (invocation_call_id <$> invocations)).

(** ** Policy projections ([policy.rs]) *)

Definition durable_decision (decision : PolicyDecision) : RecordedPolicyDecision :=
  match decision with
  | Allow | Redirect _ => PolicyAllow
  | Ask _ => PolicyRequireApproval
  | Deny _ | HardDeny _ => PolicyDeny
  end.

Definition execution_target (target : PolicyExecutionTarget) : ExecutionTarget :=
  match target with
  | PolicyMcp => TargetMcp
  | PolicyRemote => TargetRemote
  | PolicyNative | PolicySubprocess | PolicySandbox | PolicyWasm => TargetNative
  end.

Definition selected_target (decision : PolicyDecision) (configured : PolicyExecutionTarget)
    (source : ToolSourceKind) : ExecutionTarget :=
  match source with
  | SourceMcp => TargetMcp
  | SourceRemote => TargetRemote
  | SourceNative =>
      match decision with
      | Redirect target => execution_target target
      | Allow | Ask _ | Deny _ | HardDeny _ => execution_target configured
      end
  end.

Definition denial_reason (decision : PolicyDecision) : option string :=
  match decision with
  | Deny reason | HardDeny reason => Some reason
  | Allow | Redirect _ | Ask _ => None
  end.

(** ** Lemmas: scheduler *)

Definition in_class (p : SchedulerClass → bool) (invocation : ValidatedToolInvocation) : bool :=
  p (invocation_class invocation).
Definition is_serial_class (c : SchedulerClass) : bool := bool_decide (c = SerialClass).
Definition is_exclusive_class (c : SchedulerClass) : bool := bool_decide (c = ExclusiveClass).

(** The sublist of the invocations whose class satisfies [p]. *)
Definition of_class (p : SchedulerClass → bool) (l : list ValidatedToolInvocation)
    : list ValidatedToolInvocation := List.filter (in_class p) l.

Lemma of_class_sublist p l : of_class p l `sublist_of` l.
Proof.
  induction l as [|x l IH]; simpl; [constructor|]. destruct (in_class p x); by constructor.
Qed.

Lemma of_class_elem p l x : x ∈ of_class p l ↔ x ∈ l ∧ p (invocation_class x) = true.
Proof. unfold of_class. rewrite !list_elem_of_In. apply List.filter_In. Qed.

Lemma classify_lanes_ok par ser exc l :
  existsb (λ i, requires_policy (invocation_class i)) l = false →
  classify_lanes par ser exc l =
    Ok (par ++ of_class allows_parallel_execution l, ser ++ of_class is_serial_class l,
        exc ++ of_class is_exclusive_class l).
Proof.
  revert par ser exc. induction l as [|x l IH]; intros par ser exc; simpl.
  - by rewrite !app_nil_r.
  - intros [Hx Hl]%orb_false_iff. unfold in_class, of_class in *.
    destruct (invocation_class x); simpl in *; try discriminate;
      rewrite IH by done; simpl; by rewrite <- ?(assoc_L (++)).
Qed.

Lemma of_class_partition l :
  existsb (λ i, requires_policy (invocation_class i)) l = false →
  of_class allows_parallel_execution l ++ of_class is_serial_class l
    ++ of_class is_exclusive_class l ≡ₚ l.
Proof.
  induction l as [|x l IH]; simpl; [done|]. intros [Hx Hl]%orb_false_iff.
  unfold in_class, of_class in *. specialize (IH Hl).
  destruct (invocation_class x); simpl in *; try discriminate.
  1,2: by constructor.
  - rewrite <- Permutation_middle. by constructor.
  - rewrite (assoc_L (++)), <- Permutation_middle, <- (assoc_L (++)). by constructor.
Qed.

(** The lanes of an accepted plan. *)
Lemma plan_ok l p :
  plan l = Ok p ↔
  existsb (λ i, requires_policy (invocation_class i)) l = false ∧
  p = mk_SchedulePlan
        ((if is_empty (of_class allows_parallel_execution l) then []
          else [mk_Lane ParallelReadOnly (of_class allows_parallel_execution l)])
         ++ (if is_empty (of_class is_serial_class l) then []
             else [mk_Lane SerialClass (of_class is_serial_class l)])
         ++ ((λ i, mk_Lane ExclusiveClass [i]) <$> of_class is_exclusive_class l))
        (invocation_call_id <$> l).
Proof.
  unfold plan, ensure, result_bind.
  destruct (existsb _ l) eqn:Hl; simpl; [naive_solver|].
  rewrite classify_lanes_ok by done. simpl. split; [intros [= <-]; done|by intros [_ ->]].
Qed.

Lemma concat_singleton_lanes l :
  concat (ln_invocations <$> ((λ i, mk_Lane ExclusiveClass [i]) <$> l)) = l.
Proof. induction l as [|x l IH]; [done|]. cbn. f_equal. apply IH. Qed.

Lemma plan_lanes_concat l p :
  plan l = Ok p →
  concat (ln_invocations <$> sp_lanes p) =
    of_class allows_parallel_execution l ++ of_class is_serial_class l
      ++ of_class is_exclusive_class l.
Proof.
  intros [_ ->]%plan_ok. cbn [sp_lanes].
  rewrite !fmap_app, !concat_app, concat_singleton_lanes.
  by destruct (of_class allows_parallel_execution l), (of_class is_serial_class l);
    simpl; rewrite ?app_nil_r.
Qed.

(** A plan is refused exactly when some invocation needs policy first.
    Otherwise its lanes hold every invocation exactly once, each lane in source
    order; a lane that may run concurrently holds only invocations whose class
    allows it, and exclusive invocations run alone, after everything else. *)
Theorem plan_partitions l :
  match plan l with
  | Err e => e = scheduler_conflict ∧ ∃ i, i ∈ l ∧ invocation_class i = PolicyRequired
  | Ok p =>
      (∀ i, i ∈ l → invocation_class i ≠ PolicyRequired) ∧
      concat (ln_invocations <$> sp_lanes p) ≡ₚ l ∧
      sp_source_order p = invocation_call_id <$> l ∧
      (∀ lane, lane ∈ sp_lanes p →
         ln_invocations lane `sublist_of` l ∧
         (lane_allows_parallel lane = true →
            ∀ i, i ∈ ln_invocations lane →
              allows_parallel_execution (invocation_class i) = true) ∧
         (lane_allows_parallel lane = false →
            ∀ i, i ∈ ln_invocations lane → invocation_class i = ln_class lane)) ∧
      ∃ shared, sp_lanes p = shared ++ ((λ i, mk_Lane ExclusiveClass [i])
                                          <$> of_class is_exclusive_class l) ∧
        length shared ≤ 2
  end.
Proof.
  assert (existsb (λ i, requires_policy (invocation_class i)) l = true ↔
          ∃ i, i ∈ l ∧ invocation_class i = PolicyRequired) as Hpolicy.
  { rewrite existsb_exists. setoid_rewrite <- list_elem_of_In.
    split; intros (i & Hi & Hc); exists i; split; try done; [|by rewrite Hc].
    by destruct (invocation_class i). }
  destruct (plan l) as [p|e] eqn:Hp.
  - pose proof (plan_lanes_concat _ _ Hp) as Hconcat.
    apply plan_ok in Hp as [Hnone ->]. simpl in *. split_and!.
    + intros i Hi Hc. apply not_true_iff_false in Hnone. apply Hnone, Hpolicy. eauto.
    + rewrite Hconcat. by apply of_class_partition.
    + done.
    + intros lane [Hl|[Hl|Hl]%elem_of_app]%elem_of_app.
      * destruct (is_empty (of_class allows_parallel_execution l)); [by apply elem_of_nil in Hl|].
        apply list_elem_of_singleton in Hl as ->. simpl.
        split; [apply of_class_sublist|]. split; [|done]. intros _ i Hi.
        by apply of_class_elem in Hi as [_ Hi].
      * destruct (is_empty (of_class is_serial_class l)); [by apply elem_of_nil in Hl|].
        apply list_elem_of_singleton in Hl as ->. simpl.
        split; [apply of_class_sublist|]. split; [done|]. intros _ i [_ Hi]%of_class_elem.
        by apply bool_decide_eq_true in Hi.
      * apply list_elem_of_fmap in Hl as (x & -> & [Hx Hc]%of_class_elem). simpl.
        split; [by apply singleton_sublist_l|]. split; [done|].
        intros _ i ->%list_elem_of_singleton. by apply bool_decide_eq_true in Hc.
    + eexists (_ ++ _). split; [by rewrite <- (assoc_L (++))|].
      destruct (is_empty _), (is_empty _); simpl; lia.
  - unfold plan, ensure, result_bind in Hp. destruct (existsb _ l) eqn:Hl.
    + simpl in Hp. simplify_eq. split; [done|]. by apply Hpolicy.
    + simpl in Hp. by rewrite classify_lanes_ok in Hp.
Qed.

(** ** Lemmas: queue *)

(** Producers working on the queue; a rejected input changes nothing. *)
Inductive enqueues : KernelInputQueue → KernelInputQueue → Prop :=
| enqueues_refl q : enqueues q q
| enqueues_follow_up q q1 message r q2 :
    enqueues q q1 → enqueue_follow_up message q1 = (r, q2) → enqueues q q2
| enqueues_steering q q1 text r q2 :
    enqueues q q1 → enqueue_steering text q1 = (r, q2) → enqueues q q2.

Record queue_wf (q : KernelInputQueue) : Prop := mk_queue_wf {
  qw_follow_ups : length (q_follow_ups q) ≤ q_max_messages q;
  qw_users : ∀ m, m ∈ q_follow_ups q → role m = RoleUser;
  qw_steering : length (q_steering q) ≤ q_max_messages q;
  qw_bytes : q_steering_bytes q = steering_bytes_of (q_steering q);
  qw_bytes_bound : (q_steering_bytes q ≤ q_max_steering_bytes q)%N
}.

Lemma steering_bytes_app l1 l2 :
  steering_bytes_of (l1 ++ l2) = (steering_bytes_of l1 + steering_bytes_of l2)%N.
Proof.
  unfold steering_bytes_of. induction l1 as [|x l1 IH]; simpl; [done|]. rewrite IH. lia.
Qed.

Lemma enqueue_follow_up_cases message q r q' :
  enqueue_follow_up message q = (r, q') → queue_wf q →
  queue_wf q' ∧ (q' = q ∨ q' = set_follow_ups (q_follow_ups q ++ [message]) q).
Proof.
  intros H Hwf. unfold enqueue_follow_up, st_bind, st_ensure, st_lift, ensure, st_gets,
    st_modify in H.
  destruct (bool_decide (role message = RoleUser)) eqn:Hrole; simplify_eq; [|eauto].
  destruct (negb _) eqn:Hfull; simplify_eq; [|eauto].
  apply negb_true_iff, Nat.leb_gt in Hfull. apply bool_decide_eq_true in Hrole.
  split; [|eauto]. destruct Hwf. split; simpl; try done.
  - rewrite length_app. simpl. lia.
  - intros m [Hm| ->%list_elem_of_singleton]%elem_of_app; eauto.
Qed.

Lemma enqueue_steering_cases text q r q' :
  enqueue_steering text q = (r, q') → queue_wf q →
  queue_wf q' ∧ (q' = q ∨ ∃ bytes, q' = set_steering (q_steering q ++ [text]) bytes q).
Proof.
  intros H Hwf. unfold enqueue_steering, st_bind, st_ensure, st_lift, ensure, st_gets,
    st_modify, ok_or in H.
  destruct (checked_add_u64 _ _ ≫= _) as [bytes|] eqn:Hbytes; simplify_eq; [|eauto].
  destruct (negb _) eqn:Hfull; simplify_eq; [|eauto].
  apply negb_true_iff, orb_false_iff in Hfull as [Hlen%Nat.leb_gt Hb%N.ltb_ge].
  split; [|eauto]. destruct Hwf as [? ? Hs Hsum ?]. split; simpl; try done.
  - rewrite length_app. simpl. lia.
  - apply bind_Some in Hbytes as (value & Hv & Hbytes).
    unfold checked_add_u64 in *. repeat case_match; simplify_eq.
    rewrite steering_bytes_app, <- Hsum. unfold steering_bytes_of. simpl. lia.
Qed.

(** What producers did to a queue: appended to each of its two sequences. *)
Lemma enqueues_spec q q' :
  queue_wf q → enqueues q q' →
  queue_wf q' ∧ q_follow_ups q `prefix_of` q_follow_ups q' ∧
  q_steering q `prefix_of` q_steering q'.
Proof.
  intros Hwf. induction 1 as [q|q q1 message r q2 _ IH H|q q1 text r q2 _ IH H]; [done|..].
  - destruct (IH Hwf) as (Hwf1 & Hf & Hs).
    destruct (enqueue_follow_up_cases _ _ _ _ H Hwf1) as [Hwf2 [->| ->]]; [done|].
    split_and!; [done| |done]. simpl. by apply prefix_app_r.
  - destruct (IH Hwf) as (Hwf1 & Hf & Hs).
    destruct (enqueue_steering_cases _ _ _ _ H Hwf1) as [Hwf2 [->|[bytes ->]]]; [done|].
    split_and!; [done|done|]. simpl. by apply prefix_app_r.
Qed.

Lemma acknowledge_follow_ups l rest q :
  q_follow_ups q = l ++ rest →
  st_for l acknowledge_follow_up q = (Ok tt, set_follow_ups rest q).
Proof.
  revert q. induction l as [|m l IH]; intros q Hq; simpl in *.
  - unfold st_ret. subst. by destruct q.
  - unfold acknowledge_follow_up at 1, st_bind, st_gets, st_ensure, st_lift, ensure, st_modify.
    rewrite Hq. simpl. rewrite bool_decide_true by done. by rewrite IH.
Qed.

(** input applied at a turn boundary is removed exactly once.  Whatever
    producers enqueue between taking a snapshot and acknowledging it, the
    acknowledgement succeeds, removes exactly the snapshot from the front of
    both sequences, keeps every later input in order, and leaves the queue
    within its limits with an exact byte count. *)
Theorem acknowledge_removes_snapshot q q' :
  queue_wf q → enqueues q q' →
  ∃ q'', acknowledge (queue_snapshot q) q' = (Ok tt, q'') ∧ queue_wf q'' ∧
    q_follow_ups q' = q_follow_ups q ++ q_follow_ups q'' ∧
    q_steering q' = q_steering q ++ q_steering q''.
Proof.
  intros Hwf Henq. destruct (enqueues_spec _ _ Hwf Henq) as (Hwf' & [fs Hf] & [ss Hs]).
  unfold acknowledge, queue_snapshot. simpl.
  unfold st_bind. rewrite (acknowledge_follow_ups _ fs) by done.
  unfold st_gets, st_ensure, st_lift, ensure, st_modify. simpl.
  rewrite Hs, take_app_length, drop_app_length, bool_decide_true by done. simpl.
  eexists. split; [done|]. simpl. split; [|by rewrite Hf].
  destruct Hwf' as [Hf1 Hu Hs1 Hb Hbb]. rewrite Hf in *. rewrite Hs in *.
  split; simpl.
  - rewrite length_app in Hf1. lia.
  - intros m Hm. apply Hu, elem_of_app. by right.
  - rewrite length_app in Hs1. lia.
  - done.
  - rewrite Hb, steering_bytes_app in Hbb. lia.
Qed.

Lemma queue_new_wf max_messages max_bytes q : queue_new max_messages max_bytes = Ok q → queue_wf q.
Proof.
  unfold queue_new. case_match; [done|]. intros [= <-]. split; simpl; try lia; try done.
  intros m Hm. by apply elem_of_nil in Hm.
Qed.

(** ** Lemmas: retry *)

(** no delay the retry policy selects exceeds the policy's cap; without a
    delay asked for by the provider it is at least the base delay; and the local
    backoff never decreases from one attempt to the next. *)
Theorem retry_delay_bounds attempts base cap p failure attempt :
  retry_policy_new attempts base cap = Ok p →
  (delay_for_failure p failure attempt ≤ cap)%N ∧
  (mf_retry_after failure = None → (base ≤ delay_for_failure p failure attempt)%N) ∧
  (next_delay p attempt ≤ next_delay p (attempt + 1))%N.
Proof.
  unfold retry_policy_new. case_match eqn:Hok; [done|]. intros [= <-].
  rewrite !orb_false_iff in Hok. destruct Hok as (((((Ha & Hb) & Hc) & Hd) & He) & Hf).
  apply N.eqb_neq in Hc, Ha. apply N.ltb_ge in Hb, Hd, He, Hf.
  assert (∀ e, (1 ≤ saturating_pow2_u32 e)%N) as Hpow.
  { intros e. unfold saturating_pow2_u32. apply N.min_glb; [|done].
    pose proof (N.pow_nonzero 2 e ltac:(done)). lia. }
  assert (∀ n, (base ≤ next_delay (mk_ModelRetryPolicy attempts base cap) n)%N) as Hbase.
  { intros n. unfold next_delay, duration_checked_mul. simpl. destruct (n =? 0)%N; [lia|].
    specialize (Hpow (N.min n 20 - 1)%N). case_match; simpl; [|lia].
    apply N.min_glb; [|done]. nia. }
  unfold delay_for_failure. simpl. split_and!.
  - lia.
  - intros ->. simpl. apply N.min_glb; [apply Hbase|done].
  - unfold next_delay at 1. simpl. destruct (attempt =? 0)%N; [apply Hbase|].
    unfold next_delay. simpl. replace (attempt + 1 =? 0)%N with false by (symmetry; apply N.eqb_neq; lia).
    apply N.min_glb; [|lia]. 
    assert (saturating_pow2_u32 (N.min attempt 20 - 1)
            ≤ saturating_pow2_u32 (N.min (attempt + 1) 20 - 1))%N as Hle.
    { unfold saturating_pow2_u32. apply N.min_le_compat_r, N.pow_le_mono_r; [done|lia]. }
    unfold duration_checked_mul. case_match eqn:H1; case_match eqn:H2; simpl; try lia.
    + apply N.le_trans with (base * saturating_pow2_u32 (N.min attempt 20 - 1))%N; [lia|nia].
    + apply N.leb_gt in H1. apply N.leb_le in H2. nia.
Qed.

(** ** Witnesses *)

Module KernelBaseSample.

Definition message (n : N) : CanonicalMessage := User (mk_id n) [Text "hello"] (Timestamp 1).
Definition queue : KernelInputQueue :=
  mk_KernelInputQueue 4 64 [message 1; message 2] [mk_CommandText "faster"] 7.
Definition later_queue : KernelInputQueue :=
  (enqueue_steering (mk_CommandText "stop") (enqueue_follow_up (message 3) queue).2).2.
Definition failure : ModelFailure :=
  mk_ModelFailure FailRateLimited "later" RetryAfterBackoff None ∅ true.

End KernelBaseSample.

Lemma sample_queue_wf : queue_wf KernelBaseSample.queue.
Proof.
  split; simpl; try lia; try done.
  intros m [->|[->|Hm]%elem_of_cons]%elem_of_cons; [done|done|]. by apply elem_of_nil in Hm.
Qed.

Lemma acknowledge_removes_snapshot_witness :
  q_follow_ups KernelBaseSample.later_queue =
    q_follow_ups KernelBaseSample.queue ++ [KernelBaseSample.message 3] ∧
  ∃ q'', acknowledge (queue_snapshot KernelBaseSample.queue) KernelBaseSample.later_queue
           = (Ok tt, q'').
Proof.
  split; [reflexivity|].
  destruct (acknowledge_removes_snapshot KernelBaseSample.queue KernelBaseSample.later_queue)
    as (q'' & Hack & _); [apply sample_queue_wf| |by exists q''].
  eapply enqueues_steering; [|apply surjective_pairing].
  eapply enqueues_follow_up; [apply enqueues_refl|apply surjective_pairing].
Defined.

Lemma retry_delay_bounds_witness :
  retry_policy_new 3 (from_millis 500) (from_secs 10) = Ok retry_policy_default ∧
  (delay_for_failure retry_policy_default KernelBaseSample.failure 9 ≤ from_secs 10)%N.
Proof.
  assert (retry_policy_new 3 (from_millis 500) (from_secs 10) = Ok retry_policy_default) as Hp
    by reflexivity.
  split; [done|]. apply (retry_delay_bounds _ _ _ _ KernelBaseSample.failure 9 Hp).
Defined.
