(* ===== verification/Command.v ===== *)
(** * Protocol: commands

    [crates/tea-protocol/src/command.rs]: selectors, the commands a host sends,
    their validation and their envelopes, and the classification of an envelope
    that does not decode.  The derived decoder of a known command is a
    parameter. *)

From S2P Require Import Prelude Protocol Decimal Validation KernelBase.
Local Open Scope tea_scope.

(** ** Selectors *)

Definition MAX_SELECTOR_BYTES : N := 128.

Inductive SelectorParseError : Set := SelectorInvalid.

(** The bytes [_], [-], [.] and [/], and [:] where allowed. *)
Definition command_selector_byte (allow_colon : bool) (b : N) : bool :=
  is_ascii_lowercase b || is_ascii_digit b
  || (b =? 95)%N || (b =? 45)%N || (b =? 46)%N || (b =? 47)%N || allow_colon && (b =? 58)%N.

Definition validate_command_selector (value : string) (allow_colon : bool)
    : Result SelectorParseError unit :=
  if (MAX_SELECTOR_BYTES <? str_len value)%N
     || negb (head_and_all is_ascii_lowercase (command_selector_byte allow_colon) value)
  then Err SelectorInvalid else Ok tt.

Definition parse_profile_id (value : string) : Result SelectorParseError ProfileId :=
  try? validate_command_selector value false in Ok (mk_selector value).
Definition parse_provider_id (value : string) : Result SelectorParseError ProviderId :=
  try? validate_command_selector value false in Ok (mk_selector value).
Definition parse_model_id (value : string) : Result SelectorParseError ModelId :=
  try? validate_command_selector value true in Ok (mk_selector value).

(** ** Commands *)

Definition MAX_COMMAND_TEXT_BYTES : N := 262144.

Inductive CommandValidationError : Set :=
| InvalidSessionPresence | MessageMustBeUser | InvalidFinalOutputFormat | InvalidCommandText.

(** [CommandText::new]. *)
Definition command_text_new (value : string) : Result CommandValidationError CommandText :=
  if String.eqb value "" || (MAX_COMMAND_TEXT_BYTES <? str_len value)%N || contains_nul value
  then Err InvalidCommandText else Ok (mk_CommandText value).

Inductive AgentCommandType : Set :=
| TypeCreateSession | TypePrompt | TypeSteer | TypeFollowUp | TypeAbort | TypeResolveApproval
| TypeSetModel | TypeSetReasoningEffort | TypeSetProfile | TypeCompactSession | TypeForkSession.

Inductive AgentCommand : Set :=
| CommandCreateSession (profile_id : ProfileId) (metadata : ProtocolMetadata)
| CommandPrompt (message : CanonicalMessage) (final_output_format : option FinalOutputFormat)
| CommandSteer (text : CommandText)
| CommandFollowUp (message : CanonicalMessage)
| CommandAbort
| CommandResolveApproval (approval_id : ApprovalId) (decision : ApprovalDecision)
| CommandSetModel (model : ModelRef)
| CommandSetReasoningEffort (reasoning_effort : ReasoningEffort)
| CommandSetProfile (profile_id : ProfileId)
| CommandCompactSession (instruction : option CommandText)
| CommandForkSession (from_message_id : MessageId) (branch_id : BranchId).

Definition command_type (c : AgentCommand) : AgentCommandType :=
  match c with
  | CommandCreateSession _ _ => TypeCreateSession
  | CommandPrompt _ _ => TypePrompt
  | CommandSteer _ => TypeSteer
  | CommandFollowUp _ => TypeFollowUp
  | CommandAbort => TypeAbort
  | CommandResolveApproval _ _ => TypeResolveApproval
  | CommandSetModel _ => TypeSetModel
  | CommandSetReasoningEffort _ => TypeSetReasoningEffort
  | CommandSetProfile _ => TypeSetProfile
  | CommandCompactSession _ => TypeCompactSession
  | CommandForkSession _ _ => TypeForkSession
  end.

Definition is_user_message (message : CanonicalMessage) : bool :=
  bool_decide (role message = RoleUser).

Section codec.
Context `{Codec, SchemaEngine}.

Definition command_validate (c : AgentCommand) : Result CommandValidationError unit :=
  match c with
  | CommandPrompt message format =>
      try? ensure (is_user_message message) MessageMustBeUser in
      match format with
      | Some format => map_err (λ _, InvalidFinalOutputFormat) (final_output_validate format)
      | None => Ok tt
      end
  | CommandFollowUp message => ensure (is_user_message message) MessageMustBeUser
  | _ => Ok tt
  end.

(** ** Envelopes *)

Record CommandEnvelope : Set := mk_CommandEnvelope {
  cmd_protocol_version : ProtocolVersion;
  cmd_command_id : CommandId;
  cmd_session_id : option SessionId;
  cmd_timestamp : ProtocolTimestamp;
  cmd_command : AgentCommand
}.

Definition is_create (c : AgentCommand) : bool :=
  match c with CommandCreateSession _ _ => true | _ => false end.

Definition command_envelope_validate (e : CommandEnvelope) : Result CommandValidationError unit :=
  try? ensure (negb (Bool.eqb (is_create (cmd_command e)) (bool_decide (cmd_session_id e ≠ None))))
         InvalidSessionPresence in
  command_validate (cmd_command e).

Definition command_envelope_new (command_id : CommandId) (session_id : option SessionId)
    (timestamp : ProtocolTimestamp) (command : AgentCommand)
    : Result CommandValidationError CommandEnvelope :=
  let envelope := mk_CommandEnvelope CURRENT_PROTOCOL_VERSION command_id session_id timestamp
                    command in
  try? command_envelope_validate envelope in Ok envelope.

(** ** Decoding *)

Definition validate_read_version (version : ProtocolVersion) : Result string unit :=
  ensure (pv_major version =? pv_major CURRENT_PROTOCOL_VERSION)%N
    "unsupported protocol major version"%string.

Inductive CommandDecodeError : Set :=
| UnsupportedVersion (version : ProtocolVersion)
| UnsupportedType (command_type : string)
| InvalidCommand (text : string).

Definition agent_command_types : list string :=
  ["create_session"; "prompt"; "steer"; "follow_up"; "abort"; "resolve_approval"; "set_model";
   "set_reasoning_effort"; "set_profile"; "compact_session"; "fork_session"]%string.

(** [AgentCommandTypeText]. *)
Definition known_command_type (value : string) : bool :=
  existsb (String.eqb value) agent_command_types.

Definition valid_discriminator (value : string) : bool :=
  negb (String.eqb value "") && (str_len value <=? 128)%N
  && forallb (λ b, is_ascii_lowercase b || is_ascii_digit b || (b =? 95)%N) (bytes value).

(** [Value::as_object] and [Map::get]. *)
Definition object_field (key : string) (v : Value) : option Value :=
  match v with
  | JObject entries => snd <$> List.find (λ entry, String.eqb entry.1 key) entries
  | _ => None
  end.

(** The text of a version that is not a string is serde's. *)
Definition decode_version (version_text : Value → string) (v : Value)
    : Result string ProtocolVersion :=
  let? version := ok_or (object_field "protocolVersion" v) "missing protocolVersion"%string in
  match version with
  | JString text => map_err (λ _, version_text version) (parse_protocol_version text)
  | _ => Err (version_text version)
  end.

Definition decode_value (version_text : Value → string)
    (from_value : Value → Result string CommandEnvelope) (v : Value)
    : Result CommandDecodeError CommandEnvelope :=
  let? version := map_err InvalidCommand (decode_version version_text v) in
  try? map_err (λ _, UnsupportedVersion version) (validate_read_version version) in
  let? discriminator :=
    ok_or (match object_field "type" v with Some (JString text) => Some text | _ => None end)
      (InvalidCommand "missing command type") in
  try? ensure (known_command_type discriminator)
         (if valid_discriminator discriminator then UnsupportedType discriminator
          else InvalidCommand "invalid command type") in
  map_err InvalidCommand (from_value v).
End codec.
