(* ===== verification/RecordCodec.v ===== *)
(** * Protocol: the JSON of a durable record

    [crates/tea-protocol]: JSON without duplicate keys ([envelope.rs]), the text of a
    sequence and of a timestamp ([sequence.rs], [timestamp.rs]), and the encoding and
    decoding of a record envelope ([record.rs]).  The derived serializer of the
    payload of a record, the JSON parser and [chrono] are parameters.  The text of
    an error that a parse causes is that failure. *)

From S2P Require Import Prelude Protocol Decimal Validation Command.
Local Open Scope tea_scope.

(** ** JSON without duplicate keys ([envelope.rs])

    What a JSON deserializer shows its visitor: the entries of an object in the
    order of the text, its keys possibly repeated. *)

Inductive JsonInput : Set :=
| InUnit
| InBool (b : bool)
| InI64 (z : Z)
| InU64 (n : N)
| InF64 (bits : N)
| InStr (s : string)
| InSeq (values : list JsonInput)
| InMap (entries : list (string * JsonInput)).

(** What a JSON failure says. *)
Inductive JsonFailure : Set :=
| NonFiniteNumber
| DuplicateKey (key : string)
| JsonText (text : string).

(** [Number::from(i64)] and [Number::from_f64]: a non-negative integer is a
    [PosInt], and a float whose exponent bits are all ones is not finite. *)
Definition number_from_i64 (z : Z) : JsonNumber :=
  if (z <? 0)%Z then NegInt z else PosInt (Z.to_N z).
Definition is_finite (bits : N) : bool := negb (N.land (N.shiftr bits 52) 2047 =? 2047)%N.
#[global] Arguments is_finite : simpl never.
Definition number_from_f64 (bits : N) : option JsonNumber :=
  if is_finite bits then Some (Float bits) else None.

Definition contains_key (key : string) (entries : list (string * Value)) : bool :=
  existsb (λ entry, String.eqb entry.1 key) entries.

(** [deserialize_unique_value], the visitor of one value. *)
Fixpoint unique_value (input : JsonInput) : Result JsonFailure Value :=
  match input with
  | InUnit => Ok JNull
  | InBool b => Ok (JBool b)
  | InI64 z => Ok (JNumber (number_from_i64 z))
  | InU64 n => Ok (JNumber (PosInt n))
  | InF64 bits => let? n := ok_or (number_from_f64 bits) NonFiniteNumber in Ok (JNumber n)
  | InStr s => Ok (JString s)
  | InSeq inputs => let? values := result_map unique_value inputs in Ok (JArray values)
  | InMap inputs =>
      let? entries := result_fold (λ values entry,
        try? ensure (negb (contains_key entry.1 values)) (DuplicateKey entry.1) in
        let? value := unique_value entry.2 in
        Ok (insert_entry entry.1 value values)) [] inputs in
      Ok (JObject entries)
  end.

(** What a [Value] shows a visitor when it is itself deserialized. *)
Fixpoint value_input (v : Value) : JsonInput :=
  match v with
  | JNull => InUnit
  | JBool b => InBool b
  | JNumber (PosInt n) => InU64 n
  | JNumber (NegInt z) => InI64 z
  | JNumber (Float bits) => InF64 bits
  | JString s => InStr s
  | JArray values => InSeq (List.map value_input values)
  | JObject entries => InMap (List.map (λ kv, (kv.1, value_input kv.2)) entries)
  end.

(** ** Sequences and timestamps ([sequence.rs], [timestamp.rs]) *)

Inductive SessionSequenceParseError : Set := SequenceInvalidFormat | SequenceOutOfRange.

Definition show_sequence (s : SessionSequence) : string := show_decimal (seq_get s).

Definition parse_sequence (value : string) : Result SessionSequenceParseError SessionSequence :=
  let digits := bytes value in
  try? ensure (negb (is_empty digits || negb (forallb is_ascii_digit digits)
                     || (1 <? length digits)%nat && starts_with_zero digits))
         SequenceInvalidFormat in
  try? ensure (decimal_value digits <=? U64_MAX)%N SequenceOutOfRange in
  Ok (SessionSequence_new (decimal_value digits)).

(** [DateTime::to_rfc3339_opts(SecondsFormat::Millis, true)] and
    [DateTime::parse_from_rfc3339], on milliseconds since the epoch. *)
Class TimestampText : Type := {
  rfc3339_millis : Z → string;
  parse_from_rfc3339 : string → option Z
}.

Inductive ProtocolTimestampParseError : Set := InvalidRfc3339 | InvalidPrecision.

(** [str::find] and [str::rfind] of bytes. *)
Fixpoint find_byte (p : N → bool) (bs : list N) : option nat :=
  match bs with
  | [] => None
  | b :: rest => if p b then Some 0 else S <$> find_byte p rest
  end.

Fixpoint rfind_byte (p : N → bool) (bs : list N) : option nat :=
  match bs with
  | [] => None
  | b :: rest =>
      match rfind_byte p rest with
      | Some i => Some (S i)
      | None => if p b then Some 0 else None
      end
  end.

(** [&value[start..end]]. *)
Definition byte_range (start stop : nat) (bs : list N) : list N := drop start (take stop bs).

Definition validate_millisecond_precision (value : string)
    : Result ProtocolTimestampParseError unit :=
  let bs := bytes value in
  let? time_start := ok_or (find_byte (N.eqb 84) bs) InvalidPrecision in
  let? timezone_start :=
    if bool_decide (last bs = Some 90%N) then Ok (length bs - 1)
    else ok_or ((λ index, time_start + 1 + index) <$>
                  rfind_byte (λ b, (b =? 43)%N || (b =? 45)%N) (drop (time_start + 1) bs))
           InvalidPrecision in
  let? fraction_start :=
    ok_or ((λ index, time_start + 1 + index + 1) <$>
             find_byte (N.eqb 46) (byte_range (time_start + 1) timezone_start bs)) InvalidPrecision in
  let fraction := byte_range fraction_start timezone_start bs in
  ensure ((length fraction =? 3)%nat && forallb is_ascii_digit fraction) InvalidPrecision.

Section timestamp.
Context `{TimestampText}.

Definition show_timestamp (t : ProtocolTimestamp) : string := rfc3339_millis (as_utc t).

Definition parse_timestamp (value : string)
    : Result ProtocolTimestampParseError ProtocolTimestamp :=
  try? validate_millisecond_precision value in
  let? utc := ok_or (parse_from_rfc3339 value) InvalidRfc3339 in
  Ok (Timestamp utc).
End timestamp.

(** ** Record envelopes ([record.rs]) *)

(** The derived serializer of the payload of a record, and the derived
    deserializer of a record from the entries left in its object. *)
Class RecordSerde : Type := {
  payload_serialize : SessionRecord → Result string Value;
  record_deserialize : list (string * Value) → Result string SessionRecord
}.

Inductive RecordFailure : Set :=
| MissingProtocolVersion
| InvalidProtocolVersion
| MissingRecordType
| InvalidRecordType
| EnvelopeNotAnObject
| UnsupportedMajor
| InvalidField (key : string)
| RecordJson (failure : JsonFailure)
| RecordSerdeText (text : string)
| RecordValidation (error : RecordValidationError).

Inductive RecordDecodeError : Set :=
| RecordUnsupportedVersion (version : ProtocolVersion)
| RecordUnsupportedType (record_type : string)
| RecordInvalid (failure : RecordFailure).

(** [SessionRecordType] in snake case: the derived tag. *)
Definition record_type (record : SessionRecord) : string :=
  match record with
  | SessionCreated _ _ => "session_created"
  | MessageCommitted _ => "message_committed"
  | ConfigurationChanged _ _ _ => "configuration_changed"
  | ToolCallRequested _ _ _ => "tool_call_requested"
  | PolicyDecisionRecorded _ _ => "policy_decision_recorded"
  | ApprovalRequested _ _ _ => "approval_requested"
  | ApprovalResolved _ _ => "approval_resolved"
  | ToolExecutionStarted _ _ _ => "tool_execution_started"
  | ToolExecutionFinished _ _ _ _ _ => "tool_execution_finished"
  | ToolExecutionInterrupted _ _ => "tool_execution_interrupted"
  | RunInterrupted _ _ _ => "run_interrupted"
  | RunCancelled _ => "run_cancelled"
  | BranchCreated _ _ _ => "branch_created"
  | ActiveBranchChanged _ => "active_branch_changed"
  | SessionCompacted _ _ => "session_compacted"
  | TurnCheckpointed _ _ _ => "turn_checkpointed"
  end.

Definition session_record_types : list string :=
  ["session_created"; "message_committed"; "configuration_changed"; "tool_call_requested";
   "policy_decision_recorded"; "approval_requested"; "approval_resolved";
   "tool_execution_started"; "tool_execution_finished"; "tool_execution_interrupted";
   "run_interrupted"; "run_cancelled"; "branch_created"; "active_branch_changed";
   "session_compacted"; "turn_checkpointed"]%string.

(** [SessionRecordTypeText]. *)
Definition known_record_type (value : string) : bool :=
  existsb (String.eqb value) session_record_types.

(** [String::deserialize] and [parse]. *)
Definition parse_text {E A} (parse : string → Result E A) (v : Value) : option A :=
  match v with
  | JString text => match parse text with Ok a => Some a | Err _ => None end
  | _ => None
  end.

Section codec.
Context `{Codec, UuidText, TimestampText, RecordSerde}.

(** [SessionRecord::serialize]: the derived object, a tag and its content. *)
Definition session_record_serialize (record : SessionRecord)
    : Result RecordFailure (list (string * Value)) :=
  try? map_err RecordValidation (record_validate record) in
  let? payload := map_err RecordSerdeText (payload_serialize record) in
  Ok [("payload"%string, payload); ("type"%string, JString (record_type record))].

Definition insert_optional {A} (key : string) (text : A → string) (value : option A)
    (entries : list (string * Value)) : list (string * Value) :=
  match value with
  | Some value => insert_entry key (JString (text value)) entries
  | None => entries
  end.

(** [RecordEnvelope::serialize]. *)
Definition envelope_serialize (e : RecordEnvelope) : Result RecordFailure Value :=
  try? map_err RecordValidation (envelope_validate e) in
  let? entries := session_record_serialize (env_record e) in
  let entries := insert_entry "protocolVersion"
                   (JString (show_protocol_version (env_protocol_version e))) entries in
  let entries := insert_entry "recordId" (JString (show_protocol_id (env_record_id e))) entries in
  let entries := insert_entry "sessionId" (JString (show_protocol_id (env_session_id e))) entries in
  let entries := insert_entry "sequence" (JString (show_sequence (env_sequence e))) entries in
  let entries := insert_entry "timestamp" (JString (show_timestamp (env_timestamp e))) entries in
  let entries := insert_optional "causationId" show_protocol_id (env_causation_id e) entries in
  let entries := insert_optional "correlationId" show_protocol_id (env_correlation_id e) entries in
  let entries := insert_optional "branchId" show_protocol_id (env_branch_id e) entries in
  Ok (JObject (if bool_decide (env_metadata e = ∅) then entries
               else insert_entry "metadata"
                      (JObject (btree_entries str_leb (env_metadata e))) entries)).

(** [SessionRecord::deserialize]. *)
Definition session_record_deserialize (entries : list (string * Value))
    : Result RecordFailure SessionRecord :=
  let? record := map_err RecordSerdeText (record_deserialize entries) in
  try? map_err RecordValidation (record_validate record) in
  Ok record.

(** [ProtocolMetadata::deserialize]; from a [Value] no key repeats. *)
Definition metadata_deserialize (v : Value) : option ProtocolMetadata :=
  match unique_value (value_input v) with
  | Ok (JObject entries) =>
      match metadata_try_from (btree_collect entries) with Ok metadata => Some metadata | Err _ => None end
  | _ => None
  end.

(** [take]: an absent field decodes as null; the object loses the key. *)
Definition take_field {A} (decode : Value → option A) (key : string)
    : ST (list (string * Value)) RecordFailure A :=
  let! entries := st_gets id in
  do! st_modify (without_key key) in
  st_lift (ok_or (decode (default JNull (json_get (JObject entries) key))) (InvalidField key)).

Definition take_optional {A} (decode : Value → option A) (key : string)
    : ST (list (string * Value)) RecordFailure (option A) :=
  let! entries := st_gets id in
  do! st_modify (without_key key) in
  match json_get (JObject entries) key with
  | None => st_ret None
  | Some value => let! a := st_lift (ok_or (decode value) (InvalidField key)) in st_ret (Some a)
  end.

Definition decode_id {k} : Value → option (protocol_id k) := parse_text parse_protocol_id.

Definition take_envelope : ST (list (string * Value)) RecordFailure RecordEnvelope :=
  let! protocol_version := take_field (parse_text parse_protocol_version) "protocolVersion" in
  do! st_lift (map_err (λ _, UnsupportedMajor) (validate_read_version protocol_version)) in
  let! record_id := take_field decode_id "recordId" in
  let! session_id := take_field decode_id "sessionId" in
  let! sequence := take_field (parse_text parse_sequence) "sequence" in
  let! timestamp := take_field (parse_text parse_timestamp) "timestamp" in
  let! causation_id := take_optional decode_id "causationId" in
  let! correlation_id := take_optional decode_id "correlationId" in
  let! branch_id := take_optional decode_id "branchId" in
  let! metadata := take_optional metadata_deserialize "metadata" in
  let! entries := st_gets id in
  let! record := st_lift (session_record_deserialize entries) in
  let envelope := mk_RecordEnvelope protocol_version record_id session_id sequence timestamp
                    causation_id correlation_id branch_id (default ∅ metadata) record in
  do! st_lift (map_err RecordValidation (envelope_validate envelope)) in
  st_ret envelope.

(** [RecordEnvelope::deserialize]. *)
Definition envelope_deserialize (input : JsonInput) : Result RecordFailure RecordEnvelope :=
  let? value := map_err RecordJson (unique_value input) in
  match value with
  | JObject entries => (take_envelope entries).1
  | _ => Err EnvelopeNotAnObject
  end.

(** [decode_version]. *)
Definition decode_record_version (v : Value) : Result RecordFailure ProtocolVersion :=
  let? version := ok_or (object_field "protocolVersion" v) MissingProtocolVersion in
  ok_or (parse_text parse_protocol_version version) InvalidProtocolVersion.

(** [RecordEnvelope::decode_value]. *)
Definition record_decode_value (v : Value) : Result RecordDecodeError RecordEnvelope :=
  let? version := map_err RecordInvalid (decode_record_version v) in
  try? map_err (λ _, RecordUnsupportedVersion version) (validate_read_version version) in
  let? discriminator :=
    ok_or (match object_field "type" v with Some (JString text) => Some text | _ => None end)
      (RecordInvalid MissingRecordType) in
  try? ensure (known_record_type discriminator)
         (if valid_discriminator discriminator then RecordUnsupportedType discriminator
          else RecordInvalid InvalidRecordType) in
  map_err RecordInvalid (envelope_deserialize (value_input v)).
End codec.
