(* ===== verification/RecordCodecTheorems.v ===== *)
(** * Durable records survive their JSON

    Decoding what a record envelope encodes to gives the envelope back; JSON is
    accepted exactly when no object repeats a key; and what decodes is a valid
    envelope of a readable version. *)

From S2P Require Import Prelude Ordering Protocol Decimal Validation Command RecordCodec.
Local Open Scope tea_scope.

(** ** Well-formed JSON values: the invariant of [serde_json::Value] *)

Definition number_wf (n : JsonNumber) : Prop :=
  match n with
  | PosInt _ => True
  | NegInt z => (z <? 0)%Z = true
  | Float bits => is_finite bits = true
  end.

(** The keys of a [BTreeMap]: strictly increasing. *)
Definition key_lt (a b : string) : Prop := String.compare a b = Lt.

Fixpoint value_wf (v : Value) : Prop :=
  match v with
  | JNumber n => number_wf n
  | JArray values => foldr (λ v P, value_wf v ∧ P) True values
  | JObject entries =>
      StronglySorted key_lt entries.*1 ∧ foldr (λ kv P, value_wf kv.2 ∧ P) True entries
  | _ => True
  end.

Lemma foldr_forall {A} (P : A → Prop) l : foldr (λ x Q, P x ∧ Q) True l ↔ Forall P l.
Proof. induction l as [|x l IH]; simpl; [done|]. by rewrite IH, Forall_cons. Qed.

Lemma value_wf_array values : value_wf (JArray values) ↔ Forall value_wf values.
Proof. simpl. apply foldr_forall. Qed.

Lemma value_wf_object entries :
  value_wf (JObject entries) ↔
  StronglySorted key_lt entries.*1 ∧ Forall (λ kv, value_wf kv.2) entries.
Proof. simpl. by rewrite (foldr_forall (λ kv : string * Value, value_wf kv.2)). Qed.

(** No object of the text repeats a key, and its numbers are finite. *)
Fixpoint input_distinct (input : JsonInput) : Prop :=
  match input with
  | InF64 bits => number_from_f64 bits ≠ None
  | InSeq inputs => foldr (λ i P, input_distinct i ∧ P) True inputs
  | InMap inputs => NoDup inputs.*1 ∧ foldr (λ kv P, input_distinct kv.2 ∧ P) True inputs
  | _ => True
  end.

(** ** Sorted objects *)

Lemma key_lt_trans : Transitive key_lt.
Proof.
  intros a b c Hab Hbc. unfold key_lt in *.
  pose proof (compare_trans String.compare a b c) as Hle.
  pose proof (compare_trans String.compare b c a) as Hback.
  rewrite (compare_flip String.compare a b), (compare_flip String.compare a c) in Hback.
  rewrite Hab, Hbc in *. destruct (String.compare a c); simpl in *; [|done|]; naive_solver.
Qed.

Lemma key_lt_irrefl a : ¬ key_lt a a.
Proof. unfold key_lt. by rewrite (compare_self String.compare). Qed.

Lemma contains_key_spec key entries : contains_key key entries = true ↔ key ∈ entries.*1.
Proof.
  unfold contains_key. rewrite existsb_exists, list_elem_of_fmap. split.
  - intros (entry & Hin & Heq%String.eqb_eq). exists entry. by rewrite list_elem_of_In.
  - intros (entry & -> & Hin%list_elem_of_In). exists entry. by rewrite String.eqb_refl.
Qed.

Lemma insert_entry_keys key v entries k :
  k ∈ (insert_entry key v entries).*1 ↔ k = key ∨ k ∈ entries.*1.
Proof.
  induction entries as [|[key' v'] entries IH]; [simpl; set_solver|]. cbn [insert_entry].
  destruct (String.compare key key') eqn:Hc; [|simpl; set_solver|].
  - apply String.compare_eq_iff in Hc as ->. simpl. set_solver.
  - rewrite !fmap_cons, !elem_of_cons, IH. simpl. set_solver.
Qed.

Lemma insert_entry_sorted key v entries :
  StronglySorted key_lt entries.*1 → StronglySorted key_lt (insert_entry key v entries).*1.
Proof.
  induction entries as [|[key' v'] entries IH]; intros Hs; [by repeat constructor|].
  rewrite fmap_cons in Hs. apply StronglySorted_inv in Hs as [Hs Hall]. cbn [insert_entry].
  destruct (String.compare key key') eqn:Hc.
  - apply String.compare_eq_iff in Hc as ->. by constructor.
  - rewrite !fmap_cons. constructor; [by constructor|]. constructor; [done|].
    eapply Forall_impl; [exact Hall|]. intros k Hk. by eapply key_lt_trans.
  - rewrite fmap_cons. constructor; [by apply IH|]. apply Forall_forall.
    intros k [->|Hk]%insert_entry_keys; [|by eapply Forall_forall in Hall].
    simpl. unfold key_lt. by rewrite (compare_flip String.compare key key'), Hc.
Qed.

Lemma insert_entry_wf key v entries :
  value_wf v → Forall (λ kv, value_wf kv.2) entries →
  Forall (λ kv, value_wf kv.2) (insert_entry key v entries).
Proof.
  intros Hv. induction 1 as [|[key' v'] entries Hkv Hall IH]; [by repeat constructor|].
  cbn [insert_entry]. destruct (String.compare _ _); by repeat constructor.
Qed.

(** An entry whose key is greater than the others goes last. *)
Lemma insert_entry_last key v entries :
  Forall (λ k, key_lt k key) entries.*1 → insert_entry key v entries = entries ++ [(key, v)].
Proof.
  induction entries as [|[key' v'] entries IH]; [done|]. rewrite fmap_cons.
  intros [Hk Hall]%Forall_cons. cbn [insert_entry]. simpl in Hk. unfold key_lt in Hk.
  rewrite (compare_flip String.compare key' key), Hk. simpl. by rewrite IH.
Qed.

(** ** Reading JSON without duplicate keys *)

Definition JsonInput_nested_ind (P : JsonInput → Prop)
    (Hunit : P InUnit) (Hbool : ∀ b, P (InBool b)) (Hi64 : ∀ z, P (InI64 z))
    (Hu64 : ∀ n, P (InU64 n)) (Hf64 : ∀ bits, P (InF64 bits)) (Hstr : ∀ s, P (InStr s))
    (Hseq : ∀ inputs, Forall P inputs → P (InSeq inputs))
    (Hmap : ∀ entries, Forall (λ kv, P kv.2) entries → P (InMap entries)) : ∀ i, P i.
Proof.
  fix IH 1. intros [|b|z|n|bits|s|inputs|entries].
  - exact Hunit.
  - apply Hbool.
  - apply Hi64.
  - apply Hu64.
  - apply Hf64.
  - apply Hstr.
  - apply Hseq. induction inputs; constructor; auto.
  - apply Hmap. induction entries as [|[k i] entries]; constructor; simpl; auto.
Defined.

(** One entry of an object. *)
Definition visit_entry (values : list (string * Value)) (entry : string * JsonInput)
    : Result JsonFailure (list (string * Value)) :=
  try? ensure (negb (contains_key entry.1 values)) (DuplicateKey entry.1) in
  let? value := unique_value entry.2 in
  Ok (insert_entry entry.1 value values).

Lemma unique_value_map entries :
  unique_value (InMap entries) = let? values := result_fold visit_entry [] entries in Ok (JObject values).
Proof. done. Qed.

Lemma visit_entry_ok values entry values' :
  visit_entry values entry = Ok values' ↔
  entry.1 ∉ values.*1 ∧ ∃ v, unique_value entry.2 = Ok v ∧ values' = insert_entry entry.1 v values.
Proof.
  unfold visit_entry. split.
  - intros ([] & Hc%ensure_ok & (v & Hv & [= <-])%result_bind_ok)%result_bind_ok.
    rewrite negb_true_iff, <- not_true_iff_false, contains_key_spec in Hc. eauto.
  - intros (Hc & v & Hv & ->). rewrite <- contains_key_spec, not_true_iff_false in Hc.
    by rewrite Hc, Hv.
Qed.

(** A run of [visit_entry] over the rest of an object. *)
Lemma visit_entries_ok entries values values' :
  Forall (λ kv, ∀ v, unique_value kv.2 = Ok v → value_wf v ∧ input_distinct kv.2) entries →
  result_fold visit_entry values entries = Ok values' →
  value_wf (JObject values) →
  value_wf (JObject values') ∧ Forall (λ kv, input_distinct kv.2) entries ∧
  NoDup entries.*1 ∧ (∀ k, k ∈ entries.*1 → k ∉ values.*1).
Proof.
  revert values. induction entries as [|[k i] entries IH]; intros values Hwf; cbn [result_fold].
  { intros [= <-] Hv. split_and!; [done|constructor|constructor|set_solver]. }
  apply Forall_cons in Hwf as [Hi Hwf].
  intros (values1 & (Hk & v & Hv & ->)%visit_entry_ok & H)%result_bind_ok Hvalues.
  simpl in Hk, Hv, Hi. destruct (Hi v Hv) as [Hvwf Hd].
  apply value_wf_object in Hvalues as [Hs Hall].
  destruct (IH _ Hwf H) as (Hwf' & Hds & Hnd & Hfresh).
  { apply value_wf_object. split; [by apply insert_entry_sorted|by apply insert_entry_wf]. }
  split_and!; [done|by constructor| |].
  - rewrite fmap_cons. constructor; [|done]. intros Hin%Hfresh. apply Hin, insert_entry_keys. by left.
  - intros k'. rewrite fmap_cons. intros [->|Hin]%elem_of_cons; [done|].
    apply Hfresh in Hin. rewrite insert_entry_keys in Hin. tauto.
Qed.

Lemma visit_entries_total entries values :
  Forall (λ kv, ∃ v, unique_value kv.2 = Ok v) entries → NoDup entries.*1 →
  (∀ k, k ∈ entries.*1 → k ∉ values.*1) →
  ∃ values', result_fold visit_entry values entries = Ok values'.
Proof.
  revert values. induction entries as [|[k i] entries IH]; intros values Hall Hnd Hfresh;
    cbn [result_fold]; [eauto|].
  apply Forall_cons in Hall as [[v Hv] Hall]. apply NoDup_cons in Hnd as [Hk Hnd].
  assert (visit_entry values (k, i) = Ok (insert_entry k v values)) as ->.
  { apply visit_entry_ok. split; [|by eauto]. apply Hfresh. rewrite fmap_cons. by left. }
  apply IH; [done|done|]. intros k' Hk' Hin%insert_entry_keys. simpl in Hk.
  destruct Hin as [->|Hin]; [done|]. eapply Hfresh; [|done]. rewrite fmap_cons. by right.
Qed.

Lemma number_from_i64_wf z : number_wf (number_from_i64 z).
Proof. unfold number_from_i64. by destruct (z <? 0)%Z eqn:Hz. Qed.

Lemma number_from_f64_wf bits n : number_from_f64 bits = Some n → number_wf n.
Proof. unfold number_from_f64. destruct (is_finite bits) eqn:Hb; [|done]. by intros [= <-]. Qed.

(** What is read is a well-formed value, and the text repeated no key. *)
Lemma unique_value_ok input v : unique_value input = Ok v → value_wf v ∧ input_distinct input.
Proof.
  revert v.
  induction input as [|b|z|n|bits|s|inputs IH|entries IH] using JsonInput_nested_ind.
  - by intros v [= <-].
  - by intros v [= <-].
  - intros v [= <-]. split; [apply number_from_i64_wf|done].
  - by intros v [= <-].
  - intros v H. cbn [unique_value] in H. apply result_bind_ok in H as (n & Hn%ok_or_ok & [= <-]).
    split; [by eapply number_from_f64_wf|]. cbn [input_distinct]. by rewrite Hn.
  - by intros v [= <-].
  - intros v (values & Hvs & [= <-])%result_bind_ok. rewrite value_wf_array.
    cbn [input_distinct]. rewrite foldr_forall. revert values Hvs.
    induction inputs as [|i inputs IHs]; intros values Hvs; cbn [result_map] in Hvs.
    { injection Hvs as <-. by split. }
    apply Forall_cons in IH as [Hi IH].
    apply result_bind_ok in Hvs as (v & Hv & (vs & Hvs & [= <-])%result_bind_ok).
    destruct (Hi _ Hv), (IHs IH _ Hvs). by split; constructor.
  - intros v. rewrite unique_value_map. intros (values & Hvs & [= <-])%result_bind_ok.
    cbn [input_distinct]. rewrite (foldr_forall (λ kv : string * JsonInput, input_distinct kv.2)).
    assert (value_wf (JObject [])) as Hnil by (split; [constructor|done]).
    destruct (visit_entries_ok entries [] values IH Hvs Hnil) as (Hwf & Hd & Hnd & _). done.
Qed.

Lemma unique_value_total input : input_distinct input → ∃ v, unique_value input = Ok v.
Proof.
  induction input as [|b|z|n|bits|s|inputs IH|entries IH] using JsonInput_nested_ind.
  - by exists JNull.
  - by exists (JBool b).
  - by exists (JNumber (number_from_i64 z)).
  - by exists (JNumber (PosInt n)).
  - cbn [input_distinct unique_value]. destruct (number_from_f64 bits) as [n|]; [|done].
    by exists (JNumber n).
  - by exists (JString s).
  - cbn [input_distinct]. rewrite foldr_forall. intros Hd.
    assert (∃ values, result_map unique_value inputs = Ok values) as [values Hvs].
    { induction inputs as [|i inputs IHs]; [by eexists|].
      apply Forall_cons in IH as [Hi IH], Hd as [Hdi Hd].
      destruct (Hi Hdi) as [v Hv], (IHs IH Hd) as [vs Hvs]. exists (v :: vs).
      cbn [result_map]. by rewrite Hv, Hvs. }
    exists (JArray values). cbn [unique_value]. by rewrite Hvs.
  - cbn [input_distinct]. rewrite (foldr_forall (λ kv : string * JsonInput, input_distinct kv.2)).
    intros [Hnd Hd]. destruct (visit_entries_total entries []) as [values Hvs]; [|done|set_solver|].
    { eapply Forall_impl; [apply Forall_and; exact (conj IH Hd)|]. simpl. naive_solver. }
    exists (JObject values). by rewrite unique_value_map, Hvs.
Qed.

(** JSON text is accepted exactly when no object in it repeats a key. *)
Theorem unique_value_accepts input :
  (∃ v, unique_value input = Ok v) ↔ input_distinct input.
Proof.
  split; [intros [v Hv]; by eapply unique_value_ok|apply unique_value_total].
Qed.

Lemma sorted_app_cons k l1 l2 :
  StronglySorted key_lt (l1 ++ k :: l2) → Forall (λ x, key_lt x k) l1.
Proof.
  induction l1 as [|x l1 IH]; [constructor|]. simpl.
  intros [Hs Hall]%StronglySorted_inv. constructor; [|by apply IH].
  rewrite Forall_forall in Hall. apply Hall. set_solver.
Qed.

Lemma visit_entries_id values entries :
  Forall (λ kv, unique_value (value_input kv.2) = Ok kv.2) entries →
  StronglySorted key_lt (values ++ entries).*1 →
  result_fold visit_entry values (List.map (λ kv, (kv.1, value_input kv.2)) entries)
    = Ok (values ++ entries).
Proof.
  revert values. induction entries as [|[k v] entries IH]; intros values Hall Hs.
  { simpl. by rewrite app_nil_r. }
  apply Forall_cons in Hall as [Hv Hall]. simpl in Hv. cbn [List.map result_fold].
  assert (Forall (λ x, key_lt x k) values.*1) as Hlt.
  { rewrite fmap_app, fmap_cons in Hs. by eapply sorted_app_cons. }
  assert (visit_entry values (k, value_input v) = Ok (values ++ [(k, v)])) as Hvisit.
  { apply visit_entry_ok. simpl. split; [|exists v; split; [done|by rewrite insert_entry_last]].
    intros Hin. rewrite Forall_forall in Hlt. by apply (key_lt_irrefl k), Hlt. }
  cbn [fst snd]. rewrite Hvisit. unfold result_bind at 1. cbn iota beta.
  rewrite IH; [by rewrite <- app_assoc|done|by rewrite <- app_assoc].
Qed.

(** A value reads back as itself. *)
Lemma unique_value_id v : value_wf v → unique_value (value_input v) = Ok v.
Proof.
  induction v as [|b|n|s|values IH|entries IH] using Value_nested_ind; try done.
  - destruct n as [n|z|bits]; cbn [value_wf number_wf value_input unique_value].
    + done.
    + intros Hz. unfold number_from_i64. by rewrite Hz.
    + intros Hb. unfold number_from_f64. by rewrite Hb.
  - rewrite value_wf_array. intros Hwf. cbn [value_input unique_value].
    assert (result_map unique_value (List.map value_input values) = Ok values) as ->; [|done].
    induction values as [|v values IHs]; [done|]. cbn [List.map result_map].
    apply Forall_cons in IH as [Hv IH], Hwf as [Hwf1 Hwf]. by rewrite (Hv Hwf1), (IHs IH Hwf).
  - rewrite value_wf_object. intros [Hs Hwf]. cbn [value_input]. rewrite unique_value_map.
    rewrite (visit_entries_id []); [done| |done].
    eapply Forall_impl; [apply Forall_and; exact (conj IH Hwf)|]. simpl. naive_solver.
Qed.

(** ** Texts *)

Lemma parse_sequence_show s :
  (seq_get s <= U64_MAX)%N → parse_sequence (show_sequence s) = Ok s.
Proof.
  intros Hs. unfold parse_sequence, show_sequence. rewrite bytes_of_decimal.
  set (n := seq_get s) in *.
  assert (decimal_value (decimal n) = n) as Hv.
  { apply decimal_digits_value. apply (N.le_lt_trans _ U64_MAX); [done|by vm_compute]. }
  assert (forallb is_ascii_digit (decimal n) = true) as Hall by apply decimal_digits_all.
  pose proof (decimal_canonical n Hs) as Hc. unfold canonical_decimal in Hc.
  rewrite Hall in *. rewrite andb_true_l in Hc.
  assert ((1 <? length (decimal n)) && starts_with_zero (decimal n) = false) as ->.
  { apply orb_true_iff in Hc as [Hc%bool_decide_eq_true|Hc%negb_true_iff].
    - by rewrite Hc.
    - by rewrite Hc, andb_false_r. }
  rewrite Hv, (proj2 (N.leb_le _ _) Hs).
  assert (is_empty (decimal n) = false) as ->.
  { pose proof (decimal_nonempty n). by destruct (decimal n). }
  simpl. unfold n. by destruct s.
Qed.

(** What the [uuid] crate documents of the hyphenated text of a UUID. *)
Class LawfulUuidText `{UuidText} : Prop :=
  uuid_parse_hyphenated u : (u < 2 ^ 128)%N → uuid_parse (hyphenated u) = Some u.

Definition id_wf {k} (id : protocol_id k) : Prop :=
  (as_uuid id < 2 ^ 128)%N ∧ uuid_version (as_uuid id) = 7%N.

Lemma decode_id_show `{LawfulUuidText} {k} (id : protocol_id k) :
  id_wf id → decode_id (JString (show_protocol_id id)) = Some id.
Proof.
  intros [Hu Hv]. unfold decode_id, parse_text, parse_protocol_id, parse_uuid_v7, show_protocol_id.
  rewrite uuid_parse_hyphenated by done. cbv beta iota delta [ok_or result_bind].
  rewrite Hv, String.eqb_refl. by destruct id.
Qed.

(** The instants of the years 0 to 9999, the range of RFC 3339. *)
Definition timestamp_wf (t : ProtocolTimestamp) : Prop :=
  (-62167219200000 <= as_utc t < 253402300800000)%Z.

(** What [chrono] documents of [SecondsFormat::Millis] with a [Z]. *)
Class LawfulTimestampText `{TimestampText} : Prop := {
  rfc3339_parse t : timestamp_wf t → parse_from_rfc3339 (show_timestamp t) = Some (as_utc t);
  rfc3339_form t : timestamp_wf t → ∃ date time millis,
    bytes (show_timestamp t) = date ++ 84%N :: time ++ 46%N :: millis ++ [90%N] ∧
    84%N ∉ date ∧ 46%N ∉ time ∧ length millis = 3 ∧ forallb is_ascii_digit millis = true
}.

Lemma find_byte_app p l1 b l2 :
  forallb (λ x, negb (p x)) l1 = true → p b = true →
  find_byte p (l1 ++ b :: l2) = Some (length l1).
Proof.
  induction l1 as [|x l1 IH]; simpl; intros Hl Hb; [by rewrite Hb|].
  apply andb_true_iff in Hl as [Hx%negb_true_iff Hl]. by rewrite Hx, IH.
Qed.

Lemma not_in_forallb b l : b ∉ l → forallb (λ x, negb (N.eqb b x)) l = true.
Proof.
  intros Hb. apply forallb_forall. intros x Hx%list_elem_of_In.
  apply negb_true_iff, N.eqb_neq. by intros ->.
Qed.

Lemma byte_range_app l1 l2 l3 : byte_range (length l1) (length l1 + length l2) (l1 ++ l2 ++ l3) = l2.
Proof.
  unfold byte_range. rewrite take_app_add', drop_app_length by done. by rewrite take_app_length.
Qed.

Lemma millisecond_form value date time millis :
  bytes value = date ++ 84%N :: time ++ 46%N :: millis ++ [90%N] →
  84%N ∉ date → 46%N ∉ time → length millis = 3 → forallb is_ascii_digit millis = true →
  validate_millisecond_precision value = Ok tt.
Proof.
  intros Hb Hd Ht Hm Hdig. unfold validate_millisecond_precision. rewrite Hb.
  rewrite find_byte_app by (by try apply not_in_forallb). cbv beta iota delta [ok_or result_bind].
  assert (last (date ++ 84%N :: time ++ 46%N :: millis ++ [90%N]) = Some 90%N) as ->.
  { by rewrite app_comm_cons, app_assoc, !app_comm_cons, app_assoc, last_snoc. }
  rewrite bool_decide_eq_true_2 by done. cbv beta iota delta [result_bind].
  set (l1 := date ++ [84%N]). set (l2 := time ++ 46%N :: millis).
  assert (date ++ 84%N :: time ++ 46%N :: millis ++ [90%N] = l1 ++ l2 ++ [90%N]) as ->.
  { unfold l1, l2. rewrite <- !app_assoc. simpl. by rewrite <- ?app_assoc. }
  assert (length date + 1 = length l1) as -> by (unfold l1; rewrite length_app; simpl; lia).
  assert (length (l1 ++ l2 ++ [90%N]) - 1 = length l1 + length l2) as ->
    by (rewrite !length_app; simpl; lia).
  rewrite byte_range_app. unfold l2 at 1.
  rewrite find_byte_app by (by try apply not_in_forallb). cbv beta iota delta [fmap option_fmap option_map ok_or result_bind].
  assert (byte_range (length l1 + length time + 1) (length l1 + length l2) (l1 ++ l2 ++ [90%N]) = millis) as ->.
  { assert (l1 ++ l2 ++ [90%N] = (l1 ++ time ++ [46%N]) ++ millis ++ [90%N]) as ->.
    { unfold l2. rewrite <- !app_assoc. simpl. by rewrite <- ?app_assoc. }
    assert (length l1 + length time + 1 = length (l1 ++ time ++ [46%N])) as ->
      by (rewrite !length_app; simpl; lia).
    assert (length l1 + length l2 = length (l1 ++ time ++ [46%N]) + length millis) as ->
      by (unfold l2; rewrite !length_app; simpl; lia).
    apply byte_range_app. }
  by rewrite Hm, Hdig.
Qed.

Lemma parse_timestamp_show `{LawfulTimestampText} t :
  timestamp_wf t → parse_timestamp (show_timestamp t) = Ok t.
Proof.
  intros Ht. destruct (rfc3339_form t Ht) as (date & time & millis & Hb & Hd & Htm & Hm & Hdig).
  unfold parse_timestamp. rewrite (millisecond_form _ _ _ _ Hb Hd Htm Hm Hdig).
  cbv beta iota delta [result_bind]. rewrite rfc3339_parse by done. by destruct t.
Qed.

(** ** Record envelopes *)

Section envelope.
Context `{Codec, UuidText, TimestampText, RecordSerde}.

(** The derived serializer and deserializer of a record agree, and the former
    makes a value. *)
Class LawfulRecordSerde : Prop := record_serde_lawful record payload :
  record_validate record = Ok tt → payload_serialize record = Ok payload →
  value_wf payload ∧
  record_deserialize [("payload"%string, payload); ("type"%string, JString (record_type record))]
    = Ok record.

(** What the types of the fields of an envelope ensure. *)
Record envelope_wf (e : RecordEnvelope) : Prop := mk_envelope_wf {
  ewf_major : pv_major (env_protocol_version e) = pv_major CURRENT_PROTOCOL_VERSION;
  ewf_minor : (pv_minor (env_protocol_version e) <= U16_MAX)%N;
  ewf_record_id : id_wf (env_record_id e);
  ewf_session_id : id_wf (env_session_id e);
  ewf_sequence : (seq_get (env_sequence e) <= U64_MAX)%N;
  ewf_timestamp : timestamp_wf (env_timestamp e);
  ewf_causation_id : ∀ id, env_causation_id e = Some id → id_wf id;
  ewf_correlation_id : ∀ id, env_correlation_id e = Some id → id_wf id;
  ewf_branch_id : ∀ id, env_branch_id e = Some id → id_wf id;
  ewf_metadata : metadata_try_from (env_metadata e) = Ok (env_metadata e);
  ewf_values : ∀ k v, env_metadata e !! k = Some v → value_wf v
}.

Lemma take_field_run {A} (decode : Value → option A) key entries v a rest :
  json_get (JObject entries) key = Some v → decode v = Some a →
  without_key key entries = rest → take_field decode key entries = (Ok a, rest).
Proof.
  intros Hg Hd <-. unfold take_field.
  cbv beta iota delta [st_bind st_gets st_modify st_lift id default]. by rewrite Hg, Hd.
Qed.

Lemma take_optional_some {A} (decode : Value → option A) key entries v a rest :
  json_get (JObject entries) key = Some v → decode v = Some a →
  without_key key entries = rest → take_optional decode key entries = (Ok (Some a), rest).
Proof.
  intros Hg Hd <-. unfold take_optional.
  cbv beta iota delta [st_bind st_gets st_modify st_lift st_ret id]. by rewrite Hg, Hd.
Qed.

Lemma take_optional_none {A} (decode : Value → option A) key entries :
  json_get (JObject entries) key = None → take_optional decode key entries = (Ok None, without_key key entries).
Proof. 
  intros Hg. unfold take_optional.
  cbv beta iota delta [st_bind st_gets st_modify st_ret id]. by rewrite Hg.
Qed.

(** The optional entries of an object. *)
Definition optional_entry (key : string) (v : option Value) : list (string * Value) :=
  match v with Some v => [(key, v)] | None => [] end.

Definition metadata_value (metadata : ProtocolMetadata) : option Value :=
  if bool_decide (metadata = ∅) then None
  else Some (JObject (btree_entries str_leb metadata)).

(** The object of an envelope, its keys in order. *)
Definition envelope_entries (e : RecordEnvelope) (payload : Value) : list (string * Value) :=
  optional_entry "branchId" (JString ∘ show_protocol_id <$> env_branch_id e) ++
  optional_entry "causationId" (JString ∘ show_protocol_id <$> env_causation_id e) ++
  optional_entry "correlationId" (JString ∘ show_protocol_id <$> env_correlation_id e) ++
  optional_entry "metadata" (metadata_value (env_metadata e)) ++
  [("payload"%string, payload);
   ("protocolVersion"%string, JString (show_protocol_version (env_protocol_version e)));
   ("recordId"%string, JString (show_protocol_id (env_record_id e)));
   ("sequence"%string, JString (show_sequence (env_sequence e)));
   ("sessionId"%string, JString (show_protocol_id (env_session_id e)));
   ("timestamp"%string, JString (show_timestamp (env_timestamp e)));
   ("type"%string, JString (record_type (env_record e)))].

Lemma envelope_serialize_ok e v :
  envelope_serialize e = Ok v →
  envelope_validate e = Ok tt ∧ record_validate (env_record e) = Ok tt ∧
  ∃ payload, payload_serialize (env_record e) = Ok payload ∧ v = JObject (envelope_entries e payload).
Proof.
  unfold envelope_serialize, session_record_serialize.
  intros ([] & He%map_err_ok & Hs)%result_bind_ok.
  apply result_bind_ok in Hs as (entries & Hs & [= <-]).
  apply result_bind_ok in Hs as ([] & Hr%map_err_ok & Hs).
  apply result_bind_ok in Hs as (payload & Hp%map_err_ok & [= <-]).
  split_and!; [done|done|]. exists payload. split; [done|]. f_equal.
  unfold envelope_entries, metadata_value, insert_optional.
  destruct (env_branch_id e), (env_causation_id e), (env_correlation_id e),
    (bool_decide (env_metadata e = ∅)); reflexivity.
Qed.

Lemma sorted_distinct_keys {A} (l : list (string * A)) :
  StronglySorted (λ a b, str_leb a.1 b.1 = true) l → NoDup l.*1 → StronglySorted key_lt l.*1.
Proof.
  induction l as [|[k a] l IH]; [constructor|]. rewrite fmap_cons.
  intros [Hs Hall]%StronglySorted_inv [Hk Hnd]%NoDup_cons.
  constructor; [by apply IH|]. apply Forall_forall.
  intros k' ([k2 a2] & -> & Hin)%list_elem_of_fmap.
  rewrite Forall_forall in Hall. specialize (Hall _ Hin). simpl in *.
  rewrite (str_leb_compare (λ s, s)) in Hall. unfold not_greater, compare_on in Hall. unfold key_lt.
  destruct (String.compare k k2) eqn:Hc; [|done|done].
  apply String.compare_eq_iff in Hc as <-. destruct Hk.
  apply list_elem_of_fmap. by exists (k, a2).
Qed.

Lemma btree_entries_sorted {A} (m : gmap string A) :
  StronglySorted key_lt (btree_entries str_leb m).*1.
Proof.
  apply sorted_distinct_keys.
  - exact (stable_sort_strong _ _ (str_leb_compare (fst : string * A → string)) (map_to_list m)).
  - unfold btree_entries. rewrite stable_sort_perm. apply NoDup_fst_map_to_list.
Qed.

Lemma metadata_entries_wf metadata :
  (∀ k v, metadata !! k = Some v → value_wf v) → value_wf (JObject (btree_entries str_leb metadata)).
Proof.
  intros Hm. apply value_wf_object. split; [apply btree_entries_sorted|].
  apply Forall_forall. intros [k v] Hin. unfold btree_entries in Hin.
  apply elem_of_stable_sort, elem_of_map_to_list in Hin. by eapply Hm.
Qed.

Lemma envelope_entries_wf e payload :
  envelope_wf e → value_wf payload → value_wf (JObject (envelope_entries e payload)).
Proof.
  intros He Hp. apply value_wf_object. unfold envelope_entries, metadata_value.
  pose proof (metadata_entries_wf _ (ewf_values _ He)) as Hm.
  destruct (env_branch_id e), (env_causation_id e), (env_correlation_id e),
    (bool_decide (env_metadata e = ∅)); cbn -[value_wf]; split.
  all: try (repeat first [apply SSorted_nil | apply Forall_nil; exact I | apply SSorted_cons
                         | apply Forall_cons; split; [reflexivity|]]; fail).
  all: rewrite ?Forall_cons, Forall_nil; by split_and!.
Qed.

Lemma decode_metadata_value metadata :
  metadata_try_from metadata = Ok metadata → (∀ k v, metadata !! k = Some v → value_wf v) →
  metadata_deserialize (JObject (btree_entries str_leb metadata)) = Some metadata.
Proof.
  intros Hm Hv. unfold metadata_deserialize.
  rewrite unique_value_id by by apply metadata_entries_wf.
  by rewrite btree_collect_entries, Hm.
Qed.

(** The next field of the object, and the next optional one. *)
Ltac take_field H :=
  eapply st_bind_run; [eapply take_field_run; [reflexivity|exact H|reflexivity]|].
Ltac take_option H :=
  eapply st_bind_run; [first [apply take_optional_none; reflexivity
    |eapply take_optional_some; [reflexivity|by apply H|reflexivity]]|].

(** The entries of an envelope are taken back one by one. *)
Lemma take_envelope_run `{!LawfulUuidText, !LawfulTimestampText} e payload :
  LawfulRecordSerde → envelope_wf e → envelope_validate e = Ok tt →
  record_validate (env_record e) = Ok tt → payload_serialize (env_record e) = Ok payload →
  (take_envelope (envelope_entries e payload)).1 = Ok e.
Proof.
  intros Hserde He Hvalid Hrv Hp. destruct (Hserde _ _ Hrv Hp) as [_ Hd].
  set (rest := [("payload"%string, payload); ("type"%string, JString (record_type (env_record e)))]).
  assert (take_envelope (envelope_entries e payload) = (Ok e, rest)) as ->; [|done].
  destruct e as [version rid sid sequence time causation correlation branch metadata record].
  destruct He as [Hmaj Hmin Hrid Hsid Hseq Htime Hca Hco Hbr Hmeta Hvalues]. simpl in *.
  assert (parse_text parse_protocol_version (JString (show_protocol_version version)) = Some version)
    as Hver.
  { unfold parse_text. rewrite (proj2 (protocol_version_text _ version)); [done|].
    split_and!; [done|by rewrite Hmaj|done]. }
  assert (parse_text parse_sequence (JString (show_sequence sequence)) = Some sequence) as Hseq'
    by (unfold parse_text; by rewrite parse_sequence_show).
  assert (parse_text parse_timestamp (JString (show_timestamp time)) = Some time) as Htime'
    by (unfold parse_text; by rewrite parse_timestamp_show).
  pose proof (decode_id_show rid Hrid) as Hrid'. pose proof (decode_id_show sid Hsid) as Hsid'.
  pose proof (decode_metadata_value _ Hmeta Hvalues) as Hmeta'.
  assert (∀ id, causation = Some id → decode_id (JString (show_protocol_id id)) = Some id) as Hca'
    by (intros id Hid; by apply decode_id_show, Hca).
  assert (∀ id, correlation = Some id → decode_id (JString (show_protocol_id id)) = Some id) as Hco'
    by (intros id Hid; by apply decode_id_show, Hco).
  assert (∀ id, branch = Some id → decode_id (JString (show_protocol_id id)) = Some id) as Hbr'
    by (intros id Hid; by apply decode_id_show, Hbr).
  unfold take_envelope, envelope_entries, metadata_value. simpl.
  assert (validate_read_version version = Ok tt) as Hread
    by (unfold validate_read_version; by rewrite Hmaj).
  assert (session_record_deserialize rest = Ok record) as Hrecord
    by (unfold session_record_deserialize, rest; rewrite Hd; unfold result_bind, map_err;
        by rewrite Hrv).
  assert (default ∅ (if bool_decide (metadata = ∅) then None else Some metadata) = metadata) as Hdef
    by by case_bool_decide.
  assert (∀ m, default ∅ m = metadata → let envelope := mk_RecordEnvelope version rid sid sequence
    time causation correlation branch (default ∅ m) record in
    (do! st_lift (map_err RecordValidation (envelope_validate envelope)) in st_ret envelope) rest =
      (Ok (mk_RecordEnvelope version rid sid sequence time causation correlation branch metadata
             record), rest)) as Hend.
  { intros m ->. cbv zeta. by eapply st_bind_run; [by rewrite Hvalid|]. }
  destruct branch as [branch|], causation as [causation|], correlation as [correlation|],
    (bool_decide (metadata = ∅));
    take_field Hver; (eapply st_bind_run; [rewrite Hread; reflexivity|]);
    take_field Hrid'; take_field Hsid'; take_field Hseq'; take_field Htime';
    take_option Hca'; take_option Hco'; take_option Hbr'; take_option Hmeta'.
  all: eapply st_bind_run; [reflexivity|].
  all: eapply st_bind_run; [change (session_record_deserialize _) with (session_record_deserialize rest);
                            rewrite Hrecord; reflexivity|].
  all: first [exact (Hend (Some metadata) eq_refl)|exact (Hend None Hdef)].
Qed.

Lemma record_type_known record : known_record_type (record_type record) = true.
Proof. by destruct record. Qed.

Lemma envelope_type e payload :
  object_field "type" (JObject (envelope_entries e payload)) =
    Some (JString (record_type (env_record e))).
Proof.
  unfold envelope_entries, metadata_value.
  by destruct (env_branch_id e), (env_causation_id e), (env_correlation_id e),
    (bool_decide (env_metadata e = ∅)).
Qed.

Lemma envelope_version e payload :
  object_field "protocolVersion" (JObject (envelope_entries e payload)) =
    Some (JString (show_protocol_version (env_protocol_version e))).
Proof.
  unfold envelope_entries, metadata_value.
  by destruct (env_branch_id e), (env_causation_id e), (env_correlation_id e),
    (bool_decide (env_metadata e = ∅)).
Qed.

(** What decodes is a valid envelope of a readable version. *)
Lemma decoded_record_valid v e :
  record_decode_value v = Ok e →
  envelope_validate e = Ok tt ∧
  pv_major (env_protocol_version e) = pv_major CURRENT_PROTOCOL_VERSION.
Proof.
  unfold record_decode_value. intros (version & _ & Hd)%result_bind_ok.
  apply result_bind_ok in Hd as ([] & _ & Hd). apply result_bind_ok in Hd as (type & _ & Hd).
  apply result_bind_ok in Hd as ([] & _ & Hd%map_err_ok).
  unfold envelope_deserialize in Hd. apply result_bind_ok in Hd as (value & _ & Hd).
  destruct value as [| | | | |entries]; try done.
  destruct (take_envelope entries) as [res rest] eqn:Ht. simpl in Hd. subst res.
  unfold take_envelope in Ht. st_inv. simpl.
  repeat match goal with H : map_err _ _ = Ok _ |- _ => apply map_err_ok in H end.
  split; [done|]. unfold validate_read_version in *.
  repeat match goal with H : ensure _ _ = Ok _ |- _ => apply ensure_ok, N.eqb_eq in H end. done.
Qed.

(** Encoding a record envelope and decoding the JSON gives the envelope
    back, whatever its optional fields and its metadata. *)
Theorem record_round_trip `{!LawfulUuidText, !LawfulTimestampText} e v :
  LawfulRecordSerde → envelope_wf e → envelope_serialize e = Ok v → record_decode_value v = Ok e.
Proof.
  intros Hserde He (Hvalid & Hrv & payload & Hp & ->)%envelope_serialize_ok.
  destruct (Hserde _ _ Hrv Hp) as [Hpwf _].
  assert (decode_record_version (JObject (envelope_entries e payload)) =
          Ok (env_protocol_version e)) as Hversion.
  { unfold decode_record_version. rewrite envelope_version.
    cbv beta iota delta [ok_or result_bind parse_text].
    rewrite (proj2 (protocol_version_text _ (env_protocol_version e))); [done|].
    split_and!; [done|by rewrite (ewf_major _ He)|apply He]. }
  assert (envelope_deserialize (value_input (JObject (envelope_entries e payload))) = Ok e) as Hrest.
  { unfold envelope_deserialize. rewrite unique_value_id by by apply envelope_entries_wf.
    cbv beta iota delta [map_err result_bind]. by apply take_envelope_run. }
  unfold record_decode_value, validate_read_version. rewrite Hversion, envelope_type, Hrest.
  cbv beta iota delta [map_err result_bind ok_or]. by rewrite (ewf_major _ He), record_type_known.
Qed.
End envelope.

(** ** Witness: a cancelled run on a branch, with metadata *)

Module RecordSample.

Definition digits (n : N) : list N := decimal_digits 40 n.

#[export] Instance codec : Codec := {|
  json_len := λ _, Some 64%N;
  base64_decodes := λ _, true;
  parse_url := λ _, None;
  json_parse := λ _, None;
  block_json_len := λ _, 64%N
|}.

#[export] Instance uuid_text : UuidText := {|
  hyphenated := λ u, string_of_bytes (digits u);
  uuid_parse := λ text, Some (decimal_value (bytes text))
|}.

(** Milliseconds since the year 0, then the suffix of a whole second. *)
Definition epoch : Z := 62167219200000.
Definition suffix : list N := [84; 46; 48; 48; 48; 90]%N.

#[export] Instance timestamp_text : TimestampText := {|
  rfc3339_millis := λ t, string_of_bytes (digits (Z.to_N (t + epoch)) ++ suffix);
  parse_from_rfc3339 := λ text,
    Some (Z.of_N (decimal_value (take (length (bytes text) - 6) (bytes text))) - epoch)%Z
|}.

(** A serializer of creations without metadata and of cancelled runs. *)
#[export] Instance serde : RecordSerde := {|
  payload_serialize := λ record,
    match record with
    | SessionCreated profile_id metadata =>
        if bool_decide (metadata = ∅)
        then Ok (JObject [("profileId"%string, JString (selector_str profile_id))])
        else Err "metadata"%string
    | RunCancelled run_id => Ok (JObject [("runId"%string, JNumber (PosInt (as_uuid run_id)))])
    | _ => Err "another record"%string
    end;
  record_deserialize := λ entries,
    match entries with
    | [(_, JObject [(_, JNumber (PosInt uuid))]); (_, JString _)] => Ok (RunCancelled (mk_id uuid))
    | [(_, JObject [(_, JString profile)]); (_, JString _)] =>
        Ok (SessionCreated (mk_selector profile) ∅)
    | _ => Err "malformed"%string
    end
|}.

Definition v7 (n : N) : N := (7 * 2 ^ 76 + n)%N.

Definition envelope : RecordEnvelope :=
  mk_RecordEnvelope CURRENT_PROTOCOL_VERSION (mk_id (v7 1)) (mk_id (v7 2)) (SessionSequence_new 9)
    (Timestamp 1700000000000) None (Some (mk_id (v7 3))) (Some (mk_id (v7 4)))
    {["dev.tea-rs.note"%string := JArray [JBool true; JNumber (NegInt (-1))]]}
    (RunCancelled (mk_id (v7 5))).

End RecordSample.
Import RecordSample.

Lemma string_of_digits fuel n l :
  forallb (λ b, (b <? 256)%N) l = true →
  bytes (string_of_bytes (decimal_digits fuel n ++ l)) = decimal_digits fuel n ++ l.
Proof.
  intros Hl. apply bytes_string_of_bytes. rewrite forallb_app, Hl, andb_true_r.
  apply forallb_forall. intros d Hd. pose proof (decimal_digits_all fuel n) as Hall.
  rewrite forallb_forall in Hall. specialize (Hall d Hd). apply digit_value in Hall.
  apply N.ltb_lt. lia.
Qed.

Lemma sample_uuid_lawful : @LawfulUuidText RecordSample.uuid_text.
Proof.
  intros u Hu. simpl. f_equal. rewrite <- (app_nil_r (RecordSample.digits u)).
  unfold RecordSample.digits. rewrite string_of_digits, app_nil_r by done.
  apply decimal_digits_value. eapply N.lt_trans; [exact Hu|by vm_compute].
Qed.

Lemma sample_timestamp_lawful : @LawfulTimestampText RecordSample.timestamp_text.
Proof.
  assert (∀ t, bytes (show_timestamp t) =
    RecordSample.digits (Z.to_N (as_utc t + RecordSample.epoch)) ++ RecordSample.suffix) as Htext.
  { intros t. unfold show_timestamp. simpl. unfold RecordSample.digits. by rewrite string_of_digits. }
  split; intros t Ht; rewrite ?Htext.
  - cbn [parse_from_rfc3339 RecordSample.timestamp_text]. rewrite Htext, length_app.
    replace (_ + length RecordSample.suffix - 6)
      with (length (RecordSample.digits (Z.to_N (as_utc t + RecordSample.epoch)))) by (simpl; lia).
    rewrite take_app_length. unfold RecordSample.digits, timestamp_wf, RecordSample.epoch in *.
    rewrite decimal_digits_value; [f_equal; lia|].
    apply (N.lt_trans _ (10 ^ 30)); [lia|by vm_compute].
  - eexists (RecordSample.digits _), [], [48; 48; 48]%N. split_and!; [done| |set_solver|done|done].
    intros Hin%list_elem_of_In. pose proof (decimal_digits_all 40 (Z.to_N (as_utc t + RecordSample.epoch))) as Hall.
    rewrite forallb_forall in Hall. by specialize (Hall _ Hin).
Qed.

Lemma sample_serde_lawful : LawfulRecordSerde.
Proof.
  intros [] payload _ Hp; simpl in Hp; try done.
  - case_bool_decide; [|done]. injection Hp as <-. subst.
    split; [apply value_wf_object; split; by repeat constructor|by destruct profile_id].
  - injection Hp as <-.
    split; [apply value_wf_object; split; by repeat constructor|by destruct run_id].
Qed.

Lemma sample_id_wf {k} n : (n < 2 ^ 76)%N → id_wf (mk_id (v7 n) : protocol_id k).
Proof.
  intros Hn. unfold id_wf, v7, uuid_version. cbn [as_uuid]. split.
  - apply (N.lt_trans _ (8 * 2 ^ 76)); [lia|by vm_compute].
  - rewrite N.add_comm, N.div_add, N.div_small by (done || by vm_compute). done.
Qed.

Lemma sample_envelope_wf : envelope_wf RecordSample.envelope.
Proof.
  split.
  - done.
  - by vm_compute.
  - by apply sample_id_wf.
  - by apply sample_id_wf.
  - by vm_compute.
  - by split; vm_compute.
  - done.
  - intros id [= <-]. by apply sample_id_wf.
  - intros id [= <-]. by apply sample_id_wf.
  - by vm_compute.
  - intros k v Hkv. cbn [env_metadata envelope] in Hkv. apply lookup_singleton_Some in Hkv as [<- <-].
    apply value_wf_array. by repeat constructor.
Qed.

Lemma record_round_trip_witness :
  ∃ v, envelope_serialize RecordSample.envelope = Ok v ∧ record_decode_value v = Ok RecordSample.envelope.
Proof.
  destruct (envelope_serialize RecordSample.envelope) as [v|] eqn:Hv; [|by vm_compute in Hv].
  exists v. split; [done|].
  pose proof sample_uuid_lawful. pose proof sample_timestamp_lawful.
  apply record_round_trip; [apply sample_serde_lawful|apply sample_envelope_wf|done].
Defined.
