(* ===== verification/Profile.v ===== *)
(** * Profiles

    [crates/tea-profile]: errors, bounded texts and selectors, prompt budgets,
    run limits, workspace instructions, the profile builder, overlays and the
    built-in profiles.  A [usize] and a [u64] are 64 bits.  The claims: what a
    built profile satisfies, that it does not depend on the order of its
    declarations, and how overlays compose. *)

From S2P Require Import Prelude Ordering Protocol Decimal Tools Policy KernelBase Command.
Local Open Scope tea_scope.

(** ** Errors ([error.rs]) *)

Inductive ProfileErrorCode : Set :=
| ProfileInvalidVersion | ProfileInvalidSelector | ProfileBoundsExceeded | ProfileDuplicateEntry
| ProfileCompositionConflict | ProfileUnsupportedValue.

Record ProfileError : Set := mk_ProfileError {
  pfe_code : ProfileErrorCode;
  pfe_message : string
}.

Definition profile_error (code : ProfileErrorCode) (message : string) : ProfileError :=
  let message := if String.eqb message "" then "profile operation failed"%string else message in
  mk_ProfileError code (truncate_utf8 (retain_non_nul message) 4096).

Definition from_unsupported (version : ProfileSchemaVersion) : ProfileError :=
  profile_error ProfileInvalidVersion
    ("unsupported profile schema version " ++ show_schema_version version)%string.

(** ** Texts and selectors ([identity.rs]) *)

Definition MAX_PROFILE_DISPLAY_NAME_BYTES : N := 256.
Definition MAX_PROFILE_DESCRIPTION_BYTES : N := 4096.
Definition MAX_PROFILE_SEGMENT_ID_BYTES : N := 128.

Inductive ProfileTextError : Set := InvalidProfileText.
Inductive ProfileSelectorError : Set := NotCanonicalProfileSelector.
Inductive ProfileTrustLevel : Set := ProfileTrusted | ProfileDelegated | ProfileUntrusted.

Record ProfileDisplayName : Set := mk_ProfileDisplayName { pdn_str : string }.
Record ProfileDescription : Set := mk_ProfileDescription { pds_str : string }.
Record ProfileSegmentId : Set := mk_ProfileSegmentId { psi_str : string }.
Record ProfileRuleId : Set := mk_ProfileRuleId { pri_str : string }.

#[export] Instance ProfileRuleId_eq_dec : EqDecision ProfileRuleId.
Proof. solve_decision. Defined.

(** The check of the macro [bounded_text!]. *)
Definition profile_text (max : N) (value : string) : Result ProfileTextError string :=
  if String.eqb value "" || (max <? str_len value)%N || contains_nul value
  then Err InvalidProfileText else Ok value.

Definition display_name_new (value : string) : Result ProfileTextError ProfileDisplayName :=
  let? value := profile_text MAX_PROFILE_DISPLAY_NAME_BYTES value in
  Ok (mk_ProfileDisplayName value).
Definition description_new (value : string) : Result ProfileTextError ProfileDescription :=
  let? value := profile_text MAX_PROFILE_DESCRIPTION_BYTES value in
  Ok (mk_ProfileDescription value).

(** [From<ProfileTextError>]. *)
Definition text_error (e : ProfileTextError) : ProfileError :=
  profile_error ProfileInvalidSelector "profile text must be non-empty, bounded, and null-free".

Definition rule_byte (b : N) : bool :=
  is_ascii_lowercase b || is_ascii_digit b || (b =? 95)%N || (b =? 45)%N || (b =? 46)%N.

Definition validate_segment_id (value : string) : Result ProfileSelectorError unit :=
  if (MAX_PROFILE_SEGMENT_ID_BYTES <? str_len value)%N || contains_dot_dot (bytes value)
     || negb (head_and_all is_ascii_lowercase (λ b, rule_byte b || (b =? 47)%N) value)
  then Err NotCanonicalProfileSelector else Ok tt.

Definition validate_profile_rule_id (value : string) : Result ProfileSelectorError unit :=
  if (MAX_PROFILE_SEGMENT_ID_BYTES <? str_len value)%N || contains_dot_dot (bytes value)
     || negb (head_and_all is_ascii_lowercase rule_byte value)
     || negb (existsb (λ b, (b =? 46)%N) (bytes value))
  then Err NotCanonicalProfileSelector else Ok tt.

Definition parse_segment_id (value : string) : Result ProfileSelectorError ProfileSegmentId :=
  try? validate_segment_id value in Ok (mk_ProfileSegmentId value).
Definition parse_rule_id (value : string) : Result ProfileSelectorError ProfileRuleId :=
  try? validate_profile_rule_id value in Ok (mk_ProfileRuleId value).

(** ** Budgets, limits and instructions *)

Definition MAX_PROFILE_PROMPT_BYTES : N := 1048576.
Definition MAX_PROFILE_PROMPT_TOKENS : N := 4000000.

Record ProfilePromptBudget : Set := mk_ProfilePromptBudget {
  ppb_max_bytes : N;
  ppb_max_estimated_tokens : N
}.

Definition profile_budget_new (max_bytes max_estimated_tokens : N)
    : Result ProfileError ProfilePromptBudget :=
  if (max_bytes =? 0)%N || (MAX_PROFILE_PROMPT_BYTES <? max_bytes)%N
     || (max_estimated_tokens =? 0)%N || (MAX_PROFILE_PROMPT_TOKENS <? max_estimated_tokens)%N
  then Err (profile_error ProfileUnsupportedValue "profile prompt budget is invalid")
  else Ok (mk_ProfilePromptBudget max_bytes max_estimated_tokens).

Definition profile_budget_default : ProfilePromptBudget := mk_ProfilePromptBudget 32768 8192.

Definition MAX_PROFILE_TOOL_ITERATIONS : N := 1024.
Definition MAX_PROFILE_ELAPSED : Duration := from_secs 86400.
Definition MAX_PROFILE_ASSISTANT_OUTPUT_BYTES : N := 16777216.
Definition MAX_PROFILE_EVENTS : N := 1000000.
Definition MAX_PROFILE_QUEUED_MESSAGES : N := 1024.

Record ProfileRunLimits : Set := mk_ProfileRunLimits {
  prl_max_tool_iterations : N;
  prl_max_elapsed_millis : N;
  prl_max_assistant_output_bytes : N;
  prl_max_events : N;
  prl_max_queued_messages : N
}.

(** [Duration::as_millis().try_into::<u64>()]. *)
Definition millis_u64 (d : Duration) (e : ProfileError) : Result ProfileError N :=
  let millis := duration_as_millis d in
  if (millis <=? U64_MAX)%N then Ok millis else Err e.

Definition profile_limits_new (max_tool_iterations : N) (max_elapsed : Duration)
    (max_assistant_output_bytes max_events max_queued_messages : N)
    : Result ProfileError ProfileRunLimits :=
  if (max_tool_iterations =? 0)%N || (MAX_PROFILE_TOOL_ITERATIONS <? max_tool_iterations)%N
     || (max_elapsed =? 0)%N || (MAX_PROFILE_ELAPSED <? max_elapsed)%N
     || (max_assistant_output_bytes =? 0)%N
     || (MAX_PROFILE_ASSISTANT_OUTPUT_BYTES <? max_assistant_output_bytes)%N
     || (max_events =? 0)%N || (MAX_PROFILE_EVENTS <? max_events)%N
     || (max_queued_messages =? 0)%N || (MAX_PROFILE_QUEUED_MESSAGES <? max_queued_messages)%N
  then Err (profile_error ProfileUnsupportedValue "profile run limits are invalid")
  else
    let? millis := millis_u64 max_elapsed
      (profile_error ProfileUnsupportedValue "profile elapsed limit is out of range") in
    Ok (mk_ProfileRunLimits max_tool_iterations millis max_assistant_output_bytes max_events
          max_queued_messages).

(** [ProfileRunLimits::max_elapsed]. *)
Definition profile_max_elapsed (l : ProfileRunLimits) : Duration :=
  from_millis (prl_max_elapsed_millis l).

Definition profile_limits_default : ProfileRunLimits :=
  mk_ProfileRunLimits 16 300000 4194304 100000 64.

Definition MAX_WORKSPACE_CONTENT_BYTES : N := 262144.
Definition MAX_WORKSPACE_LOCATOR_BYTES : N := 2048.
Definition MAX_PROFILE_WORKSPACE_INSTRUCTIONS : nat := 128.

Record ProfileWorkspaceInstruction : Set := mk_ProfileWorkspaceInstruction {
  pwi_segment_id : ProfileSegmentId;
  pwi_content : string;
  pwi_locator : string;
  pwi_trust : ProfileTrustLevel
}.

Definition profile_instruction_new (segment_id : ProfileSegmentId) (content locator : string)
    (trust : ProfileTrustLevel) : Result ProfileError ProfileWorkspaceInstruction :=
  if String.eqb content "" || (MAX_WORKSPACE_CONTENT_BYTES <? str_len content)%N
     || contains_nul content || String.eqb locator ""
     || (MAX_WORKSPACE_LOCATOR_BYTES <? str_len locator)%N || contains_nul locator
     || has_control (bytes locator)
  then Err (profile_error ProfileInvalidSelector
              "workspace instruction content or locator is invalid")
  else Ok (mk_ProfileWorkspaceInstruction segment_id content locator trust).

(** ** Profiles and their builder ([profile.rs]) *)

Definition MAX_PROFILE_ACTIVE_TOOLS : nat := 256.
Definition MAX_PROFILE_POLICY_RULES : nat := 128.
Definition MAX_PROFILE_APPROVAL_TTL : Duration := from_secs 86400.

Record AgentProfile : Set := mk_AgentProfile {
  ap_schema_version : ProfileSchemaVersion;
  ap_profile_id : ProfileId;
  ap_display_name : ProfileDisplayName;
  ap_description : option ProfileDescription;
  ap_model : ModelRef;
  ap_active_tool_names : list ToolName;
  ap_policy_rule_ids : list ProfileRuleId;
  ap_prompt_budget : ProfilePromptBudget;
  ap_run_limits : ProfileRunLimits;
  ap_environment : PolicyEnvironment;
  ap_approval_ttl_millis : N;
  ap_workspace_instructions : list ProfileWorkspaceInstruction
}.

(** [AgentProfile::approval_ttl]. *)
Definition profile_approval_ttl (p : AgentProfile) : Duration :=
  from_millis (ap_approval_ttl_millis p).

Record AgentProfileBuilder : Set := mk_AgentProfileBuilder {
  ab_profile_id : ProfileId;
  ab_display_name : ProfileDisplayName;
  ab_description : option ProfileDescription;
  ab_model : ModelRef;
  ab_active_tool_names : list ToolName;
  ab_policy_rule_ids : list ProfileRuleId;
  ab_prompt_budget : ProfilePromptBudget;
  ab_run_limits : ProfileRunLimits;
  ab_environment : option PolicyEnvironment;
  ab_approval_ttl : Duration;
  ab_workspace_instructions : list ProfileWorkspaceInstruction
}.

Definition profile_builder_new (profile_id : ProfileId) (display_name : ProfileDisplayName)
    (model : ModelRef) : AgentProfileBuilder :=
  mk_AgentProfileBuilder profile_id display_name None model [] [] profile_budget_default
    profile_limits_default None (from_secs 600) [].

Definition with_description (description : ProfileDescription) (b : AgentProfileBuilder)
    : AgentProfileBuilder :=
  mk_AgentProfileBuilder (ab_profile_id b) (ab_display_name b) (Some description) (ab_model b)
    (ab_active_tool_names b) (ab_policy_rule_ids b) (ab_prompt_budget b) (ab_run_limits b)
    (ab_environment b) (ab_approval_ttl b) (ab_workspace_instructions b).
Definition active_tool (name : ToolName) (b : AgentProfileBuilder) : AgentProfileBuilder :=
  mk_AgentProfileBuilder (ab_profile_id b) (ab_display_name b) (ab_description b) (ab_model b)
    (ab_active_tool_names b ++ [name]) (ab_policy_rule_ids b) (ab_prompt_budget b)
    (ab_run_limits b) (ab_environment b) (ab_approval_ttl b) (ab_workspace_instructions b).
Definition policy_rule (id : ProfileRuleId) (b : AgentProfileBuilder) : AgentProfileBuilder :=
  mk_AgentProfileBuilder (ab_profile_id b) (ab_display_name b) (ab_description b) (ab_model b)
    (ab_active_tool_names b) (ab_policy_rule_ids b ++ [id]) (ab_prompt_budget b)
    (ab_run_limits b) (ab_environment b) (ab_approval_ttl b) (ab_workspace_instructions b).
Definition with_prompt_budget (budget : ProfilePromptBudget) (b : AgentProfileBuilder)
    : AgentProfileBuilder :=
  mk_AgentProfileBuilder (ab_profile_id b) (ab_display_name b) (ab_description b) (ab_model b)
    (ab_active_tool_names b) (ab_policy_rule_ids b) budget (ab_run_limits b) (ab_environment b)
    (ab_approval_ttl b) (ab_workspace_instructions b).
Definition with_run_limits (limits : ProfileRunLimits) (b : AgentProfileBuilder)
    : AgentProfileBuilder :=
  mk_AgentProfileBuilder (ab_profile_id b) (ab_display_name b) (ab_description b) (ab_model b)
    (ab_active_tool_names b) (ab_policy_rule_ids b) (ab_prompt_budget b) limits
    (ab_environment b) (ab_approval_ttl b) (ab_workspace_instructions b).
Definition with_environment (environment : PolicyEnvironment) (b : AgentProfileBuilder)
    : AgentProfileBuilder :=
  mk_AgentProfileBuilder (ab_profile_id b) (ab_display_name b) (ab_description b) (ab_model b)
    (ab_active_tool_names b) (ab_policy_rule_ids b) (ab_prompt_budget b) (ab_run_limits b)
    (Some environment) (ab_approval_ttl b) (ab_workspace_instructions b).
Definition with_ttl (ttl : Duration) (b : AgentProfileBuilder) : AgentProfileBuilder :=
  mk_AgentProfileBuilder (ab_profile_id b) (ab_display_name b) (ab_description b) (ab_model b)
    (ab_active_tool_names b) (ab_policy_rule_ids b) (ab_prompt_budget b) (ab_run_limits b)
    (ab_environment b) ttl (ab_workspace_instructions b).
Definition workspace_instruction (instruction : ProfileWorkspaceInstruction)
    (b : AgentProfileBuilder) : AgentProfileBuilder :=
  mk_AgentProfileBuilder (ab_profile_id b) (ab_display_name b) (ab_description b) (ab_model b)
    (ab_active_tool_names b) (ab_policy_rule_ids b) (ab_prompt_budget b) (ab_run_limits b)
    (ab_environment b) (ab_approval_ttl b) (ab_workspace_instructions b ++ [instruction]).

(** The sort by a key of the values, and the check of its neighbours. *)
Definition key_leb {A} (key : A → string) (a b : A) : bool := str_leb (key a) (key b).

Definition canonical_unique {A} (key : A → string) (values : list A) (duplicate : ProfileError)
    : Result ProfileError (list A) :=
  let values := stable_sort (key_leb key) values in
  if adjacent_repeat key values then Err duplicate else Ok values.

Definition instruction_key (i : ProfileWorkspaceInstruction) : string := psi_str (pwi_segment_id i).

Definition profile_build (b : AgentProfileBuilder) : Result ProfileError AgentProfile :=
  let? environment := ok_or (ab_environment b)
    (profile_error ProfileInvalidSelector "profile environment is required") in
  try? ensure (negb ((ab_approval_ttl b =? 0)%N
                     || (MAX_PROFILE_APPROVAL_TTL <? ab_approval_ttl b)%N))
         (profile_error ProfileUnsupportedValue "profile approval lifetime is invalid") in
  let? active_tool_names := canonical_unique tn_str (ab_active_tool_names b)
    (profile_error ProfileDuplicateEntry "active tool name is duplicated") in
  try? ensure (length active_tool_names <=? MAX_PROFILE_ACTIVE_TOOLS)%nat
         (profile_error ProfileBoundsExceeded "profile declares too many active tools") in
  let? policy_rule_ids := canonical_unique pri_str (ab_policy_rule_ids b)
    (profile_error ProfileDuplicateEntry "policy rule reference is duplicated") in
  try? ensure (length policy_rule_ids <=? MAX_PROFILE_POLICY_RULES)%nat
         (profile_error ProfileBoundsExceeded "profile declares too many policy rules") in
  try? ensure (length (ab_workspace_instructions b) <=? MAX_PROFILE_WORKSPACE_INSTRUCTIONS)%nat
         (profile_error ProfileBoundsExceeded
            "profile declares too many workspace instructions") in
  let? workspace_instructions := canonical_unique instruction_key (ab_workspace_instructions b)
    (profile_error ProfileDuplicateEntry "workspace instruction segment id is duplicated") in
  let? approval_ttl_millis := millis_u64 (ab_approval_ttl b)
    (profile_error ProfileUnsupportedValue "profile approval lifetime is out of range") in
  Ok (mk_AgentProfile CURRENT_PROFILE_SCHEMA_VERSION (ab_profile_id b) (ab_display_name b)
        (ab_description b) (ab_model b) active_tool_names policy_rule_ids (ab_prompt_budget b)
        (ab_run_limits b) environment approval_ttl_millis workspace_instructions).

(** ** Overlays ([composition.rs]) *)

Record ProfileOverlay : Set := mk_ProfileOverlay {
  po_schema_version : option ProfileSchemaVersion;
  po_profile_id : option ProfileId;
  po_display_name : option ProfileDisplayName;
  po_description : option (option ProfileDescription);
  po_model : option ModelRef;
  po_active_tool_names : option (list ToolName);
  po_policy_rule_ids : option (list ProfileRuleId);
  po_prompt_budget : option ProfilePromptBudget;
  po_run_limits : option ProfileRunLimits;
  po_environment : option PolicyEnvironment;
  po_approval_ttl : option Duration;
  po_workspace_instructions : option (list ProfileWorkspaceInstruction)
}.

Definition overlay_new : ProfileOverlay :=
  mk_ProfileOverlay None None None None None None None None None None None None.

Definition compose (p : AgentProfile) (o : ProfileOverlay) : Result ProfileError AgentProfile :=
  let schema_version := default (ap_schema_version p) (po_schema_version o) in
  try? ensure (bool_decide (schema_version = CURRENT_PROFILE_SCHEMA_VERSION)
               && bool_decide (ap_schema_version p = CURRENT_PROFILE_SCHEMA_VERSION))
         (profile_error ProfileCompositionConflict
            "composed schema version does not match the base") in
  let profile_id := default (ap_profile_id p) (po_profile_id o) in
  try? ensure (bool_decide (profile_id = ap_profile_id p))
         (profile_error ProfileCompositionConflict
            "composed profile id does not match the base") in
  let description := match po_description o with
                     | Some value => value
                     | None => ap_description p
                     end in
  let active_tool_names := default (ap_active_tool_names p) (po_active_tool_names o) in
  let policy_rule_ids := default (ap_policy_rule_ids p) (po_policy_rule_ids o) in
  let workspace_instructions :=
    default (ap_workspace_instructions p) (po_workspace_instructions o) in
  let builder := profile_builder_new profile_id
                   (default (ap_display_name p) (po_display_name o))
                   (default (ap_model p) (po_model o)) in
  let builder := match description with
                 | Some description => with_description description builder
                 | None => builder
                 end in
  let builder := foldl (λ b name, active_tool name b) builder active_tool_names in
  let builder := foldl (λ b id, policy_rule id b) builder policy_rule_ids in
  let builder := foldl (λ b i, workspace_instruction i b) builder workspace_instructions in
  let builder := with_prompt_budget (default (ap_prompt_budget p) (po_prompt_budget o)) builder in
  let builder := with_run_limits (default (ap_run_limits p) (po_run_limits o)) builder in
  let builder := with_environment (default (ap_environment p) (po_environment o)) builder in
  let builder := with_ttl (default (profile_approval_ttl p) (po_approval_ttl o)) builder in
  profile_build builder.

(** ** Built-in profiles *)

Definition invalid_selector (text : string) : ProfileError :=
  profile_error ProfileInvalidSelector text.

Definition selector_text (e : SelectorParseError) : string :=
  "selector must start with lowercase ASCII and contain only supported canonical characters".
Definition profile_selector_text (e : ProfileSelectorError) : string :=
  "profile selector is not canonical".
Definition tool_name_text (e : ToolIdentityParseError) : string :=
  match e with
  | InvalidToolName => "tool name is not canonical"
  | InvalidToolVersion => "tool version is not canonical semantic version text"
  end.

Definition selector_from {A} (r : Result SelectorParseError A) : Result ProfileError A :=
  map_err (λ e, invalid_selector (selector_text e)) r.
Definition rule_from (value : string) : Result ProfileError ProfileRuleId :=
  map_err (λ e, invalid_selector (profile_selector_text e)) (parse_rule_id value).
Definition tool_from (value : string) : Result ProfileError ToolName :=
  map_err (λ e, invalid_selector (tool_name_text e)) (parse_tool_name value).

Definition fake_model : Result ProfileError ModelRef :=
  let? provider := selector_from (parse_provider_id "fake") in
  let? model := selector_from (parse_model_id "fake/model") in
  Ok (mk_ModelRef provider model).

Definition cli_environment : PolicyEnvironment := mk_PolicyEnvironment SurfaceCli PolicyNative ∅.
Definition desktop_environment : PolicyEnvironment :=
  mk_PolicyEnvironment SurfaceDesktop PolicyNative ∅.

(** [AgentProfile::builder] from texts, as the built-in profiles call it. *)
Definition builtin_builder (id name : string) : Result ProfileError AgentProfileBuilder :=
  let? id := selector_from (parse_profile_id id) in
  let? name := map_err text_error (display_name_new name) in
  let? model := fake_model in
  Ok (profile_builder_new id name model).

Definition minimal_assistant : Result ProfileError AgentProfile :=
  let? b := builtin_builder "minimal-assistant" "Minimal Assistant" in
  let? budget := profile_budget_new 16384 4096 in
  let b := with_prompt_budget budget b in
  let? limits := profile_limits_new 4 (from_secs 60) 524288 10000 16 in
  let b := with_run_limits limits b in
  profile_build (with_ttl (from_secs 300) (with_environment cli_environment b)).

Definition coding_agent : Result ProfileError AgentProfile :=
  let? b := builtin_builder "coding-agent" "Coding Agent" in
  let? read := tool_from "read_file" in
  let b := active_tool read b in
  let? write := tool_from "write_file" in
  let b := active_tool write b in
  let? product := rule_from "product.coding_workspace" in
  let b := policy_rule product b in
  let? platform := rule_from "platform.unknown_effect" in
  let b := policy_rule platform b in
  let? budget := profile_budget_new 32768 8192 in
  let b := with_prompt_budget budget b in
  let? limits := profile_limits_new 16 (from_secs 300) 4194304 100000 64 in
  let b := with_run_limits limits b in
  profile_build (with_ttl (from_secs 600) (with_environment cli_environment b)).

Definition desktop_assistant : Result ProfileError AgentProfile :=
  let? b := builtin_builder "desktop-assistant" "Desktop Assistant" in
  let? read := tool_from "clipboard_read" in
  let b := active_tool read b in
  let? write := tool_from "write_file" in
  let b := active_tool write b in
  let? product := rule_from "product.desktop" in
  let b := policy_rule product b in
  let? platform := rule_from "platform.unknown_effect" in
  let b := policy_rule platform b in
  let? budget := profile_budget_new 24576 6144 in
  let b := with_prompt_budget budget b in
  let? limits := profile_limits_new 12 (from_secs 180) 2097152 50000 32 in
  let b := with_run_limits limits b in
  profile_build (with_ttl (from_secs 600) (with_environment desktop_environment b)).

Definition example_workspace_instruction (segment_id content locator : string)
    : Result ProfileError ProfileWorkspaceInstruction :=
  let? segment_id := map_err (λ e, invalid_selector (profile_selector_text e))
                       (parse_segment_id segment_id) in
  profile_instruction_new segment_id content locator ProfileTrusted.

(** ** What a built profile satisfies *)

(** A list sorted by a key that does not repeat. *)
Definition canonical_list {A} (key : A → string) (l : list A) : Prop :=
  NoDup (key <$> l) ∧ stable_sort (key_leb key) l = l.

Record profile_wf (p : AgentProfile) : Prop := mk_profile_wf {
  pw_version : ap_schema_version p = CURRENT_PROFILE_SCHEMA_VERSION;
  pw_tools : canonical_list tn_str (ap_active_tool_names p) ∧
    length (ap_active_tool_names p) ≤ MAX_PROFILE_ACTIVE_TOOLS;
  pw_rules : canonical_list pri_str (ap_policy_rule_ids p) ∧
    length (ap_policy_rule_ids p) ≤ MAX_PROFILE_POLICY_RULES;
  pw_instructions : canonical_list instruction_key (ap_workspace_instructions p) ∧
    length (ap_workspace_instructions p) ≤ MAX_PROFILE_WORKSPACE_INSTRUCTIONS;
  pw_ttl : (profile_approval_ttl p <= MAX_PROFILE_APPROVAL_TTL)%N
}.

Lemma key_leb_leb {A} (key : A → string) x y : key_leb key x y = str_leb (key x) (key y).
Proof. done. Qed.

Lemma canonical_unique_ok {A} (key : A → string) values e l :
  canonical_unique key values e = Ok l ↔
  NoDup (key <$> values) ∧ l = stable_sort (key_leb key) values.
Proof.
  unfold canonical_unique.
  pose proof (adjacent_repeat_sort key (key_leb key) values (key_leb_leb key)) as Hr.
  destruct (adjacent_repeat _ _).
  - split; [done|]. intros [Hn _]. by apply Hr in Hn.
  - split; [intros [= <-]; split; [by apply Hr|done]|by intros [_ ->]].
Qed.

Lemma canonical_unique_sorted {A} (key : A → string) values e l :
  canonical_unique key values e = Ok l → canonical_list key l ∧ l ≡ₚ values.
Proof.
  intros [Hn ->]%canonical_unique_ok. pose proof (stable_sort_perm (key_leb key) values) as Hp.
  assert (NoDup (key <$> stable_sort (key_leb key) values)) as Hn' by (by rewrite Hp).
  split; [split; [done|]|done].
  by apply (sort_by_key_unique key (key_leb key) _ _ (key_leb_leb key)).
Qed.

Lemma canonical_unique_perm {A} (key : A → string) values values' e :
  values ≡ₚ values' → canonical_unique key values e = canonical_unique key values' e.
Proof.
  intros Hp. destruct (canonical_unique key values e) as [l|e1] eqn:H1.
  - apply canonical_unique_ok in H1 as [Hn ->]. symmetry. apply canonical_unique_ok.
    split; [by rewrite <- Hp|]. by apply (sort_by_key_unique key (key_leb key) _ _ (key_leb_leb key)).
  - destruct (canonical_unique key values' e) as [l|e2] eqn:H2.
    + apply canonical_unique_ok in H2 as [Hn _]. exfalso.
      assert (canonical_unique key values e = Ok (stable_sort (key_leb key) values)); [|congruence].
      apply canonical_unique_ok. split; [by rewrite Hp|done].
    + revert H1 H2. unfold canonical_unique. repeat case_match; congruence.
Qed.

Lemma canonical_unique_canonical {A} (key : A → string) l e :
  canonical_list key l → canonical_unique key l e = Ok l.
Proof. intros [Hn Hs]. apply canonical_unique_ok. by rewrite Hs. Qed.

(** What the builder looks at. *)
Lemma profile_build_congr b b' :
  ab_profile_id b = ab_profile_id b' → ab_display_name b = ab_display_name b' →
  ab_description b = ab_description b' → ab_model b = ab_model b' →
  ab_prompt_budget b = ab_prompt_budget b' → ab_run_limits b = ab_run_limits b' →
  ab_environment b = ab_environment b' →
  ((ab_approval_ttl b =? 0) || (MAX_PROFILE_APPROVAL_TTL <? ab_approval_ttl b))%N
  = ((ab_approval_ttl b' =? 0) || (MAX_PROFILE_APPROVAL_TTL <? ab_approval_ttl b'))%N →
  duration_as_millis (ab_approval_ttl b) = duration_as_millis (ab_approval_ttl b') →
  (∀ e, canonical_unique tn_str (ab_active_tool_names b) e
        = canonical_unique tn_str (ab_active_tool_names b') e) →
  (∀ e, canonical_unique pri_str (ab_policy_rule_ids b) e
        = canonical_unique pri_str (ab_policy_rule_ids b') e) →
  (∀ e, canonical_unique instruction_key (ab_workspace_instructions b) e
        = canonical_unique instruction_key (ab_workspace_instructions b') e) →
  length (ab_workspace_instructions b) = length (ab_workspace_instructions b') →
  profile_build b = profile_build b'.
Proof.
  intros Hid Hname Hdesc Hmodel Hbudget Hlimits Henv Httl Hms Htools Hrules Hins Hlen.
  unfold profile_build, millis_u64.
  by rewrite Hid, Hname, Hdesc, Hmodel, Hbudget, Hlimits, Henv, Httl, Hms, Htools, Hrules, Hins, Hlen.
Qed.

(** The same declarations, made in any order. *)
Record same_declarations (b b' : AgentProfileBuilder) : Prop := mk_same_declarations {
  sd_scalars :
    (ab_profile_id b, ab_display_name b, ab_description b, ab_model b, ab_prompt_budget b,
     ab_run_limits b, ab_environment b, ab_approval_ttl b)
    = (ab_profile_id b', ab_display_name b', ab_description b', ab_model b', ab_prompt_budget b',
       ab_run_limits b', ab_environment b', ab_approval_ttl b');
  sd_tools : ab_active_tool_names b ≡ₚ ab_active_tool_names b';
  sd_rules : ab_policy_rule_ids b ≡ₚ ab_policy_rule_ids b';
  sd_instructions : ab_workspace_instructions b ≡ₚ ab_workspace_instructions b'
}.

(** C40: profiles are canonical.  What [build] returns, profile or error, does
    not depend on the order in which tools, rules and instructions were
    declared; a built profile has the current version, holds exactly the
    declared tools, rules and instructions, each once and in canonical order,
    within the bounds of a profile, and an approval lifetime of at most a
    day. *)
Theorem profile_build_canonical b b' :
  same_declarations b b' →
  profile_build b = profile_build b' ∧
  ∀ p, profile_build b = Ok p →
    profile_wf p ∧ ap_active_tool_names p ≡ₚ ab_active_tool_names b ∧
    ap_policy_rule_ids p ≡ₚ ab_policy_rule_ids b ∧
    ap_workspace_instructions p ≡ₚ ab_workspace_instructions b.
Proof.
  intros [Hs Ht Hr Hi]. injection Hs as ????????. split.
  - apply profile_build_congr; try done; try congruence;
      [by intros e; apply canonical_unique_perm; rewrite ?Ht, ?Hr, ?Hi..|by rewrite Hi].
  - intros p Hp. unfold profile_build in Hp.
    apply result_bind_ok in Hp as (env & _ & Hp).
    apply result_bind_ok in Hp as (? & Httl%ensure_ok & Hp).
    apply result_bind_ok in Hp as (tools & [Htc Htp]%canonical_unique_sorted & Hp).
    apply result_bind_ok in Hp as (? & Htl%ensure_ok%Nat.leb_le & Hp).
    apply result_bind_ok in Hp as (rules & [Hrc Hrp]%canonical_unique_sorted & Hp).
    apply result_bind_ok in Hp as (? & Hrl%ensure_ok%Nat.leb_le & Hp).
    apply result_bind_ok in Hp as (? & Hil%ensure_ok%Nat.leb_le & Hp).
    apply result_bind_ok in Hp as (ins & [Hic Hip]%canonical_unique_sorted & Hp).
    apply result_bind_ok in Hp as (millis & Hm & [= <-]).
    split_and!; [split; simpl; try done|done|done|done].
    + split; [done|]. rewrite Hip. exact Hil.
    + unfold millis_u64 in Hm. case_match; [|done]. injection Hm as <-.
      apply negb_true_iff, orb_false_iff in Httl as [_ Httl%N.ltb_ge].
      unfold profile_approval_ttl, from_millis, duration_as_millis. simpl.
      etrans; [|exact Httl]. rewrite N.mul_comm. apply N.Div0.mul_div_le.
Qed.

(** ** How overlays compose *)

(** The overlay [o2] applied after [o1]. *)
Definition overlay_after (o1 o2 : ProfileOverlay) : ProfileOverlay :=
  mk_ProfileOverlay (union (po_schema_version o2) (po_schema_version o1))
    (union (po_profile_id o2) (po_profile_id o1))
    (union (po_display_name o2) (po_display_name o1))
    (union (po_description o2) (po_description o1))
    (union (po_model o2) (po_model o1))
    (union (po_active_tool_names o2) (po_active_tool_names o1))
    (union (po_policy_rule_ids o2) (po_policy_rule_ids o1))
    (union (po_prompt_budget o2) (po_prompt_budget o1))
    (union (po_run_limits o2) (po_run_limits o1))
    (union (po_environment o2) (po_environment o1))
    (union (po_approval_ttl o2) (po_approval_ttl o1))
    (union (po_workspace_instructions o2) (po_workspace_instructions o1)).

(** The builder [compose] assembles. *)
Definition composed_builder (p : AgentProfile) (o : ProfileOverlay) : AgentProfileBuilder :=
  mk_AgentProfileBuilder (default (ap_profile_id p) (po_profile_id o))
    (default (ap_display_name p) (po_display_name o))
    (default (ap_description p) (po_description o)) (default (ap_model p) (po_model o))
    (default (ap_active_tool_names p) (po_active_tool_names o))
    (default (ap_policy_rule_ids p) (po_policy_rule_ids o))
    (default (ap_prompt_budget p) (po_prompt_budget o))
    (default (ap_run_limits p) (po_run_limits o))
    (Some (default (ap_environment p) (po_environment o)))
    (default (profile_approval_ttl p) (po_approval_ttl o))
    (default (ap_workspace_instructions p) (po_workspace_instructions o)).

Lemma fold_active_tool names b :
  foldl (λ b name, active_tool name b) b names =
  mk_AgentProfileBuilder (ab_profile_id b) (ab_display_name b) (ab_description b) (ab_model b)
    (ab_active_tool_names b ++ names) (ab_policy_rule_ids b) (ab_prompt_budget b)
    (ab_run_limits b) (ab_environment b) (ab_approval_ttl b) (ab_workspace_instructions b).
Proof.
  revert b. induction names as [|n l IH]; intros b; simpl; [rewrite app_nil_r; by destruct b|].
  rewrite IH. simpl. by rewrite <- (assoc_L (++)).
Qed.

Lemma fold_policy_rule ids b :
  foldl (λ b id, policy_rule id b) b ids =
  mk_AgentProfileBuilder (ab_profile_id b) (ab_display_name b) (ab_description b) (ab_model b)
    (ab_active_tool_names b) (ab_policy_rule_ids b ++ ids) (ab_prompt_budget b)
    (ab_run_limits b) (ab_environment b) (ab_approval_ttl b) (ab_workspace_instructions b).
Proof.
  revert b. induction ids as [|n l IH]; intros b; simpl; [rewrite app_nil_r; by destruct b|].
  rewrite IH. simpl. by rewrite <- (assoc_L (++)).
Qed.

Lemma fold_instruction instructions b :
  foldl (λ b i, workspace_instruction i b) b instructions =
  mk_AgentProfileBuilder (ab_profile_id b) (ab_display_name b) (ab_description b) (ab_model b)
    (ab_active_tool_names b) (ab_policy_rule_ids b) (ab_prompt_budget b) (ab_run_limits b)
    (ab_environment b) (ab_approval_ttl b) (ab_workspace_instructions b ++ instructions).
Proof.
  revert b. induction instructions as [|n l IH]; intros b; simpl; [rewrite app_nil_r; by destruct b|].
  rewrite IH. simpl. by rewrite <- (assoc_L (++)).
Qed.

Lemma compose_eq p o :
  compose p o =
    (try? ensure (bool_decide (default (ap_schema_version p) (po_schema_version o)
                               = CURRENT_PROFILE_SCHEMA_VERSION)
                  && bool_decide (ap_schema_version p = CURRENT_PROFILE_SCHEMA_VERSION))
            (profile_error ProfileCompositionConflict
               "composed schema version does not match the base") in
     try? ensure (bool_decide (default (ap_profile_id p) (po_profile_id o) = ap_profile_id p))
            (profile_error ProfileCompositionConflict
               "composed profile id does not match the base") in
     profile_build (composed_builder p o)).
Proof.
  unfold compose. rewrite fold_active_tool, fold_policy_rule, fold_instruction.
  match goal with
  | |- context [profile_build (with_ttl ?t ?b)] =>
      assert (with_ttl t b = composed_builder p o) as ->; [|reflexivity]
  end.
  unfold composed_builder. destruct (po_description o) as [[]|]; [reflexivity..|].
  destruct (ap_description p); reflexivity.
Qed.

Lemma compose_ok p o q :
  compose p o = Ok q ↔
  default (ap_schema_version p) (po_schema_version o) = CURRENT_PROFILE_SCHEMA_VERSION ∧
  ap_schema_version p = CURRENT_PROFILE_SCHEMA_VERSION ∧
  default (ap_profile_id p) (po_profile_id o) = ap_profile_id p ∧
  profile_build (composed_builder p o) = Ok q.
Proof.
  rewrite compose_eq. split.
  - intros (u & Hv%ensure_ok & H)%result_bind_ok.
    apply result_bind_ok in H as (u' & Hid%ensure_ok & H).
    apply andb_true_iff in Hv as [?%bool_decide_eq_true ?%bool_decide_eq_true].
    apply bool_decide_eq_true in Hid. by split_and!.
  - intros (Hv & Hp & Hid & H). rewrite Hv, Hp, Hid. by rewrite !bool_decide_true.
Qed.

Lemma profile_ttl_truncated b p :
  profile_build b = Ok p →
  profile_approval_ttl p = from_millis (duration_as_millis (ab_approval_ttl b)) ∧
  (ab_approval_ttl b <= MAX_PROFILE_APPROVAL_TTL)%N ∧ ab_approval_ttl b ≠ 0%N.
Proof.
  unfold profile_build. intros (env & _ & Hp)%result_bind_ok.
  apply result_bind_ok in Hp as (? & Httl%ensure_ok & Hp).
  do 6 apply result_bind_ok in Hp as (? & _ & Hp).
  apply result_bind_ok in Hp as (millis & Hm & [= <-]).
  apply negb_true_iff, orb_false_iff in Httl as [Hz%N.eqb_neq Httl%N.ltb_ge].
  unfold millis_u64 in Hm. case_match; [|done]. by injection Hm as <-.
Qed.

Lemma composed_fields p o q :
  profile_build (composed_builder p o) = Ok q →
  ap_schema_version q = CURRENT_PROFILE_SCHEMA_VERSION ∧
  ap_profile_id q = default (ap_profile_id p) (po_profile_id o) ∧
  ap_display_name q = default (ap_display_name p) (po_display_name o) ∧
  ap_description q = default (ap_description p) (po_description o) ∧
  ap_model q = default (ap_model p) (po_model o) ∧
  ap_prompt_budget q = default (ap_prompt_budget p) (po_prompt_budget o) ∧
  ap_run_limits q = default (ap_run_limits p) (po_run_limits o) ∧
  ap_environment q = default (ap_environment p) (po_environment o) ∧
  (∀ e, canonical_unique tn_str (default (ap_active_tool_names p) (po_active_tool_names o)) e
        = Ok (ap_active_tool_names q)) ∧
  (∀ e, canonical_unique pri_str (default (ap_policy_rule_ids p) (po_policy_rule_ids o)) e
        = Ok (ap_policy_rule_ids q)) ∧
  (∀ e, canonical_unique instruction_key
          (default (ap_workspace_instructions p) (po_workspace_instructions o)) e
        = Ok (ap_workspace_instructions q)).
Proof.
  assert (∀ A (key : A → string) l e e' l', canonical_unique key l e = Ok l' →
    canonical_unique key l e' = Ok l') as Hany by (by intros *; rewrite !canonical_unique_ok).
  unfold profile_build, composed_builder. cbn [ab_environment ok_or].
  intros (env & [= <-] & Hp)%result_bind_ok.
  apply result_bind_ok in Hp as (? & _ & Hp).
  apply result_bind_ok in Hp as (tools & Ht & Hp). apply result_bind_ok in Hp as (? & _ & Hp).
  apply result_bind_ok in Hp as (rules & Hr & Hp). apply result_bind_ok in Hp as (? & _ & Hp).
  apply result_bind_ok in Hp as (? & _ & Hp). apply result_bind_ok in Hp as (ins & Hi & Hp).
  apply result_bind_ok in Hp as (millis & _ & [= <-]).
  split_and!; try reflexivity; intros e; by eapply Hany.
Qed.

Lemma default_union {A} (o1 o2 : option A) (d x : A) :
  x = default d o1 → default x o2 = default d (union o2 o1).
Proof. intros ->. by destruct o2, o1. Qed.

Lemma canonical_after {A} (key : A → string) (o1 o2 : option (list A)) d l e :
  (∀ e, canonical_unique key (default d o1) e = Ok l) →
  canonical_unique key (default l o2) e = canonical_unique key (default d (union o2 o1)) e.
Proof.
  intros Hl. destruct o2 as [l2|]; [by destruct o1|].
  assert (union None o1 = o1) as -> by by destruct o1.
  cbn [default from_option]. rewrite (Hl e).
  destruct (canonical_unique_sorted _ _ _ _ (Hl e)) as [Hc _]. by apply canonical_unique_canonical.
Qed.

Lemma as_millis_from_millis m : duration_as_millis (from_millis m) = m.
Proof. unfold duration_as_millis, from_millis. by apply N.div_mul. Qed.

(** A lifetime survives the rounding unless it becomes zero. *)
Lemma rounded_ttl t :
  (t <= MAX_PROFILE_APPROVAL_TTL)%N → t ≠ 0%N → duration_as_millis t ≠ 0%N →
  let t' := from_millis (duration_as_millis t) in
  ((t' =? 0) || (MAX_PROFILE_APPROVAL_TTL <? t'))%N = ((t =? 0) || (MAX_PROFILE_APPROVAL_TTL <? t))%N ∧
  duration_as_millis t' = duration_as_millis t.
Proof.
  intros Hmax Hz Hms. cbv zeta. split; [|apply as_millis_from_millis].
  assert (from_millis (duration_as_millis t) <= t)%N as Hle.
  { unfold from_millis, duration_as_millis. rewrite N.mul_comm. apply N.Div0.mul_div_le. }
  assert (from_millis (duration_as_millis t) ≠ 0)%N as Hne.
  { unfold from_millis. intros [?|?]%N.eq_mul_0; done. }
  rewrite (proj2 (N.eqb_neq _ _) Hz), (proj2 (N.eqb_neq _ _) Hne).
  rewrite (proj2 (N.ltb_ge _ _) Hmax), (proj2 (N.ltb_ge _ _)); [done|]. by etrans.
Qed.

Lemma default_after {A} (o1 o2 : option A) (d : A) :
  default (default d o1) o2 = default d (union o2 o1).
Proof. by apply default_union. Qed.

Lemma compose_after_builder p o1 o2 p1 :
  profile_build (composed_builder p o1) = Ok p1 → ap_approval_ttl_millis p1 ≠ 0%N →
  profile_build (composed_builder p1 o2) = profile_build (composed_builder p (overlay_after o1 o2)).
Proof.
  intros Hb Hms. destruct (profile_ttl_truncated _ _ Hb) as (Httl & Hmax & Hz).
  destruct (composed_fields _ _ _ Hb)
    as (_ & Hid & Hname & Hdesc & Hmodel & Hbudget & Hlim & Henv & Ht & Hr & Hi).
  assert (duration_as_millis (ab_approval_ttl (composed_builder p o1)) ≠ 0%N) as Hms'.
  { intros H0. rewrite H0 in Httl. unfold profile_approval_ttl, from_millis in Httl.
    by apply N.eq_mul_0 in Httl as [?|?]. }
  destruct (rounded_ttl _ Hmax Hz Hms') as [Hround Hround']. rewrite <- Httl in Hround, Hround'.
  apply profile_build_congr; unfold composed_builder, overlay_after; simpl.
  - by rewrite Hid, default_after.
  - by rewrite Hname, default_after.
  - by rewrite Hdesc, default_after.
  - by rewrite Hmodel, default_after.
  - by rewrite Hbudget, default_after.
  - by rewrite Hlim, default_after.
  - by rewrite Henv, default_after.
  - rewrite <- default_after. by destruct (po_approval_ttl o2).
  - rewrite <- default_after. by destruct (po_approval_ttl o2).
  - intros e. by apply canonical_after.
  - intros e. by apply canonical_after.
  - intros e. by apply canonical_after.
  - rewrite <- default_after. destruct (po_workspace_instructions o2); [done|]. simpl.
    destruct (canonical_unique_sorted _ _ _ _ (Hi (invalid_selector ""))) as [_ Hperm].
    by apply Permutation_length.
Qed.

(** Overlays compose.  Applying one overlay and then another is applying
    the overlay that takes each field from the second where it sets it and
    from the first otherwise, with the same profile or the same error, and the
    empty overlay changes nothing.  The one exception is a base whose approval
    lifetime was rounded down to zero milliseconds. *)
Theorem overlays_compose p o1 o2 p1 :
  compose p o1 = Ok p1 → ap_approval_ttl_millis p1 ≠ 0%N →
  compose p1 o2 = compose p (overlay_after o1 o2) ∧ compose p1 overlay_new = Ok p1.
Proof.
  intros Hc Hms. assert (∀ o, compose p1 o = compose p (overlay_after o1 o)) as Hafter.
  { intros o. apply compose_ok in Hc as (Hv & Hp & Hid & Hb).
    destruct (composed_fields _ _ _ Hb) as (Hv1 & Hid1 & _).
    rewrite !compose_eq, (compose_after_builder _ _ _ _ Hb Hms), Hv1, Hp, Hid1. simpl.
    rewrite Hp in Hv. rewrite <- !default_after, Hv, Hid. done. }
  split; [apply Hafter|]. rewrite Hafter, <- Hc. f_equal.
  unfold overlay_after, overlay_new. destruct o1; simpl. by f_equal; apply left_id, _.
Qed.

(** ** Concrete profiles *)

Module ProfileSample.

Definition base : AgentProfileBuilder :=
  with_environment cli_environment
    (profile_builder_new (mk_selector "p") (mk_ProfileDisplayName "P")
       (mk_ModelRef (mk_selector "fake") (mk_selector "m"))).
Definition builder : AgentProfileBuilder :=
  active_tool (mk_ToolName "write") (active_tool (mk_ToolName "read") base).
Definition builder' : AgentProfileBuilder :=
  active_tool (mk_ToolName "read") (active_tool (mk_ToolName "write") base).

(** An overlay that replaces the tools, and one that shortens the lifetime. *)
Definition tools_overlay : ProfileOverlay :=
  mk_ProfileOverlay None None None None None (Some [mk_ToolName "grep"; mk_ToolName "bash"]) None
    None None None None None.
Definition ttl_overlay (ttl : Duration) : ProfileOverlay :=
  mk_ProfileOverlay None None None None None None None None None None (Some ttl) None.

Definition or_builder (b : AgentProfileBuilder) : AgentProfile :=
  match profile_build b with
  | Ok p => p
  | Err _ => mk_AgentProfile PROFILE_SCHEMA_V1_0_0 (mk_selector "") (mk_ProfileDisplayName "") None
               (mk_ModelRef (mk_selector "") (mk_selector "")) [] [] profile_budget_default
               profile_limits_default cli_environment 0 []
  end.
Definition profile : AgentProfile := or_builder builder.
Definition composed : AgentProfile :=
  match compose profile tools_overlay with Ok p => p | Err _ => profile end.

End ProfileSample.

Lemma profile_build_canonical_witness :
  profile_build ProfileSample.builder = profile_build ProfileSample.builder' ∧
  tn_str <$> ap_active_tool_names ProfileSample.profile = ["read"; "write"]%string ∧
  profile_wf ProfileSample.profile.
Proof.
  assert (same_declarations ProfileSample.builder ProfileSample.builder') as Hs.
  { split; [done|by constructor|done|done]. }
  destruct (profile_build_canonical _ _ Hs) as [Heq Hwf].
  split; [exact Heq|]. split; [by vm_compute|]. apply (Hwf ProfileSample.profile).
  by vm_compute.
Defined.

Lemma overlays_compose_witness :
  compose ProfileSample.composed (ProfileSample.ttl_overlay (from_secs 60)) =
    compose ProfileSample.profile
      (overlay_after ProfileSample.tools_overlay (ProfileSample.ttl_overlay (from_secs 60))) ∧
  tn_str <$> ap_active_tool_names ProfileSample.composed = ["bash"; "grep"]%string.
Proof.
  split; [|by vm_compute].
  apply (overlays_compose ProfileSample.profile ProfileSample.tools_overlay
           (ProfileSample.ttl_overlay (from_secs 60)) ProfileSample.composed); by vm_compute.
Defined.

(** A lifetime below a millisecond passes validation and becomes zero, which
    the profile itself refuses to be composed from. *)
Lemma submillisecond_lifetime_lost :
  let p := ProfileSample.or_builder (with_ttl 1 ProfileSample.builder) in
  profile_build (with_ttl 1 ProfileSample.builder) = Ok p ∧ profile_approval_ttl p = 0%N ∧
  is_ok (compose p overlay_new) = false.
Proof. by vm_compute. Qed.

(** The built-in profiles are valid, and those with tools name the rule that
    denies unknown effects. *)
Lemma builtin_profiles_build :
  is_ok minimal_assistant = true ∧
  (∃ p, coding_agent = Ok p ∧ mk_ProfileRuleId "platform.unknown_effect" ∈ ap_policy_rule_ids p) ∧
  (∃ p, desktop_assistant = Ok p ∧
     mk_ProfileRuleId "platform.unknown_effect" ∈ ap_policy_rule_ids p).
Proof.
  split; [by vm_compute|].
  split; (eexists; split; [vm_compute; reflexivity|]; simpl; set_solver).
Qed.
