(* ===== verification/ModelStream.v ===== *)
(** * Model streams: normalized provider events and their grammar

    [crates/tea-model/src/stream.rs]: bounded identifiers, deltas and tool
    fragments of one provider response, its events, and the validator that
    observes them in order.  Counters are [usize], which no stream reaches. *)

From S2P Require Import Prelude Protocol Tools Validation Usage Event KernelBase.
Local Open Scope tea_scope.

(** ** Bounded values *)

Definition MAX_MODEL_DELTA_BYTES : N := 65536.
Definition MAX_PROVIDER_OPAQUE_ID_BYTES : N := 256.
Definition MAX_MODEL_STREAM_INDEX : N := 1023.
Definition MAX_COMPLETED_TOOL_ARGUMENT_BYTES : N := 262144.
Definition MAX_COMPLETED_TOOL_ARGUMENT_DEPTH : nat := 32.

(** The identifiers of the macro [opaque_id!]. *)
Record ProviderResponseId : Set := mk_ProviderResponseId { pri_str : string }.
Record ProviderToolCallId : Set := mk_ProviderToolCallId { pti_str : string }.

#[export] Instance ProviderToolCallId_eq_dec : EqDecision ProviderToolCallId.
Proof. solve_decision. Defined.
#[export] Program Instance ProviderToolCallId_countable : Countable ProviderToolCallId :=
  inj_countable' pti_str mk_ProviderToolCallId _.
Next Obligation. by intros []. Qed.

Definition validate_opaque_id (value : string) : Result ModelStreamValueError unit :=
  ensure (bounded_line value MAX_PROVIDER_OPAQUE_ID_BYTES) ValueInvalidProviderOpaqueId.
Definition parse_response_id (value : string) : Result ModelStreamValueError ProviderResponseId :=
  try? validate_opaque_id value in Ok (mk_ProviderResponseId value).
Definition parse_provider_call_id (value : string)
    : Result ModelStreamValueError ProviderToolCallId :=
  try? validate_opaque_id value in Ok (mk_ProviderToolCallId value).

Record ModelStreamIndex : Set := mk_ModelStreamIndex { msi_get : N }.

#[export] Instance ModelStreamIndex_eq_dec : EqDecision ModelStreamIndex.
Proof. solve_decision. Defined.
#[export] Program Instance ModelStreamIndex_countable : Countable ModelStreamIndex :=
  inj_countable' msi_get mk_ModelStreamIndex _.
Next Obligation. by intros []. Qed.

Definition stream_index_new (value : N) : Result ModelStreamValueError ModelStreamIndex :=
  try? ensure (value <=? MAX_MODEL_STREAM_INDEX)%N ValueInvalidStreamIndex in
  Ok (mk_ModelStreamIndex value).

Definition validate_delta (value : string) : Result ModelStreamValueError unit :=
  ensure (bounded_text value MAX_MODEL_DELTA_BYTES) ValueInvalidDelta.

Record Utf8Delta : Set := mk_Utf8Delta { ud_str : string }.
Definition utf8_delta_new (value : string) : Result ModelStreamValueError Utf8Delta :=
  try? validate_delta value in Ok (mk_Utf8Delta value).

Definition validate_model_tool_name (value : string) : Result ModelStreamValueError unit :=
  ensure ((str_len value <=? 128)%N
          && head_and_all is_ascii_lowercase (λ b, lower_or_digit b || name_punctuation b) value)
    ValueInvalidToolName.

Record ModelResponseInfo : Set := mk_ModelResponseInfo {
  mri_response_id : option ProviderResponseId;
  mri_response_model : option ModelId;
  mri_metadata : ProtocolMetadata
}.

Record ToolCallStarted : Set := mk_ToolCallStarted {
  ts_index : ModelStreamIndex;
  ts_provider_call_id : ProviderToolCallId;
  ts_tool_name : string
}.

Record ToolArgumentsDelta : Set := mk_ToolArgumentsDelta {
  ta_index : ModelStreamIndex;
  ta_provider_call_id : ProviderToolCallId;
  ta_delta : string
}.

Record ToolCallCompleted : Set := mk_ToolCallCompleted {
  tc_index : ModelStreamIndex;
  tc_provider_call_id : ProviderToolCallId;
  tc_called_name : string;
  tc_called_arguments : Value
}.

Record HostedToolStarted : Set := mk_HostedToolStarted {
  hs_index : ModelStreamIndex;
  hs_provider_call_id : ProviderToolCallId;
  hs_tool_name : string
}.

Record HostedToolCompleted : Set := mk_HostedToolCompleted {
  hc_index : ModelStreamIndex;
  hc_provider_call_id : ProviderToolCallId;
  hc_tool_name : string;
  hc_arguments : Value;
  hc_outcome : HostedToolOutcome;
  hc_sources : list ExternalSource;
  hc_continuation : option ProviderContinuation
}.

Record ModelSourceCitation : Set := mk_ModelSourceCitation {
  mc_provider_call_id : option ProviderToolCallId;
  mc_citation : SourceCitation
}.

Record ModelCompletion : Set := mk_ModelCompletion {
  mcp_stop_reason : StopReason;
  mcp_usage : option Usage;
  mcp_cost : option ExactCost;
  mcp_metadata : ProtocolMetadata
}.

Definition tool_call_started_new (index : ModelStreamIndex) (id : ProviderToolCallId)
    (tool_name : string) : Result ModelStreamValueError ToolCallStarted :=
  try? validate_model_tool_name tool_name in Ok (mk_ToolCallStarted index id tool_name).

Definition tool_arguments_delta_new (index : ModelStreamIndex) (id : ProviderToolCallId)
    (delta : string) : Result ModelStreamValueError ToolArgumentsDelta :=
  try? validate_delta delta in Ok (mk_ToolArgumentsDelta index id delta).

Definition hosted_tool_started_new (index : ModelStreamIndex) (id : ProviderToolCallId)
    (tool_name : string) : Result ModelStreamValueError HostedToolStarted :=
  try? validate_model_tool_name tool_name in Ok (mk_HostedToolStarted index id tool_name).

Section codec.
Context `{Codec}.

Definition validate_completed_arguments (arguments : Value) : Result ModelStreamValueError unit :=
  try? ensure (is_object arguments) ValueToolArgumentsMustBeObject in
  let? len := ok_or (json_len arguments) ValueToolArgumentsOutOfBounds in
  ensure ((len <=? MAX_COMPLETED_TOOL_ARGUMENT_BYTES)%N
          && (json_depth arguments <=? MAX_COMPLETED_TOOL_ARGUMENT_DEPTH)%nat)
    ValueToolArgumentsOutOfBounds.

Definition tool_call_completed_new (index : ModelStreamIndex) (id : ProviderToolCallId)
    (tool_name : string) (arguments : Value) : Result ModelStreamValueError ToolCallCompleted :=
  try? validate_model_tool_name tool_name in
  try? validate_completed_arguments arguments in
  Ok (mk_ToolCallCompleted index id tool_name arguments).

Definition hosted_tool_completed_new (index : ModelStreamIndex) (id : ProviderToolCallId)
    (tool_name : string) (arguments : Value) (outcome : HostedToolOutcome)
    (sources : list ExternalSource) (continuation : option ProviderContinuation)
    : Result ModelStreamValueError HostedToolCompleted :=
  try? validate_model_tool_name tool_name in
  try? validate_completed_arguments arguments in
  try? ensure (N.of_nat (length sources) <=? MAX_HOSTED_TOOL_SOURCES)%N
         ValueTooManyHostedToolSources in
  Ok (mk_HostedToolCompleted index id tool_name arguments outcome sources continuation).
End codec.

Definition source_citation_new (id : option ProviderToolCallId) (citation : SourceCitation)
    : Result ModelStreamValueError ModelSourceCitation :=
  try? ensure (bool_decide (sc_tool_call_id citation = None)) ValueCitationAlreadyCanonical in
  Ok (mk_ModelSourceCitation id citation).

(** [ModelCompletion::completed] and [new]. *)
Definition completion_completed : ModelCompletion := mk_ModelCompletion StopCompleted None None ∅.

Definition completion_reason_ok (stop_reason : StopReason) : bool :=
  match stop_reason with
  | StopCompleted | StopLength | StopToolUse | StopPauseTurn | StopRefusal | StopUnknown _ => true
  | StopCancelled | StopError => false
  end.

Definition completion_new (stop_reason : StopReason)
    : Result ModelStreamValueError ModelCompletion :=
  try? ensure (completion_reason_ok stop_reason) ValueInvalidCompletionReason in
  Ok (mk_ModelCompletion stop_reason None None ∅).

(** ** Events and the validator *)

Inductive ModelEvent : Set :=
| ModelStarted (info : ModelResponseInfo)
| ModelTextDelta (delta : Utf8Delta)
| ModelThinkingDelta (delta : Utf8Delta)
| ModelToolCallStarted (call : ToolCallStarted)
| ModelToolArgumentsDelta (delta : ToolArgumentsDelta)
| ModelToolCallCompleted (call : ToolCallCompleted)
| ModelHostedToolStarted (call : HostedToolStarted)
| ModelHostedToolCompleted (call : HostedToolCompleted)
| ModelSourceCited (citation : ModelSourceCitation)
| ModelCompleted (completion : ModelCompletion)
| ModelFailed (failure : ModelFailure).

Record ModelStreamValidator : Set := mk_ModelStreamValidator {
  mv_started : bool;
  mv_terminal : option bool;
  mv_event_count : nat;
  mv_completed_tool_calls : nat;
  mv_completed_hosted_tools : nat;
  mv_active_tools : gmap ModelStreamIndex (ProviderToolCallId * string);
  mv_active_hosted_tools : gmap ModelStreamIndex (ProviderToolCallId * string);
  mv_completed_hosted_ids : gset ProviderToolCallId;
  mv_seen_tool_indexes : gset ModelStreamIndex
}.

Inductive ModelStreamViolation : Set :=
| EventBeforeStart | MissingStart | DuplicateStart | MissingTerminalEvent
| EventAfterTerminalEvent | DuplicateToolIndex | UnknownToolIndex | ToolIdentityMismatch
| IncompleteToolCalls | UnknownHostedCitation.

Record ModelStreamSummary : Set := mk_ModelStreamSummary {
  ms_event_count : nat;
  ms_completed_tool_calls : nat;
  ms_completed_hosted_tools : nat;
  ms_succeeded : bool
}.

Definition model_validator_new : ModelStreamValidator :=
  mk_ModelStreamValidator false None 0 0 0 ∅ ∅ ∅ ∅.

Definition mv_start (v : ModelStreamValidator) : ModelStreamValidator :=
  mk_ModelStreamValidator true (mv_terminal v) (mv_event_count v) (mv_completed_tool_calls v)
    (mv_completed_hosted_tools v) (mv_active_tools v) (mv_active_hosted_tools v)
    (mv_completed_hosted_ids v) (mv_seen_tool_indexes v).
Definition mv_end (success : bool) (v : ModelStreamValidator) : ModelStreamValidator :=
  mk_ModelStreamValidator (mv_started v) (Some success) (mv_event_count v)
    (mv_completed_tool_calls v) (mv_completed_hosted_tools v) (mv_active_tools v)
    (mv_active_hosted_tools v) (mv_completed_hosted_ids v) (mv_seen_tool_indexes v).
Definition mv_count (v : ModelStreamValidator) : ModelStreamValidator :=
  mk_ModelStreamValidator (mv_started v) (mv_terminal v) (S (mv_event_count v))
    (mv_completed_tool_calls v) (mv_completed_hosted_tools v) (mv_active_tools v)
    (mv_active_hosted_tools v) (mv_completed_hosted_ids v) (mv_seen_tool_indexes v).
(** Opening a client call and a hosted activity; completing them. *)
Definition mv_open_tool (index : ModelStreamIndex) (id : ProviderToolCallId) (name : string)
    (v : ModelStreamValidator) : ModelStreamValidator :=
  mk_ModelStreamValidator (mv_started v) (mv_terminal v) (mv_event_count v)
    (mv_completed_tool_calls v) (mv_completed_hosted_tools v)
    (<[index := (id, name)]> (mv_active_tools v)) (mv_active_hosted_tools v)
    (mv_completed_hosted_ids v) ({[index]} ∪ mv_seen_tool_indexes v).
Definition mv_open_hosted (index : ModelStreamIndex) (id : ProviderToolCallId) (name : string)
    (v : ModelStreamValidator) : ModelStreamValidator :=
  mk_ModelStreamValidator (mv_started v) (mv_terminal v) (mv_event_count v)
    (mv_completed_tool_calls v) (mv_completed_hosted_tools v) (mv_active_tools v)
    (<[index := (id, name)]> (mv_active_hosted_tools v)) (mv_completed_hosted_ids v)
    ({[index]} ∪ mv_seen_tool_indexes v).
Definition mv_close_tool (index : ModelStreamIndex) (v : ModelStreamValidator)
    : ModelStreamValidator :=
  mk_ModelStreamValidator (mv_started v) (mv_terminal v) (mv_event_count v)
    (S (mv_completed_tool_calls v)) (mv_completed_hosted_tools v)
    (delete index (mv_active_tools v)) (mv_active_hosted_tools v) (mv_completed_hosted_ids v)
    (mv_seen_tool_indexes v).
Definition mv_close_hosted (index : ModelStreamIndex) (id : ProviderToolCallId)
    (v : ModelStreamValidator) : ModelStreamValidator :=
  mk_ModelStreamValidator (mv_started v) (mv_terminal v) (mv_event_count v)
    (mv_completed_tool_calls v) (S (mv_completed_hosted_tools v)) (mv_active_tools v)
    (delete index (mv_active_hosted_tools v)) ({[id]} ∪ mv_completed_hosted_ids v)
    (mv_seen_tool_indexes v).

Notation Observing := (ST ModelStreamValidator ModelStreamViolation).

Definition observe_start (index : ModelStreamIndex) : Observing unit :=
  let! seen := st_gets mv_seen_tool_indexes in
  st_ensure (bool_decide (index ∉ seen)) DuplicateToolIndex.

(** The identity checks of a fragment or completion against the active calls. *)
Definition observe_identity
    (active : ModelStreamValidator → gmap ModelStreamIndex (ProviderToolCallId * string))
    (index : ModelStreamIndex) (id : ProviderToolCallId) (name : option string)
    : Observing unit :=
  let! calls := st_gets active in
  match calls !! index with
  | None => st_throw UnknownToolIndex
  | Some (call_id, tool_name) =>
      st_ensure (bool_decide (call_id = id)
                 && match name with Some name => bool_decide (tool_name = name) | None => true end)
        ToolIdentityMismatch
  end.

(** The [match event] of [observe], after the start. *)
Definition observe_event (event : ModelEvent) : Observing unit :=
  match event with
  | ModelStarted _ => st_throw DuplicateStart
  | ModelToolCallStarted call =>
      do! observe_start (ts_index call) in
      st_modify (mv_open_tool (ts_index call) (ts_provider_call_id call) (ts_tool_name call))
  | ModelHostedToolStarted call =>
      do! observe_start (hs_index call) in
      st_modify (mv_open_hosted (hs_index call) (hs_provider_call_id call) (hs_tool_name call))
  | ModelToolArgumentsDelta delta =>
      observe_identity mv_active_tools (ta_index delta) (ta_provider_call_id delta) None
  | ModelToolCallCompleted call =>
      do! observe_identity mv_active_tools (tc_index call) (tc_provider_call_id call)
            (Some (tc_called_name call)) in
      st_modify (mv_close_tool (tc_index call))
  | ModelHostedToolCompleted call =>
      do! observe_identity mv_active_hosted_tools (hc_index call) (hc_provider_call_id call)
            (Some (hc_tool_name call)) in
      st_modify (mv_close_hosted (hc_index call) (hc_provider_call_id call))
  | ModelSourceCited citation =>
      let! completed := st_gets mv_completed_hosted_ids in
      st_ensure (match mc_provider_call_id citation with
                 | Some id => bool_decide (id ∈ completed)
                 | None => true
                 end) UnknownHostedCitation
  | ModelCompleted _ =>
      let! tools := st_gets mv_active_tools in
      let! hosted := st_gets mv_active_hosted_tools in
      do! st_ensure (bool_decide (tools = ∅) && bool_decide (hosted = ∅)) IncompleteToolCalls in
      st_modify (mv_end true)
  | ModelFailed _ => st_modify (mv_end false)
  | ModelTextDelta _ | ModelThinkingDelta _ => st_ret tt
  end.

Definition model_observe (event : ModelEvent) : Observing unit :=
  let! terminal := st_gets mv_terminal in
  do! st_ensure (bool_decide (terminal = None)) EventAfterTerminalEvent in
  let! started := st_gets mv_started in
  if started then
    do! observe_event event in
    st_modify mv_count
  else
    match event with
    | ModelStarted _ => do! st_modify mv_start in st_modify mv_count
    | _ => st_throw EventBeforeStart
    end.

Definition model_finish (v : ModelStreamValidator)
    : Result ModelStreamViolation ModelStreamSummary :=
  try? ensure (mv_started v) MissingStart in
  let? succeeded := ok_or (mv_terminal v) MissingTerminalEvent in
  Ok (mk_ModelStreamSummary (mv_event_count v) (mv_completed_tool_calls v)
        (mv_completed_hosted_tools v) succeeded).

(** A whole stream: every event in order, then the end. *)
Definition validate_stream (events : list ModelEvent)
    : Result ModelStreamViolation ModelStreamSummary :=
  let '(observed, v) := st_for events model_observe model_validator_new in
  try? observed in model_finish v.

(** ** The grammar of accepted streams

    A stream starts, has a body, and ends with one terminal.  What a body event
    may refer to is a condition on the events before it. *)

Definition client_start (e : ModelEvent) : option (ModelStreamIndex * (ProviderToolCallId * string)) :=
  match e with
  | ModelToolCallStarted c => Some (ts_index c, (ts_provider_call_id c, ts_tool_name c))
  | _ => None
  end.
Definition hosted_start (e : ModelEvent) : option (ModelStreamIndex * (ProviderToolCallId * string)) :=
  match e with
  | ModelHostedToolStarted c => Some (hs_index c, (hs_provider_call_id c, hs_tool_name c))
  | _ => None
  end.
Definition client_end (e : ModelEvent) : option ModelStreamIndex :=
  match e with ModelToolCallCompleted c => Some (tc_index c) | _ => None end.
Definition hosted_end (e : ModelEvent) : option ModelStreamIndex :=
  match e with ModelHostedToolCompleted c => Some (hc_index c) | _ => None end.
Definition hosted_id (e : ModelEvent) : option ProviderToolCallId :=
  match e with ModelHostedToolCompleted c => Some (hc_provider_call_id c) | _ => None end.

(** The call started at [i] in [before] and not ended since. *)
Definition opened (start : ModelEvent → option (ModelStreamIndex * (ProviderToolCallId * string)))
    (ends : ModelEvent → option ModelStreamIndex) (before : list ModelEvent)
    (i : ModelStreamIndex) (call : ProviderToolCallId * string) : Prop :=
  ∃ l1 e l2, before = l1 ++ e :: l2 ∧ start e = Some (i, call) ∧
    ∀ e', e' ∈ l2 → ends e' ≠ Some i.

Notation client_open := (opened client_start client_end).
Notation hosted_open := (opened hosted_start hosted_end).

(** The indexes any call of [before] started at. *)
Definition started_indexes (before : list ModelEvent) : list ModelStreamIndex :=
  omap (λ e, fst <$> client_start e) before ++ omap (λ e, fst <$> hosted_start e) before.

Definition event_allowed (before : list ModelEvent) (e : ModelEvent) : Prop :=
  match e with
  | ModelStarted _ | ModelCompleted _ | ModelFailed _ => False
  | ModelTextDelta _ | ModelThinkingDelta _ => True
  | ModelToolCallStarted c => ts_index c ∉ started_indexes before
  | ModelHostedToolStarted c => hs_index c ∉ started_indexes before
  | ModelToolArgumentsDelta d =>
      ∃ name, client_open before (ta_index d) (ta_provider_call_id d, name)
  | ModelToolCallCompleted c =>
      client_open before (tc_index c) (tc_provider_call_id c, tc_called_name c)
  | ModelHostedToolCompleted c =>
      hosted_open before (hc_index c) (hc_provider_call_id c, hc_tool_name c)
  | ModelSourceCited c =>
      match mc_provider_call_id c with Some id => id ∈ omap hosted_id before | None => True end
  end.

Definition body_ok (body : list ModelEvent) : Prop :=
  ∀ before e after, body = before ++ e :: after → event_allowed before e.

(** What may end a body: a failure at any time, a completion once every call
    is complete. *)
Definition terminal_allowed (body : list ModelEvent) (e : ModelEvent) : Prop :=
  match e with
  | ModelFailed _ => True
  | ModelCompleted _ => ∀ i call, ¬ client_open body i call ∧ ¬ hosted_open body i call
  | _ => False
  end.

Definition grammatical (events : list ModelEvent) : Prop :=
  ∃ info body terminal,
    events = ModelStarted info :: body ++ [terminal] ∧ body_ok body ∧ terminal_allowed body terminal.

Definition is_completion (e : ModelEvent) : bool :=
  match e with ModelCompleted _ => true | _ => false end.

(** What the summary of a stream counts. *)
Definition summary_of (events : list ModelEvent) (s : ModelStreamSummary) : Prop :=
  ms_event_count s = length events ∧
  ms_completed_tool_calls s = length (omap client_end events) ∧
  ms_completed_hosted_tools s = length (omap hosted_end events) ∧
  ms_succeeded s = existsb is_completion events.

(** *** Lemmas on bodies *)

Lemma opened_snoc start ends l e i call :
  opened start ends (l ++ [e]) i call ↔
  start e = Some (i, call) ∨ opened start ends l i call ∧ ends e ≠ Some i.
Proof.
  split.
  - intros (l1 & e1 & l2 & Heq & Hs & Hend). destruct l2 as [|e2 l2 _] using rev_ind.
    + apply app_inj_tail in Heq as [-> ->]. by left.
    + rewrite app_comm_cons, (assoc_L (++)) in Heq. apply app_inj_tail in Heq as [-> ->].
      right. split; [|apply Hend; set_solver]. exists l1, e1, l2. split_and!; [done..|].
      intros e' He'. apply Hend. set_solver.
  - intros [Hs|[(l1 & e1 & l2 & -> & Hs & Hend) He]].
    + exists l, e, []. split_and!; [done..|]. by intros e' ?%elem_of_nil.
    + exists l1, e1, (l2 ++ [e]). split_and!; [by rewrite <- (assoc_L (++))|done|].
      intros e' [?| ->%list_elem_of_singleton]%elem_of_app; auto.
Qed.

Lemma opened_nil start ends i call : ¬ opened start ends [] i call.
Proof. by intros ([] & ? & ? & ? & ?). Qed.

Lemma body_ok_nil : body_ok [].
Proof. by intros []. Qed.

Lemma body_ok_snoc l e : body_ok (l ++ [e]) ↔ body_ok l ∧ event_allowed l e.
Proof.
  split.
  - intros Hok. split; [|by apply (Hok l e [])].
    intros before e' after ->. apply (Hok before e' (after ++ [e])).
    by rewrite <- (assoc_L (++)).
  - intros [Hok He] before e' after Heq. destruct after as [|e2 after _] using rev_ind.
    + by apply app_inj_tail in Heq as [-> ->].
    + rewrite app_comm_cons, (assoc_L (++)) in Heq. apply app_inj_tail in Heq as [-> ->].
      by eapply Hok.
Qed.

Lemma body_ok_prefix l1 l2 : body_ok (l1 ++ l2) → body_ok l1.
Proof.
  induction l2 as [|e l2 IH] using rev_ind; [by rewrite app_nil_r|].
  rewrite (assoc_L (++)), body_ok_snoc. naive_solver.
Qed.

Lemma elem_started_snoc l e i :
  i ∈ started_indexes (l ++ [e]) ↔
  i ∈ started_indexes l ∨ fst <$> client_start e = Some i ∨ fst <$> hosted_start e = Some i.
Proof.
  unfold started_indexes. rewrite !omap_app, !elem_of_app. simpl.
  destruct (client_start e), (hosted_start e); simpl;
    rewrite ?list_elem_of_singleton, ?elem_of_nil; naive_solver.
Qed.

Lemma client_open_started l i call : client_open l i call → i ∈ started_indexes l.
Proof.
  induction l as [|e l IH] using rev_ind; [by intros ?%opened_nil|].
  rewrite opened_snoc, elem_started_snoc. intros [Hs|[Ho _]]; [|auto].
  right; left. by rewrite Hs.
Qed.

Lemma hosted_open_started l i call : hosted_open l i call → i ∈ started_indexes l.
Proof.
  induction l as [|e l IH] using rev_ind; [by intros ?%opened_nil|].
  rewrite opened_snoc, elem_started_snoc. intros [Hs|[Ho _]]; [|auto].
  right; right. by rewrite Hs.
Qed.

(** *** The validator's state after a body *)

Record body_state (l : list ModelEvent) (v : ModelStreamValidator) : Prop := mk_body_state {
  bs_started : mv_started v = true;
  bs_terminal : mv_terminal v = None;
  bs_count : mv_event_count v = S (length l);
  bs_calls : mv_completed_tool_calls v = length (omap client_end l);
  bs_hosted : mv_completed_hosted_tools v = length (omap hosted_end l);
  bs_active : ∀ i call, mv_active_tools v !! i = Some call ↔ client_open l i call;
  bs_active_hosted : ∀ i call, mv_active_hosted_tools v !! i = Some call ↔ hosted_open l i call;
  bs_ids : ∀ id, id ∈ mv_completed_hosted_ids v ↔ id ∈ omap hosted_id l;
  bs_seen : ∀ i, i ∈ mv_seen_tool_indexes v ↔ i ∈ started_indexes l
}.

Lemma body_state_start :
  body_state [] (mv_count (mv_start model_validator_new)).
Proof.
  split; simpl; try done; [intros i call..| |].
  - rewrite lookup_empty. split; [done|by intros ?%opened_nil].
  - rewrite lookup_empty. split; [done|by intros ?%opened_nil].
  - set_solver.
  - set_solver.
Qed.

(** How one more event changes what a list of events opened, ended and started. *)
Lemma opened_other start ends l e i call :
  start e = None → ends e = None → opened start ends (l ++ [e]) i call ↔ opened start ends l i call.
Proof. intros Hs He. rewrite opened_snoc, Hs, He. naive_solver. Qed.

Lemma opened_start start ends l e i call j call' :
  start e = Some (j, call') → ends e = None →
  opened start ends (l ++ [e]) i call ↔ (j, call') = (i, call) ∨ opened start ends l i call.
Proof. intros Hs He. rewrite opened_snoc, Hs, He. naive_solver. Qed.

Lemma opened_end start ends l e i call j :
  start e = None → ends e = Some j →
  opened start ends (l ++ [e]) i call ↔ j ≠ i ∧ opened start ends l i call.
Proof. intros Hs He. rewrite opened_snoc, Hs, He. naive_solver. Qed.

Lemma omap_snoc {A} (f : ModelEvent → option A) l e :
  omap f (l ++ [e]) = omap f l ++ match f e with Some x => [x] | None => [] end.
Proof. rewrite omap_app. simpl. by destruct (f e). Qed.

Lemma opened_insert start ends l i call j call'
    (m : gmap ModelStreamIndex (ProviderToolCallId * string)) :
  (∀ i call, m !! i = Some call ↔ opened start ends l i call) →
  (∀ call, ¬ opened start ends l j call) →
  <[j := call']> m !! i = Some call ↔ (j, call') = (i, call) ∨ opened start ends l i call.
Proof.
  intros Hm Hj. rewrite lookup_insert_Some, Hm. split.
  - intros [[<- <-]|[_ Ho]]; auto.
  - intros [[= <- <-]|Ho]; [by left|]. right. split; [|done]. intros <-. by apply Hj in Ho.
Qed.

Lemma opened_delete start ends l i call j
    (m : gmap ModelStreamIndex (ProviderToolCallId * string)) :
  (∀ i call, m !! i = Some call ↔ opened start ends l i call) →
  delete j m !! i = Some call ↔ j ≠ i ∧ opened start ends l i call.
Proof. intros Hm. by rewrite lookup_delete_Some, Hm. Qed.

(** An event that is neither a start nor an end leaves the calls alone. *)
Lemma body_state_plain l v e :
  body_state l v → client_start e = None → hosted_start e = None → client_end e = None →
  hosted_end e = None → body_state (l ++ [e]) (mv_count v).
Proof.
  intros [] Hcs Hhs Hce Hhe. assert (hosted_id e = None) as Hid by by destruct e.
  split; simpl; try done.
  - rewrite length_app. simpl. lia.
  - by rewrite omap_snoc, Hce, app_nil_r.
  - by rewrite omap_snoc, Hhe, app_nil_r.
  - intros i call. by rewrite opened_other.
  - intros i call. by rewrite opened_other.
  - intros id. by rewrite omap_snoc, Hid, app_nil_r.
  - intros i. rewrite elem_started_snoc, Hcs, Hhs. naive_solver.
Qed.

Lemma body_state_open_tool l v c :
  body_state l v → ts_index c ∉ started_indexes l →
  body_state (l ++ [ModelToolCallStarted c])
    (mv_count (mv_open_tool (ts_index c) (ts_provider_call_id c) (ts_tool_name c) v)).
Proof.
  intros [] Hnew. split; simpl; try done.
  - rewrite length_app. simpl. lia.
  - by rewrite omap_snoc, app_nil_r.
  - by rewrite omap_snoc, app_nil_r.
  - intros i call. rewrite opened_start by done. apply opened_insert; [done|].
    by intros call' ?%client_open_started.
  - intros i call. by rewrite opened_other.
  - intros id. by rewrite omap_snoc, app_nil_r.
  - intros i. rewrite elem_started_snoc, elem_of_union, elem_of_singleton. simpl. naive_solver.
Qed.

Lemma body_state_open_hosted l v c :
  body_state l v → hs_index c ∉ started_indexes l →
  body_state (l ++ [ModelHostedToolStarted c])
    (mv_count (mv_open_hosted (hs_index c) (hs_provider_call_id c) (hs_tool_name c) v)).
Proof.
  intros [] Hnew. split; simpl; try done.
  - rewrite length_app. simpl. lia.
  - by rewrite omap_snoc, app_nil_r.
  - by rewrite omap_snoc, app_nil_r.
  - intros i call. by rewrite opened_other.
  - intros i call. rewrite opened_start by done. apply opened_insert; [done|].
    by intros call' ?%hosted_open_started.
  - intros id. by rewrite omap_snoc, app_nil_r.
  - intros i. rewrite elem_started_snoc, elem_of_union, elem_of_singleton. simpl. naive_solver.
Qed.

Lemma body_state_close_tool l v c :
  body_state l v →
  body_state (l ++ [ModelToolCallCompleted c]) (mv_count (mv_close_tool (tc_index c) v)).
Proof.
  intros []. split; simpl; try done.
  - rewrite length_app. simpl. lia.
  - rewrite omap_snoc, length_app. simpl. lia.
  - by rewrite omap_snoc, app_nil_r.
  - intros i call. rewrite (opened_end _ _ _ _ _ _ (tc_index c)) by done. by apply opened_delete.
  - intros i call. by rewrite opened_other.
  - intros id. by rewrite omap_snoc, app_nil_r.
  - intros i. rewrite elem_started_snoc. simpl. naive_solver.
Qed.

Lemma body_state_close_hosted l v c :
  body_state l v →
  body_state (l ++ [ModelHostedToolCompleted c])
    (mv_count (mv_close_hosted (hc_index c) (hc_provider_call_id c) v)).
Proof.
  intros []. split; simpl; try done.
  - rewrite length_app. simpl. lia.
  - by rewrite omap_snoc, app_nil_r.
  - rewrite omap_snoc, length_app. simpl. lia.
  - intros i call. by rewrite opened_other.
  - intros i call. rewrite (opened_end _ _ _ _ _ _ (hc_index c)) by done. by apply opened_delete.
  - intros id. rewrite omap_snoc. simpl. set_solver.
  - intros i. rewrite elem_started_snoc. simpl. naive_solver.
Qed.

(** *** One observation *)

Definition is_body (e : ModelEvent) : bool :=
  match e with ModelCompleted _ | ModelFailed _ => false | _ => true end.

Lemma observe_identity_ok active i id name v :
  observe_identity active i id name v =
  (match active v !! i with
   | None => Err UnknownToolIndex
   | Some (call_id, tool_name) =>
       ensure (bool_decide (call_id = id)
               && match name with Some name => bool_decide (tool_name = name) | None => true end)
         ToolIdentityMismatch
   end, v).
Proof.
  unfold observe_identity, st_bind, st_gets, st_ensure, st_lift, st_throw.
  by destruct (active v !! i) as [[]|].
Qed.

(** A body event is accepted exactly when the events before it allow it; a
    rejected one leaves the validator as it was. *)
Lemma observe_body l v e :
  body_state l v → is_body e = true →
  match model_observe e v with
  | (Ok _, v') => event_allowed l e ∧ body_state (l ++ [e]) v'
  | (Err _, v') => ¬ event_allowed l e ∧ v' = v
  end.
Proof.
  intros Hb He. unfold model_observe, st_bind at 1 2 3, st_gets, st_ensure, st_lift, ensure.
  rewrite (bs_terminal _ _ Hb), (bs_started _ _ Hb). rewrite bool_decide_true by done.
  destruct e as [info|d|d|c|d|c|c|c|c|c|f]; try done; simpl;
    unfold st_bind, st_modify, observe_start, st_gets, st_bind, st_ensure, st_lift, ensure, st_ret;
    rewrite ?observe_identity_ok.
  - naive_solver.
  - split; [done|]. by apply body_state_plain.
  - split; [done|]. by apply body_state_plain.
  - case_bool_decide as Hs; rewrite (bs_seen _ _ Hb) in Hs; simpl; [|by split; [intros []|]].
    split; [done|]. by apply body_state_open_tool.
  - destruct (mv_active_tools v !! ta_index d) as [[id name]|] eqn:Ha; simpl.
    + apply (bs_active _ _ Hb) in Ha as Ho. case_bool_decide as Hid; simpl.
      * subst. split; [by exists name|]. by apply body_state_plain.
      * split; [|done]. intros (name' & Hn%(bs_active _ _ Hb)). congruence.
    + split; [|done]. intros (name' & Hn%(bs_active _ _ Hb)). congruence.
  - destruct (mv_active_tools v !! tc_index c) as [[id name]|] eqn:Ha; simpl.
    + apply (bs_active _ _ Hb) in Ha as Ho. unfold ensure. destruct (_ && _) eqn:Hid; simpl.
      * apply andb_true_iff in Hid as [Hid Hn]. apply bool_decide_eq_true in Hid, Hn. subst.
        split; [done|]. by apply body_state_close_tool.
      * split; [|done]. intros Hn%(bs_active _ _ Hb). rewrite Ha in Hn. injection Hn as -> ->.
        by rewrite !bool_decide_true in Hid.
    + split; [|done]. intros Hn%(bs_active _ _ Hb). congruence.
  - case_bool_decide as Hs; rewrite (bs_seen _ _ Hb) in Hs; simpl; [|by split; [intros []|]].
    split; [done|]. by apply body_state_open_hosted.
  - destruct (mv_active_hosted_tools v !! hc_index c) as [[id name]|] eqn:Ha; simpl.
    + apply (bs_active_hosted _ _ Hb) in Ha as Ho. unfold ensure. destruct (_ && _) eqn:Hid; simpl.
      * apply andb_true_iff in Hid as [Hid Hn]. apply bool_decide_eq_true in Hid, Hn. subst.
        split; [done|]. by apply body_state_close_hosted.
      * split; [|done]. intros Hn%(bs_active_hosted _ _ Hb). rewrite Ha in Hn.
        injection Hn as -> ->. by rewrite !bool_decide_true in Hid.
    + split; [|done]. intros Hn%(bs_active_hosted _ _ Hb). congruence.
  - destruct (mc_provider_call_id c) as [id|] eqn:Hid; simpl.
    + case_bool_decide as Hin; rewrite (bs_ids _ _ Hb) in Hin; simpl; [|done].
      split; [done|]. by apply body_state_plain.
    + split; [done|]. by apply body_state_plain.
Qed.

(** The terminal of a body is accepted exactly when the grammar allows it. *)
Lemma observe_terminal l v e :
  body_state l v → is_body e = false →
  match model_observe e v with
  | (Ok _, v') => terminal_allowed l e ∧ v' = mv_count (mv_end (is_completion e) v)
  | (Err _, _) => ¬ terminal_allowed l e
  end.
Proof.
  intros Hb He. unfold model_observe, st_bind at 1 2 3, st_gets, st_ensure, st_lift, ensure.
  rewrite (bs_terminal _ _ Hb), (bs_started _ _ Hb). rewrite bool_decide_true by done.
  destruct e as [| | | | | | | | |c|f]; try done; simpl;
    unfold st_bind, st_modify, st_gets, st_ensure, st_lift, ensure.
  destruct (bool_decide (mv_active_tools v = ∅) && _) eqn:Hempty; simpl.
  - apply andb_true_iff in Hempty as [Ht Hh]. apply bool_decide_eq_true in Ht, Hh.
    split; [|done]. intros i call. rewrite <- (bs_active _ _ Hb), <- (bs_active_hosted _ _ Hb).
    rewrite Ht, Hh. by rewrite !lookup_empty.
  - intros Hclosed. apply andb_false_iff in Hempty. revert Hempty.
    rewrite !bool_decide_eq_false. intros [Ht|Hh].
    + apply map_choose in Ht as (i & call & Hi%(bs_active _ _ Hb)). by destruct (Hclosed i call).
    + apply map_choose in Hh as (i & call & Hi%(bs_active_hosted _ _ Hb)). by destruct (Hclosed i call).
Qed.

(** Nothing is accepted after a terminal. *)
Lemma observe_after_terminal events v :
  mv_terminal v ≠ None → events ≠ [] →
  st_for events model_observe v = (Err EventAfterTerminalEvent, v).
Proof.
  intros Hv. destruct events as [|e events]; [done|]. intros _. simpl.
  unfold model_observe, st_bind, st_gets, st_ensure, st_lift, ensure.
  by rewrite bool_decide_false.
Qed.

(** The rest of a stream whose body so far is [l]. *)
Definition completes (l rest : list ModelEvent) : Prop :=
  ∃ body terminal, rest = body ++ [terminal] ∧ body_ok (l ++ body) ∧
    terminal_allowed (l ++ body) terminal.

Lemma completes_cons l e rest :
  is_body e = true → completes l (e :: rest) ↔ completes (l ++ [e]) rest.
Proof.
  intros He. split.
  - intros (body & terminal & Heq & Hok & Ht). destruct body as [|e' body]; simplify_eq/=.
    + by destruct terminal.
    + exists body, terminal. by rewrite <- !(assoc_L (++)).
  - intros (body & terminal & -> & Hok & Ht). exists (e :: body), terminal.
    rewrite <- !(assoc_L (++)) in *. done.
Qed.

Lemma completes_terminal l e rest :
  is_body e = false → body_ok l →
  completes l (e :: rest) ↔ rest = [] ∧ terminal_allowed l e.
Proof.
  intros He Hl. split.
  - intros (body & terminal & Heq & Hok & Ht). destruct body as [|e' body]; simplify_eq/=.
    + by rewrite app_nil_r in Ht.
    + assert (event_allowed l e') as Ha by by apply (Hok l e' body). by destruct e'.
  - intros [-> Ht]. exists [], e. by rewrite app_nil_r.
Qed.

Lemma existsb_body l : forallb is_body l = true → existsb is_completion l = false.
Proof. induction l as [|[] l IH]; simpl; auto; discriminate. Qed.

Lemma body_ok_body l : body_ok l → forallb is_body l = true.
Proof.
  induction l as [|e l IH] using rev_ind; [done|]. rewrite body_ok_snoc, forallb_app.
  intros [Hl He]. rewrite IH by done. by destruct e.
Qed.

Lemma observe_rest rest l v info :
  body_ok l → body_state l v →
  match (let '(r, v') := st_for rest model_observe v in try? r in model_finish v') with
  | Ok s => completes l rest ∧ summary_of (ModelStarted info :: l ++ rest) s
  | Err _ => ¬ completes l rest
  end.
Proof.
  revert l v. induction rest as [|e rest IH]; intros l v Hl Hb; simpl.
  - unfold result_bind, st_ret, model_finish. rewrite (bs_started _ _ Hb), (bs_terminal _ _ Hb).
    simpl. by intros ([] & ? & ? & _).
  - destruct (is_body e) eqn:He; unfold st_bind.
    + pose proof (completes_cons l e rest He) as Hc. pose proof (observe_body _ _ _ Hb He) as Ho.
      destruct (model_observe e v) as [[[]|err] v1]; destruct Ho as [Ha Ho].
      * rewrite (cons_middle e l rest), (assoc_L (++)).
        assert (body_ok (l ++ [e])) as Hl' by by apply body_ok_snoc.
        specialize (IH _ _ Hl' Ho). destruct (st_for rest model_observe v1) as [r v2].
        destruct (result_bind r _); by rewrite Hc.
      * unfold result_bind. rewrite Hc. intros (body & terminal & -> & Hok & _).
        apply body_ok_prefix in Hok. by apply body_ok_snoc in Hok as [_ ?].
    + pose proof (completes_terminal l e rest He Hl) as Hc.
      pose proof (observe_terminal _ _ _ Hb He) as Ho.
      destruct (model_observe e v) as [[[]|err] v1]; [|unfold result_bind; rewrite Hc; naive_solver].
      destruct Ho as [Ha ->]. destruct rest as [|e' rest].
      * unfold result_bind, st_ret, model_finish. simpl. rewrite (bs_started _ _ Hb). simpl.
        split; [by apply Hc|]. unfold summary_of. simpl.
        rewrite (bs_count _ _ Hb), (bs_calls _ _ Hb), (bs_hosted _ _ Hb).
        rewrite length_app, !omap_snoc, existsb_app, existsb_body by by apply body_ok_body.
        destruct e; try done; simpl; rewrite ?app_nil_r; split_and!; try done; lia.
      * rewrite observe_after_terminal by done. unfold result_bind. rewrite Hc. naive_solver.
Qed.

(** C19: the stream validator decides the grammar of provider streams.  It
    accepts a finished stream exactly when the stream starts once, opens each
    index at most once, only continues, completes or cites what is open or
    complete with the same identity, and ends with one terminal, after which
    there is nothing, and which succeeds only when every call is complete.  Its
    summary counts the events, calls and hosted activities of the stream. *)
Theorem model_stream_grammar events :
  match validate_stream events with
  | Ok s => grammatical events ∧ summary_of events s
  | Err _ => ¬ grammatical events
  end.
Proof.
  unfold validate_stream. destruct events as [|e events]; [by intros (? & ? & ? & ? & _)|].
  destruct e as [info| | | | | | | | | |]; try by intros (? & ? & ? & ? & _).
  simpl. unfold st_bind at 1. change (model_observe (ModelStarted info) model_validator_new)
    with (Ok (E:=ModelStreamViolation) tt, mv_count (mv_start model_validator_new)).
  cbv beta iota. pose proof (observe_rest events [] _ info body_ok_nil body_state_start) as Hrest.
  destruct (st_for events model_observe _) as [r v'].
  assert (grammatical (ModelStarted info :: events) ↔ completes [] events) as Hg.
  { split.
    - intros (info' & body & terminal & [= -> ->] & ?). by exists body, terminal.
    - intros (body & terminal & -> & ?). by exists info, body, terminal. }
  destruct (result_bind r _); by rewrite Hg.
Qed.
