(* ===== verification/ProviderHttp.v ===== *)
(** * Provider diagnostics

    [crates/tea-provider-http/src/lib.rs]: the bounded error body of a provider
    and its normalization into the diagnostic a user sees.  Text is the list of
    its characters; the indices the source keeps in bytes are indices of
    characters here, which are the same boundaries. *)

From S2P Require Import Prelude Protocol Utf8 Decimal Tools Validation.
Local Open Scope tea_scope.

Definition MAX_PROVIDER_ERROR_BODY_BYTES : nat := 8192.
Definition MAX_PROVIDER_ERROR_REASON_BYTES : nat := 1024.

(** [read_bounded_error_body] over the chunks of a response, of which an error
    is [None]. *)
Fixpoint read_error_chunks (body : list N) (chunks : list (option (list N))) : list N :=
  match chunks with
  | [] | None :: _ => body
  | Some chunk :: rest =>
      let remaining := MAX_PROVIDER_ERROR_BODY_BYTES - length body in
      if (remaining =? 0)%nat then body
      else if (remaining <? length chunk)%nat then body ++ take remaining chunk
      else read_error_chunks (body ++ chunk) rest
  end.
Definition read_bounded_error_body (chunks : list (option (list N))) : string :=
  from_utf8_lossy (read_error_chunks [] chunks).

(** ** The reason in a JSON body *)

Definition sensitive_keys : list string :=
  ["api_key"; "apikey"; "authorization"; "access_token"; "refresh_token"; "token"; "cookie";
   "password"; "secret"]%string.

Definition is_sensitive_key (key : string) : bool :=
  existsb (λ k, bool_decide (chars k = to_ascii_lowercase <$> chars key)) sensitive_keys.

(** [!text.trim().is_empty()]. *)
Definition has_text (text : string) : bool := existsb (λ c, negb (is_whitespace c)) (chars text).

Definition reason_keys : list string := ["error"; "message"; "detail"; "reason"]%string.
Definition code_keys : list string := ["type"; "code"]%string.

(** The first of some keys for which [f] gives a reason. *)
Fixpoint first_key (keys : list string) (f : string → option string) : option string :=
  match keys with
  | [] => None
  | key :: keys => match f key with Some text => Some text | None => first_key keys f end
  end.

(** The entries are looked up by key; each comes with its own reason. *)
Definition nested_reason (entries : list (string * (Value * option string))) (key : string)
    : option string :=
  match List.find (λ entry, String.eqb entry.1 key) entries with
  | None => None
  | Some (_, (candidate, reason)) =>
      if is_sensitive_key key then None
      else match candidate with
           | JString text => if has_text text then Some text else reason
           | _ => reason
           end
  end.
Definition code_reason (entries : list (string * (Value * option string))) (key : string)
    : option string :=
  match List.find (λ entry, String.eqb entry.1 key) entries with
  | Some (_, (JString text, _)) =>
      if has_text text && negb (is_sensitive_key key) then Some text else None
  | _ => None
  end.

Fixpoint extract_json_reason (value : Value) : option string :=
  match value with
  | JObject entries =>
      let entries :=
        (fix reasons (entries : list (string * Value)) :=
           match entries with
           | [] => []
           | (key, candidate) :: rest =>
               (key, (candidate, extract_json_reason candidate)) :: reasons rest
           end) entries in
      match first_key reason_keys (nested_reason entries) with
      | Some text => Some text
      | None => first_key code_keys (code_reason entries)
      end
  | _ => None
  end.

(** ** Sanitizing *)

Inductive EscapeState : Set := PlainText | InEscape | InCsi.

Fixpoint sanitize_chars (state : EscapeState) (cs : list N) : list N :=
  match cs with
  | [] => []
  | c :: rest =>
      match state with
      | InCsi => sanitize_chars (if is_ascii_alphabetic c then PlainText else InCsi) rest
      | InEscape =>
          if (c =? 91)%N then sanitize_chars InCsi rest
          else sanitize_chars (if is_ascii_alphabetic c || in_range 64 126 c then PlainText
                               else InEscape) rest
      | PlainText =>
          if (c =? 27)%N then sanitize_chars InEscape rest
          else if is_control c then
            if (c =? 10)%N || (c =? 13)%N || (c =? 9)%N then 32%N :: sanitize_chars PlainText rest
            else sanitize_chars PlainText rest
          else c :: sanitize_chars PlainText rest
      end
  end.
Definition sanitize_reason (cs : list N) : list N := sanitize_chars PlainText cs.

(** ** Redaction *)

(** [str::find] of a pattern and of a character. *)
Fixpoint find_sub (pattern text : list N) : option nat :=
  if bool_decide (pattern = take (length pattern) text) then Some 0
  else match text with
       | [] => None
       | _ :: rest => S <$> find_sub pattern rest
       end.
Fixpoint find_char (p : N → bool) (text : list N) : option nat :=
  match text with
  | [] => None
  | c :: rest => if p c then Some 0 else S <$> find_char p rest
  end.

Definition slice (low high : nat) (text : list N) : list N := take (high - low) (drop low text).

Definition word_char (c : option N) : bool :=
  match c with Some c => is_ascii_alphanumeric c || (c =? 95)%N | None => false end.
Definition char_before (text : list N) (index : nat) : option N :=
  match index with O => None | S i => text !! i end.

(** [Iterator::min_by_key] on the index: the first of the least. *)
Fixpoint min_by_index (candidates : list (nat * list N)) : option (nat * list N) :=
  match candidates with
  | [] => None
  | candidate :: rest =>
      match min_by_index rest with
      | Some best => Some (if (candidate.1 <=? best.1)%nat then candidate else best)
      | None => Some candidate
      end
  end.

(** The first occurrence from [cursor] on of each pattern, if it passes. *)
Definition next_pattern (patterns : list (list N)) (passes : nat → list N → bool)
    (text : list N) (cursor : nat) : option (nat * list N) :=
  min_by_index (List.filter (λ candidate, passes candidate.1 candidate.2)
    (omap (λ pattern, (λ offset, (cursor + offset, pattern)) <$> find_sub pattern (drop cursor text))
       patterns)).

Definition MARKERS : list (list N) :=
  bytes <$> ["authorization"; "api_key"; "apikey"; "access_token"; "refresh_token"; "password";
             "cookie"; "secret"; "token"]%string.
Definition PREFIXES : list (list N) := bytes <$> ["sk-ant-"; "sk-"; "gsk_"; "xai-"; "AIza"]%string.
Definition REDACTED_TEXT : list N := bytes "[redacted]".

(** What ends a secret. *)
Definition secret_stop (c : N) : bool :=
  is_whitespace c || existsb (N.eqb c) [44; 125; 93; 59; 34; 39]%N.

Definition secret_end (text : list N) (start : nat) : nat :=
  match find_char secret_stop (drop start text) with
  | Some index => start + index
  | None => length text
  end.

(** The blanks and quotes before a secret. *)
Fixpoint count_spacing (text : list N) : nat :=
  match text with
  | c :: rest =>
      if is_ascii_whitespace c || (c =? 34)%N || (c =? 39)%N then S (count_spacing rest) else 0
  | [] => 0
  end.

Definition is_bearer (text : list N) : bool :=
  bool_decide (to_ascii_lowercase <$> take 7 text = bytes "bearer ").

Definition marker_passes (lower : list N) (index : nat) (marker : list N) : bool :=
  negb (word_char (char_before lower index)) && negb (word_char (lower !! (index + length marker))).

(** The loop of [redact_sensitive_text]. *)
Fixpoint redact_markers (fuel : nat) (text lower : list N) (cursor : nat) (output : list N)
    : option (list N) :=
  match fuel with
  | O => None
  | S fuel =>
      if (cursor <? length text)%nat then
        match next_pattern MARKERS (marker_passes lower) lower cursor with
        | None => Some (output ++ drop cursor text)
        | Some (start, marker) =>
            let output := output ++ slice cursor start text in
            let marker_end := start + length marker in
            match find_char (λ c, (c =? 58)%N || (c =? 61)%N) (drop marker_end text) with
            | None => redact_markers fuel text lower marker_end
                        (output ++ slice start marker_end text)
            | Some separator =>
                let separator_end := marker_end + separator + 1 in
                let output := output ++ slice start separator_end text in
                let spacing_end := separator_end + count_spacing (drop separator_end text) in
                let secret_start :=
                  if is_bearer (drop spacing_end text) then spacing_end + 7 else spacing_end in
                let output := output ++ slice separator_end spacing_end text in
                redact_markers fuel text lower (secret_end text secret_start) (output ++ REDACTED_TEXT)
            end
        end
      else Some output
  end.

Definition prefix_passes (text : list N) (index : nat) (_ : list N) : bool :=
  negb (word_char (char_before text index)).

(** The loop of [redact_secret_prefixes]. *)
Fixpoint redact_prefixes (fuel : nat) (text : list N) (cursor : nat) (output : list N)
    : option (list N) :=
  match fuel with
  | O => None
  | S fuel =>
      if (cursor <? length text)%nat then
        match next_pattern PREFIXES (prefix_passes text) text cursor with
        | None => Some (output ++ drop cursor text)
        | Some (start, prefix) =>
            redact_prefixes fuel text (secret_end text (start + length prefix))
              (output ++ slice cursor start text ++ REDACTED_TEXT)
        end
      else Some output
  end.

(** Each turn of a loop moves its cursor forward, so the length of the text is
    fuel enough ([redact_markers_total], [redact_prefixes_total]). *)
Definition redact_secret_prefixes (text : list N) : list N :=
  default [] (redact_prefixes (S (length text)) text 0 []).
Definition redact_sensitive_text (text : list N) : list N :=
  redact_secret_prefixes
    (default [] (redact_markers (S (length text)) text (to_ascii_lowercase <$> text) 0 [])).

(** ** The diagnostic *)

Definition TRUNCATED : list N := bytes "... [truncated]".

Definition truncate_reason (text : list N) : list N :=
  if (chars_len text <=? MAX_PROVIDER_ERROR_REASON_BYTES)%nat then text
  else floor_chars (MAX_PROVIDER_ERROR_REASON_BYTES - length TRUNCATED) text ++ TRUNCATED.

Definition show_reason (reason : list N) : string :=
  match reason with
  | [] => "provider returned no error details"
  | _ => string_of_chars reason
  end.

Section normalize.
Context `{Codec}.

Definition normalize_provider_error (status : option N) (body : string) : string :=
  let reason :=
    match json_parse body with
    | Some value => default "provider returned a structured error"%string (extract_json_reason value)
    | None => body
    end in
  let reason := truncate_reason (redact_sensitive_text (sanitize_reason (chars reason))) in
  let reason := show_reason reason in
  match status with
  | Some status => ("HTTP " ++ show_decimal status ++ ": " ++ reason)%string
  | None => reason
  end.
End normalize.

(** ** The loops end *)

Lemma find_sub_bound pattern text offset :
  find_sub pattern text = Some offset → offset + length pattern ≤ length text.
Proof.
  assert (∀ t, pattern = take (length pattern) t → length pattern ≤ length t) as Htake.
  { intros t Ht. rewrite Ht, length_take. lia. }
  revert offset. induction text as [|c text IH]; intros offset; cbn [find_sub].
  - case_bool_decide as Hp; [|done]. intros [= <-]. by apply Htake.
  - case_bool_decide as Hp; [intros [= <-]; by apply Htake|].
    destruct (find_sub pattern text) as [o|]; [|done]. intros [= <-].
    specialize (IH o eq_refl). simpl. lia.
Qed.

Lemma min_by_index_in candidates best :
  min_by_index candidates = Some best → best ∈ candidates.
Proof.
  revert best. induction candidates as [|c l IH]; intros best; simpl; [done|].
  destruct (min_by_index l) as [b|]; intros [= <-]; [|left].
  destruct (c.1 <=? b.1)%nat; [left|right; by apply IH].
Qed.

(** A pattern is found at or after the cursor, within the text. *)
Lemma next_pattern_bound patterns passes text cursor start pattern :
  cursor ≤ length text → next_pattern patterns passes text cursor = Some (start, pattern) →
  pattern ∈ patterns ∧ cursor ≤ start ∧ start + length pattern ≤ length text.
Proof.
  intros Hc Hn. apply min_by_index_in in Hn. unfold next_pattern in Hn.
  apply list_elem_of_In, filter_In, proj1, list_elem_of_In in Hn.
  apply list_elem_of_omap in Hn as (p & Hp & Hfound).
  destruct (find_sub p (drop cursor text)) as [offset|] eqn:Hf; [|done].
  injection Hfound as <- <-. apply find_sub_bound in Hf. rewrite length_drop in Hf. split_and!; [done|lia..].
Qed.

Lemma find_char_bound p text index : find_char p text = Some index → index < length text.
Proof.
  revert index. induction text as [|c text IH]; intros index; simpl; [done|].
  destruct (p c); [intros [= <-]; lia|].
  destruct (find_char p text) as [i|]; [|done]. intros [= <-]. specialize (IH i eq_refl). lia.
Qed.

Lemma secret_end_bound text start :
  start ≤ length text → start ≤ secret_end text start ∧ secret_end text start ≤ length text.
Proof.
  intros Hs. unfold secret_end. destruct (find_char _ _) as [i|] eqn:Hf; [|lia].
  apply find_char_bound in Hf. rewrite length_drop in Hf. lia.
Qed.

Lemma count_spacing_bound text : count_spacing text ≤ length text.
Proof. induction text as [|c text IH]; simpl; [done|]. case_match; simpl; lia. Qed.

Lemma is_bearer_bound text : is_bearer text = true → 7 ≤ length text.
Proof.
  intros Hb%bool_decide_eq_true. apply (f_equal length) in Hb.
  rewrite length_fmap, length_take in Hb. change (length (bytes "bearer ")) with 7 in Hb. lia.
Qed.

Lemma patterns_nonempty pattern : pattern ∈ MARKERS ++ PREFIXES → 0 < length pattern.
Proof.
  intros Hin. assert (forallb (λ p, 0 <? length p)%nat (MARKERS ++ PREFIXES) = true) as Hall
    by done.
  rewrite forallb_forall in Hall. apply list_elem_of_In, Hall, Nat.ltb_lt in Hin. done.
Qed.

Lemma redact_prefixes_total fuel text cursor output :
  cursor ≤ length text → length text - cursor < fuel →
  is_Some (redact_prefixes fuel text cursor output).
Proof.
  revert cursor output. induction fuel as [|fuel IH]; intros cursor output Hc Hf; [lia|].
  cbn [redact_prefixes]. destruct (Nat.ltb_spec cursor (length text)); [|by eexists].
  destruct (next_pattern PREFIXES _ text cursor) as [[start prefix]|] eqn:Hn; [|by eexists].
  apply next_pattern_bound in Hn as (Hp & Hs & He); [|done].
  pose proof (patterns_nonempty prefix ltac:(apply elem_of_app; by right)).
  pose proof (secret_end_bound text (start + length prefix) He). apply IH; lia.
Qed.

Lemma redact_markers_total fuel text lower cursor output :
  length lower = length text → cursor ≤ length text → length text - cursor < fuel →
  is_Some (redact_markers fuel text lower cursor output).
Proof.
  intros Hl. revert cursor output.
  induction fuel as [|fuel IH]; intros cursor output Hc Hf; [lia|].
  cbn [redact_markers]. destruct (Nat.ltb_spec cursor (length text)); [|by eexists].
  destruct (next_pattern MARKERS _ lower cursor) as [[start marker]|] eqn:Hn; [|by eexists].
  apply next_pattern_bound in Hn as (Hp & Hs & He); [|lia]. rewrite Hl in He.
  pose proof (patterns_nonempty marker ltac:(apply elem_of_app; by left)).
  destruct (find_char _ (drop (start + length marker) text)) as [sep|] eqn:Hsep; [|apply IH; lia].
  apply find_char_bound in Hsep. rewrite length_drop in Hsep.
  set (separator_end := start + length marker + sep + 1).
  pose proof (count_spacing_bound (drop separator_end text)) as Hsp. rewrite length_drop in Hsp.
  set (spacing_end := separator_end + count_spacing (drop separator_end text)).
  set (secret_start := if is_bearer (drop spacing_end text) then spacing_end + 7 else spacing_end).
  assert (spacing_end ≤ secret_start ∧ secret_start ≤ length text) as [Hlow Hhigh].
  { subst secret_start. destruct (is_bearer _) eqn:Hb; [|lia].
    apply is_bearer_bound in Hb. rewrite length_drop in Hb. lia. }
  pose proof (secret_end_bound text secret_start Hhigh). apply IH; lia.
Qed.

(** ** What a diagnostic contains *)

(** A character that may be shown. *)
Definition printable (c : N) : bool := is_scalar c && negb (is_control c).

Definition shown (text : list N) : Prop := Forall (λ c, printable c = true) text.

Lemma shown_app l1 l2 : shown (l1 ++ l2) ↔ shown l1 ∧ shown l2.
Proof. apply Forall_app. Qed.
Lemma shown_take n l : shown l → shown (take n l).
Proof. apply Forall_take. Qed.
Lemma shown_drop n l : shown l → shown (drop n l).
Proof. apply Forall_drop. Qed.
Lemma shown_slice low high l : shown l → shown (slice low high l).
Proof. intros H. by apply shown_take, shown_drop. Qed.
Lemma shown_check l : forallb printable l = true → shown l.
Proof.
  intros H. rewrite forallb_forall in H. apply Forall_forall. intros c Hc.
  by apply H, list_elem_of_In.
Qed.
Lemma shown_redacted : shown REDACTED_TEXT.
Proof. by apply shown_check. Qed.
Lemma shown_scalar l : shown l → Forall (λ c, is_scalar c = true) l.
Proof. intros H. eapply Forall_impl; [exact H|]. intros c. unfold printable. by intros [? _]%andb_true_iff. Qed.

#[local] Hint Resolve shown_take shown_drop shown_slice shown_redacted : shown.
#[local] Hint Extern 1 (shown (_ ++ _)) => apply shown_app; split : shown.

Lemma sanitize_shown cs : Forall (λ c, is_scalar c = true) cs → shown (sanitize_reason cs).
Proof.
  unfold sanitize_reason. generalize PlainText. intros state Hs. revert state.
  induction Hs as [|c cs Hc Hcs IH]; intros state; [constructor|]. cbn [sanitize_chars].
  destruct state; [|by case_match|by case_match].
  destruct (c =? 27)%N; [done|]. destruct (is_control c) eqn:Hctl.
  - case_match; [|done]. constructor; [done|apply IH].
  - constructor; [|apply IH]. unfold printable. by rewrite Hc, Hctl.
Qed.

Lemma redact_prefixes_shown fuel text cursor output out :
  shown text → shown output → redact_prefixes fuel text cursor output = Some out → shown out.
Proof.
  intros Ht. revert cursor output.
  induction fuel as [|fuel IH]; intros cursor output Ho; cbn [redact_prefixes]; [done|].
  repeat case_match; intros Hr; simplify_eq; auto with shown.
  eapply IH, Hr. auto with shown.
Qed.

Lemma redact_markers_shown fuel text lower cursor output out :
  shown text → shown output → redact_markers fuel text lower cursor output = Some out → shown out.
Proof.
  intros Ht. revert cursor output.
  induction fuel as [|fuel IH]; intros cursor output Ho; cbn [redact_markers]; [done|].
  destruct (cursor <? length text)%nat; [|by intros [= <-]].
  destruct (next_pattern _ _ _ _) as [[start marker]|]; [|intros [= <-]; auto with shown].
  destruct (find_char _ _) as [sep|]; intros Hr; (eapply IH, Hr; auto 6 with shown).
Qed.

Lemma redact_sensitive_shown text : shown text → shown (redact_sensitive_text text).
Proof.
  intros Ht. unfold redact_sensitive_text, redact_secret_prefixes.
  destruct (redact_markers_total (S (length text)) text (to_ascii_lowercase <$> text) 0 [])
    as [out Hout]; [by rewrite length_fmap|lia..|]. rewrite Hout. change (default [] (Some out)) with out.
  apply redact_markers_shown in Hout; [|done|constructor].
  destruct (redact_prefixes_total (S (length out)) out 0 []) as [out' Hout']; [lia..|].
  rewrite Hout'. by eapply redact_prefixes_shown, Hout'; [|constructor].
Qed.

Lemma truncate_shown text : shown text → shown (truncate_reason text).
Proof.
  intros Ht. unfold truncate_reason. case_match; [done|]. apply shown_app.
  split; [|by apply shown_check].
  destruct (floor_chars_prefix (MAX_PROVIDER_ERROR_REASON_BYTES - length TRUNCATED) text) as [r Hr].
  rewrite Hr in Ht. by apply shown_app in Ht as [? _].
Qed.

Lemma truncate_len text : chars_len (truncate_reason text) ≤ MAX_PROVIDER_ERROR_REASON_BYTES.
Proof.
  unfold truncate_reason. case_match eqn:Hl; [by apply Nat.leb_le|]. rewrite chars_len_app.
  pose proof (floor_chars_len (MAX_PROVIDER_ERROR_REASON_BYTES - length TRUNCATED) text) as Hf.
  change (chars_len TRUNCATED) with 15. change (length TRUNCATED) with 15 in *.
  unfold MAX_PROVIDER_ERROR_REASON_BYTES in *. lia.
Qed.

(** A diagnostic of at most [n] bytes that may be shown. *)
Definition diagnostic (n : nat) (message : string) : Prop :=
  ∃ cs, message = string_of_chars cs ∧ shown cs ∧ 0 < chars_len cs ≤ n.

Lemma diagnostic_app n m a b :
  diagnostic n a → diagnostic m b → diagnostic (n + m) (a ++ b).
Proof.
  intros (c1 & -> & H1 & ? & ?) (c2 & -> & H2 & ? & ?). exists (c1 ++ c2).
  rewrite string_of_chars_app, chars_len_app. split_and!; [done|by apply shown_app|lia..].
Qed.

Lemma diagnostic_ascii s :
  forallb (λ b, printable b && (b <? 128)%N) (bytes s) = true → s ≠ ""%string →
  diagnostic (String.length s) s.
Proof.
  intros Hb Hne. rewrite forallb_forall in Hb.
  assert (encode_chars (bytes s) = bytes s) as Henc.
  { apply encode_chars_ascii, forallb_forall. intros b Hin. by apply Hb, andb_true_iff in Hin as [_ ?]. }
  exists (bytes s). unfold string_of_chars, chars_len. rewrite Henc, string_of_bytes_bytes, length_bytes.
  split_and!; [done| |by destruct s; simpl; [|lia]|done].
  apply shown_check, forallb_forall. intros b Hin. by apply Hb, andb_true_iff in Hin as [? _].
Qed.

Lemma diagnostic_weaken n m s : n ≤ m → diagnostic n s → diagnostic m s.
Proof. intros Hle (cs & -> & Hs & ? & ?). exists cs. split_and!; [done..|lia]. Qed.

Lemma decimal_diagnostic n : diagnostic 20 (show_decimal n).
Proof.
  assert (∀ fuel m, length (decimal_digits fuel m) ≤ fuel) as Hlen.
  { induction fuel as [|fuel IH]; intros m; simpl; [done|]. rewrite length_app. simpl.
    case_match; simpl; [lia|]. specialize (IH (m / 10)%N). lia. }
  eapply diagnostic_weaken, diagnostic_ascii.
  - rewrite <- length_bytes, bytes_of_decimal. apply Hlen.
  - rewrite bytes_of_decimal. apply forallb_forall. intros b Hb.
    pose proof (decimal_digits_all 20 n) as Hall. rewrite forallb_forall in Hall.
    specialize (Hall b Hb). unfold is_ascii_digit in Hall. unfold printable, is_control. range_lia.
  - intros Hempty. apply (decimal_nonempty n). by rewrite <- bytes_of_decimal, Hempty.
Qed.

Section normalized.
Context `{Codec}.

Lemma normalized_reason text :
  Forall (λ c, is_scalar c = true) text →
  diagnostic 1024 (show_reason (truncate_reason (redact_sensitive_text (sanitize_reason text)))).
Proof.
  intros Hs. pose proof (truncate_len (redact_sensitive_text (sanitize_reason text))) as Hlen.
  pose proof (truncate_shown _ (redact_sensitive_shown _ (sanitize_shown _ Hs))) as Hshown.
  destruct (truncate_reason _) as [|c cs].
  - eapply diagnostic_weaken; [|by apply diagnostic_ascii]. simpl. lia.
  - exists (c :: cs). split_and!; [done..| |done]. rewrite chars_len_cons. unfold char_len, encode_char.
    repeat case_match; simpl; lia.
Qed.

(** The normalized diagnostic is short, not empty and has no control character,
    whatever the provider sent. *)
Lemma normalize_diagnostic status body :
  diagnostic 1056 (normalize_provider_error status body).
Proof.
  unfold normalize_provider_error.
  set (reason := show_reason _).
  assert (diagnostic 1024 reason) as Hreason by apply normalized_reason, utf8_chars_scalar.
  destruct status as [status|]; [|by eapply diagnostic_weaken, Hreason; lia].
  change 1056 with (5 + (20 + (2 + 1029))).
  apply diagnostic_app; [by apply diagnostic_ascii|].
  apply diagnostic_app; [apply decimal_diagnostic|].
  apply diagnostic_app; [by apply diagnostic_ascii|]. eapply diagnostic_weaken, Hreason. lia.
Qed.
End normalized.

(** A diagnostic is a valid failure message. *)
Lemma diagnostic_bounded n m s :
  diagnostic n s → (N.of_nat n <= m)%N → bounded_text s m = true.
Proof.
  intros (cs & -> & Hs & Hlow & Hhigh) Hm. pose proof (shown_scalar _ Hs) as Hscalar.
  unfold bounded_text. rewrite str_len_string_of_chars, contains_nul_string_of_chars by done.
  assert (existsb (λ c, (c =? 0)%N) cs = false) as ->.
  { apply not_true_iff_false. intros (c & Hin & Hc%N.eqb_eq)%existsb_exists. subst c.
    apply list_elem_of_In in Hin. by apply (proj1 (Forall_forall _ _) Hs) in Hin. }
  rewrite andb_true_r. apply andb_true_iff. split; [apply N.ltb_lt|apply N.leb_le]; lia.
Qed.

(** ** Secrets that stay

    Only the first occurrence of each marker or prefix after the cursor is
    considered: one inside a word hides the later ones. *)

Lemma marker_in_word_hides_secret :
  redact_sensitive_text (bytes "tokenizer failed: token=abc123") = bytes "tokenizer failed: token=abc123"
  ∧ redact_sensitive_text (bytes "request failed: token=abc123") = bytes "request failed: token=[redacted]".
Proof. split; by vm_compute. Qed.

Lemma prefix_in_word_hides_secret :
  redact_sensitive_text (bytes "task-7 used sk-abc123") = bytes "task-7 used sk-abc123"
  ∧ redact_sensitive_text (bytes "job 7 used sk-abc123") = bytes "job 7 used [redacted]".
Proof. split; by vm_compute. Qed.
