(* ===== verification/ProviderStream.v ===== *)
(** * Provider streams

    What the providers of [crates/tea-provider-openai/src] and
    [crates/tea-provider-anthropic/src] have in common: accessors of JSON values,
    methods that map payloads to events, and the generator of [stream]
    ([provider.rs]) that relays those events.  A reducer is any state. *)

From S2P Require Import Prelude Protocol Utf8 Sse Tools Validation Usage ModelSpec Event.
From S2P Require Import KernelBase ModelStream.
Local Open Scope tea_scope.

(** [serde_json::to_string] of a value, which does not fail. *)
Class JsonText : Type := { json_text : Value → string }.

(** [ModelFailure::new(..).unwrap_or_else(|_| internal_adapter_failure())]. *)
Definition failure_or_internal {E} (failure : Result E ModelFailure) : ModelFailure :=
  match failure with Ok failure => failure | Err _ => internal_adapter_failure end.

(** ** JSON accessors *)

Definition json_as_u64 (v : Value) : option N :=
  match v with JNumber (PosInt n) => Some n | _ => None end.
Definition json_as_array (v : Value) : option (list Value) :=
  match v with JArray values => Some values | _ => None end.
Definition json_as_bool (v : Value) : option bool :=
  match v with JBool b => Some b | _ => None end.
Definition json_is_null (v : Value) : bool := match v with JNull => true | _ => false end.

Definition get_str (v : Value) (key : string) : option string := json_get v key ≫= json_as_str.
Definition get_u64 (v : Value) (key : string) : option N := json_get v key ≫= json_as_u64.
Definition get_bool (v : Value) (key : string) : option bool := json_get v key ≫= json_as_bool.
Definition get_array (v : Value) (key : string) : option (list Value) :=
  json_get v key ≫= json_as_array.

Definition response_info_new : ModelResponseInfo := mk_ModelResponseInfo None None ∅.

(** [u64::checked_sub]. *)
Definition checked_sub (a b : N) : option N := if (b <=? a)%N then Some (a - b)%N else None.

(** [TokenCount::new(n).ok()]. *)
Definition token_of (n : N) : option TokenCount :=
  match token_count_new n with Ok t => Some t | Err _ => None end.

(** [ModelCompletion::with_usage], when there is a usage. *)
Definition with_usage (completion : ModelCompletion) (usage : option Usage) : ModelCompletion :=
  match usage with
  | Some usage =>
      mk_ModelCompletion (mcp_stop_reason completion) (Some usage) (mcp_cost completion)
        (mcp_metadata completion)
  | None => completion
  end.

(** ** Mapping methods

    A mapping method works on the reducer and the events it pushes. *)

Definition MappingOf (E R A : Type) : Type := ST (R * list ModelEvent) E A.

Section mapping.
Context {E R : Type}.

Definition push (event : ModelEvent) : MappingOf E R unit := st_modify (λ s, (s.1, s.2 ++ [event])).
Definition push_all (events : list ModelEvent) : MappingOf E R unit :=
  st_modify (λ s, (s.1, s.2 ++ events)).
Definition update (f : R → R) : MappingOf E R unit := st_modify (λ s, (f s.1, s.2)).
Definition reading {A} (f : R → A) : MappingOf E R A := st_gets (λ s, f s.1).

(** A mapping method of a whole chunk: the events pushed before an error are
    dropped with it. *)
Definition mapped (m : MappingOf E R unit) : ST R E (list ModelEvent) :=
  λ r, let '(result, (r, events)) := m (r, []) in
       (match result with Ok _ => Ok events | Err e => Err e end, r).

End mapping.

(** ** The exchange *)

(** What the body of a response yields next: bytes, an error of the transport
    (with whether it was a timeout or of the connection or request), or the
    cancellation of the request. *)
Inductive BodyChunk : Set :=
| BodyBytes (chunk : list N)
| BodyError (transport : bool)
| BodyCancelled.

(** The outcome of sending a request. *)
Inductive Exchange : Set :=
| ExchangeCancelled
| ExchangeFailed (transport : bool)
| ExchangeError (status : N) (retry_after : option Duration) (body : list (option (list N)))
| ExchangeOk (body : list BodyChunk).

Definition with_retry_after (failure : ModelFailure) (retry_after : option Duration)
    : ModelFailure :=
  match retry_after with
  | Some delay =>
      mk_ModelFailure (mf_code failure) (mf_message failure) (mf_retry failure) (Some delay)
        (mf_metadata failure) (mf_safe_diagnostic failure)
  | None => failure
  end.

Definition cancelled_failure : ModelFailure :=
  failure_or_internal
    (model_failure_new FailCancelled "model request was cancelled" RetryClassNever).

Definition failed_events (failure : ModelFailure) : list ModelEvent :=
  [ModelStarted response_info_new; ModelFailed failure].

(** ** The generator *)

Section generator.
Context {State : Type}.

(** The variables of the generator and what it has yielded. *)
Record StreamState : Type := mk_StreamState {
  ss_parser : SseParser;
  ss_reducer : State;
  ss_started_emitted : bool;
  ss_pending_completion : option ModelCompletion;
  ss_yielded : list ModelEvent
}.

Definition stream_state_new (new : State) : StreamState :=
  mk_StreamState sse_parser_new new false None [].

(** A throw is the [return] of the generator. *)
Definition Streaming (A : Type) : Type := ST StreamState unit A.

Definition stream_yield (event : ModelEvent) : Streaming unit :=
  st_modify (λ s, mk_StreamState (ss_parser s) (ss_reducer s) (ss_started_emitted s)
                    (ss_pending_completion s) (ss_yielded s ++ [event])).
Definition mark_started : Streaming unit :=
  st_modify (λ s, mk_StreamState (ss_parser s) (ss_reducer s) true
                    (ss_pending_completion s) (ss_yielded s)).
Definition set_pending (completion : ModelCompletion) : Streaming unit :=
  st_modify (λ s, mk_StreamState (ss_parser s) (ss_reducer s) (ss_started_emitted s)
                    (Some completion) (ss_yielded s)).
Definition set_parser (parser : SseParser) : Streaming unit :=
  st_modify (λ s, mk_StreamState parser (ss_reducer s) (ss_started_emitted s)
                    (ss_pending_completion s) (ss_yielded s)).

(** [if !started_emitted { yield Started(..) }], then the last event. *)
Definition end_stream {A} (event : ModelEvent) : Streaming A :=
  let! started := st_gets ss_started_emitted in
  do! (if started then st_ret tt else stream_yield (ModelStarted response_info_new)) in
  do! stream_yield event in
  st_throw tt.
Definition fail_stream {A} (failure : ModelFailure) : Streaming A := end_stream (ModelFailed failure).

(** A method of the reducer. *)
Definition on_reducer {E A} (m : ST State E A) : Streaming (Result E A) :=
  λ s, let '(r, reducer) := m (ss_reducer s) in
       (Ok r, mk_StreamState (ss_parser s) reducer (ss_started_emitted s)
                (ss_pending_completion s) (ss_yielded s)).

(** One event of the reducer: a completion is kept until the stream ends. *)
Definition relay (event : ModelEvent) : Streaming unit :=
  match event with
  | ModelStarted info => do! mark_started in stream_yield (ModelStarted info)
  | ModelCompleted completion => set_pending completion
  | ModelFailed failure => fail_stream failure
  | event => stream_yield event
  end.

(** What the reducer made of one payload. *)
Definition relay_result {E} (failure : E → ModelFailure) (result : Result E (list ModelEvent))
    : Streaming unit :=
  match result with
  | Ok events => st_for events relay
  | Err error => fail_stream (failure error)
  end.

(** The end of the stream. *)
Definition complete_stream : Streaming unit :=
  let! pending := st_gets ss_pending_completion in
  match pending with
  | Some completion => end_stream (ModelCompleted completion)
  | None => st_ret tt
  end.

End generator.
Arguments StreamState : clear implicits.
Arguments Streaming : clear implicits.
