(* ===== verification/ProviderStreamLogic.v ===== *)
(** * Provider streams: their program logic

    When the events of a reducer are one stream, what the generator of a provider
    yields is that stream ([streams]); and how the methods of a reducer keep an
    invariant of the events mapped so far ([maps], [preserves]). *)

From S2P Require Import Prelude Protocol Utf8 Sse Tools Validation Usage ModelSpec Event.
From S2P Require Import KernelBase ModelStream ProviderStream.
Local Open Scope tea_scope.

(** A stream that has not ended. *)
Definition unfinished (out : list ModelEvent) : Prop :=
  out = [] ∨ ∃ info body, out = ModelStarted info :: body ∧ body_ok body.

(** ** Streams, event by event *)

Lemma unfinished_not_grammatical out : unfinished out → ¬ grammatical out.
Proof.
  intros Hu (info & body & terminal & Heq & Hok & Ht).
  destruct Hu as [->|(info' & body' & -> & Hok')]; simplify_eq/=.
  rewrite body_ok_snoc in Hok'. by destruct terminal, Hok'.
Qed.

Lemma unfinished_start info : unfinished [ModelStarted info].
Proof. right. exists info, []. split; [done|apply body_ok_nil]. Qed.

Lemma body_event body event rest :
  body_ok (body ++ event :: rest) → event_allowed body event ∧ body_ok (body ++ [event]).
Proof.
  intros Hok. split; [by apply (Hok body event rest)|].
  apply (body_ok_prefix _ rest). by rewrite <- app_assoc.
Qed.

(** What is left of a stream that began with a start and a body. *)
Lemma stream_rest info body event rest :
  unfinished (ModelStarted info :: body ++ event :: rest)
    ∨ grammatical (ModelStarted info :: body ++ event :: rest) →
  body_ok (body ++ event :: rest)
    ∨ (rest = [] ∧ grammatical (ModelStarted info :: body ++ [event]))
    ∨ ∃ more terminal, rest = more ++ [terminal] ∧ body_ok (body ++ event :: more).
Proof.
  intros [[|(i & b & Heq & Hok)]|(i & b & t & Heq & Hok & Ht)]; [done| |]; injection Heq as <- Hb.
  { left. by rewrite Hb. }
  right. destruct rest as [|t' rest _] using rev_ind.
  - left. split; [done|]. apply app_inj_tail in Hb as [-> ->]. by exists info, b, t.
  - right. exists rest, t'. split; [done|].
    rewrite app_comm_cons, app_assoc in Hb. apply app_inj_tail in Hb as [Hb ->]. by rewrite Hb.
Qed.

(** An event after an unfinished stream. *)
Lemma stream_event out event rest :
  unfinished out → unfinished (out ++ event :: rest) ∨ grammatical (out ++ event :: rest) →
  match event with
  | ModelStarted _ => out = [] ∧ unfinished (out ++ [event])
  | ModelCompleted _ | ModelFailed _ => rest = [] ∧ grammatical (out ++ [event])
  | _ => out ≠ [] ∧ unfinished (out ++ [event])
  end.
Proof.
  intros [->|(info & body & -> & Hbody)] Hs.
  { assert (∃ info, event = ModelStarted info) as [info ->].
    { destruct Hs as [[|(i & b & Heq & _)]|(i & b & t & Heq & _)]; [done| |];
        injection Heq as ->; by eexists. }
    split; [done|apply unfinished_start]. }
  simpl in *. apply stream_rest in Hs.
  assert (event_allowed body event ∧ body_ok (body ++ [event])
          ∨ rest = [] ∧ grammatical (ModelStarted info :: body ++ [event])) as Hcases.
  { destruct Hs as [Hok|[Hend|(more & t & -> & Hok)]]; [left|by right|left]; by eapply body_event. }
  destruct Hcases as [[Hallowed Hok]|[-> Hend]].
  - destruct event; try done; (split; [done|right; eexists _, _; split; [reflexivity|exact Hok]]).
  - destruct (id Hend) as (i & b & t & Heq & _ & Ht). injection Heq as <- Heq.
    apply app_inj_tail in Heq as [-> ->]. by destruct t.
Qed.

Lemma grammatical_ends out event rest :
  grammatical out → ¬ (unfinished (out ++ event :: rest) ∨ grammatical (out ++ event :: rest)).
Proof.
  intros (info & body & t & -> & Hok & Ht) Hs. rewrite app_comm_cons, <- app_assoc in Hs.
  simpl in Hs. apply stream_rest in Hs.
  assert (event_allowed body t) as Hallowed.
  { destruct Hs as [Hb|[[? _]|(more & t' & _ & Hb)]]; [by eapply body_event|done|by eapply body_event]. }
  by destruct t.
Qed.

Lemma failed_grammatical out failure :
  unfinished out → out ≠ [] → grammatical (out ++ [ModelFailed failure]).
Proof. intros [|(info & body & -> & Hok)] Hne; [done|]. by exists info, body, (ModelFailed failure). Qed.

Lemma failed_events_grammatical failure : grammatical (failed_events failure).
Proof. exists response_info_new, [], (ModelFailed failure). split_and!; [done|apply body_ok_nil|done]. Qed.

(** ** The generator *)

Section generator.
Context {State : Type}.

(** What the generator has yielded of the events [out] of its reducer. *)
Record relayed (out : list ModelEvent) (s : StreamState State) : Prop := mk_relayed {
  ry_started : ss_started_emitted s = negb (is_empty (ss_yielded s));
  ry_unfinished : unfinished (ss_yielded s);
  ry_pending : match ss_pending_completion s with
               | None => out = ss_yielded s
               | Some c => out = ss_yielded s ++ [ModelCompleted c] ∧ grammatical out
               end
}.

(** A computation of the generator: its result is [Q], or it has returned a
    whole stream. *)
Definition streams {A} (P : StreamState State → Prop) (m : Streaming State A)
    (Q : A → StreamState State → Prop) : Prop :=
  ∀ s, P s → match m s with
             | (Ok a, s') => Q a s'
             | (Err _, s') => grammatical (ss_yielded s')
             end.

Lemma streams_bind {A B} P (m : Streaming State A) Q (k : A → Streaming State B) T :
  streams P m Q → (∀ a, streams (Q a) (k a) T) → streams P (st_bind m k) T.
Proof.
  intros Hm Hk s Hs. unfold st_bind. specialize (Hm s Hs).
  destruct (m s) as [[a|[]] s']; [|done]. by apply Hk.
Qed.

Lemma streams_ret {A} (a : A) P (Q : A → _) : (∀ s, P s → Q a s) → streams P (st_ret a) Q.
Proof. intros HPQ s Hs. by apply HPQ. Qed.

Lemma streams_weaken {A} (P P' : StreamState State → Prop) (m : Streaming State A) Q Q' :
  streams P' m Q' → (∀ s, P s → P' s) → (∀ a s, Q' a s → Q a s) → streams P m Q.
Proof.
  intros Hm HP HQ s Hs. specialize (Hm s (HP s Hs)). destruct (m s) as [[a|[]] s']; auto.
Qed.

Lemma fail_stream_streams {A} out failure Q :
  streams (relayed out) (fail_stream (A := A) failure) Q.
Proof.
  intros s [Hst Hu Hp]. unfold fail_stream, end_stream, st_bind, st_gets. simpl.
  destruct (ss_yielded s) as [|e l] eqn:Hy; rewrite Hst; simpl; rewrite ?Hy; simpl.
  - apply failed_events_grammatical.
  - by apply (failed_grammatical (e :: l)).
Qed.

(** As long as more events come, nothing is pending. *)
Lemma relayed_open out event rest s :
  relayed out s → unfinished (out ++ event :: rest) ∨ grammatical (out ++ event :: rest) →
  ss_pending_completion s = None ∧ out = ss_yielded s ∧ unfinished out.
Proof.
  intros [_ Hu Hp] Hs. destruct (ss_pending_completion s) as [c|]; [|by subst].
  destruct Hp as [_ Hg]. by apply (grammatical_ends _ _ _ Hg) in Hs.
Qed.

Lemma relay_streams out event rest :
  unfinished (out ++ event :: rest) ∨ grammatical (out ++ event :: rest) →
  streams (relayed out) (relay event) (λ _, relayed (out ++ [event])).
Proof.
  intros Hs s Hr. destruct (relayed_open _ _ _ _ Hr Hs) as (Hp & Hout & Hu).
  apply (stream_event _ _ _ Hu) in Hs.
  assert (∀ started, started = true → unfinished (out ++ [event]) →
    relayed (out ++ [event])
      (mk_StreamState (ss_parser s) (ss_reducer s) started (ss_pending_completion s)
         (ss_yielded s ++ [event]))) as Hyield.
  { intros started -> Hn. rewrite Hout in *. split; simpl; [by destruct (ss_yielded s)|done|].
    by rewrite Hp. }
  pose proof (ry_started _ _ Hr) as Hst. rewrite <- Hout in Hst.
  destruct event; try (destruct Hs as [Hne Hn]; apply Hyield; [|done];
    rewrite Hst; by destruct out).
  - apply Hyield; [done|apply Hs].
  - destruct Hs as [_ Hg]. split; simpl; rewrite <- Hout; [done..|]. by split.
  - by apply (fail_stream_streams out).
Qed.

Lemma relay_all_streams events out :
  unfinished (out ++ events) ∨ grammatical (out ++ events) →
  streams (relayed out) (st_for events (relay)) (λ _, relayed (out ++ events)).
Proof.
  revert out. induction events as [|event events IH]; intros out Hs; simpl.
  { apply streams_ret. intros s. by rewrite app_nil_r. }
  eapply streams_bind; [by eapply relay_streams|]. intros [].
  rewrite (cons_middle event), app_assoc in Hs.
  eapply streams_weaken; [by apply IH|done|]. intros [] s. by rewrite <- app_assoc.
Qed.

Lemma relay_keeps event : keeps (ss_reducer (State := State)) (relay event).
Proof.
  unfold relay, fail_stream, end_stream, stream_yield, mark_started, set_pending.
  destruct event; solve_keeps.
Qed.

(** Only the parser and the reducer differ. *)
Lemma relayed_same out s parser reducer :
  relayed out s →
  relayed out (mk_StreamState parser reducer (ss_started_emitted s)
                 (ss_pending_completion s) (ss_yielded s)).
Proof. by intros []. Qed.

(** The state between two payloads: the reducer has made what was relayed. *)
Definition relaying (I : list ModelEvent → State → Prop) (s : StreamState State) : Prop :=
  ∃ out, relayed out s ∧ I out (ss_reducer s).

(** What was relayed is a whole stream. *)
Notation in_end := (relaying (λ out _, grammatical out)).

Lemma fail_relaying {A} I failure Q : streams (relaying I) (fail_stream (A := A) failure) Q.
Proof. intros s (out & Hr & _). by apply (fail_stream_streams out). Qed.

Lemma set_parser_relaying I parser : streams (relaying I) (set_parser parser) (λ _, relaying I).
Proof. intros s (out & Hr & Hinv). exists out. split; [by apply relayed_same|done]. Qed.

(** The events of one method of the reducer are relayed. *)
Lemma relay_reducer_streams {E} (failure : E → ModelFailure) (m : ST State E (list ModelEvent))
    (I I' : list ModelEvent → State → Prop) :
  (∀ out r events r', I out r → m r = (Ok events, r') → I' (out ++ events) r') →
  (∀ out r, I' out r → unfinished out ∨ grammatical out) →
  streams (relaying I) (st_bind (on_reducer m) (relay_result failure)) (λ _, relaying I').
Proof.
  intros Hm HI' s (out & Hr & Hinv). unfold st_bind, on_reducer.
  destruct (m (ss_reducer s)) as [[events|e] r'] eqn:Hchunk;
    [|by apply (fail_stream_streams out), relayed_same].
  pose proof (Hm _ _ _ _ Hinv Hchunk) as Hinv'. simpl.
  set (s1 := mk_StreamState _ r' _ _ _).
  pose proof (relay_all_streams events out (HI' _ _ Hinv') s1 (relayed_same _ _ _ _ Hr)) as Hall.
  pose proof (keeps_for ss_reducer events relay relay_keeps s1) as Hkeep.
  destruct (st_for events relay s1) as [[[]|[]] s']; [|done].
  exists (out ++ events). split; [done|]. simpl in Hkeep. by rewrite Hkeep.
Qed.

(** A whole stream was relayed, so its completion is pending. *)
Lemma complete_stream_grammatical s :
  in_end s → grammatical (ss_yielded (complete_stream s).2).
Proof.
  intros (out & [Hst Hu Hp] & Hg). unfold complete_stream, st_bind, st_gets.
  destruct (ss_pending_completion s) as [c|] eqn:Hc.
  - destruct Hp as [-> _]. unfold end_stream, st_bind, st_gets. rewrite Hst.
    destruct (ss_yielded s) as [|e l] eqn:Hy; simpl; rewrite Hy; simpl; [|done].
    by destruct Hg as (? & ? & ? & ? & _).
  - subst. by apply unfinished_not_grammatical in Hu.
Qed.

(** A computation of the generator that ends it. *)
Lemma streams_end {A} P (m : Streaming State A) Q (k : A → Streaming State unit) s :
  streams P m Q → P s → (∀ a s', Q a s' → grammatical (ss_yielded (k a s').2)) →
  grammatical (ss_yielded (st_bind m k s).2).
Proof.
  intros Hm Hs Hk. unfold st_bind. specialize (Hm s Hs).
  destruct (m s) as [[a|[]] s']; [by apply Hk|done].
Qed.
End generator.
Notation in_end := (relaying (λ out _, grammatical out)).


(** ** Mapping methods *)

Section mapping_logic.
Context {E R : Type}.

(** The events mapped so far and the state, before and after a method. *)
Definition maps {A} (P : list ModelEvent → R → Prop) (m : MappingOf E R A)
    (Q : A → list ModelEvent → R → Prop) : Prop :=
  ∀ out s a s', P (out ++ s.2) s.1 → m s = (Ok a, s') → Q a (out ++ s'.2) s'.1.

Definition preserves {A} (I : list ModelEvent → R → Prop) (m : MappingOf E R A) : Prop :=
  maps I m (λ _, I).

Lemma maps_bind {A B} P (m : MappingOf E R A) Q (k : A → MappingOf E R B) T :
  maps P m Q → (∀ a, maps (Q a) (k a) T) → maps P (st_bind m k) T.
Proof. intros Hm Hk out s b s' Hs Hb. st_inv. eapply Hk; [|done]. by eapply Hm. Qed.

Lemma maps_ret {A} (a : A) P (Q : A → _) : (∀ l r, P l r → Q a l r) → maps P (st_ret a) Q.
Proof. intros HPQ out s b s' Hs Hb. st_inv. by apply HPQ. Qed.

Lemma maps_lift {A} (m : Result E A) P (Q : A → _) :
  (∀ a l r, m = Ok a → P l r → Q a l r) → maps P (st_lift m) Q.
Proof. intros HPQ out s b s' Hs Hb. st_inv. by apply HPQ. Qed.

Lemma maps_ensure (b : bool) e P (Q : unit → _) :
  (∀ l r, b = true → P l r → Q tt l r) → maps P (st_ensure b e) Q.
Proof. intros HPQ out s [] s' Hs Hb. st_inv. by apply HPQ. Qed.

Lemma maps_reading {A} (f : R → A) P (Q : A → _) :
  (∀ l r, P l r → Q (f r) l r) → maps P (reading f) Q.
Proof. intros HPQ out s b s' Hs Hb. unfold reading in Hb. st_inv. by apply HPQ. Qed.

Lemma maps_update f P (Q : unit → _) :
  (∀ l r, P l r → Q tt l (f r)) → maps P (update f) Q.
Proof. intros HPQ out s [] s' Hs Hb. unfold update in Hb. st_inv. by apply HPQ. Qed.

Lemma maps_push event P (Q : unit → _) :
  (∀ l r, P l r → Q tt (l ++ [event]) r) → maps P (push event) Q.
Proof.
  intros HPQ out s [] s' Hs Hb. unfold push in Hb. st_inv. simpl. rewrite (assoc_L (++)). by apply HPQ.
Qed.

Lemma preserves_bind {A B} I (m : MappingOf E R A) (k : A → MappingOf E R B) :
  preserves I m → (∀ a, preserves I (k a)) → preserves I (st_bind m k).
Proof. apply maps_bind. Qed.

Lemma preserves_for {A} (l : list A) (f : A → MappingOf E R unit) I :
  (∀ x, preserves I (f x)) → preserves I (st_for l f).
Proof.
  intros Hf. induction l as [|x l IH]; simpl; [by apply maps_ret|].
  by apply preserves_bind.
Qed.

(** The steps that write nothing. *)
Lemma preserves_ret {A} (a : A) I : preserves I (st_ret a).
Proof. by apply maps_ret. Qed.
Lemma preserves_throw {A} e I : preserves (A := A) I (st_throw e).
Proof. by intros out s a s' Hs Ha%st_throw_ok. Qed.
Lemma preserves_lift {A} (m : Result E A) I : preserves I (st_lift m).
Proof. by apply maps_lift. Qed.
Lemma preserves_ensure b e I : preserves I (st_ensure b e).
Proof. by apply maps_ensure. Qed.
Lemma preserves_reading {A} (f : R → A) I : preserves I (reading f).
Proof. by apply maps_reading. Qed.
End mapping_logic.

(** Walk a method, leaving the steps that write. *)
Create HintDb preserves discriminated.
#[export] Hint Resolve preserves_ret preserves_throw preserves_lift preserves_ensure preserves_reading : preserves.
Ltac solve_preserves :=
  repeat match goal with
  | |- ∀ _, _ => intro
  | |- preserves _ (st_bind _ _) => apply preserves_bind
  | |- preserves _ (st_for _ _) => apply preserves_for
  | |- preserves _ (match ?x with _ => _ end) => destruct x
  | |- preserves _ _ => solve [auto with preserves]
  end.


(** ** Constructed values *)

Lemma parse_provider_call_id_ok id pid :
  parse_provider_call_id id = Ok pid → pid = mk_ProviderToolCallId id.
Proof. intros Hp. by apply result_bind_ok in Hp as ([] & _ & [= <-]). Qed.

Lemma stream_index_new_ok index i : stream_index_new index = Ok i → i = mk_ModelStreamIndex index.
Proof. intros Hp. by apply result_bind_ok in Hp as ([] & _ & [= <-]). Qed.

(** The results of the smart constructors, by their fields. *)
Ltac constructed :=
  repeat match goal with
  | Hm : Ok _ = Ok _ |- _ => injection Hm as <-
  | Hm : map_err _ _ = Ok _ |- _ => apply map_err_ok in Hm
  | Hm : parse_provider_call_id _ = Ok _ |- _ => apply parse_provider_call_id_ok in Hm as ->
  | Hm : stream_index_new _ = Ok _ |- _ => apply stream_index_new_ok in Hm as ->
  | Hm : tool_call_started_new _ _ _ = Ok _ |- _ =>
      apply result_bind_ok in Hm as ([] & _ & [= <-])
  | Hm : tool_arguments_delta_new _ _ _ = Ok _ |- _ =>
      apply result_bind_ok in Hm as ([] & _ & [= <-])
  | Hm : hosted_tool_started_new _ _ _ = Ok _ |- _ =>
      apply result_bind_ok in Hm as ([] & _ & [= <-])
  | Hm : source_citation_new _ _ = Ok _ |- _ => apply result_bind_ok in Hm as ([] & _ & [= <-])
  | Hm : tool_call_completed_new _ _ _ _ = Ok _ |- _ =>
      apply result_bind_ok in Hm as ([] & _ & Hm); apply result_bind_ok in Hm as ([] & _ & [= <-])
  | Hm : hosted_tool_completed_new _ _ _ _ _ _ _ = Ok _ |- _ =>
      apply result_bind_ok in Hm as ([] & _ & Hm); apply result_bind_ok in Hm as ([] & _ & Hm);
      apply result_bind_ok in Hm as ([] & _ & [= <-])
  end.

(** ** Calls and bodies *)

(** Events that neither start nor end a call. *)
Definition is_neutral (e : ModelEvent) : bool :=
  match e with
  | ModelTextDelta _ | ModelThinkingDelta _ | ModelToolArgumentsDelta _ | ModelSourceCited _ => true
  | _ => false
  end.

Lemma hosted_ids_snoc body e id :
  id ∈ omap hosted_id body → id ∈ omap hosted_id (body ++ [e]).
Proof. rewrite omap_app, elem_of_app. by left. Qed.

(** Completing the accumulators of every open call leaves none open. *)
Lemma complete_calls_body {A E} (identity : A → option (ProviderToolCallId * string))
    (complete : A → Result E ModelEvent) (l : list (N * A)) body events :
  body_ok body → NoDup l.*1 →
  (∀ i call, (i, call) ∈ l → ∀ event, complete call = Ok event →
     ∃ c, event = ModelToolCallCompleted c ∧ tc_index c = mk_ModelStreamIndex i ∧
          identity call = Some (tc_provider_call_id c, tc_called_name c)) →
  (∀ i c, client_open body i c ↔ ∃ call, (msi_get i, call) ∈ l ∧ identity call = Some c) →
  result_map (λ entry, complete entry.2) l = Ok events →
  body_ok (body ++ events) ∧ (∀ i c, ¬ client_open (body ++ events) i c) ∧
  ∀ i c, hosted_open (body ++ events) i c ↔ hosted_open body i c.
Proof.
  revert body events. induction l as [|[k call] l IH]; intros body events Hb Hnd Hn Hc Hm.
  { injection Hm as <-. rewrite app_nil_r. split_and!; [done| |done]. intros i c.
    rewrite Hc. intros (call & Hin & _). by apply elem_of_nil in Hin. }
  simpl in Hm. apply result_bind_ok in Hm as (event & He & Hm).
  apply result_bind_ok in Hm as (more & Hmore & [= <-]).
  apply NoDup_cons in Hnd as [Hk Hnd].
  destruct (Hn k call) with (event := event) as (c & -> & Hci & Hid); [by left|done|].
  rewrite (cons_middle (ModelToolCallCompleted c)), (assoc_L (++)).
  edestruct (IH (body ++ [ModelToolCallCompleted c])) as (Hbody & Hclosed & Hsame);
    [|done| | |done|split_and!; [exact Hbody|exact Hclosed|]].
  - apply body_ok_snoc. split; [done|]. simpl. rewrite Hc, Hci. exists call. split; [by left|done].
  - intros i call' Hin. apply Hn. by right.
  - intros i c'. rewrite (opened_end _ _ _ _ _ _ (tc_index c)) by done. rewrite Hc, Hci. split.
    + intros (Hne & call' & Hin & Hid'). exists call'. split; [|done].
      apply elem_of_cons in Hin as [[= Hik ->]|Hin]; [|done].
      destruct i as [i]. simpl in Hik. by subst.
    + intros (call' & Hin & Hid'). split; [|exists call'; split; [by right|done]].
      intros <-. destruct Hk. apply list_elem_of_fmap. by exists (k, call').
  - intros i c'. by rewrite Hsame, opened_other.
Qed.
