(* ===== verification/OpenAiChat.v ===== *)
(** * OpenAI Chat Completions: chunks to model events

    [crates/tea-provider-openai/src]: errors ([error.rs], [provider.rs]) and the
    mapping of streamed chunks and of a complete response to normalized events
    ([stream.rs]).  Parsing and printing JSON text are parameters. *)

From S2P Require Import Prelude Protocol Decimal Utf8 Tools Validation Usage ModelSpec Event.
From S2P Require Import KernelBase Command ModelStream ProviderHttp ProviderStream.
Local Open Scope tea_scope.

(** ** Errors *)

Inductive OpenAiErrorCode : Set :=
| OaInvalidRequest | OaAuthentication | OaPermissionDenied | OaRateLimited | OaUnavailable
| OaTransport | OaMalformedResponse | OaContextOverflow | OaCancelled | OaInternal.

Record OpenAiError : Set := mk_OpenAiError {
  oe_code : OpenAiErrorCode;
  oe_message : string
}.

Definition openai_error (code : OpenAiErrorCode) (message : string) : OpenAiError :=
  let message := if String.eqb message "" then "openai adapter operation failed"%string else message in
  mk_OpenAiError code (truncate_utf8 (strip_nul message) 4096).

Definition malformed (message : string) : OpenAiError := openai_error OaMalformedResponse message.

Definition into_model_failure_code (code : OpenAiErrorCode) : ModelFailureCode :=
  match code with
  | OaAuthentication => FailAuthentication
  | OaPermissionDenied => FailPermissionDenied
  | OaRateLimited => FailRateLimited
  | OaUnavailable => FailUnavailable
  | OaTransport => FailTransport
  | OaInvalidRequest => FailInvalidRequest
  | OaMalformedResponse => FailMalformedResponse
  | OaContextOverflow => FailContextOverflow
  | OaCancelled => FailCancelled
  | OaInternal => FailInternal
  end.

Definition adapter_failure (error : OpenAiError) : ModelFailure :=
  failure_or_internal
    (model_failure_new (into_model_failure_code (oe_code error)) (oe_message error) RetryClassNever).

(** [map_err(|_| malformed(message))]. *)
Definition or_malformed {E A} (message : string) (r : Result E A) : Result OpenAiError A :=
  map_err (λ _, malformed message) r.

(** ** Mapping methods *)

Notation Mapping := (MappingOf OpenAiError).

(** A non-empty delta of text or reasoning. *)
Definition push_text_delta {R} (event : Utf8Delta → ModelEvent) (what : string) (text : option string)
    : Mapping R unit :=
  match text with
  | Some text =>
      if String.eqb text "" then st_ret tt
      else let! delta := st_lift (or_malformed what (utf8_delta_new text)) in push (event delta)
  | None => st_ret tt
  end.
Section codec.
Context `{Codec, JsonText}.

(** ** Failures *)

Definition openai_http_class (status : N) : ModelFailureCode * RetryClass :=
  if (status =? 401)%N then (FailAuthentication, RetryClassNever)
  else if (status =? 403)%N then (FailPermissionDenied, RetryClassNever)
  else if (status =? 400)%N then (FailInvalidRequest, RetryClassNever)
  else if (status =? 429)%N then (FailRateLimited, RetryAfterBackoff)
  else if (status =? 408)%N then (FailTransport, RetryImmediate)
  else if in_range 500 599 status && negb (status =? 501)%N then
    (FailUnavailable, RetryAfterBackoff)
  else (FailInternal, RetryClassNever).

Definition map_http_failure (status : N) (body : string) : ModelFailure :=
  let '(code, retry) := openai_http_class status in
  failure_or_internal
    (model_failure_safe code (normalize_provider_error (Some status) body) retry).

Definition openai_error_class (error : Value) : ModelFailureCode * RetryClass :=
  let error_type := default ""%string (get_str error "type") in
  if String.eqb error_type "server_error" || String.eqb error_type "overloaded" then
    (FailUnavailable, RetryAfterBackoff)
  else if String.eqb error_type "rate_limit_exceeded" then (FailRateLimited, RetryAfterBackoff)
  else (FailMalformedResponse, RetryClassNever).

Definition map_stream_error (error : Value) : ModelFailure :=
  let message := normalize_provider_error None (json_text error) in
  let '(code, retry) := openai_error_class error in
  failure_or_internal (model_failure_safe code message retry).

(** ** The chunk reducer *)

Record ToolCallAccumulator : Set := mk_ToolCallAccumulator {
  ac_index : N;
  ac_provider_call_id : option string;
  ac_name : option string;
  ac_arguments : string
}.

Record ChunkReducer : Set := mk_ChunkReducer {
  cr_started : bool;
  cr_tool_calls : gmap N ToolCallAccumulator;
  cr_stop_reason : option StopReason;
  cr_saw_refusal : bool;
  cr_terminal_emitted : bool
}.

Definition chunk_reducer_new : ChunkReducer := mk_ChunkReducer false ∅ None false false.

Definition set_started (r : ChunkReducer) : ChunkReducer :=
  mk_ChunkReducer true (cr_tool_calls r) (cr_stop_reason r) (cr_saw_refusal r)
    (cr_terminal_emitted r).
Definition set_tool_call (call : ToolCallAccumulator) (r : ChunkReducer) : ChunkReducer :=
  mk_ChunkReducer (cr_started r) (<[ac_index call := call]> (cr_tool_calls r)) (cr_stop_reason r)
    (cr_saw_refusal r) (cr_terminal_emitted r).
Definition set_stop_reason (stop : StopReason) (r : ChunkReducer) : ChunkReducer :=
  mk_ChunkReducer (cr_started r) (cr_tool_calls r) (Some stop) (cr_saw_refusal r)
    (cr_terminal_emitted r).
Definition set_saw_refusal (r : ChunkReducer) : ChunkReducer :=
  mk_ChunkReducer (cr_started r) (cr_tool_calls r) (cr_stop_reason r) true
    (cr_terminal_emitted r).
Definition set_terminal_emitted (r : ChunkReducer) : ChunkReducer :=
  mk_ChunkReducer (cr_started r) (cr_tool_calls r) (cr_stop_reason r) (cr_saw_refusal r) true.

(** Every call in index order, with its accumulated arguments parsed. *)
Definition complete_call (call : ToolCallAccumulator) : Result OpenAiError ModelEvent :=
  let? arguments :=
    if String.eqb (ac_arguments call) "" then Ok (JObject [])
    else ok_or (json_parse (ac_arguments call)) (malformed "tool arguments did not parse") in
  let? stream_index := or_malformed "stream index" (stream_index_new (ac_index call)) in
  let? provider_id :=
    ok_or (id ← ac_provider_call_id call;
           match parse_provider_call_id id with Ok id => Some id | Err _ => None end)
      (malformed "completed tool call without id") in
  let name := default ""%string (ac_name call) in
  let? completed := or_malformed "tool call completed"
    (tool_call_completed_new stream_index provider_id name arguments) in
  Ok (ModelToolCallCompleted completed).

Definition complete_tool_calls (r : ChunkReducer) : Result OpenAiError (list ModelEvent) :=
  result_map (λ entry, complete_call entry.2) (btree_entries N.leb (cr_tool_calls r)).

(** The usage of a completion, when its counts can be normalized. *)
Definition chunk_usage (usage : Value) : Result OpenAiError (option Usage) :=
  match get_u64 usage "prompt_tokens", get_u64 usage "completion_tokens" with
  | Some prompt, Some completion_tokens =>
      let details := json_get usage "prompt_tokens_details" in
      let cached := details ≫= λ d, get_u64 d "cached_tokens" in
      let cache_write := details ≫= λ d, get_u64 d "cache_write_tokens" in
      let? billable := ok_or (value ← checked_sub prompt (default 0%N cached);
                              checked_sub value (default 0%N cache_write))
        (malformed "cache usage exceeds prompt tokens") in
      match token_count_new billable, token_count_new completion_tokens with
      | Ok input, Ok output =>
          let count value := n ← value; token_of n in
          let add with_count value u :=
            match count value with Some t => with_count u t | None => u end in
          let reasoning :=
            json_get usage "completion_tokens_details" ≫= λ d, get_u64 d "reasoning_tokens" in
          let with_reasoning u t :=
            match with_reasoning u t with Ok u => u | Err _ => u end in
          Ok (Some (add with_reasoning reasoning
                      (add with_cache_write cache_write
                         (add with_cache_read cached (usage_new input output)))))
      | _, _ => Ok None
      end
  | _, _ => Ok None
  end.

Definition chunk_complete (stop_reason : option StopReason) (usage : Value)
    : ST ChunkReducer OpenAiError ModelEvent :=
  let! completion := st_lift (or_malformed "invalid completion reason"
    (completion_new (default StopCompleted stop_reason))) in
  let! usage := st_lift (chunk_usage usage) in
  do! st_modify set_terminal_emitted in
  st_ret (ModelCompleted (with_usage completion usage)).

(** [u64::from(u16::MAX)] caps the index, so the conversion cannot fail. *)
Definition tool_call_index (tool_call : Value) : Result OpenAiError N :=
  let? value := ok_or (get_u64 tool_call "index") (malformed "tool call index missing") in
  Ok (N.min value U16_MAX).

Definition function_str (tool_call : Value) (key : string) : option string :=
  json_get tool_call "function" ≫= λ function, get_str function key.

(** The first fragment of a call that carries an id starts it. *)
Definition start_call (tool_call : Value) (call : ToolCallAccumulator) (id : string)
    : Mapping ChunkReducer ToolCallAccumulator :=
  let! provider_id := st_lift (or_malformed "tool call id" (parse_provider_call_id id)) in
  let call := mk_ToolCallAccumulator (ac_index call) (Some id) (ac_name call) (ac_arguments call) in
  do! update (set_tool_call call) in
  let! name := st_lift (ok_or (function_str tool_call "name") (malformed "tool call name missing")) in
  let call := mk_ToolCallAccumulator (ac_index call) (Some id) (Some name) (ac_arguments call) in
  do! update (set_tool_call call) in
  let! stream_index := st_lift (or_malformed "stream index" (stream_index_new (ac_index call))) in
  let! started := st_lift (or_malformed "tool call started"
                             (tool_call_started_new stream_index provider_id name)) in
  do! push (ModelToolCallStarted started) in
  st_ret call.

Definition append_arguments (call : ToolCallAccumulator) (arguments : string) : Mapping ChunkReducer unit :=
  let call := mk_ToolCallAccumulator (ac_index call) (ac_provider_call_id call) (ac_name call)
                (ac_arguments call ++ arguments) in
  do! update (set_tool_call call) in
  let! stream_index := st_lift (or_malformed "stream index" (stream_index_new (ac_index call))) in
  let! provider_id := st_lift (ok_or
    (id ← ac_provider_call_id call;
     match parse_provider_call_id id with Ok id => Some id | Err _ => None end)
    (malformed "tool arguments without a started call")) in
  let! delta := st_lift (or_malformed "tool arguments delta"
                           (tool_arguments_delta_new stream_index provider_id arguments)) in
  push (ModelToolArgumentsDelta delta).

Definition map_tool_call_delta (tool_call : Value) : Mapping ChunkReducer unit :=
  let! index := st_lift (tool_call_index tool_call) in
  let! calls := reading cr_tool_calls in
  let call := default (mk_ToolCallAccumulator index None None "") (calls !! index) in
  do! update (set_tool_call call) in
  let! call := match get_str tool_call "id", ac_provider_call_id call with
               | Some id, None => start_call tool_call call id
               | _, _ => st_ret call
               end in
  match function_str tool_call "arguments" with
  | Some arguments =>
      if String.eqb arguments "" then st_ret tt else append_arguments call arguments
  | None => st_ret tt
  end.

Definition finish_stop_reason (saw_refusal : bool) (finish : string) : StopReason :=
  if saw_refusal then StopRefusal
  else if String.eqb finish "stop" then StopCompleted
  else if String.eqb finish "length" then StopLength
  else if String.eqb finish "tool_calls" || String.eqb finish "function_call" then StopToolUse
  else if String.eqb finish "refusal" then StopRefusal
  else StopUnknown finish.

Definition map_finish (finish : string) : Mapping ChunkReducer unit :=
  let! stop := reading cr_stop_reason in
  if String.eqb finish "" || bool_decide (is_Some stop) then st_ret tt
  else
    let! saw_refusal := reading cr_saw_refusal in
    do! update (set_stop_reason (finish_stop_reason saw_refusal finish)) in
    let! completed := reading complete_tool_calls in
    let! events := st_lift completed in
    push_all events.

Definition map_choice (choice : Value) : Mapping ChunkReducer unit :=
  let delta := default JNull (json_get choice "delta") in
  do! push_text_delta ModelThinkingDelta "reasoning delta" (get_str delta "reasoning") in
  do! push_text_delta ModelTextDelta "text delta" (get_str delta "content") in
  do! match get_str delta "refusal" with
      | Some refusal =>
          do! update set_saw_refusal in
          push_text_delta ModelTextDelta "refusal delta" (Some refusal)
      | None => st_ret tt
      end in
  do! match get_array delta "tool_calls" with
      | Some tool_calls => st_for tool_calls map_tool_call_delta
      | None => st_ret tt
      end in
  match get_str choice "finish_reason" with
  | Some finish => map_finish finish
  | None => st_ret tt
  end.

(** A usage chunk after the finish reason completes the stream. *)
Definition map_usage (choices : option (list Value)) (usage : Value) : Mapping ChunkReducer unit :=
  do! st_ensure (match choices with Some [] => true | _ => false end)
        (malformed "Chat Completions usage chunk must contain empty choices") in
  let! stop := reading cr_stop_reason in
  let! stop_reason := st_lift (ok_or stop
    (malformed "Chat Completions usage chunk arrived before finish_reason")) in
  λ s, let '(r, reducer) := chunk_complete (Some stop_reason) usage s.1 in
       match r with
       | Ok event => (Ok tt, (reducer, s.2 ++ [event]))
       | Err e => (Err e, (reducer, s.2))
       end.

Definition map_choices (choices : list Value) : Mapping ChunkReducer unit :=
  do! st_ensure (length choices <=? 1)%nat
        (malformed "Chat Completions chunk contains multiple choices") in
  match choices with
  | choice :: _ =>
      do! st_ensure (bool_decide (get_u64 choice "index" = Some 0%N))
            (malformed "Chat Completions choice index is missing or unsupported") in
      map_choice choice
  | [] => st_ret tt
  end.

Definition map_chunk_events (value : Value) : Mapping ChunkReducer unit :=
  let! terminal := reading cr_terminal_emitted in
  do! st_ensure (negb terminal) (malformed "Chat Completions chunk arrived after terminal event") in
  let! started := reading cr_started in
  do! (if started then st_ret tt
       else do! push (ModelStarted response_info_new) in update set_started) in
  match json_get value "error" with
  | Some error =>
      do! update set_terminal_emitted in
      push (ModelFailed (map_stream_error error))
  | None =>
      let choices := get_array value "choices" in
      let usage := usage ← json_get value "usage"; if json_is_null usage then None else Some usage in
      match usage with
      | Some usage => map_usage choices usage
      | None =>
          let! stop := reading cr_stop_reason in
          do! st_ensure (negb (bool_decide (is_Some stop)))
                (malformed "Chat Completions chunk arrived after finish_reason") in
          match choices with Some choices => map_choices choices | None => st_ret tt end
      end
  end.

Definition map_chunk (value : Value) : ST ChunkReducer OpenAiError (list ModelEvent) :=
  mapped (map_chunk_events value).

Definition chunk_finish : ST ChunkReducer OpenAiError (option ModelEvent) :=
  let! terminal := st_gets cr_terminal_emitted in
  if terminal then st_ret None
  else
    let! stop := st_gets cr_stop_reason in
    match stop with
    | Some _ => let! event := chunk_complete stop JNull in st_ret (Some event)
    | None => st_throw (malformed "Chat Completions stream ended without finish_reason")
    end.

(** ** A complete response *)

Definition optional_message_text (message : Value) (key : string)
    : Result OpenAiError (option string) :=
  match json_get message key with
  | None | Some JNull => Ok None
  | Some (JString value) =>
      if (str_len value <=? MAX_TEXT_BLOCK_BYTES)%N then Ok (Some value)
      else Err (malformed ("Chat Completions assistant " ++ key ++ " exceeds the supported bound"))
  | Some _ => Err (malformed ("Chat Completions assistant " ++ key ++ " is not text"))
  end.

Record CompleteToolCall : Set := mk_CompleteToolCall {
  ct_index : N;
  ct_id : string;
  ct_name : string;
  ct_arguments : string;
  ct_parsed_arguments : Value
}.

(** The call at [index]; [ids] are those of the calls before it. *)
Definition parse_complete_tool_call (ids : list string) (index : N) (call : Value)
    : Result OpenAiError CompleteToolCall :=
  try? ensure (index <=? U16_MAX)%N
         (malformed "Chat Completions tool call index is out of range") in
  try? ensure (match json_get call "index" with
               | Some value => bool_decide (json_as_u64 value = Some index)
               | None => true
               end) (malformed "Chat Completions tool call index changed") in
  try? ensure (bool_decide (get_str call "type" = Some "function"%string))
         (malformed "Chat Completions tool call type is invalid") in
  let? id := ok_or (get_str call "id") (malformed "Chat Completions tool call id is missing") in
  try? ensure (bool_decide (id ∉ ids)) (malformed "Chat Completions tool call id is duplicated") in
  let? function :=
    ok_or (f ← json_get call "function"; if is_object f then Some f else None)
      (malformed "Chat Completions tool call function is missing") in
  let? name := ok_or (get_str function "name")
                 (malformed "Chat Completions tool call name is missing") in
  let? arguments :=
    ok_or (a ← get_str function "arguments"; if String.eqb a "" then None else Some a)
      (malformed "Chat Completions tool arguments are missing") in
  let? parsed_arguments :=
    ok_or (json_parse arguments) (malformed "Chat Completions tool arguments did not parse") in
  Ok (mk_CompleteToolCall index id name arguments parsed_arguments).

Fixpoint parse_tool_calls_from (ids : list string) (index : N) (calls : list Value)
    : Result OpenAiError (list CompleteToolCall) :=
  match calls with
  | [] => Ok []
  | call :: calls =>
      let? call := parse_complete_tool_call ids index call in
      let? calls := parse_tool_calls_from (ct_id call :: ids) (index + 1) calls in
      Ok (call :: calls)
  end.

Definition parse_complete_tool_calls (value : option Value)
    : Result OpenAiError (list CompleteToolCall) :=
  match value with
  | None | Some JNull => Ok []
  | Some value =>
      let? calls := ok_or (json_as_array value)
        (malformed "Chat Completions tool_calls is not an array") in
      parse_tool_calls_from [] 0 calls
  end.

(** [utf8_chunks]: pieces of at most [MAX_MODEL_DELTA_BYTES] that end between two
    characters.  A piece is not empty, so the length of the text is fuel
    enough. *)
Fixpoint utf8_chunks_from (fuel : nat) (value : string) : list string :=
  match fuel with
  | O => []
  | S fuel =>
      if String.eqb value "" then []
      else
        let len := String.length value in
        let last := floor_boundary (bytes value) (Nat.min (N.to_nat MAX_MODEL_DELTA_BYTES) len) in
        String.substring 0 last value :: utf8_chunks_from fuel (String.substring last len value)
  end.
Definition utf8_chunks (value : string) : list string :=
  utf8_chunks_from (String.length value) value.

Definition text_events (event : Utf8Delta → ModelEvent) (value : option string)
    : Result OpenAiError (list ModelEvent) :=
  match value with
  | None => Ok []
  | Some value =>
      result_map (λ chunk, let? delta := or_malformed "Chat Completions assistant text is invalid"
                                           (utf8_delta_new chunk) in Ok (event delta))
        (utf8_chunks value)
  end.

Definition required_usage_count (usage : Value) (key : string) : Result OpenAiError N :=
  ok_or (get_u64 usage key)
    (malformed ("Chat Completions usage " ++ key ++ " is missing or invalid")).
Definition optional_usage_count (usage : Value) (key : string) : Result OpenAiError (option N) :=
  match json_get usage key with
  | None | Some JNull => Ok None
  | Some value =>
      let? n := ok_or (json_as_u64 value)
                  (malformed ("Chat Completions usage " ++ key ++ " is invalid")) in
      Ok (Some n)
  end.
Definition optional_usage_object (usage : Value) (key : string)
    : Result OpenAiError (option Value) :=
  match json_get usage key with
  | None | Some JNull => Ok None
  | Some (JObject entries) => Ok (Some (JObject entries))
  | Some _ => Err (malformed ("Chat Completions usage " ++ key ++ " is invalid"))
  end.

(** [details.map(|details| optional_usage_count(details, key)).transpose()?.flatten()]. *)
Definition detail_count (details : option Value) (key : string) : Result OpenAiError (option N) :=
  match details with Some details => optional_usage_count details key | None => Ok None end.

Definition parse_complete_usage (value : option Value) : Result OpenAiError Usage :=
  let? usage :=
    ok_or (v ← value; if json_is_null v then None else Some v)
      (malformed "Chat Completions usage is missing") in
  try? ensure (is_object usage) (malformed "Chat Completions usage is not an object") in
  let? prompt := required_usage_count usage "prompt_tokens" in
  let? output := required_usage_count usage "completion_tokens" in
  let? total := optional_usage_count usage "total_tokens" in
  try? match total with
       | Some total =>
           let? sum := ok_or (checked_add_u64 prompt output)
             (malformed "Chat Completions usage total overflowed") in
           ensure (total =? sum)%N (malformed "Chat Completions usage total is inconsistent")
       | None => Ok tt
       end in
  let? prompt_details := optional_usage_object usage "prompt_tokens_details" in
  let? completion_details := optional_usage_object usage "completion_tokens_details" in
  let? cached := detail_count prompt_details "cached_tokens" in
  let? cache_write := detail_count prompt_details "cache_write_tokens" in
  let? reasoning := detail_count completion_details "reasoning_tokens" in
  let? billable := ok_or (value ← checked_sub prompt (default 0%N cached);
                          checked_sub value (default 0%N cache_write))
    (malformed "Chat Completions cache usage exceeds prompt tokens") in
  let? input := or_malformed "Chat Completions prompt token count is invalid"
                  (token_count_new billable) in
  let? output := or_malformed "Chat Completions completion token count is invalid"
                   (token_count_new output) in
  let normalized := usage_new input output in
  let? normalized := match cached with
    | Some cached =>
        let? t := or_malformed "Chat Completions cached token count is invalid"
                    (token_count_new cached) in Ok (with_cache_read normalized t)
    | None => Ok normalized
    end in
  let? normalized := match cache_write with
    | Some cache_write =>
        let? t := or_malformed "Chat Completions cache-write token count is invalid"
                    (token_count_new cache_write) in Ok (with_cache_write normalized t)
    | None => Ok normalized
    end in
  let? normalized := match reasoning with
    | Some reasoning =>
        let? t := or_malformed "Chat Completions reasoning token count is invalid"
                    (token_count_new reasoning) in
        or_malformed "Chat Completions reasoning usage exceeds output tokens"
          (with_reasoning normalized t)
    | None => Ok normalized
    end in
  try? or_malformed "Chat Completions usage total is invalid" (total_tokens normalized) in
  Ok normalized.

(** The events of one call of a complete response. *)
Definition complete_call_events (call : CompleteToolCall) : Result OpenAiError (list ModelEvent) :=
  let? stream_index := or_malformed "Chat Completions tool call index is out of range"
                         (stream_index_new (ct_index call)) in
  let? provider_id := or_malformed "Chat Completions tool call id is invalid"
                        (parse_provider_call_id (ct_id call)) in
  let? started := or_malformed "Chat Completions tool call identity is invalid"
                    (tool_call_started_new stream_index provider_id (ct_name call)) in
  let? deltas := result_map (λ chunk,
      let? delta := or_malformed "Chat Completions tool arguments are invalid"
                      (tool_arguments_delta_new stream_index provider_id chunk) in
      Ok (ModelToolArgumentsDelta delta)) (utf8_chunks (ct_arguments call)) in
  let? completed := or_malformed "Chat Completions completed tool call is invalid"
    (tool_call_completed_new stream_index provider_id (ct_name call) (ct_parsed_arguments call)) in
  Ok (ModelToolCallStarted started :: deltas ++ [ModelToolCallCompleted completed]).

(** The text, reasoning and refusal of the message, bounded together. *)
Definition message_texts (message : Value)
    : Result OpenAiError (option string * option string * option string) :=
  let? reasoning := optional_message_text message "reasoning" in
  let? content := optional_message_text message "content" in
  let? refusal := optional_message_text message "refusal" in
  let len text := match text with Some text => str_len text | None => 0%N end in
  try? ensure (len content + len refusal <=? MAX_TEXT_BLOCK_BYTES)%N
         (malformed "Chat Completions assistant text exceeds the supported bound") in
  Ok (reasoning, content, refusal).

Definition is_tool_finish (finish : string) : bool :=
  String.eqb finish "tool_calls" || String.eqb finish "function_call".

(** The only choice of a response and its assistant message. *)
Definition only_choice (value : Value) : Result OpenAiError (Value * Value) :=
  let? choices := ok_or (get_array value "choices")
    (malformed "Chat Completions response choices are missing") in
  let? choice := ok_or (match choices with [choice] => Some choice | _ => None end)
    (malformed "Chat Completions response must contain exactly one choice") in
  try? ensure (bool_decide (get_u64 choice "index" = Some 0%N))
         (malformed "Chat Completions response choice index is missing or unsupported") in
  let? message := ok_or (m ← json_get choice "message"; if is_object m then Some m else None)
    (malformed "Chat Completions assistant message is missing") in
  try? ensure (bool_decide (get_str message "role" = Some "assistant"%string))
         (malformed "Chat Completions response message role is not assistant") in
  Ok (choice, message).

Definition map_chat_completion_response (value : Value) : Result OpenAiError (list ModelEvent) :=
  match json_get value "error" with
  | Some error => Ok [ModelStarted response_info_new; ModelFailed (map_stream_error error)]
  | None =>
      let? id := ok_or (get_str value "id") (malformed "Chat Completions response id is missing") in
      let? response_id := or_malformed "Chat Completions response id is invalid"
                            (parse_response_id id) in
      let? model := ok_or (get_str value "model")
                      (malformed "Chat Completions response model is missing") in
      let? response_model := or_malformed "Chat Completions response model is invalid"
                               (parse_model_id model) in
      let? only := only_choice value in
      let '(choice, message) := only in
      let? texts := message_texts message in
      let '(reasoning, content, refusal) := texts in
      try? ensure (match json_get message "function_call" with
                   | Some call => json_is_null call
                   | None => true
                   end)
             (malformed "Chat Completions legacy function_call response is unsupported") in
      let? tool_calls := parse_complete_tool_calls (json_get message "tool_calls") in
      try? ensure (negb (bool_decide (is_Some refusal) && negb (is_empty tool_calls)))
             (malformed "Chat Completions response combines refusal and tool calls") in
      let? finish := ok_or (f ← get_str choice "finish_reason";
                            if String.eqb f "" then None else Some f)
        (malformed "Chat Completions finish_reason is missing") in
      try? ensure (negb (Bool.eqb (is_tool_finish finish) (is_empty tool_calls)))
             (malformed "Chat Completions tool calls do not match finish_reason") in
      let stop_reason := finish_stop_reason (bool_decide (is_Some refusal)) finish in
      let? usage := parse_complete_usage (json_get value "usage") in
      let? reasoning := text_events ModelThinkingDelta reasoning in
      let? content := text_events ModelTextDelta content in
      let? refusal := text_events ModelTextDelta refusal in
      let? calls := result_map complete_call_events tool_calls in
      let? completion := or_malformed "Chat Completions finish_reason is invalid"
                           (completion_new stop_reason) in
      Ok (ModelStarted (mk_ModelResponseInfo (Some response_id) (Some response_model) ∅)
          :: reasoning ++ content ++ refusal ++ concat calls
          ++ [ModelCompleted (with_usage completion (Some usage))])
  end.
End codec.
