(* ===== verification/OpenAiResponses.v ===== *)
(** * OpenAI Responses: stream events to model events

    [crates/tea-provider-openai/src/responses_stream.rs].  The reducer keeps what
    it has seen of every output item, so that repeated and completed payloads can
    be checked against what was streamed. *)

From S2P Require Import Prelude Protocol Decimal Utf8 Tools Validation External Usage ModelSpec Event.
From S2P Require Import KernelBase Command ModelStream ProviderHttp ProviderStream OpenAiChat.
Local Open Scope tea_scope.

Definition MAX_PENDING_CITATIONS : nat := 256.
Definition WEB_SEARCH_CONTINUATION_FORMAT : string := "openai.responses.web_search.v1".
Definition URL_CITATION_CONTINUATION_FORMAT : string := "openai.responses.url_citation.v1".

(** ** The state *)

Record FunctionCallAccumulator : Set := mk_FunctionCallAccumulator {
  fc_index : N;
  fc_provider_call_id : string;
  fc_name : string;
  fc_arguments : string;
  fc_completed : bool
}.

Record HostedSearchAccumulator : Set := mk_HostedSearchAccumulator {
  hsa_provider_call_id : string;
  hsa_completed : bool;
  hsa_source_urls : gset string;
  hsa_completed_item : option Value
}.

Inductive OutputItemKind : Set :=
| KindFunctionCall | KindHostedSearch | KindMessage | KindReasoning | KindOther (kind : string).

#[export] Instance OutputItemKind_eq_dec : EqDecision OutputItemKind.
Proof. solve_decision. Defined.

Definition kind_label (kind : OutputItemKind) : string :=
  match kind with
  | KindFunctionCall => "function_call"
  | KindHostedSearch => "web_search_call"
  | KindMessage => "message"
  | KindReasoning => "reasoning"
  | KindOther _ => "other"
  end.

Inductive ResponseTerminalKind : Set := TerminalCompleted | TerminalToolUse | TerminalRefusal.

Definition observe_tool_use (kind : ResponseTerminalKind) : ResponseTerminalKind :=
  match kind with TerminalRefusal => TerminalRefusal | _ => TerminalToolUse end.
Definition terminal_stop_reason (kind : ResponseTerminalKind) : StopReason :=
  match kind with
  | TerminalCompleted => StopCompleted
  | TerminalToolUse => StopToolUse
  | TerminalRefusal => StopRefusal
  end.

(** An output index and a content index; and an annotation index. *)
Notation Coordinate := (N * N)%type (only parsing).
Notation CitationKey := (N * N * N)%type (only parsing).

Record ResponsesReducer : Set := mk_ResponsesReducer {
  rr_started : bool;
  rr_terminal_emitted : bool;
  rr_terminal_kind : ResponseTerminalKind;
  rr_output_item_kinds : gmap N OutputItemKind;
  rr_output_item_indices : gmap string N;
  rr_tool_calls : gmap N FunctionCallAccumulator;
  rr_hosted_searches : gmap N HostedSearchAccumulator;
  rr_text_by_index : gmap N string;
  rr_text_by_content : gmap Coordinate string;
  rr_emitted_text : string;
  rr_reasoning_by_index : gmap Coordinate string;
  rr_citation_payloads : gmap CitationKey Value;
  rr_pending_citations : gmap CitationKey SourceCitation;
  rr_pending_citation_bytes : N;
  rr_provider_id : string
}.

Definition for_provider (provider_id : string) : ResponsesReducer :=
  mk_ResponsesReducer false false TerminalCompleted ∅ ∅ ∅ ∅ ∅ ∅ "" ∅ ∅ ∅ 0 provider_id.

(** *** Assignments *)

Definition set_rr_started (r : ResponsesReducer) : ResponsesReducer :=
  mk_ResponsesReducer true (rr_terminal_emitted r) (rr_terminal_kind r) (rr_output_item_kinds r)
    (rr_output_item_indices r) (rr_tool_calls r) (rr_hosted_searches r) (rr_text_by_index r)
    (rr_text_by_content r) (rr_emitted_text r) (rr_reasoning_by_index r) (rr_citation_payloads r)
    (rr_pending_citations r) (rr_pending_citation_bytes r) (rr_provider_id r).
Definition set_rr_terminal_emitted (r : ResponsesReducer) : ResponsesReducer :=
  mk_ResponsesReducer (rr_started r) true (rr_terminal_kind r) (rr_output_item_kinds r)
    (rr_output_item_indices r) (rr_tool_calls r) (rr_hosted_searches r) (rr_text_by_index r)
    (rr_text_by_content r) (rr_emitted_text r) (rr_reasoning_by_index r) (rr_citation_payloads r)
    (rr_pending_citations r) (rr_pending_citation_bytes r) (rr_provider_id r).
Definition set_rr_terminal_kind (kind : ResponseTerminalKind) (r : ResponsesReducer)
    : ResponsesReducer :=
  mk_ResponsesReducer (rr_started r) (rr_terminal_emitted r) kind (rr_output_item_kinds r)
    (rr_output_item_indices r) (rr_tool_calls r) (rr_hosted_searches r) (rr_text_by_index r)
    (rr_text_by_content r) (rr_emitted_text r) (rr_reasoning_by_index r) (rr_citation_payloads r)
    (rr_pending_citations r) (rr_pending_citation_bytes r) (rr_provider_id r).
Definition set_rr_output_item_kinds (kinds : gmap N OutputItemKind) (r : ResponsesReducer)
    : ResponsesReducer :=
  mk_ResponsesReducer (rr_started r) (rr_terminal_emitted r) (rr_terminal_kind r) kinds
    (rr_output_item_indices r) (rr_tool_calls r) (rr_hosted_searches r) (rr_text_by_index r)
    (rr_text_by_content r) (rr_emitted_text r) (rr_reasoning_by_index r) (rr_citation_payloads r)
    (rr_pending_citations r) (rr_pending_citation_bytes r) (rr_provider_id r).
Definition set_rr_output_item_indices (indices : gmap string N) (r : ResponsesReducer)
    : ResponsesReducer :=
  mk_ResponsesReducer (rr_started r) (rr_terminal_emitted r) (rr_terminal_kind r)
    (rr_output_item_kinds r) indices (rr_tool_calls r) (rr_hosted_searches r) (rr_text_by_index r)
    (rr_text_by_content r) (rr_emitted_text r) (rr_reasoning_by_index r) (rr_citation_payloads r)
    (rr_pending_citations r) (rr_pending_citation_bytes r) (rr_provider_id r).
Definition set_rr_tool_calls (calls : gmap N FunctionCallAccumulator) (r : ResponsesReducer)
    : ResponsesReducer :=
  mk_ResponsesReducer (rr_started r) (rr_terminal_emitted r) (rr_terminal_kind r)
    (rr_output_item_kinds r) (rr_output_item_indices r) calls (rr_hosted_searches r)
    (rr_text_by_index r) (rr_text_by_content r) (rr_emitted_text r) (rr_reasoning_by_index r)
    (rr_citation_payloads r) (rr_pending_citations r) (rr_pending_citation_bytes r)
    (rr_provider_id r).
Definition set_rr_hosted_searches (searches : gmap N HostedSearchAccumulator)
    (r : ResponsesReducer) : ResponsesReducer :=
  mk_ResponsesReducer (rr_started r) (rr_terminal_emitted r) (rr_terminal_kind r)
    (rr_output_item_kinds r) (rr_output_item_indices r) (rr_tool_calls r) searches
    (rr_text_by_index r) (rr_text_by_content r) (rr_emitted_text r) (rr_reasoning_by_index r)
    (rr_citation_payloads r) (rr_pending_citations r) (rr_pending_citation_bytes r)
    (rr_provider_id r).
Definition set_rr_text (by_index : gmap N string) (by_content : gmap Coordinate string)
    (emitted : string) (r : ResponsesReducer) : ResponsesReducer :=
  mk_ResponsesReducer (rr_started r) (rr_terminal_emitted r) (rr_terminal_kind r)
    (rr_output_item_kinds r) (rr_output_item_indices r) (rr_tool_calls r) (rr_hosted_searches r)
    by_index by_content emitted (rr_reasoning_by_index r) (rr_citation_payloads r)
    (rr_pending_citations r) (rr_pending_citation_bytes r) (rr_provider_id r).
Definition set_rr_reasoning (reasoning : gmap Coordinate string) (r : ResponsesReducer)
    : ResponsesReducer :=
  mk_ResponsesReducer (rr_started r) (rr_terminal_emitted r) (rr_terminal_kind r)
    (rr_output_item_kinds r) (rr_output_item_indices r) (rr_tool_calls r) (rr_hosted_searches r)
    (rr_text_by_index r) (rr_text_by_content r) (rr_emitted_text r) reasoning
    (rr_citation_payloads r) (rr_pending_citations r) (rr_pending_citation_bytes r)
    (rr_provider_id r).
Definition set_rr_citation_payloads (payloads : gmap CitationKey Value) (r : ResponsesReducer)
    : ResponsesReducer :=
  mk_ResponsesReducer (rr_started r) (rr_terminal_emitted r) (rr_terminal_kind r)
    (rr_output_item_kinds r) (rr_output_item_indices r) (rr_tool_calls r) (rr_hosted_searches r)
    (rr_text_by_index r) (rr_text_by_content r) (rr_emitted_text r) (rr_reasoning_by_index r)
    payloads (rr_pending_citations r) (rr_pending_citation_bytes r) (rr_provider_id r).
Definition set_rr_pending (pending : gmap CitationKey SourceCitation) (pending_bytes : N)
    (r : ResponsesReducer) : ResponsesReducer :=
  mk_ResponsesReducer (rr_started r) (rr_terminal_emitted r) (rr_terminal_kind r)
    (rr_output_item_kinds r) (rr_output_item_indices r) (rr_tool_calls r) (rr_hosted_searches r)
    (rr_text_by_index r) (rr_text_by_content r) (rr_emitted_text r) (rr_reasoning_by_index r)
    (rr_citation_payloads r) pending pending_bytes (rr_provider_id r).

(** The methods of the reducer. *)
Notation Reducing := (Mapping ResponsesReducer).

Definition observe_refusal : Reducing unit := update (set_rr_terminal_kind TerminalRefusal).

(** ** Payloads *)

(** [u16::try_from], and [ModelStreamIndex::new] of an index. *)
Definition u16_of (n : N) : option N := if (n <=? U16_MAX)%N then Some n else None.
Definition stream_index (index : N) : Result OpenAiError ModelStreamIndex :=
  or_malformed "Responses output index out of range" (stream_index_new index).

Definition output_index (value : Value) : Result OpenAiError N :=
  let? raw := ok_or (get_u64 value "output_index") (malformed "Responses output index missing") in
  let? index := ok_or (u16_of raw) (malformed "Responses output index out of range") in
  try? stream_index index in Ok index.

Definition bounded_event_index (value : Value) (key : string) : Result OpenAiError N :=
  ok_or (raw ← get_u64 value key; u16_of raw)
    (malformed "Responses event index missing or out of range").

Definition nonempty_string (value : Value) (key : string) : option string :=
  text ← get_str value key; if String.eqb text "" then None else Some text.

Definition output_item_kind (item : Value) : Result OpenAiError OutputItemKind :=
  match get_str item "type" with
  | Some kind =>
      Ok (if String.eqb kind "function_call" then KindFunctionCall
          else if String.eqb kind "web_search_call" then KindHostedSearch
          else if String.eqb kind "message" then KindMessage
          else if String.eqb kind "reasoning" then KindReasoning
          else KindOther kind)
  | None => Err (malformed "Responses output item type missing")
  end.

Definition completed_message_part_text (part : Value) : Result OpenAiError string :=
  match get_str part "type" with
  | Some kind =>
      if String.eqb kind "output_text" then
        ok_or (get_str part "text") (malformed "Responses completed output text missing")
      else if String.eqb kind "refusal" then
        ok_or (get_str part "refusal") (malformed "Responses completed refusal text missing")
      else Err (malformed "Responses completed message content type invalid")
  | None => Err (malformed "Responses completed message content type missing")
  end.

Definition is_refusal_part (part : Value) : bool :=
  bool_decide (get_str part "type" = Some "refusal"%string)
  || bool_decide (is_Some (json_get part "refusal")).
Definition item_contains_refusal (item : Value) : bool :=
  match get_array item "content" with
  | Some content => existsb is_refusal_part content
  | None => false
  end.

(** [part.get("text").or_else(|| part.get("refusal")).and_then(Value::as_str)]. *)
Definition part_text (part : Value) : option string :=
  match json_get part "text" with
  | Some text => json_as_str text
  | None => json_get part "refusal" ≫= json_as_str
  end.

(** The byte indices at which the characters of a text start. *)
Definition char_starts (text : string) : list nat :=
  List.filter (is_char_boundary (bytes text)) (seq 0 (String.length text)).

Definition character_range_to_bytes (text : string) (start last : N) : option (nat * nat) :=
  if (last <=? start)%N then None
  else
    let starts := char_starts text in
    if (N.of_nat (length starts) <? last)%N then None
    else
      let offset index :=
        if (index =? N.of_nat (length starts))%N then Some (String.length text)
        else starts !! N.to_nat index in
      start ← offset start; last ← offset last; Some (start, last).

(** ** Output items *)

Definition register_output_item_kind (index : N) (kind : OutputItemKind) : Reducing unit :=
  let! kinds := reading rr_output_item_kinds in
  match kinds !! index with
  | Some existing =>
      st_ensure (bool_decide (existing = kind))
        (malformed ("Responses output item " ++ show_decimal index ++ " changed type from "
                    ++ kind_label existing ++ " to " ++ kind_label kind)%string)
  | None => update (set_rr_output_item_kinds (<[index := kind]> kinds))
  end.

(** Another item has this index. *)
Definition index_taken (indices : gmap string N) (item_id : string) (index : N) : bool :=
  existsb (λ entry, negb (String.eqb entry.1 item_id) && (entry.2 =? index)%N)
    (map_to_list indices).

(** The identity of an item at an index; [mismatch] is the error of an item seen
    at another index. *)
Definition register_identity (mismatch item_id : string) (raw_index : N) : Reducing unit :=
  let! indices := reading rr_output_item_indices in
  match indices !! item_id with
  | Some existing => st_ensure (existing =? raw_index)%N (malformed mismatch)
  | None =>
      do! st_ensure (negb (index_taken indices item_id raw_index))
            (malformed "Responses output index changed item identity") in
      update (set_rr_output_item_indices (<[item_id := raw_index]> indices))
  end.

Definition register_output_item_identity (raw_index : N) (item : Value) : Reducing N :=
  match get_str item "id" with
  | None => st_ret raw_index
  | Some item_id =>
      do! register_identity "Responses output item changed index" item_id raw_index in
      st_ret raw_index
  end.

Definition resolve_output_index (value : Value) : Reducing N :=
  let! raw := st_lift (output_index value) in
  do! match get_str value "item_id" with
      | Some item_id =>
          register_identity "Responses event output index does not match item" item_id raw
      | None => st_ret tt
      end in
  st_ret raw.

(** ** Function calls *)

Definition start_function_call (index : N) (item : Value) : Reducing unit :=
  let! call_id := st_lift (ok_or (get_str item "call_id")
                             (malformed "Responses function call id missing")) in
  let! name := st_lift (ok_or (get_str item "name")
                          (malformed "Responses function name missing")) in
  do! register_output_item_kind index KindFunctionCall in
  let! calls := reading rr_tool_calls in
  match calls !! index with
  | Some existing =>
      st_ensure (String.eqb (fc_provider_call_id existing) call_id
                 && String.eqb (fc_name existing) name)
        (malformed "Responses function call changed identity")
  | None =>
      let! provider_id := st_lift (or_malformed "Responses function call id"
                                     (parse_provider_call_id call_id)) in
      let! stream_index := st_lift (stream_index index) in
      let arguments := default ""%string (get_str item "arguments") in
      do! update (set_rr_tool_calls
                    (<[index := mk_FunctionCallAccumulator index call_id name arguments false]> calls)) in
      let! kind := reading rr_terminal_kind in
      do! update (set_rr_terminal_kind (observe_tool_use kind)) in
      let! started := st_lift (or_malformed "Responses function call start"
                                 (tool_call_started_new stream_index provider_id name)) in
      push (ModelToolCallStarted started)
  end.

Definition append_tool_arguments (index : N) (delta : string) : Reducing unit :=
  let! calls := reading rr_tool_calls in
  let! call := st_lift (ok_or (calls !! index)
                          (malformed "Responses arguments without function call")) in
  do! st_ensure (negb (fc_completed call))
        (malformed "Responses arguments after completed function call") in
  do! update (set_rr_tool_calls
        (<[index := mk_FunctionCallAccumulator (fc_index call) (fc_provider_call_id call) (fc_name call)
                      (fc_arguments call ++ delta) (fc_completed call)]> calls)) in
  let! provider_id := st_lift (or_malformed "Responses function call id"
                                 (parse_provider_call_id (fc_provider_call_id call))) in
  let! stream_index := st_lift (stream_index index) in
  let! delta := st_lift (or_malformed "Responses function arguments delta"
                           (tool_arguments_delta_new stream_index provider_id delta)) in
  push (ModelToolArgumentsDelta delta).

Definition reconcile_tool_arguments (index : N) (arguments : string) : Reducing unit :=
  let! calls := reading rr_tool_calls in
  let! call := st_lift (ok_or (calls !! index)
                          (malformed "Responses arguments without function call")) in
  if String.eqb arguments (fc_arguments call) then st_ret tt
  else
    let! suffix := st_lift (ok_or (strip_prefix (fc_arguments call) arguments)
                              (malformed "Responses function arguments changed")) in
    if String.eqb suffix "" then st_ret tt else append_tool_arguments index suffix.

Section codec.
Context `{Codec}.

Definition complete_tool_call (index : N) : Reducing unit :=
  let! calls := reading rr_tool_calls in
  let! call := st_lift (ok_or (calls !! index)
                          (malformed "Responses completed function call missing")) in
  if fc_completed call then st_ret tt
  else
    let! arguments := st_lift
      (if String.eqb (fc_arguments call) "" then Ok (JObject [])
       else ok_or (json_parse (fc_arguments call))
              (malformed "Responses function arguments did not parse")) in
    let! provider_id := st_lift (or_malformed "Responses function call id"
                                   (parse_provider_call_id (fc_provider_call_id call))) in
    let! stream_index := st_lift (stream_index (fc_index call)) in
    do! update (set_rr_tool_calls
          (<[index := mk_FunctionCallAccumulator (fc_index call) (fc_provider_call_id call)
                        (fc_name call) (fc_arguments call) true]> calls)) in
    let! completed := st_lift (or_malformed "Responses completed function call"
      (tool_call_completed_new stream_index provider_id (fc_name call) arguments)) in
    push (ModelToolCallCompleted completed).

(** ** Text and reasoning *)

(** [entry(key).or_default()]. *)
Definition text_at {K} `{Countable K} (key : K) (texts : gmap K string) : string :=
  default ""%string (texts !! key).

Definition append_output_text (index content_index : N) (delta : string) : Reducing unit :=
  do! update (λ r, set_rr_text
        (<[index := (text_at index (rr_text_by_index r) ++ delta)%string]> (rr_text_by_index r))
        (<[(index, content_index) :=
             (text_at (index, content_index) (rr_text_by_content r) ++ delta)%string]>
           (rr_text_by_content r))
        (rr_emitted_text r ++ delta) r) in
  let! delta := st_lift (or_malformed "Responses text delta" (utf8_delta_new delta)) in
  push (ModelTextDelta delta).

Definition reconcile_text (index content_index : N) (text : string) : Reducing unit :=
  let! current := reading (λ r, text_at (index, content_index) (rr_text_by_content r)) in
  do! update (λ r, set_rr_text (rr_text_by_index r)
        (<[(index, content_index) := current]> (rr_text_by_content r)) (rr_emitted_text r) r) in
  let! suffix := st_lift (ok_or (strip_prefix current text)
                            (malformed "Responses output text changed")) in
  if String.eqb suffix "" then st_ret tt else append_output_text index content_index suffix.

Definition append_reasoning (key : Coordinate) (delta : string) : Reducing unit :=
  do! update (λ r, set_rr_reasoning
        (<[key := (text_at key (rr_reasoning_by_index r) ++ delta)%string]>
           (rr_reasoning_by_index r)) r) in
  let! delta := st_lift (or_malformed "Responses reasoning delta" (utf8_delta_new delta)) in
  push (ModelThinkingDelta delta).

Definition reconcile_reasoning (index summary_index : N) (text : string) : Reducing unit :=
  let! current := reading (λ r, text_at (index, summary_index) (rr_reasoning_by_index r)) in
  do! update (λ r, set_rr_reasoning
        (<[(index, summary_index) := current]> (rr_reasoning_by_index r)) r) in
  let! suffix := st_lift (ok_or (strip_prefix current text)
                            (malformed "Responses reasoning text changed")) in
  if String.eqb suffix "" then st_ret tt else append_reasoning (index, summary_index) suffix.

(** ** Hosted web searches *)

Definition start_hosted_search (index : N) (item : Value) : Reducing unit :=
  let! call_id := st_lift (ok_or (get_str item "id")
                             (malformed "Responses web-search call id missing")) in
  do! register_output_item_kind index KindHostedSearch in
  let! searches := reading rr_hosted_searches in
  match searches !! index with
  | Some existing =>
      st_ensure (String.eqb (hsa_provider_call_id existing) call_id)
        (malformed "Responses web-search call changed identity")
  | None =>
      let! provider_id := st_lift (or_malformed "Responses web-search call id"
                                     (parse_provider_call_id call_id)) in
      do! update (set_rr_hosted_searches
                    (<[index := mk_HostedSearchAccumulator call_id false ∅ None]> searches)) in
      let! stream_index := st_lift (stream_index index) in
      let! started := st_lift (or_malformed "Responses web-search call start"
                                 (hosted_tool_started_new stream_index provider_id "web_search")) in
      push (ModelHostedToolStarted started)
  end.

Definition is_url_source (source : Value) : bool :=
  bool_decide (get_str source "type" = Some "url"%string).

Definition parse_web_search_sources (action : Value)
    : Result OpenAiError (list ExternalSource) :=
  match json_get action "sources" with
  | None => Ok []
  | Some raw_sources =>
      let? raw_sources := ok_or (json_as_array raw_sources)
        (malformed "Responses web-search sources are not an array") in
      result_map (λ source,
          let? url := ok_or (get_str source "url")
            (malformed "Responses web-search source URL missing") in
          or_malformed "Responses web-search source URL invalid" (external_source_new url))
        (List.filter is_url_source raw_sources)
  end.

Definition search_outcome (item : Value) : Result OpenAiError HostedToolOutcome :=
  let? status := ok_or (get_str item "status") (malformed "Responses web-search status missing") in
  if String.eqb status "completed" then Ok HostedSuccess
  else if String.eqb status "failed" then
    let? error := or_malformed "Responses web-search failure"
      (hosted_tool_error_new "provider_failed" "OpenAI web search call failed") in
    Ok (HostedError error)
  else Err (malformed "Responses web-search call completed without terminal status").

(** The entries of the action object. *)
Definition search_action (item : Value) (outcome : HostedToolOutcome)
    : Result OpenAiError (list (string * Value)) :=
  match json_get item "action", outcome with
  | Some (JObject action), _ => Ok action
  | (Some JNull | None), HostedError _ => Ok []
  | _, _ => Err (malformed "Responses web-search action missing")
  end.

(** ** Citations *)

(** The completed search that is the only one to name a source. *)
Definition provider_call_for_source (searches : gmap N HostedSearchAccumulator) (url : string)
    : Result OpenAiError (option ProviderToolCallId) :=
  let matching := List.filter (λ search : HostedSearchAccumulator,
      hsa_completed search && bool_decide (url ∈ hsa_source_urls search))
    (btree_entries N.leb searches).*2 in
  match matching with
  | [search] =>
      let? id := or_malformed "Responses web-search call id"
                   (parse_provider_call_id (hsa_provider_call_id search)) in
      Ok (Some id)
  | _ => Ok None
  end.

Definition search_pending (searches : gmap N HostedSearchAccumulator) : bool :=
  existsb (λ entry, negb (hsa_completed entry.2)) (map_to_list searches).

Definition continuation_bytes (citation : SourceCitation) : Result OpenAiError N :=
  match sc_continuation citation with
  | Some continuation =>
      ok_or (json_len (pc_payload continuation))
        (malformed "Responses URL citation continuation serialization")
  | None => Ok 0%N
  end.

Definition emit_or_defer_citation (finalize_unmatched : bool) (key : CitationKey)
    (citation : SourceCitation) : Reducing unit :=
  let! searches := reading rr_hosted_searches in
  let! provider_call_id :=
    st_lift (provider_call_for_source searches (es_url (sc_source citation))) in
  if negb finalize_unmatched
     && (bool_decide (provider_call_id = None) || search_pending searches)
  then
    let! added := st_lift (continuation_bytes citation) in
    let! before := reading rr_pending_citation_bytes in
    let! pending_bytes := st_lift (ok_or
      (total ← checked_add_u64 before added;
       if (total <=? MAX_PROVIDER_CONTINUATION_BYTES)%N then Some total else None)
      (malformed "Responses pending URL citations exceeded bounds")) in
    let! pending := reading rr_pending_citations in
    do! st_ensure (negb (MAX_PENDING_CITATIONS <=? size pending)%nat)
          (malformed "Responses pending URL citations exceeded bounds") in
    update (set_rr_pending (<[key := citation]> pending) pending_bytes)
  else
    let! citation := st_lift (or_malformed "Responses URL citation invalid"
                                (source_citation_new provider_call_id citation)) in
    push (ModelSourceCited citation).

(** The order of the keys. *)
Definition citation_key_leb (a b : CitationKey) : bool :=
  lex_leb (N.compare a.1.1 b.1.1) (lex_leb (N.compare a.1.2 b.1.2) (a.2 <=? b.2)%N).

Definition flush_pending_citations (finalize_unmatched : bool) : Reducing unit :=
  let! pending := reading rr_pending_citations in
  do! update (set_rr_pending ∅ 0) in
  st_for (btree_entries citation_key_leb pending)
    (λ entry, emit_or_defer_citation finalize_unmatched entry.1 entry.2).

Definition url_citation_source (annotation : Value) : Result OpenAiError ExternalSource :=
  let? url := ok_or (get_str annotation "url") (malformed "Responses URL citation URL missing") in
  let? source := or_malformed "Responses URL citation URL invalid" (external_source_new url) in
  match json_get annotation "title" with
  | Some (JString title) =>
      or_malformed "Responses URL citation title invalid" (source_with_title source title)
  | Some JNull | None => Ok source
  | Some _ => Err (malformed "Responses URL citation title invalid")
  end.

(** The bytes of the texts of an output item before a content index. *)
Definition prefix_bytes (texts : gmap Coordinate string) (index content_index : N) : option N :=
  foldl (λ total entry,
      total ← total;
      if (entry.1.1 =? index)%N && (entry.1.2 <? content_index)%N
      then checked_add_u64 total (str_len entry.2) else Some total)
    (Some 0%N) (map_to_list texts).

Definition u32_of (n : N) : option N := if (n <=? U32_MAX)%N then Some n else None.

(** The citation of a range of characters of the text at a coordinate, as a range
    of bytes of the text of its output item. *)
Definition range_citation (r : ResponsesReducer) (key : Coordinate) (annotation : Value)
    (source : ExternalSource) : Result OpenAiError SourceCitation :=
  let? start := ok_or (get_u64 annotation "start_index")
    (malformed "Responses URL citation start index missing") in
  let? last := ok_or (get_u64 annotation "end_index")
    (malformed "Responses URL citation end index missing") in
  let? text := ok_or (rr_text_by_content r !! key)
    (malformed "Responses URL citation without output text") in
  let? range := ok_or (character_range_to_bytes text start last)
    (malformed "Responses URL citation range invalid") in
  let '(local_start, local_end) := range in
  let out_of_bounds := malformed "Responses URL citation range out of bounds" in
  let? before := ok_or (prefix_bytes (rr_text_by_content r) key.1 key.2) out_of_bounds in
  let? start := ok_or (checked_add_u64 before (N.of_nat local_start)) out_of_bounds in
  let? last := ok_or (checked_add_u64 before (N.of_nat local_end)) out_of_bounds in
  let? start_index := ok_or (u32_of start) out_of_bounds in
  let? end_index := ok_or (u32_of last) out_of_bounds in
  let? continuation := or_malformed "Responses URL citation continuation exceeded bounds"
    (continuation_new (rr_provider_id r) URL_CITATION_CONTINUATION_FORMAT annotation) in
  or_malformed "Responses URL citation invalid"
    (let? citation := with_range (citation_new source) start_index end_index in
     let? citation := with_cited_text citation
                        (String.substring local_start (local_end - local_start) text) in
     Ok (with_continuation citation continuation)).

Definition emit_annotation (index content_index annotation_index : N) (annotation : Value)
    : Reducing unit :=
  if negb (bool_decide (get_str annotation "type" = Some "url_citation"%string)) then st_ret tt
  else
    let key := (index, content_index, annotation_index) in
    let! payloads := reading rr_citation_payloads in
    match payloads !! key with
    | Some existing =>
        st_ensure (bool_decide (existing = annotation))
          (malformed "Responses URL citation changed payload")
    | None =>
        let! source := st_lift (url_citation_source annotation) in
        let! cited :=
          reading (λ r, range_citation r (index, content_index) annotation source) in
        let! citation := st_lift cited in
        do! emit_or_defer_citation false key citation in
        update (λ r, set_rr_citation_payloads (<[key := annotation]> (rr_citation_payloads r)) r)
    end.

(** ** Completed output items *)

(** The search is present once it was started ([start_hosted_search_present]): the
    other branch stands for the [expect]s of the source. *)
Definition complete_hosted_search (index : N) (item : Value) : Reducing unit :=
  do! start_hosted_search index item in
  let! searches := reading rr_hosted_searches in
  match searches !! index with
  | None => st_ret tt
  | Some search =>
      if hsa_completed search then
        st_ensure (bool_decide (hsa_completed_item search = Some item))
          (malformed "Responses completed web-search call changed payload")
      else
        let! outcome := st_lift (search_outcome item) in
        let! action := st_lift (search_action item outcome) in
        let! sources := st_lift (parse_web_search_sources (JObject action)) in
        let source_urls : gset string := list_to_set (es_url <$> sources) in
        let arguments := JObject (without_key "sources" action) in
        let! provider := reading rr_provider_id in
        let! continuation :=
          st_lift (or_malformed "Responses web-search continuation exceeded bounds"
                     (continuation_new provider WEB_SEARCH_CONTINUATION_FORMAT item)) in
        let! provider_id := st_lift (or_malformed "Responses web-search call id"
          (parse_provider_call_id (hsa_provider_call_id search))) in
        let! stream_index := st_lift (stream_index index) in
        let! completed := st_lift (or_malformed "Responses completed web-search call"
          (hosted_tool_completed_new stream_index provider_id "web_search" arguments outcome
             sources (Some continuation))) in
        do! update (set_rr_hosted_searches
              (<[index := mk_HostedSearchAccumulator (hsa_provider_call_id search) true
                            source_urls (Some item)]> searches)) in
        do! push (ModelHostedToolCompleted completed) in
        flush_pending_citations false
  end.

(** [iter().enumerate()] with the index as [u16]. *)
Fixpoint for_indexed (what : string) (index : N) (values : list Value)
    (f : N → Value → Reducing unit) : Reducing unit :=
  match values with
  | [] => st_ret tt
  | value :: values =>
      let! i := st_lift (ok_or (u16_of index) (malformed what)) in
      do! f i value in
      for_indexed what (index + 1) values f
  end.

Definition content_range : string := "Responses content index out of range".

Definition reconcile_message_content (index : N) (item : Value) : Reducing unit :=
  let content := default [] (get_array item "content") in
  do! for_indexed content_range 0 content (λ content_index part,
        match part_text part with
        | Some text => reconcile_text index content_index text
        | None => st_ret tt
        end) in
  let complete_text := String.concat "" (omap part_text content) in
  let! texts := reading rr_text_by_index in
  st_ensure (match texts !! index with
             | Some text => String.eqb text complete_text
             | None => true
             end) (malformed "Responses output text changed").

Definition emit_message_annotations (index : N) (item : Value) : Reducing unit :=
  for_indexed content_range 0 (default [] (get_array item "content")) (λ content_index part,
    for_indexed "Responses annotation index out of range" 0
      (default [] (get_array part "annotations")) (emit_annotation index content_index)).

Definition reconcile_summaries (index : N) (item : Value) : Reducing unit :=
  for_indexed "Responses reasoning summary index out of range" 0
    (default [] (get_array item "summary")) (λ summary_index summary,
      match nonempty_string summary "text" with
      | Some text => reconcile_reasoning index summary_index text
      | None => st_ret tt
      end).

Definition complete_output_item (index : N) (item : Value) : Reducing unit :=
  let! kind := st_lift (output_item_kind item) in
  do! register_output_item_kind index kind in
  match kind with
  | KindFunctionCall =>
      do! start_function_call index item in
      do! match get_str item "arguments" with
          | Some arguments => reconcile_tool_arguments index arguments
          | None => st_ret tt
          end in
      complete_tool_call index
  | KindHostedSearch => complete_hosted_search index item
  | KindMessage =>
      do! (if item_contains_refusal item then observe_refusal else st_ret tt) in
      do! reconcile_message_content index item in
      emit_message_annotations index item
  | KindReasoning => reconcile_summaries index item
  | KindOther _ => st_ret tt
  end.

(** ** The completed response *)

Definition terminal_output_item_index (raw_index : N) (item : Value) : Reducing N :=
  register_output_item_identity raw_index item.

(** The items with their indices, and the texts of the completed messages. *)
Record TerminalOutput : Set := mk_TerminalOutput {
  to_indexed_items : list (N * Value);
  to_text_by_content : gmap Coordinate string;
  to_text : string
}.

Fixpoint terminal_parts (index content_index : N) (content : list Value) (output : TerminalOutput)
    : Result OpenAiError TerminalOutput :=
  match content with
  | [] => Ok output
  | part :: content =>
      let? i := ok_or (u16_of content_index) (malformed content_range) in
      let? text := completed_message_part_text part in
      terminal_parts index (content_index + 1) content
        (mk_TerminalOutput (to_indexed_items output)
           (<[(index, i) := text]> (to_text_by_content output)) (to_text output ++ text))
  end.

Definition terminal_message (index : N) (item : Value) (output : TerminalOutput)
    : Result OpenAiError TerminalOutput :=
  try? ensure (match json_get item "status" with
               | Some status => bool_decide (json_as_str status = Some "completed"%string)
               | None => true
               end) (malformed "Responses completed message has non-completed status") in
  let? content := ok_or (get_array item "content")
    (malformed "Responses completed message content missing") in
  terminal_parts index 0 content output.

Fixpoint terminal_items (raw_index : N) (items : list Value) (output : TerminalOutput)
    : Reducing TerminalOutput :=
  match items with
  | [] => st_ret output
  | item :: items =>
      let! i := st_lift (ok_or (u16_of raw_index) (malformed "Responses output index out of range")) in
      let! index := terminal_output_item_index i item in
      let! kind := st_lift (output_item_kind item) in
      let! output := st_lift (if bool_decide (kind = KindMessage)
                              then terminal_message index item output else Ok output) in
      terminal_items (raw_index + 1) items
        (mk_TerminalOutput (to_indexed_items output ++ [(index, item)])
           (to_text_by_content output) (to_text output))
  end.

(** The streamed text is the text of the completed messages, part by part. *)
Definition text_matches (r : ResponsesReducer) (output : TerminalOutput) : bool :=
  let streamed := rr_text_by_content r in
  let terminal := to_text_by_content output in
  String.eqb (rr_emitted_text r) (to_text output)
  && forallb (λ entry, bool_decide (terminal !! entry.1 = Some entry.2)) (map_to_list streamed)
  && forallb (λ entry, match streamed !! entry.1 with
                       | Some text => String.eqb text entry.2
                       | None => String.eqb entry.2 ""
                       end) (map_to_list terminal).

Definition complete_response_output (response : Value) : Reducing unit :=
  let! output := st_lift (ok_or (get_array response "output")
    (malformed "Responses completed output missing or invalid")) in
  do! st_ensure (negb (is_empty output)) (malformed "Responses completed output is empty") in
  let! terminal := terminal_items 0 output (mk_TerminalOutput [] ∅ "") in
  let! matches := reading (λ r, text_matches r terminal) in
  do! st_ensure matches (malformed "Responses streamed text does not match completed output") in
  st_for (to_indexed_items terminal) (λ entry, complete_output_item entry.1 entry.2).

Definition call_pending (calls : gmap N FunctionCallAccumulator) : bool :=
  existsb (λ entry, negb (fc_completed entry.2)) (map_to_list calls).

Definition ensure_output_items_complete : Reducing unit :=
  let! calls := reading rr_tool_calls in
  do! st_ensure (negb (call_pending calls))
        (malformed "Responses stream ended with function call without completion") in
  let! searches := reading rr_hosted_searches in
  st_ensure (negb (search_pending searches))
    (malformed "Responses stream ended with web-search call without completion").

(** ** Usage and failures *)

Definition token_value (value : Value) (key : string) : Result OpenAiError N :=
  ok_or (get_u64 value key) (malformed "Responses usage field missing").

Definition optional_token_value (value : option Value) (key : string)
    : Result OpenAiError (option TokenCount) :=
  match value ≫= λ v, json_get v key with
  | None => Ok None
  | Some raw =>
      let? raw := ok_or (json_as_u64 raw) (malformed "Responses usage field invalid") in
      let? count := or_malformed "Responses usage field out of range" (token_count_new raw) in
      Ok (Some count)
  end.

(** [map_or(0, TokenCount::get)]. *)
Definition token_or_zero (count : option TokenCount) : N :=
  match count with Some count => tok_get count | None => 0%N end.

(** [if let Some(count) = count { usage = with_count(count) }]. *)
Definition with_optional (with_count : Usage → TokenCount → Usage) (usage : Usage)
    (count : option TokenCount) : Usage :=
  match count with Some count => with_count usage count | None => usage end.

Definition parse_usage (response : Value) : Result OpenAiError (option Usage) :=
  match json_get response "usage" with
  | None | Some JNull => Ok None
  | Some value =>
      let? raw_input := token_value value "input_tokens" in
      let? output := token_value value "output_tokens" in
      let? total := token_value value "total_tokens" in
      try? ensure (bool_decide (checked_add_u64 raw_input output = Some total))
             (malformed "Responses total usage is inconsistent") in
      let details := json_get value "input_tokens_details" in
      let? cache_read := optional_token_value details "cached_tokens" in
      let? cache_write := optional_token_value details "cache_write_tokens" in
      let? billable := ok_or (input ← checked_sub raw_input (token_or_zero cache_read);
                              checked_sub input (token_or_zero cache_write))
        (malformed "Responses cached input usage exceeds total input") in
      let? input := or_malformed "Responses input usage" (token_count_new billable) in
      let? output := or_malformed "Responses output usage" (token_count_new output) in
      let usage := with_optional with_cache_write
                     (with_optional with_cache_read (usage_new input output) cache_read)
                     cache_write in
      let? reasoning :=
        optional_token_value (json_get value "output_tokens_details") "reasoning_tokens" in
      match reasoning with
      | Some reasoning =>
          let? usage := or_malformed "Responses reasoning usage" (with_reasoning usage reasoning) in
          Ok (Some usage)
      | None => Ok (Some usage)
      end
  end.

Definition failure_class (code : string) : ModelFailureCode * RetryClass :=
  let matches name := String.eqb code name in
  if matches "invalid_api_key" || matches "authentication_error" then (FailAuthentication, RetryClassNever)
  else if matches "permission_denied" then (FailPermissionDenied, RetryClassNever)
  else if matches "rate_limit_exceeded" || matches "insufficient_quota" then
    (FailRateLimited, RetryAfterBackoff)
  else if matches "server_error" || matches "overloaded" then (FailUnavailable, RetryAfterBackoff)
  else if matches "context_length_exceeded" || matches "max_output_tokens" then
    (FailContextOverflow, RetryClassNever)
  else if matches "cancelled" then (FailCancelled, RetryClassNever)
  else if matches "invalid_request_error" then (FailInvalidRequest, RetryClassNever)
  else (FailMalformedResponse, RetryClassNever).

Definition map_response_failure (response : Value) (incomplete : bool) : ModelFailure :=
  let error := default response (json_get response "error") in
  let reason := json_get response "incomplete_details" ≫= λ details, get_str details "reason" in
  let named := match json_get error "code" with
               | Some code => json_as_str code
               | None => get_str error "type"
               end in
  let code := match named, reason with
              | Some code, _ => code
              | None, Some reason => reason
              | None, None => if incomplete then "incomplete" else "unknown"
              end%string in
  let message := match get_str error "message", reason with
                 | Some message, _ => message
                 | None, Some reason => "response incomplete: " ++ reason
                 | None, None => "OpenAI Responses request failed"
                 end%string in
  let '(failure_code, retry) := failure_class code in
  failure_or_internal (model_failure_new failure_code message retry).

(** ** Events *)

Definition response_info (response : option Value) : Result OpenAiError ModelResponseInfo :=
  match response with
  | None => Ok response_info_new
  | Some response =>
      let? id := match get_str response "id" with
                 | Some id => let? id := or_malformed "Responses response id"
                                           (parse_response_id id) in Ok (Some id)
                 | None => Ok None
                 end in
      let? model := match get_str response "model" with
                    | Some model => let? model := or_malformed "Responses response model"
                                                    (parse_model_id model) in Ok (Some model)
                    | None => Ok None
                    end in
      Ok (mk_ModelResponseInfo id model ∅)
  end.

Definition ensure_started (response : option Value) : Reducing unit :=
  let! started := reading rr_started in
  if started then st_ret tt
  else
    let! info := st_lift (response_info response) in
    do! update set_rr_started in
    push (ModelStarted info).

Definition emit_failure (response : Value) (incomplete : bool) : Reducing unit :=
  do! update set_rr_terminal_emitted in
  push (ModelFailed (map_response_failure response incomplete)).

Definition item_added (value : Value) : Reducing unit :=
  let! raw_index := st_lift (output_index value) in
  let! item := st_lift (ok_or (json_get value "item") (malformed "Responses output item missing")) in
  let! index := register_output_item_identity raw_index item in
  let! kind := st_lift (output_item_kind item) in
  do! register_output_item_kind index kind in
  do! (if item_contains_refusal item then observe_refusal else st_ret tt) in
  match kind with
  | KindFunctionCall => start_function_call index item
  | KindHostedSearch => start_hosted_search index item
  | KindMessage =>
      update (λ r, set_rr_text
        (<[index := text_at index (rr_text_by_index r)]> (rr_text_by_index r))
        (rr_text_by_content r) (rr_emitted_text r) r)
  | KindReasoning =>
      update (λ r, set_rr_reasoning
        (<[(index, 0%N) := text_at (index, 0%N) (rr_reasoning_by_index r)]>
           (rr_reasoning_by_index r)) r)
  | KindOther _ => st_ret tt
  end.

(** The coordinate of an event about the text of a message. *)
Definition message_event (refusal : bool) (value : Value) : Reducing Coordinate :=
  do! (if refusal then observe_refusal else st_ret tt) in
  let! index := resolve_output_index value in
  do! register_output_item_kind index KindMessage in
  let! content_index := st_lift (bounded_event_index value "content_index") in
  st_ret (index, content_index).

Definition text_delta (refusal : bool) (value : Value) : Reducing unit :=
  let! key := message_event refusal value in
  match nonempty_string value "delta" with
  | Some delta => append_output_text key.1 key.2 delta
  | None => st_ret tt
  end.

Definition text_done (refusal : bool) (value : Value) : Reducing unit :=
  let! key := message_event refusal value in
  match part_text value with
  | Some text => reconcile_text key.1 key.2 text
  | None => st_ret tt
  end.

Definition annotation_added (value : Value) : Reducing unit :=
  let! key := message_event false value in
  let! annotation_index := st_lift (bounded_event_index value "annotation_index") in
  let! annotation := st_lift (ok_or (json_get value "annotation")
                                (malformed "Responses annotation missing")) in
  emit_annotation key.1 key.2 annotation_index annotation.

Definition reasoning_delta (value : Value) : Reducing unit :=
  let! index := resolve_output_index value in
  let! summary_index := st_lift (match json_get value "summary_index" with
                                 | Some _ => bounded_event_index value "summary_index"
                                 | None => Ok 0%N
                                 end) in
  do! register_output_item_kind index KindReasoning in
  match nonempty_string value "delta" with
  | Some delta => append_reasoning (index, summary_index) delta
  | None => st_ret tt
  end.

Definition reasoning_done (value : Value) : Reducing unit :=
  let! index := resolve_output_index value in
  do! register_output_item_kind index KindReasoning in
  match get_str value "text" with
  | Some text =>
      let! summary_index := st_lift (bounded_event_index value "summary_index") in
      reconcile_reasoning index summary_index text
  | None => st_ret tt
  end.

Definition arguments_delta (value : Value) : Reducing unit :=
  let! index := resolve_output_index value in
  match nonempty_string value "delta" with
  | Some delta => append_tool_arguments index delta
  | None => st_ret tt
  end.

Definition arguments_done (value : Value) : Reducing unit :=
  let! index := resolve_output_index value in
  match get_str value "arguments" with
  | Some arguments => reconcile_tool_arguments index arguments
  | None => st_ret tt
  end.

Definition search_progress (value : Value) : Reducing unit :=
  let! index := resolve_output_index value in
  let! item_id := st_lift (ok_or (get_str value "item_id")
                             (malformed "Responses web-search item id missing")) in
  start_hosted_search index (JObject [("id"%string, JString item_id)]).

Definition item_done (value : Value) : Reducing unit :=
  let! raw_index := st_lift (output_index value) in
  let! item := st_lift (ok_or (json_get value "item")
                          (malformed "Responses completed output item missing")) in
  let! index := register_output_item_identity raw_index item in
  complete_output_item index item.

(** [is_some_and(|value| !value.is_null())]. *)
Definition present (value : Value) (key : string) : bool :=
  match json_get value key with Some value => negb (json_is_null value) | None => false end.

Definition response_completed (response : option Value) : Reducing unit :=
  let! response := st_lift (ok_or response (malformed "completed response missing")) in
  do! st_ensure (bool_decide (get_str response "status" = Some "completed"%string))
        (malformed "Responses completed event has non-completed response status") in
  do! st_ensure (negb (present response "error" || present response "incomplete_details"))
        (malformed "Responses completed event contains terminal failure details") in
  do! complete_response_output response in
  do! ensure_output_items_complete in
  do! flush_pending_citations true in
  let! kind := reading rr_terminal_kind in
  let! completion := st_lift (or_malformed "Responses completion reason"
                                (completion_new (terminal_stop_reason kind))) in
  let! usage := st_lift (parse_usage response) in
  do! update set_rr_terminal_emitted in
  push (ModelCompleted (with_usage completion usage)).

Definition responses_event (kind : string) (value : Value) (response : option Value)
    : Reducing unit :=
  let matches name := String.eqb kind name in
  if matches "response.created" then st_ret tt
  else if matches "response.output_item.added" then item_added value
  else if matches "response.output_text.delta" then text_delta false value
  else if matches "response.refusal.delta" then text_delta true value
  else if matches "response.output_text.done" then text_done false value
  else if matches "response.refusal.done" then text_done true value
  else if matches "response.output_text.annotation.added" then annotation_added value
  else if matches "response.reasoning_summary_text.delta" || matches "response.reasoning_text.delta" then
    reasoning_delta value
  else if matches "response.reasoning_summary_text.done" then reasoning_done value
  else if matches "response.function_call_arguments.delta" then arguments_delta value
  else if matches "response.function_call_arguments.done" then arguments_done value
  else if matches "response.web_search_call.in_progress" || matches "response.web_search_call.searching"
          || matches "response.web_search_call.completed" then search_progress value
  else if matches "response.output_item.done" then item_done value
  else if matches "response.completed" then response_completed response
  else if matches "response.failed" then emit_failure (default value response) false
  else if matches "response.incomplete" then emit_failure (default value response) true
  else if matches "error" || bool_decide (is_Some (json_get value "error")) then
    emit_failure value false
  else st_ret tt.

Definition responses_chunk_events (value : Value) : Reducing unit :=
  let! terminal := reading rr_terminal_emitted in
  do! st_ensure (negb terminal) (malformed "event arrived after Responses stream terminal") in
  let kind := default ""%string (get_str value "type") in
  let response := json_get value "response" in
  do! ensure_started response in
  responses_event kind value response.

Definition responses_map_chunk (value : Value) : ST ResponsesReducer OpenAiError (list ModelEvent) :=
  mapped (responses_chunk_events value).

Definition responses_finish : ST ResponsesReducer OpenAiError (option ModelEvent) :=
  let! terminal := st_gets rr_terminal_emitted in
  if terminal then st_ret None
  else
    do! st_modify set_rr_terminal_emitted in
    st_ret (Some (ModelFailed (failure_or_internal
      (model_failure_new FailMalformedResponse "Responses stream ended before a terminal event"
         RetryClassNever)))).
End codec.
