(* ===== verification/OpenAiStream.v ===== *)
(** * OpenAI provider streams

    [crates/tea-provider-openai/src/provider.rs]: the stream of one request, from
    the outcome of the HTTP exchange to normalized events.  The reducer that maps
    the payloads of the response is an interface ([StreamReducer]); a lawful one
    maps payloads to pieces of one grammatical stream, and then every stream of
    the provider is grammatical. *)

From S2P Require Import Prelude Protocol Utf8 Sse Tools Validation Usage ModelSpec Event.
From S2P Require Import KernelBase ModelStream ProviderHttp ProviderStream OpenAiChat OpenAiResponses.
Local Open Scope tea_scope.

(** ** The reducer of an API mode *)

Record StreamReducer : Type := mk_StreamReducer {
  red_state : Type;
  red_new : red_state;
  red_map_chunk : Value → ST red_state OpenAiError (list ModelEvent);
  red_finish : ST red_state OpenAiError (option ModelEvent)
}.

Definition chat_reducer `{Codec, JsonText} : StreamReducer :=
  mk_StreamReducer ChunkReducer chunk_reducer_new map_chunk chunk_finish.
Definition responses_reducer `{Codec} (provider_id : string) : StreamReducer :=
  mk_StreamReducer ResponsesReducer (for_provider provider_id) responses_map_chunk responses_finish.

(** ** The stream *)

Definition transport_failure (transport : bool) : ModelFailure :=
  failure_or_internal
    (model_failure_new (if transport then FailTransport else FailInternal)
       "openai transport error" RetryImmediate).

Section provider.
Context `{Codec, JsonText}.

Definition parse_sse_payload (payload : string) : Result OpenAiError Value :=
  ok_or (json_parse payload) (openai_error OaMalformedResponse "invalid OpenAI SSE JSON").

Section stream.
Context (R : StreamReducer).

Definition handle_payload (payload : string) : Streaming (red_state R) unit :=
  match parse_sse_payload payload with
  | Err error => fail_stream (adapter_failure error)
  | Ok value =>
      let! result := on_reducer (red_map_chunk R value) in
      relay_result adapter_failure result
  end.

Definition handle_finish : Streaming (red_state R) unit :=
  let! result := on_reducer (red_finish R) in
  match result with
  | Ok (Some (ModelCompleted completion)) => set_pending completion
  | Ok (Some (ModelFailed failure)) => fail_stream failure
  | Ok (Some event) => stream_yield event
  | Ok None => st_ret tt
  | Err error => fail_stream (adapter_failure error)
  end.

(** The events of one chunk of the body; whether [DONE] was among them. *)
Fixpoint handle_events (saw_done : bool) (events : list SseEvent) : Streaming (red_state R) bool :=
  match events with
  | [] => st_ret saw_done
  | event :: events =>
      if saw_done then
        fail_stream (adapter_failure
          (openai_error OaMalformedResponse "SSE event arrived after [DONE]"))
      else
        match event with
        | SseData payload => do! handle_payload payload in handle_events false events
        | SseDone => do! handle_finish in handle_events true events
        end
  end.

(** The end of the body: [DONE] is ignored here. *)
Definition finish_stream : Streaming (red_state R) unit :=
  let! parser := st_gets ss_parser in
  let '(events, parser) := sse_finish parser in
  do! set_parser parser in
  do! st_for events (λ event, match event with
                              | SseData payload => handle_payload payload
                              | SseDone => st_ret tt
                              end) in
  do! handle_finish in
  complete_stream.

Fixpoint stream_chunks (chunks : list BodyChunk) : Streaming (red_state R) unit :=
  match chunks with
  | [] => finish_stream
  | BodyCancelled :: _ => fail_stream cancelled_failure
  | BodyError transport :: _ => fail_stream (transport_failure transport)
  | BodyBytes chunk :: chunks =>
      let! parser := st_gets ss_parser in
      let '(events, parser) := feed parser chunk in
      do! set_parser parser in
      let! saw_done := handle_events false events in
      if saw_done then complete_stream else stream_chunks chunks
  end.

Definition response_stream (chunks : list BodyChunk) : list ModelEvent :=
  ss_yielded (stream_chunks chunks (stream_state_new (red_new R))).2.
End stream.

(** ** Responses that are not streamed *)

Definition MAX_NON_STREAMING_RESPONSE_BODY_BYTES : N := (MAX_TEXT_BLOCK_BYTES * 8)%N.

Definition malformed_success_body : ModelFailure :=
  failure_or_internal
    (model_failure_new FailMalformedResponse
       "non-streaming Chat Completions response body exceeds the supported bound" RetryClassNever).

Fixpoint read_bounded_success_body (body : list N) (chunks : list BodyChunk)
    : Result ModelFailure (list N) :=
  match chunks with
  | [] => Ok body
  | BodyCancelled :: _ => Err cancelled_failure
  | BodyError transport :: _ => Err (transport_failure transport)
  | BodyBytes chunk :: chunks =>
      if (MAX_NON_STREAMING_RESPONSE_BODY_BYTES <? N.of_nat (length body + length chunk))%N
      then Err malformed_success_body
      else read_bounded_success_body (body ++ chunk) chunks
  end.

Definition complete_response (chunks : list BodyChunk) : list ModelEvent :=
  match read_bounded_success_body [] chunks with
  | Err failure => failed_events failure
  | Ok body =>
      match json_parse (string_of_bytes body) with
      | None => failed_events (adapter_failure
                  (openai_error OaMalformedResponse "invalid non-streaming Chat Completions JSON"))
      | Some value =>
          match map_chat_completion_response value with
          | Ok events => events
          | Err error => failed_events (adapter_failure error)
          end
      end
  end.

(** ** A request *)

Inductive OpenAiApiMode : Set := ChatCompletions | Responses.

(** [stream]: over the configured provider and mode, the body
    [validated_request_body] built for the request, and the exchange. *)
Definition openai_stream (provider_id : string) (mode : OpenAiApiMode)
    (body : Result ModelFailure Value) (exchange : Exchange) : list ModelEvent :=
  match body with
  | Err failure => failed_events failure
  | Ok body =>
      match get_bool body "stream" with
      | None => failed_events (failure_or_internal (model_failure_new FailInternal
                  "OpenAI request body omitted the stream mode" RetryClassNever))
      | Some streaming =>
          match exchange with
          | ExchangeCancelled => failed_events cancelled_failure
          | ExchangeFailed transport => failed_events (transport_failure transport)
          | ExchangeError status retry_after body =>
              failed_events (with_retry_after
                (map_http_failure status (read_bounded_error_body body)) retry_after)
          | ExchangeOk chunks =>
              if streaming then
                match mode with
                | ChatCompletions => response_stream chat_reducer chunks
                | Responses => response_stream (responses_reducer provider_id) chunks
                end
              else
                match mode with
                | ChatCompletions => complete_response chunks
                | Responses => failed_events (failure_or_internal (model_failure_new FailInternal
                    "non-streaming OpenAI response used an unsupported API mode" RetryClassNever))
                end
          end
      end
  end.
End provider.
