(* ===== verification/OpenAiTheorems.v ===== *)
(** * OpenAI provider streams are grammatical

    What a reducer promises the provider ([LawfulReducer]), the provider's
    streams over a lawful reducer, and the law of the Chat Completions reducer. *)

From S2P Require Import Prelude Protocol Utf8 Sse Tools Validation Usage ModelSpec Event.
From S2P Require Import KernelBase ModelStream ProviderHttp ProviderStream ProviderStreamLogic OpenAiChat OpenAiStream.
Local Open Scope tea_scope.

(** ** The contract of a reducer *)

(** [red_inv out r]: after mapping payloads to the events [out], the state is
    [r].  The events are one stream, finished or not; ending a finished one adds
    nothing, ending an unfinished one completes it or fails. *)
Class LawfulReducer (R : StreamReducer) : Type := mk_LawfulReducer {
  red_inv : list ModelEvent → red_state R → Prop;
  red_inv_new : red_inv [] (red_new R);
  red_inv_chunk : ∀ out r value events r',
    red_inv out r → red_map_chunk R value r = (Ok events, r') → red_inv (out ++ events) r';
  red_inv_stream : ∀ out r, red_inv out r → unfinished out ∨ grammatical out;
  red_finish_none : ∀ out r r', red_inv out r → red_finish R r = (Ok None, r') → grammatical out;
  red_finish_some : ∀ out r event r',
    red_inv out r → red_finish R r = (Ok (Some event), r') →
    match event with
    | ModelCompleted _ => grammatical (out ++ [event])
    | ModelFailed _ => True
    | _ => False
    end
}.

(** ** The provider over a lawful reducer *)

Section provider.
Context `{Codec, JsonText} (R : StreamReducer) `{!LawfulReducer R}.

Notation in_step := (relaying (red_inv (R := R))).

Lemma handle_payload_streams payload :
  streams in_step (handle_payload R payload) (λ _, in_step).
Proof.
  unfold handle_payload.
  destruct (parse_sse_payload payload) as [value|e]; [|apply fail_relaying].
  apply relay_reducer_streams; [|apply red_inv_stream].
  intros out r events r' Hinv Hm. by eapply red_inv_chunk.
Qed.

Lemma handle_finish_streams : streams in_step (handle_finish R) (λ _, in_end).
Proof.
  intros s (out & Hr & Hinv). unfold handle_finish, st_bind, on_reducer.
  destruct (red_finish R (ss_reducer s)) as [[[event|]|e] r'] eqn:Hf.
  - pose proof (red_finish_some _ _ _ _ Hinv Hf) as Hg.
    destruct event; try done; [|by apply (fail_stream_streams out), relayed_same].
    exists (out ++ [ModelCompleted completion]). split; [|done].
    assert (streams (State := red_state R) (relayed out) (relay (ModelCompleted completion))
              (λ _, relayed (out ++ [ModelCompleted completion]))) as Hrelay
      by (apply (relay_streams _ _ []); by right).
    apply (Hrelay _ (relayed_same _ _ _ _ Hr)).
  - exists out. split; [by apply relayed_same|by eapply red_finish_none].
  - by apply (fail_stream_streams out), relayed_same.
Qed.

Lemma handle_events_streams events (saw_done : bool) :
  streams (if saw_done then in_end else in_step) (handle_events R saw_done events)
    (λ saw_done : bool, if saw_done then in_end else in_step).
Proof.
  revert saw_done. induction events as [|event events IH]; intros saw_done; simpl.
  { apply streams_ret. by intros s. }
  destruct saw_done.
  { apply fail_relaying. }
  destruct event.
  - eapply streams_bind; [apply handle_payload_streams|]. intros []. apply (IH false).
  - eapply streams_bind; [apply handle_finish_streams|]. intros []. apply (IH true).
Qed.

Lemma finish_stream_grammatical s :
  in_step s → grammatical (ss_yielded (finish_stream R s).2).
Proof.
  intros Hs. unfold finish_stream, st_bind at 1, st_gets.
  destruct (sse_finish (ss_parser s)) as [events parser].
  apply (streams_end in_step _ (λ _, in_step)); [apply set_parser_relaying|done|].
  intros _ s1 Hs1. apply (streams_end in_step _ (λ _, in_step)); [|done|].
  - clear. induction events as [|event events IH]; simpl; [by apply streams_ret|].
    apply (streams_bind _ _ (λ _, in_step)); [|intros []; apply IH].
    destruct event; [apply handle_payload_streams|by apply streams_ret].
  - intros _ s2 Hs2. apply (streams_end in_step _ (λ _, in_end)); [apply handle_finish_streams|done|].
    intros _ s3. apply complete_stream_grammatical.
Qed.

Lemma stream_chunks_grammatical chunks s :
  in_step s → grammatical (ss_yielded (stream_chunks R chunks s).2).
Proof.
  revert s. induction chunks as [|chunk chunks IH]; intros s Hs; simpl.
  { by apply finish_stream_grammatical. }
  assert (∀ failure, grammatical (ss_yielded (fail_stream (A := unit) failure s).2)) as Hfail.
  { intros failure. destruct Hs as (out & Hr & _).
    pose proof (fail_stream_streams (A := unit) out failure (λ _ _, False) s Hr) as Hf.
    by destruct (fail_stream failure s) as [[[]|[]] s']. }
  destruct chunk as [chunk|transport|]; [|apply Hfail..].
  unfold st_bind at 1, st_gets. destruct (feed (ss_parser s) chunk) as [events parser].
  apply (streams_end in_step _ (λ _, in_step)); [apply set_parser_relaying|done|].
  intros _ s1 Hs1.
  apply (streams_end in_step _ (λ saw_done : bool, if saw_done then in_end else in_step));
    [apply (handle_events_streams events false)|done|].
  intros [] s2; [apply complete_stream_grammatical|apply IH].
Qed.

(** Every stream of the provider is grammatical when its reducer is lawful. *)
Lemma response_stream_grammatical chunks : grammatical (response_stream R chunks).
Proof.
  apply stream_chunks_grammatical. exists []. split; [|apply red_inv_new].
  split; [done|by left|done].
Qed.
End provider.

(** ** The Chat Completions reducer *)

(** The identity a call was started with. *)
Definition call_identity (call : ToolCallAccumulator) : option (ProviderToolCallId * string) :=
  id ← ac_provider_call_id call; name ← ac_name call; Some (mk_ProviderToolCallId id, name).

(** A stream body whose open calls are the started ones of the accumulators,
    none of which is complete. *)
Record chat_open (body : list ModelEvent) (calls : gmap N ToolCallAccumulator) : Prop :=
    mk_chat_open {
  co_body : body_ok body;
  co_index : ∀ i call, calls !! i = Some call →
    ac_index call = i ∧ (ac_provider_call_id call = None ∨ is_Some (call_identity call));
  co_calls : ∀ i c, client_open body i c ↔ calls !! msi_get i ≫= call_identity = Some c;
  co_hosted : ∀ i c, ¬ hosted_open body i c;
  co_started : ∀ i, i ∈ started_indexes body → is_Some (calls !! msi_get i ≫= call_identity)
}.

(** Events that neither start nor end a call. *)
Definition is_plain (e : ModelEvent) : bool :=
  match e with
  | ModelTextDelta _ | ModelThinkingDelta _ | ModelToolArgumentsDelta _ => true
  | _ => false
  end.

Lemma chat_open_plain body calls e :
  chat_open body calls → is_plain e = true → event_allowed body e → chat_open (body ++ [e]) calls.
Proof.
  intros [Hb Hi Hc Hh Hs] Hp Ha. split; [by apply body_ok_snoc|done| | |].
  - intros i c. rewrite opened_other by by destruct e. apply Hc.
  - intros i c. rewrite opened_other by by destruct e. apply Hh.
  - intros i. rewrite elem_started_snoc. intros [?|[?|?]]; [by apply Hs|by destruct e..].
Qed.

(** A call may be replaced by one that was started alike. *)
Lemma chat_open_insert body calls i call :
  chat_open body calls → ac_index call = i →
  ac_provider_call_id call = None ∨ is_Some (call_identity call) →
  calls !! i ≫= call_identity = call_identity call →
  chat_open body (<[i := call]> calls).
Proof.
  intros [Hb Hi Hc Hh Hs] Hindex Hnamed Hsame.
  assert (∀ j, <[i := call]> calls !! j ≫= call_identity = calls !! j ≫= call_identity) as Heq.
  { intros j. destruct (decide (j = i)) as [->|Hne];
      [by rewrite lookup_insert_eq, Hsame|by rewrite lookup_insert_ne]. }
  split; [done| | |done|].
  - intros j call'. rewrite lookup_insert_Some. intros [[<- <-]|[_ Hl]]; [done|by apply Hi].
  - intros j c. by rewrite Heq.
  - intros j Hj. rewrite Heq. by apply Hs.
Qed.

(** A call is started. *)
Lemma chat_open_start body calls i call c :
  chat_open body calls → calls !! msi_get i ≫= call_identity = None →
  ac_index call = msi_get i → call_identity call = Some (ts_provider_call_id c, ts_tool_name c) →
  ts_index c = i →
  chat_open (body ++ [ModelToolCallStarted c]) (<[msi_get i := call]> calls).
Proof.
  intros [Hb Hi Hc Hh Hs] Hnone Hindex Hid Hci. split.
  - apply body_ok_snoc. split; [done|]. simpl. rewrite Hci. intros Hin.
    apply Hs in Hin as [? Hin]. by rewrite Hnone in Hin.
  - intros j call'. rewrite lookup_insert_Some. intros [[<- <-]|[_ Hl]]; [|by apply Hi].
    split; [done|right; by rewrite Hid].
  - intros j c'. rewrite (opened_start _ _ _ _ _ _ i (ts_provider_call_id c, ts_tool_name c))
      by (simpl; by rewrite ?Hci).
    rewrite Hc. destruct (decide (i = j)) as [<-|Hne].
    + rewrite lookup_insert_eq. simpl. rewrite Hid, Hnone. naive_solver.
    + rewrite lookup_insert_ne by (destruct i, j; simpl in *; congruence). naive_solver.
  - intros j c'. rewrite opened_other by done. apply Hh.
  - intros j. rewrite elem_started_snoc. simpl. rewrite Hci. intros Hj.
    destruct (decide (i = j)) as [<-|Hne]; [rewrite lookup_insert_eq; simpl; by rewrite Hid|].
    rewrite lookup_insert_ne by (destruct i, j; simpl in *; congruence).
    destruct Hj as [Hj|[[= Hj]|Hj]]; [by apply Hs|done|done].
Qed.

Section chat.
Context `{Codec, JsonText}.

(** The parts of the stream a reducer has mapped, by the state it is in. *)
Definition chat_streaming (out : list ModelEvent) (r : ChunkReducer) : Prop :=
  cr_started r = true ∧ cr_terminal_emitted r = false ∧ cr_stop_reason r = None ∧
  ∃ info body, out = ModelStarted info :: body ∧ chat_open body (cr_tool_calls r).

Definition chat_finished (out : list ModelEvent) (r : ChunkReducer) : Prop :=
  cr_started r = true ∧ cr_terminal_emitted r = false ∧ is_Some (cr_stop_reason r) ∧
  ∃ info body, out = ModelStarted info :: body ∧ body_ok body ∧
    ∀ i c, ¬ client_open body i c ∧ ¬ hosted_open body i c.

Definition chat_inv (out : list ModelEvent) (r : ChunkReducer) : Prop :=
  out = [] ∧ r = chunk_reducer_new ∨ chat_streaming out r ∨ chat_finished out r
  ∨ cr_terminal_emitted r = true ∧ grammatical out.

(** A mapping method keeps the stream going. *)
Notation keeps_streaming := (preserves (E := OpenAiError) chat_streaming).

Lemma streaming_push out r e :
  chat_streaming out r →
  (∀ info body, out = ModelStarted info :: body → chat_open body (cr_tool_calls r) →
     chat_open (body ++ [e]) (cr_tool_calls r)) →
  chat_streaming (out ++ [e]) r.
Proof.
  intros (Hst & Hte & Hsr & info & body & -> & Hb) Hk. split_and!; [done..|].
  exists info, (body ++ [e]). split; [done|]. by eapply Hk.
Qed.

Lemma streaming_calls out r call :
  chat_streaming out r →
  (∀ info body, out = ModelStarted info :: body → chat_open body (cr_tool_calls r) →
     chat_open body (<[ac_index call := call]> (cr_tool_calls r))) →
  chat_streaming out (set_tool_call call r).
Proof.
  intros (Hst & Hte & Hsr & info & body & -> & Hb) Hk. split_and!; [done..|].
  exists info, body. split; [done|]. by eapply Hk.
Qed.

Lemma push_text_delta_streaming (event : Utf8Delta → ModelEvent) what text :
  (∀ d, is_plain (event d) = true ∧ ∀ body, event_allowed body (event d)) →
  keeps_streaming (push_text_delta event what text).
Proof.
  intros He. unfold push_text_delta. solve_preserves. apply maps_push. intros l r Hs.
  apply streaming_push; [done|]. intros info body _ Hb. by apply chat_open_plain; [|apply He..].
Qed.

Lemma saw_refusal_streaming : keeps_streaming (update set_saw_refusal).
Proof. by apply maps_update. Qed.

(** The identity an accumulator with a valid id carries. *)
Lemma identity_named call id pid :
  ac_provider_call_id call = None ∨ is_Some (call_identity call) →
  ac_provider_call_id call = Some id → parse_provider_call_id id = Ok pid →
  ∃ name, ac_name call = Some name ∧ call_identity call = Some (pid, name).
Proof.
  intros Hn Hid Hp. unfold parse_provider_call_id in Hp.
  apply result_bind_ok in Hp as ([] & _ & [= <-]).
  destruct Hn as [Hn|[c Hc]]; [by rewrite Hid in Hn|].
  unfold call_identity in *. rewrite Hid in *. simpl in *.
  destruct (ac_name call) as [name|]; [|done]. by exists name.
Qed.
(** The call a delta is about is in the map, as it was or new. *)
Lemma touch_streaming out r index :
  let call := default (mk_ToolCallAccumulator index None None "") (cr_tool_calls r !! index) in
  chat_streaming out r →
  ac_index call = index ∧ (ac_provider_call_id call = None ∨ is_Some (call_identity call)) ∧
  chat_streaming out (set_tool_call call r).
Proof.
  intros call Hs. assert (ac_index call = index ∧
    (ac_provider_call_id call = None ∨ is_Some (call_identity call))) as [Hi Hn].
  { destruct Hs as (_ & _ & _ & info & body & _ & Hb). unfold call.
    destruct (cr_tool_calls r !! index) eqn:Hl; simpl; [by eapply co_index|by split; [|left]]. }
  split_and!; [done..|]. apply streaming_calls; [done|]. intros info body _ Hb.
  apply chat_open_insert; try done. rewrite Hi. unfold call.
  by destruct (cr_tool_calls r !! index).
Qed.

Lemma start_call_streaming tool_call call id out s call' s' :
  chat_streaming (out ++ s.2) s.1 → cr_tool_calls s.1 !! ac_index call = Some call →
  ac_provider_call_id call = None → start_call tool_call call id s = (Ok call', s') →
  chat_streaming (out ++ s'.2) s'.1 ∧ cr_tool_calls s'.1 !! ac_index call = Some call' ∧
  ac_index call' = ac_index call.
Proof.
  intros (Hst & Hte & Hsr & info & body & Hout & Hb) Hl Hnone Hm.
  unfold start_call, update, push in Hm. st_inv. simpl in *.
  unfold or_malformed, map_err in *.
  destruct (parse_provider_call_id id) as [pid|] eqn:Hpid; simplify_eq/=.
  destruct (stream_index_new (ac_index call)) as [index|] eqn:Hindex; simplify_eq/=.
  destruct (tool_call_started_new _ _ _) as [started|] eqn:Hstarted; simplify_eq/=.
  unfold parse_provider_call_id, stream_index_new, tool_call_started_new in *.
  repeat match goal with
  | Hm : result_bind _ _ = Ok _ |- _ => apply result_bind_ok in Hm as ([] & _ & [= <-])
  end.
  split; [|by rewrite lookup_insert_eq].
  split_and!; [done..|]. simpl.
  exists info. eexists. split; [rewrite (assoc_L (++)), Hout; reflexivity|].
  rewrite insert_insert_eq.
  eapply (chat_open_start _ _ (mk_ModelStreamIndex (ac_index call))); try done. simpl.
  rewrite Hl. simpl. unfold call_identity. by rewrite Hnone.
Qed.
Lemma append_arguments_streaming call arguments out s u s' :
  chat_streaming (out ++ s.2) s.1 → cr_tool_calls s.1 !! ac_index call = Some call →
  append_arguments call arguments s = (Ok u, s') → chat_streaming (out ++ s'.2) s'.1.
Proof.
  intros Hs Hl Hm. unfold append_arguments, update, push in Hm. st_inv. simpl in *.
  match goal with Hm : _ ≫= _ = Some ?x |- _ =>
    rename x into pid; apply bind_Some in Hm as (id & Hid & Hp) end.
  unfold or_malformed, map_err in *.
  destruct (stream_index_new (ac_index call)) as [index|] eqn:Hindex; simplify_eq/=.
  destruct (parse_provider_call_id id) as [?|] eqn:Hpid; simplify_eq/=.
  destruct (tool_arguments_delta_new _ _ _) as [delta|] eqn:Hdelta; simplify_eq/=.
  unfold stream_index_new, tool_arguments_delta_new in *.
  repeat match goal with
  | Hm : result_bind _ _ = Ok _ |- _ => apply result_bind_ok in Hm as ([] & _ & [= <-])
  end.
  rewrite (assoc_L (++)).
  assert (∃ name, ac_name call = Some name ∧ call_identity call = Some (pid, name)) as (name & Hn & Hc).
  { eapply identity_named; [|done..]. destruct Hs as (_ & _ & _ & info & body & _ & Hb).
    by eapply co_index. }
  apply streaming_push.
  - apply streaming_calls; [done|]. intros info body _ Hb. simpl.
    apply chat_open_insert; [done..| |]; unfold call_identity in *; simpl; rewrite ?Hid, ?Hn in *;
      [by right|by rewrite Hl; simpl; rewrite Hid, Hn].
  - intros info body _ Hb. apply chat_open_plain; [done..|]. simpl. exists name.
    apply (co_calls _ _ Hb). simpl. rewrite lookup_insert_eq. simpl.
    unfold call_identity in *. simpl. by rewrite Hid, Hn in *.
Qed.

Lemma map_tool_call_delta_streaming tool_call : keeps_streaming (map_tool_call_delta tool_call).
Proof.
  intros out s [] s' Hs Hm. unfold map_tool_call_delta, reading, update in Hm.
  apply st_bind_ok in Hm as (index & s1 & Hindex & Hm). st_inv.
  match goal with Hstart : _ (_, _) = (Ok ?c, ?st) |- _ =>
    rename Hstart into Hs2, c into call', st into s2 end.
  destruct (touch_streaming _ _ index Hs) as (Hi & Hn & Hs').
  set (call := default _ _) in *. set (s1 := (set_tool_call call s.1, s.2)) in *. clearbody call.
  assert (cr_tool_calls s1.1 !! ac_index call = Some call) as Hl
    by by simpl; rewrite lookup_insert_eq.
  assert (chat_streaming (out ++ s2.2) s2.1 ∧ cr_tool_calls s2.1 !! ac_index call' = Some call')
    as [Hst2 Hl2].
  { destruct (get_str tool_call "id") as [id|];
      [destruct (ac_provider_call_id call) eqn:Hid|];
      [by apply st_ret_ok in Hs2 as [-> ->]| |by apply st_ret_ok in Hs2 as [-> ->]].
    eapply start_call_streaming in Hs2 as (? & Hl2 & Heq); [|done..]. by rewrite Heq. }
  destruct (function_str tool_call "arguments") as [arguments|]; [|by st_inv].
  destruct (String.eqb arguments ""); [by st_inv|]. by eapply append_arguments_streaming.
Qed.
(** A completed call ends the call its accumulator was started as. *)
Lemma complete_call_event call event :
  ac_provider_call_id call = None ∨ is_Some (call_identity call) → complete_call call = Ok event →
  ∃ c, event = ModelToolCallCompleted c ∧ tc_index c = mk_ModelStreamIndex (ac_index call) ∧
       call_identity call = Some (tc_provider_call_id c, tc_called_name c).
Proof.
  intros Hn Hc. unfold complete_call in Hc. apply result_bind_ok in Hc as (arguments & _ & Hc).
  unfold or_malformed, map_err in Hc.
  destruct (stream_index_new (ac_index call)) as [index|] eqn:Hindex; [|done].
  apply result_bind_ok in Hc as (? & [= <-] & Hc).
  apply result_bind_ok in Hc as (pid & Hid & Hc).
  apply ok_or_ok, bind_Some in Hid as (id & Hid & Hp).
  destruct (parse_provider_call_id id) as [?|] eqn:Hpid; [|done]. injection Hp as ->.
  edestruct identity_named as (name & Hname & Hci); [exact Hn|exact Hid|exact Hpid|].
  rewrite Hname in Hc. simpl in Hc.
  destruct (tool_call_completed_new _ _ _ _) as [c|] eqn:Hcompleted; [|done].
  injection Hc as <-. exists c. split; [done|].
  unfold stream_index_new, tool_call_completed_new in *.
  apply result_bind_ok in Hindex as (? & _ & [= <-]).
  apply result_bind_ok in Hcompleted as (? & _ & Hcompleted).
  by apply result_bind_ok in Hcompleted as (? & _ & [= <-]).
Qed.

Lemma map_finish_inv finish out s u s' :
  chat_streaming (out ++ s.2) s.1 → map_finish finish s = (Ok u, s') →
  chat_streaming (out ++ s'.2) s'.1 ∨ chat_finished (out ++ s'.2) s'.1.
Proof.
  intros Hs Hm. unfold map_finish, reading, update, push_all in Hm.
  apply st_bind_ok in Hm as (stop & s1 & Hstop & Hm).
  st_inv. destruct (_ || _); [left; by st_inv|]. st_inv. simpl in *. right.
  destruct Hs as (Hst & Hte & Hsr & info & body & Hout & [Hb Hi Hc Hh _]).
  split_and!; [done..|]. rewrite (assoc_L (++)), Hout. exists info. eexists. split; [reflexivity|].
  assert (∀ i call, (i, call) ∈ btree_entries N.leb (cr_tool_calls s.1) ↔
                    cr_tool_calls s.1 !! i = Some call) as Hin.
  { intros i call. unfold btree_entries. rewrite elem_of_stable_sort. apply elem_of_map_to_list. }
  edestruct (complete_calls_body call_identity complete_call) as (Hbody & Hclosed & Hsame);
    [exact Hb| | | |done|split; [exact Hbody|]].
  - unfold btree_entries. rewrite stable_sort_perm. apply NoDup_fst_map_to_list.
  - intros i call Hl%Hin event He. destruct (Hi _ _ Hl) as [<- Hn]. by apply complete_call_event.
  - intros i c. rewrite Hc, bind_Some. by setoid_rewrite Hin.
  - intros i c. split; [apply Hclosed|]. rewrite Hsame. apply Hh.
Qed.
Lemma map_choice_inv choice :
  maps chat_streaming (map_choice choice) (λ _ out r, chat_streaming out r ∨ chat_finished out r).
Proof.
  assert (∀ event what text, (∀ d, is_plain (event d) = true ∧ ∀ body, event_allowed body (event d)) →
    keeps_streaming (push_text_delta event what text)) as Hpush by apply push_text_delta_streaming.
  unfold map_choice. set (delta := default JNull _).
  apply (maps_bind _ _ (λ _, chat_streaming)); [by apply Hpush|intros []].
  apply (maps_bind _ _ (λ _, chat_streaming)); [by apply Hpush|intros []].
  apply (maps_bind _ _ (λ _, chat_streaming)); [|intros []].
  { destruct (get_str delta "refusal"); [|apply preserves_ret].
    apply preserves_bind; [apply saw_refusal_streaming|intros []; by apply Hpush]. }
  apply (maps_bind _ _ (λ _, chat_streaming)); [|intros []].
  { destruct (get_array delta "tool_calls"); [|apply preserves_ret].
    apply preserves_for, map_tool_call_delta_streaming. }
  destruct (get_str choice "finish_reason");
    [intros out st [] st'; apply map_finish_inv|apply maps_ret; by left].
Qed.

(** Completing a stream whose calls are complete. *)
Lemma chunk_complete_ends out r stop usage event r' :
  chat_finished out r → chunk_complete stop usage r = (Ok event, r') →
  (∃ c, event = ModelCompleted c) ∧ cr_terminal_emitted r' = true ∧ grammatical (out ++ [event]).
Proof.
  intros (_ & _ & _ & info & body & -> & Hb & Hc) Hm. unfold chunk_complete in Hm. st_inv.
  split_and!; [by eexists|done|]. eexists info, body, _. split_and!; [done..|]. exact Hc.
Qed.

Lemma map_usage_inv choices usage out s u s' :
  (∀ stop, cr_stop_reason s.1 = Some stop → chat_finished (out ++ s.2) s.1) →
  map_usage choices usage s = (Ok u, s') →
  cr_terminal_emitted s'.1 = true ∧ grammatical (out ++ s'.2).
Proof.
  intros Hs Hm. unfold map_usage, reading in Hm. st_inv.
  match goal with Hstop : cr_stop_reason _ = Some ?x |- _ =>
    rename x into stop, Hstop into Hstop' end.
  pose proof (Hs _ Hstop') as Hstop.
  destruct (chunk_complete (Some stop) usage s.1) as [[event|e] r'] eqn:Hc; [|done].
  injection Hm as <-. simpl. rewrite (assoc_L (++)). destruct (chunk_complete_ends _ _ _ _ _ _ Hstop Hc) as (_ & ? & ?). by split.
Qed.

(** A started reducer maps a chunk. *)
Lemma chat_new_streaming r :
  r = chunk_reducer_new → chat_streaming [ModelStarted response_info_new] (set_started r).
Proof.
  intros ->. split_and!; [done..|]. exists response_info_new, []. split; [done|].
  assert (∀ start ends i c, ¬ opened start ends [] i c) as Hnone by (intros; apply opened_nil).
  split; [apply body_ok_nil| | |by intros|].
  - intros i call. simpl. by rewrite lookup_empty.
  - intros i c. simpl. rewrite lookup_empty. split; [by intros ?%Hnone|done].
  - intros i Hi. by apply elem_of_nil in Hi.
Qed.

(** A stream that can go on, or be completed. *)
Definition chat_open_or_finished (out : list ModelEvent) (r : ChunkReducer) : Prop :=
  chat_streaming out r ∨ chat_finished out r.

Lemma open_unfinished out r : chat_open_or_finished out r → unfinished out ∧ out ≠ [].
Proof.
  intros [(_ & _ & _ & info & body & -> & [Hb _ _ _ _])|(_ & _ & _ & info & body & -> & Hb & _)];
    (split; [right; by exists info, body|done]).
Qed.

Lemma begin_inv out r u s :
  chat_inv out r → cr_terminal_emitted r = false →
  (if cr_started r then st_ret (E := OpenAiError) tt
   else do! push (ModelStarted response_info_new) in update set_started) (r, []) = (Ok u, s) →
  chat_open_or_finished (out ++ s.2) s.1.
Proof.
  intros [[-> Hr]|[Hs|[Hs|[Ht _]]]] Hte Hm; [| | |by rewrite Ht in Hte].
  - left. pose proof (chat_new_streaming r Hr) as Hnew. rewrite Hr in *. simpl in Hm.
    unfold push, update in Hm. by st_inv.
  - left. destruct (id Hs) as [Hst _]. rewrite Hst in Hm. st_inv. simpl. by rewrite app_nil_r.
  - right. destruct (id Hs) as [Hst _]. rewrite Hst in Hm. st_inv. simpl. by rewrite app_nil_r.
Qed.

Lemma map_choices_inv choices out s u s' :
  chat_streaming (out ++ s.2) s.1 → map_choices choices s = (Ok u, s') →
  chat_open_or_finished (out ++ s'.2) s'.1.
Proof.
  intros Hs Hm. unfold map_choices in Hm. st_inv. destruct choices; st_inv; [by left|].
  by eapply map_choice_inv.
Qed.

Lemma map_chunk_inv out r value events r' :
  chat_inv out r → map_chunk value r = (Ok events, r') → chat_inv (out ++ events) r'.
Proof.
  intros Hinv Hm. unfold map_chunk, mapped in Hm.
  destruct (map_chunk_events value (r, [])) as [[u|e] [r1 events1]] eqn:He; [|done].
  injection Hm as -> ->. unfold map_chunk_events, reading in He.
  apply st_bind_ok in He as (terminal & s1 & Hte & He). st_inv. simpl in *.
  apply negb_true_iff in H1.
  match goal with Hbegin : _ (r, []) = (Ok _, ?s) |- _ =>
    rename s into s2; apply (begin_inv out) in Hbegin; [|done..]; rename Hbegin into Hs2 end.
  destruct (json_get value "error") as [error|].
  { unfold update, push in He. st_inv. injection He as -> ->. right; right; right. split; [done|]. simpl.
    apply open_unfinished in Hs2 as [Hu Hne]. rewrite (assoc_L (++)). by apply failed_grammatical. }
  destruct (_ ≫= _) as [usage|].
  { right; right; right. eapply (map_usage_inv _ _ out s2 _ (r', events)); [|done].
    intros stop Hstop. destruct Hs2 as [(_ & _ & Hno & _)|]; [by rewrite Hno in Hstop|done]. }
  st_inv. bool_prop. right. rewrite (assoc (∨)). left.
  assert (chat_streaming (out ++ s2.2) s2.1) as Hs by by destruct Hs2 as [|(_ & _ & ? & _)].
  destruct (get_array value "choices"); [by eapply (map_choices_inv _ out s2 _ (r', events))|].
  apply st_ret_ok in He as [_ <-]. by left.
Qed.

Lemma chat_inv_stream out r : chat_inv out r → unfinished out ∨ grammatical out.
Proof.
  intros [[-> _]|[Hs|[Hs|[_ Hg]]]]; [by left; left|left..|by right];
    eapply open_unfinished; [by left|by right].
Qed.

Lemma chunk_finish_inv out r o r' :
  chat_inv out r → chunk_finish r = (Ok o, r') →
  match o with
  | None => grammatical out
  | Some event => (∃ c, event = ModelCompleted c) ∧ grammatical (out ++ [event])
  end.
Proof.
  intros Hinv Hm. unfold chunk_finish in Hm. st_inv. destruct (cr_terminal_emitted r) eqn:Hte.
  - st_inv. destruct Hinv as [[_ ->]|[(_ & Ht & _)|[(_ & Ht & _)|[_ ?]]]]; [done|congruence..|done].
  - st_inv. destruct (cr_stop_reason r) eqn:Hstop; [|by st_inv]. st_inv.
    assert (chat_finished out r) as Hs.
    { destruct Hinv as [[_ ->]|[(_ & _ & Hno & _)|[?|[Ht _]]]]; [done|congruence|done|congruence]. }
    by eapply chunk_complete_ends in Hs as (? & _ & ?).
Qed.

#[export] Program Instance chat_lawful : LawfulReducer chat_reducer :=
  mk_LawfulReducer chat_reducer chat_inv _ map_chunk_inv chat_inv_stream _ _.
Next Obligation. by left. Qed.
Next Obligation. intros out r r' Hinv Hf. by apply (chunk_finish_inv _ _ _ _ Hinv Hf). Qed.
Next Obligation.
  intros out r event r' Hinv Hf. by destruct (chunk_finish_inv _ _ _ _ Hinv Hf) as [[c ->] ?].
Qed.
End chat.

(** ** Complete responses *)

(** Every call of the body is complete and they started below [n]. *)
Record settled (body : list ModelEvent) (n : N) : Prop := mk_settled {
  sd_body : body_ok body;
  sd_client : ∀ i c, ¬ client_open body i c;
  sd_hosted : ∀ i c, ¬ hosted_open body i c;
  sd_started : ∀ i, i ∈ started_indexes body → (msi_get i < n)%N
}.

Lemma settled_nil : settled [] 0.
Proof.
  split; [apply body_ok_nil|intros i c; apply opened_nil..|].
  intros i Hi. by apply elem_of_nil in Hi.
Qed.

(** What plain events leave as it was. *)
Lemma plain_events body events :
  Forall (λ e, is_plain e = true) events →
  (∀ i c, client_open (body ++ events) i c ↔ client_open body i c) ∧
  (∀ i c, hosted_open (body ++ events) i c ↔ hosted_open body i c) ∧
  (∀ i, i ∈ started_indexes (body ++ events) ↔ i ∈ started_indexes body).
Proof.
  induction events as [|e events IH] using rev_ind; intros Hp; [by rewrite app_nil_r|].
  apply Forall_app in Hp as [Hp [He _]%Forall_cons]. destruct (IH Hp) as (Hc & Hh & Hs).
  rewrite (assoc_L (++)). split_and!.
  - intros i c. rewrite opened_other by by destruct e. apply Hc.
  - intros i c. rewrite opened_other by by destruct e. apply Hh.
  - intros i. rewrite elem_started_snoc, Hs. destruct e; naive_solver.
Qed.

(** Plain events are allowed wherever their call is open. *)
Lemma plain_body body events :
  body_ok body → Forall (λ e, is_plain e = true) events →
  Forall (λ e, match e with
               | ModelToolArgumentsDelta d =>
                   ∃ name, client_open body (ta_index d) (ta_provider_call_id d, name)
               | _ => True
               end) events →
  body_ok (body ++ events).
Proof.
  intros Hb. induction events as [|e events IH] using rev_ind; intros Hp Hd; [by rewrite app_nil_r|].
  apply Forall_app in Hp as [Hp [He _]%Forall_cons]. apply Forall_app in Hd as [Hd [Hde _]%Forall_cons].
  rewrite (assoc_L (++)). apply body_ok_snoc. split; [by apply IH|].
  destruct e; try done. destruct Hde as [name Hname]. exists name.
  by apply (plain_events body events Hp).
Qed.

Definition is_text (e : ModelEvent) : bool :=
  match e with ModelTextDelta _ | ModelThinkingDelta _ => true | _ => false end.

Lemma settled_texts body n events :
  settled body n → Forall (λ e, is_text e = true) events → settled (body ++ events) n.
Proof.
  intros [Hb Hc Hh Hs] Ht.
  assert (Forall (λ e, is_plain e = true) events) as Hp.
  { eapply Forall_impl; [done|]. by intros []. }
  destruct (plain_events body events Hp) as (Hc' & Hh' & Hs'). split.
  - apply plain_body; [done..|]. eapply Forall_impl; [exact Ht|]. by intros [].
  - intros i c. rewrite Hc'. apply Hc.
  - intros i c. rewrite Hh'. apply Hh.
  - intros i Hi%Hs'. by apply Hs.
Qed.

Section complete.
Context `{Codec, JsonText}.

Lemma text_events_text event value events :
  (∀ d, is_text (event d) = true) → text_events event value = Ok events →
  Forall (λ e, is_text e = true) events.
Proof.
  intros He Hm. unfold text_events in Hm. destruct value as [value|]; [|injection Hm as <-; constructor].
  apply result_map_ok in Hm. induction Hm as [|x e xs es Hx _ IH]; constructor; [|done].
  apply result_bind_ok in Hx as (d & _ & [= <-]). apply He.
Qed.

Lemma or_malformed_ok {E A} what (r : Result E A) a : or_malformed what r = Ok a ↔ r = Ok a.
Proof. unfold or_malformed, map_err. destruct r; naive_solver. Qed.

(** One call: started, its arguments, completed. *)
Lemma complete_call_events_ok call events :
  complete_call_events call = Ok events →
  ∃ id deltas arguments,
    let index := mk_ModelStreamIndex (ct_index call) in
    events = ModelToolCallStarted (mk_ToolCallStarted index id (ct_name call)) :: deltas
             ++ [ModelToolCallCompleted (mk_ToolCallCompleted index id (ct_name call) arguments)] ∧
    Forall (λ e, ∃ delta, e = ModelToolArgumentsDelta (mk_ToolArgumentsDelta index id delta)) deltas.
Proof.
  intros Hm. unfold complete_call_events in Hm.
  apply result_bind_ok in Hm as (index & Hindex%or_malformed_ok & Hm).
  apply result_bind_ok in Hindex as (? & _ & [= <-]).
  apply result_bind_ok in Hm as (id & _ & Hm).
  apply result_bind_ok in Hm as (started & Hstarted%or_malformed_ok & Hm).
  apply result_bind_ok in Hstarted as (? & _ & [= <-]).
  apply result_bind_ok in Hm as (deltas & Hdeltas%result_map_ok & Hm).
  apply result_bind_ok in Hm as (completed & Hcompleted%or_malformed_ok & [= <-]).
  apply result_bind_ok in Hcompleted as (? & _ & Hcompleted).
  apply result_bind_ok in Hcompleted as (? & _ & [= <-]).
  exists id, deltas, (ct_parsed_arguments call). split; [done|].
  clear -Hdeltas. induction Hdeltas as [|x e xs es Hx _ IH]; constructor; [|done].
  apply result_bind_ok in Hx as (d & Hd%or_malformed_ok & [= <-]).
  apply result_bind_ok in Hd as (? & _ & [= <-]). by exists x.
Qed.

Lemma call_events_settled call body events :
  settled body (ct_index call) → complete_call_events call = Ok events →
  settled (body ++ events) (ct_index call + 1).
Proof.
  intros [Hb Hc Hh Hs] (id & deltas & arguments & -> & Hd)%complete_call_events_ok.
  set (index := mk_ModelStreamIndex (ct_index call)) in *.
  set (start := ModelToolCallStarted _). set (stop := ModelToolCallCompleted _).
  assert (Forall (λ e, is_plain e = true) deltas) as Hp.
  { eapply Forall_impl; [exact Hd|]. by intros ? [? ->]. }
  assert (body_ok (body ++ [start])) as Hb1.
  { apply body_ok_snoc. split; [done|]. simpl. intros Hin%Hs. simpl in Hin. lia. }
  destruct (plain_events (body ++ [start]) deltas Hp) as (Hc2 & Hh2 & Hs2).
  assert (∀ i c, client_open (body ++ [start]) i c ↔ i = index ∧ c = (id, ct_name call)) as Hc1.
  { intros i c. rewrite (opened_start _ _ _ _ _ _ index (id, ct_name call)) by done.
    split; [intros [[= <- <-]|?%Hc]; done|intros [-> ->]; by left]. }
  assert (body_ok ((body ++ [start]) ++ deltas)) as Hb2.
  { apply plain_body; [done..|]. eapply Forall_impl; [exact Hd|]. intros ? [delta ->].
    exists (ct_name call). by apply Hc1. }
  replace (body ++ start :: deltas ++ [stop]) with (((body ++ [start]) ++ deltas) ++ [stop])
    by (by rewrite <- !(assoc_L (++))).
  split.
  - apply body_ok_snoc. split; [done|]. simpl. apply Hc2. by apply Hc1.
  - intros i c. rewrite (opened_end _ _ _ _ _ _ index) by done. rewrite Hc2, Hc1. naive_solver.
  - intros i c. rewrite opened_other by done. rewrite Hh2, opened_other by done. apply Hh.
  - intros i. rewrite elem_started_snoc, Hs2, elem_started_snoc. simpl.
    intros [[Hi|[[= <-]|?]]|[?|?]]; [apply Hs in Hi; lia|simpl; lia|done..].
Qed.

Lemma calls_settled ids index calls parsed groups body :
  parse_tool_calls_from ids index calls = Ok parsed →
  result_map complete_call_events parsed = Ok groups → settled body index →
  settled (body ++ concat groups) (index + N.of_nat (length calls)).
Proof.
  revert ids index parsed groups body.
  induction calls as [|call calls IH]; intros ids index parsed groups body Hp Hm Hb; simpl in Hp.
  { injection Hp as <-. injection Hm as <-. simpl. rewrite app_nil_r. by rewrite N.add_0_r. }
  apply result_bind_ok in Hp as (c & Hc & Hp). apply result_bind_ok in Hp as (cs & Hcs & [= <-]).
  simpl in Hm. apply result_bind_ok in Hm as (g & Hg & Hm).
  apply result_bind_ok in Hm as (gs & Hgs & [= <-]).
  assert (ct_index c = index) as Hci.
  { unfold parse_complete_tool_call in Hc.
    repeat match type of Hc with
    | result_bind _ _ = _ => apply result_bind_ok in Hc as (? & _ & Hc)
    end. by injection Hc as <-. }
  apply call_events_settled with (body := body) in Hg; [|by rewrite Hci]. rewrite Hci in Hg.
  simpl. rewrite (assoc_L (++)).
  replace (index + N.of_nat (S (length calls)))%N with (index + 1 + N.of_nat (length calls))%N by lia.
  by eapply IH.
Qed.

Lemma parsed_calls_settled value parsed groups body :
  parse_complete_tool_calls value = Ok parsed → result_map complete_call_events parsed = Ok groups →
  settled body 0 → ∃ n, settled (body ++ concat groups) n.
Proof.
  intros Hp Hm Hb. unfold parse_complete_tool_calls in Hp.
  assert (parsed = [] → ∃ n, settled (body ++ concat groups) n) as Hnone.
  { intros ->. injection Hm as <-. simpl. rewrite app_nil_r. by exists 0%N. }
  destruct value as [value|]; [|injection Hp as <-; by apply Hnone].
  assert (parsed = [] ∨ ∃ calls, parse_tool_calls_from [] 0 calls = Ok parsed) as [?|[calls Hc]].
  { destruct value; [left; by injection Hp as <-|..];
      apply result_bind_ok in Hp as (calls & _ & Hp); right; by exists calls. }
  - by apply Hnone.
  - eexists. by eapply calls_settled.
Qed.

Lemma settled_completed info body n completion :
  settled body n → grammatical (ModelStarted info :: body ++ [ModelCompleted completion]).
Proof.
  intros [Hb Hc Hh _]. exists info, body, (ModelCompleted completion). split_and!; [done..|].
  intros i c. by split; [apply Hc|apply Hh].
Qed.

(** The events of a complete response are one stream. *)
Lemma chat_completion_grammatical value events :
  map_chat_completion_response value = Ok events → grammatical events.
Proof.
  unfold map_chat_completion_response. destruct (json_get value "error") as [error|].
  { intros [= <-]. apply failed_events_grammatical. }
  intros Hm.
  repeat match type of Hm with
  | result_bind _ _ = _ => apply result_bind_ok in Hm as (? & ? & Hm)
  | context [let '(_, _) := ?p in _] => destruct p
  end.
  injection Hm as <-.
  repeat match goal with
  | Ht : text_events _ _ = Ok _ |- _ => apply text_events_text in Ht; [|done]
  end.
  match goal with
  | Ht1 : Forall _ ?l1, Ht2 : Forall _ ?l2, Ht3 : Forall _ ?l3
    |- grammatical (_ :: ?l1 ++ ?l2 ++ ?l3 ++ _) =>
      pose proof (settled_texts _ _ _ (settled_texts _ _ _ (settled_texts _ _ _ settled_nil Ht1) Ht2) Ht3)
        as Hbody
  end.
  simpl in Hbody. eapply parsed_calls_settled in Hbody as [n Hbody]; [|done..].
  rewrite !(assoc_L (++)) in *. by eapply settled_completed.
Qed.

Lemma complete_response_grammatical chunks : grammatical (complete_response chunks).
Proof.
  unfold complete_response.
  destruct (read_bounded_success_body [] chunks); [|apply failed_events_grammatical].
  destruct (json_parse _) as [value|]; [|apply failed_events_grammatical].
  destruct (map_chat_completion_response value) as [events|] eqn:Hm;
    [by eapply chat_completion_grammatical|apply failed_events_grammatical].
Qed.
End complete.

(** ** Failures of the provider *)


