(* ===== verification/OpenAiResponsesTheorems.v ===== *)
(** * The Responses reducer is lawful

    What the reducer knows about the calls of the stream it has mapped, and that
    every event keeps it: [responses_lawful]. *)

From S2P Require Import Prelude Protocol Utf8 Sse Tools Validation External Usage ModelSpec Event.
From S2P Require Import KernelBase ModelStream ProviderHttp ProviderStream ProviderStreamLogic OpenAiChat OpenAiStream OpenAiTheorems.
From S2P Require Import OpenAiResponses.
Local Open Scope tea_scope.

Definition call_identity (call : FunctionCallAccumulator) : ProviderToolCallId * string :=
  (mk_ProviderToolCallId (fc_provider_call_id call), fc_name call).
Definition search_identity (search : HostedSearchAccumulator) : ProviderToolCallId * string :=
  (mk_ProviderToolCallId (hsa_provider_call_id search), "web_search"%string).

(** A stream body whose open calls are the accumulators that are not complete;
    an index belongs to a call or a search by the kind of its item. *)
Record resp_open (body : list ModelEvent) (r : ResponsesReducer) : Prop := mk_resp_open {
  ro_body : body_ok body;
  ro_calls : ∀ i c, client_open body i c ↔
    ∃ call, rr_tool_calls r !! msi_get i = Some call ∧ fc_completed call = false ∧
            call_identity call = c;
  ro_searches : ∀ i c, hosted_open body i c ↔
    ∃ search, rr_hosted_searches r !! msi_get i = Some search ∧ hsa_completed search = false ∧
              search_identity search = c;
  ro_done : ∀ i search, rr_hosted_searches r !! i = Some search → hsa_completed search = true →
    mk_ProviderToolCallId (hsa_provider_call_id search) ∈ omap hosted_id body;
  ro_call_kind : ∀ i call, rr_tool_calls r !! i = Some call →
    fc_index call = i ∧ rr_output_item_kinds r !! i = Some KindFunctionCall;
  ro_search_kind : ∀ i search, rr_hosted_searches r !! i = Some search →
    rr_output_item_kinds r !! i = Some KindHostedSearch;
  ro_started : ∀ i, i ∈ started_indexes body →
    is_Some (rr_tool_calls r !! msi_get i) ∨ is_Some (rr_hosted_searches r !! msi_get i)
}.

(** ** Events and assignments *)

(** Nothing else of the state matters. *)
Lemma resp_open_same body r r' :
  resp_open body r → rr_tool_calls r' = rr_tool_calls r →
  rr_hosted_searches r' = rr_hosted_searches r →
  rr_output_item_kinds r ⊆ rr_output_item_kinds r' → resp_open body r'.
Proof.
  intros [Hb Hc Hs Hd Hck Hsk Hst] Htc Hhs Hk. split; rewrite ?Htc, ?Hhs; try done.
  - intros i call Hl. split; [by eapply Hck|]. eapply lookup_weaken; [by eapply Hck|done].
  - intros i search Hl. eapply lookup_weaken; [by eapply Hsk|done].
Qed.

Lemma resp_open_neutral body r e :
  resp_open body r → is_neutral e = true → event_allowed body e → resp_open (body ++ [e]) r.
Proof.
  intros [Hb Hc Hs Hd Hck Hsk Hst] Hn Ha. split; [by apply body_ok_snoc| | | |done..|].
  - intros i c. rewrite opened_other by by destruct e. apply Hc.
  - intros i c. rewrite opened_other by by destruct e. apply Hs.
  - intros i search Hl Hco. apply hosted_ids_snoc. by eapply Hd.
  - intros i. rewrite elem_started_snoc. intros [?|[?|?]]; [by apply Hst|by destruct e..].
Qed.

(** A stream that can go on. *)
Definition resp_going (out : list ModelEvent) (r : ResponsesReducer) : Prop :=
  rr_started r = true ∧ rr_terminal_emitted r = false ∧
  ∃ info body, out = ModelStarted info :: body ∧ resp_open body r.

Lemma going_push out r e :
  resp_going out r → is_neutral e = true → (∀ body, resp_open body r → event_allowed body e) →
  resp_going (out ++ [e]) r.
Proof.
  intros (Hst & Hte & info & body & -> & Ho) Hn Ha. split_and!; [done..|].
  exists info, (body ++ [e]). split; [done|]. apply resp_open_neutral; [done..|by apply Ha].
Qed.

Lemma going_same out r r' :
  resp_going out r → rr_started r' = rr_started r →
  rr_terminal_emitted r' = rr_terminal_emitted r → rr_tool_calls r' = rr_tool_calls r →
  rr_hosted_searches r' = rr_hosted_searches r →
  rr_output_item_kinds r ⊆ rr_output_item_kinds r' → resp_going out r'.
Proof.
  intros (Hst & Hte & info & body & -> & Ho) Hst' Hte' Htc Hhs Hk.
  split_and!; [congruence..|]. exists info, body. split; [done|]. by eapply resp_open_same.
Qed.

Notation keeps_going := (preserves (E := OpenAiError) resp_going).

Lemma update_going f :
  (∀ r, rr_started (f r) = rr_started r ∧ rr_terminal_emitted (f r) = rr_terminal_emitted r ∧
        rr_tool_calls (f r) = rr_tool_calls r ∧ rr_hosted_searches (f r) = rr_hosted_searches r ∧
        rr_output_item_kinds r ⊆ rr_output_item_kinds (f r)) →
  keeps_going (update f).
Proof.
  intros Hf. apply maps_update. intros l r Hr. destruct (Hf r) as (? & ? & ? & ? & ?).
  by eapply going_same.
Qed.

Lemma push_going e :
  is_neutral e = true → (∀ body, event_allowed body e) → keeps_going (push e).
Proof. intros Hn Ha. apply maps_push. intros l r Hr. apply going_push; [done..|]. by intros. Qed.

Ltac frame := apply update_going; intros r; by split_and!.

(** ** Identities, texts and reasoning *)

Lemma register_identity_going mismatch item_id raw : keeps_going (register_identity mismatch item_id raw).
Proof. unfold register_identity. solve_preserves. frame. Qed.
#[export] Hint Resolve register_identity_going : preserves.

Lemma register_output_item_identity_going raw item :
  keeps_going (register_output_item_identity raw item).
Proof. unfold register_output_item_identity. solve_preserves. Qed.

Lemma resolve_output_index_going value : keeps_going (resolve_output_index value).
Proof. unfold resolve_output_index. solve_preserves. Qed.
#[export] Hint Resolve register_output_item_identity_going resolve_output_index_going : preserves.

(** Registering a kind: the index has it. *)
Lemma register_kind_ok index kind s u s' :
  register_output_item_kind index kind s = (Ok u, s') →
  ∃ kinds, s' = (set_rr_output_item_kinds kinds s.1, s.2) ∧ kinds !! index = Some kind ∧
           rr_output_item_kinds s.1 ⊆ kinds.
Proof.
  intros Hm. unfold register_output_item_kind, reading, update in Hm. st_inv.
  destruct s as [r events]. simpl in *. destruct (rr_output_item_kinds r !! index) eqn:Hl; st_inv.
  - bool_prop. subst. exists (rr_output_item_kinds r). by destruct r.
  - eexists. split_and!; [done|apply lookup_insert_eq|by apply insert_subseteq].
Qed.

Lemma register_output_item_kind_going index kind : keeps_going (register_output_item_kind index kind).
Proof.
  intros out s u s' Hs (kinds & -> & _ & Hsub)%register_kind_ok. by eapply going_same.
Qed.
#[export] Hint Resolve register_output_item_kind_going : preserves.

Lemma observe_refusal_going : keeps_going observe_refusal.
Proof. frame. Qed.

Lemma append_output_text_going index content_index delta : keeps_going (append_output_text index content_index delta).
Proof. unfold append_output_text. solve_preserves; [frame|by apply push_going]. Qed.
#[export] Hint Resolve observe_refusal_going append_output_text_going : preserves.

Lemma reconcile_text_going index content_index text :
  keeps_going (reconcile_text index content_index text).
Proof. unfold reconcile_text. solve_preserves. frame. Qed.

Lemma append_reasoning_going key delta : keeps_going (append_reasoning key delta).
Proof. unfold append_reasoning. solve_preserves; [frame|by apply push_going]. Qed.
#[export] Hint Resolve reconcile_text_going append_reasoning_going : preserves.

Lemma reconcile_reasoning_going index summary_index text :
  keeps_going (reconcile_reasoning index summary_index text).
Proof. unfold reconcile_reasoning. solve_preserves. frame. Qed.
#[export] Hint Resolve reconcile_reasoning_going : preserves.

(** ** Function calls *)

Lemma stream_index_ok index i : stream_index index = Ok i → i = mk_ModelStreamIndex index.
Proof. intros Hp%or_malformed_ok. by apply result_bind_ok in Hp as ([] & _ & [= <-]). Qed.

(** The results of the smart constructors, by their fields. *)
Ltac parsed :=
  repeat match goal with
  | Hm : or_malformed _ _ = Ok _ |- _ => apply or_malformed_ok in Hm
  | Hm : stream_index _ = Ok _ |- _ => apply stream_index_ok in Hm as ->
  end; constructed.

(** A new call at an index of its kind. *)
Lemma resp_open_call_started body r r' i c call :
  resp_open body r → rr_tool_calls r !! msi_get i = None →
  rr_output_item_kinds r !! msi_get i = Some KindFunctionCall →
  rr_tool_calls r' = <[msi_get i := call]> (rr_tool_calls r) →
  rr_hosted_searches r' = rr_hosted_searches r →
  rr_output_item_kinds r' = rr_output_item_kinds r →
  fc_index call = msi_get i → fc_completed call = false →
  ts_index c = i → call_identity call = (ts_provider_call_id c, ts_tool_name c) →
  resp_open (body ++ [ModelToolCallStarted c]) r'.
Proof.
  intros [Hb Hc Hs Hd Hck Hsk Hst] Hnone Hkind Htc Hhs Hks Hindex Hopen Hci Hid.
  assert (rr_hosted_searches r !! msi_get i = None) as Hnos.
  { destruct (rr_hosted_searches r !! msi_get i) eqn:Hl; [|done]. apply Hsk in Hl. congruence. }
  split; rewrite ?Htc, ?Hhs, ?Hks.
  - apply body_ok_snoc. split; [done|]. simpl. rewrite Hci. intros [Hin|Hin]%Hst;
      [rewrite Hnone in Hin|rewrite Hnos in Hin]; by destruct Hin.
  - intros j c'. rewrite (opened_start _ _ _ _ _ _ i (ts_provider_call_id c, ts_tool_name c))
      by (simpl; by rewrite ?Hci). rewrite Hc, <- Hid.
    destruct (decide (i = j)) as [<-|Hne].
    + rewrite lookup_insert_eq, Hnone. split.
      * intros [Heq|(? & ? & _)]; [injection Heq as <-; by exists call|done].
      * intros (call' & [= <-] & _ & <-). by left.
    + rewrite lookup_insert_ne by (destruct i, j; simpl in *; congruence). naive_solver.
  - intros j c'. rewrite opened_other by done. apply Hs.
  - intros j search Hl Hco. apply hosted_ids_snoc. by eapply Hd.
  - intros j call'. rewrite lookup_insert_Some. intros [[<- <-]|[_ Hl]]; [done|by apply Hck].
  - done.
  - intros j. rewrite elem_started_snoc. simpl. rewrite Hci.
    destruct (decide (i = j)) as [<-|Hne]; [rewrite lookup_insert_eq; by left|].
    rewrite lookup_insert_ne by (destruct i, j; simpl in *; congruence).
    intros [Hj|[[= Hj]|?]]; [by apply Hst|done|done].
Qed.

Lemma start_function_call_going index item : keeps_going (start_function_call index item).
Proof.
  intros out s [] s' Hs Hm. unfold start_function_call, reading, update, push in Hm.
  apply st_bind_ok in Hm as (id & s1 & Hid & Hm). apply st_bind_ok in Hm as (name & s2 & Hname & Hm).
  apply st_bind_ok in Hm as ([] & s3 & Hreg & Hm). st_inv.
  apply register_kind_ok in Hreg as (kinds & -> & Hkind & Hsub).
  assert (resp_going (out ++ s.2) (set_rr_output_item_kinds kinds s.1)) as Hs1
    by by eapply going_same.
  simpl in *. destruct (rr_tool_calls s.1 !! index) as [existing|] eqn:Hl; st_inv; [done|].
  parsed. simpl. rewrite (assoc_L (++)).
  destruct Hs1 as (Hst & Hte & info & body & Hout & Ho). split_and!; [done..|].
  simpl. rewrite Hout. exists info. eexists. split; [reflexivity|].
  eapply (resp_open_call_started _ _ _ (mk_ModelStreamIndex index)); try done; done.
Qed.

(** A call may be replaced by one that was started alike. *)
Lemma resp_open_call_same body r r' call call' :
  resp_open body r → rr_tool_calls r !! fc_index call = Some call →
  rr_tool_calls r' = <[fc_index call := call']> (rr_tool_calls r) →
  fc_index call' = fc_index call → fc_completed call' = fc_completed call →
  call_identity call' = call_identity call →
  rr_hosted_searches r' = rr_hosted_searches r →
  rr_output_item_kinds r' = rr_output_item_kinds r → resp_open body r'.
Proof.
  intros [Hb Hc Hs Hd Hck Hsk Hst] Hl Htc Hi Hco Hid Hhs Hks.
  split; rewrite ?Htc, ?Hhs, ?Hks; try done.
  - intros j c. rewrite Hc. destruct (decide (msi_get j = fc_index call)) as [->|Hne];
      [|by rewrite lookup_insert_ne].
    rewrite lookup_insert_eq, Hl. split; intros (x & [= <-] & Hx & Hcx);
      eexists; (split_and!; [reflexivity|congruence..]).
  - intros j call''. rewrite lookup_insert_Some. intros [[<- <-]|[_ Hl']]; [|by apply Hck].
    split; [done|by eapply Hck].
  - intros j Hj. destruct (decide (msi_get j = fc_index call)) as [->|Hne];
      [rewrite lookup_insert_eq; by left|rewrite lookup_insert_ne by done; by apply Hst].
Qed.

Lemma append_tool_arguments_going index delta : keeps_going (append_tool_arguments index delta).
Proof.
  intros out s [] s' Hs Hm. unfold append_tool_arguments, reading, update, push in Hm.
  st_inv. simpl in *. parsed. rewrite (assoc_L (++)).
  match goal with Hl : rr_tool_calls _ !! _ = Some ?x |- _ => rename x into call, Hl into Hl' end.
  destruct Hs as (Hst & Hte & info & body & Hout & Ho).
  destruct (ro_call_kind _ _ Ho _ _ Hl') as [<- _].
  split_and!; [done..|]. rewrite Hout. exists info. eexists. split; [reflexivity|].
  apply resp_open_neutral; [|done|].
  - by eapply (resp_open_call_same _ _ _ call).
  - exists (fc_name call). apply (ro_calls _ _ Ho). exists call. split_and!; [done| |done].
    by apply negb_true_iff.
Qed.

(** A call is completed. *)
Lemma resp_open_call_completed body r r' call call' c :
  resp_open body r → rr_tool_calls r !! fc_index call = Some call → fc_completed call = false →
  rr_tool_calls r' = <[fc_index call := call']> (rr_tool_calls r) →
  fc_index call' = fc_index call → fc_completed call' = true →
  rr_hosted_searches r' = rr_hosted_searches r →
  rr_output_item_kinds r' = rr_output_item_kinds r →
  tc_index c = mk_ModelStreamIndex (fc_index call) →
  call_identity call = (tc_provider_call_id c, tc_called_name c) →
  resp_open (body ++ [ModelToolCallCompleted c]) r'.
Proof.
  intros [Hb Hc Hs Hd Hck Hsk Hst] Hl Hopen Htc Hi Hco Hhs Hks Hci Hid.
  split; rewrite ?Htc, ?Hhs, ?Hks.
  - apply body_ok_snoc. split; [done|]. simpl. rewrite Hci, <- Hid. apply Hc. by exists call.
  - intros j c'. rewrite (opened_end _ _ _ _ _ _ (tc_index c)) by done. rewrite Hci, Hc.
    destruct (decide (msi_get j = fc_index call)) as [Heq|Hne].
    + rewrite Heq, lookup_insert_eq. destruct j as [j]. simpl in Heq. subst j.
      split; [by intros [? _]|intros (x & [= <-] & Hx & _); congruence].
    + rewrite lookup_insert_ne by done. split; [by intros [_ ?]|]. intros Hj.
      split; [|done]. intros <-. by destruct Hne.
  - intros j c'. rewrite opened_other by done. apply Hs.
  - intros j search Hl' Hco'. apply hosted_ids_snoc. by eapply Hd.
  - intros j call''. rewrite lookup_insert_Some. intros [[<- <-]|[_ Hl']]; [|by apply Hck].
    split; [done|by eapply Hck].
  - done.
  - intros j. rewrite elem_started_snoc. simpl. intros [Hj|[?|?]]; [|done..].
    destruct (decide (msi_get j = fc_index call)) as [->|Hne];
      [rewrite lookup_insert_eq; by left|rewrite lookup_insert_ne by done; by apply Hst].
Qed.

Section codec.
Context `{Codec}.

Lemma complete_tool_call_going index : keeps_going (complete_tool_call index).
Proof.
  intros out s [] s' Hs Hm. unfold complete_tool_call, reading, update, push in Hm.
  apply st_bind_ok in Hm as (calls & s1 & Hcalls & Hm).
  apply st_bind_ok in Hm as (call & s2 & Hl & Hm). st_inv. simpl in *.
  match goal with Hl : rr_tool_calls _ !! _ = Some _ |- _ => rename Hl into Hl' end.
  destruct (fc_completed call) eqn:Hopen; st_inv; [done|]. simpl in *. parsed.
  destruct Hs as (Hst & Hte & info & body & Hout & Ho).
  destruct (ro_call_kind _ _ Ho _ _ Hl') as [<- _].
  split_and!; [done..|]. rewrite (assoc_L (++)), Hout. exists info. eexists. split; [reflexivity|].
  by eapply (resp_open_call_completed _ _ _ call).
Qed.
End codec.

#[export] Hint Resolve start_function_call_going append_tool_arguments_going complete_tool_call_going
  : preserves.

Lemma reconcile_tool_arguments_going index arguments :
  keeps_going (reconcile_tool_arguments index arguments).
Proof. unfold reconcile_tool_arguments. solve_preserves. Qed.
#[export] Hint Resolve reconcile_tool_arguments_going : preserves.

(** ** Hosted searches *)

(** A new search at an index of its kind. *)
Lemma resp_open_search_started body r r' i search c :
  resp_open body r → rr_hosted_searches r !! msi_get i = None →
  rr_output_item_kinds r !! msi_get i = Some KindHostedSearch →
  rr_hosted_searches r' = <[msi_get i := search]> (rr_hosted_searches r) →
  rr_tool_calls r' = rr_tool_calls r →
  rr_output_item_kinds r' = rr_output_item_kinds r →
  hsa_completed search = false → hs_index c = i →
  search_identity search = (hs_provider_call_id c, hs_tool_name c) →
  resp_open (body ++ [ModelHostedToolStarted c]) r'.
Proof.
  intros [Hb Hc Hs Hd Hck Hsk Hst] Hnone Hkind Hhs Htc Hks Hopen Hci Hid.
  assert (rr_tool_calls r !! msi_get i = None) as Hnoc.
  { destruct (rr_tool_calls r !! msi_get i) eqn:Hl; [|done]. apply Hck in Hl as [_ Hl]. congruence. }
  split; rewrite ?Htc, ?Hhs, ?Hks.
  - apply body_ok_snoc. split; [done|]. simpl. rewrite Hci. intros [Hin|Hin]%Hst;
      [rewrite Hnoc in Hin|rewrite Hnone in Hin]; by destruct Hin.
  - intros j c'. rewrite opened_other by done. apply Hc.
  - intros j c'. rewrite (opened_start _ _ _ _ _ _ i (hs_provider_call_id c, hs_tool_name c))
      by (simpl; by rewrite ?Hci). rewrite Hs, <- Hid.
    destruct (decide (i = j)) as [<-|Hne].
    + rewrite lookup_insert_eq, Hnone. split.
      * intros [Heq|(? & ? & _)]; [injection Heq as <-; by exists search|done].
      * intros (search' & [= <-] & _ & <-). by left.
    + rewrite lookup_insert_ne by (destruct i, j; simpl in *; congruence). naive_solver.
  - intros j search'. rewrite lookup_insert_Some. intros [[<- <-]|[_ Hl]] Hco; [congruence|].
    apply hosted_ids_snoc. by eapply Hd.
  - done.
  - intros j search'. rewrite lookup_insert_Some. intros [[<- _]|[_ Hl]]; [done|by eapply Hsk].
  - intros j. rewrite elem_started_snoc. simpl. rewrite Hci.
    destruct (decide (i = j)) as [<-|Hne]; [rewrite lookup_insert_eq; by right|].
    rewrite lookup_insert_ne by (destruct i, j; simpl in *; congruence).
    intros [Hj|[?|[= Hj]]]; [by apply Hst|done|done].
Qed.

Lemma start_hosted_search_going index item : keeps_going (start_hosted_search index item).
Proof.
  intros out s [] s' Hs Hm. unfold start_hosted_search, reading, update, push in Hm.
  apply st_bind_ok in Hm as (id & s1 & Hid & Hm).
  apply st_bind_ok in Hm as ([] & s3 & Hreg & Hm). st_inv.
  apply register_kind_ok in Hreg as (kinds & -> & Hkind & Hsub).
  assert (resp_going (out ++ s.2) (set_rr_output_item_kinds kinds s.1)) as Hs1
    by by eapply going_same.
  simpl in *. destruct (rr_hosted_searches s.1 !! index) as [existing|] eqn:Hl; st_inv; [done|].
  parsed. simpl. rewrite (assoc_L (++)).
  destruct Hs1 as (Hst & Hte & info & body & Hout & Ho). split_and!; [done..|].
  simpl. rewrite Hout. exists info. eexists. split; [reflexivity|].
  eapply (resp_open_search_started _ _ _ (mk_ModelStreamIndex index)); try done; done.
Qed.
#[export] Hint Resolve start_hosted_search_going : preserves.

(** A started search is there: the [expect]s of its completion do not fail. *)
Lemma start_hosted_search_present index item s u s' :
  start_hosted_search index item s = (Ok u, s') → is_Some (rr_hosted_searches s'.1 !! index).
Proof.
  intros Hm. unfold start_hosted_search, reading, update, push in Hm.
  apply st_bind_ok in Hm as (id & s1 & Hid & Hm).
  apply st_bind_ok in Hm as ([] & s3 & Hreg & Hm). st_inv.
  apply register_kind_ok in Hreg as (kinds & -> & _ & _). simpl in *.
  destruct (rr_hosted_searches s.1 !! index) as [existing|] eqn:Hl; st_inv; simpl;
    [by rewrite Hl|by rewrite lookup_insert_eq].
Qed.

(** A search is completed. *)
Lemma resp_open_search_completed body r r' i search search' c :
  resp_open body r → rr_hosted_searches r !! msi_get i = Some search →
  hsa_completed search = false →
  rr_hosted_searches r' = <[msi_get i := search']> (rr_hosted_searches r) →
  hsa_provider_call_id search' = hsa_provider_call_id search → hsa_completed search' = true →
  rr_tool_calls r' = rr_tool_calls r → rr_output_item_kinds r' = rr_output_item_kinds r →
  hc_index c = i → search_identity search = (hc_provider_call_id c, hc_tool_name c) →
  resp_open (body ++ [ModelHostedToolCompleted c]) r'.
Proof.
  intros [Hb Hc Hs Hd Hck Hsk Hst] Hl Hopen Hhs Hpid Hco Htc Hks Hci Hid.
  split; rewrite ?Htc, ?Hhs, ?Hks.
  - apply body_ok_snoc. split; [done|]. simpl. rewrite Hci, <- Hid. apply Hs. by exists search.
  - intros j c'. rewrite opened_other by done. apply Hc.
  - intros j c'. rewrite (opened_end _ _ _ _ _ _ (hc_index c)) by done. rewrite Hci, Hs.
    destruct (decide (i = j)) as [<-|Hne].
    + rewrite lookup_insert_eq. split; [by intros [? _]|intros (x & [= <-] & Hx & _); congruence].
    + rewrite lookup_insert_ne by (destruct i, j; simpl in *; congruence).
      split; [by intros [_ ?]|done].
  - intros j x. rewrite lookup_insert_Some, omap_app, elem_of_app. intros [[<- <-]|[_ Hx]] Hcx.
    + right. simpl. rewrite Hpid. injection Hid as <- _. by left.
    + left. by eapply Hd.
  - done.
  - intros j x. rewrite lookup_insert_Some. intros [[<- _]|[_ Hx]]; by eapply Hsk.
  - intros j. rewrite elem_started_snoc. simpl. intros [Hj|[?|?]]; [|done..].
    destruct (decide (msi_get i = msi_get j)) as [->|Hne];
      [rewrite lookup_insert_eq; by right|rewrite lookup_insert_ne by done; by apply Hst].
Qed.

(** ** Citations *)

(** A search a citation names is complete. *)
Lemma provider_call_completed body r url id :
  resp_open body r → provider_call_for_source (rr_hosted_searches r) url = Ok (Some id) →
  id ∈ omap hosted_id body.
Proof.
  intros Ho Hp. unfold provider_call_for_source in Hp.
  destruct (List.filter _ _) as [|search [|]] eqn:Hf; [done| |done].
  apply result_bind_ok in Hp as (pid & Hpid & [= <-]). parsed.
  assert (In search [search]) as Hin by by left. rewrite <- Hf in Hin.
  apply filter_In in Hin as [Hin [Hco _]%andb_true_iff].
  apply list_elem_of_In, list_elem_of_fmap in Hin as ([i x] & -> & Hin).
  unfold btree_entries in Hin. rewrite elem_of_stable_sort, elem_of_map_to_list in Hin.
  by eapply ro_done.
Qed.

Section codec2.
Context `{Codec}.

Lemma emit_or_defer_going finalize key citation :
  keeps_going (emit_or_defer_citation finalize key citation).
Proof.
  intros out s [] s' Hs Hm. unfold emit_or_defer_citation, reading, update, push in Hm.
  apply st_bind_ok in Hm as (searches & s1 & Hsearches & Hm).
  apply st_bind_ok in Hm as (id & s2 & Hid & Hm). st_inv.
  destruct (negb finalize && _); st_inv; [by eapply going_same|].
  simpl. rewrite (assoc_L (++)). parsed.
  apply going_push; [done..|]. intros body Ho. simpl. destruct id as [id|]; [|done].
  by eapply provider_call_completed.
Qed.
#[local] Hint Resolve emit_or_defer_going : preserves.

Lemma flush_pending_citations_going finalize : keeps_going (flush_pending_citations finalize).
Proof. unfold flush_pending_citations. solve_preserves. frame. Qed.
#[local] Hint Resolve flush_pending_citations_going : preserves.

Lemma emit_annotation_going index content_index annotation_index annotation :
  keeps_going (emit_annotation index content_index annotation_index annotation).
Proof. unfold emit_annotation. solve_preserves. frame. Qed.
#[local] Hint Resolve emit_annotation_going : preserves.

(** ** Completed output items *)

Lemma complete_hosted_search_going index item : keeps_going (complete_hosted_search index item).
Proof.
  unfold complete_hosted_search. apply preserves_bind; [apply start_hosted_search_going|intros []].
  intros out s [] s' Hs Hm. unfold reading, update, push in Hm.
  apply st_bind_ok in Hm as (searches & s1 & Hsearches & Hm). st_inv.
  destruct (rr_hosted_searches s.1 !! index) as [search|] eqn:Hl; [|by st_inv].
  destruct (hsa_completed search) eqn:Hopen; [by st_inv|].
  st_inv. parsed.
  match type of Hm with flush_pending_citations _ ?st = _ =>
    assert (resp_going (out ++ st.2) st.1) as Hs2; [|by eapply flush_pending_citations_going] end.
  simpl. rewrite (assoc_L (++)).
  destruct Hs as (Hst & Hte & info & body & Hout & Ho). split_and!; [done..|].
  rewrite Hout. exists info. eexists. split; [reflexivity|].
  eapply (resp_open_search_completed _ _ _ (mk_ModelStreamIndex index) search); try done; done.
Qed.
#[local] Hint Resolve complete_hosted_search_going : preserves.

Lemma for_indexed_going what index values f :
  (∀ i value, keeps_going (f i value)) → keeps_going (for_indexed what index values f).
Proof.
  intros Hf. revert index. induction values as [|value values IH]; intros index; simpl;
    [apply preserves_ret|]. solve_preserves.
Qed.

Lemma reconcile_message_content_going index item : keeps_going (reconcile_message_content index item).
Proof. unfold reconcile_message_content. solve_preserves. apply for_indexed_going. solve_preserves. Qed.

Lemma emit_message_annotations_going index item : keeps_going (emit_message_annotations index item).
Proof. apply for_indexed_going. intros. apply for_indexed_going. solve_preserves. Qed.

Lemma reconcile_summaries_going index item : keeps_going (reconcile_summaries index item).
Proof. apply for_indexed_going. solve_preserves. Qed.
#[local] Hint Resolve reconcile_message_content_going emit_message_annotations_going
  reconcile_summaries_going : preserves.

Lemma complete_output_item_going index item : keeps_going (complete_output_item index item).
Proof. unfold complete_output_item. solve_preserves. Qed.
#[local] Hint Resolve complete_output_item_going : preserves.

Lemma terminal_items_going raw items output : keeps_going (terminal_items raw items output).
Proof.
  revert raw output. induction items as [|item items IH]; intros raw output; simpl;
    [apply preserves_ret|]. unfold terminal_output_item_index. solve_preserves.
Qed.
#[local] Hint Resolve terminal_items_going : preserves.

Lemma complete_response_output_going response : keeps_going (complete_response_output response).
Proof. unfold complete_response_output. solve_preserves. Qed.
#[local] Hint Resolve complete_response_output_going : preserves.

(** ** Events *)

Lemma item_added_going value : keeps_going (item_added value).
Proof. unfold item_added. solve_preserves; frame. Qed.

Lemma message_event_going refusal value : keeps_going (message_event refusal value).
Proof. unfold message_event. solve_preserves. Qed.
#[local] Hint Resolve item_added_going message_event_going : preserves.

Lemma text_event_going refusal value :
  keeps_going (text_delta refusal value) ∧ keeps_going (text_done refusal value).
Proof. unfold text_delta, text_done. split; solve_preserves. Qed.

Lemma annotation_added_going value : keeps_going (annotation_added value).
Proof. unfold annotation_added. solve_preserves. Qed.

Lemma reasoning_event_going value :
  keeps_going (reasoning_delta value) ∧ keeps_going (reasoning_done value).
Proof. unfold reasoning_delta, reasoning_done. split; solve_preserves. Qed.

Lemma arguments_event_going value :
  keeps_going (arguments_delta value) ∧ keeps_going (arguments_done value).
Proof. unfold arguments_delta, arguments_done. split; solve_preserves. Qed.

Lemma search_progress_going value : keeps_going (search_progress value).
Proof. unfold search_progress. solve_preserves. Qed.

Lemma item_done_going value : keeps_going (item_done value).
Proof. unfold item_done. solve_preserves. Qed.

(** A stream that has ended. *)
Definition resp_ended (out : list ModelEvent) (r : ResponsesReducer) : Prop :=
  rr_terminal_emitted r = true ∧ grammatical out.

Definition resp_inv (out : list ModelEvent) (r : ResponsesReducer) : Prop :=
  out = [] ∧ (∃ provider, r = for_provider provider) ∨ resp_going out r ∨ resp_ended out r.

Lemma emit_failure_ends response incomplete :
  maps resp_going (emit_failure response incomplete) (λ _, resp_ended).
Proof.
  unfold emit_failure. apply (maps_bind _ _ (λ _ out r, rr_terminal_emitted r = true ∧
    unfinished out ∧ out ≠ [])).
  - apply maps_update. intros l r (_ & _ & info & body & -> & [Hb _ _ _ _ _ _]).
    split_and!; [done| |done]. right. by exists info, body.
  - intros []. apply maps_push. intros l r (Ht & Hu & Hne). split; [done|].
    by apply failed_grammatical.
Qed.

Lemma pending_false {A} `{Countable K} (m : gmap K A) (f : A → bool) :
  existsb (λ entry, negb (f entry.2)) (map_to_list m) = false →
  ∀ i x, m !! i = Some x → f x = true.
Proof.
  intros He i x Hl. destruct (f x) eqn:Hf; [done|].
  assert (existsb (λ entry, negb (f entry.2)) (map_to_list m) = true); [|congruence].
  apply existsb_exists. exists (i, x). split; [|by simpl; rewrite Hf].
  by apply list_elem_of_In, elem_of_map_to_list.
Qed.

(** A completed response has no open call. *)
Definition resp_settled (out : list ModelEvent) (r : ResponsesReducer) : Prop :=
  resp_going out r ∧ search_pending (rr_hosted_searches r) = false ∧
  call_pending (rr_tool_calls r) = false.

Lemma settled_ends out r completion :
  resp_settled out r → resp_ended (out ++ [ModelCompleted completion]) (set_rr_terminal_emitted r).
Proof.
  intros ((_ & _ & info & body & -> & [Hb Hc Hh _ _ _ _]) & Hsp & Hcp). split; [done|].
  exists info, body, (ModelCompleted completion). split_and!; [done..|]. intros i c. split.
  - intros (call & Hl & Hopen & _)%Hc. apply (pending_false _ _ Hcp) in Hl. congruence.
  - intros (search & Hl & Hopen & _)%Hh. apply (pending_false _ _ Hsp) in Hl. congruence.
Qed.

(** Flushing every pending citation defers none and starts nothing. *)
Lemma flush_all_keeps {C} (f : ResponsesReducer → C) :
  (∀ pending bytes r, f (set_rr_pending pending bytes r) = f r) →
  keeps (λ s, f s.1) (flush_pending_citations true).
Proof.
  intros Hf. unfold flush_pending_citations, emit_or_defer_citation, reading, update, push.
  solve_keeps; apply keeps_modify; intros s; by try apply Hf.
Qed.

Lemma flush_all_settled : preserves resp_settled (flush_pending_citations true).
Proof.
  intros out s u s' (Hg & Hsp & Hcp) Hm.
  pose proof (flush_all_keeps rr_hosted_searches (λ _ _ _, eq_refl) s) as Hh.
  pose proof (flush_all_keeps rr_tool_calls (λ _ _ _, eq_refl) s) as Hc.
  rewrite Hm in Hh, Hc. simpl in Hh, Hc. unfold resp_settled. rewrite Hh, Hc.
  split_and!; [by eapply flush_pending_citations_going|done..].
Qed.

Lemma ensure_complete_settled : maps resp_going ensure_output_items_complete (λ _, resp_settled).
Proof.
  intros out s [] s' Hg Hm. unfold ensure_output_items_complete, reading in Hm. st_inv.
  by split_and!; [|apply negb_true_iff..].
Qed.

Lemma response_completed_ends response :
  maps resp_going (response_completed response) (λ _, resp_ended).
Proof.
  unfold response_completed.
  apply (maps_bind _ _ (λ _, resp_going)); [by apply maps_lift|intros resp].
  apply (maps_bind _ _ (λ _, resp_going)); [by apply maps_ensure|intros []].
  apply (maps_bind _ _ (λ _, resp_going)); [by apply maps_ensure|intros []].
  apply (maps_bind _ _ (λ _, resp_going)); [apply complete_response_output_going|intros []].
  apply (maps_bind _ _ (λ _, resp_settled)); [apply ensure_complete_settled|intros []].
  apply (maps_bind _ _ (λ _, resp_settled)); [apply flush_all_settled|intros []].
  apply (maps_bind _ _ (λ _, resp_settled)); [by apply maps_reading|intros kind].
  apply (maps_bind _ _ (λ _, resp_settled)); [by apply maps_lift|intros completion].
  apply (maps_bind _ _ (λ _, resp_settled)); [by apply maps_lift|intros usage].
  intros out s [] s' Hs Hm. unfold update, push in Hm. st_inv. simpl. rewrite (assoc_L (++)).
  by apply settled_ends.
Qed.

Lemma responses_event_inv kind value response :
  maps resp_going (responses_event kind value response)
    (λ _ out r, resp_going out r ∨ resp_ended out r).
Proof.
  assert (∀ m : Mapping ResponsesReducer unit, keeps_going m →
    maps resp_going m (λ _ out r, resp_going out r ∨ resp_ended out r)) as Hgo.
  { intros m Hm out s [] s' Hs Hr. left. by eapply Hm. }
  assert (∀ m : Mapping ResponsesReducer unit, maps resp_going m (λ _, resp_ended) →
    maps resp_going m (λ _ out r, resp_going out r ∨ resp_ended out r)) as Hend.
  { intros m Hm out s [] s' Hs Hr. right. by eapply Hm. }
  unfold responses_event. cbv zeta.
  repeat match goal with
  | |- maps _ (if ?b then _ else _) _ => destruct b
  | |- maps _ (st_ret _) _ => apply Hgo, preserves_ret
  | |- maps _ (item_added _) _ => apply Hgo, item_added_going
  | |- maps _ (text_delta _ _) _ => apply Hgo, text_event_going
  | |- maps _ (text_done _ _) _ => apply Hgo, text_event_going
  | |- maps _ (annotation_added _) _ => apply Hgo, annotation_added_going
  | |- maps _ (reasoning_delta _) _ => apply Hgo, reasoning_event_going
  | |- maps _ (reasoning_done _) _ => apply Hgo, reasoning_event_going
  | |- maps _ (arguments_delta _) _ => apply Hgo, arguments_event_going
  | |- maps _ (arguments_done _) _ => apply Hgo, arguments_event_going
  | |- maps _ (search_progress _) _ => apply Hgo, search_progress_going
  | |- maps _ (item_done _) _ => apply Hgo, item_done_going
  | |- maps _ (response_completed _) _ => apply Hend, response_completed_ends
  | |- maps _ (emit_failure _ _) _ => apply Hend, emit_failure_ends
  end.
Qed.

Lemma resp_open_nil r : rr_tool_calls r = ∅ → rr_hosted_searches r = ∅ → resp_open [] r.
Proof.
  intros Hc Hs. split; rewrite ?Hc, ?Hs.
  - apply body_ok_nil.
  - intros i c. rewrite lookup_empty. split; [by intros ?%opened_nil|by intros (? & ? & _)].
  - intros i c. rewrite lookup_empty. split; [by intros ?%opened_nil|by intros (? & ? & _)].
  - intros i search. by rewrite lookup_empty.
  - intros i call. by rewrite lookup_empty.
  - intros i search. by rewrite lookup_empty.
  - intros i Hi. by apply elem_of_nil in Hi.
Qed.

Lemma ensure_started_going response :
  maps (λ out r, out = [] ∧ (∃ provider, r = for_provider provider) ∨ resp_going out r)
    (ensure_started response) (λ _, resp_going).
Proof.
  intros out s [] s' Hs Hm. unfold ensure_started, reading, update, push in Hm. st_inv.
  destruct Hs as [[Hout [provider Hr]]|Hg].
  - rewrite Hr in Hm. simpl in Hm. st_inv. simpl. rewrite (assoc_L (++)), Hout.
    split_and!; [done|by rewrite Hr|]. eexists _, []. split; [done|].
    apply resp_open_nil; by rewrite Hr.
  - destruct (id Hg) as [Hst _]. rewrite Hst in Hm. by st_inv.
Qed.

Lemma responses_chunk_inv out r value events r' :
  resp_inv out r → responses_map_chunk value r = (Ok events, r') → resp_inv (out ++ events) r'.
Proof.
  intros Hinv Hm. unfold responses_map_chunk, mapped in Hm.
  destruct (responses_chunk_events value (r, [])) as [[u|e] [r1 events1]] eqn:He; [|done].
  injection Hm as -> ->. unfold responses_chunk_events, reading in He.
  apply st_bind_ok in He as (terminal & s1 & Hte & He). st_inv. simpl in *.
  match goal with Hb : ensure_started _ _ = (Ok _, ?s) |- _ => rename s into s2, Hb into Hb2 end.
  assert (resp_going (out ++ s2.2) s2.1) as Hg.
  { eapply (ensure_started_going _ out (r, [])); [|exact Hb2]. simpl. rewrite app_nil_r.
    destruct Hinv as [?|[?|[Ht _]]]; [by left|by right|]. by rewrite Ht in *. }
  right. by eapply (responses_event_inv _ _ _ out s2 _ (r', events)).
Qed.

Lemma resp_inv_stream out r : resp_inv out r → unfinished out ∨ grammatical out.
Proof.
  intros [[-> _]|[(_ & _ & info & body & -> & [Hb _ _ _ _ _ _])|[_ Hg]]];
    [by left; left|left; right; by exists info, body|by right].
Qed.
End codec2.

#[export] Program Instance responses_lawful `{Codec} provider_id :
    LawfulReducer (responses_reducer provider_id) :=
  mk_LawfulReducer (responses_reducer provider_id) resp_inv _ responses_chunk_inv resp_inv_stream _ _.
Next Obligation. intros H provider. left. split; [done|by exists provider]. Qed.
Next Obligation.
  intros H provider out r r' Hinv Hf. simpl in Hf. unfold responses_finish in Hf. st_inv.
  destruct (rr_terminal_emitted r) eqn:Ht; st_inv; [|done].
  destruct Hinv as [[_ [p ->]]|[(_ & ? & _)|[_ ?]]]; [done|congruence|done].
Qed.
Next Obligation.
  intros H provider out r event r' Hinv Hf. simpl in Hf. unfold responses_finish in Hf. st_inv.
  destruct (rr_terminal_emitted r); st_inv; [done|]. by simplify_eq.
Qed.

(** ** The provider *)

(** C20: whatever the HTTP exchange yields (an error status, a transport error or
    a cancellation at any point, a body that ends early, bytes after [DONE],
    malformed JSON or payloads in any order), the stream of a request in either
    API mode is one grammatical stream: started once, every call and hosted
    search started, continued and completed in turn, citations only of completed
    searches, ended once, and completed only when every call is complete. *)
Theorem openai_stream_grammatical `{Codec, JsonText} provider_id mode body exchange :
  grammatical (openai_stream provider_id mode body exchange).
Proof.
  unfold openai_stream.
  destruct body as [body|]; [|apply failed_events_grammatical].
  destruct (get_bool body "stream") as [streaming|]; [|apply failed_events_grammatical].
  destruct exchange as [|transport|status retry body'|chunks]; try apply failed_events_grammatical.
  destruct streaming, mode; try apply failed_events_grammatical;
    [apply response_stream_grammatical, _..|apply complete_response_grammatical].
Qed.

(** ** Concrete streams *)

Module OpenAiSample.

(** The payloads of the samples, by their text. *)
Definition chunk (delta more : list (string * Value)) : Value :=
  let choice := [("index", JNumber (PosInt 0)); ("delta", JObject delta)]%string in
  JObject [("choices"%string, JArray [JObject (choice ++ more)])].

Definition item (kind : string) (more : list (string * Value)) : Value :=
  JObject ([("id", JString "i"); ("type", JString kind)]%string ++ more).
Definition search : Value :=
  item "web_search_call"
    [("status", JString "completed");
     ("action", JObject [("sources", JArray [JObject [("type", JString "url");
                                                      ("url", JString "https://a")]])])]%string.
Definition item_event (kind : string) : Value :=
  JObject [("type", JString kind); ("output_index", JNumber (PosInt 0)); ("item", search)]%string.
Definition completed_event : Value :=
  JObject [("type", JString "response.completed");
           ("response", JObject [("status", JString "completed");
                                 ("output", JArray [search])])]%string.

#[export] Instance codec : Codec := {|
  json_len := λ _, Some 64%N;
  base64_decodes := λ _, true;
  parse_url := λ url, Some (mk_ParsedUrl "https" false (Some "a"%string) "" None url);
  json_parse := λ text,
    if String.eqb text "text" then Some (chunk [("content", JString "hello")]%string [])
    else if String.eqb text "finish" then
      Some (chunk [] [("finish_reason", JString "stop")]%string)
    else if String.eqb text "added" then Some (item_event "response.output_item.added")
    else if String.eqb text "done" then Some (item_event "response.output_item.done")
    else if String.eqb text "completed" then Some completed_event
    else None;
  block_json_len := λ _, 64%N
|}.
#[export] Instance text : JsonText := {| json_text := λ _, "{}"%string |}.

Definition line_end : list N := [10; 10]%N.
Definition chat_body : list BodyChunk :=
  [BodyBytes (bytes "data: te"); BodyBytes (bytes "xt" ++ line_end ++ bytes "data: finish");
   BodyBytes (line_end ++ bytes "data: [DONE]" ++ line_end)].
Definition responses_body : list BodyChunk :=
  [BodyBytes (bytes "data: added" ++ line_end ++ bytes "data: done" ++ line_end);
   BodyBytes (bytes "data: completed" ++ line_end)].

Definition stream_of (mode : OpenAiApiMode) (body : list BodyChunk) : list ModelEvent :=
  openai_stream "openai" mode (Ok (JObject [("stream", JBool true)]%string)) (ExchangeOk body).

Example chat_sample :
  stream_of ChatCompletions chat_body =
    [ModelStarted response_info_new; ModelTextDelta (mk_Utf8Delta "hello");
     ModelCompleted (mk_ModelCompletion StopCompleted None None ∅)].
Proof. by vm_compute. Qed.

(** The search is started and completed once, although it is sent three times. *)
Example responses_sample :
  match stream_of Responses responses_body with
  | [ModelStarted _; ModelHostedToolStarted start; ModelHostedToolCompleted done; ModelCompleted _] =>
      hs_index start = hc_index done ∧
      hc_sources done = [mk_ExternalSource "https://a" None None]
  | _ => False
  end.
Proof. by vm_compute. Qed.
End OpenAiSample.
