(* ===== verification/Anthropic.v ===== *)
(** * Anthropic Messages: stream events to model events

    [crates/tea-provider-anthropic/src]: errors ([error.rs]) and the reducer that
    maps the payloads of a Messages stream to normalized events ([stream.rs]). *)

From S2P Require Import Prelude Protocol Decimal Utf8 Tools Validation External Usage ModelSpec Event.
From S2P Require Import KernelBase Command ModelStream ProviderHttp ProviderStream.
Local Open Scope tea_scope.

(** ** Errors *)

Inductive AnthropicErrorCode : Set :=
| AnInvalidRequest | AnAuthentication | AnPermissionDenied | AnRateLimited | AnUnavailable
| AnTransport | AnMalformedResponse | AnContextOverflow | AnCancelled | AnInternal.

Record AnthropicError : Set := mk_AnthropicError {
  ane_code : AnthropicErrorCode;
  ane_message : string
}.

Definition anthropic_error (code : AnthropicErrorCode) (message : string) : AnthropicError :=
  let message :=
    if String.eqb message "" then "anthropic adapter operation failed"%string else message in
  mk_AnthropicError code (truncate_utf8 (strip_nul message) 4096).

Definition anthropic_failure_code (code : AnthropicErrorCode) : ModelFailureCode :=
  match code with
  | AnAuthentication => FailAuthentication
  | AnPermissionDenied => FailPermissionDenied
  | AnRateLimited => FailRateLimited
  | AnUnavailable => FailUnavailable
  | AnTransport => FailTransport
  | AnInvalidRequest => FailInvalidRequest
  | AnMalformedResponse => FailMalformedResponse
  | AnContextOverflow => FailContextOverflow
  | AnCancelled => FailCancelled
  | AnInternal => FailInternal
  end.

Definition anthropic_adapter_failure (error : AnthropicError) : ModelFailure :=
  failure_or_internal
    (model_failure_new (anthropic_failure_code (ane_code error)) (ane_message error)
       RetryClassNever).

Definition anthropic_malformed (message : string) : AnthropicError :=
  anthropic_error AnMalformedResponse message.

Local Notation malformed := anthropic_malformed (only parsing).

(** [map_err(|_| malformed(message))], and [ok_or_else(|| malformed(message))]. *)
Definition invalid {E A} (message : string) (r : Result E A) : Result AnthropicError A :=
  map_err (λ _, malformed message) r.
Definition missing {A} (message : string) (value : option A) : Result AnthropicError A :=
  ok_or value (malformed message).

Definition PROVIDER_ID : string := "anthropic".
Definition ANTHROPIC_WEB_SEARCH_FORMAT : string := "anthropic.messages.web_search.v1".

(** ** The state *)

Record ToolUseAccumulator : Set := mk_ToolUseAccumulator {
  tu_index : N;
  tu_provider_call_id : string;
  tu_name : string;
  tu_arguments : string
}.

Record HostedToolAccumulator : Set := mk_HostedToolAccumulator {
  hta_index : N;
  hta_provider_call_id : string;
  hta_name : string;
  hta_arguments : string;
  hta_raw_block : Value;
  hta_completed : bool
}.

Record ContentBlockState : Set := mk_ContentBlockState {
  cbs_kind : string;
  cbs_closed : bool
}.

(** The token counts [capture_usage] collects. *)
Record TokenCounts : Set := mk_TokenCounts {
  tk_output : option N;
  tk_input : option N;
  tk_cache_read : option N;
  tk_cache_write : option N
}.

Record AnthropicReducer : Set := mk_AnthropicReducer {
  ar_started : bool;
  ar_message_started : bool;
  ar_terminal_emitted : bool;
  ar_pending_stop_reason : option StopReason;
  ar_tokens : TokenCounts;
  ar_tool_calls : gmap N ToolUseAccumulator;
  ar_hosted_tools : gmap N HostedToolAccumulator;
  ar_content_blocks : gmap N ContentBlockState;
  ar_source_owners : gmap string string
}.

Definition anthropic_reducer_new : AnthropicReducer :=
  mk_AnthropicReducer false false false None (mk_TokenCounts None None None None) ∅ ∅ ∅ ∅.

Definition set_ar_started (r : AnthropicReducer) : AnthropicReducer :=
  mk_AnthropicReducer true (ar_message_started r) (ar_terminal_emitted r)
    (ar_pending_stop_reason r) (ar_tokens r) (ar_tool_calls r) (ar_hosted_tools r)
    (ar_content_blocks r) (ar_source_owners r).
Definition set_ar_message_started (r : AnthropicReducer) : AnthropicReducer :=
  mk_AnthropicReducer (ar_started r) true (ar_terminal_emitted r)
    (ar_pending_stop_reason r) (ar_tokens r) (ar_tool_calls r) (ar_hosted_tools r)
    (ar_content_blocks r) (ar_source_owners r).
Definition set_ar_terminal_emitted (r : AnthropicReducer) : AnthropicReducer :=
  mk_AnthropicReducer (ar_started r) (ar_message_started r) true
    (ar_pending_stop_reason r) (ar_tokens r) (ar_tool_calls r) (ar_hosted_tools r)
    (ar_content_blocks r) (ar_source_owners r).
Definition set_ar_stop_reason (stop : StopReason) (r : AnthropicReducer) : AnthropicReducer :=
  mk_AnthropicReducer (ar_started r) (ar_message_started r) (ar_terminal_emitted r)
    (Some stop) (ar_tokens r) (ar_tool_calls r) (ar_hosted_tools r)
    (ar_content_blocks r) (ar_source_owners r).
Definition set_ar_tokens (tokens : TokenCounts) (r : AnthropicReducer) : AnthropicReducer :=
  mk_AnthropicReducer (ar_started r) (ar_message_started r) (ar_terminal_emitted r)
    (ar_pending_stop_reason r) tokens (ar_tool_calls r) (ar_hosted_tools r)
    (ar_content_blocks r) (ar_source_owners r).
Definition set_ar_tool_call (index : N) (call : ToolUseAccumulator) (r : AnthropicReducer)
    : AnthropicReducer :=
  mk_AnthropicReducer (ar_started r) (ar_message_started r) (ar_terminal_emitted r)
    (ar_pending_stop_reason r) (ar_tokens r) (<[index := call]> (ar_tool_calls r))
    (ar_hosted_tools r) (ar_content_blocks r) (ar_source_owners r).
Definition set_ar_hosted_tool (index : N) (tool : HostedToolAccumulator) (r : AnthropicReducer)
    : AnthropicReducer :=
  mk_AnthropicReducer (ar_started r) (ar_message_started r) (ar_terminal_emitted r)
    (ar_pending_stop_reason r) (ar_tokens r) (ar_tool_calls r)
    (<[index := tool]> (ar_hosted_tools r)) (ar_content_blocks r) (ar_source_owners r).
Definition set_ar_content_block (index : N) (block : ContentBlockState) (r : AnthropicReducer)
    : AnthropicReducer :=
  mk_AnthropicReducer (ar_started r) (ar_message_started r) (ar_terminal_emitted r)
    (ar_pending_stop_reason r) (ar_tokens r) (ar_tool_calls r) (ar_hosted_tools r)
    (<[index := block]> (ar_content_blocks r)) (ar_source_owners r).
Definition set_ar_source_owners (owners : gmap string string) (r : AnthropicReducer)
    : AnthropicReducer :=
  mk_AnthropicReducer (ar_started r) (ar_message_started r) (ar_terminal_emitted r)
    (ar_pending_stop_reason r) (ar_tokens r) (ar_tool_calls r) (ar_hosted_tools r)
    (ar_content_blocks r) owners.

Local Notation Mapping := (MappingOf AnthropicError AnthropicReducer).

(** ** Values *)

(** A count that may be absent, or [null] where the field is nullable. *)
Definition usage_token (usage : Value) (key : string) (nullable : bool)
    : Result AnthropicError (option N) :=
  match json_get usage key with
  | None => Ok None
  | Some value =>
      if nullable && json_is_null value then Ok None
      else
        let? n := missing "Anthropic usage field is invalid" (json_as_u64 value) in
        let? _count := invalid "Anthropic usage field is out of range" (token_count_new n) in
        Ok (Some n)
  end.

Definition delta_matches_block (block_kind delta_kind : string) : bool :=
  let same := String.eqb delta_kind in
  if String.eqb block_kind "text" then same "text_delta" || same "citations_delta"
  else if String.eqb block_kind "tool_use" || String.eqb block_kind "server_tool_use" then
    same "input_json_delta"
  else if String.eqb block_kind "thinking" then same "thinking_delta" || same "signature_delta"
  else if String.eqb block_kind "redacted_thinking"
          || String.eqb block_kind "web_search_tool_result" then false
  else negb (same "text_delta" || same "citations_delta" || same "input_json_delta"
             || same "thinking_delta" || same "signature_delta").

Definition block_index (value : Value) : Result AnthropicError ModelStreamIndex :=
  let? raw := missing "content block index missing" (get_u64 value "index") in
  let? index := missing "content block index is too large"
                  (if (raw <=? U16_MAX)%N then Some raw else None) in
  invalid "content block index is invalid" (stream_index_new index).

(** The block is an object: [hosted_block_object]. *)
Definition with_input (block arguments : Value) : Value :=
  match block with
  | JObject entries => JObject (insert_entry "input" arguments entries)
  | block => block
  end.

Definition web_search_error_message (code : string) : string :=
  if String.eqb code "too_many_requests" then "Anthropic web search rate limit exceeded"
  else if String.eqb code "invalid_tool_input" then "Anthropic web search input was invalid"
  else if String.eqb code "max_uses_exceeded" then "Anthropic web search maximum uses exceeded"
  else if String.eqb code "query_too_long" then "Anthropic web search query was too long"
  else if String.eqb code "request_too_large" then "Anthropic web search request was too large"
  else if String.eqb code "unavailable" then "Anthropic web search was unavailable"
  else "Anthropic web search failed".

(** ** Failures *)

Definition anthropic_http_class (status : N) : ModelFailureCode * RetryClass :=
  if (status =? 401)%N then (FailAuthentication, RetryClassNever)
  else if (status =? 403)%N then (FailPermissionDenied, RetryClassNever)
  else if (status =? 400)%N || (status =? 404)%N || (status =? 413)%N || (status =? 422)%N then
    (FailInvalidRequest, RetryClassNever)
  else if (status =? 429)%N then (FailRateLimited, RetryAfterBackoff)
  else if (status =? 408)%N then (FailTransport, RetryImmediate)
  else if in_range 500 599 status then (FailUnavailable, RetryAfterBackoff)
  else (FailInternal, RetryClassNever).

Definition anthropic_error_class (error : Value) : ModelFailureCode * RetryClass :=
  match get_str error "type" with
  | Some error_type =>
      let same := String.eqb error_type in
      if same "authentication_error" then (FailAuthentication, RetryClassNever)
      else if same "permission_error" then (FailPermissionDenied, RetryClassNever)
      else if same "rate_limit_error" then (FailRateLimited, RetryAfterBackoff)
      else if same "overloaded_error" || same "api_error" then (FailUnavailable, RetryAfterBackoff)
      else (FailMalformedResponse, RetryClassNever)
  | None => (FailMalformedResponse, RetryClassNever)
  end.

Section codec.
Context `{Codec, JsonText}.

Definition anthropic_http_failure (status : N) (body : string) : ModelFailure :=
  let '(code, retry) := anthropic_http_class status in
  failure_or_internal
    (model_failure_safe code (normalize_provider_error (Some status) body) retry).

Definition anthropic_stream_error (error : option Value) : ModelFailure :=
  let error := default JNull error in
  let message := normalize_provider_error None (json_text error) in
  let '(code, retry) := anthropic_error_class error in
  failure_or_internal (model_failure_safe code message retry).

(** ** Sources and hosted tools *)

Definition web_search_source (value : Value) : Result AnthropicError ExternalSource :=
  let? url := missing "web search source URL missing" (get_str value "url") in
  let? source := invalid "web search source URL is invalid" (external_source_new url) in
  match json_get value "title" with
  | Some (JString title) =>
      invalid "web search source title is invalid" (source_with_title source title)
  | Some JNull | None => Ok source
  | Some _ => Err (malformed "web search source title is invalid")
  end.

Definition parse_web_search_result (block : Value)
    : Result AnthropicError (HostedToolOutcome * list ExternalSource) :=
  let? content := missing "web search result content missing" (json_get block "content") in
  let malformed_content := Err (malformed "web search result content is invalid") in
  match content with
  | JArray results =>
      let? sources := result_map (λ result,
          try? ensure (bool_decide (get_str result "type" = Some "web_search_result"%string))
                 (malformed "web search result item is invalid") in
          web_search_source result) results in
      Ok (HostedSuccess, sources)
  | JObject _ =>
      if bool_decide (get_str content "type" = Some "web_search_tool_result_error"%string) then
        let? code := missing "web search result error code missing"
                       (get_str content "error_code") in
        let? error := invalid "web search result error is invalid"
                        (hosted_tool_error_new code (web_search_error_message code)) in
        Ok (HostedError error, [])
      else malformed_content
  | _ => malformed_content
  end.

Definition hosted_arguments (tool : HostedToolAccumulator) : Result AnthropicError Value :=
  let? arguments :=
    if String.eqb (hta_arguments tool) "" then
      Ok (default (JObject []) (json_get (hta_raw_block tool) "input"))
    else missing "server tool input did not parse" (json_parse (hta_arguments tool)) in
  try? ensure (is_object arguments) (malformed "server tool input must be an object") in
  Ok arguments.
End codec.

(** ** Methods of the reducer *)

Definition push_block_text (text : string) : Mapping unit :=
  if String.eqb text "" then st_ret tt
  else
    let! delta := st_lift (invalid "text delta is invalid" (utf8_delta_new text)) in
    push (ModelTextDelta delta).

(** A count that is present replaces the one collected before. *)
Definition or_count (new old : option N) : option N :=
  match new with Some n => Some n | None => old end.

Definition capture_usage (usage : Value) (nullable_input_fields : bool) : Mapping unit :=
  do! st_ensure (is_object usage) (malformed "Anthropic usage must be an object") in
  let! input := st_lift (usage_token usage "input_tokens" nullable_input_fields) in
  let! output := st_lift (usage_token usage "output_tokens" false) in
  let! cache_read := st_lift (usage_token usage "cache_read_input_tokens" true) in
  let! cache_write := st_lift (usage_token usage "cache_creation_input_tokens" true) in
  update (λ r, set_ar_tokens
    (mk_TokenCounts (or_count output (tk_output (ar_tokens r)))
       (or_count input (tk_input (ar_tokens r)))
       (or_count cache_read (tk_cache_read (ar_tokens r)))
       (or_count cache_write (tk_cache_write (ar_tokens r)))) r).

(** The response of [message_start]; identifiers that do not parse are left
    out. *)
Definition message_info (message : Value) : ModelResponseInfo :=
  mk_ModelResponseInfo
    (id ← get_str message "id";
     match parse_response_id id with Ok id => Some id | Err _ => None end)
    (model ← get_str message "model";
     match parse_model_id model with Ok model => Some model | Err _ => None end) ∅.

(** [events[0] = Started(info)], when the payload is the first of the stream. *)
Definition inform_start (info : ModelResponseInfo) : Mapping unit :=
  st_modify (λ s, (s.1, match s.2 with
                        | ModelStarted _ :: events => ModelStarted info :: events
                        | events => events
                        end)).

Definition map_message_start (value : Value) : Mapping unit :=
  let! message_started := reading ar_message_started in
  do! st_ensure (negb message_started) (malformed "message_start arrived twice") in
  let! message := st_lift (missing "message_start missing message" (json_get value "message")) in
  do! match json_get message "usage" with
      | Some usage => capture_usage usage false
      | None => st_ret tt
      end in
  do! inform_start (message_info message) in
  update set_ar_message_started.

Section reducer.
Context `{Codec, JsonText}.

Definition web_search_continuation (payload : list (string * Value))
    : Result ExternalContentError ProviderContinuation :=
  continuation_new PROVIDER_ID ANTHROPIC_WEB_SEARCH_FORMAT (JObject payload).

(** A citation belongs to the search that found its source, if one did. *)
Definition citation_owner (owners : gmap string string) (url : string)
    : Result AnthropicError (option ProviderToolCallId) :=
  match owners !! url with
  | Some id =>
      let? id := invalid "web search citation owner is invalid" (parse_provider_call_id id) in
      Ok (Some id)
  | None => Ok None
  end.

Definition push_search_citation (raw : Value) : Mapping unit :=
  if bool_decide (get_str raw "type" = Some "web_search_result_location"%string) then
    let! source := st_lift (web_search_source raw) in
    let! cited_text := st_lift (missing "web search citation text missing"
                                  (get_str raw "cited_text")) in
    let! continuation := st_lift (invalid "web search citation continuation exceeded bounds"
                                    (web_search_continuation [("citation"%string, raw)])) in
    let! citation := st_lift (invalid "web search citation is invalid"
                                (with_cited_text (citation_new source) cited_text)) in
    let citation := with_continuation citation continuation in
    let! owners := reading ar_source_owners in
    let! owner := st_lift (citation_owner owners (es_url (sc_source citation))) in
    let! citation := st_lift (invalid "web search citation is invalid"
                                (source_citation_new owner citation)) in
    push (ModelSourceCited citation)
  else st_ret tt.

Definition hosted_id_used (tools : gmap N HostedToolAccumulator) (id : string) : bool :=
  existsb (λ entry, String.eqb (hta_provider_call_id entry.2) id) (map_to_list tools).

Definition start_server_tool (index : ModelStreamIndex) (block : Value) : Mapping unit :=
  let! id := st_lift (missing "server tool use id missing" (get_str block "id")) in
  let! name := st_lift (missing "server tool use name missing" (get_str block "name")) in
  do! st_ensure (String.eqb name "web_search")
        (malformed "unsupported Anthropic server tool use") in
  let! input := st_lift (missing "server tool use input missing" (json_get block "input")) in
  do! st_ensure (is_object input) (malformed "server tool use input must be an object") in
  let! calls := reading ar_tool_calls in
  let! tools := reading ar_hosted_tools in
  do! st_ensure (negb (bool_decide (is_Some (calls !! msi_get index))
                       || bool_decide (is_Some (tools !! msi_get index))
                       || hosted_id_used tools id))
        (malformed "server tool use reused an identity") in
  let! provider_id := st_lift (invalid "server tool use id is invalid"
                                 (parse_provider_call_id id)) in
  let arguments :=
    if bool_decide (input = JObject []) then ""%string else json_text input in
  do! update (set_ar_hosted_tool (msi_get index)
                (mk_HostedToolAccumulator (msi_get index) id name arguments block false)) in
  let! started := st_lift (invalid "server tool use is invalid"
                             (hosted_tool_started_new index provider_id name)) in
  push (ModelHostedToolStarted started).

(** The server tool use a result belongs to, by its identity. *)
Definition hosted_tool_of (tools : gmap N HostedToolAccumulator) (id : string)
    : option (N * HostedToolAccumulator) :=
  List.find (λ entry, String.eqb (hta_provider_call_id entry.2) id) (btree_entries N.leb tools).

Definition complete_server_tool (block : Value) : Mapping unit :=
  let! id := st_lift (missing "web search result tool id missing" (get_str block "tool_use_id")) in
  let! tools := reading ar_hosted_tools in
  let! entry := st_lift (missing "web search result has no matching server tool use"
                           (hosted_tool_of tools id)) in
  let index := entry.1 in
  let tool := entry.2 in
  do! st_ensure (negb (hta_completed tool))
        (malformed "web search result completed a server tool twice") in
  let! arguments := st_lift (hosted_arguments tool) in
  let! result := st_lift (parse_web_search_result block) in
  let server_block := with_input (hta_raw_block tool) arguments in
  let! continuation := st_lift (invalid "web search continuation exceeded bounds"
    (web_search_continuation [("content_blocks"%string, JArray [server_block; block])])) in
  let! provider_id := st_lift (invalid "server tool use id is invalid"
                                 (parse_provider_call_id (hta_provider_call_id tool))) in
  let! stream_index := st_lift (invalid "server tool stream index is invalid"
                                  (stream_index_new (hta_index tool))) in
  let! completed := st_lift (invalid "web search completion is invalid"
    (hosted_tool_completed_new stream_index provider_id (hta_name tool) arguments
       result.1 result.2 (Some continuation))) in
  do! update (λ r, set_ar_source_owners
        (foldl (λ owners source, <[es_url source := id]> owners) (ar_source_owners r) result.2) r) in
  do! update (set_ar_hosted_tool index
        (mk_HostedToolAccumulator (hta_index tool) (hta_provider_call_id tool) (hta_name tool)
           (hta_arguments tool) (hta_raw_block tool) true)) in
  push (ModelHostedToolCompleted completed).

(** *** Content blocks *)

Definition start_text_block (block : Value) : Mapping unit :=
  do! match get_str block "text" with
      | Some text => push_block_text text
      | None => st_ret tt
      end in
  match get_array block "citations" with
  | Some citations => st_for citations push_search_citation
  | None => st_ret tt
  end.

(** The input a call starts with is its first delta, unless it is empty. *)
Definition initial_arguments (index : ModelStreamIndex) (provider_id : ProviderToolCallId)
    (block : Value) : Mapping string :=
  match json_get block "input" with
  | None => st_ret ""%string
  | Some input =>
      do! st_ensure (is_object input) (malformed "tool use input must be an object") in
      if bool_decide (input = JObject []) then st_ret ""%string
      else
        let arguments := json_text input in
        let! delta := st_lift (invalid "tool input delta is invalid"
                                 (tool_arguments_delta_new index provider_id arguments)) in
        do! push (ModelToolArgumentsDelta delta) in
        st_ret arguments
  end.

Definition start_tool_use (index : ModelStreamIndex) (block : Value) : Mapping unit :=
  let! id := st_lift (missing "tool use id missing" (get_str block "id")) in
  let! name := st_lift (missing "tool use name missing" (get_str block "name")) in
  let! provider_id := st_lift (invalid "tool use id is invalid" (parse_provider_call_id id)) in
  let! started := st_lift (invalid "tool use is invalid"
                             (tool_call_started_new index provider_id name)) in
  do! push (ModelToolCallStarted started) in
  let! arguments := initial_arguments index provider_id block in
  update (set_ar_tool_call (msi_get index)
            (mk_ToolUseAccumulator (msi_get index) id name arguments)).

(** What the contents of a new block start or complete. *)
Definition start_content (index : ModelStreamIndex) (kind : string) (block : Value)
    : Mapping unit :=
  if String.eqb kind "text" then start_text_block block
  else if String.eqb kind "tool_use" then start_tool_use index block
  else if String.eqb kind "server_tool_use" then start_server_tool index block
  else if String.eqb kind "web_search_tool_result" then complete_server_tool block
  else st_ret tt.

Definition map_content_start (value : Value) : Mapping unit :=
  let! index := st_lift (block_index value) in
  let! block := st_lift (missing "content block missing" (json_get value "content_block")) in
  let! kind := st_lift (missing "content block type missing" (get_str block "type")) in
  let! blocks := reading ar_content_blocks in
  do! st_ensure (negb (bool_decide (is_Some (blocks !! msi_get index))))
        (malformed "content block index started twice") in
  do! start_content index kind block in
  update (set_ar_content_block (msi_get index) (mk_ContentBlockState kind false)).

Definition append_tool_use_arguments (index : ModelStreamIndex) (call : ToolUseAccumulator)
    (partial : string) : Mapping unit :=
  do! update (set_ar_tool_call (msi_get index)
        (mk_ToolUseAccumulator (tu_index call) (tu_provider_call_id call) (tu_name call)
           (tu_arguments call ++ partial))) in
  let! provider_id := st_lift (invalid "tool use id is invalid"
                                 (parse_provider_call_id (tu_provider_call_id call))) in
  let! delta := st_lift (invalid "tool input delta is invalid"
                           (tool_arguments_delta_new index provider_id partial)) in
  push (ModelToolArgumentsDelta delta).

Definition append_hosted_arguments (index : ModelStreamIndex) (tool : HostedToolAccumulator)
    (partial : string) : Mapping unit :=
  update (set_ar_hosted_tool (msi_get index)
    (mk_HostedToolAccumulator (hta_index tool) (hta_provider_call_id tool) (hta_name tool)
       (hta_arguments tool ++ partial) (hta_raw_block tool) (hta_completed tool))).

Definition input_json_delta (index : ModelStreamIndex) (partial : string) : Mapping unit :=
  if String.eqb partial "" then st_ret tt
  else
    let! calls := reading ar_tool_calls in
    let! tools := reading ar_hosted_tools in
    match calls !! msi_get index, tools !! msi_get index with
    | Some call, _ => append_tool_use_arguments index call partial
    | None, Some tool => append_hosted_arguments index tool partial
    | None, None => st_throw (malformed "tool input delta arrived before tool start")
    end.

Definition map_content_delta (value : Value) : Mapping unit :=
  let! index := st_lift (block_index value) in
  let! delta := st_lift (missing "content delta missing" (json_get value "delta")) in
  let! kind := st_lift (missing "content delta type missing" (get_str delta "type")) in
  let! blocks := reading ar_content_blocks in
  let! block := st_lift (missing "content delta arrived before block start"
                           (blocks !! msi_get index)) in
  do! st_ensure (negb (cbs_closed block))
        (malformed "content delta arrived after block stop") in
  do! st_ensure (delta_matches_block (cbs_kind block) kind)
        (malformed "content delta type does not match block type") in
  if String.eqb kind "text_delta" then
    let! text := st_lift (missing "text delta missing text" (get_str delta "text")) in
    push_block_text text
  else if String.eqb kind "input_json_delta" then
    let! partial := st_lift (missing "tool input delta missing partial json"
                               (get_str delta "partial_json")) in
    input_json_delta index partial
  else if String.eqb kind "citations_delta" then
    let! citation := st_lift (missing "citation delta missing citation"
                                (json_get delta "citation")) in
    push_search_citation citation
  else st_ret tt.

Definition map_content_stop (value : Value) : Mapping unit :=
  let! index := st_lift (block_index value) in
  let! blocks := reading ar_content_blocks in
  let! block := st_lift (missing "content block stop arrived before block start"
                           (blocks !! msi_get index)) in
  do! st_ensure (negb (cbs_closed block)) (malformed "content block stopped twice") in
  update (set_ar_content_block (msi_get index) (mk_ContentBlockState (cbs_kind block) true)).

(** *** The end of the message *)

Definition message_stop_reason (reason : string) : StopReason :=
  let same := String.eqb reason in
  if same "end_turn" || same "stop_sequence" then StopCompleted
  else if same "max_tokens" || same "model_context_window_exceeded" then StopLength
  else if same "tool_use" then StopToolUse
  else if same "pause_turn" then StopPauseTurn
  else if same "refusal" then StopRefusal
  else StopUnknown reason.

Definition map_message_delta (value : Value) : Mapping unit :=
  let! delta := st_lift (missing "message_delta missing delta object"
    (delta ← json_get value "delta"; if is_object delta then Some delta else None)) in
  do! match json_get value "usage" with
      | Some usage => capture_usage usage true
      | None => st_ret tt
      end in
  match json_get delta "stop_reason" with
  | None | Some JNull => st_ret tt
  | Some (JString reason) =>
      let! pending := reading ar_pending_stop_reason in
      do! st_ensure (bool_decide (pending = None))
            (malformed "message stop reason was reported twice") in
      update (set_ar_stop_reason (message_stop_reason reason))
  | Some _ => st_throw (malformed "message_delta stop_reason is invalid")
  end.

Definition complete_tool_use (tool : ToolUseAccumulator) : Result AnthropicError ModelEvent :=
  let? arguments :=
    if String.eqb (tu_arguments tool) "" then Ok (JObject [])
    else missing "tool input did not parse" (json_parse (tu_arguments tool)) in
  let? index := invalid "tool stream index is invalid" (stream_index_new (tu_index tool)) in
  let? provider_id := invalid "tool use id is invalid"
                        (parse_provider_call_id (tu_provider_call_id tool)) in
  let? completed := invalid "tool completion is invalid"
    (tool_call_completed_new index provider_id (tu_name tool) arguments) in
  Ok (ModelToolCallCompleted completed).

Definition complete_tool_uses (r : AnthropicReducer) : Result AnthropicError (list ModelEvent) :=
  result_map (λ entry, complete_tool_use entry.2) (btree_entries N.leb (ar_tool_calls r)).

(** The usage of the completion, when input and output counts were reported. *)
Definition message_usage (tokens : TokenCounts) : Result AnthropicError (option Usage) :=
  match tk_input tokens ≫= token_of, tk_output tokens ≫= token_of with
  | Some input, Some output =>
      let usage := usage_new input output in
      let usage := match tk_cache_read tokens ≫= token_of with
                   | Some cache_read => with_cache_read usage cache_read
                   | None => usage
                   end in
      let usage := match tk_cache_write tokens ≫= token_of with
                   | Some cache_write => with_cache_write usage cache_write
                   | None => usage
                   end in
      let? _total := invalid "Anthropic usage total is invalid" (total_tokens usage) in
      Ok (Some usage)
  | _, _ => Ok None
  end.

Definition complete_message (stop : StopReason) : Mapping unit :=
  let! completion := st_lift (invalid "completion reason is invalid" (completion_new stop)) in
  let! tokens := reading ar_tokens in
  let! usage := st_lift (message_usage tokens) in
  do! update set_ar_terminal_emitted in
  push (ModelCompleted (with_usage completion usage)).

Definition hosted_tool_pending (r : AnthropicReducer) : bool :=
  existsb (λ entry, negb (hta_completed entry.2)) (map_to_list (ar_hosted_tools r)).
Definition content_block_open (r : AnthropicReducer) : bool :=
  existsb (λ entry, negb (cbs_closed entry.2)) (map_to_list (ar_content_blocks r)).

Definition map_message_stop : Mapping unit :=
  let! terminal := reading ar_terminal_emitted in
  do! st_ensure (negb terminal) (malformed "message_stop arrived after completion") in
  let! pending := reading ar_pending_stop_reason in
  let! stop := st_lift (missing "message_stop arrived before a terminal stop reason" pending) in
  let! block_open := reading content_block_open in
  do! st_ensure (negb block_open) (malformed "message completed with an open content block") in
  let! tool_pending := reading hosted_tool_pending in
  do! st_ensure (negb tool_pending) (malformed "server tool use has no web search result") in
  let! completed := reading complete_tool_uses in
  let! events := st_lift completed in
  do! push_all events in
  complete_message stop.

(** *** Payloads *)

Definition map_event (event_type : string) (value : Value) : Mapping unit :=
  let same := String.eqb event_type in
  if same "error" then
    do! update set_ar_terminal_emitted in
    push (ModelFailed (anthropic_stream_error (json_get value "error")))
  else if same "message_start" then map_message_start value
  else if same "content_block_start" then map_content_start value
  else if same "content_block_delta" then map_content_delta value
  else if same "content_block_stop" then map_content_stop value
  else if same "message_delta" then map_message_delta value
  else if same "message_stop" then map_message_stop
  else st_ret tt.

Definition anthropic_chunk_events (value : Value) : Mapping unit :=
  let event_type := default ""%string (get_str value "type") in
  let! terminal := reading ar_terminal_emitted in
  if terminal then
    st_ensure (String.eqb event_type "ping")
      (malformed "event arrived after Anthropic stream terminal")
  else
    let! pending := reading ar_pending_stop_reason in
    do! st_ensure (bool_decide (pending = None) || String.eqb event_type "ping"
                   || String.eqb event_type "message_stop")
          (malformed "event arrived after Anthropic message stop reason") in
    let! started := reading ar_started in
    do! (if started then st_ret tt
         else do! push (ModelStarted response_info_new) in update set_ar_started) in
    map_event event_type value.

Definition anthropic_map_chunk (value : Value) : ST AnthropicReducer AnthropicError (list ModelEvent) :=
  mapped (anthropic_chunk_events value).

(** The stream may end only after [message_stop]. *)
Definition anthropic_finish : ST AnthropicReducer AnthropicError (list ModelEvent) :=
  let! terminal := st_gets ar_terminal_emitted in
  do! st_ensure terminal (malformed "Anthropic stream ended before message_stop") in
  st_ret [].
End reducer.
