(* ===== verification/AnthropicStream.v ===== *)
(** * Anthropic provider streams

    [crates/tea-provider-anthropic/src/provider.rs]: the stream of one request,
    over the outcome of its HTTP exchange.  The event parser ([sse.rs]) is that
    of [Sse]; unlike the OpenAI provider, a [DONE] event only checks that the
    message has ended, and the body is read to its end. *)

From S2P Require Import Prelude Protocol Utf8 Sse Tools Validation Usage ModelSpec Event.
From S2P Require Import KernelBase ModelStream ProviderHttp ProviderStream Anthropic.
Local Open Scope tea_scope.

Local Notation Generator := (Streaming AnthropicReducer).

Definition anthropic_transport_failure (transport : bool) : ModelFailure :=
  failure_or_internal
    (model_failure_new (if transport then FailTransport else FailInternal)
       "anthropic transport error" RetryImmediate).

Section provider.
Context `{Codec, JsonText}.

Definition map_sse_event (event : SseEvent) : ST AnthropicReducer AnthropicError (list ModelEvent) :=
  match event with
  | SseData payload =>
      let! value := st_lift (ok_or (json_parse payload)
                               (anthropic_error AnMalformedResponse "invalid sse json")) in
      anthropic_map_chunk value
  | SseDone => anthropic_finish
  end.

Definition handle_sse_event (event : SseEvent) : Generator unit :=
  let! result := on_reducer (map_sse_event event) in
  relay_result anthropic_adapter_failure result.

(** The end of the body. *)
Definition finish_message : Generator unit :=
  let! parser := st_gets ss_parser in
  let '(events, parser) := sse_finish parser in
  do! set_parser parser in
  do! st_for events handle_sse_event in
  let! result := on_reducer anthropic_finish in
  do! relay_result anthropic_adapter_failure result in
  complete_stream.

Fixpoint message_chunks (chunks : list BodyChunk) : Generator unit :=
  match chunks with
  | [] => finish_message
  | BodyCancelled :: _ => fail_stream cancelled_failure
  | BodyError transport :: _ => fail_stream (anthropic_transport_failure transport)
  | BodyBytes chunk :: chunks =>
      let! parser := st_gets ss_parser in
      let '(events, parser) := feed parser chunk in
      do! set_parser parser in
      do! st_for events handle_sse_event in
      message_chunks chunks
  end.

(** [stream]: over the body [validated_request_body] built for the request, and
    the exchange. *)
Definition anthropic_stream (body : Result ModelFailure Value) (exchange : Exchange)
    : list ModelEvent :=
  match body with
  | Err failure => failed_events failure
  | Ok _ =>
      match exchange with
      | ExchangeCancelled => failed_events cancelled_failure
      | ExchangeFailed transport => failed_events (anthropic_transport_failure transport)
      | ExchangeError status retry_after body =>
          failed_events (with_retry_after
            (anthropic_http_failure status (read_bounded_error_body body)) retry_after)
      | ExchangeOk chunks =>
          ss_yielded (message_chunks chunks (stream_state_new anthropic_reducer_new)).2
      end
  end.
End provider.
