(* ===== verification/AnthropicTheorems.v ===== *)
(** * Anthropic provider streams are grammatical

    What the reducer knows about the calls of the message it has mapped, that
    every payload keeps it, and the streams of the provider. *)

From S2P Require Import Prelude Protocol Utf8 Sse Tools Validation External Usage ModelSpec Event.
From S2P Require Import KernelBase ModelStream ProviderHttp ProviderStream ProviderStreamLogic.
From S2P Require Import Anthropic AnthropicStream.
Local Open Scope tea_scope.

Definition use_identity (call : ToolUseAccumulator) : ProviderToolCallId * string :=
  (mk_ProviderToolCallId (tu_provider_call_id call), tu_name call).
Definition hosted_identity (tool : HostedToolAccumulator) : ProviderToolCallId * string :=
  (mk_ProviderToolCallId (hta_provider_call_id tool), hta_name tool).

(** A message body whose open client calls are the accumulated ones and whose
    open server tools are those without a result; [used] are the indexes of its
    content blocks. *)
Record anthropic_open (used : gset N) (body : list ModelEvent) (r : AnthropicReducer) : Prop :=
    mk_anthropic_open {
  ao_body : body_ok body;
  ao_calls : ∀ i c, client_open body i c ↔
    ∃ call, ar_tool_calls r !! msi_get i = Some call ∧ use_identity call = c;
  ao_tools : ∀ i c, hosted_open body i c ↔
    ∃ tool, ar_hosted_tools r !! msi_get i = Some tool ∧ hta_completed tool = false ∧
            hosted_identity tool = c;
  ao_call_index : ∀ i call, ar_tool_calls r !! i = Some call → tu_index call = i;
  ao_tool_block : ∀ i tool, ar_hosted_tools r !! i = Some tool →
    hta_index tool = i ∧ is_object (hta_raw_block tool) = true;
  ao_owners : ∀ url id, ar_source_owners r !! url = Some id →
    mk_ProviderToolCallId id ∈ omap hosted_id body;
  ao_started : ∀ i, i ∈ started_indexes body → msi_get i ∈ used
}.

(** A message that can go on. *)
Definition anthropic_going (used : gset N) (out : list ModelEvent) (r : AnthropicReducer) : Prop :=
  ar_started r = true ∧ ar_terminal_emitted r = false ∧
  ∃ info body, out = ModelStarted info :: body ∧ anthropic_open used body r.

Notation keeps_message used := (preserves (E := AnthropicError) (anthropic_going used)).

(** ** Events and assignments *)

Lemma open_same used body r r' :
  anthropic_open used body r → ar_tool_calls r' = ar_tool_calls r →
  ar_hosted_tools r' = ar_hosted_tools r → ar_source_owners r' = ar_source_owners r →
  anthropic_open used body r'.
Proof. intros [Hb Hc Ht Hci Htb Ho Hs] Hcs Hts Hos. by split; rewrite ?Hcs, ?Hts, ?Hos. Qed.

Lemma message_same used out r r' :
  anthropic_going used out r → ar_started r' = ar_started r →
  ar_terminal_emitted r' = ar_terminal_emitted r → ar_tool_calls r' = ar_tool_calls r →
  ar_hosted_tools r' = ar_hosted_tools r → ar_source_owners r' = ar_source_owners r →
  anthropic_going used out r'.
Proof.
  intros (Hst & Hte & info & body & -> & Ho) Hst' Hte' Hcs Hts Hos.
  split_and!; [congruence..|]. exists info, body. split; [done|]. by eapply open_same.
Qed.

Lemma going_used used used' out r :
  anthropic_going used out r → used ⊆ used' → anthropic_going used' out r.
Proof.
  intros (Hst & Hte & info & body & -> & [Hb Hc Ht Hci Htb Ho Hs]) Hsub. split_and!; [done..|].
  exists info, body. split; [done|]. split; [done..|]. intros i Hi%Hs. by apply Hsub.
Qed.

Lemma open_neutral used body r e :
  anthropic_open used body r → is_neutral e = true → event_allowed body e →
  anthropic_open used (body ++ [e]) r.
Proof.
  intros [Hb Hc Ht Hci Htb Ho Hs] Hn Ha. split; [by apply body_ok_snoc| | |done|done| |].
  - intros i c. rewrite opened_other by by destruct e. apply Hc.
  - intros i c. rewrite opened_other by by destruct e. apply Ht.
  - intros url id Hl. by eapply hosted_ids_snoc, Ho.
  - intros i. rewrite elem_started_snoc. intros [?|[?|?]]; [by apply Hs|by destruct e..].
Qed.

Lemma message_push used out r e :
  anthropic_going used out r → is_neutral e = true →
  (∀ body, anthropic_open used body r → event_allowed body e) →
  anthropic_going used (out ++ [e]) r.
Proof.
  intros (Hst & Hte & info & body & -> & Ho) Hn Ha. split_and!; [done..|].
  exists info, (body ++ [e]). split; [done|]. apply open_neutral; [done..|by apply Ha].
Qed.

Lemma update_message used f :
  (∀ r, ar_started (f r) = ar_started r ∧ ar_terminal_emitted (f r) = ar_terminal_emitted r ∧
        ar_tool_calls (f r) = ar_tool_calls r ∧ ar_hosted_tools (f r) = ar_hosted_tools r ∧
        ar_source_owners (f r) = ar_source_owners r) →
  keeps_message used (update f).
Proof.
  intros Hf. apply maps_update. intros l r Hr. destruct (Hf r) as (? & ? & ? & ? & ?).
  by eapply message_same.
Qed.

Lemma push_message used e :
  is_neutral e = true → (∀ body, event_allowed body e) → keeps_message used (push e).
Proof. intros Hn Ha. apply maps_push. intros l r Hr. apply message_push; [done..|]. by intros. Qed.

Ltac frame_message := apply update_message; intros r; by split_and!.

Ltac parsed := unfold invalid, missing in *; st_inv; constructed.

(** ** Text, usage and citations *)

Lemma push_block_text_message used text : keeps_message used (push_block_text text).
Proof. unfold push_block_text. solve_preserves. by apply push_message. Qed.

Lemma capture_usage_message used usage nullable : keeps_message used (capture_usage usage nullable).
Proof. unfold capture_usage. solve_preserves. frame_message. Qed.
#[export] Hint Resolve push_block_text_message capture_usage_message : preserves.

(** Only the first event of the stream is a start. *)
Lemma inform_start_message used info : keeps_message used (inform_start info).
Proof.
  intros out s [] s' Hs Hm. unfold inform_start in Hm. st_inv. simpl.
  destruct Hs as (Hst & Hte & info' & body & Hout & Ho).
  destruct s.2 as [|[] events]; [by split_and!; [..|eexists info', body]| |
    by split_and!; [..|eexists info', body]..].
  destruct out as [|e out]; simpl in Hout.
  { injection Hout as -> ->. split_and!; [done..|]. by exists info, body. }
  injection Hout as -> <-. exfalso. by apply (ao_body _ _ _ Ho out (ModelStarted info0) events).
Qed.
#[export] Hint Resolve inform_start_message : preserves.

Lemma map_message_start_message used value : keeps_message used (map_message_start value).
Proof. unfold map_message_start. solve_preserves. frame_message. Qed.

Lemma map_message_delta_message used value : keeps_message used (map_message_delta value).
Proof. unfold map_message_delta. solve_preserves; frame_message. Qed.

Section codec.
Context `{Codec, JsonText}.

Lemma citation_owner_completed used body r url id :
  anthropic_open used body r → citation_owner (ar_source_owners r) url = Ok (Some id) →
  id ∈ omap hosted_id body.
Proof.
  intros Ho Hm. unfold citation_owner in Hm. destruct (ar_source_owners r !! url) eqn:Hl; [|done].
  apply result_bind_ok in Hm as (pid & Hpid & [= <-]). parsed. by eapply ao_owners.
Qed.

Lemma push_search_citation_message used raw : keeps_message used (push_search_citation raw).
Proof.
  unfold push_search_citation. case_match; [|apply preserves_ret].
  intros out s [] s' Hs Hm. unfold reading, push in Hm. st_inv. parsed. simpl.
  rewrite (assoc_L (++)). apply message_push; [done..|]. intros body Ho. simpl.
  match goal with Hc : citation_owner _ _ = Ok ?o |- match ?o with _ => _ end =>
    destruct o; [by eapply citation_owner_completed|done] end.
Qed.
#[local] Hint Resolve push_search_citation_message : preserves.

Lemma start_text_block_message used block : keeps_message used (start_text_block block).
Proof. unfold start_text_block. solve_preserves. Qed.
End codec.
#[export] Hint Resolve map_message_start_message map_message_delta_message push_search_citation_message
  start_text_block_message : preserves.

(** ** Client calls *)

(** A call starts at a new index. *)
Lemma open_call_started used body r i c call :
  anthropic_open used body r → msi_get i ∉ used → ts_index c = i → tu_index call = msi_get i →
  use_identity call = (ts_provider_call_id c, ts_tool_name c) →
  anthropic_open ({[msi_get i]} ∪ used) (body ++ [ModelToolCallStarted c])
    (set_ar_tool_call (msi_get i) call r).
Proof.
  intros [Hb Hc Ht Hci Htb Ho Hs] Hnew Hi Hcall Hid.
  assert (i ∉ started_indexes body) as Hni by by intros ?%Hs.
  split; simpl; [..|done| |].
  - apply body_ok_snoc. split; [done|]. simpl. by rewrite Hi.
  - intros j c'. rewrite (opened_start _ _ _ _ _ _ i (ts_provider_call_id c, ts_tool_name c))
      by (simpl; by rewrite ?Hi). rewrite <- Hid.
    destruct (decide (i = j)) as [<-|Hne].
    + rewrite lookup_insert_eq. split.
      * intros [[= <-]|?%client_open_started]; [by exists call|done].
      * intros (call' & [= <-] & <-). by left.
    + rewrite lookup_insert_ne by (destruct i, j; simpl in *; congruence).
      rewrite Hc. naive_solver.
  - intros j c'. rewrite opened_other by done. apply Ht.
  - intros j call'. rewrite lookup_insert_Some. intros [[<- <-]|[_ Hl]]; [done|by apply Hci].
  - intros url id Hl. by eapply hosted_ids_snoc, Ho.
  - intros j. rewrite elem_started_snoc. simpl. rewrite Hi.
    intros [Hj|[[= <-]|?]]; [apply Hs in Hj|..]; set_solver.
Qed.

(** A call goes on with the same identity. *)
Lemma open_call_same used body r i call call' :
  anthropic_open used body r → ar_tool_calls r !! i = Some call → tu_index call' = tu_index call →
  use_identity call' = use_identity call → anthropic_open used body (set_ar_tool_call i call' r).
Proof.
  intros [Hb Hc Ht Hci Htb Ho Hs] Hl Hi Hid. split; simpl; try done.
  - intros j c. rewrite Hc. destruct (decide (i = msi_get j)) as [->|Hne];
      [|by rewrite lookup_insert_ne].
    rewrite lookup_insert_eq, Hl. split; intros (x & [= <-] & Hx);
      eexists; (split; [reflexivity|congruence]).
  - intros j x. rewrite lookup_insert_Some. intros [[<- <-]|[_ Hx]]; [|by apply Hci].
    rewrite Hi. by apply Hci.
Qed.

Section codec2.
Context `{Codec, JsonText}.

Lemma start_tool_use_message used index block :
  msi_get index ∉ used →
  maps (anthropic_going used) (start_tool_use index block)
    (λ _, anthropic_going ({[msi_get index]} ∪ used)).
Proof.
  intros Hnew out s [] s' (Hst & Hte & info & body & Hout & Ho) Hm.
  unfold start_tool_use, push, update in Hm. st_inv. parsed. simpl in *.
  match goal with Ha : initial_arguments _ _ _ _ = (Ok ?a, ?st) |- _ =>
    rename a into arguments, st into s1, Ha into Hargs end.
  set (id := mk_ProviderToolCallId _) in *.
  set (c := mk_ToolCallStarted _ _ _) in *. set (call := mk_ToolUseAccumulator _ _ _ _).
  assert (∀ r, ar_tool_calls r = ar_tool_calls s.1 → ar_hosted_tools r = ar_hosted_tools s.1 →
    ar_source_owners r = ar_source_owners s.1 →
    anthropic_open ({[msi_get index]} ∪ used) (body ++ [ModelToolCallStarted c])
      (set_ar_tool_call (msi_get index) call r)) as Hopen.
  { intros r Hc Ht Hw. apply open_call_started; [by eapply open_same|done..]. }
  assert (s1.1 = s.1 ∧ (s1.2 = s.2 ++ [ModelToolCallStarted c] ∨
    ∃ delta, s1.2 = (s.2 ++ [ModelToolCallStarted c]) ++ [ModelToolArgumentsDelta delta] ∧
             ta_index delta = index ∧ ta_provider_call_id delta = id)) as [Hs1 Hevents].
  { unfold initial_arguments, push in Hargs. destruct (json_get block "input"); st_inv; [|by auto].
    destruct (bool_decide _); st_inv; [by auto|]. parsed. split; [done|]. right. by eexists. }
  rewrite Hs1. split_and!; [done..|]. exists info.
  destruct Hevents as [->|(delta & -> & Hdi & Hdp)]; rewrite !(assoc_L (++)), Hout; simpl.
  - eexists. split; [done|]. by apply Hopen.
  - eexists. split; [done|]. apply open_neutral; [by apply Hopen|done|]. simpl.
    exists (ts_tool_name c). apply opened_snoc. left. simpl. by rewrite Hdi, Hdp.
Qed.

Lemma append_tool_use_message used index call partial out s u s' :
  anthropic_going used (out ++ s.2) s.1 → ar_tool_calls s.1 !! msi_get index = Some call →
  append_tool_use_arguments index call partial s = (Ok u, s') →
  anthropic_going used (out ++ s'.2) s'.1.
Proof.
  intros (Hst & Hte & info & body & Hout & Ho) Hl Hm.
  unfold append_tool_use_arguments, update, push in Hm. st_inv. parsed. simpl in *.
  rewrite (assoc_L (++)), Hout. split_and!; [done..|]. exists info. eexists. split; [reflexivity|].
  apply open_neutral; [by eapply open_call_same|done|]. simpl. exists (tu_name call).
  apply (ao_calls _ _ _ Ho). by exists call.
Qed.
End codec2.

(** ** Server tools *)

(** A server tool starts at a new index. *)
Lemma open_tool_started used body r i c tool :
  anthropic_open used body r → msi_get i ∉ used → hs_index c = i → hta_index tool = msi_get i →
  is_object (hta_raw_block tool) = true → hta_completed tool = false →
  hosted_identity tool = (hs_provider_call_id c, hs_tool_name c) →
  anthropic_open ({[msi_get i]} ∪ used) (body ++ [ModelHostedToolStarted c])
    (set_ar_hosted_tool (msi_get i) tool r).
Proof.
  intros [Hb Hc Ht Hci Htb Ho Hs] Hnew Hi Htool Hblock Hopen Hid.
  assert (i ∉ started_indexes body) as Hni by by intros ?%Hs.
  split; simpl; [..|done| | |].
  - apply body_ok_snoc. split; [done|]. simpl. by rewrite Hi.
  - intros j c'. rewrite opened_other by done. apply Hc.
  - intros j c'. rewrite (opened_start _ _ _ _ _ _ i (hs_provider_call_id c, hs_tool_name c))
      by (simpl; by rewrite ?Hi). rewrite <- Hid.
    destruct (decide (i = j)) as [<-|Hne].
    + rewrite lookup_insert_eq. split.
      * intros [[= <-]|?%hosted_open_started]; [by exists tool|done].
      * intros (tool' & [= <-] & _ & <-). by left.
    + rewrite lookup_insert_ne by (destruct i, j; simpl in *; congruence).
      rewrite Ht. naive_solver.
  - intros j tool'. rewrite lookup_insert_Some. intros [[<- <-]|[_ Hl]]; [done|by apply Htb].
  - intros url id Hl. by eapply hosted_ids_snoc, Ho.
  - intros j. rewrite elem_started_snoc. simpl. rewrite Hi.
    intros [Hj|[?|[= <-]]]; [apply Hs in Hj|..]; set_solver.
Qed.

(** A server tool goes on with the same identity. *)
Lemma open_tool_same used body r i tool tool' :
  anthropic_open used body r → ar_hosted_tools r !! i = Some tool → hta_index tool' = hta_index tool →
  hta_raw_block tool' = hta_raw_block tool → hta_completed tool' = hta_completed tool →
  hosted_identity tool' = hosted_identity tool →
  anthropic_open used body (set_ar_hosted_tool i tool' r).
Proof.
  intros [Hb Hc Ht Hci Htb Ho Hs] Hl Hi Hblock Hco Hid. split; simpl; try done.
  - intros j c. rewrite Ht. destruct (decide (i = msi_get j)) as [->|Hne];
      [|by rewrite lookup_insert_ne].
    rewrite lookup_insert_eq, Hl. split; intros (x & [= <-] & Hx & Hcx);
      eexists; (split_and!; [reflexivity|congruence..]).
  - intros j x. rewrite lookup_insert_Some. intros [[<- <-]|[_ Hx]]; [|by apply Htb].
    rewrite Hi, Hblock. by apply Htb.
Qed.

(** Sources belong to the search that found them last. *)
Lemma owned_sources (sources : list ExternalSource) (owners : gmap string string) id url id' :
  foldl (λ owners source, <[es_url source := id]> owners) owners sources !! url = Some id' →
  id' = id ∨ owners !! url = Some id'.
Proof.
  revert owners. induction sources as [|source sources IH]; intros owners Hl; simpl in *; [by right|].
  apply IH in Hl as [?|[[_ ?]|[_ ?]]%lookup_insert_Some]; auto.
Qed.

(** A server tool has its result. *)
Lemma open_tool_completed used body r i tool tool' c owners :
  anthropic_open used body r → ar_hosted_tools r !! i = Some tool → hta_completed tool = false →
  hta_index tool' = hta_index tool → hta_raw_block tool' = hta_raw_block tool →
  hta_completed tool' = true → hc_index c = mk_ModelStreamIndex i →
  hosted_identity tool = (hc_provider_call_id c, hc_tool_name c) →
  (∀ url id, owners !! url = Some id →
     id = hta_provider_call_id tool ∨ ar_source_owners r !! url = Some id) →
  anthropic_open used (body ++ [ModelHostedToolCompleted c])
    (set_ar_hosted_tool i tool' (set_ar_source_owners owners r)).
Proof.
  intros [Hb Hc Ht Hci Htb Ho Hs] Hl Hopen Hi Hblock Hco Hic Hid Hown.
  split; simpl; [..|done| | |].
  - apply body_ok_snoc. split; [done|]. simpl. rewrite Hic, <- Hid. apply Ht. by exists tool.
  - intros j c'. rewrite opened_other by done. apply Hc.
  - intros j c'. rewrite (opened_end _ _ _ _ _ _ (hc_index c)) by done. rewrite Hic, Ht.
    destruct (decide (i = msi_get j)) as [->|Hne].
    + rewrite lookup_insert_eq. destruct j as [j].
      split; [by intros [? _]|intros (x & [= <-] & Hx & _); congruence].
    + rewrite lookup_insert_ne by done. split; [by intros [_ ?]|]. intros Hj.
      split; [|done]. by intros <-.
  - intros j x. rewrite lookup_insert_Some. intros [[<- <-]|[_ Hx]]; [|by apply Htb].
    rewrite Hi, Hblock. by apply Htb.
  - intros url id Hu. apply Hown in Hu as [-> |Hu].
    + rewrite omap_app, elem_of_app. right. simpl. injection Hid as <- _. by left.
    + by eapply hosted_ids_snoc, Ho.
  - intros j. rewrite elem_started_snoc. simpl. intros [Hj|[?|?]]; [by apply Hs|done..].
Qed.

(** The block of a server tool is an object, as inserting its input expects. *)
Lemma get_str_object value key text : get_str value key = Some text → is_object value = true.
Proof. unfold get_str, json_get. by destruct value. Qed.

Lemma hosted_tool_of_lookup tools id index tool :
  hosted_tool_of tools id = Some (index, tool) →
  tools !! index = Some tool ∧ hta_provider_call_id tool = id.
Proof.
  intros [Hin Heq]%find_some. apply list_elem_of_In in Hin.
  unfold btree_entries in Hin. rewrite elem_of_stable_sort, elem_of_map_to_list in Hin.
  split; [done|by apply String.eqb_eq].
Qed.

Section codec3.
Context `{Codec, JsonText}.

Lemma start_server_tool_message used index block :
  msi_get index ∉ used →
  maps (anthropic_going used) (start_server_tool index block)
    (λ _, anthropic_going ({[msi_get index]} ∪ used)).
Proof.
  intros Hnew out s [] s' (Hst & Hte & info & body & Hout & Ho) Hm.
  unfold start_server_tool, reading, push, update in Hm. st_inv. parsed. simpl.
  rewrite (assoc_L (++)), Hout. split_and!; [done..|]. exists info. eexists. split; [reflexivity|].
  apply open_tool_started; try done. simpl. by eapply get_str_object.
Qed.

Lemma complete_server_tool_message used block : keeps_message used (complete_server_tool block).
Proof.
  intros out s [] s' (Hst & Hte & info & body & Hout & Ho) Hm.
  unfold complete_server_tool, reading, push, update in Hm. st_inv. parsed. simpl in *.
  match goal with Hf : hosted_tool_of _ _ = Some ?e |- _ =>
    destruct e as [index tool]; apply hosted_tool_of_lookup in Hf as [Hl <-] end.
  destruct (ao_tool_block _ _ _ Ho _ _ Hl) as [Hi _]. simpl in *. bool_prop.
  rewrite (assoc_L (++)), Hout. split_and!; [done..|]. exists info. eexists. split; [reflexivity|].
  eapply open_tool_completed; [done|done|done|done|done|done|simpl; by rewrite Hi|done|].
  intros url id. apply owned_sources.
Qed.

Lemma input_json_delta_message used index partial : keeps_message used (input_json_delta index partial).
Proof.
  intros out s [] s' Hs Hm. unfold input_json_delta, reading in Hm.
  destruct (String.eqb partial ""); [by st_inv|]. st_inv.
  destruct (ar_tool_calls s.1 !! msi_get index) eqn:Hc; [by eapply append_tool_use_message|].
  destruct (ar_hosted_tools s.1 !! msi_get index) eqn:Ht; [|by st_inv].
  unfold append_hosted_arguments, update in Hm. st_inv.
  destruct Hs as (Hst & Hte & info & body & Hout & Ho). split_and!; [done..|].
  exists info, body. split; [done|]. by eapply open_tool_same.
Qed.
End codec3.
#[export] Hint Resolve complete_server_tool_message input_json_delta_message : preserves.

(** ** Payloads *)

(** A message between two payloads. *)
Definition message_going (out : list ModelEvent) (r : AnthropicReducer) : Prop :=
  anthropic_going (dom (ar_content_blocks r)) out r.

Definition message_ended (out : list ModelEvent) (r : AnthropicReducer) : Prop :=
  ar_terminal_emitted r = true ∧ grammatical out.

Definition anthropic_inv (out : list ModelEvent) (r : AnthropicReducer) : Prop :=
  out = [] ∧ r = anthropic_reducer_new ∨ message_going out r ∨ message_ended out r.

(** Methods that leave the content blocks as they are. *)
Lemma keeps_blocks {A} (m : MappingOf AnthropicError AnthropicReducer A) :
  (∀ used, keeps_message used m) → keeps (λ s, ar_content_blocks s.1) m → preserves message_going m.
Proof.
  intros Hm Hk out s a s' Hs Ha. pose proof (Hk s) as Hblocks. rewrite Ha in Hblocks. simpl in Hblocks.
  unfold message_going. rewrite Hblocks. by eapply Hm.
Qed.

Lemma close_block_message index block :
  preserves (E := AnthropicError) message_going (update (set_ar_content_block index block)).
Proof.
  apply maps_update. intros l r Hg. eapply going_used; [by eapply message_same|].
  simpl. rewrite dom_insert_L. set_solver.
Qed.

Notation blocks_of := (λ s : AnthropicReducer * list ModelEvent, ar_content_blocks s.1).
Ltac keeps_content_blocks := unfold reading, push, update; solve_keeps.

Lemma push_block_text_blocks text : keeps blocks_of (push_block_text text).
Proof. unfold push_block_text. keeps_content_blocks. Qed.
Lemma capture_usage_blocks usage nullable : keeps blocks_of (capture_usage usage nullable).
Proof. unfold capture_usage. keeps_content_blocks. Qed.
#[export] Hint Resolve push_block_text_blocks capture_usage_blocks : keeps.

Lemma map_message_start_blocks value : keeps blocks_of (map_message_start value).
Proof. unfold map_message_start, inform_start. keeps_content_blocks. Qed.
Lemma map_message_delta_blocks value : keeps blocks_of (map_message_delta value).
Proof. unfold map_message_delta. keeps_content_blocks. Qed.

Section codec4.
Context `{Codec, JsonText}.

Lemma push_search_citation_blocks raw : keeps blocks_of (push_search_citation raw).
Proof. unfold push_search_citation. keeps_content_blocks. Qed.
#[local] Hint Resolve push_search_citation_blocks : keeps.
Lemma input_json_delta_blocks index partial : keeps blocks_of (input_json_delta index partial).
Proof.
  unfold input_json_delta, append_tool_use_arguments, append_hosted_arguments.
  keeps_content_blocks.
Qed.
Lemma start_text_block_blocks block : keeps blocks_of (start_text_block block).
Proof. unfold start_text_block. keeps_content_blocks. Qed.
Lemma start_tool_use_blocks index block : keeps blocks_of (start_tool_use index block).
Proof. unfold start_tool_use, initial_arguments. keeps_content_blocks. Qed.
Lemma start_server_tool_blocks index block : keeps blocks_of (start_server_tool index block).
Proof. unfold start_server_tool. keeps_content_blocks. Qed.
Lemma complete_server_tool_blocks block : keeps blocks_of (complete_server_tool block).
Proof. unfold complete_server_tool. keeps_content_blocks. Qed.
#[local] Hint Resolve input_json_delta_blocks start_text_block_blocks start_tool_use_blocks
  start_server_tool_blocks complete_server_tool_blocks : keeps.

Lemma start_content_message used index kind block :
  msi_get index ∉ used →
  maps (anthropic_going used) (start_content index kind block)
    (λ _, anthropic_going ({[msi_get index]} ∪ used)).
Proof.
  intros Hnew.
  assert (∀ m, keeps_message used m →
    maps (anthropic_going used) m (λ _ : (), anthropic_going ({[msi_get index]} ∪ used))) as Hkeep.
  { intros m Hm out s [] s' Hs Ha. eapply going_used; [by eapply Hm|set_solver]. }
  unfold start_content.
  repeat match goal with |- maps _ (if ?b then _ else _) _ => destruct b end;
    [apply Hkeep, start_text_block_message|by apply start_tool_use_message
    |by apply start_server_tool_message|apply Hkeep, complete_server_tool_message
    |apply Hkeep, preserves_ret].
Qed.

Lemma start_content_blocks index kind block : keeps blocks_of (start_content index kind block).
Proof. unfold start_content. keeps_content_blocks. Qed.

Lemma map_content_start_going value : preserves message_going (map_content_start value).
Proof.
  intros out s [] s' Hs Hm. unfold map_content_start, reading, update in Hm. st_inv. parsed.
  match goal with Ha : start_content ?i ?k ?b ?s0 = _ |- _ =>
    pose proof (start_content_blocks i k b s0) as Hblocks; rewrite Ha in Hblocks;
    eapply start_content_message in Ha; [rename Ha into Hg| |exact Hs] end.
  2: { bool_prop. by apply not_elem_of_dom, eq_None_not_Some. }
  unfold message_going. simpl in *. rewrite Hblocks, dom_insert_L. by eapply message_same.
Qed.

Lemma map_content_delta_going value : preserves message_going (map_content_delta value).
Proof.
  apply keeps_blocks; [|unfold map_content_delta; keeps_content_blocks].
  intros used. unfold map_content_delta. solve_preserves.
Qed.

Lemma map_content_stop_going value : preserves message_going (map_content_stop value).
Proof. unfold map_content_stop. solve_preserves. apply close_block_message. Qed.
End codec4.

Section codec5.
Context `{Codec, JsonText}.

Lemma complete_tool_use_event call event :
  complete_tool_use call = Ok event →
  ∃ c, event = ModelToolCallCompleted c ∧ tc_index c = mk_ModelStreamIndex (tu_index call) ∧
       Some (use_identity call) = Some (tc_provider_call_id c, tc_called_name c).
Proof.
  intros Hm. unfold complete_tool_use in Hm.
  repeat match type of Hm with
  | result_bind _ _ = _ => apply result_bind_ok in Hm as (? & ? & Hm)
  end.
  parsed. by eexists.
Qed.

Lemma hosted_tool_pending_false r :
  hosted_tool_pending r = false →
  ∀ i tool, ar_hosted_tools r !! i = Some tool → hta_completed tool = true.
Proof.
  intros He i tool Hl. destruct (hta_completed tool) eqn:Hf; [done|].
  assert (hosted_tool_pending r = true); [|congruence].
  apply existsb_exists. exists (i, tool). split; [|by simpl; rewrite Hf].
  by apply list_elem_of_In, elem_of_map_to_list.
Qed.

Lemma map_message_stop_ends : maps message_going map_message_stop (λ _, message_ended).
Proof.
  intros out s [] s' (Hst & Hte & info & body & Hout & [Hb Hc Ht Hci _ _ _]) Hm.
  unfold map_message_stop, complete_message, reading, push_all, push, update in Hm. st_inv. simpl.
  match goal with Hp : negb (hosted_tool_pending _) = true |- _ =>
    apply negb_true_iff in Hp; pose proof (hosted_tool_pending_false _ Hp) as Hdone end.
  match goal with Hcalls : complete_tool_uses _ = Ok ?l |- _ =>
    rename l into events; unfold complete_tool_uses in Hcalls; rename Hcalls into Hcompleted end.
  assert (∀ i call, (i, call) ∈ btree_entries N.leb (ar_tool_calls s.1) ↔
                    ar_tool_calls s.1 !! i = Some call) as Hin.
  { intros i call. unfold btree_entries. rewrite elem_of_stable_sort. apply elem_of_map_to_list. }
  split; [done|].
  edestruct (complete_calls_body (λ call, Some (use_identity call)) complete_tool_use)
    as (Hbody & Hclosed & Hsame); [exact Hb| | | |exact Hcompleted|].
  - unfold btree_entries. rewrite stable_sort_perm. apply NoDup_fst_map_to_list.
  - intros i call Hl%Hin event He. rewrite <- (Hci _ _ Hl). by apply complete_tool_use_event.
  - intros i c. rewrite Hc. setoid_rewrite Hin.
    split; intros (call & Hl & Hid); exists call; (split; [done|congruence]).
  - rewrite !(assoc_L (++)), Hout. eexists info, (body ++ events), _. split_and!; [done..|].
    intros i c. split; [apply Hclosed|]. rewrite Hsame, Ht. intros (tool & Hl & Hopen & _).
    apply Hdone in Hl. congruence.
Qed.

Lemma fail_message_ends failure :
  maps (E := AnthropicError) message_going
    (do! update set_ar_terminal_emitted in push (ModelFailed failure)) (λ _, message_ended).
Proof.
  intros out s [] s' (_ & _ & info & body & Hout & Ho) Hm. unfold update, push in Hm. st_inv.
  simpl. rewrite (assoc_L (++)), Hout. split; [done|]. apply failed_grammatical; [|done].
  right. exists info, body. split; [done|by eapply ao_body].
Qed.

Lemma map_event_inv event_type value :
  maps message_going (map_event event_type value)
    (λ _ out r, message_going out r ∨ message_ended out r).
Proof.
  assert (∀ m : MappingOf AnthropicError AnthropicReducer unit, preserves message_going m →
    maps message_going m (λ _ out r, message_going out r ∨ message_ended out r)) as Hgo.
  { intros m Hm out s [] s' Hs Hr. left. by eapply Hm. }
  assert (∀ m : MappingOf AnthropicError AnthropicReducer unit,
    maps message_going m (λ _, message_ended) →
    maps message_going m (λ _ out r, message_going out r ∨ message_ended out r)) as Hend.
  { intros m Hm out s [] s' Hs Hr. right. by eapply Hm. }
  unfold map_event. cbv zeta.
  repeat match goal with |- maps _ (if ?b then _ else _) _ => destruct b end;
    [apply Hend, fail_message_ends|..|apply Hgo, preserves_ret].
  - apply Hgo, keeps_blocks; [intros used; apply map_message_start_message|apply map_message_start_blocks].
  - apply Hgo, map_content_start_going.
  - apply Hgo, map_content_delta_going.
  - apply Hgo, map_content_stop_going.
  - apply Hgo, keeps_blocks; [intros used; apply map_message_delta_message|apply map_message_delta_blocks].
  - apply Hend, map_message_stop_ends.
Qed.

(** The first payload starts the stream. *)
Lemma begin_message :
  maps (λ out r, out = [] ∧ r = anthropic_reducer_new ∨ message_going out r)
    (let! started := reading ar_started in
     if started then st_ret (E := AnthropicError) tt
     else do! push (ModelStarted response_info_new) in update set_ar_started)
    (λ _, message_going).
Proof.
  intros out s [] s' Hs Hm. unfold reading, push, update in Hm. st_inv.
  destruct Hs as [[Hout Hr]|Hg].
  - rewrite Hr in Hm. simpl in Hm. st_inv. simpl. rewrite (assoc_L (++)), Hout, Hr.
    split_and!; [done..|]. eexists _, []. split; [done|]. split; simpl.
    + apply body_ok_nil.
    + intros i c. rewrite lookup_empty. split; [by intros ?%opened_nil|by intros (? & ? & _)].
    + intros i c. rewrite lookup_empty. split; [by intros ?%opened_nil|by intros (? & ? & _)].
    + intros i call. by rewrite lookup_empty.
    + intros i tool. by rewrite lookup_empty.
    + intros url id. by rewrite lookup_empty.
    + intros i Hi. by apply elem_of_nil in Hi.
  - destruct (id Hg) as [Hst _]. rewrite Hst in Hm. by st_inv.
Qed.

Lemma anthropic_chunk_inv out r value events r' :
  anthropic_inv out r → anthropic_map_chunk value r = (Ok events, r') →
  anthropic_inv (out ++ events) r'.
Proof.
  intros Hinv Hm. unfold anthropic_map_chunk, mapped in Hm.
  destruct (anthropic_chunk_events value (r, [])) as [[u|e] [r1 events1]] eqn:He; [|done].
  injection Hm as -> ->. unfold anthropic_chunk_events, reading in He.
  apply st_bind_ok in He as (terminal & s1 & Hte & He). st_inv. simpl in *.
  destruct (ar_terminal_emitted r) eqn:Ht.
  { st_inv. simplify_eq. by rewrite app_nil_r. }
  st_inv. simpl in *.
  assert (out = [] ∧ r = anthropic_reducer_new ∨ message_going out r) as Hs.
  { destruct Hinv as [?|[?|[? _]]]; [by left|by right|congruence]. }
  match goal with Hb : (if _ then _ else _) _ = (Ok _, ?s) |- _ => rename s into s2, Hb into Hb2 end.
  right. eapply (map_event_inv _ _ out s2 _ (r', events)); [|done].
  eapply (begin_message out (r, [])); [by simpl; rewrite app_nil_r|].
  unfold reading, st_bind, st_gets. exact Hb2.
Qed.

Lemma anthropic_inv_stream out r : anthropic_inv out r → unfinished out ∨ grammatical out.
Proof.
  intros [[-> _]|[(_ & _ & info & body & -> & Ho)|[_ Hg]]]; [by left; left| |by right].
  left. right. exists info, body. split; [done|by eapply ao_body].
Qed.
End codec5.

(** ** The provider *)

Section provider.
Context `{Codec, JsonText}.

Notation in_message := (relaying anthropic_inv).

Lemma map_sse_event_inv event out r events r' :
  anthropic_inv out r → map_sse_event event r = (Ok events, r') → anthropic_inv (out ++ events) r'.
Proof.
  intros Hinv Hm. destruct event; simpl in Hm; st_inv; [by eapply anthropic_chunk_inv|].
  unfold anthropic_finish in Hm. st_inv. by rewrite app_nil_r.
Qed.

Lemma handle_sse_event_streams event :
  streams in_message (handle_sse_event event) (λ _, in_message).
Proof. apply relay_reducer_streams; [apply map_sse_event_inv|apply anthropic_inv_stream]. Qed.

Lemma handle_sse_events_streams events :
  streams in_message (st_for events handle_sse_event) (λ _, in_message).
Proof.
  induction events as [|event events IH]; simpl; [by apply streams_ret|].
  apply (streams_bind _ _ (λ _, in_message)); [apply handle_sse_event_streams|by intros []].
Qed.

(** The end of the body is accepted only after [message_stop]. *)
Lemma anthropic_finish_ends out r events r' :
  anthropic_inv out r → anthropic_finish r = (Ok events, r') → grammatical (out ++ events).
Proof.
  intros Hinv Hm. unfold anthropic_finish in Hm. st_inv. rewrite app_nil_r.
  destruct Hinv as [[_ Hr]|[(_ & Ht & _)|[_ Hg]]]; [by rewrite Hr in *|congruence|done].
Qed.

Lemma finish_message_grammatical s :
  in_message s → grammatical (ss_yielded (finish_message s).2).
Proof.
  intros Hs. unfold finish_message, st_bind at 1, st_gets.
  destruct (sse_finish (ss_parser s)) as [events parser].
  apply (streams_end in_message _ (λ _, in_message)); [apply set_parser_relaying|done|].
  intros _ s1 Hs1.
  apply (streams_end in_message _ (λ _, in_message)); [apply handle_sse_events_streams|done|].
  intros _ s2 Hs2.
  assert (streams in_message (st_bind (on_reducer anthropic_finish)
            (relay_result anthropic_adapter_failure)) (λ _, in_end)) as Hfinish.
  { apply relay_reducer_streams; [intros; by eapply anthropic_finish_ends|by right]. }
  pose proof (streams_end _ _ _ (λ _, complete_stream) s2 Hfinish Hs2) as Hend.
  unfold st_bind in *. destruct (on_reducer anthropic_finish s2) as [[result|[]] s3]; apply Hend;
    intros _ s4; apply complete_stream_grammatical.
Qed.

Lemma message_chunks_grammatical chunks s :
  in_message s → grammatical (ss_yielded (message_chunks chunks s).2).
Proof.
  revert s. induction chunks as [|chunk chunks IH]; intros s Hs; simpl.
  { by apply finish_message_grammatical. }
  assert (∀ failure, grammatical (ss_yielded (fail_stream (A := unit) failure s).2)) as Hfail.
  { intros failure.
    pose proof (fail_relaying (A := unit) anthropic_inv failure (λ _ _, False) s Hs) as Hf.
    by destruct (fail_stream failure s) as [[[]|[]] s']. }
  destruct chunk as [chunk|transport|]; [|apply Hfail..].
  unfold st_bind at 1, st_gets. destruct (feed (ss_parser s) chunk) as [events parser].
  apply (streams_end in_message _ (λ _, in_message)); [apply set_parser_relaying|done|].
  intros _ s1 Hs1.
  apply (streams_end in_message _ (λ _, in_message)); [apply handle_sse_events_streams|done|].
  intros _ s2. apply IH.
Qed.

(** C21: whatever the HTTP exchange yields, the stream of an Anthropic request is
    one grammatical stream: started once, even when the message never starts;
    every client call and server tool started, continued and completed in turn;
    citations owned by completed searches only; ended once, and completed only
    after [message_stop] with every block closed and every tool complete. *)
Theorem anthropic_stream_grammatical body exchange :
  grammatical (anthropic_stream body exchange).
Proof.
  unfold anthropic_stream. destruct body; [|apply failed_events_grammatical].
  destruct exchange; try apply failed_events_grammatical.
  apply message_chunks_grammatical. exists []. split; [|by left].
  split; [done|by left|done].
Qed.
End provider.

(** ** A concrete message *)

Module AnthropicSample.

Definition event (kind : string) (more : list (string * Value)) : Value :=
  JObject (("type"%string, JString kind) :: more).
Definition at_block (kind : string) (index : N) (more : list (string * Value)) : Value :=
  event kind (("index"%string, JNumber (PosInt index)) :: more).

Definition tool_block : Value :=
  at_block "content_block_start" 0
    [("content_block", event "tool_use"
       [("id", JString "call"); ("name", JString "read"); ("input", JObject [])])]%string.
Definition tool_input : Value :=
  at_block "content_block_delta" 0
    [("delta", event "input_json_delta" [("partial_json", JString "{}")])]%string.

#[export] Instance codec : Codec := {|
  json_len := λ _, Some 64%N;
  base64_decodes := λ _, true;
  parse_url := λ url, Some (mk_ParsedUrl "https" false (Some "a"%string) "" None url);
  json_parse := λ text,
    if String.eqb text "start" then Some (event "message_start" [("message", JObject [])]%string)
    else if String.eqb text "tool" then Some tool_block
    else if String.eqb text "input" then Some tool_input
    else if String.eqb text "stop" then Some (at_block "content_block_stop" 0 [])
    else if String.eqb text "delta" then
      Some (event "message_delta" [("delta", JObject [("stop_reason", JString "tool_use")])]%string)
    else if String.eqb text "end" then Some (event "message_stop" [])
    else if String.eqb text "{}" then Some (JObject [])
    else None;
  block_json_len := λ _, 64%N
|}.
#[export] Instance text : JsonText := {| json_text := λ _, "{}"%string |}.

Definition payload (text : string) : list N := bytes "data: " ++ bytes text ++ [10; 10]%N.
Definition message : list BodyChunk :=
  [BodyBytes (payload "start" ++ payload "tool"); BodyBytes (payload "input" ++ payload "stop");
   BodyBytes (payload "delta" ++ payload "end")].

Example message_sample :
  match anthropic_stream (Ok JNull) (ExchangeOk message) with
  | [ModelStarted _; ModelToolCallStarted start; ModelToolArgumentsDelta delta;
     ModelToolCallCompleted done; ModelCompleted completion] =>
      ts_tool_name start = "read"%string ∧ ta_delta delta = "{}"%string ∧
      tc_called_arguments done = JObject [] ∧ mcp_stop_reason completion = StopToolUse
  | _ => False
  end.
Proof. by vm_compute. Qed.

(** A body that ends before [message_stop] fails, with the call left open. *)
Example truncated_sample :
  match anthropic_stream (Ok JNull) (ExchangeOk (take 2 message)) with
  | [ModelStarted _; ModelToolCallStarted _; ModelToolArgumentsDelta _; ModelFailed failure] =>
      mf_code failure = FailMalformedResponse
  | _ => False
  end.
Proof. by vm_compute. Qed.
End AnthropicSample.
