(* ===== verification/ModelProvider.v ===== *)
(** * Model providers and their router

    [crates/tea-model]: the provider port with its default request validation
    ([provider.rs]) and the registry that routes provider-qualified model
    references ([router.rs]).  A provider is host code: a record of its
    methods, which also receive the moment of the call. *)

From S2P Require Import Prelude Protocol Tools Validation Usage ModelSpec Event KernelBase.
From S2P Require Import ModelStream.
Local Open Scope tea_scope.

(** [dyn ModelProvider]. *)
Record ModelProvider : Type := mk_ModelProvider {
  mp_provider_id : ProviderId;
  mp_models : list ModelSpec;
  mp_validate_request : nat → ModelRequest → Result ModelFailure unit;
  mp_stream : nat → ModelRequest → list ModelEvent
}.

Definition provider_model (p : ModelProvider) (model_id : ModelId) : option ModelSpec :=
  List.find (λ m, bool_decide (model_id_of m = model_id)) (mp_models p).

Definition invalid_request (message : string) : ModelFailure :=
  match model_failure_new FailInvalidRequest message RetryClassNever with
  | Ok failure => failure
  | Err _ => internal_adapter_failure
  end.

(** The default [validate_request], over the advertised models. *)
Definition default_validate_request `{Codec, SchemaEngine, Display} (models : list ModelSpec)
    (request : ModelRequest) : Result ModelFailure unit :=
  let? model := ok_or (List.find (λ m, bool_decide (model_id_of m = mq_model_id request)) models)
    (invalid_request "model request selects a model not advertised by this provider") in
  map_err (λ e, invalid_request (to_string e)) (validate_for request model).

(** ** Routing ([router.rs]) *)

(** [dyn ModelRouter]. *)
Record ModelRouter : Type := mk_ModelRouter {
  mr_provider : ProviderId → option ModelProvider;
  mr_models : list ModelSpec
}.

(** The default [ModelRouter::model]. *)
Definition router_model (r : ModelRouter) (model_ref : ModelRef) : option ModelSpec :=
  p ← mr_provider r (mr_provider_id model_ref);
  m ← provider_model p (mr_model_id model_ref);
  if decide (ms_model_ref m = model_ref) then Some m else None.

(** A single provider is a router. *)
Definition provider_router (p : ModelProvider) : ModelRouter :=
  mk_ModelRouter (λ id, if decide (mp_provider_id p = id) then Some p else None) (mp_models p).

Record ModelRegistry : Type := mk_ModelRegistry {
  mg_providers : gmap ProviderId ModelProvider;
  mg_models : list ModelSpec
}.

Inductive ModelRegistryError : Set :=
| DuplicateProvider (id : ProviderId)
| ProviderCatalogMismatch (id : ProviderId)
| UnknownProvider (id : ProviderId).

Definition provider_id_leb (a b : ProviderId) : bool := str_leb (selector_str a) (selector_str b).

(** The derived order of [ModelRef]. *)
Definition model_ref_leb (a b : ModelSpec) : bool :=
  lex_leb (String.compare (selector_str (provider_id_of a)) (selector_str (provider_id_of b)))
    (str_leb (selector_str (model_id_of a)) (selector_str (model_id_of b))).

Definition from_providers (providers : gmap ProviderId ModelProvider) : ModelRegistry :=
  mk_ModelRegistry providers
    (stable_sort model_ref_leb
       (btree_entries provider_id_leb providers ≫= λ entry, mp_models entry.2)).

Definition model_registry_empty : ModelRegistry := mk_ModelRegistry ∅ [].

Definition register_provider (by_id : gmap ProviderId ModelProvider) (p : ModelProvider)
    : Result ModelRegistryError (gmap ProviderId ModelProvider) :=
  let id := mp_provider_id p in
  try? ensure (forallb (λ m, bool_decide (provider_id_of m = id)) (mp_models p))
         (ProviderCatalogMismatch id) in
  try? ensure (bool_decide (by_id !! id = None)) (DuplicateProvider id) in
  Ok (<[id := p]> by_id).

Definition with_registered (g : ModelRegistry) (providers : list ModelProvider)
    : Result ModelRegistryError ModelRegistry :=
  let? by_id := result_fold register_provider (mg_providers g) providers in
  Ok (from_providers by_id).

Definition model_registry_new (providers : list ModelProvider)
    : Result ModelRegistryError ModelRegistry := with_registered model_registry_empty providers.

Definition remove_provider (by_id : gmap ProviderId ModelProvider) (id : ProviderId)
    : Result ModelRegistryError (gmap ProviderId ModelProvider) :=
  try? ensure (bool_decide (by_id !! id ≠ None)) (UnknownProvider id) in
  Ok (delete id by_id).

Definition without_providers (g : ModelRegistry) (ids : list ProviderId)
    : Result ModelRegistryError ModelRegistry :=
  let? by_id := result_fold remove_provider (mg_providers g) ids in
  Ok (from_providers by_id).

Definition registry_router (g : ModelRegistry) : ModelRouter :=
  mk_ModelRouter (λ id, mg_providers g !! id) (mg_models g).

(** ** Registered providers *)

(** The registries a host can build. *)
Inductive built_model_registry : ModelRegistry → Prop :=
| built_empty : built_model_registry model_registry_empty
| built_registered g providers g' :
    built_model_registry g → with_registered g providers = Ok g' → built_model_registry g'
| built_without g ids g' :
    built_model_registry g → without_providers g ids = Ok g' → built_model_registry g'.

(** Every provider sits under its own identity and advertises only models it
    owns; the catalog lists exactly the advertised models, in order. *)
Definition providers_ok (by_id : gmap ProviderId ModelProvider) : Prop :=
  ∀ id p, by_id !! id = Some p →
    mp_provider_id p = id ∧ ∀ m, m ∈ mp_models p → provider_id_of m = id.

Definition model_registry_wf (g : ModelRegistry) : Prop :=
  providers_ok (mg_providers g) ∧
  (∀ m, m ∈ mg_models g ↔ ∃ id p, mg_providers g !! id = Some p ∧ m ∈ mp_models p) ∧
  Sorted model_ref_leb (mg_models g).

Lemma str_compare_total a b : String.compare a b = Gt → String.compare b a = Lt.
Proof. intros Hc. rewrite String.compare_antisym, Hc. done. Qed.

Lemma str_compare_refl s : String.compare s s = Eq.
Proof.
  pose proof (String.compare_antisym s s) as Hs. by destruct (String.compare s s).
Qed.

Lemma model_ref_leb_total a b : model_ref_leb a b = false → model_ref_leb b a = true.
Proof.
  unfold model_ref_leb, lex_leb, str_leb, String.leb.
  destruct (String.compare (selector_str (provider_id_of a)) _) eqn:Hp; try done.
  - apply String.compare_eq_iff in Hp. rewrite Hp, str_compare_refl.
    destruct (String.compare (selector_str (model_id_of a)) _) eqn:Hm; try done.
    by rewrite (str_compare_total _ _ Hm).
  - by rewrite (str_compare_total _ _ Hp).
Qed.

Lemma from_providers_wf by_id : providers_ok by_id → model_registry_wf (from_providers by_id).
Proof.
  intros Hok. split_and!; simpl; [done| |apply stable_sort_sorted, model_ref_leb_total].
  intros m. rewrite elem_of_stable_sort, list_elem_of_bind. split.
  - intros ([id p] & Hm & Hin). unfold btree_entries in Hin.
    rewrite elem_of_stable_sort, elem_of_map_to_list in Hin. by exists id, p.
  - intros (id & p & Hp & Hm). exists (id, p). split; [done|]. unfold btree_entries.
    by rewrite elem_of_stable_sort, elem_of_map_to_list.
Qed.

Lemma result_fold_keeps {E S A} (P : S → Prop) (f : S → A → Result E S) l s s' :
  (∀ s a s', P s → f s a = Ok s' → P s') → P s → result_fold f s l = Ok s' → P s'.
Proof.
  intros Hf. revert s. induction l as [|a l IH]; intros s Hs; simpl; [by intros [= <-]|].
  intros (s1 & H1 & H2)%result_bind_ok. by eapply IH; [eapply Hf|].
Qed.

Lemma register_provider_ok by_id p by_id' :
  providers_ok by_id → register_provider by_id p = Ok by_id' → providers_ok by_id'.
Proof.
  unfold register_provider. intros Hok (u & He%ensure_ok & Hr)%result_bind_ok.
  apply result_bind_ok in Hr as (u' & _ & [= <-]). intros id q Hq.
  apply lookup_insert_Some in Hq as [[<- <-]|[_ Hq]]; [|by apply Hok].
  split; [done|]. intros m Hm. apply forallb_forall with (x := m) in He;
    [by apply bool_decide_eq_true in He|by apply list_elem_of_In].
Qed.

Lemma remove_provider_ok by_id id by_id' :
  providers_ok by_id → remove_provider by_id id = Ok by_id' → providers_ok by_id'.
Proof.
  unfold remove_provider. intros Hok (u & _ & [= <-])%result_bind_ok.
  intros id' q [_ Hq]%lookup_delete_Some. by apply Hok.
Qed.

Lemma built_model_registry_wf g : built_model_registry g → model_registry_wf g.
Proof.
  induction 1 as [|g providers g' _ [Hok _] Hr|g ids g' _ [Hok _] Hr].
  - split_and!; simpl; [by intros id p|set_solver|constructor].
  - unfold with_registered in Hr. apply result_bind_ok in Hr as (by_id & Hf & [= <-]).
    apply from_providers_wf. eapply result_fold_keeps, Hf; [apply register_provider_ok|done].
  - unfold without_providers in Hr. apply result_bind_ok in Hr as (by_id & Hf & [= <-]).
    apply from_providers_wf. eapply result_fold_keeps, Hf; [apply remove_provider_ok|done].
Qed.

Lemma find_some_elem {A} (f : A → bool) l x : List.find f l = Some x → x ∈ l ∧ f x = true.
Proof. intros [Hin Hf]%List.find_some. by rewrite list_elem_of_In. Qed.

(** A registry resolves exactly the models its providers advertise.  In
    every registry a host can build, a model reference resolves precisely when
    the catalog lists a model of that reference; what it resolves to is such a
    listed model, and its provider is the one registered under its own name. *)
Theorem model_registry_routes g model_ref :
  built_model_registry g →
  match router_model (registry_router g) model_ref with
  | Some m =>
      ms_model_ref m = model_ref ∧ m ∈ mg_models g ∧
      ∃ p, mr_provider (registry_router g) (mr_provider_id model_ref) = Some p ∧
        mp_provider_id p = mr_provider_id model_ref ∧ m ∈ mp_models p
  | None => ∀ m, m ∈ mg_models g → ms_model_ref m ≠ model_ref
  end.
Proof.
  intros (Hok & Hin & _)%built_model_registry_wf. unfold router_model. simpl.
  destruct (mg_providers g !! mr_provider_id model_ref) as [p|] eqn:Hp; simpl.
  - destruct (Hok _ _ Hp) as [Hid Hown]. unfold provider_model.
    destruct (List.find _ _) as [m|] eqn:Hf; simpl.
    + apply find_some_elem in Hf as [Hm Heq%bool_decide_eq_true].
      assert (ms_model_ref m = model_ref) as Href.
      { specialize (Hown m Hm). unfold provider_id_of, model_id_of in *.
        destruct (ms_model_ref m), model_ref; simpl in *; by subst. }
      rewrite decide_True by done. split_and!; [done| |by exists p].
      apply Hin. by exists (mr_provider_id model_ref), p.
    + intros m (id & q & Hq & Hm)%Hin <-. destruct (Hok _ _ Hq) as [_ Hq'].
      specialize (Hq' m Hm). unfold provider_id_of in Hq'. rewrite Hq' in Hp. simplify_eq.
      pose proof (List.find_none _ _ Hf m (proj1 (list_elem_of_In _ _) Hm)) as Hn.
      simpl in Hn. by rewrite bool_decide_true in Hn.
  - intros m (id & q & Hq & Hm)%Hin <-. destruct (Hok _ _ Hq) as [_ Hq'].
    specialize (Hq' m Hm). unfold provider_id_of in Hq'. congruence.
Qed.

(** ** A concrete registry *)

Module ProviderSample.

Definition model (provider name : string) : ModelSpec :=
  mk_ModelSpec (mk_ModelRef (mk_selector provider) (mk_selector name)) (mk_ModelDisplayName "M")
    (mk_TokenCount 1000) (mk_TokenCount 100) capabilities_text None.
Definition provider (id : string) (models : list ModelSpec) : ModelProvider :=
  mk_ModelProvider (mk_selector id) models (λ _ _, Ok tt) (λ _ _, []).

Definition providers : list ModelProvider :=
  [provider "b" [model "b" "two"; model "b" "one"]; provider "a" [model "a" "one"]].
Definition registry : ModelRegistry :=
  match model_registry_new providers with Ok g => g | Err _ => model_registry_empty end.
Definition wanted : ModelRef := ms_model_ref (model "b" "one").

End ProviderSample.

Lemma model_registry_routes_witness :
  length (mg_models ProviderSample.registry) = 3 ∧
  match router_model (registry_router ProviderSample.registry) ProviderSample.wanted with
  | Some m => ms_model_ref m = ProviderSample.wanted
  | None => False
  end.
Proof.
  assert (built_model_registry ProviderSample.registry) as Hb.
  { apply (built_registered _ ProviderSample.providers _ built_empty). by vm_compute. }
  pose proof (model_registry_routes _ ProviderSample.wanted Hb) as Hroute. split; [by vm_compute|].
  assert (is_Some (router_model (registry_router ProviderSample.registry) ProviderSample.wanted))
    as [m Hm] by (vm_compute; eauto).
  rewrite Hm in *. by destruct Hroute.
Defined.
