(* ===== verification/Approval.v ===== *)
(** * Approvals: redaction, requests and resolutions

    [crates/tea-policy/src/redaction.rs] and [approval.rs].  The byte length
    [serde_json::to_vec] gives a value is the parameter [json_len].  Strings
    are their UTF-8 bytes; [is_char_boundary] tests for a continuation byte. *)

From S2P Require Import Prelude Protocol Tools Policy.
Local Open Scope tea_scope.

(** ** Redaction ([redaction.rs]) *)

Definition MAX_REDACTED_BYTES : N := 65536.
Definition MAX_REDACTED_DEPTH : nat := 32.
Definition MAX_RESOURCE_PRESENTATION_BYTES : nat := 2048.
Definition REDACTED : string := "[REDACTED]".

Inductive RedactionError : Set := OutputOutOfBounds.

#[export] Instance RedactionError_eq_dec : EqDecision RedactionError.
Proof. solve_decision. Defined.

Record RedactedArguments : Set := mk_RedactedArguments { ra_value : Value }.

#[export] Instance RedactedArguments_eq_dec : EqDecision RedactedArguments.
Proof. solve_decision. Defined.

Definition sensitive_names : list (list N) :=
  bytes <$> ["token"; "accesstoken"; "refreshtoken"; "password"; "secret"; "clientsecret";
             "apikey"; "authorization"; "cookie"; "privatekey"].

(** A character outside ASCII contributes no byte to the normalized key. *)
Definition sensitive_key (key : string) : bool :=
  bool_decide ((to_ascii_lowercase <$> filter is_ascii_alphanumeric (bytes key))
                 ∈ sensitive_names).

Fixpoint redact_value (v : Value) : Value :=
  match v with
  | JArray values => JArray (List.map redact_value values)
  | JObject entries =>
      JObject (List.map (λ kv,
        (kv.1, if sensitive_key kv.1 then JString REDACTED else redact_value kv.2)) entries)
  | _ => v
  end.

(** The part before the first ['?'], when there is one. *)
Fixpoint before_query (s : string) : option string :=
  match s with
  | EmptyString => None
  | String c rest =>
      if (Ascii.N_of_ascii c =? 63)%N then Some EmptyString
      else String c <$> before_query rest
  end.

Definition redact_resource (scheme locator : string) : string :=
  let value :=
    if String.eqb scheme "credential" || String.eqb scheme "secret" then REDACTED
    else match before_query locator with
         | Some base => (base ++ "?[REDACTED]")%string
         | None => locator
         end in
  truncate_utf8 (scheme ++ ":" ++ value)%string MAX_RESOURCE_PRESENTATION_BYTES.

(** ** Requests and resolutions ([approval.rs]) *)

Inductive ApprovalError : Set :=
| InvalidPresentation | InvalidExpiry | InvalidContext | ResolutionOutsideLifetime
| GrantNotAllowed | GrantMismatch | Redaction (e : RedactionError).

#[export] Instance ApprovalError_eq_dec : EqDecision ApprovalError.
Proof. solve_decision. Defined.

Record ApprovalPresentation : Set := mk_ApprovalPresentation {
  ap_reason : string;
  ap_arguments : RedactedArguments;
  ap_resources : list string
}.

#[export] Instance ApprovalPresentation_eq_dec : EqDecision ApprovalPresentation.
Proof. solve_decision. Defined.

Definition presentation_from_parts (reason : string) (arguments : RedactedArguments)
    (resources : list string) : Result ApprovalError ApprovalPresentation :=
  try? ensure (validate_text reason 4096 && (length resources <=? 128)%nat
               && forallb valid_locator resources) InvalidPresentation in
  Ok (mk_ApprovalPresentation reason arguments resources).

Record ApprovalRequest : Set := mk_ApprovalRequest {
  rq_approval_id : ApprovalId;
  rq_tool_call_id : ToolCallId;
  rq_actor_id : ActorId;
  rq_profile_id : ProfileId;
  rq_session_id : SessionId;
  rq_run_id : option RunId;
  rq_workspace_id : option WorkspaceId;
  rq_environment : PolicyEnvironment;
  rq_tool_name : ToolName;
  rq_tool_version : ToolVersion;
  rq_tool_source : ToolSource;
  rq_effects : list ToolEffect;
  rq_resources : list ToolResource;
  rq_created_at : ProtocolTimestamp;
  rq_expires_at : ProtocolTimestamp;
  rq_presentation : ApprovalPresentation
}.

#[export] Instance ApprovalRequest_eq_dec : EqDecision ApprovalRequest.
Proof. solve_decision. Defined.

(** [ApprovalRequest::from_parts] on the record of its parts. *)
Definition request_from_parts (parts : ApprovalRequest) : Result ApprovalError ApprovalRequest :=
  if ts_leb (rq_expires_at parts) (rq_created_at parts)
     || is_empty (rq_effects parts) || (64 <? length (rq_effects parts))%nat
     || (128 <? length (rq_resources parts))%nat
  then Err (if ts_leb (rq_expires_at parts) (rq_created_at parts)
            then InvalidExpiry else InvalidContext)
  else Ok parts.

Definition request_new (approval_id : ApprovalId) (input : PolicyInput)
    (created_at expires_at : ProtocolTimestamp) (presentation : ApprovalPresentation)
    : Result ApprovalError ApprovalRequest :=
  request_from_parts (mk_ApprovalRequest approval_id (in_tool_call_id input)
    (in_actor_id input) (in_profile_id input) (in_session_id input) (in_run_id input)
    (in_workspace_id input) (in_environment input) (in_tool_name input)
    (in_tool_version input) (in_tool_source input) (in_effects input) (in_resources input)
    created_at expires_at presentation).

Record ApprovalResolution : Set := mk_ApprovalResolution {
  rs_request : ApprovalRequest;
  rs_decision : ApprovalDecision;
  rs_decided_at : ProtocolTimestamp;
  rs_issued_grant : option PolicyGrant
}.

#[export] Instance ApprovalResolution_eq_dec : EqDecision ApprovalResolution.
Proof. solve_decision. Defined.

(** The context test on an issued grant. *)
Definition grant_fits_request (g : PolicyGrant) (request : ApprovalRequest)
    (decided_at : ProtocolTimestamp) : bool :=
  negb (ts_ltb decided_at (gr_issued_at g))
  && bool_decide (gr_actor_id g = rq_actor_id request)
  && bool_decide (gr_profile_id g = rq_profile_id request)
  && bool_decide (gr_tool_name g = rq_tool_name request)
  && bool_decide (gr_tool_version g = rq_tool_version request)
  && grant_source_matches (gr_tool_source g) (rq_tool_source request)
  && covers_effects g (rq_effects request)
  && covers_resources g (rq_resources request).

(** [ApprovalResolution::from_parts]; [new] clones the request into it. *)
Definition resolution_new (request : ApprovalRequest) (decision : ApprovalDecision)
    (decided_at : ProtocolTimestamp) (issued_grant : option PolicyGrant)
    : Result ApprovalError ApprovalResolution :=
  try? ensure (negb (ts_ltb decided_at (rq_created_at request)
                     || ts_leb (rq_expires_at request) decided_at))
         ResolutionOutsideLifetime in
  try? ensure (negb (bool_decide (is_Some issued_grant)
                     && negb (bool_decide (decision = AllowSession)))) GrantNotAllowed in
  try? ensure (match issued_grant with
               | Some grant => grant_fits_request grant request decided_at
               | None => true
               end) GrantMismatch in
  Ok (mk_ApprovalResolution request decision decided_at issued_grant).

(** [ToolFailure::approval_denied] and [denial_tool_failure]. *)
Definition approval_denied : ToolFailure :=
  mk_ToolFailure "approval_denied" "tool invocation was denied by approval".

Definition denial_tool_failure (r : ApprovalResolution) : option ToolFailure :=
  if bool_decide (rs_decision r = DenyApproval) then Some approval_denied else None.

Section encoded_length.
Context (json_len : Value → option N).

Definition redact_arguments (v : Value) : Result RedactionError RedactedArguments :=
  let redacted := redact_value v in
  if exceeds_bytes json_len redacted MAX_REDACTED_BYTES
     || (MAX_REDACTED_DEPTH <? json_depth redacted)%nat
  then Err OutputOutOfBounds
  else Ok (mk_RedactedArguments redacted).

Definition presentation_from_input (reason : string) (input : PolicyInput)
    : Result ApprovalError ApprovalPresentation :=
  try? ensure (validate_text reason 4096) InvalidPresentation in
  let? arguments := map_err Redaction (redact_arguments (in_arguments input)) in
  presentation_from_parts reason arguments
    ((λ resource, redact_resource (tr_scheme resource) (tr_locator resource))
       <$> in_resources input).
End encoded_length.

(** ** Specification *)

(** No value under a sensitive key is left, at any depth. *)
Fixpoint secret_free (v : Value) : bool :=
  match v with
  | JArray values => forallb secret_free values
  | JObject entries =>
      forallb (λ kv, if sensitive_key kv.1 then bool_decide (kv.2 = JString REDACTED)
                     else secret_free kv.2) entries
  | _ => true
  end.

(** Resources that passed [ToolResource::new]. *)
Definition resource_wf (r : ToolResource) : Prop :=
  valid_scheme (tr_scheme r) = true ∧ valid_locator (tr_locator r) = true.

(** The input of [matches] that stands for the approved invocation itself. *)
Definition same_invocation (request : ApprovalRequest) (input : PolicyInput) : Prop :=
  in_actor_id input = rq_actor_id request ∧ in_profile_id input = rq_profile_id request ∧
  in_tool_name input = rq_tool_name request ∧ in_tool_version input = rq_tool_version request ∧
  in_tool_source input = rq_tool_source request ∧
  (∀ e, e ∈ in_effects input → e ∈ rq_effects request) ∧
  (∀ r, r ∈ in_resources input → r ∈ rq_resources request).

(** A sample request and the resolution that grants it. *)
Module ApprovalSample.

Definition arguments : Value :=
  JObject [("password", JString "hunter2");
           ("nested", JArray [JObject [("API-Key", JNumber (PosInt 7)); ("path", JString "a")]])].
Definition presentation : ApprovalPresentation :=
  mk_ApprovalPresentation "network" (mk_RedactedArguments (redact_value arguments)) ["url:x"].
Definition input : PolicyInput := PolicySample.input_at 20 [NetworkRequest].
Definition request : ApprovalRequest :=
  match request_new (mk_id 9) input (Timestamp 15) (Timestamp 100) presentation with
  | Ok r => r
  | Err _ => mk_ApprovalRequest (mk_id 0) (mk_id 0) (mk_selector "") (mk_selector "") (mk_id 0)
               None None (in_environment input) (mk_ToolName "") (mk_ToolVersion "")
               native_product [] [] (Timestamp 0) (Timestamp 0) presentation
  end.

End ApprovalSample.

(** ** Lemmas: control characters *)

(** A control character of a part is one of the whole, unless it is cut from
    the lead byte of a C1 control; a prefix has no new ones. *)
Lemma has_control_take n bs : has_control bs = false → has_control (take n bs) = false.
Proof.
  revert n. induction bs as [|b bs IH]; intros [|n] H; try done.
  simpl in H. apply orb_false_iff in H as [H Hr]. apply orb_false_iff in H as [H Hp].
  simpl. rewrite (IH n Hr), H. simpl. rewrite orb_false_r.
  destruct bs as [|c bs], n as [|n]; try done.
Qed.

Lemma has_control_app_ascii a b :
  has_control a = false → has_control b = false →
  match b with [] => True | c :: _ => (c < 128)%N end →
  has_control (a ++ b) = false.
Proof.
  intros Ha Hb Hc. induction a as [|x a IH]; [done|].
  simpl in Ha. apply orb_false_iff in Ha as [H Hr]. apply orb_false_iff in H as [H Hp].
  simpl. rewrite H, (IH Hr). simpl. rewrite orb_false_r.
  destruct a as [|y a]; [|done]. simpl. destruct b as [|c b]; [done|].
  apply andb_false_iff. left. apply andb_false_iff. right. by apply N.leb_gt.
Qed.

Lemma has_control_before_query s base :
  before_query s = Some base → has_control (bytes s) = false → has_control (bytes base) = false.
Proof.
  intros Hq Hs. assert (∃ rest, s = (base ++ rest)%string) as [rest ->].
  { revert base Hq Hs. induction s as [|c s IH]; intros base; simpl; [done|].
    destruct (Ascii.N_of_ascii c =? 63)%N.
    - intros [= <-] _. by exists (String c s).
    - destruct (before_query s) as [b'|]; [|done]. intros [= <-] Hs.
      change (has_control (Ascii.N_of_ascii c :: bytes s) = false) in Hs.
      apply orb_false_iff in Hs as [_ Hs].
      destruct (IH b' eq_refl Hs) as [rest ->]. by exists rest. }
  rewrite bytes_app in Hs. apply (has_control_take (length (bytes base))) in Hs.
  by rewrite take_app_length in Hs.
Qed.

Lemma head_and_all_not_nil first rest s : head_and_all first rest s = true → s ≠ "".
Proof. by destruct s. Qed.

(** Bytes of a canonical scheme are printable. *)
Lemma scheme_no_control scheme : valid_scheme scheme = true → has_control (bytes scheme) = false.
Proof.
  unfold valid_scheme, head_and_all. intros [_ H]%andb_true_iff.
  assert (Forall (λ b, 32 ≤ b ∧ b < 127)%N (bytes scheme)) as Hall.
  { assert (∀ b, is_ascii_lowercase b || is_ascii_digit b || (b =? 45)%N = true →
      (32 ≤ b ∧ b < 127)%N) as Hb.
    { intros b. unfold is_ascii_lowercase, is_ascii_digit.
      rewrite !orb_true_iff, !andb_true_iff, !N.leb_le, N.eqb_eq. lia. }
    destruct (bytes scheme) as [|b bs]; [done|]. apply andb_true_iff in H as [H1 H2].
    constructor; [apply Hb; by rewrite H1|]. apply Forall_forall. intros x Hx.
    rewrite forallb_forall in H2. apply Hb, H2. by apply list_elem_of_In. }
  clear H. induction Hall as [|b bs Hb Hall IH]; [done|]. simpl. rewrite IH, orb_false_r.
  apply orb_false_iff. split.
  - apply orb_false_iff. rewrite N.ltb_ge, N.eqb_neq. lia.
  - destruct Hall as [|c bs Hc]; [done|]. apply andb_false_iff. left.
    apply andb_false_iff. left. apply N.eqb_neq. lia.
Qed.

(** ** Lemmas: redaction *)

Lemma redact_value_secret_free v : secret_free (redact_value v) = true.
Proof.
  induction v as [| | | |values IH|entries IH] using Value_nested_ind; simpl; try done.
  - apply forallb_forall. intros x (y & <- & Hy)%in_map_iff.
    rewrite Forall_forall in IH. apply IH. by apply list_elem_of_In.
  - apply forallb_forall. intros x (y & <- & Hy)%in_map_iff. simpl.
    rewrite Forall_forall in IH. destruct (sensitive_key y.1) eqn:Hk.
    + by apply bool_decide_eq_true.
    + apply IH. by apply list_elem_of_In.
Qed.

Lemma map_id_in {A} (f : A → A) l : (∀ x, x ∈ l → f x = x) → List.map f l = l.
Proof.
  intros Hf. induction l as [|x l IH]; simpl; [done|].
  rewrite Hf by set_solver. f_equal. apply IH. set_solver.
Qed.

Lemma redact_value_fixed v : secret_free v = true → redact_value v = v.
Proof.
  induction v as [| | | |values IH|entries IH] using Value_nested_ind; simpl; try done;
    intros Hf; rewrite forallb_forall in Hf; rewrite Forall_forall in IH; f_equal;
    apply map_id_in; intros x Hx.
  - apply IH; [done|]. apply Hf. by apply list_elem_of_In.
  - specialize (IH x Hx). apply list_elem_of_In in Hx. specialize (Hf x Hx).
    destruct x as [k v]. simpl in *. destruct (sensitive_key k).
    + apply bool_decide_eq_true in Hf. by subst.
    + by rewrite IH.
Qed.

Lemma truncate_utf8_length value max :
  String.length (truncate_utf8 value max) ≤ max.
Proof.
  unfold truncate_utf8. destruct (_ <=? _)%nat eqn:Hle; [by apply Nat.leb_le|].
  etransitivity; [apply length_substring|apply floor_boundary_le].
Qed.

Lemma truncate_utf8_no_control value max :
  has_control (bytes value) = false → has_control (bytes (truncate_utf8 value max)) = false.
Proof.
  intros Hv. unfold truncate_utf8. destruct (_ <=? _)%nat; [done|].
  rewrite bytes_substring. by apply has_control_take.
Qed.

(** The first byte of a canonical scheme is a character of its own. *)
Lemma truncate_utf8_nonempty scheme rest max :
  valid_scheme scheme = true → 0 < max →
  truncate_utf8 (scheme ++ ":" ++ rest)%string max ≠ "".
Proof.
  intros Hs Hmax. unfold truncate_utf8.
  assert (∃ c1 c2 tail, (scheme ++ ":" ++ rest)%string = String c1 (String c2 tail) ∧
    is_continuation (Ascii.N_of_ascii c2) = false) as (c1 & c2 & tail & Heq & Hc2).
  { unfold valid_scheme, head_and_all in Hs. apply andb_true_iff in Hs as [_ Hs].
    destruct scheme as [|c1 scheme]; [done|]. destruct scheme as [|c2 scheme].
    - exists c1. eexists _, _. split; [done|]. by vm_compute.
    - exists c1, c2. eexists. split; [done|].
      change (bytes (String c1 (String c2 scheme))) with
        (Ascii.N_of_ascii c1 :: Ascii.N_of_ascii c2 :: bytes scheme) in Hs.
      simpl in Hs. apply andb_true_iff in Hs as [_ Hs]. apply andb_true_iff in Hs as [Hs _].
      unfold is_continuation. apply andb_false_iff. left. apply N.leb_gt.
      unfold is_ascii_lowercase, is_ascii_digit in Hs.
      rewrite !orb_true_iff, !andb_true_iff, !N.leb_le, N.eqb_eq in Hs. lia. }
  rewrite Heq. destruct (_ <=? _)%nat; [done|].
  assert (1 ≤ floor_boundary (bytes (String c1 (String c2 tail))) max) as Hf.
  { induction max as [|n IH]; [lia|]. cbn [floor_boundary].
    destruct n as [|n].
    - assert (is_char_boundary (bytes (String c1 (String c2 tail))) 1 = true) as ->; [|lia].
      change (negb (is_continuation (Ascii.N_of_ascii c2)) = true). by rewrite Hc2.
    - destruct (is_char_boundary _ _); [lia|]. apply IH. lia. }
  destruct (floor_boundary _ _); [lia|]. done.
Qed.

Lemma resource_new_ok scheme locator access r :
  resource_new scheme locator access = Ok r →
  r = mk_ToolResource scheme locator access ∧ valid_scheme scheme = true ∧
  valid_locator locator = true.
Proof.
  unfold resource_new. destruct (valid_scheme scheme), (valid_locator locator); simpl;
    naive_solver.
Qed.

Lemma redact_resource_valid r :
  resource_wf r → valid_locator (redact_resource (tr_scheme r) (tr_locator r)) = true.
Proof.
  intros [Hs Hl]. unfold valid_locator in *. bool_prop. unfold redact_resource.
  set (value := if _ || _ then _ else _).
  assert (has_control (bytes value) = false) as Hv.
  { unfold value. destruct (_ || _); [by vm_compute|].
    destruct (before_query (tr_locator r)) as [base|] eqn:Hq; [|done].
    rewrite bytes_app. apply has_control_app_ascii; [|by vm_compute|done].
    by eapply has_control_before_query. }
  rewrite !andb_true_iff, !negb_true_iff. split_and!.
  - apply String.eqb_neq. by apply truncate_utf8_nonempty; [|unfold MAX_RESOURCE_PRESENTATION_BYTES; lia].
  - apply N.leb_le. unfold str_len.
    pose proof (truncate_utf8_length (tr_scheme r ++ ":" ++ value)
                  MAX_RESOURCE_PRESENTATION_BYTES) as Ht.
    unfold MAX_RESOURCE_PRESENTATION_BYTES in *. lia.
  - apply truncate_utf8_no_control. rewrite bytes_app.
    apply has_control_app_ascii; [by apply scheme_no_control| |done].
    change (has_control (58%N :: bytes value) = false). simpl. rewrite Hv. by destruct (bytes value).
Qed.

(** ** Claims *)

(** C34: redaction removes every secret and nothing else: a value is left as it
    is exactly when it holds no secret, and the redacted value holds none (so
    redaction is idempotent). *)
Theorem redaction_complete v :
  secret_free (redact_value v) = true ∧ (redact_value v = v ↔ secret_free v = true).
Proof.
  split; [apply redact_value_secret_free|]. split; [|apply redact_value_fixed].
  intros <-. apply redact_value_secret_free.
Qed.

(** Presenting an approval fails only for a bad reason, oversized redacted
    arguments or too many resources: the strings [redact_resource] makes from
    canonical resources are always within the presentation bounds. *)
Theorem presentation_from_input_total json_len reason input :
  (∀ r, r ∈ in_resources input → resource_wf r) →
  validate_text reason 4096 = true → length (in_resources input) ≤ 128 →
  match redact_arguments json_len (in_arguments input) with
  | Err e => presentation_from_input json_len reason input = Err (Redaction e)
  | Ok arguments => ∃ p, presentation_from_input json_len reason input = Ok p ∧
      ap_arguments p = arguments ∧ secret_free (ra_value arguments) = true
  end.
Proof.
  intros Hr Htext Hlen. unfold presentation_from_input. rewrite Htext.
  change (ensure true InvalidPresentation) with (Ok (E:=ApprovalError) tt).
  change (result_bind (Ok tt) ?k) with (k tt).
  destruct (redact_arguments json_len (in_arguments input)) as [a|e] eqn:Ha; [|done].
  unfold result_bind, map_err, presentation_from_parts. rewrite Htext, length_fmap.
  rewrite (proj2 (Nat.leb_le _ _) Hlen). simpl.
  assert (forallb valid_locator ((λ resource, redact_resource (tr_scheme resource)
    (tr_locator resource)) <$> in_resources input) = true) as ->.
  { apply forallb_forall. intros x Hx%list_elem_of_In.
    apply list_elem_of_fmap in Hx as (r & -> & Hin). by apply redact_resource_valid, Hr. }
  simpl. eexists. split_and!; [done..|]. unfold redact_arguments in Ha.
  destruct (_ || _); [done|]. injection Ha as <-. apply redact_value_secret_free.
Qed.

Lemma presentation_from_input_total_witness :
  let json_len := λ _ : Value, Some 2%N in
  match redact_arguments json_len (in_arguments ApprovalSample.input) with
  | Err e => presentation_from_input json_len "network" ApprovalSample.input = Err (Redaction e)
  | Ok arguments => ∃ p, presentation_from_input json_len "network" ApprovalSample.input = Ok p ∧
      ap_arguments p = arguments ∧ secret_free (ra_value arguments) = true
  end.
Proof.
  intros json_len.
  apply (presentation_from_input_total json_len "network" ApprovalSample.input).
  - intros r Hr. change (r ∈ [PolicySample.resource]) in Hr.
    apply list_elem_of_singleton in Hr as ->. split; by vm_compute.
  - by vm_compute.
  - apply (bool_decide_unpack _). by vm_compute.
Defined.

(** A grant issued with an approval authorizes what was approved: if a
    resolution is constructed with a grant, the decision was allow-session and
    was taken within the request's lifetime, and the grant matches every later
    input for the same invocation context that its scope admits, unless it has
    been revoked by then. *)
Theorem issued_grant_authorizes request decision decided_at g r input :
  resolution_new request decision decided_at (Some g) = Ok r →
  same_invocation request input → ts_leb decided_at (in_now input) = true →
  gr_revoked_at g = None → scope_matches (gr_scope g) input = true →
  decision = AllowSession ∧ grant_matches g input = true ∧
  ts_leb (rq_created_at request) decided_at = true ∧
  ts_ltb decided_at (rq_expires_at request) = true.
Proof.
  unfold resolution_new. intros (? & Ht%ensure_ok & H)%result_bind_ok.
  apply result_bind_ok in H as (? & Hd%ensure_ok & H).
  apply result_bind_ok in H as (? & Hg%ensure_ok & _).
  intros (Ha & Hp & Hn & Hv & Hsrc & He & Hr) Hnow Hrev Hscope.
  rewrite bool_decide_eq_true_2 in Hd by done. simpl in Hd. rewrite negb_involutive in Hd.
  unfold grant_fits_request in Hg. bool_prop.
  unfold ts_leb, ts_ltb in *. rewrite ?Z.leb_le, ?Z.ltb_lt, ?Z.leb_gt, ?Z.ltb_ge in *.
  split_and!; [done| |lia|lia]. unfold grant_matches. rewrite Hrev, Hscope.
  assert (ts_ltb (in_now input) (gr_issued_at g) = false) as ->.
  { unfold ts_ltb. apply Z.ltb_ge. lia. }
  rewrite !bool_decide_eq_true_2 by congruence. rewrite Hsrc.
  rename select (grant_source_matches _ _ = true) into Hsm. rewrite Hsm.
  rename select (covers_effects _ _ = true) into Hce.
  rename select (covers_resources _ _ = true) into Hcr.
  rewrite covers_effects_elem in Hce. rewrite covers_resources_elem in Hcr.
  rewrite (proj2 (covers_effects_elem g (in_effects input))) by auto.
  by rewrite (proj2 (covers_resources_elem g (in_resources input))) by auto.
Qed.

Lemma issued_grant_authorizes_witness :
  ∃ r, resolution_new ApprovalSample.request AllowSession (Timestamp 16) (Some PolicySample.grant)
    = Ok r ∧ grant_matches PolicySample.grant ApprovalSample.input = true.
Proof.
  eexists. split; [by vm_compute|].
  refine (proj1 (proj2 (issued_grant_authorizes ApprovalSample.request AllowSession
    (Timestamp 16) PolicySample.grant _ ApprovalSample.input _ _ _ _ _))); try (by vm_compute).
Defined.
