(* ===== verification/ToolAudit.v ===== *)
(** * Tool audit metadata

    [crates/tea-tools/src/audit.rs]: the bounded record of a tool call's
    version, provenance, effects and redacted resources that the kernel writes
    next to a durable tool-call request.  Its JSON form is the [Value] that
    [serde_json::to_value] builds (object entries in key order) and that the
    derived [Deserialize] reads back: a struct is an object with exactly its
    fields, or the array of them.  The semver parser is a parameter. *)

From S2P Require Import Prelude Protocol Tools Validation Approval.
Local Open Scope tea_scope.

Definition MAX_AUDIT_EFFECTS : nat := 64.
Definition MAX_AUDIT_RESOURCES : nat := 128.
Definition TOOL_AUDIT_METADATA_NAMESPACE : string := "dev.tea-rs.tool-audit".

Record ToolAuditResource : Set := mk_ToolAuditResource {
  au_scheme : string;
  au_redacted_presentation : string;
  au_access : ToolResourceAccess
}.

#[export] Instance ToolAuditResource_eq_dec : EqDecision ToolAuditResource.
Proof. solve_decision. Defined.

Record ToolAuditMetadata : Set := mk_ToolAuditMetadata {
  am_tool_version : ToolVersion;
  am_source : ToolSource;
  am_effects : list ToolEffect;
  am_resources : list ToolAuditResource
}.

Inductive ToolAuditMetadataError : Set :=
| InvalidAuditEffects | InvalidAuditResources | InvalidAuditResource
| AuditProtocolMetadata (e : ProtocolMetadataError).

Definition audit_resource_new (scheme redacted_presentation : string)
    (access : ToolResourceAccess) : Result ToolAuditMetadataError ToolAuditResource :=
  try? ensure (valid_scheme scheme) InvalidAuditResource in
  try? ensure (bounded_line redacted_presentation 2048) InvalidAuditResource in
  Ok (mk_ToolAuditResource scheme redacted_presentation access).

(** The derived [Ord]: scheme, presentation, access. *)
Definition audit_resource_leb (a b : ToolAuditResource) : bool :=
  lex_leb (String.compare (au_scheme a) (au_scheme b))
    (lex_leb (String.compare (au_redacted_presentation a) (au_redacted_presentation b))
      (access_index (au_access a) <=? access_index (au_access b))%N).
Definition audit_resource_same (a b : ToolAuditResource) : bool := bool_decide (a = b).

Definition audit_metadata_new (tool_version : ToolVersion) (source : ToolSource)
    (effects : list ToolEffect) (resources : list ToolAuditResource)
    : Result ToolAuditMetadataError ToolAuditMetadata :=
  let effects := dedup effect_same (stable_sort effect_leb effects) in
  try? ensure (negb (length effects =? 0)%nat && (length effects <=? MAX_AUDIT_EFFECTS)%nat)
         InvalidAuditEffects in
  let resources := dedup audit_resource_same (stable_sort audit_resource_leb resources) in
  try? ensure (length resources <=? MAX_AUDIT_RESOURCES)%nat InvalidAuditResources in
  Ok (mk_ToolAuditMetadata tool_version source effects resources).

(** ** Encoding *)

Definition access_name (a : ToolResourceAccess) : string :=
  match a with
  | AccessRead => "read" | AccessWrite => "write" | AccessDelete => "delete"
  | AccessExecute => "execute" | AccessUnknown => "unknown"
  end.
Definition source_kind_name (k : ToolSourceKind) : string :=
  match k with SourceNative => "native" | SourceMcp => "mcp" | SourceRemote => "remote" end.
Definition trust_name (t : ToolTrust) : string :=
  match t with
  | TrustProduct => "product" | TrustUser => "user" | TrustWorkspace => "workspace"
  | Untrusted => "untrusted"
  end.

Definition audit_resource_json (r : ToolAuditResource) : Value :=
  JObject [("access"%string, JString (access_name (au_access r)));
           ("redactedPresentation"%string, JString (au_redacted_presentation r));
           ("scheme"%string, JString (au_scheme r))].
Definition source_json (s : ToolSource) : Value :=
  JObject [("descriptorDigest"%string, JString (ts_descriptor_digest s));
           ("kind"%string, JString (source_kind_name (ts_kind s)));
           ("sourceId"%string, JString (ts_source_id s));
           ("trust"%string, JString (trust_name (ts_trust s)))].
Definition audit_json (m : ToolAuditMetadata) : Value :=
  JObject [("effects"%string, JArray ((λ e, JString (effect_as_str e)) <$> am_effects m));
           ("resources"%string, JArray (audit_resource_json <$> am_resources m));
           ("source"%string, source_json (am_source m));
           ("toolVersion"%string, JString (tv_text (am_tool_version m)))].

(** [to_protocol_metadata]. *)
Definition to_protocol_metadata `{Codec} (m : ToolAuditMetadata)
    : Result ToolAuditMetadataError ProtocolMetadata :=
  map_err AuditProtocolMetadata
    (metadata_from_entries [(TOOL_AUDIT_METADATA_NAMESPACE, audit_json m)]).

(** ** Decoding *)

(** A derived struct of the fields [names], in declaration order: no field may
    be unknown or missing. *)
Definition struct_fields (names : list string) (v : Value) : option (list Value) :=
  match v with
  | JObject entries =>
      if forallb (λ kv, bool_decide (kv.1 ∈ names)) entries
      then mapM (json_get v) names else None
  | JArray values => if (length values =? length names)%nat then Some values else None
  | _ => None
  end.

(** A unit variant by its name. *)
Definition variant_of {A} (name : A → string) (all : list A) (v : Value) : option A :=
  text ← json_as_str v; snd <$> list_find (λ a, name a = text) all.

Definition accesses : list ToolResourceAccess :=
  [AccessRead; AccessWrite; AccessDelete; AccessExecute; AccessUnknown].
Definition source_kinds : list ToolSourceKind := [SourceNative; SourceMcp; SourceRemote].
Definition trusts : list ToolTrust := [TrustProduct; TrustUser; TrustWorkspace; Untrusted].

Definition result_option {E A} (r : Result E A) : option A :=
  match r with Ok a => Some a | Err _ => None end.

Definition audit_resource_of_json (v : Value) : option ToolAuditResource :=
  match struct_fields ["scheme"; "redactedPresentation"; "access"]%string v with
  | Some [scheme; presentation; access] =>
      scheme ← json_as_str scheme; presentation ← json_as_str presentation;
      access ← variant_of access_name accesses access;
      result_option (audit_resource_new scheme presentation access)
  | _ => None
  end.

Definition source_of_json (v : Value) : option ToolSource :=
  match struct_fields ["kind"; "sourceId"; "trust"; "descriptorDigest"]%string v with
  | Some [kind; source_id; trust; digest] =>
      kind ← variant_of source_kind_name source_kinds kind; source_id ← json_as_str source_id;
      trust ← variant_of trust_name trusts trust; digest ← json_as_str digest;
      result_option (source_new kind source_id trust digest)
  | _ => None
  end.

Definition effect_of_json (v : Value) : option ToolEffect :=
  text ← json_as_str v; result_option (parse_effect text).

Definition json_list {A} (decode : Value → option A) (v : Value) : option (list A) :=
  match v with JArray values => mapM decode values | _ => None end.

Definition audit_of_json (version_parse : string → option ToolVersion) (v : Value)
    : option ToolAuditMetadata :=
  match struct_fields ["toolVersion"; "source"; "effects"; "resources"]%string v with
  | Some [version; source; effects; resources] =>
      version ← json_as_str version ≫= version_parse; source ← source_of_json source;
      effects ← json_list effect_of_json effects;
      resources ← json_list audit_resource_of_json resources;
      result_option (audit_metadata_new version source effects resources)
  | _ => None
  end.

(** ** Round trip *)

(** What the constructors of provenance, effects and resources ensure. *)
Definition source_valid (s : ToolSource) : Prop :=
  source_new (ts_kind s) (ts_source_id s) (ts_trust s) (ts_descriptor_digest s) = Ok s.
Definition effect_valid (e : ToolEffect) : Prop := parse_effect (effect_as_str e) = Ok e.
Definition audit_resource_valid (r : ToolAuditResource) : Prop :=
  audit_resource_new (au_scheme r) (au_redacted_presentation r) (au_access r) = Ok r.

Lemma mapM_round_trip {A} (f : A → Value) (g : Value → option A) l :
  (∀ x, x ∈ l → g (f x) = Some x) → mapM g (f <$> l) = Some l.
Proof.
  intros Hg. induction l as [|x l IH]; [done|]. rewrite fmap_cons. simpl.
  rewrite Hg by left. simpl. rewrite IH; [done|]. intros y Hy. apply Hg. by right.
Qed.

Lemma source_round_trip s : source_valid s → source_of_json (source_json s) = Some s.
Proof. intros Hs. unfold source_valid in Hs. destruct s as [[] id [] digest]; simpl in *; unfold source_of_json; simpl; by rewrite Hs. Qed.

Lemma audit_resource_round_trip r :
  audit_resource_valid r → audit_resource_of_json (audit_resource_json r) = Some r.
Proof.
  intros Hr. unfold audit_resource_valid in Hr. destruct r as [scheme presentation []];
    simpl in *; unfold audit_resource_of_json; simpl; by rewrite Hr.
Qed.

Lemma effect_round_trip e : effect_valid e → effect_of_json (JString (effect_as_str e)) = Some e.
Proof. unfold effect_valid, effect_of_json. simpl. by intros ->. Qed.

Lemma audit_resource_leb_total a b :
  audit_resource_leb a b = false → audit_resource_leb b a = true.
Proof.
  unfold audit_resource_leb, lex_leb.
  pose proof (String.compare_antisym (au_scheme b) (au_scheme a)) as ->.
  pose proof (String.compare_antisym (au_redacted_presentation b) (au_redacted_presentation a)) as ->.
  destruct (String.compare (au_scheme a) (au_scheme b)); simpl; try done.
  destruct (String.compare (au_redacted_presentation a) (au_redacted_presentation b)); simpl; try done.
  rewrite N.leb_gt, N.leb_le. lia.
Qed.

Lemma audit_metadata_new_ok version source effects resources m :
  audit_metadata_new version source effects resources = Ok m →
  am_source m = source ∧ am_tool_version m = version ∧
  (∀ e, e ∈ am_effects m ↔ e ∈ effects) ∧ (∀ r, r ∈ am_resources m ↔ r ∈ resources) ∧
  length (am_effects m) ≤ MAX_AUDIT_EFFECTS ∧ length (am_resources m) ≤ MAX_AUDIT_RESOURCES ∧
  audit_metadata_new version source (am_effects m) (am_resources m) = Ok m.
Proof.
  assert (∀ a b, audit_resource_same a b = true → a = b) as Hsame
    by (intros a b ?%bool_decide_eq_true; done).
  pose proof (sorted_set_id effect_leb effect_same effects effect_same_eq effect_leb_total) as He.
  pose proof (sorted_set_id audit_resource_leb audit_resource_same resources Hsame
                audit_resource_leb_total) as Hr.
  unfold audit_metadata_new. intros (u & Hle%ensure_ok & Hm)%result_bind_ok.
  apply result_bind_ok in Hm as (u' & Hlr%ensure_ok & [= <-]). simpl in *. rewrite He, Hr, Hle, Hlr.
  apply andb_true_iff in Hle as [_ Hle%Nat.leb_le]. apply Nat.leb_le in Hlr.
  split_and!; try done; intros x; rewrite elem_of_dedup, elem_of_stable_sort; try done.
  apply effect_same_eq.
Qed.

(** C39: audit metadata survives its JSON form.  Metadata built from a version
    that was parsed and from valid provenance, effects and resources decodes
    from its encoding to exactly the same value; its effects and resources are
    the given ones, without repetition, and within their bounds.  The version
    parser is the one of the [semver] crate, of which this uses that what a
    parsed version displays as parses to that version. *)
Theorem audit_round_trip version_parse text version source effects resources m :
  (∀ text v, version_parse text = Some v → version_parse (tv_text v) = Some v) →
  version_parse text = Some version → source_valid source →
  Forall effect_valid effects → Forall audit_resource_valid resources →
  audit_metadata_new version source effects resources = Ok m →
  audit_of_json version_parse (audit_json m) = Some m ∧
  (∀ e, e ∈ am_effects m ↔ e ∈ effects) ∧ (∀ r, r ∈ am_resources m ↔ r ∈ resources) ∧
  length (am_effects m) ≤ 64 ∧ length (am_resources m) ≤ 128.
Proof.
  intros Hprints Hversion%Hprints Hsource Heffects Hresources Hm.
  apply audit_metadata_new_ok in Hm as (<- & <- & He & Hr & Hle & Hlr & Hm).
  split; [|by split_and!].
  pose proof (proj1 (Forall_forall _ _) Heffects) as Heffect.
  pose proof (proj1 (Forall_forall _ _) Hresources) as Hresource.
  unfold audit_of_json. simpl. rewrite Hversion. simpl. rewrite source_round_trip by done. simpl.
  rewrite (mapM_round_trip (λ e, JString (effect_as_str e)) effect_of_json).
  2: { intros e Hin. apply effect_round_trip, Heffect, He, Hin. }
  simpl. rewrite (mapM_round_trip audit_resource_json audit_resource_of_json).
  2: { intros r Hin. apply audit_resource_round_trip, Hresource, Hr, Hin. }
  simpl. by rewrite Hm.
Qed.

Module AuditSample.

Definition version : ToolVersion := mk_ToolVersion "1.0.0".
Definition effects : list ToolEffect := [UnknownEffect "com.example.send"; FsWrite; FsWrite].
Definition resources : list ToolAuditResource :=
  [mk_ToolAuditResource "url" "url:https://e.org/?[REDACTED]" AccessRead;
   mk_ToolAuditResource "file" "file:/tmp/a" AccessWrite].
Definition metadata : ToolAuditMetadata :=
  mk_ToolAuditMetadata version native_product [FsWrite; UnknownEffect "com.example.send"]
    (reverse resources).

(** Versions as three decimal numbers, without the tags of [semver]; a leading
    zero is refused there, and here. *)
Definition is_digit (c : Ascii.ascii) : bool :=
  (48 <=? Ascii.N_of_ascii c)%N && (Ascii.N_of_ascii c <=? 57)%N.

Definition number (digits : list Ascii.ascii) : bool :=
  match digits with
  | [] => false
  | [_] => true
  | first :: _ => negb (Ascii.N_of_ascii first =? 48)%N
  end && forallb is_digit digits.

Fixpoint parts (text : list Ascii.ascii) : list (list Ascii.ascii) :=
  match text with
  | [] => [[]]
  | c :: rest =>
      if (Ascii.N_of_ascii c =? 46)%N then [] :: parts rest
      else match parts rest with
           | part :: others => (c :: part) :: others
           | [] => [[c]]
           end
  end.

Definition parse_version (text : string) : option ToolVersion :=
  let numbers := parts (String.list_ascii_of_string text) in
  if (length numbers =? 3)%nat && forallb number numbers then Some (mk_ToolVersion text) else None.

Lemma parse_version_prints text v :
  parse_version text = Some v → parse_version (tv_text v) = Some v.
Proof. unfold parse_version. intros Hv. destruct (_ && _) eqn:Ht; simplify_eq. simpl. by rewrite Ht. Qed.

End AuditSample.

Lemma audit_round_trip_witness :
  AuditSample.parse_version "latest" = None ∧ AuditSample.parse_version "1.02.0" = None ∧
  audit_metadata_new AuditSample.version native_product AuditSample.effects AuditSample.resources
    = Ok AuditSample.metadata ∧
  audit_of_json AuditSample.parse_version (audit_json AuditSample.metadata)
    = Some AuditSample.metadata.
Proof.
  assert (audit_metadata_new AuditSample.version native_product AuditSample.effects
            AuditSample.resources = Ok AuditSample.metadata) as Hm by (vm_compute; reflexivity).
  split; [vm_compute; reflexivity|]. split; [vm_compute; reflexivity|]. split; [exact Hm|].
  apply (audit_round_trip AuditSample.parse_version "1.0.0" AuditSample.version native_product
           AuditSample.effects AuditSample.resources);
    [exact AuditSample.parse_version_prints|vm_compute; reflexivity|vm_compute; reflexivity| | |exact Hm].
  - repeat constructor.
  - repeat constructor.
Defined.
