(* ===== verification/Artifact.v ===== *)
(** * Authorization artifacts: approvals and grants linked to the log

    [crates/tea-session/src/artifact.rs]: the approval and grant side journals,
    their validation against the canonical records of a transaction, and the
    state rebuilt from persisted journals.  [ArtifactState::apply] is a
    computation over the state; the outer [option] is the panic its replay of
    the log could only make through the reducer's [expect]. *)

From S2P Require Import Prelude Protocol Tools Policy Approval SessionState Reducer.
Local Open Scope tea_scope.

(** ** Data *)

Inductive ApprovalArtifactEntry : Set :=
| ArtifactRequested (record_id : RecordId) (request : ApprovalRequest)
    (final_output_format : option FinalOutputFormat)
| ArtifactResolved (record_id : RecordId) (resolution : ApprovalResolution).

Definition entry_record_id (e : ApprovalArtifactEntry) : RecordId :=
  match e with ArtifactRequested record_id _ _ | ArtifactResolved record_id _ => record_id end.

Inductive GrantJournalEntry : Set :=
| GrantIssued (approval_record_id : RecordId) (grant : PolicyGrant)
| GrantRevoked (grant : PolicyGrant).

Definition entry_grant (e : GrantJournalEntry) : PolicyGrant :=
  match e with GrantIssued _ grant | GrantRevoked grant => grant end.
Definition entry_grant_id (e : GrantJournalEntry) : GrantId := gr_id (entry_grant e).

Record ApprovalContext : Set := mk_ApprovalContext {
  ac_profile_id : ProfileId;
  ac_tool_name : string
}.

Record ArtifactState : Set := mk_ArtifactState {
  as_requests : gmap ApprovalId ApprovalRequest;
  as_resolutions : gset ApprovalId;
  as_grants : gmap GrantId PolicyGrant
}.

Definition artifacts_default : ArtifactState := mk_ArtifactState ∅ ∅ ∅.

Definition insert_request (id : ApprovalId) (q : ApprovalRequest) (s : ArtifactState) :=
  mk_ArtifactState (<[id := q]> (as_requests s)) (as_resolutions s) (as_grants s).
Definition insert_resolution (id : ApprovalId) (s : ArtifactState) :=
  mk_ArtifactState (as_requests s) ({[id]} ∪ as_resolutions s) (as_grants s).
Definition insert_grant (g : PolicyGrant) (s : ArtifactState) :=
  mk_ArtifactState (as_requests s) (as_resolutions s) (<[gr_id g := g]> (as_grants s)).

Inductive ArtifactValidationError : Set :=
| InvalidCanonicalLog | MissingCanonicalRecord | CanonicalApprovalMismatch
| MissingApprovalRequest | DuplicateApprovalArtifact | ApprovalResolutionMismatch
| GrantWithoutResolution | MissingGrantJournalEntry | ArtifactGrantMismatch | DuplicateGrant
| UnknownGrant | InvalidRevocation.

(** ** Rebuilding from persisted journals *)

Definition rebuild_approval (s : ArtifactState) (e : ApprovalArtifactEntry) : ArtifactState :=
  match e with
  | ArtifactRequested _ request _ => insert_request (rq_approval_id request) request s
  | ArtifactResolved _ resolution =>
      insert_resolution (rq_approval_id (rs_request resolution)) s
  end.

Definition rebuild_grant (s : ArtifactState) (e : GrantJournalEntry) : ArtifactState :=
  insert_grant (entry_grant e) s.

Definition rebuild_from_journals (approvals : list ApprovalArtifactEntry)
    (grant_journal : list GrantJournalEntry) : ArtifactState :=
  foldl rebuild_grant (foldl rebuild_approval artifacts_default approvals) grant_journal.

Definition grant_key_leb (a b : GrantId) : bool := (as_uuid a <=? as_uuid b)%N.

Definition is_active (g : PolicyGrant) : bool := bool_decide (gr_revoked_at g = None).

Definition active_grants (s : ArtifactState) : list PolicyGrant :=
  filter is_active (snd <$> btree_entries grant_key_leb (as_grants s)).

(** ** Validation and application *)

Notation artifact_m := (ST ArtifactState ArtifactValidationError).

Definition apply_request (session_id : SessionId) (record : RecordEnvelope)
    (request : ApprovalRequest) (approval_id : ApprovalId) (tool_call_id : ToolCallId)
    (expires_at : ProtocolTimestamp) (contexts : gmap ApprovalId ApprovalContext)
    : artifact_m unit :=
  let! context := st_lift (ok_or (contexts !! approval_id) CanonicalApprovalMismatch) in
  do! st_ensure (bool_decide (rq_approval_id request = approval_id)
                 && bool_decide (rq_tool_call_id request = tool_call_id)
                 && bool_decide (rq_session_id request = session_id)
                 && bool_decide (rq_expires_at request = expires_at)
                 && bool_decide (rq_created_at request = env_timestamp record)
                 && bool_decide (rq_profile_id request = ac_profile_id context)
                 && bool_decide (tn_str (rq_tool_name request) = ac_tool_name context))
        CanonicalApprovalMismatch in
  let! previous := st_gets (λ s, as_requests s !! approval_id) in
  do! st_modify (insert_request approval_id request) in
  st_ensure (bool_decide (previous = None)) DuplicateApprovalArtifact.

(** The [||] chain inserts the resolution only after the field tests pass. *)
Definition apply_resolution (record : RecordEnvelope) (resolution : ApprovalResolution)
    (approval_id : ApprovalId) (decision : ApprovalDecision) : artifact_m unit :=
  let! requests := st_gets as_requests in
  let! request := st_lift (ok_or (requests !! approval_id) MissingApprovalRequest) in
  do! st_ensure (bool_decide (rq_approval_id (rs_request resolution) = approval_id)
                 && bool_decide (rs_decision resolution = decision)
                 && bool_decide (rs_decided_at resolution = env_timestamp record)
                 && bool_decide (request = rs_request resolution))
        ApprovalResolutionMismatch in
  let! resolutions := st_gets as_resolutions in
  do! st_modify (insert_resolution approval_id) in
  st_ensure (negb (bool_decide (approval_id ∈ resolutions))) ApprovalResolutionMismatch.

Notation ResolutionIndex := (gmap RecordId ApprovalResolution).

Definition apply_approval (session_id : SessionId)
    (record_index : gmap RecordId RecordEnvelope) (contexts : gmap ApprovalId ApprovalContext)
    (resolutions : ResolutionIndex) (entry : ApprovalArtifactEntry)
    : artifact_m ResolutionIndex :=
  let! record := st_lift (ok_or (record_index !! entry_record_id entry)
                            MissingCanonicalRecord) in
  match entry, env_record record with
  | ArtifactRequested _ request _, ApprovalRequested approval_id tool_call_id expires_at =>
      do! apply_request session_id record request approval_id tool_call_id expires_at
            contexts in
      st_ret resolutions
  | ArtifactResolved _ resolution, ApprovalResolved approval_id decision =>
      do! apply_resolution record resolution approval_id decision in
      st_ret (<[env_record_id record := resolution]> resolutions)
  | _, _ => st_throw CanonicalApprovalMismatch
  end.

Fixpoint apply_approvals (session_id : SessionId)
    (record_index : gmap RecordId RecordEnvelope) (contexts : gmap ApprovalId ApprovalContext)
    (resolutions : ResolutionIndex) (approvals : list ApprovalArtifactEntry)
    : artifact_m ResolutionIndex :=
  match approvals with
  | [] => st_ret resolutions
  | entry :: rest =>
      let! resolutions := apply_approval session_id record_index contexts resolutions entry in
      apply_approvals session_id record_index contexts resolutions rest
  end.

(** The serialized forms with [revokedAt] set to null are equal. *)
Definition same_grant_before_revocation (issued revoked : PolicyGrant) : bool :=
  bool_decide (set_revoked_at issued None = set_revoked_at revoked None).

Definition apply_revocation (grant : PolicyGrant) : artifact_m unit :=
  let! grants := st_gets as_grants in
  let! issued := st_lift (ok_or (grants !! gr_id grant) UnknownGrant) in
  do! st_ensure (bool_decide (gr_revoked_at issued = None)
                 && negb (bool_decide (gr_revoked_at grant = None))
                 && same_grant_before_revocation issued grant) InvalidRevocation in
  st_modify (insert_grant grant).

Definition apply_grant (resolutions : ResolutionIndex) (issued : gset RecordId)
    (entry : GrantJournalEntry) : artifact_m (gset RecordId) :=
  match entry with
  | GrantIssued approval_record_id grant =>
      let! resolution := st_lift (ok_or (resolutions !! approval_record_id)
                                    GrantWithoutResolution) in
      do! st_ensure (bool_decide (rs_issued_grant resolution = Some grant)
                     && bool_decide (gr_revoked_at grant = None)) ArtifactGrantMismatch in
      let! previous := st_gets (λ s, as_grants s !! gr_id grant) in
      do! st_modify (insert_grant grant) in
      do! st_ensure (bool_decide (previous = None)) DuplicateGrant in
      st_ret ({[approval_record_id]} ∪ issued)
  | GrantRevoked grant =>
      do! apply_revocation grant in
      st_ret issued
  end.

Fixpoint apply_grant_entries (resolutions : ResolutionIndex) (issued : gset RecordId)
    (grants : list GrantJournalEntry) : artifact_m (gset RecordId) :=
  match grants with
  | [] => st_ret issued
  | entry :: rest =>
      let! issued := apply_grant resolutions issued entry in
      apply_grant_entries resolutions issued rest
  end.

(** The closing test: every resolution that issued a grant has its journal entry. *)
Definition unjournaled (resolutions : ResolutionIndex) (issued : gset RecordId) : bool :=
  existsb (λ kv, bool_decide (is_Some (rs_issued_grant kv.2))
                 && negb (bool_decide (kv.1 ∈ issued))) (map_to_list resolutions).

Definition apply_grants (grants : list GrantJournalEntry) (resolutions : ResolutionIndex)
    : artifact_m unit :=
  let! issued := apply_grant_entries resolutions ∅ grants in
  st_ensure (negb (unjournaled resolutions issued)) MissingGrantJournalEntry.

(** One record of the [approval_contexts] loop. *)
Definition context_of (reducer : SessionReducer) (record : RecordEnvelope)
    (contexts : gmap ApprovalId ApprovalContext)
    : Result ArtifactValidationError (gmap ApprovalId ApprovalContext) :=
  match env_record record with
  | ApprovalRequested approval_id tool_call_id _ =>
      let? state := ok_or (r_state reducer) InvalidCanonicalLog in
      let? tool := ok_or (st_tool_calls state !! tool_call_id) InvalidCanonicalLog in
      Ok (<[approval_id := mk_ApprovalContext (cfg_profile_id (st_configuration state))
                             (tc_tool_name tool)]> contexts)
  | _ => Ok contexts
  end.

Fixpoint contexts_from (reducer : SessionReducer)
    (contexts : gmap ApprovalId ApprovalContext) (records : list RecordEnvelope)
    : option (Result ArtifactValidationError (gmap ApprovalId ApprovalContext)) :=
  match records with
  | [] => Some (Ok contexts)
  | record :: rest =>
      match apply reducer record with
      | None => None
      | Some (Err _, _) => Some (Err InvalidCanonicalLog)
      | Some (Ok _, reducer) =>
          match context_of reducer record contexts with
          | Err e => Some (Err e)
          | Ok contexts => contexts_from reducer contexts rest
          end
      end
  end.

Definition approval_contexts (records : list RecordEnvelope)
    : option (Result ArtifactValidationError (gmap ApprovalId ApprovalContext)) :=
  contexts_from reducer_new ∅ records.

Definition record_index (records : list RecordEnvelope) : gmap RecordId RecordEnvelope :=
  btree_collect ((λ record, (env_record_id record, record)) <$> records).

(** [ArtifactState::apply]. *)
Definition artifacts_apply (session_id : SessionId)
    (durable_records transaction_records : list RecordEnvelope)
    (approvals : list ApprovalArtifactEntry) (grants : list GrantJournalEntry)
    (s : ArtifactState) : option (Result ArtifactValidationError unit * ArtifactState) :=
  match approval_contexts durable_records with
  | None => None
  | Some contexts =>
      Some ((let! contexts := st_lift contexts in
             let! resolutions := apply_approvals session_id (record_index transaction_records)
                                   contexts ∅ approvals in
             apply_grants grants resolutions) s)
  end.

(** ** Specification *)

(** A grant of the state after some transactions, from its value before. *)
Definition grant_evolves (g g' : PolicyGrant) : Prop :=
  set_revoked_at g' None = set_revoked_at g None ∧ (gr_revoked_at g ≠ None → g' = g).

(** ** Lemmas: an accepted application is the trusted rebuild of its entries *)

Lemma apply_request_ok sid record request aid tid exp contexts s u s' :
  apply_request sid record request aid tid exp contexts s = (Ok u, s') →
  s' = insert_request (rq_approval_id request) request s ∧
  rq_approval_id request = aid ∧ as_requests s !! aid = None.
Proof. unfold apply_request. intros H. st_inv. bool_prop. by subst. Qed.

Lemma apply_resolution_ok record resolution aid decision s u s' :
  apply_resolution record resolution aid decision s = (Ok u, s') →
  s' = insert_resolution (rq_approval_id (rs_request resolution)) s ∧
  rs_decision resolution = decision ∧ rs_decided_at resolution = env_timestamp record ∧
  aid ∉ as_resolutions s.
Proof. unfold apply_resolution. intros H. st_inv. bool_prop. by subst. Qed.

Lemma apply_approval_ok sid index contexts resolutions entry s resolutions' s' :
  apply_approval sid index contexts resolutions entry s = (Ok resolutions', s') →
  s' = rebuild_approval s entry.
Proof.
  unfold apply_approval. intros H. st_inv. rename select (index !! _ = _) into Hi.
  destruct entry as [rid request fmt|rid resolution], (env_record a); st_inv; try done.
  - rename select (apply_request _ _ _ _ _ _ _ _ = _) into Hr.
    by apply apply_request_ok in Hr as [-> _].
  - rename select (apply_resolution _ _ _ _ _ = _) into Hr.
    by apply apply_resolution_ok in Hr as [-> _].
Qed.

Lemma apply_approvals_ok sid index contexts approvals resolutions s resolutions' s' :
  apply_approvals sid index contexts resolutions approvals s = (Ok resolutions', s') →
  s' = foldl rebuild_approval s approvals.
Proof.
  revert resolutions s. induction approvals as [|entry approvals IH]; intros resolutions s;
    simpl; intros H; st_inv; [done|].
  rename select (apply_approval _ _ _ _ _ _ = _) into Ha.
  apply apply_approval_ok in Ha as ->. by apply IH in H.
Qed.

Lemma apply_grant_ok resolutions issued entry s issued' s' :
  apply_grant resolutions issued entry s = (Ok issued', s') →
  s' = rebuild_grant s entry ∧
  match entry with
  | GrantIssued rid g => as_grants s !! gr_id g = None ∧ gr_revoked_at g = None ∧
      ∃ r, resolutions !! rid = Some r ∧ rs_issued_grant r = Some g
  | GrantRevoked g => ∃ g0, as_grants s !! gr_id g = Some g0 ∧ gr_revoked_at g0 = None ∧
      gr_revoked_at g ≠ None ∧ set_revoked_at g None = set_revoked_at g0 None
  end.
Proof.
  destruct entry as [rid g|g]; unfold apply_grant, apply_revocation, same_grant_before_revocation;
    intros H; st_inv; bool_prop; (split; [done|]); eauto 10.
Qed.

Lemma apply_grant_entries_ok resolutions grants issued s issued' s' :
  apply_grant_entries resolutions issued grants s = (Ok issued', s') →
  s' = foldl rebuild_grant s grants.
Proof.
  revert issued s. induction grants as [|entry grants IH]; intros issued s; simpl; intros H;
    st_inv; [done|].
  rename select (apply_grant _ _ _ _ = _) into Ha. apply apply_grant_ok in Ha as [-> _].
  by apply IH in H.
Qed.

Lemma artifacts_apply_ok sid durable records approvals grants s u s' :
  artifacts_apply sid durable records approvals grants s = Some (Ok u, s') →
  ∃ contexts resolutions issued s1,
    approval_contexts durable = Some (Ok contexts) ∧
    apply_approvals sid (record_index records) contexts ∅ approvals s = (Ok resolutions, s1) ∧
    apply_grant_entries resolutions ∅ grants s1 = (Ok issued, s') ∧
    unjournaled resolutions issued = false.
Proof.
  unfold artifacts_apply. destruct (approval_contexts durable) as [contexts|]; [|done].
  intros [= H]. st_inv. unfold apply_grants in H. st_inv. bool_prop. eauto 10.
Qed.

Lemma artifacts_apply_rebuild sid durable records approvals grants s u s' :
  artifacts_apply sid durable records approvals grants s = Some (Ok u, s') →
  s' = foldl rebuild_grant (foldl rebuild_approval s approvals) grants.
Proof.
  intros (contexts & res & issued & s1 & _ & Ha & Hg & _)%artifacts_apply_ok.
  apply apply_approvals_ok in Ha as ->. by apply apply_grant_entries_ok in Hg.
Qed.

(** Approvals and grants write different parts of the state. *)
Lemma rebuild_commute s grants approval :
  rebuild_approval (foldl rebuild_grant s grants) approval =
  foldl rebuild_grant (rebuild_approval s approval) grants.
Proof.
  revert s. induction grants as [|g grants IH]; intros s; simpl; [done|].
  rewrite IH. f_equal. by destruct approval, g.
Qed.

Lemma rebuild_commute_all s grants approvals :
  foldl rebuild_approval (foldl rebuild_grant s grants) approvals =
  foldl rebuild_grant (foldl rebuild_approval s approvals) grants.
Proof.
  revert s. induction approvals as [|a approvals IH]; intros s; simpl; [done|].
  by rewrite rebuild_commute, IH.
Qed.

Lemma rebuild_app a1 a2 g1 g2 :
  rebuild_from_journals (a1 ++ a2) (g1 ++ g2) =
  foldl rebuild_grant (foldl rebuild_approval (rebuild_from_journals a1 g1) a2) g2.
Proof.
  unfold rebuild_from_journals. by rewrite !foldl_app, rebuild_commute_all.
Qed.

(** Approval entries leave the grants alone. *)
Lemma rebuild_approvals_grants s approvals :
  as_grants (foldl rebuild_approval s approvals) = as_grants s.
Proof.
  revert s. induction approvals as [|a approvals IH]; intros s; simpl; [done|].
  rewrite IH. by destruct a.
Qed.

Lemma grant_evolves_refl g : grant_evolves g g.
Proof. by split. Qed.

Lemma grant_evolves_trans a b c : grant_evolves a b → grant_evolves b c → grant_evolves a c.
Proof.
  intros [H1 H2] [H3 H4]. split; [congruence|]. intros Ha. rewrite <- (H2 Ha). apply H4.
  by rewrite (H2 Ha).
Qed.

Lemma apply_grant_evolves resolutions issued entry s issued' s' id g :
  apply_grant resolutions issued entry s = (Ok issued', s') →
  as_grants s !! id = Some g → ∃ g', as_grants s' !! id = Some g' ∧ grant_evolves g g'.
Proof.
  intros [-> H]%apply_grant_ok Hg. simpl.
  destruct (decide (gr_id (entry_grant entry) = id)) as [<-|Hne].
  - rewrite lookup_insert_eq. eexists. split; [done|].
    destruct entry as [rid g1|g1]; simpl in *; [naive_solver|].
    destruct H as (g0 & H0 & Hn & Hr & Hs). assert (g0 = g) as -> by congruence. by split.
  - rewrite lookup_insert_ne by done. eauto using grant_evolves_refl.
Qed.

Lemma apply_grant_entries_evolves resolutions grants issued s issued' s' id g :
  apply_grant_entries resolutions issued grants s = (Ok issued', s') →
  as_grants s !! id = Some g → ∃ g', as_grants s' !! id = Some g' ∧ grant_evolves g g'.
Proof.
  revert issued s g. induction grants as [|entry grants IH]; intros issued s g; simpl;
    intros H Hg; st_inv; [eauto using grant_evolves_refl|].
  rename select (apply_grant _ _ _ _ = _) into Ha.
  destruct (apply_grant_evolves _ _ _ _ _ _ _ _ Ha Hg) as (g1 & Hg1 & He1).
  destruct (IH _ _ _ H Hg1) as (g2 & Hg2 & He2). eauto using grant_evolves_trans.
Qed.

Lemma artifacts_apply_evolves sid durable records approvals grants s u s' id g :
  artifacts_apply sid durable records approvals grants s = Some (Ok u, s') →
  as_grants s !! id = Some g → ∃ g', as_grants s' !! id = Some g' ∧ grant_evolves g g'.
Proof.
  intros (contexts & res & issued & s1 & _ & Ha & Hg & _)%artifacts_apply_ok Hl.
  apply apply_approvals_ok in Ha as ->.
  eapply apply_grant_entries_evolves; [done|]. by rewrite rebuild_approvals_grants.
Qed.

(** The listed grants are the unrevoked grants of the state. *)
Lemma elem_of_active_grants s g :
  g ∈ active_grants s ↔ ∃ id, as_grants s !! id = Some g ∧ gr_revoked_at g = None.
Proof.
  unfold active_grants. rewrite list_elem_of_filter. unfold is_active. rewrite list_elem_of_fmap.
  unfold btree_entries. setoid_rewrite elem_of_stable_sort. split.
  - intros (Ha & [id g'] & -> & Hin). apply bool_decide_unpack in Ha. simpl.
    apply elem_of_map_to_list in Hin. eauto.
  - intros (id & Hl & Ha). split; [by apply bool_decide_pack|]. exists (id, g). split; [done|].
    by apply elem_of_map_to_list.
Qed.
