(* ===== verification/Store.v ===== *)
(** * Session storage: transactions and the in-memory store

    [crates/tea-session]: the append engine every store shares
    ([store_engine.rs]), transactions and snapshots ([store.rs]), stable store
    errors ([error.rs]), the reference store ([memory.rs]) and its catalog
    ([catalog.rs]).  A lock is never poisoned here: poisoning needs a panic
    while it is held, and the outer [option] of every operation (the panic of
    an [expect]) is proved to be [Some].  The text of an error that a replay or
    artifact failure causes is that failure. *)

From S2P Require Import Prelude Protocol Tools Policy Approval SessionState Reducer.
From S2P Require Import Artifact.
Local Open Scope tea_scope.

(** ** Errors ([error.rs]) *)

Inductive SessionStoreErrorCode : Set :=
| SessionNotFound | SessionAlreadyExists | SequenceConflict | InvalidRecordCode
| InvalidReferenceCode | UnsupportedSchemaVersion | CorruptionDetected | TransactionFailed
| StorageUnavailable.

#[export] Instance SessionStoreErrorCode_eq_dec : EqDecision SessionStoreErrorCode.
Proof. solve_decision. Defined.

Inductive StoreDiagnostic : Set :=
| DiagnosticText (message : string)
| DiagnosticReplay (error : SessionReplayError)
| DiagnosticArtifact (error : ArtifactValidationError).

Record SessionStoreError : Set := mk_SessionStoreError {
  se_code : SessionStoreErrorCode;
  se_message : StoreDiagnostic
}.

Definition replay_store_code (e : SessionReplayError) : SessionStoreErrorCode :=
  match e with
  | InvalidReference _ => InvalidReferenceCode
  | SequenceMismatch _ _ | SequenceOverflow | DuplicateRecord _ | DuplicateEntity _
  | SessionMismatch _ _ | EmptyLog | InvalidCreation => CorruptionDetected
  | InvalidTransition _ => InvalidRecordCode
  end.

(** [From<SessionReplayError>]. *)
Definition from_replay_error (e : SessionReplayError) : SessionStoreError :=
  mk_SessionStoreError (replay_store_code e) (DiagnosticReplay e).

Definition artifact_store_code (e : ArtifactValidationError) : SessionStoreErrorCode :=
  match e with
  | MissingCanonicalRecord | MissingApprovalRequest | GrantWithoutResolution | UnknownGrant =>
      InvalidReferenceCode
  | InvalidCanonicalLog | CanonicalApprovalMismatch | DuplicateApprovalArtifact
  | ApprovalResolutionMismatch | MissingGrantJournalEntry | ArtifactGrantMismatch
  | DuplicateGrant | InvalidRevocation => InvalidRecordCode
  end.

Definition from_artifact_error (e : ArtifactValidationError) : SessionStoreError :=
  mk_SessionStoreError (artifact_store_code e) (DiagnosticArtifact e).

Definition store_error (code : SessionStoreErrorCode) (message : string) : SessionStoreError :=
  mk_SessionStoreError code (DiagnosticText message).

Definition sequence_conflict (message : string) : SessionStoreError :=
  store_error SequenceConflict message.

Definition missing_materialized_state : SessionStoreError :=
  store_error CorruptionDetected "stored session is missing materialized state".

(** ** Transactions and snapshots ([store.rs]) *)

Record AppendTransaction : Set := mk_AppendTransaction {
  tx_session_id : SessionId;
  tx_expected_sequence : option SessionSequence;
  tx_records : list RecordEnvelope;
  tx_expected_journal_revision : option N;
  tx_approval_artifacts : list ApprovalArtifactEntry;
  tx_grant_entries : list GrantJournalEntry
}.

Record AppendOutcome : Set := mk_AppendOutcome {
  ao_previous_sequence : option SessionSequence;
  ao_current_sequence : SessionSequence;
  ao_state : MaterializedSessionState;
  ao_journal_revision : N
}.

Record SessionSnapshot : Set := mk_SessionSnapshot {
  sn_records : list RecordEnvelope;
  sn_state : MaterializedSessionState;
  sn_approval_artifacts : list ApprovalArtifactEntry;
  sn_grant_journal : list GrantJournalEntry;
  sn_active_grants : list PolicyGrant;
  sn_journal_revision : N
}.

(** ** The stored session ([store_engine.rs]) *)

Record StoredSession : Set := mk_StoredSession {
  sd_records : list RecordEnvelope;
  sd_approval_artifacts : list ApprovalArtifactEntry;
  sd_grant_journal : list GrantJournalEntry;
  sd_artifacts : ArtifactState;
  sd_journal_revision : N;
  sd_reducer : SessionReducer
}.

Definition stored_default : StoredSession :=
  mk_StoredSession [] [] [] artifacts_default 0 reducer_new.

Definition set_sd_reducer (r : SessionReducer) (s : StoredSession) : StoredSession :=
  mk_StoredSession (sd_records s) (sd_approval_artifacts s) (sd_grant_journal s)
    (sd_artifacts s) (sd_journal_revision s) r.

(** [usize] lengths on a 64-bit target. *)
Definition list_len {A} (l : list A) : N := N.of_nat (length l).

(** [checked_add] of two lengths, then [u64::try_from]. *)
Definition entry_count {A B} (a : list A) (b : list B) (message : string)
    : Result SessionStoreError N :=
  ok_or (checked_add_u64 (list_len a) (list_len b)) (sequence_conflict message).

Definition from_durable_facts (records : list RecordEnvelope)
    (approval_artifacts : list ApprovalArtifactEntry) (grant_journal : list GrantJournalEntry)
    : option (Result SessionStoreError StoredSession) :=
  match replay_reducer records with
  | None => None
  | Some replayed => Some (
      let? reducer := map_err from_replay_error replayed in
      let? journal_revision := entry_count approval_artifacts grant_journal
                                 "policy journal revision is out of range" in
      Ok (mk_StoredSession records approval_artifacts grant_journal
            (rebuild_from_journals approval_artifacts grant_journal) journal_revision reducer))
  end.

(** [StoredSession::snapshot]; [None] is the [expect] of [state]. *)
Definition snapshot (s : StoredSession) : option SessionSnapshot :=
  (λ state, mk_SessionSnapshot (sd_records s) state (sd_approval_artifacts s)
              (sd_grant_journal s) (active_grants (sd_artifacts s)) (sd_journal_revision s))
    <$> r_state (sd_reducer s).

(** ** Validation of a transaction *)

Definition validate_transaction_shape (tx : AppendTransaction) : Result SessionStoreError unit :=
  try? ensure (negb (is_empty (tx_records tx) && is_empty (tx_approval_artifacts tx)
                     && is_empty (tx_grant_entries tx)))
         (store_error InvalidRecordCode
            "append transaction must contain a canonical or typed journal fact") in
  ensure (forallb (λ record, bool_decide (env_session_id record = tx_session_id tx))
            (tx_records tx))
    (store_error InvalidRecordCode "append transaction contains another session").

Definition validate_expectation (existing : option StoredSession) (tx : AppendTransaction)
    : Result SessionStoreError unit :=
  let existing_records := match existing with Some s => sd_records s | None => [] end in
  match is_empty existing_records, tx_expected_sequence tx with
  | true, None =>
      let? first := ok_or (head (tx_records tx))
                      (store_error InvalidRecordCode
                         "session creation requires a canonical creation record") in
      ensure (bool_decide (env_sequence first = SessionSequence_new 0))
        (sequence_conflict "new session must begin at sequence zero")
  | true, Some _ =>
      Err (store_error SessionNotFound "cannot append to a missing session")
  | false, None => Err (store_error SessionAlreadyExists "session already exists")
  | false, Some expected =>
      let stored_tail := match last existing_records with
                         | Some record => env_sequence record
                         | None => SessionSequence_new 0
                         end in
      try? ensure (bool_decide (stored_tail = expected))
             (sequence_conflict "expected session sequence is stale") in
      let? next := ok_or (checked_next expected)
                     (sequence_conflict "session sequence cannot advance") in
      ensure (match head (tx_records tx) with
              | Some record => bool_decide (env_sequence record = next)
              | None => true
              end)
        (sequence_conflict "first appended record does not follow expected sequence")
  end.

Definition grant_already_issued : SessionStoreError :=
  store_error InvalidRecordCode "grant identity is already issued".

(** The loop of [validate_global_grant_ids]. *)
Fixpoint check_grant_ids (in_use : GrantId → bool) (seen_in_batch : gset GrantId)
    (entries : list GrantJournalEntry) : Result SessionStoreError unit :=
  match entries with
  | [] => Ok tt
  | GrantRevoked _ :: rest => check_grant_ids in_use seen_in_batch rest
  | GrantIssued _ grant :: rest =>
      try? ensure (negb (bool_decide (gr_id grant ∈ seen_in_batch))) grant_already_issued in
      try? ensure (negb (in_use (gr_id grant))) grant_already_issued in
      check_grant_ids in_use ({[gr_id grant]} ∪ seen_in_batch) rest
  end.

Definition journal_holds (id : GrantId) (journal : list GrantJournalEntry) : bool :=
  existsb (λ entry, bool_decide (entry_grant_id entry = id)) journal.

Definition validate_global_grant_ids (existing : option StoredSession)
    (entries : list GrantJournalEntry) (grant_id_in_use : GrantId → bool)
    : Result SessionStoreError unit :=
  check_grant_ids (λ id, grant_id_in_use id
                         || match existing with
                            | Some stored => journal_holds id (sd_grant_journal stored)
                            | None => false
                            end) ∅ entries.

(** ** Applying a transaction in place *)

Definition rebuild_reducer (records : list RecordEnvelope)
    : option (Result SessionStoreError SessionReducer) :=
  match records with
  | [] => Some (Ok reducer_new)
  | _ => map_err from_replay_error <$> replay_reducer records
  end.

(** [stored.reducer = rebuild_reducer(&stored.records)?; return Err(error)]. *)
Definition recover (error : SessionStoreError) (s : StoredSession)
    : option (Result SessionStoreError AppendOutcome * StoredSession) :=
  match rebuild_reducer (sd_records s) with
  | None => None
  | Some (Err e) => Some (Err e, s)
  | Some (Ok reducer) => Some (Err error, set_sd_reducer reducer s)
  end.

(** The record loop: the reducer after the records, or the first error with
    the reducer it leaves behind. *)
Fixpoint apply_records (r : SessionReducer) (records : list RecordEnvelope)
    : option (Result SessionReplayError unit * SessionReducer) :=
  match records with
  | [] => Some (Ok tt, r)
  | record :: rest =>
      match apply r record with
      | None => None
      | Some (Err e, r') => Some (Err e, r')
      | Some (Ok _, r') => apply_records r' rest
      end
  end.

(** The guards before the first mutation: the previous sequence and the
    journal revision after the transaction. *)
Definition admit_transaction (tx : AppendTransaction) (stored : StoredSession) (existed : bool)
    (grant_id_in_use : GrantId → bool)
    : Result SessionStoreError (option SessionSequence * N) :=
  let existing := if existed then Some stored else None in
  try? validate_transaction_shape tx in
  try? validate_expectation existing tx in
  try? validate_global_grant_ids existing (tx_grant_entries tx) grant_id_in_use in
  let? previous_sequence :=
    if existed
    then let? state := ok_or (r_state (sd_reducer stored)) missing_materialized_state in
         Ok (Some (st_tail_sequence state))
    else Ok None in
  let? journal_entries := entry_count (tx_approval_artifacts tx) (tx_grant_entries tx)
                            "policy journal entry count is out of range" in
  try? ensure (negb ((0 <? journal_entries)%N
                     && negb (bool_decide (tx_expected_journal_revision tx
                                           = Some (sd_journal_revision stored)))))
         (sequence_conflict "expected policy journal revision is stale") in
  let? journal_revision := ok_or (checked_add_u64 (sd_journal_revision stored) journal_entries)
                             (sequence_conflict "policy journal revision cannot advance") in
  Ok (previous_sequence, journal_revision).

Definition extend_records (s : StoredSession) (records : list RecordEnvelope)
    (r : SessionReducer) : StoredSession :=
  mk_StoredSession (sd_records s ++ records) (sd_approval_artifacts s) (sd_grant_journal s)
    (sd_artifacts s) (sd_journal_revision s) r.

(** [stored.records.truncate(original_record_len)]. *)
Definition truncate_records (s : StoredSession) (len : nat) : StoredSession :=
  mk_StoredSession (take len (sd_records s)) (sd_approval_artifacts s) (sd_grant_journal s)
    (sd_artifacts s) (sd_journal_revision s) (sd_reducer s).

Definition apply_transaction_in_place (tx : AppendTransaction) (stored : StoredSession)
    (existed : bool) (grant_id_in_use : GrantId → bool)
    : option (Result SessionStoreError AppendOutcome * StoredSession) :=
  match admit_transaction tx stored existed grant_id_in_use with
  | Err e => Some (Err e, stored)
  | Ok (previous_sequence, journal_revision) =>
      match apply_records (sd_reducer stored) (tx_records tx) with
      | None => None
      | Some (Err error, r) => recover (from_replay_error error) (set_sd_reducer r stored)
      | Some (Ok _, r) =>
          let original_record_len := length (sd_records stored) in
          let extended := extend_records stored (tx_records tx) r in
          match artifacts_apply (tx_session_id tx) (sd_records extended) (tx_records tx)
                  (tx_approval_artifacts tx) (tx_grant_entries tx) (sd_artifacts extended) with
          | None => None
          | Some (Err error, _) =>
              recover (from_artifact_error error)
                (truncate_records extended original_record_len)
          | Some (Ok _, artifacts) =>
              let applied := mk_StoredSession (sd_records extended)
                (sd_approval_artifacts stored ++ tx_approval_artifacts tx)
                (sd_grant_journal stored ++ tx_grant_entries tx) artifacts journal_revision r in
              match r_state r with
              | None => Some (Err missing_materialized_state, applied)
              | Some state =>
                  Some (Ok (mk_AppendOutcome previous_sequence (st_tail_sequence state) state
                              journal_revision), applied)
              end
          end
      end
  end.

(** [apply_transaction]: on a clone of the existing view. *)
Definition apply_transaction (tx : AppendTransaction) (existing : option StoredSession)
    (grant_id_in_use : GrantId → bool)
    : option (Result SessionStoreError (StoredSession * AppendOutcome)) :=
  match apply_transaction_in_place tx (default stored_default existing)
          (bool_decide (is_Some existing)) grant_id_in_use with
  | None => None
  | Some (Err e, _) => Some (Err e)
  | Some (Ok outcome, stored) => Some (Ok (stored, outcome))
  end.

(** ** The in-memory store ([memory.rs]) *)

Record SessionName : Set := mk_SessionName { name_str : string }.

Record InMemorySessionStore : Set := mk_InMemorySessionStore {
  ms_sessions : gmap SessionId StoredSession;
  ms_names : gmap SessionId SessionName
}.

Definition store_new : InMemorySessionStore := mk_InMemorySessionStore ∅ ∅.

(** The ids every journal of the store mentions. *)
Definition known_grant_ids (sessions : gmap SessionId StoredSession) : gset GrantId :=
  list_to_set (map_to_list sessions ≫= λ kv, entry_grant_id <$> sd_grant_journal kv.2).

(** [append_sync]: the entry is created first and removed on failure. *)
Definition append (store : InMemorySessionStore) (tx : AppendTransaction)
    : option (Result SessionStoreError AppendOutcome * InMemorySessionStore) :=
  let sessions := ms_sessions store in
  let known := known_grant_ids sessions in
  let existed := bool_decide (is_Some (sessions !! tx_session_id tx)) in
  let stored := default stored_default (sessions !! tx_session_id tx) in
  match apply_transaction_in_place tx stored existed (λ id, bool_decide (id ∈ known)) with
  | None => None
  | Some (outcome, stored) =>
      let sessions := <[tx_session_id tx := stored]> sessions in
      let sessions := if negb (is_ok outcome) && negb existed
                      then delete (tx_session_id tx) sessions else sessions in
      Some (outcome, mk_InMemorySessionStore sessions (ms_names store))
  end.

Definition session_missing : SessionStoreError :=
  store_error SessionNotFound "session does not exist".

(** [SessionStore::load]; the outer [option] is a panic. *)
Definition load (store : InMemorySessionStore) (session_id : SessionId)
    : option (Result SessionStoreError SessionSnapshot) :=
  match ms_sessions store !! session_id with
  | None => Some (Err session_missing)
  | Some stored => Ok <$> snapshot stored
  end.

Definition session_key_leb (a b : SessionId) : bool := (as_uuid a <=? as_uuid b)%N.

Definition active_grants_for_actor (store : InMemorySessionStore) (actor_id : ActorId)
    : list PolicyGrant :=
  dedup grant_id_same (stable_sort grant_id_leb
    (filter (λ g, gr_actor_id g = actor_id)
       (btree_entries session_key_leb (ms_sessions store) ≫=
          λ kv, active_grants (sd_artifacts kv.2)))).

Definition set_session_name (store : InMemorySessionStore) (session_id : SessionId)
    (name : option SessionName) : Result SessionStoreError unit * InMemorySessionStore :=
  match ms_sessions store !! session_id with
  | None => (Err session_missing, store)
  | Some _ =>
      (Ok tt, mk_InMemorySessionStore (ms_sessions store)
                (match name with
                 | Some name => <[session_id := name]> (ms_names store)
                 | None => delete session_id (ms_names store)
                 end))
  end.

Definition session_name (store : InMemorySessionStore) (session_id : SessionId)
    : Result SessionStoreError (option SessionName) :=
  match ms_sessions store !! session_id with
  | None => Err session_missing
  | Some _ => Ok (ms_names store !! session_id)
  end.
