(* ===== verification/StoreTheorems.v ===== *)
(** * Correctness of session storage

    A stored session is always what its durable facts rebuild; a transaction
    is all or nothing; a stale writer never wins; and a grant exists only for a
    durable approval that issued it. *)

From S2P Require Import Prelude Protocol Tools Policy Approval SessionState Reducer.
From S2P Require Import ReducerReplay ReducerSteps SessionInvariants SessionHeads.
From S2P Require Import SessionTheorems Artifact Store.
Local Open Scope tea_scope.

(** ** Invariants *)

(** The journal fact [GrantIssued rid g] is backed by a durable resolution. *)
Definition issue_justified (s : StoredSession) (rid : RecordId) (g : PolicyGrant) : Prop :=
  ∃ resolution approval_id record,
    ArtifactResolved rid resolution ∈ sd_approval_artifacts s ∧
    rs_issued_grant resolution = Some g ∧
    record ∈ sd_records s ∧ env_record_id record = rid ∧
    env_record record = ApprovalResolved approval_id (rs_decision resolution).

Record stored_wf (s : StoredSession) : Prop := mk_stored_wf {
  sdw_reducer : reachable (sd_reducer s);
  sdw_records : r_records (sd_reducer s) = sd_records s;
  sdw_artifacts : sd_artifacts s =
    rebuild_from_journals (sd_approval_artifacts s) (sd_grant_journal s);
  sdw_revision :
    checked_add_u64 (list_len (sd_approval_artifacts s)) (list_len (sd_grant_journal s)) =
      Some (sd_journal_revision s);
  sdw_issued : ∀ rid g, GrantIssued rid g ∈ sd_grant_journal s → issue_justified s rid g
}.

(** The grant ids a journal issues, with multiplicity. *)
Definition issued_ids (journal : list GrantJournalEntry) : list GrantId :=
  omap (λ e, match e with GrantIssued _ g => Some (gr_id g) | GrantRevoked _ => None end) journal.

Record store_wf (m : InMemorySessionStore) : Prop := mk_store_wf {
  mw_sessions : ∀ id s, ms_sessions m !! id = Some s →
    stored_wf s ∧ ∃ state, r_state (sd_reducer s) = Some state ∧ st_session_id state = id;
  mw_grants : ∀ id1 id2 s1 s2 g, ms_sessions m !! id1 = Some s1 → ms_sessions m !! id2 = Some s2 →
    g ∈ issued_ids (sd_grant_journal s1) → g ∈ issued_ids (sd_grant_journal s2) → id1 = id2;
  mw_grants_once : ∀ id s, ms_sessions m !! id = Some s → NoDup (issued_ids (sd_grant_journal s))
}.

(** ** The record loop *)

Lemma apply_records_spec r records :
  reachable r →
  ∃ res r', apply_records r records = Some (res, r') ∧ reachable r' ∧
    match res with
    | Ok _ => r_records r' = r_records r ++ records
    | Err _ => True
    end.
Proof.
  revert r. induction records as [|e records IH]; intros r Hr; simpl.
  { eexists _, r. split; [done|]. split; [done|]. by rewrite app_nil_r. }
  destruct (apply_cases r e (reachable_replayed _ Hr)) as [(r2 & Ha & Hap)|(er & r2 & Hi & Hap)];
    rewrite Hap; [|by exists (Err er), r].
  destruct (IH r2) as (res & r' & -> & Hr' & Hres); [by eapply reachable_apply|].
  exists res, r'. split_and!; [done|done|]. destruct res; [|done].
  rewrite Hres, (accept_records _ _ _ _ Ha). by rewrite <- app_assoc.
Qed.

(** Two reachable reducers with the same records are the same. *)
Lemma reachable_eq r1 r2 :
  reachable r1 → reachable r2 → r_records r1 = r_records r2 → r1 = r2.
Proof.
  intros H1%reachable_replayed H2%reachable_replayed Heq. unfold replayed in *.
  rewrite Heq in H1. congruence.
Qed.

Lemma rebuild_reducer_ok r :
  reachable r → rebuild_reducer (r_records r) = Some (Ok r).
Proof.
  intros Hr. destruct (r_records r) as [|e l] eqn:Hrec.
  - simpl. do 2 f_equal. apply (reachable_eq reducer_new r); [apply reachable_new|done|done].
  - unfold rebuild_reducer. rewrite <- Hrec. unfold replay_reducer.
    rewrite (apply_all_accept _ _ _ reachable_new (reachable_replayed _ Hr)).
    assert (is_Some (r_state r)) as [s ->] by (apply reachable_state; [done|by rewrite Hrec]).
    done.
Qed.

(** Recovery after a failed transaction gives the session before it. *)
Lemma recover_ok error s stored :
  stored_wf stored →
  sd_records s = sd_records stored → set_sd_reducer (sd_reducer stored) s = stored →
  recover error s = Some (Err error, stored).
Proof.
  intros Hwf Hrec Hs. unfold recover. rewrite Hrec, <- (sdw_records _ Hwf).
  rewrite rebuild_reducer_ok by apply Hwf. by rewrite Hs.
Qed.

Lemma contexts_from_total r contexts records :
  reachable r → ∃ res, contexts_from r contexts records = Some res.
Proof.
  revert r contexts. induction records as [|e records IH]; intros r contexts Hr; simpl; [eauto|].
  destruct (apply_cases r e (reachable_replayed _ Hr)) as [(r2 & Ha & Hap)|(er & r2 & Hi & Hap)];
    rewrite Hap; [|eauto].
  destruct (context_of r2 e contexts); [|eauto]. apply IH. by eapply reachable_apply.
Qed.

Lemma artifacts_apply_total sid durable records approvals grants s :
  ∃ res, artifacts_apply sid durable records approvals grants s = Some res.
Proof.
  unfold artifacts_apply, approval_contexts.
  destruct (contexts_from_total reducer_new ∅ durable reachable_new) as [res ->]. eauto.
Qed.

(** ** Justification of issued grants *)

Lemma record_index_Some records rid record :
  record_index records !! rid = Some record → record ∈ records ∧ env_record_id record = rid.
Proof.
  intros (e & [= -> ->] & He)%btree_collect_Some%list_elem_of_fmap. done.
Qed.

(** Every indexed resolution is a journal entry of the transaction, linked to
    its canonical record. *)
Definition resolutions_linked (records : list RecordEnvelope)
    (approvals : list ApprovalArtifactEntry) (resolutions : ResolutionIndex) : Prop :=
  ∀ rid r, resolutions !! rid = Some r →
    ∃ approval_id record, ArtifactResolved rid r ∈ approvals ∧ record ∈ records ∧
      env_record_id record = rid ∧
      env_record record = ApprovalResolved approval_id (rs_decision r).

Lemma apply_approval_linked sid records contexts resolutions entry s resolutions' s' approvals :
  apply_approval sid (record_index records) contexts resolutions entry s =
    (Ok resolutions', s') →
  entry ∈ approvals → resolutions_linked records approvals resolutions →
  resolutions_linked records approvals resolutions'.
Proof.
  unfold apply_approval. intros H Hin Hl. st_inv.
  rename select (record_index _ !! _ = _) into Hi. apply record_index_Some in Hi as [Hrec Hid].
  destruct entry as [rid request fmt|rid resolution], (env_record a) eqn:Henv; st_inv; try done.
  rename select (apply_resolution _ _ _ _ _ = _) into Hr.
  apply apply_resolution_ok in Hr as (_ & Hd & _). simpl in Hid.
  intros rid' r [[<- <-]|[_ Hr']]%lookup_insert_Some; [|by apply Hl].
  exists approval_id, a. rewrite Hid. by subst.
Qed.

Lemma apply_approvals_linked sid records contexts approvals todo resolutions s resolutions' s' :
  apply_approvals sid (record_index records) contexts resolutions todo s =
    (Ok resolutions', s') →
  (∀ e, e ∈ todo → e ∈ approvals) → resolutions_linked records approvals resolutions →
  resolutions_linked records approvals resolutions'.
Proof.
  revert resolutions s. induction todo as [|entry todo IH]; intros resolutions s; simpl;
    intros H Hin Hl; st_inv; [done|].
  rename select (apply_approval _ _ _ _ _ _ = _) into Ha.
  eapply IH; [done|set_solver|]. eapply apply_approval_linked; [done|set_solver|done].
Qed.

Lemma apply_grant_entries_issued resolutions grants issued s issued' s' rid g :
  apply_grant_entries resolutions issued grants s = (Ok issued', s') →
  GrantIssued rid g ∈ grants → ∃ r, resolutions !! rid = Some r ∧ rs_issued_grant r = Some g.
Proof.
  revert issued s. induction grants as [|entry grants IH]; intros issued s; simpl; intros H;
    st_inv; [set_solver|].
  rename select (apply_grant _ _ _ _ = _) into Ha. apply apply_grant_ok in Ha as [_ Ha].
  intros [<-|Hin]%elem_of_cons; [|by eapply IH]. naive_solver.
Qed.

(** ** A transaction *)

(** [admit_transaction] of a session that exists exactly when it has records. *)
Lemma admit_ok tx stored existed in_use previous revision :
  admit_transaction tx stored existed in_use = Ok (previous, revision) →
  validate_transaction_shape tx = Ok tt ∧
  validate_expectation (if existed then Some stored else None) tx = Ok tt ∧
  validate_global_grant_ids (if existed then Some stored else None)
    (tx_grant_entries tx) in_use = Ok tt ∧
  ∃ n, checked_add_u64 (list_len (tx_approval_artifacts tx)) (list_len (tx_grant_entries tx))
         = Some n ∧
    ((0 < n)%N → tx_expected_journal_revision tx = Some (sd_journal_revision stored)) ∧
    checked_add_u64 (sd_journal_revision stored) n = Some revision.
Proof.
  unfold admit_transaction. intros ([] & Hs & H)%result_bind_ok.
  apply result_bind_ok in H as ([] & He & H). apply result_bind_ok in H as ([] & Hg & H).
  apply result_bind_ok in H as (p & _ & H).
  apply result_bind_ok in H as (n & Hn%ok_or_ok & H).
  apply result_bind_ok in H as ([] & Hj%ensure_ok & H).
  apply result_bind_ok in H as (rev & Hrev%ok_or_ok & [= <- <-]).
  split_and!; [done..|]. exists n. split_and!; [done| |done].
  intros Hpos. apply negb_true_iff, andb_false_iff in Hj as [Hj|Hj].
  - apply N.ltb_ge in Hj. lia.
  - apply negb_false_iff, bool_decide_eq_true in Hj. done.
Qed.

Lemma checked_add_Some a b c : checked_add_u64 a b = Some c ↔ c = (a + b)%N ∧ (a + b ≤ U64_MAX)%N.
Proof.
  unfold checked_add_u64. destruct (a + b <=? U64_MAX)%N eqn:H.
  - apply N.leb_le in H. naive_solver.
  - apply N.leb_gt in H. split; [done|]. intros [_ ?]. lia.
Qed.

Lemma list_len_app {A} (l1 l2 : list A) : list_len (l1 ++ l2) = (list_len l1 + list_len l2)%N.
Proof. unfold list_len. rewrite length_app. lia. Qed.

(** The session after an accepted transaction. *)
Definition extended_session (tx : AppendTransaction) (stored s' : StoredSession) : Prop :=
  sd_records s' = sd_records stored ++ tx_records tx ∧
  sd_approval_artifacts s' = sd_approval_artifacts stored ++ tx_approval_artifacts tx ∧
  sd_grant_journal s' = sd_grant_journal stored ++ tx_grant_entries tx.

Lemma issue_justified_mono s s' rid g l1 l2 :
  sd_records s' = sd_records s ++ l1 → sd_approval_artifacts s' = sd_approval_artifacts s ++ l2 →
  issue_justified s rid g → issue_justified s' rid g.
Proof.
  intros Hr Ha (res & aid & rec & H1 & H2 & H3 & H4 & H5). exists res, aid, rec.
  rewrite Hr, Ha. set_solver.
Qed.

Lemma applied_wf tx stored r revision n artifacts :
  stored_wf stored → reachable r → r_records r = sd_records stored ++ tx_records tx →
  checked_add_u64 (list_len (tx_approval_artifacts tx)) (list_len (tx_grant_entries tx)) = Some n →
  checked_add_u64 (sd_journal_revision stored) n = Some revision →
  artifacts_apply (tx_session_id tx) (sd_records stored ++ tx_records tx) (tx_records tx)
    (tx_approval_artifacts tx) (tx_grant_entries tx) (sd_artifacts stored) =
    Some (Ok tt, artifacts) →
  stored_wf (mk_StoredSession (sd_records stored ++ tx_records tx)
    (sd_approval_artifacts stored ++ tx_approval_artifacts tx)
    (sd_grant_journal stored ++ tx_grant_entries tx) artifacts revision r).
Proof.
  intros [Hred Hrec Hart Hrev Hiss] Hr Hrr Hn Hrevision Ha. split; simpl; try done.
  - rewrite rebuild_app, <- Hart. by eapply artifacts_apply_rebuild.
  - rewrite !list_len_app. apply checked_add_Some in Hrev, Hn, Hrevision. apply checked_add_Some.
    lia.
  - intros rid g [Hin|Hin]%elem_of_app.
    + eapply issue_justified_mono; [..|by apply Hiss]; done.
    + apply artifacts_apply_ok in Ha as (contexts & res & issued & s1 & _ & Happ & Hg & _).
      destruct (apply_grant_entries_issued _ _ _ _ _ _ _ _ Hg Hin) as (r0 & Hr0 & Hg0).
      destruct (apply_approvals_linked _ _ _ (tx_approval_artifacts tx) _ _ _ _ _ Happ
        ltac:(done) ltac:(intros ? ? He; by rewrite lookup_empty in He) _ _ Hr0)
        as (aid & rec & H1 & H2 & H3 & H4).
      exists r0, aid, rec. simpl. set_solver.
Qed.

(** An admitted transaction leaves at least one record. *)
Lemma expectation_nonempty existing tx :
  validate_expectation existing tx = Ok tt → tx_records tx = [] →
  match existing with Some s => sd_records s = [] | None => True end → False.
Proof.
  intros He Htx Hs. unfold validate_expectation in He.
  assert (match existing with Some s => sd_records s | None => [] end = []) as Hn
    by by destruct existing.
  rewrite Hn, Htx in He. simpl in He. by destruct (tx_expected_sequence tx).
Qed.

Lemma apply_transaction_cases tx stored existed in_use :
  stored_wf stored →
  (∃ e, apply_transaction_in_place tx stored existed in_use = Some (Err e, stored)) ∨
  (∃ outcome s' previous,
     apply_transaction_in_place tx stored existed in_use = Some (Ok outcome, s') ∧
     stored_wf s' ∧ extended_session tx stored s' ∧
     r_state (sd_reducer s') = Some (ao_state outcome) ∧
     admit_transaction tx stored existed in_use = Ok (previous, sd_journal_revision s')).
Proof.
  intros Hwf. unfold apply_transaction_in_place.
  destruct (admit_transaction tx stored existed in_use) as [[previous revision]|e] eqn:Hadm;
    [|by left; eauto].
  destruct (admit_ok _ _ _ _ _ _ Hadm) as (_ & Hexp & _ & n & Hn & _ & Hrev).
  destruct (apply_records_spec (sd_reducer stored) (tx_records tx) (sdw_reducer _ Hwf))
    as (res & r & -> & Hr & Hres).
  destruct res as [[]|e]; [|left; eexists; apply recover_ok; [done|done|by destruct stored]].
  rewrite (sdw_records _ Hwf) in Hres. simpl.
  destruct (artifacts_apply_total (tx_session_id tx) (sd_records stored ++ tx_records tx)
    (tx_records tx) (tx_approval_artifacts tx) (tx_grant_entries tx) (sd_artifacts stored))
    as [[ares artifacts] Ha]. rewrite Ha. destruct ares as [[]|e].
  2:{ left. eexists. apply recover_ok; [done|simpl; by rewrite take_app_length|].
      unfold set_sd_reducer, truncate_records. simpl. rewrite take_app_length.
      by destruct stored. }
  right. assert (is_Some (r_state r)) as [state Hs].
  { apply reachable_state; [done|]. rewrite Hres. intros [Hn1 Hn2]%app_eq_nil.
    eapply expectation_nonempty; [done|done|]. by destruct existed. }
  rewrite Hs. eexists _, _, previous. split; [done|].
  split; [by eapply applied_wf|]. split; [done|]. split; [done|]. done.
Qed.

(** ** The in-memory store *)

Inductive reachable_store : InMemorySessionStore → Prop :=
| reachable_store_new : reachable_store store_new
| reachable_append m tx res m' :
    reachable_store m → append m tx = Some (res, m') → reachable_store m'
| reachable_set_name m id name res m' :
    reachable_store m → set_session_name m id name = (res, m') → reachable_store m'.

Lemma stored_default_wf : stored_wf stored_default.
Proof.
  split; simpl; try done; [apply reachable_new|]. intros ? ? H. by apply elem_of_nil in H.
Qed.

Lemma issued_ids_app j1 j2 : issued_ids (j1 ++ j2) = issued_ids j1 ++ issued_ids j2.
Proof. apply omap_app. Qed.

Lemma elem_of_issued_ids g journal :
  g ∈ issued_ids journal → g ∈ entry_grant_id <$> journal.
Proof.
  intros ([rid gr|gr] & Hin & Hg)%list_elem_of_omap; simplify_eq.
  apply list_elem_of_fmap. by exists (GrantIssued rid gr).
Qed.

Lemma check_grant_ids_ok in_use seen entries :
  check_grant_ids in_use seen entries = Ok tt →
  NoDup (issued_ids entries) ∧
  ∀ g, g ∈ issued_ids entries → g ∉ seen ∧ in_use g = false.
Proof.
  revert seen. induction entries as [|[rid gr|gr] entries IH]; intros seen; simpl.
  - intros _. split; [constructor|]. intros g Hg. by apply elem_of_nil in Hg.
  - intros ([] & H1%ensure_ok & H)%result_bind_ok.
    apply result_bind_ok in H as ([] & H2%ensure_ok & H). apply IH in H as [Hnd Hin].
    bool_prop. change (issued_ids (GrantIssued rid gr :: entries)) with
      (gr_id gr :: issued_ids entries). split.
    + constructor; [|done]. intros Hg%Hin. set_solver.
    + intros g [->|Hg]%elem_of_cons; [done|]. apply Hin in Hg. set_solver.
  - intros H. by apply IH in H.
Qed.

Lemma elem_of_known m id s g :
  ms_sessions m !! id = Some s → g ∈ issued_ids (sd_grant_journal s) →
  g ∈ known_grant_ids (ms_sessions m).
Proof.
  intros Hs Hg. unfold known_grant_ids. apply elem_of_list_to_set, list_elem_of_bind.
  exists (id, s). split; [by apply elem_of_issued_ids|by apply elem_of_map_to_list].
Qed.

Lemma shape_sessions tx e :
  validate_transaction_shape tx = Ok tt → e ∈ tx_records tx → env_session_id e = tx_session_id tx.
Proof.
  unfold validate_transaction_shape. intros ([] & _ & H%ensure_ok)%result_bind_ok He.
  rewrite forallb_forall in H. apply list_elem_of_In, H in He. by bool_prop.
Qed.

(** The session id of an extended session. *)
Lemma extended_session_id tx stored s' state :
  stored_wf s' → extended_session tx stored s' →
  validate_transaction_shape tx = Ok tt →
  (∀ e, e ∈ sd_records stored → env_session_id e = tx_session_id tx) →
  r_state (sd_reducer s') = Some state → st_session_id state = tx_session_id tx.
Proof.
  intros Hwf (Hrec & _ & _) Hshape Hold Hs.
  pose proof (reachable_log_wf _ _ (sdw_reducer _ Hwf) Hs) as [Hlog (e & Hlast & _)].
  rewrite (sdw_records _ Hwf) in *. rewrite last_lookup in Hlast.
  rewrite <- (rwf_session _ _ _ (Hlog _ _ Hlast)).
  apply list_elem_of_lookup_2 in Hlast. rewrite Hrec in Hlast.
  apply elem_of_app in Hlast as [?|?]; [by apply Hold|by eapply shape_sessions].
Qed.

Lemma stored_session_ids id s state e :
  stored_wf s → r_state (sd_reducer s) = Some state → st_session_id state = id →
  e ∈ sd_records s → env_session_id e = id.
Proof.
  intros Hwf Hs <- [i Hi]%list_elem_of_lookup. rewrite <- (sdw_records _ Hwf) in Hi.
  pose proof (reachable_log_wf _ _ (sdw_reducer _ Hwf) Hs) as [Hlog _].
  by apply (rwf_session _ _ _ (Hlog _ _ Hi)).
Qed.

(** What [append] does, from the cases of the engine. *)
Lemma append_cases m tx :
  store_wf m →
  let stored := default stored_default (ms_sessions m !! tx_session_id tx) in
  let existed := bool_decide (is_Some (ms_sessions m !! tx_session_id tx)) in
  let in_use := λ id, bool_decide (id ∈ known_grant_ids (ms_sessions m)) in
  stored_wf stored ∧
  ((∃ e, append m tx = Some (Err e, m)) ∨
   (∃ outcome s' previous,
      append m tx = Some (Ok outcome,
        mk_InMemorySessionStore (<[tx_session_id tx := s']> (ms_sessions m)) (ms_names m)) ∧
      stored_wf s' ∧ extended_session tx stored s' ∧
      r_state (sd_reducer s') = Some (ao_state outcome) ∧
      admit_transaction tx stored existed in_use = Ok (previous, sd_journal_revision s') ∧
      apply_transaction_in_place tx stored existed in_use = Some (Ok outcome, s'))).
Proof.
  intros [Hsess _ _] stored existed in_use.
  assert (stored_wf stored) as Hwf.
  { unfold stored. destruct (ms_sessions m !! _) as [s|] eqn:Hs; [|apply stored_default_wf].
    by apply (Hsess _ _ Hs). }
  split; [done|]. unfold append. fold stored existed.
  destruct (apply_transaction_cases tx stored existed in_use Hwf)
    as [[e He]|(outcome & s' & previous & Hap & Hwf' & Hext & Hst & Hadm)].
  - left. exists e. unfold in_use in He. rewrite He. unfold stored, existed.
    destruct (ms_sessions m !! tx_session_id tx) as [s|] eqn:Hs; simpl.
    + rewrite insert_id by done. by destruct m.
    + rewrite delete_insert_id by done. by destruct m.
  - right. exists outcome, s', previous. unfold in_use in Hap. rewrite Hap. by split_and!.
Qed.

Lemma append_wf m tx res m' : store_wf m → append m tx = Some (res, m') → store_wf m'.
Proof.
  intros Hwf Ha. destruct (append_cases m tx Hwf) as [Hst [[e He]|Hok]]; [congruence|].
  destruct Hok as (outcome & s' & previous & Hap & Hwf' & Hext & Hstate & Hadm & _).
  rewrite Hap in Ha. injection Ha as <- <-. destruct Hwf as [Hsess Hgr Honce].
  destruct (admit_ok _ _ _ _ _ _ Hadm) as (Hshape & _ & Hids & _).
  unfold validate_global_grant_ids in Hids. apply check_grant_ids_ok in Hids as [Hnd Hfresh].
  assert (∀ id s g, ms_sessions m !! id = Some s → g ∈ issued_ids (sd_grant_journal s) →
    g ∈ issued_ids (tx_grant_entries tx) → False) as Hdisj.
  { intros id s g Hs Hg Hnew. apply Hfresh in Hnew as [_ Hnew].
    apply orb_false_iff in Hnew as [Hnew _]. bool_prop. by eapply Hnew, elem_of_known. }
  set (old := default stored_default (ms_sessions m !! tx_session_id tx)) in *.
  assert (∀ g, g ∈ issued_ids (sd_grant_journal old) →
    ∃ s, ms_sessions m !! tx_session_id tx = Some s ∧ g ∈ issued_ids (sd_grant_journal s)) as Hold.
  { intros g. unfold old. destruct (ms_sessions m !! tx_session_id tx); [eauto|].
    intros Hg. by apply elem_of_nil in Hg. }
  destruct Hext as (Hr & Hap' & Hj).
  assert (∀ id s g, ms_sessions m !! id = Some s → g ∈ issued_ids (sd_grant_journal s) →
    g ∈ issued_ids (sd_grant_journal s') → id = tx_session_id tx) as Hcross.
  { intros id s g Hs Hg. rewrite Hj, issued_ids_app. intros [Hg'|Hg']%elem_of_app.
    - apply Hold in Hg' as (s0 & Hs0 & Hg'). by eapply (Hgr _ _ s s0 g).
    - exfalso. by eapply Hdisj. }
  split; simpl.
  - intros id s [[<- <-]|[_ Hs]]%lookup_insert_Some; [|by apply Hsess].
    split; [done|]. eexists. split; [done|].
    eapply (extended_session_id tx old s'); [done|done|done| |done].
    intros e He. unfold old in He. destruct (ms_sessions m !! tx_session_id tx) as [s0|] eqn:Hs0.
    + destruct (Hsess _ _ Hs0) as (Hw0 & st0 & Hst0 & Hid0). by eapply stored_session_ids.
    + by apply elem_of_nil in He.
  - intros id1 id2 s1 s2 g [[<- <-]|[Hn1 H1]]%lookup_insert_Some
      [[<- <-]|[Hn2 H2]]%lookup_insert_Some Hg1 Hg2; [done| | |by eapply Hgr].
    + by symmetry; eapply Hcross.
    + by eapply Hcross.
  - intros id s [[<- <-]|[_ Hs]]%lookup_insert_Some; [|by eapply Honce].
    rewrite Hj, issued_ids_app. apply NoDup_app. split_and!; [|intros g Hg Hn|done].
    + unfold old. destruct (ms_sessions m !! tx_session_id tx) as [s0|] eqn:Hs0;
        [by eapply Honce|constructor].
    + apply Hold in Hg as (s0 & Hs0 & Hg). by eapply Hdisj.
Qed.

Lemma reachable_store_wf m : reachable_store m → store_wf m.
Proof.
  induction 1 as [|m tx res m' _ IH Ha|m id name res m' _ IH Hn].
  - split; simpl; intros *; by rewrite lookup_empty.
  - by eapply append_wf.
  - unfold set_session_name in Hn. destruct (ms_sessions m !! id); simplify_eq; [|done].
    by destruct IH; split.
Qed.

(** ** A sample store *)

Module StoreSample.

Definition creation : AppendTransaction :=
  mk_AppendTransaction (mk_id 1) None Sample.approved_log None [] [].
Definition next_turn : AppendTransaction :=
  mk_AppendTransaction (mk_id 1) (Some (SessionSequence_new 6))
    [Sample.envelope 7 (Some Sample.trunk) Sample.started] None [] [].

(** The store and the outcome of an append; unchanged where it panics. *)
Definition after (m : InMemorySessionStore) (tx : AppendTransaction) : InMemorySessionStore :=
  match append m tx with Some (_, m') => m' | None => m end.
Definition accepted (m : InMemorySessionStore) (tx : AppendTransaction) : bool :=
  match append m tx with Some (Ok _, _) => true | _ => false end.

Definition created : InMemorySessionStore := after store_new creation.
Definition stored : StoredSession :=
  default stored_default (ms_sessions created !! (mk_id 1 : SessionId)).

(** A creation whose approval issues a session grant, and its revocation. *)
Definition request : ApprovalRequest :=
  mk_ApprovalRequest Sample.approval Sample.call (mk_selector "alice") (mk_selector "default")
    (mk_id 1) None None (mk_PolicyEnvironment SurfaceCli PolicyNative ∅) (mk_ToolName "write")
    (mk_ToolVersion "1.0.0") native_product [FsWrite] [] (Timestamp 5) (Timestamp 100)
    ApprovalSample.presentation.
Definition grant : PolicyGrant :=
  mk_PolicyGrant (mk_id 5) (mk_selector "alice") (mk_selector "default") (mk_ToolName "write")
    (mk_ToolVersion "1.0.0") None [FsWrite] [mk_ResourcePattern "file" "/" None]
    (ScopeSessionResource (mk_id 1)) (Timestamp 6) None.
Definition resolution : ApprovalResolution :=
  mk_ApprovalResolution request AllowSession (Timestamp 6) (Some grant).
Definition granting : AppendTransaction :=
  mk_AppendTransaction (mk_id 1) None
    (take 6 Sample.approved_log ++
     [Sample.envelope 6 (Some Sample.trunk) (ApprovalResolved Sample.approval AllowSession)])
    (Some 0%N)
    [ArtifactRequested (mk_id 105) request None; ArtifactResolved (mk_id 106) resolution]
    [GrantIssued (mk_id 106) grant].
Definition revoking : AppendTransaction :=
  mk_AppendTransaction (mk_id 1) (Some (SessionSequence_new 6)) [] (Some 3%N) []
    [GrantRevoked (set_revoked_at grant (Some (Timestamp 50)))].
Definition granted : InMemorySessionStore := after store_new granting.
Definition granted_session : StoredSession :=
  default stored_default (ms_sessions granted !! (mk_id 1 : SessionId)).

End StoreSample.

Lemma after_reachable m tx : reachable_store m → reachable_store (StoreSample.after m tx).
Proof.
  intros Hm. unfold StoreSample.after. destruct (append m tx) as [[res m']|] eqn:Ha; [|done].
  by eapply reachable_append.
Qed.

Lemma sample_created : reachable_store StoreSample.created.
Proof. apply after_reachable, reachable_store_new. Qed.

Lemma sample_stored_wf : stored_wf StoreSample.stored.
Proof.
  unfold StoreSample.stored. destruct (ms_sessions StoreSample.created !! _) as [s|] eqn:Hs;
    [|apply stored_default_wf].
  by apply (mw_sessions _ (reachable_store_wf _ sample_created) _ _ Hs).
Qed.

(** ** Claims *)

(** C29: a transaction is all or nothing: [apply_transaction_in_place] never
    panics; on any error, a failed record or artifact included, the session is
    left exactly as it was; on success the session holds the transaction's
    records and journal entries appended, and the outcome is its state. *)
Theorem transaction_atomic tx stored existed in_use :
  stored_wf stored →
  ∃ res s', apply_transaction_in_place tx stored existed in_use = Some (res, s') ∧
  match res with
  | Err _ => s' = stored
  | Ok outcome => stored_wf s' ∧ extended_session tx stored s' ∧
      r_state (sd_reducer s') = Some (ao_state outcome)
  end.
Proof.
  intros Hwf. destruct (apply_transaction_cases tx stored existed in_use Hwf)
    as [[e He]|(outcome & s' & previous & Hap & ? & ? & ? & _)].
  - by exists (Err e), stored.
  - by exists (Ok outcome), s'.
Qed.

Lemma transaction_atomic_witness :
  let tx := mk_AppendTransaction (mk_id 1) (Some (SessionSequence_new 6))
    [Sample.envelope 7 (Some Sample.trunk) Sample.started;
     Sample.envelope 8 (Some Sample.trunk) Sample.started] None [] [] in
  (∃ e, apply_transaction_in_place tx StoreSample.stored true (λ _, false) =
     Some (Err e, StoreSample.stored)) ∧
  ∃ res s', apply_transaction_in_place tx StoreSample.stored true (λ _, false) = Some (res, s') ∧
    match res with
    | Err _ => s' = StoreSample.stored
    | Ok outcome => stored_wf s' ∧ extended_session tx StoreSample.stored s' ∧
        r_state (sd_reducer s') = Some (ao_state outcome)
    end.
Proof.
  intros tx. split; [eexists; by vm_compute|]. apply transaction_atomic, sample_stored_wf.
Defined.

(** Restarting changes nothing: rebuilding a stored session from its
    durable facts (records and the two journals) gives the same session, the
    reducer, the derived authorization state and the journal revision
    included. *)
Theorem restart_rebuilds_session s :
  stored_wf s → sd_records s ≠ [] →
  from_durable_facts (sd_records s) (sd_approval_artifacts s) (sd_grant_journal s) = Some (Ok s).
Proof.
  intros Hwf Hne. unfold from_durable_facts.
  pose proof (rebuild_reducer_ok _ (sdw_reducer _ Hwf)) as Hred.
  rewrite (sdw_records _ Hwf) in Hred. unfold rebuild_reducer in Hred.
  assert (replay_reducer (sd_records s) = Some (Ok (sd_reducer s))) as ->.
  { destruct (sd_records s); [done|].
    by destruct (replay_reducer _) as [[]|]; simplify_eq/=. }
  unfold entry_count. simpl. rewrite (sdw_revision _ Hwf). simpl.
  rewrite <- (sdw_artifacts _ Hwf). by destruct s.
Qed.

Lemma restart_rebuilds_session_witness :
  let s := StoreSample.stored in
  length (sd_records s) = 7 ∧
  from_durable_facts (sd_records s) (sd_approval_artifacts s) (sd_grant_journal s) = Some (Ok s).
Proof.
  split; [by vm_compute|].
  apply restart_rebuilds_session; [apply sample_stored_wf|by vm_compute].
Defined.

(** C31: the store invariant: whatever sequence of appends and renames built
    it, every stored session is well formed and under its own id, a grant
    identity is issued at most once across all sessions, every append returns,
    and a failed append changes nothing. *)
Theorem store_invariant m :
  reachable_store m → store_wf m ∧
  (∀ tx, ∃ res m', append m tx = Some (res, m') ∧ (is_ok res = false → m' = m)) ∧
  (∀ id, is_Some (load m id)).
Proof.
  intros Hm. pose proof (reachable_store_wf m Hm) as Hwf. split; [done|]. split.
  - intros tx. destruct (append_cases m tx Hwf) as [_ [[e He]|Hok]]; [by eauto|].
    destruct Hok as (outcome & s' & previous & Hap & _). rewrite Hap.
    eexists _, _. split; [done|]. done.
  - intros id. unfold load. destruct (ms_sessions m !! id) as [s|] eqn:Hs; [|done].
    destruct (mw_sessions _ Hwf _ _ Hs) as (_ & state & Hst & _).
    unfold snapshot. rewrite Hst. done.
Qed.

Lemma store_invariant_witness :
  StoreSample.accepted store_new StoreSample.creation = true ∧ store_wf StoreSample.created.
Proof.
  split; [by vm_compute|]. apply (store_invariant StoreSample.created sample_created).
Defined.

(** The tail sequence of a stored session is the number of its records less one. *)
Lemma stored_tail s e :
  stored_wf s → last (sd_records s) = Some e →
  seq_get (env_sequence e) = N.of_nat (pred (length (sd_records s))).
Proof.
  intros Hwf Hl. rewrite last_lookup in Hl. rewrite <- (sdw_records _ Hwf) in *.
  assert (is_Some (r_state (sd_reducer s))) as [state Hs].
  { apply reachable_state; [apply Hwf|]. intros Hn. by rewrite Hn in Hl. }
  pose proof (reachable_log_wf _ _ (sdw_reducer _ Hwf) Hs) as [Hlog _].
  by apply (rwf_sequence _ _ _ (Hlog _ _ Hl)).
Qed.

Lemma admitted_position tx stored existed in_use previous revision :
  stored_wf stored → (existed = false → sd_records stored = []) →
  admit_transaction tx stored existed in_use = Ok (previous, revision) →
  match tx_expected_sequence tx with
  | None => sd_records stored = []
  | Some expected => sd_records stored ≠ [] ∧
      seq_get expected = N.of_nat (pred (length (sd_records stored)))
  end.
Proof.
  intros Hwf Hex (_ & He & _)%admit_ok. unfold validate_expectation in He.
  assert ((match (if existed then Some stored else None) with
           | Some s => sd_records s | None => [] end) = sd_records stored) as Hrec.
  { destruct existed; [done|]. by rewrite Hex. }
  rewrite Hrec in He. destruct (sd_records stored) as [|e0 l] eqn:Hl.
  - by destruct (tx_expected_sequence tx).
  - destruct (tx_expected_sequence tx) as [expected|]; [|done]. split; [done|].
    cbn [is_empty] in He. apply result_bind_ok in He as ([] & Ht%ensure_ok & _). bool_prop.
    destruct (last (e0 :: l)) as [e|] eqn:Hlast; [|by apply last_None in Hlast].
    rewrite <- Hl in *. rewrite <- (stored_tail _ _ Hwf Hlast). by rewrite Ht.
Qed.

(** No lost update: after one writer's transaction with records was
    accepted, any other transaction that was prepared against the same
    expected tail of that session is rejected. *)
Theorem stale_writer_rejected m tx1 outcome m' tx2 :
  reachable_store m → append m tx1 = Some (Ok outcome, m') → tx_records tx1 ≠ [] →
  tx_session_id tx2 = tx_session_id tx1 →
  tx_expected_sequence tx2 = tx_expected_sequence tx1 →
  ∃ e, append m' tx2 = Some (Err e, m').
Proof.
  intros Hm Ha Hne Hid Hexp. pose proof (reachable_store_wf m Hm) as Hwf.
  destruct (append_cases m tx1 Hwf) as [Hst1 [[e He]|Hok1]]; [congruence|].
  destruct Hok1 as (o1 & s1 & p1 & Hap1 & Hwf1 & (Hrec1 & _ & _) & _ & Hadm1 & _).
  rewrite Hap1 in Ha. injection Ha as <- <-.
  assert (store_wf (mk_InMemorySessionStore (<[tx_session_id tx1 := s1]> (ms_sessions m))
    (ms_names m))) as Hwf' by (by eapply append_wf).
  destruct (append_cases _ tx2 Hwf') as [Hst2 [He|Hok2]]; [done|exfalso].
  destruct Hok2 as (o2 & s2 & p2 & _ & _ & _ & _ & Hadm2 & _).
  simpl in Hadm2. rewrite Hid, lookup_insert_eq in Hadm2. simpl in Hadm2.
  apply admitted_position in Hadm1; [|done|].
  2:{ intros Hno. apply bool_decide_eq_false in Hno.
      destruct (ms_sessions m !! tx_session_id tx1); [by destruct Hno; eauto|done]. }
  apply admitted_position in Hadm2; [|done|done]. rewrite Hexp in Hadm2.
  assert (length (tx_records tx1) ≠ 0) by (by intros ?%nil_length_inv).
  rewrite Hrec1 in Hadm2. destruct (tx_expected_sequence tx1) as [expected|].
  - destruct Hadm1 as [Hn1 Hs1], Hadm2 as [_ Hs2]. rewrite length_app in Hs2.
    destruct (sd_records (default stored_default (ms_sessions m !! tx_session_id tx1)));
      [done|]. simpl in *. lia.
  - apply app_eq_nil in Hadm2 as [_ ?]. done.
Qed.

Lemma stale_writer_rejected_witness :
  let m' := StoreSample.after StoreSample.created StoreSample.next_turn in
  StoreSample.accepted StoreSample.created StoreSample.next_turn = true ∧
  ∃ e, append m' StoreSample.next_turn = Some (Err e, m').
Proof.
  intros m'. split; [by vm_compute|].
  assert (∃ outcome, append StoreSample.created StoreSample.next_turn = Some (Ok outcome, m'))
    as [outcome Ha] by (eexists; by vm_compute).
  apply (stale_writer_rejected StoreSample.created StoreSample.next_turn outcome m'
    StoreSample.next_turn); [apply sample_created|done|by vm_compute|done|done].
Defined.

(** No grant without approval: every grant a session's journal issues is
    the grant of a durable approval resolution, whose linked canonical record
    is in the session's log with the same decision. *)
Theorem grants_are_justified m id s rid g :
  reachable_store m → ms_sessions m !! id = Some s →
  GrantIssued rid g ∈ sd_grant_journal s → issue_justified s rid g.
Proof.
  intros Hm Hs. apply sdw_issued. by apply (mw_sessions _ (reachable_store_wf _ Hm) _ _ Hs).
Qed.

Lemma grants_are_justified_witness :
  StoreSample.accepted store_new StoreSample.granting = true ∧
  issue_justified StoreSample.granted_session (mk_id 106) StoreSample.grant.
Proof.
  split; [by vm_compute|].
  apply (grants_are_justified StoreSample.granted (mk_id 1)).
  - apply after_reachable, reachable_store_new.
  - by vm_compute.
  - assert (sd_grant_journal StoreSample.granted_session =
      [GrantIssued (mk_id 106) StoreSample.grant]) as -> by (by vm_compute). left.
Defined.

(** C32: revocation is durable: through any append, a grant of a session keeps
    its identity and every field but the revocation time, and a revoked grant
    stays revoked and is not listed as active again. *)
Theorem revocation_is_durable m tx res m' id s gid g :
  reachable_store m → append m tx = Some (res, m') →
  ms_sessions m !! id = Some s → as_grants (sd_artifacts s) !! gid = Some g →
  ∃ s' g', ms_sessions m' !! id = Some s' ∧ as_grants (sd_artifacts s') !! gid = Some g' ∧
    set_revoked_at g' None = set_revoked_at g None ∧ (gr_revoked_at g ≠ None → g' = g).
Proof.
  intros Hm Ha Hs Hg. pose proof (reachable_store_wf m Hm) as Hwf.
  destruct (append_cases m tx Hwf) as [_ [[e He]|Hok]].
  { rewrite He in Ha. injection Ha as _ <-. exists s, g. by split_and!. }
  destruct Hok as (o & s' & p & Hap & _ & _ & _ & Hadm & Hin). rewrite Hap in Ha.
  injection Ha as _ <-. simpl. destruct (decide (tx_session_id tx = id)) as [<-|Hne].
  2:{ exists s, g. rewrite lookup_insert_ne by done. by split_and!. }
  rewrite lookup_insert_eq. rewrite Hs in Hin, Hadm. simpl in *.
  unfold apply_transaction_in_place in Hin. rewrite Hadm in Hin.
  destruct (apply_records _ _) as [[[] r]|]; [|by unfold recover in Hin; repeat case_match|done].
  destruct (artifacts_apply _ _ _ _ _ _) as [[[[]|] artifacts]|] eqn:Hart;
    [|by unfold recover in Hin; repeat case_match|done].
  destruct (r_state r); [|done]. injection Hin as _ <-.
  destruct (artifacts_apply_evolves _ _ _ _ _ _ _ _ _ _ Hart Hg) as (g' & Hg' & Hev).
  eexists _, g'. simpl. split; [done|]. split; [done|]. apply Hev.
Qed.

Lemma revocation_is_durable_witness :
  let m := StoreSample.granted in
  let m' := StoreSample.after m StoreSample.revoking in
  StoreSample.accepted m StoreSample.revoking = true ∧
  ∃ s' g', ms_sessions m' !! mk_id 1 = Some s' ∧
    as_grants (sd_artifacts s') !! mk_id 5 = Some g' ∧
    set_revoked_at g' None = set_revoked_at StoreSample.grant None ∧
    (gr_revoked_at StoreSample.grant ≠ None → g' = StoreSample.grant).
Proof.
  intros m m'. split; [by vm_compute|].
  assert (∃ res, append m StoreSample.revoking = Some (res, m')) as [res Ha]
    by (eexists; by vm_compute).
  apply (revocation_is_durable m StoreSample.revoking res m' (mk_id 1)
    StoreSample.granted_session (mk_id 5) StoreSample.grant);
    [apply after_reachable, reachable_store_new|done|by vm_compute|by vm_compute].
Defined.
