(* ===== verification/Archive.v ===== *)
(** * Session archives and the session catalog

    [crates/tea-session/src/archive.rs]: the interchange form of one session, its
    validation, its import as one transaction, and its JSON.
    [crates/tea-session/src/catalog.rs] and [memory.rs]: display names and the
    listing of the stored sessions.  The derived serializers of approval and
    grant entries, and the texts of errors, are parameters. *)

From S2P Require Import Prelude Utf8 Protocol Policy Validation RecordCodec SessionState.
From S2P Require Import Reducer Artifact Store.
Local Open Scope tea_scope.

(** ** Archives ([archive.rs]) *)

Definition CURRENT_ARCHIVE_FORMAT_VERSION : N := 1.
Definition MAX_ARCHIVE_BYTES : N := 67108864.
Definition MAX_ARCHIVE_ENTRIES : N := 100000.

Record SessionArchive : Set := mk_SessionArchive {
  sa_format_version : N;
  sa_session_id : SessionId;
  sa_records : list RecordEnvelope;
  sa_approval_artifacts : list ApprovalArtifactEntry;
  sa_grant_journal : list GrantJournalEntry
}.

(** The text of malformed JSON is its failure. *)
Inductive SessionArchiveError : Set :=
| UnsupportedFormatVersion (version : N)
| ArchiveOutOfBounds
| ArchiveMalformed (failure : JsonFailure)
| ArchiveSessionMismatch
| ArchiveRecord (error : RecordDecodeError)
| ArchiveReplay (error : SessionReplayError)
| ArchiveArtifact (error : ArtifactValidationError).

(** [SessionArchiveError::store_code]. *)
Definition archive_store_code (e : SessionArchiveError) : SessionStoreErrorCode :=
  match e with
  | UnsupportedFormatVersion _
  | ArchiveRecord (RecordUnsupportedVersion _ | RecordUnsupportedType _) => UnsupportedSchemaVersion
  | ArchiveReplay error => replay_store_code error
  | ArchiveArtifact error => artifact_store_code error
  | ArchiveOutOfBounds | ArchiveMalformed _ | ArchiveSessionMismatch | ArchiveRecord _ =>
      InvalidRecordCode
  end.

(** [SessionArchive::validate]; [None] is a panic of the reducer. *)
Definition archive_validate (a : SessionArchive) : option (Result SessionArchiveError unit) :=
  if negb (sa_format_version a =? CURRENT_ARCHIVE_FORMAT_VERSION)%N
  then Some (Err (UnsupportedFormatVersion (sa_format_version a)))
  else if existsb (λ record, negb (bool_decide (env_session_id record = sa_session_id a)))
            (sa_records a)
  then Some (Err ArchiveSessionMismatch)
  else match replay (sa_records a) with
       | None => None
       | Some (Err e) => Some (Err (ArchiveReplay e))
       | Some (Ok _) =>
           match artifacts_apply (sa_session_id a) (sa_records a) (sa_records a)
                   (sa_approval_artifacts a) (sa_grant_journal a) artifacts_default with
           | None => None
           | Some (applied, _) => Some (map_err ArchiveArtifact applied)
           end
       end.

(** A collection over the bound. *)
Definition archive_over_bound {A B C} (records : list A) (approvals : list B) (grants : list C) : bool :=
  (MAX_ARCHIVE_ENTRIES <? list_len records)%N || (MAX_ARCHIVE_ENTRIES <? list_len approvals)%N
  || (MAX_ARCHIVE_ENTRIES <? list_len grants)%N.

Definition archive_new (session_id : SessionId) (records : list RecordEnvelope)
    (approval_artifacts : list ApprovalArtifactEntry) (grant_journal : list GrantJournalEntry)
    : option (Result SessionArchiveError SessionArchive) :=
  if archive_over_bound records approval_artifacts grant_journal
  then Some (Err ArchiveOutOfBounds)
  else
    let archive := mk_SessionArchive CURRENT_ARCHIVE_FORMAT_VERSION session_id records
                     approval_artifacts grant_journal in
    (λ validated, try? validated in Ok archive) <$> archive_validate archive.

(** [SessionArchive::from_snapshot]. *)
Definition archive_from_snapshot (s : SessionSnapshot)
    : option (Result SessionArchiveError SessionArchive) :=
  archive_new (st_session_id (sn_state s)) (sn_records s) (sn_approval_artifacts s)
    (sn_grant_journal s).

(** The transaction an archive is imported as. *)
Definition archive_transaction (a : SessionArchive) : AppendTransaction :=
  mk_AppendTransaction (sa_session_id a) None (sa_records a) (Some 0%N)
    (sa_approval_artifacts a) (sa_grant_journal a).

(** [From<SessionArchiveError> for SessionStoreError]. *)
Definition from_archive_error (text : SessionArchiveError → string) (e : SessionArchiveError)
    : SessionStoreError := store_error (archive_store_code e) (text e).

(** [SessionArchive::import_into] the in-memory store. *)
Definition import_into (text : SessionArchiveError → string) (a : SessionArchive)
    (store : InMemorySessionStore)
    : option (Result SessionStoreError AppendOutcome * InMemorySessionStore) :=
  match archive_validate a with
  | None => None
  | Some (Err e) => Some (Err (from_archive_error text e), store)
  | Some (Ok _) => append store (archive_transaction a)
  end.

(** ** Archive JSON *)

(** The derived serializers of the journal entries, the JSON parser, and the
    text of a value that is not an archive. *)
Class ArchiveSerde : Type := {
  approval_serialize : ApprovalArtifactEntry → Result string Value;
  approval_deserialize : Value → option ApprovalArtifactEntry;
  grant_serialize : GrantJournalEntry → Result string Value;
  grant_deserialize : Value → option GrantJournalEntry;
  json_read : string → Result string JsonInput;
  archive_error : Value → string
}.

Record RawSessionArchive : Set := mk_RawSessionArchive {
  ra_format_version : N;
  ra_session_id : SessionId;
  ra_records : list Value;
  ra_approval_artifacts : list ApprovalArtifactEntry;
  ra_grant_journal : list GrantJournalEntry
}.

Definition U32_MAX : N := 4294967295.

Definition decode_u32 (v : Value) : option N :=
  match v with
  | JNumber (PosInt n) => if (n <=? U32_MAX)%N then Some n else None
  | _ => None
  end.

(** A [Vec] of decoded elements. *)
Definition decode_vec {A} (decode : Value → option A) (v : Value) : option (list A) :=
  match v with JArray values => mapM decode values | _ => None end.

(** An absent field with [serde(default)] is empty. *)
Definition decode_default {A} (decode : Value → option A) (v : option Value) : option (list A) :=
  match v with None => Some [] | Some v => decode_vec decode v end.

Section json.
Context `{Codec, UuidText, TimestampText, RecordSerde, ArchiveSerde}.

(** The derived serializer of [SessionArchive], its keys in order. *)
Definition archive_serialize (a : SessionArchive) : Result RecordFailure Value :=
  let? records := result_map envelope_serialize (sa_records a) in
  let? approvals := map_err RecordSerdeText
                      (result_map approval_serialize (sa_approval_artifacts a)) in
  let? grants := map_err RecordSerdeText (result_map grant_serialize (sa_grant_journal a)) in
  Ok (JObject [("approvalArtifacts"%string, JArray approvals);
               ("formatVersion"%string, JNumber (PosInt (sa_format_version a)));
               ("grantJournal"%string, JArray grants);
               ("records"%string, JArray records);
               ("sessionId"%string, JString (show_protocol_id (sa_session_id a)))]).

(** The fields of [RawSessionArchive], in the order they are declared. *)
Definition raw_fields (format_version session_id records approvals grants : option Value)
    : option RawSessionArchive :=
  format_version ← format_version ≫= decode_u32;
  session_id ← session_id ≫= decode_id;
  records ← records ≫= decode_vec Some;
  approvals ← decode_default approval_deserialize approvals;
  grants ← decode_default grant_deserialize grants;
  Some (mk_RawSessionArchive format_version session_id records approvals grants).

(** The derived deserializer of [RawSessionArchive]: an object, whose unknown
    keys are ignored, or the sequence of its fields. *)
Definition raw_deserialize (v : Value) : option RawSessionArchive :=
  match v with
  | JObject _ => raw_fields (json_get v "formatVersion") (json_get v "sessionId")
                   (json_get v "records") (json_get v "approvalArtifacts")
                   (json_get v "grantJournal")
  | JArray values =>
      if (length values <=? 5)%nat
      then raw_fields (values !! 0) (values !! 1) (values !! 2) (values !! 3) (values !! 4)
      else None
  | _ => None
  end.

(** [SessionArchive::decode_value]. *)
Definition archive_decode_value (v : Value) : option (Result SessionArchiveError SessionArchive) :=
  match raw_deserialize v with
  | None => Some (Err (ArchiveMalformed (JsonText (archive_error v))))
  | Some raw =>
      if negb (ra_format_version raw =? CURRENT_ARCHIVE_FORMAT_VERSION)%N
      then Some (Err (UnsupportedFormatVersion (ra_format_version raw)))
      else if archive_over_bound (ra_records raw) (ra_approval_artifacts raw) (ra_grant_journal raw)
      then Some (Err ArchiveOutOfBounds)
      else match result_map record_decode_value (ra_records raw) with
           | Err e => Some (Err (ArchiveRecord e))
           | Ok records => archive_new (ra_session_id raw) records (ra_approval_artifacts raw)
                             (ra_grant_journal raw)
           end
  end.

(** [SessionArchive::decode_json]. *)
Definition archive_decode_json (input : string)
    : option (Result SessionArchiveError SessionArchive) :=
  if (MAX_ARCHIVE_BYTES <? str_len input)%N then Some (Err ArchiveOutOfBounds)
  else match map_err JsonText (json_read input) with
       | Err e => Some (Err (ArchiveMalformed e))
       | Ok tokens =>
           match unique_value tokens with
           | Err e => Some (Err (ArchiveMalformed e))
           | Ok v => archive_decode_value v
           end
       end.
End json.

(** ** The catalog ([catalog.rs], [memory.rs]) *)

Definition MAX_SESSION_NAME_BYTES : N := 256.

Inductive SessionNameError : Set := NameEmpty | NameTooLong | NameControlCharacter.

(** [SessionName::new]. *)
Definition session_name_new (value : string) : Result SessionNameError SessionName :=
  let value := trim_chars (chars value) in
  try? ensure (negb (is_empty value)) NameEmpty in
  try? ensure (N.of_nat (chars_len value) <=? MAX_SESSION_NAME_BYTES)%N NameTooLong in
  try? ensure (negb (existsb is_control value)) NameControlCharacter in
  Ok (mk_SessionName (string_of_chars value)).

Record SessionCatalogEntry : Set := mk_SessionCatalogEntry {
  ce_session_id : SessionId;
  ce_name : option SessionName;
  ce_updated_at : ProtocolTimestamp;
  ce_profile_id : ProfileId;
  ce_model : option ModelRef;
  ce_message_count : nat;
  ce_pending_approval_count : nat
}.

Definition catalog_entry (s : SessionSnapshot) (name : option SessionName)
    : Result SessionStoreError SessionCatalogEntry :=
  let state := sn_state s in
  let? updated_at := ok_or (env_timestamp <$> last (sn_records s))
                       (store_error InvalidRecordCode "stored session has no durable records") in
  Ok (mk_SessionCatalogEntry (st_session_id state) name updated_at
        (cfg_profile_id (st_configuration state)) (cfg_model (st_configuration state))
        (length (st_messages state)) (size (st_pending_approvals state))).

(** Latest first, then by id. *)
Definition catalog_leb (left right : SessionCatalogEntry) : bool :=
  lex_leb (Z.compare (as_utc (ce_updated_at right)) (as_utc (ce_updated_at left)))
    (session_key_leb (ce_session_id left) (ce_session_id right)).

Definition sort_catalog (entries : list SessionCatalogEntry) : list SessionCatalogEntry :=
  stable_sort catalog_leb entries.

Fixpoint catalog_entries (names : gmap SessionId SessionName)
    (sessions : list (SessionId * StoredSession))
    : option (Result SessionStoreError (list SessionCatalogEntry)) :=
  match sessions with
  | [] => Some (Ok [])
  | (session_id, stored) :: sessions =>
      match snapshot stored with
      | None => None
      | Some s =>
          match catalog_entry s (names !! session_id) with
          | Err e => Some (Err e)
          | Ok entry => (λ entries, let? entries := entries in Ok (entry :: entries)) <$>
                          catalog_entries names sessions
          end
      end
  end.

(** [InMemorySessionStore::list_sessions]. *)
Definition list_sessions (store : InMemorySessionStore)
    : option (Result SessionStoreError (list SessionCatalogEntry)) :=
  (λ entries, let? entries := entries in Ok (sort_catalog entries)) <$>
    catalog_entries (ms_names store) (btree_entries session_key_leb (ms_sessions store)).
