(* ===== verification/ArchiveTheorems.v ===== *)
(** * An archive restores the session it was made from *)

From S2P Require Import Prelude Ordering Utf8 Protocol Policy Approval Validation Command RecordCodec.
From S2P Require Import RecordCodecTheorems SessionState Reducer ReducerReplay ReducerSteps.
From S2P Require Import SessionInvariants SessionHeads SessionTheorems Artifact Store.
From S2P Require Import StoreTheorems Archive.
Local Open Scope tea_scope.

(** ** An approval is requested once *)

Lemma apply_record_approval_ids envelope r u r' :
  apply_record envelope r = (Ok u, r') →
  match env_record envelope with
  | ApprovalRequested approval_id _ _ =>
      approval_id ∉ r_approval_ids r ∧ r_approval_ids r' = {[approval_id]} ∪ r_approval_ids r
  | _ => r_approval_ids r' = r_approval_ids r
  end.
Proof.
  intros H. destruct (env_record envelope) eqn:He.
  all: try (match goal with |- r_approval_ids _ = _ =>
    assert (keeps r_approval_ids (apply_record envelope)) as Hk
      by (unfold apply_record; rewrite He; solve_keeps_record);
    specialize (Hk r); by rewrite H in Hk end).
  unfold apply_record in H. rewrite He in H. unfold apply_approval_requested, update_tool in H.
  red_inv. bool_prop. done.
Qed.

Lemma apply_body_approval_ids bs envelope c u c' :
  apply_body bs envelope c = (Ok u, c') →
  match env_record envelope with
  | ApprovalRequested approval_id _ _ =>
      approval_id ∉ r_approval_ids (rc_self c) ∧
      r_approval_ids (rc_self c') = {[approval_id]} ∪ r_approval_ids (rc_self c)
  | _ => r_approval_ids (rc_self c') = r_approval_ids (rc_self c)
  end.
Proof.
  assert (∀ rid, keeps (λ c, r_approval_ids (rc_self c)) (capture_active_branch rid)) as Hcapture.
  { intros rid. unfold capture_active_branch, get_head, update_leaf, update_state.
    repeat (solve_keeps; try (apply (keeps_on_self r_approval_ids))). }
  assert (∀ src from, keeps (λ c, r_approval_ids (rc_self c)) (fork_source bs src from)) as Hfork.
  { intros src from [r [h|]]; done. }
  intros H. destruct (is_branch_record (env_record envelope)) eqn:Hb.
  - assert (keeps (λ c, r_approval_ids (rc_self c)) (apply_body bs envelope)) as Hk.
    { unfold apply_body. destruct (env_record envelope); try done;
        unfold apply_branch_created, apply_active_branch_changed, get_head, update_leaf, update_state;
        repeat (solve_keeps; try (apply (keeps_on_self r_approval_ids))). }
    specialize (Hk c). rewrite H in Hk. by destruct (env_record envelope).
  - assert (∃ r1, apply_record envelope (rc_self c) = (Ok tt, r1) ∧
      r_approval_ids (rc_self c') = r_approval_ids r1) as (r1 & Hr & Heq).
    { unfold apply_body in H. destruct (env_record envelope); try done;
        apply st_bind_ok in H as ([] & c1 & (r1 & Hr & ->)%on_self_ok & Hc); exists r1;
        (split; [done|]); specialize (Hcapture (env_record_id envelope) (mk_ReducerCall r1 (rc_historical c)));
        by rewrite Hc in Hcapture. }
    apply apply_record_approval_ids in Hr. by destruct (env_record envelope); rewrite Heq.
Qed.

Lemma accept_approval_ids envelope r u r' :
  accept envelope r = (Ok u, r') →
  r_approval_ids r ⊆ r_approval_ids r' ∧
  ∀ approval_id tool_call_id expires_at,
    env_record envelope = ApprovalRequested approval_id tool_call_id expires_at →
    approval_id ∉ r_approval_ids r ∧ approval_id ∈ r_approval_ids r'.
Proof.
  intros (r1 & H & ->)%accept_ok. simpl. unfold apply_inner in H.
  destruct (apply_inner_with_history _ _ _) as [res c] eqn:Hc. simpl in H. simplify_eq.
  unfold apply_inner_with_history in Hc. red_inv.
  simpl in Hc. destruct (r_state r) as [s|] eqn:Hs.
  - unfold apply_next, validate_envelope, validate_branch_scope in Hc. red_inv. simpl in *.
    match goal with Hb : apply_body _ _ _ = _ |- _ => apply apply_body_approval_ids in Hb end.
    destruct (env_record envelope); simpl in *; set_solver.
  - unfold apply_creation in Hc. red_inv. destruct (env_record envelope); red_inv; simpl; try done.
    destruct (env_branch_id envelope); red_inv; simpl; done.
Qed.

(** ** The contexts of a longer log *)

(** The approvals with a context have been requested. *)
Definition contexts_requested (contexts : gmap ApprovalId ApprovalContext) (r : SessionReducer) : Prop :=
  ∀ id, is_Some (contexts !! id) → id ∈ r_approval_ids r.

Lemma contexts_step r contexts e l contexts' :
  reachable r → contexts_from r contexts (e :: l) = Some (Ok contexts') →
  ∃ r1 contexts1, reachable r1 ∧ contexts_from r1 contexts1 l = Some (Ok contexts') ∧
    (∀ l', contexts_from r contexts (e :: l') = contexts_from r1 contexts1 l') ∧
    (contexts_requested contexts r → contexts ⊆ contexts1 ∧ contexts_requested contexts1 r1).
Proof.
  intros Hr H. cbn [contexts_from] in H.
  destruct (apply_cases r e (reachable_replayed _ Hr)) as [(r1 & Ha & Hap)|(er & r1 & _ & Hap)];
    rewrite Hap in H; [|done].
  destruct (context_of r1 e contexts) as [contexts1|] eqn:Hc; [|done].
  exists r1, contexts1. split_and!; [by eapply reachable_apply|done| |].
  { intros l'. cbn [contexts_from]. by rewrite Hap, Hc. }
  intros Hreq. destruct (accept_approval_ids _ _ _ _ Ha) as [Hsub Hnew].
  unfold context_of in Hc. destruct (env_record e) eqn:He;
    try (injection Hc as <-; split; [done|]; intros id Hid; by apply Hsub, Hreq).
  apply result_bind_ok in Hc as (s & _ & Hc). apply result_bind_ok in Hc as (tool & _ & [= <-]).
  destruct (Hnew _ _ _ eq_refl) as [Hfresh Hin]. split.
  - apply insert_subseteq. apply eq_None_not_Some. by intros Hid%Hreq.
  - intros id. rewrite lookup_insert_is_Some. intros [<-|[_ Hid]]; [done|]. by apply Hsub, Hreq.
Qed.

Lemma contexts_from_grow l : ∀ r contexts contexts',
  reachable r → contexts_requested contexts r →
  contexts_from r contexts l = Some (Ok contexts') → contexts ⊆ contexts'.
Proof.
  induction l as [|e l IH]; intros r contexts contexts' Hr Hreq H.
  { by injection H as <-. }
  destruct (contexts_step _ _ _ _ _ Hr H) as (r1 & contexts1 & Hr1 & H1 & _ & Hstep).
  destruct (Hstep Hreq) as [Hsub Hreq1]. etrans; [done|]. by eapply IH.
Qed.

Lemma contexts_from_prefix l1 l2 : ∀ r contexts contexts1 contexts2,
  reachable r → contexts_requested contexts r →
  contexts_from r contexts l1 = Some (Ok contexts1) →
  contexts_from r contexts (l1 ++ l2) = Some (Ok contexts2) → contexts1 ⊆ contexts2.
Proof.
  induction l1 as [|e l1 IH]; intros r contexts contexts1 contexts2 Hr Hreq H1 H2.
  { injection H1 as <-. by eapply contexts_from_grow. }
  destruct (contexts_step _ _ _ _ _ Hr H1) as (r1 & c1 & Hr1 & H1' & Hall & Hstep).
  destruct (Hstep Hreq) as [_ Hreq1]. rewrite <- app_comm_cons, Hall in H2.
  by eapply IH.
Qed.

Lemma approval_contexts_prefix l1 l2 contexts1 contexts2 :
  approval_contexts l1 = Some (Ok contexts1) → approval_contexts (l1 ++ l2) = Some (Ok contexts2) →
  contexts1 ⊆ contexts2.
Proof.
  apply contexts_from_prefix; [apply reachable_new|]. intros id [? Hid]. by rewrite lookup_empty in Hid.
Qed.

(** ** Approval entries beside other grants, in a longer log *)

Definition set_grants (grants : gmap GrantId PolicyGrant) (s : ArtifactState) : ArtifactState :=
  mk_ArtifactState (as_requests s) (as_resolutions s) grants.

Definition add_resolution (resolutions : ResolutionIndex) (e : ApprovalArtifactEntry)
    : ResolutionIndex :=
  match e with
  | ArtifactRequested _ _ _ => resolutions
  | ArtifactResolved record_id resolution => <[record_id := resolution]> resolutions
  end.

Lemma guard_run {S E} b (e : E) (s : S) : b = true → st_ensure b e s = (Ok tt, s).
Proof. by intros ->. Qed.

Lemma lookup_run {S E A} (o : option A) a (e : E) (s : S) :
  o = Some a → st_lift (ok_or o e) s = (Ok a, s).
Proof. by intros ->. Qed.

Lemma apply_request_frame sid record request aid tid exp contexts contexts' s u s' grants :
  contexts ⊆ contexts' →
  apply_request sid record request aid tid exp contexts s = (Ok u, s') →
  apply_request sid record request aid tid exp contexts' (set_grants grants s) =
    (Ok tt, set_grants grants s').
Proof.
  intros Hsub H. unfold apply_request in *. st_inv.
  match goal with Hc : contexts !! _ = Some _ |- _ => rewrite (lookup_weaken _ _ _ _ Hc Hsub) end.
  eapply st_bind_run; [done|]. eapply st_bind_run; [apply guard_run; eassumption|].
  eapply st_bind_run; [done|]. eapply st_bind_run; [done|].
  by apply guard_run.
Qed.

Lemma apply_resolution_frame record resolution aid decision s u s' grants :
  apply_resolution record resolution aid decision s = (Ok u, s') →
  apply_resolution record resolution aid decision (set_grants grants s) = (Ok tt, set_grants grants s').
Proof.
  intros H. unfold apply_resolution in *. st_inv.
  eapply st_bind_run; [done|]. eapply st_bind_run; [apply lookup_run; eassumption|].
  eapply st_bind_run; [apply guard_run; eassumption|].
  eapply st_bind_run; [done|]. eapply st_bind_run; [done|].
  by apply guard_run.
Qed.

(** What an index, the contexts and the grants beside it leave of the run of
    some approval entries. *)
Section frames.
Context (sid : SessionId) (index index' : gmap RecordId RecordEnvelope)
  (contexts contexts' : gmap ApprovalId ApprovalContext) (grants : gmap GrantId PolicyGrant).
Hypothesis (Hindex : index ⊆ index') (Hcontexts : contexts ⊆ contexts').
Hypothesis (Hids : ∀ rid record, index !! rid = Some record → env_record_id record = rid).

Lemma apply_approval_frame resolutions entry s resolutions' s' :
  apply_approval sid index contexts resolutions entry s = (Ok resolutions', s') →
  resolutions' = add_resolution resolutions entry ∧
  ∀ base, apply_approval sid index' contexts' base entry (set_grants grants s) =
    (Ok (add_resolution base entry), set_grants grants s').
Proof.
  intros H. unfold apply_approval in *. st_inv.
  match goal with Hi : index !! _ = Some _ |- _ =>
    pose proof (Hids _ _ Hi) as Hid; rewrite (lookup_weaken _ _ _ _ Hi Hindex) end.
  destruct entry as [rid request fmt|rid resolution], (env_record a) eqn:Henv; st_inv; try done;
    simpl in Hid; subst rid; (split; [done|]); intros base;
    (eapply st_bind_run; [done|]); simpl; rewrite Henv.
  - eapply st_bind_run; [by eapply apply_request_frame|done].
  - eapply st_bind_run; [by eapply apply_resolution_frame|done].
Qed.

Lemma apply_approvals_frame approvals : ∀ resolutions s resolutions' s',
  apply_approvals sid index contexts resolutions approvals s = (Ok resolutions', s') →
  resolutions' = foldl add_resolution resolutions approvals ∧
  ∀ base, apply_approvals sid index' contexts' base approvals (set_grants grants s) =
    (Ok (foldl add_resolution base approvals), set_grants grants s').
Proof.
  induction approvals as [|entry approvals IH]; intros resolutions s resolutions' s' H;
    cbn [apply_approvals foldl] in *; st_inv; [done|].
  match goal with Ha : apply_approval _ _ _ _ _ _ = _ |- _ =>
    destruct (apply_approval_frame _ _ _ _ _ Ha) as [-> Hrun] end.
  destruct (IH _ _ _ _ H) as [-> Hruns]. split; [done|]. intros base.
  eapply st_bind_run; [apply Hrun|apply Hruns].
Qed.
End frames.

Lemma apply_approvals_app sid index contexts l1 l2 resolutions s resolutions1 s1 res :
  apply_approvals sid index contexts resolutions l1 s = (Ok resolutions1, s1) →
  apply_approvals sid index contexts resolutions1 l2 s1 = res →
  apply_approvals sid index contexts resolutions (l1 ++ l2) s = res.
Proof.
  revert resolutions s. induction l1 as [|entry l1 IH]; intros resolutions s; cbn [apply_approvals app].
  { by intros [= <- <-]. }
  intros H H2. st_inv. eapply st_bind_run; [eassumption|]. by apply IH.
Qed.

(** ** Grant entries beside other approvals, with more resolutions *)

Definition with_approvals (base s : ArtifactState) : ArtifactState := set_grants (as_grants s) base.

Definition add_issued (issued : gset RecordId) (e : GrantJournalEntry) : gset RecordId :=
  match e with GrantIssued record_id _ => {[record_id]} ∪ issued | GrantRevoked _ => issued end.

Lemma apply_grant_frame resolutions resolutions' issued entry s issued' s' base :
  resolutions ⊆ resolutions' →
  apply_grant resolutions issued entry s = (Ok issued', s') →
  issued' = add_issued issued entry ∧
  ∀ issued0, apply_grant resolutions' issued0 entry (with_approvals base s) =
    (Ok (add_issued issued0 entry), with_approvals base s').
Proof.
  intros Hsub H. destruct entry as [rid grant|grant]; unfold apply_grant, apply_revocation in *; st_inv;
    (split; [done|]); intros issued0.
  - match goal with Hr : resolutions !! _ = Some _ |- _ => rewrite (lookup_weaken _ _ _ _ Hr Hsub) end.
    eapply st_bind_run; [done|]. eapply st_bind_run; [apply guard_run; eassumption|].
    eapply st_bind_run; [done|]. eapply st_bind_run; [done|].
    eapply st_bind_run; [apply guard_run; eassumption|done].
  - eapply st_bind_run; [|done]. eapply st_bind_run; [done|].
    eapply st_bind_run; [apply lookup_run; eassumption|].
    eapply st_bind_run; [apply guard_run; eassumption|done].
Qed.

Lemma apply_grant_entries_frame resolutions resolutions' base grants : ∀ issued s issued' s',
  resolutions ⊆ resolutions' →
  apply_grant_entries resolutions issued grants s = (Ok issued', s') →
  issued' = foldl add_issued issued grants ∧
  ∀ issued0, apply_grant_entries resolutions' issued0 grants (with_approvals base s) =
    (Ok (foldl add_issued issued0 grants), with_approvals base s').
Proof.
  induction grants as [|entry grants IH]; intros issued s issued' s' Hsub H;
    cbn [apply_grant_entries foldl] in *; st_inv; [done|].
  match goal with Ha : apply_grant _ _ _ _ = _ |- _ =>
    destruct (apply_grant_frame _ _ _ _ _ _ _ base Hsub Ha) as [-> Hrun] end.
  destruct (IH _ _ _ _ Hsub H) as [-> Hruns]. split; [done|]. intros issued0.
  eapply st_bind_run; [apply Hrun|apply Hruns].
Qed.

Lemma apply_grant_entries_app resolutions l1 l2 issued s issued1 s1 res :
  apply_grant_entries resolutions issued l1 s = (Ok issued1, s1) →
  apply_grant_entries resolutions issued1 l2 s1 = res →
  apply_grant_entries resolutions issued (l1 ++ l2) s = res.
Proof.
  revert issued s. induction l1 as [|entry l1 IH]; intros issued s; cbn [apply_grant_entries app].
  { by intros [= <- <-]. }
  intros H H2. st_inv. eapply st_bind_run; [eassumption|]. by apply IH.
Qed.

(** ** Joining two runs *)

Lemma distinct_record (l : list RecordEnvelope) e1 e2 :
  NoDup (env_record_id <$> l) → e1 ∈ l → e2 ∈ l → env_record_id e1 = env_record_id e2 → e1 = e2.
Proof.
  intros Hnd [i Hi]%list_elem_of_lookup [j Hj]%list_elem_of_lookup Heq.
  assert (i = j) as <-; [|congruence].
  eapply (NoDup_lookup _ _ _ (env_record_id e1) Hnd); rewrite list_lookup_fmap; [by rewrite Hi|].
  by rewrite Hj, Heq.
Qed.

Lemma record_index_in l e : NoDup (env_record_id <$> l) → e ∈ l → record_index l !! env_record_id e = Some e.
Proof.
  intros Hnd He. destruct (btree_collect_is_Some ((λ record, (env_record_id record, record)) <$> l)
    (env_record_id e) e) as [e' He'].
  { apply list_elem_of_fmap. by exists e. }
  change (record_index l !! env_record_id e = Some e') in He'. rewrite He'. f_equal.
  apply record_index_Some in He' as [Hin Hid]. by eapply distinct_record.
Qed.

Lemma record_index_subseteq l l' :
  NoDup (env_record_id <$> l') → (∀ e, e ∈ l → e ∈ l') → record_index l ⊆ record_index l'.
Proof.
  intros Hnd Hin. apply map_subseteq_spec. intros rid e [He <-]%record_index_Some.
  apply record_index_in; auto.
Qed.

Lemma add_resolutions_union approvals base :
  foldl add_resolution base approvals = foldl add_resolution ∅ approvals ∪ base.
Proof.
  induction approvals as [|e approvals IH] using rev_ind; simpl; [by rewrite map_empty_union|].
  rewrite !foldl_app. simpl. rewrite IH. destruct e; simpl; [done|]. by rewrite insert_union_l.
Qed.

Lemma add_issued_union grants base : foldl add_issued base grants = foldl add_issued ∅ grants ∪ base.
Proof.
  induction grants as [|e grants IH] using rev_ind; simpl; [set_solver|].
  rewrite !foldl_app. simpl. rewrite IH. destruct e; simpl; set_solver.
Qed.

Lemma set_grants_self s : set_grants (as_grants s) s = s.
Proof. by destruct s. Qed.

Lemma rebuild_grants_approvals grants s : ∀ g,
  set_grants g (foldl rebuild_grant s grants) = set_grants g s.
Proof.
  revert s. induction grants as [|e grants IH]; intros s g; simpl; [done|]. by rewrite IH.
Qed.

Lemma unjournaled_union (res1 res2 : ResolutionIndex) issued1 issued2 :
  unjournaled res1 issued1 = false → unjournaled res2 issued2 = false →
  unjournaled (res2 ∪ res1) (issued2 ∪ issued1) = false.
Proof.
  intros H1 H2. apply not_true_iff_false. intros ([rid r] & Hin & Hr)%existsb_exists.
  apply list_elem_of_In, elem_of_map_to_list in Hin. simpl in Hr.
  apply andb_true_iff in Hr as [Hg%bool_decide_eq_true Hn%negb_true_iff%bool_decide_eq_false].
  assert (∀ res issued, unjournaled res issued = false → res !! rid = Some r → rid ∈ issued) as Hj.
  { intros res issued Hu Hl. destruct (decide (rid ∈ issued)) as [|Hout]; [done|exfalso].
    apply not_true_iff_false in Hu. apply Hu, existsb_exists. exists (rid, r).
    split; [by apply list_elem_of_In, elem_of_map_to_list|]. simpl.
    rewrite bool_decide_eq_true_2 by done. by rewrite bool_decide_eq_false_2. }
  apply lookup_union_Some_raw in Hin as [Hin|[_ Hin]].
  - specialize (Hj _ _ H2 Hin). set_solver.
  - specialize (Hj _ _ H1 Hin). set_solver.
Qed.

Lemma linked_from_empty sid l contexts approvals s resolutions s' :
  apply_approvals sid (record_index l) contexts ∅ approvals s = (Ok resolutions, s') →
  resolutions_linked l approvals resolutions.
Proof.
  intros H. eapply apply_approvals_linked; [exact H|done|].
  intros ? ? He. by rewrite lookup_empty in He.
Qed.

(** The approvals of a longer log, run before the grants of the shorter one. *)
Lemma join_approvals sid R T A1 A2 ctx1 ctx2 res1 res2 s1 d1 d2 :
  NoDup (env_record_id <$> R ++ T) → ctx1 ⊆ ctx2 →
  apply_approvals sid (record_index R) ctx1 ∅ A1 artifacts_default = (Ok res1, d1) →
  apply_approvals sid (record_index T) ctx2 ∅ A2 s1 = (Ok res2, d2) → set_grants ∅ s1 = d1 →
  apply_approvals sid (record_index (R ++ T)) ctx2 ∅ (A1 ++ A2) artifacts_default =
    (Ok (res2 ∪ res1), set_grants ∅ d2) ∧ res1 ⊆ res2 ∪ res1.
Proof.
  intros Hnd Hctx Ha1 Ha2 Hs1.
  assert (record_index R ⊆ record_index (R ++ T)) as HR by (apply record_index_subseteq; set_solver).
  assert (record_index T ⊆ record_index (R ++ T)) as HT by (apply record_index_subseteq; set_solver).
  assert (∀ l rid e, record_index l !! rid = Some e → env_record_id e = rid) as Hids
    by (intros l rid e He; by apply record_index_Some in He as [_ ?]).
  pose proof (linked_from_empty _ _ _ _ _ _ _ Ha1) as Hl1.
  pose proof (linked_from_empty _ _ _ _ _ _ _ Ha2) as Hl2.
  assert (set_grants ∅ d1 = d1) as Hd1 by by rewrite <- Hs1.
  destruct (apply_approvals_frame sid _ _ _ _ ∅ HR Hctx (Hids R) _ _ _ _ _ Ha1) as [Hr1 Hrun1].
  destruct (apply_approvals_frame sid _ _ _ _ ∅ HT (reflexivity ctx2) (Hids T) _ _ _ _ _ Ha2)
    as [Hr2 Hrun2].
  split.
  - rewrite Hr2, <- add_resolutions_union. eapply apply_approvals_app; [|].
    + rewrite <- (eq_refl : set_grants ∅ artifacts_default = artifacts_default). apply Hrun1.
    + rewrite <- Hr1, Hd1, <- Hs1. apply Hrun2.
  - apply map_union_subseteq_r, map_disjoint_spec. intros rid r2 r1 H2 H1.
    destruct (Hl1 _ _ H1) as (_ & e1 & _ & He1 & Hid1 & _).
    destruct (Hl2 _ _ H2) as (_ & e2 & _ & He2 & Hid2 & _).
    rewrite fmap_app in Hnd. apply NoDup_app in Hnd as (_ & Hdisj & _).
    apply (Hdisj rid); apply list_elem_of_fmap; [exists e1|exists e2]; done.
Qed.

(** The grants of both runs, after all the approvals. *)
Lemma join_grants res1 res2 G1 G2 issued1 issued2 d1 s1 d2 s2 :
  res1 ⊆ res2 ∪ res1 → as_grants d1 = ∅ → as_grants d2 = as_grants s1 →
  apply_grant_entries res1 ∅ G1 d1 = (Ok issued1, s1) →
  apply_grant_entries res2 ∅ G2 d2 = (Ok issued2, s2) →
  apply_grant_entries (res2 ∪ res1) ∅ (G1 ++ G2) (set_grants ∅ d2) = (Ok (issued2 ∪ issued1), s2).
Proof.
  intros Hsub1 Hgd1 Hgd2 Hg1 Hg2.
  pose proof (apply_grant_entries_ok _ _ _ _ _ _ Hg2) as Hs2.
  assert (res2 ⊆ res2 ∪ res1) as Hsub2 by apply map_union_subseteq_l.
  destruct (apply_grant_entries_frame _ _ d2 G1 _ _ _ _ Hsub1 Hg1) as [Hi1 Hrun1].
  destruct (apply_grant_entries_frame _ _ d2 G2 _ _ _ _ Hsub2 Hg2) as [Hi2 Hrun2].
  assert (with_approvals d2 s2 = s2) as Hend.
  { unfold with_approvals. rewrite <- (rebuild_grants_approvals G2), <- Hs2. apply set_grants_self. }
  assert (with_approvals d2 d1 = set_grants ∅ d2) as Hstart by (unfold with_approvals; by rewrite Hgd1).
  assert (with_approvals d2 s1 = with_approvals d2 d2) as Hmid
    by (unfold with_approvals; by rewrite Hgd2).
  assert (with_approvals d2 d2 = d2) as Hd2 by apply set_grants_self.
  eapply apply_grant_entries_app; [rewrite <- Hstart; apply Hrun1|].
  rewrite Hmid, Hrun2, Hend, <- Hi1, add_issued_union. by rewrite <- Hi2.
Qed.

Lemma artifacts_apply_join sid R T A1 A2 G1 G2 s1 s2 :
  NoDup (env_record_id <$> R ++ T) →
  artifacts_apply sid R R A1 G1 artifacts_default = Some (Ok tt, s1) →
  artifacts_apply sid (R ++ T) T A2 G2 s1 = Some (Ok tt, s2) →
  artifacts_apply sid (R ++ T) (R ++ T) (A1 ++ A2) (G1 ++ G2) artifacts_default = Some (Ok tt, s2).
Proof.
  intros Hnd (ctx1 & res1 & issued1 & d1 & Hctx1 & Ha1 & Hg1 & Hu1)%artifacts_apply_ok
    (ctx2 & res2 & issued2 & d2 & Hctx2 & Ha2 & Hg2 & Hu2)%artifacts_apply_ok.
  assert (as_grants d1 = ∅) as Hgd1
    by (rewrite (apply_approvals_ok _ _ _ _ _ _ _ _ Ha1); apply rebuild_approvals_grants).
  assert (as_grants d2 = as_grants s1) as Hgd2
    by (rewrite (apply_approvals_ok _ _ _ _ _ _ _ _ Ha2); apply rebuild_approvals_grants).
  assert (set_grants ∅ s1 = d1) as Hs1d1.
  { rewrite (apply_grant_entries_ok _ _ _ _ _ _ Hg1), rebuild_grants_approvals, <- Hgd1.
    apply set_grants_self. }
  destruct (join_approvals sid R T A1 A2 ctx1 ctx2 res1 res2 s1 d1 d2) as [Happrovals Hsub1];
    [done|by eapply approval_contexts_prefix|done..|].
  unfold artifacts_apply. rewrite Hctx2. f_equal.
  eapply st_bind_run; [done|]. eapply st_bind_run; [exact Happrovals|].
  unfold apply_grants. eapply st_bind_run; [by eapply join_grants|].
  apply guard_run. by rewrite (unjournaled_union _ _ _ _ Hu1 Hu2).
Qed.

(** ** Every stored session can be archived *)

(** Applying the journals of a session to its whole log at once gives its
    authorization state. *)
Definition archivable (id : SessionId) (s : StoredSession) : Prop :=
  artifacts_apply id (sd_records s) (sd_records s) (sd_approval_artifacts s) (sd_grant_journal s)
    artifacts_default = Some (Ok tt, sd_artifacts s).

Lemma stored_default_archivable id : archivable id stored_default.
Proof. done. Qed.

Lemma stored_record_ids s : stored_wf s → NoDup (env_record_id <$> sd_records s).
Proof. intros Hwf. rewrite <- (sdw_records _ Hwf). apply reachable_record_ids, Hwf. Qed.

Lemma in_place_archivable tx stored existed in_use outcome s' :
  archivable (tx_session_id tx) stored → stored_wf s' →
  apply_transaction_in_place tx stored existed in_use = Some (Ok outcome, s') →
  archivable (tx_session_id tx) s'.
Proof.
  intros Harch Hwf Hin. pose proof (stored_record_ids _ Hwf) as Hnd.
  unfold apply_transaction_in_place in Hin.
  destruct (admit_transaction _ _ _ _) as [[previous revision]|]; [|done].
  destruct (apply_records _ _) as [[[] r]|]; [|by unfold recover in Hin; repeat case_match|done].
  destruct (artifacts_apply _ _ _ _ _ _) as [[[[]|] artifacts]|] eqn:Hart;
    [|by unfold recover in Hin; repeat case_match|done].
  destruct (r_state r); [|done]. injection Hin as _ <-. simpl in Hnd, Hart.
  unfold archivable. simpl. by eapply artifacts_apply_join.
Qed.

Lemma reachable_store_archivable m :
  reachable_store m → ∀ id s, ms_sessions m !! id = Some s → archivable id s.
Proof.
  induction 1 as [|m tx res m' Hm IH Ha|m id name res m' Hm IH Hn]; intros id' s Hs.
  - simpl in Hs. by rewrite lookup_empty in Hs.
  - destruct (append_cases m tx (reachable_store_wf m Hm)) as [_ [[e He]|Hok]];
      [rewrite He in Ha; injection Ha as _ <-; by apply IH|].
    destruct Hok as (outcome & s' & previous & Hap & Hwf & _ & _ & _ & Hin).
    rewrite Hap in Ha. injection Ha as _ <-. simpl in Hs.
    apply lookup_insert_Some in Hs as [[<- <-]|[_ Hs]]; [|by apply IH].
    eapply in_place_archivable; [|done|exact Hin].
    destruct (ms_sessions m !! tx_session_id tx) as [s0|] eqn:Hs0; simpl;
      [by apply IH|apply stored_default_archivable].
  - unfold set_session_name in Hn. destruct (ms_sessions m !! id); simplify_eq; by apply IH.
Qed.

(** ** Importing an archive *)

Lemma apply_records_accept records : ∀ r r',
  reachable r → st_for records accept r = (Ok tt, r') → apply_records r records = Some (Ok tt, r').
Proof.
  induction records as [|e records IH]; intros r r' Hr; simpl; intros H; st_inv; [done|].
  destruct (apply_cases r e (reachable_replayed _ Hr)) as [(r2 & Ha & Hap)|(er & r1 & Hi & _)].
  - rewrite Hap. assert (r2 = s) as -> by congruence.
    apply IH; [|done]. by eapply reachable_apply.
  - match goal with Ha : accept e r = _ |- _ => apply accept_ok in Ha as (? & ? & _) end. congruence.
Qed.

Lemma check_grant_ids_run in_use entries : ∀ seen,
  NoDup (issued_ids entries) → (∀ g, g ∈ issued_ids entries → g ∉ seen ∧ in_use g = false) →
  check_grant_ids in_use seen entries = Ok tt.
Proof.
  induction entries as [|[rid gr|gr] entries IH]; intros seen Hnd Hin; simpl; [done| |].
  - change (issued_ids (GrantIssued rid gr :: entries)) with (gr_id gr :: issued_ids entries) in *.
    apply NoDup_cons in Hnd as [Hout Hnd].
    destruct (Hin (gr_id gr)) as [Hseen Huse]; [by left|].
    rewrite bool_decide_eq_false_2, Huse by done. simpl. unfold result_bind, ensure. simpl.
    apply IH; [done|]. intros g Hg. destruct (Hin g) as [Hs Hu]; [by right|]. split; [|done].
    intros [->%elem_of_singleton|]%elem_of_union; done.
  - by apply IH.
Qed.

Section import.
Context (s : StoredSession) (state : MaterializedSessionState).
Hypothesis (Hwf : stored_wf s) (Hstate : r_state (sd_reducer s) = Some state).
Hypothesis (Harch : archivable (st_session_id state) s).

Definition archive_of : SessionArchive :=
  mk_SessionArchive CURRENT_ARCHIVE_FORMAT_VERSION (st_session_id state) (sd_records s)
    (sd_approval_artifacts s) (sd_grant_journal s).

Lemma stored_records_nonempty : sd_records s ≠ [].
Proof.
  rewrite <- (sdw_records _ Hwf). apply reachable_state; [apply Hwf|by eexists].
Qed.

Lemma stored_replay : replay (sd_records s) = Some (Ok state).
Proof.
  pose proof (rebuild_reducer_ok _ (sdw_reducer _ Hwf)) as Hred.
  rewrite (sdw_records _ Hwf) in Hred. unfold rebuild_reducer in Hred.
  pose proof stored_records_nonempty as Hne. unfold replay.
  destruct (sd_records s) as [|e l]; [done|].
  destruct (replay_reducer (e :: l)) as [[r|]|]; simplify_eq/=.
  unfold result_bind. by rewrite Hstate.
Qed.

Lemma archive_of_valid : archive_validate archive_of = Some (Ok tt).
Proof.
  unfold archive_validate. simpl.
  assert (existsb (λ record, negb (bool_decide (env_session_id record = st_session_id state)))
            (sd_records s) = false) as ->.
  { apply not_true_iff_false. intros (e & He%list_elem_of_In & Hid)%existsb_exists.
    rewrite (stored_session_ids _ _ _ _ Hwf Hstate eq_refl He) in Hid.
    by rewrite bool_decide_eq_true_2 in Hid. }
  rewrite stored_replay. unfold archivable in Harch. by rewrite Harch.
Qed.

Lemma import_admitted in_use :
  NoDup (issued_ids (sd_grant_journal s)) →
  (∀ g, g ∈ issued_ids (sd_grant_journal s) → in_use g = false) →
  admit_transaction (archive_transaction archive_of) stored_default false in_use =
    Ok (None, sd_journal_revision s).
Proof.
  intros Hnd Hfresh. unfold admit_transaction.
  pose proof stored_records_nonempty as Hne.
  assert (validate_transaction_shape (archive_transaction archive_of) = Ok tt) as ->.
  { unfold validate_transaction_shape. simpl.
    assert (is_empty (sd_records s) = false) as -> by by destruct (sd_records s).
    assert (forallb (λ record, bool_decide (env_session_id record = st_session_id state))
              (sd_records s) = true) as ->; [|done].
    apply forallb_forall. intros e He%list_elem_of_In. apply bool_decide_eq_true.
    by eapply stored_session_ids. }
  assert (validate_expectation None (archive_transaction archive_of) = Ok tt) as ->.
  { unfold validate_expectation. simpl.
    pose proof (reachable_log_wf _ _ (sdw_reducer _ Hwf) Hstate) as [Hlog _].
    rewrite (sdw_records _ Hwf) in Hlog. destruct (sd_records s) as [|e l]; [done|].
    pose proof (rwf_sequence _ _ _ (Hlog 0 e eq_refl)) as Hseq. simpl.
    unfold result_bind, ok_or. rewrite bool_decide_eq_true_2; [done|].
    destruct (env_sequence e). simpl in Hseq. by rewrite Hseq. }
  assert (validate_global_grant_ids None (sd_grant_journal s) in_use = Ok tt) as Hids.
  { apply check_grant_ids_run; [done|]. intros g Hg. split; [set_solver|]. by rewrite Hfresh. }
  simpl. rewrite Hids. unfold entry_count. rewrite (sdw_revision _ Hwf).
  unfold result_bind, ok_or, ensure. simpl.
  rewrite andb_false_r. simpl.
  assert (checked_add_u64 0 (sd_journal_revision s) = Some (sd_journal_revision s)) as ->; [|done].
  pose proof (sdw_revision _ Hwf) as Hrev. apply checked_add_Some in Hrev as [-> Hle].
  apply checked_add_Some. lia.
Qed.

Lemma import_applied in_use :
  NoDup (issued_ids (sd_grant_journal s)) →
  (∀ g, g ∈ issued_ids (sd_grant_journal s) → in_use g = false) →
  apply_transaction_in_place (archive_transaction archive_of) stored_default false in_use =
    Some (Ok (mk_AppendOutcome None (st_tail_sequence state) state (sd_journal_revision s)), s).
Proof.
  intros Hnd Hfresh. unfold apply_transaction_in_place. rewrite import_admitted by done.
  assert (apply_records reducer_new (sd_records s) = Some (Ok tt, sd_reducer s)) as Hrun.
  { apply apply_records_accept; [apply reachable_new|]. rewrite <- (sdw_records _ Hwf).
    apply reachable_replayed, Hwf. }
  unfold archivable in Harch. simpl. rewrite Hrun, Harch, Hstate. by destruct s.
Qed.
End import.

(** C30: an archive restores its session: any session of a reachable store
    within the archive bounds is exported, and importing the archive into any
    store that holds neither the session nor a grant it issued accepts the whole
    session as one transaction and stores exactly what was exported: records,
    journals, derived authorization state, revision and reducer. *)
Theorem archive_restores_session text m id s :
  reachable_store m → ms_sessions m !! id = Some s →
  archive_over_bound (sd_records s) (sd_approval_artifacts s) (sd_grant_journal s) = false →
  ∃ exported archive, load m id = Some (Ok exported) ∧
    archive_from_snapshot exported = Some (Ok archive) ∧
    ∀ m', ms_sessions m' !! id = None →
      (∀ g, g ∈ issued_ids (sd_grant_journal s) → g ∉ known_grant_ids (ms_sessions m')) →
      ∃ outcome, import_into text archive m' = Some (Ok outcome,
          mk_InMemorySessionStore (<[id := s]> (ms_sessions m')) (ms_names m')) ∧
        ao_state outcome = sn_state exported.
Proof.
  intros Hm Hs Hbound. pose proof (reachable_store_wf _ Hm) as Hstore.
  destruct (mw_sessions _ Hstore _ _ Hs) as (Hwf & state & Hstate & <-).
  pose proof (reachable_store_archivable _ Hm _ _ Hs) as Harch.
  pose proof (archive_of_valid s state Hwf Hstate Harch) as Hvalid.
  eexists _, (archive_of s state). unfold load, snapshot. rewrite Hs, Hstate. split; [done|].
  split.
  { unfold archive_from_snapshot, archive_new. simpl. rewrite Hbound.
    unfold archive_of in Hvalid. by rewrite Hvalid. }
  intros m' Hnone Hfresh. unfold import_into. rewrite Hvalid. unfold append. simpl.
  rewrite Hnone. simpl. rewrite import_applied; [|done..| |].
  - simpl. by eexists.
  - by eapply mw_grants_once.
  - intros g Hg. apply bool_decide_eq_false. by apply Hfresh.
Qed.

(** A session whose approval issued a grant that was then revoked. *)
Definition sample_source : InMemorySessionStore :=
  StoreSample.after StoreSample.granted StoreSample.revoking.
Definition sample_session : StoredSession :=
  default stored_default (ms_sessions sample_source !! (mk_id 1 : SessionId)).

Lemma sample_source_reachable : reachable_store sample_source.
Proof. apply after_reachable, after_reachable, reachable_store_new. Qed.

Lemma archive_restores_session_witness :
  length (sd_records sample_session) = 7 ∧ length (sd_grant_journal sample_session) = 2 ∧
  ∃ exported archive, load sample_source (mk_id 1) = Some (Ok exported) ∧
    archive_from_snapshot exported = Some (Ok archive) ∧
    ∃ outcome, import_into (λ _, "archive"%string) archive store_new = Some (Ok outcome,
      mk_InMemorySessionStore {[mk_id 1 := sample_session]} ∅).
Proof.
  split; [by vm_compute|]. split; [by vm_compute|].
  destruct (archive_restores_session (λ _, "archive"%string) sample_source (mk_id 1) sample_session)
    as (exported & archive & Hload & Hexport & Himport).
  - apply sample_source_reachable.
  - by vm_compute.
  - by vm_compute.
  - exists exported, archive. split; [done|]. split; [done|].
    destruct (Himport store_new) as (outcome & Hok & _);
      [apply lookup_empty|intros g _; by vm_compute|].
    exists outcome. exact Hok.
Defined.

(** ** Archive JSON *)

Section json.
Context `{Codec, UuidText, TimestampText, RecordSerde, ArchiveSerde}.

(** The derived serializers of the journal entries agree with their
    deserializers and make values; the parser reads the text of a value. *)
Class LawfulArchiveSerde : Prop := {
  approval_serde_lawful e v : approval_serialize e = Ok v → value_wf v ∧ approval_deserialize v = Some e;
  grant_serde_lawful e v : grant_serialize e = Ok v → value_wf v ∧ grant_deserialize v = Some e
}.

Lemma serialized_values {E A} (serialize : A → Result E Value) (P : A → Value → Prop) l values :
  (∀ a v, a ∈ l → serialize a = Ok v → P a v) → result_map serialize l = Ok values →
  Forall2 P l values.
Proof.
  revert values. induction l as [|a l IH]; intros values HP; cbn [result_map].
  { intros [= <-]. constructor. }
  intros (v & Hv & (vs & Hvs & [= <-])%result_bind_ok)%result_bind_ok. constructor.
  - apply HP; [by left|done].
  - apply IH; [|done]. intros b w Hb. apply HP. by right.
Qed.

Lemma decode_values {A} (decode : Value → option A) l values :
  Forall2 (λ a v, decode v = Some a) l values → mapM decode values = Some l.
Proof. intros Hall. apply mapM_Some. by apply Forall2_flip. Qed.

Lemma decode_records l values :
  Forall2 (λ e v, record_decode_value v = Ok e) l values → result_map record_decode_value values = Ok l.
Proof. induction 1 as [|e v l values He _ IH]; [done|]. cbn [result_map]. by rewrite He, IH. Qed.

Lemma archive_value_wf {A B C} (l1 : list A) (l2 : list B) (l3 : list C) approvals grants records
    (P : B → Value → Prop) (Q : C → Value → Prop) version sid :
  Forall2 (λ _ v, value_wf v) l1 records → Forall2 (λ e v, value_wf v ∧ P e v) l2 approvals →
  Forall2 (λ e v, value_wf v ∧ Q e v) l3 grants →
  value_wf (JObject [("approvalArtifacts"%string, JArray approvals);
                     ("formatVersion"%string, JNumber (PosInt version));
                     ("grantJournal"%string, JArray grants);
                     ("records"%string, JArray records);
                     ("sessionId"%string, JString sid)]).
Proof.
  intros Hl1 Hl2 Hl3. apply value_wf_object. split.
  - by repeat first [apply SSorted_nil | apply Forall_nil; exact I | apply SSorted_cons
                    | apply Forall_cons; split; [reflexivity|]].
  - rewrite !Forall_cons, Forall_nil. cbn [snd]. rewrite !value_wf_array.
    split_and!; try done; clear -Hl1 Hl2 Hl3.
    + eapply Forall2_Forall_r; [exact Hl2|]. apply Forall_true. naive_solver.
    + eapply Forall2_Forall_r; [exact Hl3|]. apply Forall_true. naive_solver.
    + eapply Forall2_Forall_r; [exact Hl1|]. by apply Forall_true.
Qed.

Lemma raw_fields_run `{!LawfulUuidText} sid records approvals grants la lg :
  id_wf sid →
  Forall2 (λ e v, approval_deserialize v = Some e) la approvals ∧
  Forall2 (λ e v, grant_deserialize v = Some e) lg grants →
  raw_fields (Some (JNumber (PosInt CURRENT_ARCHIVE_FORMAT_VERSION)))
    (Some (JString (show_protocol_id sid))) (Some (JArray records)) (Some (JArray approvals))
    (Some (JArray grants)) =
  Some (mk_RawSessionArchive CURRENT_ARCHIVE_FORMAT_VERSION sid records la lg).
Proof.
  intros Hid [Ha Hg]. unfold raw_fields, decode_default, decode_vec.
  rewrite (decode_values _ _ _ Ha), (decode_values _ _ _ Hg).
  assert (mapM Some records = Some records) as Hr by (by apply decode_values, Forall_Forall2_diag, Forall_true).
  cbn [mbind option_bind]. rewrite decode_id_show by done. cbn [mbind option_bind].
  by rewrite Hr.
Qed.

(** An archive survives its JSON text: what [archive_serialize] makes of a valid
    archive within the bounds of entries and bytes, read back, is the archive;
    provided the serializers of record payloads and journal entries round-trip
    ([LawfulRecordSerde], [LawfulArchiveSerde]) and so does the text of
    [serde_json] ([json_read text]). *)
Theorem archive_json_round_trip `{!LawfulUuidText, !LawfulTimestampText} a v text :
  LawfulRecordSerde → LawfulArchiveSerde →
  archive_validate a = Some (Ok tt) → id_wf (sa_session_id a) →
  Forall envelope_wf (sa_records a) →
  archive_over_bound (sa_records a) (sa_approval_artifacts a) (sa_grant_journal a) = false →
  archive_serialize a = Ok v → json_read text = Ok (value_input v) →
  (str_len text <= MAX_ARCHIVE_BYTES)%N →
  archive_decode_json text = Some (Ok a).
Proof.
  intros Hrec Hserde Hvalid Hid Hwf Hbound Hs Hread Hlen.
  unfold archive_serialize in Hs. apply result_bind_ok in Hs as (records & Hrs & Hs).
  apply result_bind_ok in Hs as (approvals & Has%map_err_ok & Hs).
  apply result_bind_ok in Hs as (grants & Hgs%map_err_ok & [= <-]).
  assert (Forall2 (λ e v, record_decode_value v = Ok e) (sa_records a) records) as Hr2.
  { eapply serialized_values; [|exact Hrs]. intros e v He Hv.
    rewrite Forall_forall in Hwf. eapply record_round_trip; [done|by apply Hwf|done]. }
  assert (Forall2 (λ _ v, value_wf v) (sa_records a) records) as Hrwf.
  { eapply serialized_values; [|exact Hrs].
    intros e v He (_ & Hrv & payload & Hp & ->)%envelope_serialize_ok.
    rewrite Forall_forall in Hwf. apply envelope_entries_wf; [by apply Hwf|].
    by apply (Hrec _ _ Hrv Hp). }
  assert (Forall2 (λ e v, value_wf v ∧ approval_deserialize v = Some e) (sa_approval_artifacts a) approvals)
    as Ha2 by (eapply serialized_values; [|exact Has]; intros ????; by apply approval_serde_lawful).
  assert (Forall2 (λ e v, value_wf v ∧ grant_deserialize v = Some e) (sa_grant_journal a) grants)
    as Hg2 by (eapply serialized_values; [|exact Hgs]; intros ????; by apply grant_serde_lawful).
  unfold archive_decode_json. rewrite (proj2 (N.ltb_ge _ _) Hlen), Hread. cbn [map_err].
  rewrite unique_value_id by (exact (archive_value_wf _ _ _ _ _ _
    (λ e v, approval_deserialize v = Some e) (λ e v, grant_deserialize v = Some e) _ _ Hrwf Ha2 Hg2)).
  assert (sa_format_version a = CURRENT_ARCHIVE_FORMAT_VERSION) as Hversion.
  { unfold archive_validate in Hvalid. destruct (_ =? _)%N eqn:Hv; [by apply N.eqb_eq|done]. }
  assert (length records = length (sa_records a)) as Hlenr by (symmetry; by eapply Forall2_length).
  assert (raw_deserialize (JObject [("approvalArtifacts"%string, JArray approvals);
      ("formatVersion"%string, JNumber (PosInt (sa_format_version a)));
      ("grantJournal"%string, JArray grants); ("records"%string, JArray records);
      ("sessionId"%string, JString (show_protocol_id (sa_session_id a)))]) =
    Some (mk_RawSessionArchive CURRENT_ARCHIVE_FORMAT_VERSION (sa_session_id a) records
            (sa_approval_artifacts a) (sa_grant_journal a))) as Hraw.
  { rewrite Hversion. apply raw_fields_run; [done|].
    split; (eapply Forall2_impl; [eassumption|naive_solver]). }
  unfold archive_decode_value. rewrite Hraw. simpl.
  unfold archive_over_bound, list_len in *. rewrite Hlenr, Hbound, (decode_records _ _ Hr2).
  unfold archive_new, archive_over_bound, list_len. rewrite Hbound.
  assert (mk_SessionArchive CURRENT_ARCHIVE_FORMAT_VERSION (sa_session_id a) (sa_records a)
            (sa_approval_artifacts a) (sa_grant_journal a) = a) as -> by (destruct a; simpl in *; by subst).
  by rewrite Hvalid.
Qed.
End json.

(** A created session with a cancelled run. *)
Module ArchiveSample.
Export RecordSample.

Definition log : list RecordEnvelope :=
  [mk_RecordEnvelope CURRENT_PROTOCOL_VERSION (mk_id (v7 1)) (mk_id (v7 2)) (SessionSequence_new 0)
     (Timestamp 1700000000000) None None None ∅ (SessionCreated (mk_selector "coding") ∅);
   mk_RecordEnvelope CURRENT_PROTOCOL_VERSION (mk_id (v7 3)) (mk_id (v7 2)) (SessionSequence_new 1)
     (Timestamp 1700000000000) None (Some (mk_id (v7 4))) None ∅ (RunCancelled (mk_id (v7 5)))].

Definition archive : SessionArchive :=
  mk_SessionArchive CURRENT_ARCHIVE_FORMAT_VERSION (mk_id (v7 2)) log [] [].

Definition value : Value :=
  JObject [("approvalArtifacts"%string, JArray []); ("formatVersion"%string, JNumber (PosInt 1));
           ("grantJournal"%string, JArray []);
           ("records"%string, JArray (match result_map envelope_serialize log with
                                      | Ok records => records | Err _ => [] end));
           ("sessionId"%string, JString (show_protocol_id (mk_id (v7 2) : SessionId)))].

(** The text of the archive is the only one the parser reads. *)
#[export] Instance archive_serde : ArchiveSerde := {|
  approval_serialize := λ _, Err "approval"%string;
  approval_deserialize := λ _, None;
  grant_serialize := λ _, Err "grant"%string;
  grant_deserialize := λ _, None;
  json_read := λ text, if String.eqb text "archive" then Ok (value_input value) else Err "text"%string;
  archive_error := λ _, "malformed"%string
|}.

End ArchiveSample.
Import ArchiveSample.

Lemma sample_record_wf e n1 n2 :
  env_protocol_version e = CURRENT_PROTOCOL_VERSION →
  env_record_id e = mk_id (v7 n1) → env_session_id e = mk_id (v7 2) →
  env_sequence e = SessionSequence_new (n1 / 2) → env_timestamp e = Timestamp 1700000000000 →
  env_causation_id e = None → (∀ id, env_correlation_id e = Some id → id = mk_id (v7 n2)) →
  env_branch_id e = None → env_metadata e = ∅ → (n1 < 8)%N → (n2 < 8)%N → envelope_wf e.
Proof.
  intros Hv Hr Hs Hseq Ht Hca Hco Hb Hm Hn1 Hn2.
  assert (∀ n, n < 8 → n < 2 ^ 76)%N as Hsmall
    by (intros n Hn; apply (N.lt_trans _ 8); [done|by vm_compute]).
  split; rewrite ?Hv, ?Hr, ?Hs, ?Hseq, ?Ht, ?Hca, ?Hb, ?Hm.
  - done.
  - by vm_compute.
  - by apply sample_id_wf, Hsmall.
  - by apply sample_id_wf.
  - simpl. assert (n1 / 2 < 8)%N by (apply N.Div0.div_lt_upper_bound; lia).
    apply (N.le_trans _ 8); [lia|by vm_compute].
  - by split; vm_compute.
  - done.
  - intros id ->%Hco. by apply sample_id_wf, Hsmall.
  - done.
  - by vm_compute.
  - intros k v Hkv. by rewrite lookup_empty in Hkv.
Qed.

Lemma sample_log_wf : Forall envelope_wf ArchiveSample.log.
Proof.
  unfold ArchiveSample.log. apply Forall_cons. split; [|apply Forall_cons; split; [|apply Forall_nil; exact I]].
  - by apply (sample_record_wf _ 1 4).
  - apply (sample_record_wf _ 3 4); try done. by intros id [= <-].
Qed.

Lemma archive_json_round_trip_witness :
  archive_serialize ArchiveSample.archive = Ok ArchiveSample.value ∧
  archive_decode_json "archive" = Some (Ok ArchiveSample.archive).
Proof.
  pose proof sample_uuid_lawful. pose proof sample_timestamp_lawful.
  assert (archive_serialize ArchiveSample.archive = Ok ArchiveSample.value) as Hs by by vm_compute.
  split; [exact Hs|].
  apply (archive_json_round_trip ArchiveSample.archive ArchiveSample.value "archive").
  - apply sample_serde_lawful.
  - by split.
  - by vm_compute.
  - by apply sample_id_wf.
  - apply sample_log_wf.
  - by vm_compute.
  - exact Hs.
  - done.
  - by vm_compute.
Defined.

(** What decodes is a valid archive within its bounds, whatever the text. *)
Lemma decoded_archive_valid `{Codec, UuidText, TimestampText, RecordSerde, ArchiveSerde} text a :
  archive_decode_json text = Some (Ok a) →
  archive_validate a = Some (Ok tt) ∧ (str_len text <= MAX_ARCHIVE_BYTES)%N ∧
  archive_over_bound (sa_records a) (sa_approval_artifacts a) (sa_grant_journal a) = false.
Proof.
  unfold archive_decode_json. destruct (N.ltb_spec MAX_ARCHIVE_BYTES (str_len text)); [done|].
  destruct (map_err _ _) as [tokens|]; [|done]. destruct (unique_value tokens) as [v|]; [|done].
  unfold archive_decode_value. destruct (raw_deserialize v) as [raw|]; [|done].
  destruct (negb _); [done|]. destruct (archive_over_bound _ _ _); [done|].
  destruct (result_map _ _) as [records|]; [|done]. unfold archive_new.
  destruct (archive_over_bound records _ _) eqn:Hb; [done|].
  destruct (archive_validate _) as [[[]|]|] eqn:Hv; [|done|done]. intros [= <-]. done.
Qed.

(** ** The catalog *)

Lemma catalog_leb_compare : ∀ x y, catalog_leb x y =
  not_greater (compare_then (compare_reverse (compare_on (as_utc ∘ ce_updated_at) Z.compare))
                 (compare_on (as_uuid ∘ ce_session_id) N.compare)) x y.
Proof.
  intros x y. unfold catalog_leb. rewrite <- lex_leb_then. done.
Qed.

(** What an entry of the catalog says of its session. *)
Definition describes (m : InMemorySessionStore) (entry : SessionCatalogEntry) : Prop :=
  ∃ s state last_record, ms_sessions m !! ce_session_id entry = Some s ∧
    r_state (sd_reducer s) = Some state ∧ last (sd_records s) = Some last_record ∧
    entry = mk_SessionCatalogEntry (ce_session_id entry) (ms_names m !! ce_session_id entry)
      (env_timestamp last_record) (cfg_profile_id (st_configuration state))
      (cfg_model (st_configuration state)) (length (st_messages state))
      (size (st_pending_approvals state)).

Lemma catalog_entries_run m sessions :
  store_wf m → (∀ id s, (id, s) ∈ sessions → ms_sessions m !! id = Some s) →
  ∃ entries, catalog_entries (ms_names m) sessions = Some (Ok entries) ∧
    ce_session_id <$> entries = sessions.*1 ∧ Forall (describes m) entries.
Proof.
  intros Hm. induction sessions as [|[id s] sessions IH]; intros Hin.
  { by exists []. }
  destruct IH as (entries & He & Hids & Hall); [intros id' s' Hs; apply Hin; by right|].
  assert (ms_sessions m !! id = Some s) as Hs by (apply Hin; by left).
  destruct (mw_sessions _ Hm _ _ Hs) as (Hwf & state & Hstate & Hid).
  destruct (last (sd_records s)) as [e|] eqn:Hlast.
  2:{ apply last_None in Hlast. by destruct (stored_records_nonempty s state Hwf Hstate). }
  cbn [catalog_entries]. unfold snapshot. rewrite Hstate. cbn [fmap option_fmap option_map].
  unfold catalog_entry. cbn [sn_records sn_state]. rewrite Hlast, He, Hid.
  eexists. split; [done|]. split; [by rewrite !fmap_cons, Hids|]. constructor; [|done].
  by exists s, state, e.
Qed.

(** The listing holds every stored session once, described from its
    state and its last record, latest first and then by id. *)
Theorem catalog_lists_sessions m :
  reachable_store m →
  ∃ entries, list_sessions m = Some (Ok entries) ∧
    ce_session_id <$> entries ≡ₚ (map_to_list (ms_sessions m)).*1 ∧
    Forall (describes m) entries ∧
    StronglySorted (λ x y, catalog_leb x y = true) entries.
Proof.
  intros Hm%reachable_store_wf.
  destruct (catalog_entries_run m (btree_entries session_key_leb (ms_sessions m)) Hm)
    as (entries & He & Hids & Hall).
  { intros id s Hin. unfold btree_entries in Hin. by apply elem_of_stable_sort, elem_of_map_to_list in Hin. }
  exists (sort_catalog entries). unfold list_sessions. rewrite He. split; [done|].
  unfold sort_catalog. split_and!.
  - rewrite (stable_sort_perm catalog_leb entries), Hids. unfold btree_entries.
    by rewrite stable_sort_perm.
  - by rewrite stable_sort_perm.
  - exact (stable_sort_strong _ _ catalog_leb_compare entries).
Qed.

(** An accepted name is not empty, within its bound, without control
    characters, and is accepted again unchanged. *)
Theorem session_name_canonical value name :
  session_name_new value = Ok name →
  (0 < str_len (name_str name) <= MAX_SESSION_NAME_BYTES)%N ∧
  Forall (λ c, is_control c = false) (chars (name_str name)) ∧
  session_name_new (name_str name) = Ok name.
Proof.
  unfold session_name_new at 1. set (cs := trim_chars (chars value)).
  intros ([] & Hne%ensure_ok & H)%result_bind_ok.
  apply result_bind_ok in H as ([] & Hlen%ensure_ok & H).
  apply result_bind_ok in H as ([] & Hctl%ensure_ok & [= <-]). simpl.
  assert (Forall (λ c, is_scalar c = true) cs) as Hs by (apply trim_chars_forall, chars_scalar).
  assert (chars (string_of_chars cs) = cs) as Hcs by by apply chars_string_of_chars.
  rewrite str_len_string_of_chars by done. split_and!.
  - destruct cs as [|c cs']; [done|]. rewrite chars_len_cons. pose proof (char_len_pos c). lia.
  - by apply N.leb_le.
  - rewrite Hcs. apply Forall_forall. intros c Hc. apply not_true_iff_false. intros Hcc.
    apply negb_true_iff, not_true_iff_false in Hctl. apply Hctl, existsb_exists.
    exists c. by rewrite <- list_elem_of_In.
  - assert (trim_chars cs = cs) as Htrim by apply trim_chars_idemp.
    unfold session_name_new. rewrite Hcs, Htrim. by rewrite Hne, Hlen, Hctl.
Qed.
