(* ===== verification/KernelConfig.v ===== *)
(** * Kernel: run configuration

    [crates/tea-kernel/src/config.rs] and [compaction.rs]: the product-independent
    context frozen for one run.  The compaction policy and summarizer are host
    code and receive the moment of the call; of a compiled prompt the kernel
    reads only the text. *)

From S2P Require Import Prelude Protocol Tools Policy Validation Registry KernelBase.
Local Open Scope tea_scope.

Inductive CompiledFinalOutputFormat : Set :=
| CompiledJsonObject
| CompiledJsonSchema (schema : CompiledToolSchema).

Definition as_protocol (format : CompiledFinalOutputFormat) : FinalOutputFormat :=
  match format with
  | CompiledJsonObject => FormatJsonObject
  | CompiledJsonSchema schema => FormatJsonSchema (cs_source schema)
  end.

(** [dyn CompactionPolicy] and [dyn CompactionSummarizer]. *)
Notation CompactionPolicy := (nat → N → N → bool).
Notation CompactionSummarizer :=
  (nat → list CanonicalMessage → Result KernelError CanonicalMessage).

Definition never_compact : CompactionPolicy := λ _ _ _, false.

Record KernelRunConfig : Type := mk_KernelRunConfig {
  kc_actor_id : ActorId;
  kc_workspace_id : option WorkspaceId;
  kc_environment : PolicyEnvironment;
  kc_system_prompt : option string;
  kc_compiled_prompt : option string;
  kc_final_output_format : option CompiledFinalOutputFormat;
  kc_request_metadata : ProtocolMetadata;
  kc_approval_ttl : Duration;
  kc_retry_policy : ModelRetryPolicy;
  kc_compaction_policy : CompactionPolicy;
  kc_compaction_summarizer : option CompactionSummarizer;
  kc_limits : RunLimits
}.

Definition config_new (actor_id : ActorId) (environment : PolicyEnvironment) : KernelRunConfig :=
  mk_KernelRunConfig actor_id None environment None None None ∅ (from_secs 600)
    retry_policy_default never_compact None limits_default.

Definition config_with_workspace (c : KernelRunConfig) (workspace_id : WorkspaceId)
    : KernelRunConfig :=
  mk_KernelRunConfig (kc_actor_id c) (Some workspace_id) (kc_environment c) (kc_system_prompt c)
    (kc_compiled_prompt c) (kc_final_output_format c) (kc_request_metadata c)
    (kc_approval_ttl c) (kc_retry_policy c) (kc_compaction_policy c)
    (kc_compaction_summarizer c) (kc_limits c).

Definition config_with_system_prompt (c : KernelRunConfig) (prompt : string)
    : Result KernelError KernelRunConfig :=
  try? ensure (bool_decide (kc_compiled_prompt c = None) && bounded_text prompt 1048576)
         (kernel_error CodeInvalidRequest "system prompt is invalid") in
  Ok (mk_KernelRunConfig (kc_actor_id c) (kc_workspace_id c) (kc_environment c) (Some prompt)
        (kc_compiled_prompt c) (kc_final_output_format c) (kc_request_metadata c)
        (kc_approval_ttl c) (kc_retry_policy c) (kc_compaction_policy c)
        (kc_compaction_summarizer c) (kc_limits c)).

Definition with_compiled_prompt (c : KernelRunConfig) (prompt : string)
    : Result KernelError KernelRunConfig :=
  try? ensure (bool_decide (kc_system_prompt c = None))
         (kernel_error CodeInvalidRequest
            "compiled and legacy system prompts are mutually exclusive") in
  Ok (mk_KernelRunConfig (kc_actor_id c) (kc_workspace_id c) (kc_environment c)
        (kc_system_prompt c) (Some prompt) (kc_final_output_format c) (kc_request_metadata c)
        (kc_approval_ttl c) (kc_retry_policy c) (kc_compaction_policy c)
        (kc_compaction_summarizer c) (kc_limits c)).

Definition with_approval_ttl (c : KernelRunConfig) (ttl : Duration)
    : Result KernelError KernelRunConfig :=
  if (ttl =? 0)%N || (from_secs 86400 <? ttl)%N
  then Err (kernel_error CodeInvalidRequest "approval lifetime is invalid")
  else Ok (mk_KernelRunConfig (kc_actor_id c) (kc_workspace_id c) (kc_environment c)
             (kc_system_prompt c) (kc_compiled_prompt c) (kc_final_output_format c)
             (kc_request_metadata c) ttl (kc_retry_policy c) (kc_compaction_policy c)
             (kc_compaction_summarizer c) (kc_limits c)).

(** [with_request_metadata], [with_limits], [with_retry_policy],
    [with_compaction_policy] and [with_compaction_summarizer]. *)
Definition with_request_metadata (c : KernelRunConfig) (metadata : ProtocolMetadata)
    : KernelRunConfig :=
  mk_KernelRunConfig (kc_actor_id c) (kc_workspace_id c) (kc_environment c) (kc_system_prompt c)
    (kc_compiled_prompt c) (kc_final_output_format c) metadata (kc_approval_ttl c)
    (kc_retry_policy c) (kc_compaction_policy c) (kc_compaction_summarizer c) (kc_limits c).
Definition with_limits (c : KernelRunConfig) (limits : RunLimits) : KernelRunConfig :=
  mk_KernelRunConfig (kc_actor_id c) (kc_workspace_id c) (kc_environment c) (kc_system_prompt c)
    (kc_compiled_prompt c) (kc_final_output_format c) (kc_request_metadata c)
    (kc_approval_ttl c) (kc_retry_policy c) (kc_compaction_policy c)
    (kc_compaction_summarizer c) limits.
Definition with_retry_policy (c : KernelRunConfig) (policy : ModelRetryPolicy)
    : KernelRunConfig :=
  mk_KernelRunConfig (kc_actor_id c) (kc_workspace_id c) (kc_environment c) (kc_system_prompt c)
    (kc_compiled_prompt c) (kc_final_output_format c) (kc_request_metadata c)
    (kc_approval_ttl c) policy (kc_compaction_policy c) (kc_compaction_summarizer c)
    (kc_limits c).
Definition with_compaction_policy (c : KernelRunConfig) (policy : CompactionPolicy)
    : KernelRunConfig :=
  mk_KernelRunConfig (kc_actor_id c) (kc_workspace_id c) (kc_environment c) (kc_system_prompt c)
    (kc_compiled_prompt c) (kc_final_output_format c) (kc_request_metadata c)
    (kc_approval_ttl c) (kc_retry_policy c) policy (kc_compaction_summarizer c) (kc_limits c).
Definition with_compaction_summarizer (c : KernelRunConfig) (summarizer : CompactionSummarizer)
    : KernelRunConfig :=
  mk_KernelRunConfig (kc_actor_id c) (kc_workspace_id c) (kc_environment c) (kc_system_prompt c)
    (kc_compiled_prompt c) (kc_final_output_format c) (kc_request_metadata c)
    (kc_approval_ttl c) (kc_retry_policy c) (kc_compaction_policy c) (Some summarizer)
    (kc_limits c).

(** [KernelRunConfig::system_prompt]. *)
Definition config_system_prompt (c : KernelRunConfig) : option string :=
  match kc_compiled_prompt c with
  | Some text => if String.eqb text "" then None else Some text
  | None => kc_system_prompt c
  end.

Definition config_final_output_format (c : KernelRunConfig) : option FinalOutputFormat :=
  as_protocol <$> kc_final_output_format c.

Definition with_final_output_format `{Codec, SchemaEngine} (c : KernelRunConfig)
    (format : option FinalOutputFormat) : Result KernelError KernelRunConfig :=
  let invalid := kernel_error CodeInvalidRequest "final output schema is invalid" in
  let? compiled :=
    match format with
    | None => Ok None
    | Some FormatJsonObject => Ok (Some CompiledJsonObject)
    | Some (FormatJsonSchema schema) =>
        try? ensure (is_object schema) invalid in
        let? schema := map_err (λ _, invalid) (schema_compile schema) in
        Ok (Some (CompiledJsonSchema schema))
    end in
  Ok (mk_KernelRunConfig (kc_actor_id c) (kc_workspace_id c) (kc_environment c)
        (kc_system_prompt c) (kc_compiled_prompt c) compiled (kc_request_metadata c)
        (kc_approval_ttl c) (kc_retry_policy c) (kc_compaction_policy c)
        (kc_compaction_summarizer c) (kc_limits c)).
