(* ===== verification/KernelMonad.v ===== *)
(** * Kernel: ports, the world a run works on, and its primitives

    A kernel handler is a computation over a [World]: the shared session store,
    the event emitter, a counter of moments, and a ghost trace of what the
    kernel did.  Every call of a host port takes one moment; a port is a
    function of the moment, so it may answer differently each time.  Other
    writers share the store: before each store access of the kernel, the
    transactions [other_writers] chooses for that moment are appended.  A
handler ends with a value, with a [KernelError], with [Panicked], the panic
    of a store operation, or with [OutOfFuel] when the fuel of a loop ran out.  [observe.rs], [record.rs], [approval.rs] and
    the append helpers of [kernel.rs] are modelled here. *)

From S2P Require Import Prelude Protocol Tools Policy Approval SessionState Reducer.
From S2P Require Import Artifact Store Validation Usage ModelSpec Event KernelBase.
Local Open Scope tea_scope.

(** ** Ports ([clock.rs], [id.rs], [event.rs]) *)

(** What the biased [select!] finds ready before the next stream event. *)
Inductive Signal : Set := SignalCancelled | SignalDeadline.

Inductive QueueInput : Set :=
| QueueFollowUp (message : CanonicalMessage)
| QueueSteering (text : CommandText).

Class KernelPorts : Type := {
  next_run_id : nat → Result KernelError RunId;
  next_turn_id : nat → Result KernelError TurnId;
  next_message_id : nat → Result KernelError MessageId;
  next_tool_call_id : nat → Result KernelError ToolCallId;
  next_approval_id : nat → Result KernelError ApprovalId;
  next_event_id : nat → Result KernelError EventId;
  next_record_id : nat → Result KernelError RecordId;
  clock_now : nat → Result KernelError ProtocolTimestamp;
  sink_last_sequence : nat → SessionId → option SessionSequence;
  sink_emit : nat → EventEnvelope → Result KernelError unit;
  poll_signal : nat → option Signal;
  other_writers : nat → list AppendTransaction;
  (** What the producers of the input queue enqueue. *)
  queue_producers : nat → list QueueInput;
  (** [DateTime::<Utc>::MAX_UTC] in milliseconds. *)
  max_utc_millis : Z
}.

(** ** World *)

Record EventEmitter : Set := mk_EventEmitter {
  em_session_id : SessionId;
  em_sequence : SessionSequence;
  em_emitted : N;
  em_limits : RunLimits
}.

(** Ghost record, newest first, of the effects that leave the kernel and of what
    it decides on: the store it read and the moment before the read, the call it
    prepared and the request its provider accepted, with their moments. *)
Inductive KernelAction : Set :=
| ActRead (t : nat) (store : InMemorySessionStore)
| ActPrepared (t : nat) (tool_call_id : ToolCallId)
| ActValidated (t : nat) (request : ModelRequest)
| ActCommitted (tx : AppendTransaction)
| ActRequested (request : ModelRequest)
| ActExecuted (invocation : ValidatedToolInvocation)
| ActEmitted (envelope : EventEnvelope).

Record World : Set := mk_World {
  w_store : InMemorySessionStore;
  w_queue : option KernelInputQueue;
  w_moment : nat;
  w_emitter : EventEmitter;
  w_trace : list KernelAction
}.

Definition set_w_store (m : InMemorySessionStore) (w : World) : World :=
  mk_World m (w_queue w) (w_moment w) (w_emitter w) (w_trace w).
Definition set_w_queue (q : option KernelInputQueue) (w : World) : World :=
  mk_World (w_store w) q (w_moment w) (w_emitter w) (w_trace w).
Definition advance (w : World) : World :=
  mk_World (w_store w) (w_queue w) (S (w_moment w)) (w_emitter w) (w_trace w).
Definition set_w_emitter (e : EventEmitter) (w : World) : World :=
  mk_World (w_store w) (w_queue w) (w_moment w) e (w_trace w).
Definition act (a : KernelAction) (w : World) : World :=
  mk_World (w_store w) (w_queue w) (w_moment w) (w_emitter w) (a :: w_trace w).

(** ** The monad *)

Inductive Fault : Set := Panicked | OutOfFuel | Raised (e : KernelError).

Definition K (A : Type) : Type := ST World Fault A.

Definition raise {A} (code : KernelErrorCode) (message : string) : K A :=
  st_throw (Raised (kernel_error code message)).
Definition k_lift {A} (r : Result KernelError A) : K A := st_lift (map_err Raised r).
Definition k_ensure (b : bool) (code : KernelErrorCode) (message : string) : K unit :=
  k_lift (ensure b (kernel_error code message)).

(** [From] conversions: the error becomes a kernel error with its own text. *)
Definition from_error `{Display} {E : Set} {A} (code : KernelErrorCode) (r : Result E A)
    : Result KernelError A :=
  map_err (λ e, kernel_error code (to_string e)) r.
Definition k_from `{Display} {E : Set} {A} (code : KernelErrorCode) (r : Result E A) : K A :=
  k_lift (from_error code r).

(** A fallible computation whose error the caller inspects. *)
Definition k_try {A} (m : K A) : K (Result KernelError A) :=
  λ w, match m w with
       | (Ok a, w') => (Ok (Ok a), w')
       | (Err (Raised e), w') => (Ok (Err e), w')
       | (Err fault, w') => (Err fault, w')
       end.

(** The moment of a port call. *)
Definition moment : K nat := λ w, (Ok (w_moment w), advance w).

Definition port {A} (f : nat → Result KernelError A) : K A :=
  let! t := moment in k_lift (f t).

(** ** Store access *)

Definition session_failure `{Display} (e : SessionStoreError) : KernelError :=
  kernel_error CodeSessionFailure (to_string e).

(** Another writer's append; its caller sees the outcome, the store keeps it. *)
Definition writer_step (m : InMemorySessionStore) (tx : AppendTransaction)
    : InMemorySessionStore :=
  match append m tx with Some (_, m') => m' | None => m end.

Section kernel.
Context `{Codec, Display, KernelPorts}.

Definition interfere : K unit :=
  let! t := moment in
  st_modify (λ w, set_w_store (foldl writer_step (w_store w) (other_writers t)) w).

Definition store_append (tx : AppendTransaction) : K unit :=
  do! interfere in
  λ w, match append (w_store w) tx with
       | None => (Err Panicked, w)
       | Some (Err e, m) => (Err (Raised (session_failure e)), set_w_store m w)
       | Some (Ok _, m) => (Ok tt, act (ActCommitted tx) (set_w_store m w))
       end.

(** The committed store at a read of the kernel. *)
Definition store_read : K InMemorySessionStore :=
  let! t := st_gets w_moment in
  do! interfere in
  let! store := st_gets w_store in
  do! st_modify (act (ActRead t store)) in
  st_ret store.

Definition store_load (session_id : SessionId) : K SessionSnapshot :=
  let! store := store_read in
  match load store session_id with
  | None => st_throw Panicked
  | Some (Err e) => st_throw (Raised (session_failure e))
  | Some (Ok snapshot) => st_ret snapshot
  end.

(** ** The input queue ([queue.rs])

    Producers share the queue: before each access of the kernel they enqueue
    what [queue_producers] chooses; a rejected enqueue changes nothing. *)
Definition enqueue_input (q : KernelInputQueue) (input : QueueInput) : KernelInputQueue :=
  match input with
  | QueueFollowUp message => (enqueue_follow_up message q).2
  | QueueSteering text => (enqueue_steering text q).2
  end.

Definition produce (q : KernelInputQueue) : K KernelInputQueue :=
  let! t := moment in
  let q := foldl enqueue_input q (queue_producers t) in
  do! st_modify (set_w_queue (Some q)) in
  st_ret q.

Definition store_active_grants (actor_id : ActorId) : K (list PolicyGrant) :=
  let! store := store_read in st_ret (active_grants_for_actor store actor_id).

(** ** Events ([observe.rs]) *)

(** [EventEmitter::new]: the sequence continues after the sink's cursor or the
    durable tail, whichever is later. *)
Definition emitter_new (session_id : SessionId) (durable_tail : SessionSequence)
    (limits : RunLimits) : K unit :=
  let! t := moment in
  let sequence := match sink_last_sequence t session_id with
                  | Some cursor => if (seq_get durable_tail <? seq_get cursor)%N
                                   then cursor else durable_tail
                  | None => durable_tail
                  end in
  st_modify (set_w_emitter (mk_EventEmitter session_id sequence 0 limits)).

Definition emitter_set_sequence (sequence : SessionSequence) (e : EventEmitter) : EventEmitter :=
  mk_EventEmitter (em_session_id e) sequence (em_emitted e) (em_limits e).
Definition emitter_count (e : EventEmitter) : EventEmitter :=
  mk_EventEmitter (em_session_id e) (em_sequence e) (em_emitted e + 1) (em_limits e).

Definition emit (run_id : option RunId) (turn_id : option TurnId) (event : AgentEvent) : K unit :=
  let! e := st_gets w_emitter in
  do! k_ensure (em_emitted e <? max_events (em_limits e))%N CodeLimitExceeded
        "run event limit was reached" in
  let! sequence := k_lift (ok_or (checked_next (em_sequence e))
                     (kernel_error CodeLimitExceeded "event sequence cannot advance")) in
  do! st_modify (λ w, set_w_emitter (emitter_set_sequence sequence (w_emitter w)) w) in
  let! event_id := port next_event_id in
  let! now := port clock_now in
  let! envelope := k_from CodeInvalidState
                     (event_envelope_new event_id (em_session_id e) run_id turn_id sequence now
                        ∅ event) in
  let! t := moment in
  do! k_from CodeEventSinkFailure (sink_emit t envelope) in
  do! st_modify (act (ActEmitted envelope)) in
  st_modify (λ w, set_w_emitter (emitter_count (w_emitter w)) w).

(** ** Record envelopes ([record.rs]) *)

Fixpoint envelopes_at_with_metadata (session_id : SessionId) (previous : SessionSequence)
    (branch_id : option BranchId) (timestamp : ProtocolTimestamp)
    (records : list (ProtocolMetadata * SessionRecord)) : K (list RecordEnvelope) :=
  match records with
  | [] => st_ret []
  | (metadata, record) :: rest =>
      let! sequence := k_lift (ok_or (checked_next previous)
                         (kernel_error CodeSessionFailure
                            "durable session sequence cannot advance")) in
      let! record_id := port next_record_id in
      let! envelope := k_from CodeSessionFailure
                         (envelope_new record_id session_id sequence timestamp None None
                            branch_id metadata record) in
      let! envelopes := envelopes_at_with_metadata session_id sequence branch_id timestamp rest in
      st_ret (envelope :: envelopes)
  end.

Definition envelopes_at (session_id : SessionId) (previous : SessionSequence)
    (branch_id : option BranchId) (timestamp : ProtocolTimestamp) (records : list SessionRecord)
    : K (list RecordEnvelope) :=
  envelopes_at_with_metadata session_id previous branch_id timestamp ((λ r, (∅, r)) <$> records).

Definition envelopes (session_id : SessionId) (previous : SessionSequence)
    (branch_id : option BranchId) (records : list SessionRecord) : K (list RecordEnvelope) :=
  let! now := port clock_now in
  envelopes_at session_id previous branch_id now records.

Definition envelopes_with_metadata (session_id : SessionId) (previous : SessionSequence)
    (branch_id : option BranchId) (records : list (ProtocolMetadata * SessionRecord))
    : K (list RecordEnvelope) :=
  let! now := port clock_now in
  envelopes_at_with_metadata session_id previous branch_id now records.

(** ** Appending ([kernel.rs]) *)

(** A transaction of records only, and of records with their artifacts. *)
Definition record_transaction (s : MaterializedSessionState) (records : list RecordEnvelope)
    : AppendTransaction :=
  mk_AppendTransaction (st_session_id s) (Some (st_tail_sequence s)) records None [] [].

Definition append_records (snapshot : SessionSnapshot) (records : list SessionRecord)
    : K SessionSnapshot :=
  let s := sn_state snapshot in
  let! records := envelopes (st_session_id s) (st_tail_sequence s) (st_active_branch_id s)
                    records in
  do! store_append (record_transaction s records) in
  store_load (st_session_id s).

Definition append_records_with_metadata (snapshot : SessionSnapshot)
    (records : list (ProtocolMetadata * SessionRecord)) : K SessionSnapshot :=
  let s := sn_state snapshot in
  let! records := envelopes_with_metadata (st_session_id s) (st_tail_sequence s)
                    (st_active_branch_id s) records in
  do! store_append (record_transaction s records) in
  store_load (st_session_id s).

(** ** Approval times and requests ([approval.rs]) *)

(** The last millisecond of year 9999: a later time has no canonical form. *)
Definition CANONICAL_MAX_MILLIS : Z := 253402300799999.
(** [chrono::Duration::MAX] in milliseconds. *)
Definition CHRONO_MAX_MILLIS : N := 9223372036854775807.

Definition add_duration (timestamp : ProtocolTimestamp) (duration : Duration)
    : Result KernelError ProtocolTimestamp :=
  try? ensure (duration <=? from_millis CHRONO_MAX_MILLIS)%N
         (kernel_error CodeClockFailure "approval duration cannot be represented") in
  let value := (as_utc timestamp + Z.of_N (duration_as_millis duration))%Z in
  try? ensure (value <=? max_utc_millis)%Z
         (kernel_error CodeClockFailure "approval expiry cannot be represented") in
  try? ensure (value <=? CANONICAL_MAX_MILLIS)%Z
         (kernel_error CodeClockFailure "approval expiry is not canonical") in
  Ok (Timestamp value).

Definition approval_request (approval_id : ApprovalId) (input : PolicyInput) (reason : string)
    (created_at : ProtocolTimestamp) (ttl : Duration) : Result KernelError ApprovalRequest :=
  let? expires_at := add_duration created_at ttl in
  let? presentation := from_error CodePolicyFailure (presentation_from_input json_len reason input) in
  from_error CodePolicyFailure (request_new approval_id input created_at expires_at presentation).
End kernel.
