(* ===== verification/KernelRequest.v ===== *)
(** * Kernel: model requests and the context window

    [crates/tea-kernel]: the immutable request of one turn ([request.rs]) and
    the pre-turn context-window check ([context_window.rs]).  The length of a vector
    of validated messages does not overflow a [usize]. *)

From S2P Require Import Prelude Protocol Tools Policy Validation SessionState Usage ModelSpec Event.
From S2P Require Import ContextData Registry KernelBase KernelConfig KernelMonad.
Local Open Scope tea_scope.

(** ** Requests ([request.rs]) *)

Definition FINAL_JSON_OBJECT_INSTRUCTION : string :=
  "Return the final response as a JSON object. Do not use Markdown.".

Record TurnRequestSnapshot : Set := mk_TurnRequestSnapshot {
  tq_request : ModelRequest;
  tq_client_tool_names : list ToolName;
  tq_hosted_tool_names : list ToolName;
  tq_durable_tail : SessionSequence
}.

(** [str::lines] on bytes: a line that ends in a newline loses it and then one
    carriage return. *)
Definition strip_carriage_return (line : list N) : list N :=
  match rev line with 13%N :: rest => rev rest | _ => line end.

Fixpoint lines_of (pieces : list (list N)) : list (list N) :=
  match pieces with
  | [] => []
  | [final] => if is_empty final then [] else [final]
  | line :: rest => strip_carriage_return line :: lines_of rest
  end.

Definition str_lines (s : string) : list (list N) := lines_of (split_bytes 10 (bytes s)).

(** Two newlines, and the instruction appended after them. *)
Definition blank_line : string :=
  String.String (Ascii.ascii_of_N 10) (String.String (Ascii.ascii_of_N 10) String.EmptyString).

Definition model_system_prompt (existing : option string)
    (final_output_format : option FinalOutputFormat) : option string :=
  match final_output_format with
  | Some FormatJsonObject =>
      if match existing with
         | Some prompt =>
             bool_decide (bytes FINAL_JSON_OBJECT_INSTRUCTION ∈ str_lines prompt)
         | None => false
         end
      then existing
      else Some match existing with
                | None => FINAL_JSON_OBJECT_INSTRUCTION
                | Some prompt => (prompt ++ blank_line ++ FINAL_JSON_OBJECT_INSTRUCTION)%string
                end
  | Some (FormatJsonSchema _) | None => existing
  end.

Section request.
Context `{Codec, SchemaEngine, Display}.

Definition invalid_state (message : string) : KernelError := kernel_error CodeInvalidState message.

Definition project_summary_block (block : ContentBlock) : Result KernelError ContentBlock :=
  match block with
  | Text text | ContextualText text => from_error CodeModelFailure (block_contextual_text text)
  | Thinking _ | Image _ _ | ToolCall _ _ _ _ | HostedTool _ | Citation _ =>
      Err (invalid_state "compaction summary contains non-text content")
  end.

Definition project_compaction_summary (summary : CanonicalMessage)
    : Result KernelError CanonicalMessage :=
  match summary with
  | Assistant id content _ timestamp =>
      let? content := result_map project_summary_block content in
      from_error CodeModelFailure (message_user id content timestamp)
  | User _ _ _ | ToolResult _ _ _ _ _ _ _ =>
      Err (invalid_state "compaction summary is not an assistant message")
  end.

Definition project_model_messages (s : MaterializedSessionState)
    : Result KernelError (list CanonicalMessage) :=
  match st_latest_compaction s with
  | None => Ok (st_messages s)
  | Some compaction =>
      match st_messages s with
      | [] => Err (invalid_state "compaction summary is missing from the active transcript")
      | summary :: remainder =>
          try? ensure (bool_decide (summary = sco_summary compaction))
                 (invalid_state "compaction summary is not the active transcript head") in
          let? projected := project_compaction_summary summary in
          Ok (projected :: remainder)
      end
  end.

(** The names a turn may call as client functions, and those the provider
    hosts. *)
Definition client_names (names : list ToolName) (definitions : list ModelToolDefinition)
    : list ToolName :=
  omap (λ p, if is_function p.2 then Some p.1 else None) (zip names definitions).
Definition hosted_names (names : list ToolName) (definitions : list ModelToolDefinition)
    : list ToolName :=
  omap (λ p, if is_function p.2 then None else Some p.1) (zip names definitions).

(** The effort sent with a request: the one the session selected, resolved by
    the model's profile when it has one. *)
Definition apply_reasoning (s : MaterializedSessionState) (model : ModelSpec) (q : ModelRequest)
    : ModelRequest :=
  match cfg_reasoning_effort (st_configuration s), ms_reasoning_profile model with
  | Some requested, Some profile =>
      with_reasoning_options q
        (mk_ReasoningOptions (rr_effective (profile_resolve profile requested)) None)
  | _, _ => q
  end.

Definition from_request {A} (r : Result ModelRequestError A) : Result KernelError A :=
  from_error CodeInvalidRequest r.

Definition build_with_pending_messages (s : MaterializedSessionState)
    (pending_messages : list CanonicalMessage) (config : KernelRunConfig) (tools : ToolRegistry)
    (model : ModelSpec) : Result KernelError TurnRequestSnapshot :=
  let? model_ref := ok_or (cfg_model (st_configuration s))
                      (kernel_error CodeInvalidModel "session has no active model") in
  try? ensure (bool_decide (ms_model_ref model = model_ref))
         (kernel_error CodeInvalidModel
            "resolved model does not match the active session model") in
  let? definitions := from_error CodeInvalidRequest (model_definitions tools model) in
  let? messages := project_model_messages s in
  let messages := messages ++ pending_messages in
  let format := config_final_output_format config in
  let? request := from_request (model_request_new (mr_model_id model_ref) messages) in
  let? request := from_request (with_tools request definitions false) in
  let request := with_metadata request (kc_request_metadata config) in
  let request := apply_reasoning s model request in
  let? request :=
    match model_system_prompt (config_system_prompt config) format with
    | Some prompt => from_request (with_system_prompt request prompt)
    | None => Ok request
    end in
  let request := match format with
                 | Some format => with_request_format request format
                 | None => request
                 end in
  try? from_request (validate_for request model) in
  Ok (mk_TurnRequestSnapshot request (client_names (registry_names tools) definitions)
        (hosted_names (registry_names tools) definitions) (st_tail_sequence s)).

Definition build (s : MaterializedSessionState) (config : KernelRunConfig) (tools : ToolRegistry)
    (model : ModelSpec) : Result KernelError TurnRequestSnapshot :=
  build_with_pending_messages s [] config tools model.

(** ** Context window ([context_window.rs]) *)

Record ContextWindowAccountant : Set := mk_ContextWindowAccountant {
  cw_context_window : TokenCount;
  cw_max_output : TokenCount
}.

Definition accountant_new (model : ModelSpec) : ContextWindowAccountant :=
  mk_ContextWindowAccountant (ms_context_window_tokens model) (ms_max_output_tokens model).

Definition content_block_bytes (block : ContentBlock) : N :=
  match block with
  | Text text | ContextualText text | Thinking text => str_len text
  | ToolCall _ _ _ arguments => default 0%N (json_len arguments)
  | HostedTool _ | Citation _ => default 0%N (encoded_block_len block)
  | Image _ _ => 0
  end.

Definition message_text_bytes (message : CanonicalMessage) : N :=
  foldr (λ block total, (content_block_bytes block + total)%N) 0%N (message_content message).

(** The prompt counts as the tokens of a compiled prompt, or is estimated. *)
Definition estimate_input_tokens (prompt : option N) (legacy_prompt : option string)
    (tools : list ModelToolDefinition) (messages : list CanonicalMessage) : N :=
  let prompt_tokens :=
    match prompt with
    | Some tokens => tokens
    | None => match legacy_prompt with Some text => estimate_tokens (str_len text) | None => 0%N end
    end in
  let other_bytes :=
    foldl (λ total tool,
      saturating_add
        (saturating_add (saturating_add total (str_len (definition_name tool)))
           (str_len (definition_description tool)))
        (default 0%N (json_len (definition_schema tool)))) 0%N tools in
  let other_bytes :=
    foldl (λ total message, saturating_add total (message_text_bytes message)) other_bytes
      messages in
  saturating_add prompt_tokens (estimate_tokens other_bytes).

Definition check_overflow (a : ContextWindowAccountant) (estimated : N) : Result KernelError unit :=
  ensure (saturating_add estimated (tok_get (cw_max_output a))
            <=? tok_get (cw_context_window a))%N
    (kernel_error CodeContextOverflow "estimated input tokens exceed the model context window").
End request.
