(* ===== verification/KernelTools.v ===== *)
(** * Kernel: tool turns, approvals and run terminals

    [crates/tea-kernel]: preparing and executing tool calls ([tool_call.rs],
    [tool_execution.rs]) and the part of [kernel.rs] that works on the declared
    calls of a turn: classification by policy, scheduled execution of a batch,
    denials, durable approval waits, approval resolutions, run terminals,
    manual compaction, and what a resumed run recomputes from the log.

    An executor's stream is the list of events it yields; before each event the
    kernel polls cancellation and the run deadline.  The futures of a parallel
    lane share nothing but the clock and the cancellation scope, which are
    functions of the moment, so [join_all] is their execution in lane order. *)

From S2P Require Import Prelude Protocol Tools Policy Approval SessionState Reducer.
From S2P Require Import Artifact Store Validation Usage Event Registry ModelProvider KernelBase.
From S2P Require Import KernelConfig KernelMonad.
Local Open Scope tea_scope.

(** ** Data *)

#[export] Instance NextTurnAction_eq_dec : EqDecision NextTurnAction.
Proof. solve_decision. Defined.

(** [CompletedToolCall] ([model_turn.rs]). *)
Record CompletedToolCall : Set := mk_CompletedToolCall {
  cc_tool_call_id : ToolCallId;
  cc_tool_name : string;
  cc_arguments : Value
}.

Inductive PreparedToolCall : Set :=
| PreparedValid (invocation : ValidatedToolInvocation)
| PreparedRejected (code message : string).

Record ToolTerminal : Set := mk_ToolTerminal {
  tt_content : list ContentBlock;
  tt_failure : option ToolFailure;
  tt_presentation : option ToolPresentation
}.

Record CollectedProgress : Set := mk_CollectedProgress {
  cg_tool_call_id : ToolCallId;
  cg_message : string;
  cg_completed_units : N;
  cg_total_units : option N
}.

Record CollectedExecution : Set := mk_CollectedExecution {
  ce_progress : list CollectedProgress;
  ce_terminal : ToolTerminal
}.

Record KernelRunOutcome : Set := mk_KernelRunOutcome {
  ko_run_id : RunId;
  ko_state : RunState;
  ko_session : MaterializedSessionState;
  ko_pending_approval_id : option ApprovalId
}.

Inductive ToolProcessOutcome : Set :=
| Continue (snapshot : SessionSnapshot)
| Waiting (outcome : KernelRunOutcome).

(** The local [Classified] of [process_tool_turn]. *)
Inductive Classified : Set :=
| ClassRejected (index : nat) (code message : string)
| ClassDenied (index : nat) (reason : string)
| ClassAllow (invocation : ValidatedToolInvocation) (target : ExecutionTarget)
| ClassAsk (invocation : ValidatedToolInvocation) (input : PolicyInput) (reason : string).

(** The ports of [AgentKernel] that are values; the others act on the world. *)
Record AgentKernel : Type := mk_AgentKernel {
  ak_models : ModelRouter;
  ak_tools : ToolRegistry;
  ak_policy : PolicyEngine
}.

Notation Batch := (list (ValidatedToolInvocation * ExecutionTarget)).
Notation Results := (gmap ToolCallId CollectedExecution).

Section kernel.
Context `{Codec, SchemaEngine, Display, KernelPorts}.
Context (kernel : AgentKernel).

(** ** Preparing a call ([tool_call.rs]) *)

Definition tool_execution_metadata (session_id : SessionId)
    : Result KernelError ProtocolMetadata :=
  from_error CodeInvalidState
    (metadata_from_entries
       [("dev.tea-rs.execution"%string, JObject [("sessionId"%string, JString (to_string session_id))])]).

Definition unknown_tool : PreparedToolCall :=
  PreparedRejected "unknown_tool" "model requested an unknown tool".
Definition invalid_tool_arguments : PreparedToolCall :=
  PreparedRejected "invalid_tool_arguments" "model supplied invalid tool arguments".

Definition prepare (call : CompletedToolCall) (metadata : ProtocolMetadata) (now : nat)
    : PreparedToolCall :=
  match parse_tool_name (cc_tool_name call) with
  | Err _ => unknown_tool
  | Ok name =>
      match invocation_new json_len (cc_tool_call_id call) name (cc_arguments call) metadata with
      | Err _ => invalid_tool_arguments
      | Ok invocation =>
          match registry_validate (ak_tools kernel) now invocation with
          | Ok validated => PreparedValid validated
          | Err (UnknownTool | HostedToolNotClientExecutable) => unknown_tool
          | Err (InvalidArguments _ | ResourcesError _) => invalid_tool_arguments
          | Err (DuplicateTool | VersionConflict | HostedToolNameMismatch
                | NoSupportedToolRoute _ _ | ModelProjection _ | SchemaError _) =>
              PreparedRejected "tool_registry_failure"
                "tool registry could not validate the invocation"
          end
      end
  end.

(** [prepare] on the session's execution metadata, at the current moment. *)
Definition prepare_call (snapshot : SessionSnapshot) (call : CompletedToolCall)
    : K PreparedToolCall :=
  let! metadata := k_lift (tool_execution_metadata (st_session_id (sn_state snapshot))) in
  let! now := moment in
  do! st_modify (act (ActPrepared now (cc_tool_call_id call))) in
  st_ret (prepare call metadata now).

(** ** Executing a tool ([tool_execution.rs]) *)

Definition failed_terminal (code message : string) : Result KernelError ToolTerminal :=
  let? text := from_error CodeModelFailure (block_text message) in
  let? failure := from_error CodeModelFailure (tool_failure_new code message) in
  Ok (mk_ToolTerminal [text] (Some failure) None).

Definition failure_code_text (code : ToolExecutionFailureCode) : string :=
  match code with
  | ExecutionFailed => "tool_execution_failed"
  | ExecutionCancelled => "tool_cancelled"
  | InvalidOutput => "invalid_tool_output"
  | InternalFailure => "tool_internal_failure"
  end.

Definition tool_failure (failure : ToolExecutionFailure) : Result KernelError ToolFailure :=
  from_error CodeToolFailure (tool_failure_new (failure_code_text (xf_code failure)) (xf_message failure)).

(** The terminal a finished or failed event stands for. *)
Definition finished_terminal (result : ToolResultValue) : ToolTerminal :=
  mk_ToolTerminal (tr_content result) None (tr_presentation result).
Definition failed_event_terminal (failure : ToolExecutionFailure)
    : Result KernelError ToolTerminal :=
  let? text := from_error CodeModelFailure (block_text (xf_message failure)) in
  let? failure := tool_failure failure in
  Ok (mk_ToolTerminal [text] (Some failure) None).

Definition check_signal : K unit :=
  let! t := moment in
  match poll_signal t with
  | Some SignalCancelled => raise CodeCancelled "tool execution was cancelled after durable start"
  | Some SignalDeadline =>
      raise CodeLimitExceeded "run deadline was reached during tool execution"
  | None => st_ret tt
  end.

(** The polling loop [execute] and [collect_execution] share, with what each
    does on a progress event. *)
Section stream.
Context {St : Type} (on_progress : St → ToolProgress → K St).

Fixpoint poll_stream (events : list ToolExecutionEvent) (validator : ToolStreamValidator)
    (s : St) (terminal : option ToolTerminal)
    : K (ToolStreamValidator * St * option ToolTerminal) :=
  do! check_signal in
  match events with
  | [] => st_ret (validator, s, terminal)
  | event :: rest =>
      let '(observed, validator) := tool_observe event validator in
      do! k_from CodeToolFailure observed in
      match event with
      | ExecProgress progress =>
          let! s := on_progress s progress in
          poll_stream rest validator s terminal
      | ExecFinished result => poll_stream rest validator s (Some (finished_terminal result))
      | ExecFailed failure =>
          let! failed := k_lift (failed_event_terminal failure) in
          poll_stream rest validator s (Some failed)
      end
  end.

(** Starting the stream, polling it, and the checks after its end. *)
Definition run_stream (invocation : ValidatedToolInvocation) (s : St) : K (St * ToolTerminal) :=
  let! now := moment in
  let! stream := k_from CodeToolFailure (execute_validated (ak_tools kernel) now invocation) in
  do! st_modify (act (ActExecuted invocation)) in
  let! polled := poll_stream stream tool_validator_new s None in
  let '(validator, s, terminal) := polled in
  do! k_from CodeToolFailure (tool_finish validator) in
  let! terminal := k_lift (ok_or terminal (kernel_error CodeToolFailure
                                             "tool stream has no terminal result")) in
  st_ret (s, terminal).
End stream.

Definition execute (invocation : ValidatedToolInvocation) (run_id : RunId) (turn_id : TurnId)
    : K ToolTerminal :=
  let! result := run_stream (λ _ progress,
    emit (Some run_id) (Some turn_id)
      (EventToolExecutionProgress (invocation_call_id invocation) (tp_message progress)
         (tp_completed_units progress) (tp_total_units progress))) invocation tt in
  st_ret result.2.

Definition collect_execution (invocation : ValidatedToolInvocation) : K CollectedExecution :=
  let! result := run_stream (λ collected progress,
    st_ret (collected ++ [mk_CollectedProgress (invocation_call_id invocation)
      (tp_message progress) (tp_completed_units progress) (tp_total_units progress)]))
    invocation [] in
  st_ret (mk_CollectedExecution result.1 result.2).

(** ** Run terminals ([kernel.rs]) *)

Definition record_run_terminal (snapshot : SessionSnapshot) (run_id : RunId)
    (turn_id : option TurnId) (error : KernelError) : K unit :=
  let! terminal :=
    if bool_decide (ke_code error = CodeCancelled)
    then st_ret (RunCancelled run_id, StatusCancelled)
    else
      let! turn_id := k_lift (ok_or turn_id (kernel_error CodeInvalidState
                                               "interrupted run has no active turn")) in
      st_ret (RunInterrupted run_id turn_id (ke_message error), StatusInterrupted) in
  let! _ := append_records snapshot [terminal.1] in
  emit (Some run_id) None (EventRunFinished terminal.2 None None).

Definition record_tool_interruption (snapshot : SessionSnapshot) (call : CompletedToolCall)
    (run_id : RunId) (turn_id : TurnId) (error : KernelError) : K unit :=
  let! snapshot := append_records snapshot
                     [ToolExecutionInterrupted (cc_tool_call_id call) (ke_message error)] in
  record_run_terminal snapshot run_id (Some turn_id) error.

(** Whether the durable state already ends the run. *)
Definition run_has_terminal (s : MaterializedSessionState) (run_id : RunId) : bool :=
  bool_decide (is_Some (st_run_recovery s !! run_id))
  || match st_latest_checkpoint s with
     | Some checkpoint =>
         bool_decide (cp_run_id checkpoint = run_id)
         && bool_decide (cp_next_action checkpoint = NextFinishRun)
     | None => false
     end.

Definition ensure_run_terminal (session_id : SessionId) (run_id : RunId) (turn_id : TurnId)
    (error : KernelError) : K unit :=
  let! snapshot := store_load session_id in
  if run_has_terminal (sn_state snapshot) run_id then st_ret tt
  else record_run_terminal snapshot run_id (Some turn_id) error.

(** ** Terminal results of calls *)

(** The tool-result message of a terminal. *)
Definition result_message (tool_call_id : ToolCallId) (tool_name : string)
    (terminal : ToolTerminal) : K CanonicalMessage :=
  let! message_id := port next_message_id in
  let! now := port clock_now in
  k_from CodeModelFailure
    (message_tool_result message_id tool_call_id tool_name (tt_content terminal)
       (tt_failure terminal) now).

Definition finished_record (tool_call_id : ToolCallId) (terminal : ToolTerminal)
    : SessionRecord :=
  ToolExecutionFinished tool_call_id (bool_decide (is_Some (tt_failure terminal)))
    (tt_content terminal) (tt_failure terminal) (tt_presentation terminal).

Definition commit_terminal_with_prefix (snapshot : SessionSnapshot) (call : CompletedToolCall)
    (terminal : ToolTerminal) (prefix : option SessionRecord) : K SessionSnapshot :=
  let! message := result_message (cc_tool_call_id call) (cc_tool_name call) terminal in
  append_records snapshot
    (match prefix with Some record => [record] | None => [] end
     ++ [finished_record (cc_tool_call_id call) terminal; MessageCommitted message]).

Definition commit_terminal (snapshot : SessionSnapshot) (call : CompletedToolCall)
    (terminal : ToolTerminal) : K SessionSnapshot :=
  commit_terminal_with_prefix snapshot call terminal None.

Definition commit_denied (snapshot : SessionSnapshot) (call : CompletedToolCall)
    (terminal : ToolTerminal) : K SessionSnapshot :=
  commit_terminal_with_prefix snapshot call terminal
    (Some (PolicyDecisionRecorded (cc_tool_call_id call) PolicyDeny)).

(** ** Scheduled execution of a batch *)

(** The policy decision and durable start of one allowed invocation. *)
Definition start_records (entry : ValidatedToolInvocation * ExecutionTarget)
    : list SessionRecord :=
  let '(invocation, target) := entry in
  [PolicyDecisionRecorded (invocation_call_id invocation) PolicyAllow;
   ToolExecutionStarted (invocation_call_id invocation) target
     (te_idempotency (sp_execution (vi_spec invocation)))].

(** The zip of a parallel lane's results: the first error stops the insertion. *)
Fixpoint insert_results (collected : list (ValidatedToolInvocation
                                           * Result KernelError CollectedExecution))
    (results : Results) : Result KernelError unit * Results :=
  match collected with
  | [] => (Ok tt, results)
  | (_, Err e) :: _ => (Err e, results)
  | (invocation, Ok execution) :: rest =>
      insert_results rest (<[invocation_call_id invocation := execution]> results)
  end.

Fixpoint join_all (invocations : list ValidatedToolInvocation)
    : K (list (ValidatedToolInvocation * Result KernelError CollectedExecution)) :=
  match invocations with
  | [] => st_ret []
  | invocation :: rest =>
      let! collected := k_try (collect_execution invocation) in
      let! others := join_all rest in
      st_ret ((invocation, collected) :: others)
  end.

Fixpoint run_serial (invocations : list ValidatedToolInvocation) (results : Results)
    : K (Result KernelError unit * Results) :=
  match invocations with
  | [] => st_ret (Ok tt, results)
  | invocation :: rest =>
      let! collected := k_try (collect_execution invocation) in
      match collected with
      | Err e => st_ret (Err e, results)
      | Ok execution =>
          run_serial rest (<[invocation_call_id invocation := execution]> results)
      end
  end.

Definition run_lane (lane : Lane) (results : Results)
    : K (Result KernelError unit * Results) :=
  if lane_allows_parallel lane then
    let! collected := join_all (ln_invocations lane) in
    st_ret (insert_results collected results)
  else run_serial (ln_invocations lane) results.

(** [execute_schedule_lanes]: the outcome, and the results collected so far. *)
Fixpoint execute_schedule_lanes (lanes : list Lane) (results : Results)
    : K (Result KernelError unit * Results) :=
  match lanes with
  | [] => st_ret (Ok tt, results)
  | lane :: rest =>
      let! outcome := run_lane lane results in
      match outcome with
      | (Err e, results) => st_ret (Err e, results)
      | (Ok _, results) => execute_schedule_lanes rest results
      end
  end.

Definition missing_terminal : KernelError :=
  kernel_error CodeInvalidState "parallel tool batch is missing a collected terminal".

(** The terminal records of a batch, in its order. *)
Fixpoint batch_terminals (batch : Batch) (results : Results) : K (list SessionRecord) :=
  match batch with
  | [] => st_ret []
  | (invocation, _) :: rest =>
      let! collected := k_lift (ok_or (results !! invocation_call_id invocation)
                                  missing_terminal) in
      let! message := result_message (invocation_call_id invocation)
                        (tn_str (ti_name (vi_invocation invocation))) (ce_terminal collected) in
      let! records := batch_terminals rest results in
      st_ret (finished_record (invocation_call_id invocation) (ce_terminal collected)
              :: MessageCommitted message :: records)
  end.

Definition emit_progress (run_id : RunId) (turn_id : TurnId) (progress : CollectedProgress)
    : K unit :=
  emit (Some run_id) (Some turn_id)
    (EventToolExecutionProgress (cg_tool_call_id progress) (cg_message progress)
       (cg_completed_units progress) (cg_total_units progress)).

(** The progress of a batch, in its order. *)
Definition emit_batch_progress (run_id : RunId) (turn_id : TurnId) (batch : Batch)
    (results : Results) : K unit :=
  st_for batch (λ entry,
    match results !! invocation_call_id entry.1 with
    | Some collected => st_for (ce_progress collected) (emit_progress run_id turn_id)
    | None => st_ret tt
    end).

(** The started invocations without a collected result. *)
Definition interrupted_records (batch : Batch) (results : Results) (error : KernelError)
    : list SessionRecord :=
  (λ entry, ToolExecutionInterrupted (invocation_call_id entry.1) (ke_message error))
    <$> List.filter (λ entry, bool_decide (results !! invocation_call_id entry.1 = None)) batch.

Definition flush_tool_batch (snapshot : SessionSnapshot) (batch : Batch) (run_id : RunId)
    (turn_id : TurnId) : K SessionSnapshot :=
  if is_empty batch then st_ret snapshot else
  let! plan := k_lift (plan batch.*1) in
  let! snapshot := append_records snapshot (batch ≫= start_records) in
  let! outcome := execute_schedule_lanes (sp_lanes plan) ∅ in
  let '(exec_result, results) := outcome in
  match exec_result with
  | Err error =>
      let interrupted := interrupted_records batch results error in
      let! snapshot := if is_empty interrupted then st_ret snapshot
                       else append_records snapshot interrupted in
      do! record_run_terminal snapshot run_id (Some turn_id) error in
      st_throw (Raised error)
  | Ok _ =>
      do! emit_batch_progress run_id turn_id batch results in
      let! records := batch_terminals batch results in
      append_records snapshot records
  end.

(** ** Waiting for an approval *)

Definition emit_tool_preview (invocation : ValidatedToolInvocation) (run_id : RunId)
    (turn_id : TurnId) : K unit :=
  let! now := moment in
  match preview_validated (ak_tools kernel) now invocation with
  | None => st_ret tt
  | Some presentation =>
      emit (Some run_id) (Some turn_id)
        (EventToolExecutionPreview (invocation_call_id invocation) presentation)
  end.

(** The resources an approval event names. *)
Definition approval_event_resources (request : ApprovalRequest) : list string :=
  let resources := ap_resources (rq_presentation request) in
  if is_empty resources then [("tool:" ++ tn_str (rq_tool_name request))%string] else resources.

Definition wait_for_approval (snapshot : SessionSnapshot) (invocation : ValidatedToolInvocation)
    (input : PolicyInput) (reason : string) (config : KernelRunConfig) (run_id : RunId)
    (turn_id : TurnId) : K KernelRunOutcome :=
  let s := sn_state snapshot in
  let! approval_id := port next_approval_id in
  let! created_at := port clock_now in
  let! request := k_lift (approval_request approval_id input reason created_at
                            (kc_approval_ttl config)) in
  let! records := envelopes_at (st_session_id s) (st_tail_sequence s) (st_active_branch_id s)
                    created_at
                    [PolicyDecisionRecorded (in_tool_call_id input) PolicyRequireApproval;
                     ApprovalRequested approval_id (in_tool_call_id input) (rq_expires_at request);
                     TurnCheckpointed run_id turn_id NextWaitForApproval] in
  let! approval_record_id := k_lift (ok_or (env_record_id <$> records !! 1)
    (kernel_error CodeInvalidState "approval transaction is missing its request record")) in
  do! store_append (mk_AppendTransaction (st_session_id s) (Some (st_tail_sequence s)) records
        (Some (sn_journal_revision snapshot))
        [ArtifactRequested approval_record_id request
           (as_protocol <$> kc_final_output_format config)] []) in
  let! snapshot := store_load (st_session_id s) in
  let capabilities := effect_as_str <$> rq_effects request in
  do! emit_tool_preview invocation run_id turn_id in
  do! emit (Some run_id) (Some turn_id)
        (EventApprovalRequested approval_id (in_tool_call_id input) capabilities
           (approval_event_resources request) (rq_expires_at request)) in
  do! emit (Some run_id) (Some turn_id) EventTurnCheckpointed in
  st_ret (mk_KernelRunOutcome run_id WaitingApproval (sn_state snapshot) (Some approval_id)).

(** ** Policy and the calls of a turn *)

(** The evaluation of one validated invocation: the actor's active grants, the
    time, and the engine's decision. *)
Definition evaluate_call (snapshot : SessionSnapshot) (invocation : ValidatedToolInvocation)
    (config : KernelRunConfig) (run_id : RunId) : K (PolicyInput * PolicyDecision) :=
  let! grants := store_active_grants (kc_actor_id config) in
  let! now := port clock_now in
  let! input := k_from CodePolicyFailure
    (from_validated (kc_actor_id config) (cfg_profile_id (st_configuration (sn_state snapshot)))
       (st_session_id (sn_state snapshot)) (Some run_id) (kc_workspace_id config) invocation
       (kc_environment config) now grants) in
  st_ret (input, ev_decision (evaluate (ak_policy kernel) input)).

Definition denied_text (decision : PolicyDecision) : string :=
  default "policy denied tool"%string (denial_reason decision).

Definition call_target (decision : PolicyDecision) (config : KernelRunConfig)
    (invocation : ValidatedToolInvocation) : ExecutionTarget :=
  selected_target decision (pe_target (kc_environment config)) (ts_kind (vi_source invocation)).

(** The first loop of [process_tool_turn]: it stops at the first Ask. *)
Fixpoint classify_calls (snapshot : SessionSnapshot) (config : KernelRunConfig) (run_id : RunId)
    (index : nat) (calls : list CompletedToolCall) : K (list Classified) :=
  match calls with
  | [] => st_ret []
  | call :: rest =>
      let! prepared := prepare_call snapshot call in
      match prepared with
      | PreparedRejected code message =>
          let! others := classify_calls snapshot config run_id (S index) rest in
          st_ret (ClassRejected index code message :: others)
      | PreparedValid invocation =>
          let! evaluated := evaluate_call snapshot invocation config run_id in
          let '(input, decision) := evaluated in
          match decision with
          | Allow | Redirect _ =>
              let! others := classify_calls snapshot config run_id (S index) rest in
              st_ret (ClassAllow invocation (call_target decision config invocation) :: others)
          | Deny _ | HardDeny _ =>
              let! others := classify_calls snapshot config run_id (S index) rest in
              st_ret (ClassDenied index (denied_text decision) :: others)
          | Ask requirement => st_ret [ClassAsk invocation input (ar_reason requirement)]
          end
      end
  end.

(** [&output.tool_calls[index]]. *)
Definition call_at (calls : list CompletedToolCall) (index : nat) : K CompletedToolCall :=
  match calls !! index with Some call => st_ret call | None => st_throw Panicked end.

(** The second loop: [batch] is cleared after a rejected call, and kept after a
    denied one. *)
Fixpoint settle_classified (calls : list CompletedToolCall) (config : KernelRunConfig)
    (run_id : RunId) (turn_id : TurnId) (snapshot : SessionSnapshot) (batch : Batch)
    (classified : list Classified) : K ToolProcessOutcome :=
  match classified with
  | [] =>
      let! snapshot := flush_tool_batch snapshot batch run_id turn_id in
      st_ret (Continue snapshot)
  | ClassRejected index code message :: rest =>
      let! snapshot := flush_tool_batch snapshot batch run_id turn_id in
      let! terminal := k_lift (failed_terminal code message) in
      let! call := call_at calls index in
      let! snapshot := commit_denied snapshot call terminal in
      settle_classified calls config run_id turn_id snapshot [] rest
  | ClassDenied index reason :: rest =>
      let! snapshot := flush_tool_batch snapshot batch run_id turn_id in
      let! terminal := k_lift (failed_terminal "policy_denied" reason) in
      let! call := call_at calls index in
      let! snapshot := commit_denied snapshot call terminal in
      settle_classified calls config run_id turn_id snapshot batch rest
  | ClassAllow invocation target :: rest =>
      settle_classified calls config run_id turn_id snapshot (batch ++ [(invocation, target)]) rest
  | ClassAsk invocation input reason :: _ =>
      let! snapshot := flush_tool_batch snapshot batch run_id turn_id in
      let! outcome := wait_for_approval snapshot invocation input reason config run_id turn_id in
      st_ret (Waiting outcome)
  end.

Definition process_tool_turn (snapshot : SessionSnapshot) (calls : list CompletedToolCall)
    (config : KernelRunConfig) (run_id : RunId) (turn_id : TurnId) : K ToolProcessOutcome :=
  let! classified := classify_calls snapshot config run_id 0 calls in
  settle_classified calls config run_id turn_id snapshot [] classified.

(** ** One call of a resumed turn *)

Definition process_validated (snapshot : SessionSnapshot) (call : CompletedToolCall)
    (invocation : ValidatedToolInvocation) (config : KernelRunConfig) (run_id : RunId)
    (turn_id : TurnId) : K ToolProcessOutcome :=
  let! evaluated := evaluate_call snapshot invocation config run_id in
  let '(input, decision) := evaluated in
  match decision with
  | Allow | Redirect _ =>
      let! snapshot := append_records snapshot
        [PolicyDecisionRecorded (cc_tool_call_id call) (durable_decision decision);
         ToolExecutionStarted (cc_tool_call_id call) (call_target decision config invocation)
           (te_idempotency (sp_execution (vi_spec invocation)))] in
      let! executed := k_try (execute invocation run_id turn_id) in
      match executed with
      | Ok terminal =>
          let! snapshot := commit_terminal snapshot call terminal in
          st_ret (Continue snapshot)
      | Err error =>
          do! record_tool_interruption snapshot call run_id turn_id error in
          st_throw (Raised error)
      end
  | Deny _ | HardDeny _ =>
      let! terminal := k_lift (failed_terminal "policy_denied" (denied_text decision)) in
      let! snapshot := commit_denied snapshot call terminal in
      st_ret (Continue snapshot)
  | Ask requirement =>
      let! outcome := wait_for_approval snapshot invocation input (ar_reason requirement) config
                        run_id turn_id in
      st_ret (Waiting outcome)
  end.

Definition process_tool (snapshot : SessionSnapshot) (call : CompletedToolCall)
    (config : KernelRunConfig) (run_id : RunId) (turn_id : TurnId) : K ToolProcessOutcome :=
  let! prepared := prepare_call snapshot call in
  match prepared with
  | PreparedRejected code message =>
      let! terminal := k_lift (failed_terminal code message) in
      let! snapshot := commit_denied snapshot call terminal in
      st_ret (Continue snapshot)
  | PreparedValid invocation =>
      process_validated snapshot call invocation config run_id turn_id
  end.

(** ** Approval resolutions *)

Definition commit_denied_resolution (snapshot : SessionSnapshot)
    (resolution : ApprovalResolution) (call : CompletedToolCall) : K SessionSnapshot :=
  let s := sn_state snapshot in
  let! terminal := k_lift (failed_terminal "approval_denied"
                             "tool invocation was denied by approval") in
  let! message_id := port next_message_id in
  let! failure := k_lift (ok_or (tt_failure terminal)
                    (kernel_error CodeInvalidState "approval denial has no failure")) in
  let! message := k_from CodeModelFailure
    (message_tool_result message_id (cc_tool_call_id call) (cc_tool_name call)
       (tt_content terminal) (Some failure) (rs_decided_at resolution)) in
  let! records := envelopes_at (st_session_id s) (st_tail_sequence s) (st_active_branch_id s)
    (rs_decided_at resolution)
    [ApprovalResolved (rq_approval_id (rs_request resolution)) (rs_decision resolution);
     ToolExecutionFinished (cc_tool_call_id call) true (tt_content terminal) (tt_failure terminal)
       None;
     MessageCommitted message] in
  match records with
  | [] => st_throw Panicked
  | record :: _ =>
      do! store_append (mk_AppendTransaction (st_session_id s) (Some (st_tail_sequence s)) records
            (Some (sn_journal_revision snapshot))
            [ArtifactResolved (env_record_id record) resolution] []) in
      store_load (st_session_id s)
  end.

Definition commit_resolution (snapshot : SessionSnapshot) (resolution : ApprovalResolution)
    (invocation : ValidatedToolInvocation) (target : PolicyExecutionTarget)
    : K SessionSnapshot :=
  let s := sn_state snapshot in
  let request := rs_request resolution in
  let allowed := match rs_decision resolution with
                 | AllowOnce | AllowSession => true
                 | DenyApproval => false
                 end in
  let facts :=
    ApprovalResolved (rq_approval_id request) (rs_decision resolution)
    :: (if allowed
        then [ToolExecutionStarted (rq_tool_call_id request)
                (selected_target Allow target (ts_kind (vi_source invocation)))
                (te_idempotency (sp_execution (vi_spec invocation)))]
        else []) in
  let! records := envelopes_at (st_session_id s) (st_tail_sequence s) (st_active_branch_id s)
                    (rs_decided_at resolution) facts in
  let! record_id := k_lift (ok_or (env_record_id <$> head records)
    (kernel_error CodeInvalidState "approval resolution transaction is empty")) in
  do! store_append (mk_AppendTransaction (st_session_id s) (Some (st_tail_sequence s)) records
        (Some (sn_journal_revision snapshot)) [ArtifactResolved record_id resolution]
        (match rs_issued_grant resolution with
         | Some grant => [GrantIssued record_id grant]
         | None => []
         end)) in
  store_load (st_session_id s).

(** ** Runs, compaction and what a resumed run recomputes *)

Definition validate_new_run_state (snapshot : SessionSnapshot) : Result KernelError unit :=
  try? ensure (bool_decide (st_pending_approvals (sn_state snapshot) = ∅))
         (kernel_error CodeInvalidState "session has a pending approval; resume it explicitly") in
  ensure (forallb (λ kv, bool_decide (is_Some (tc_result_message_id kv.2)))
            (map_to_list (st_tool_calls (sn_state snapshot))))
    (kernel_error CodeInvalidState "session has an incomplete or uncertain tool outcome").

Definition compact (session_id : SessionId) (summary : CanonicalMessage)
    (compacted_through_record_id : RecordId) : K SessionSnapshot :=
  let! snapshot := store_load session_id in
  do! k_lift (validate_new_run_state snapshot) in
  let! timestamp := port clock_now in
  let s := sn_state snapshot in
  let! records := envelopes_at session_id (st_tail_sequence s) (st_active_branch_id s) timestamp
                    [SessionCompacted summary compacted_through_record_id] in
  do! store_append (mk_AppendTransaction session_id (Some (st_tail_sequence s)) records
        (Some (sn_journal_revision snapshot)) [] []) in
  store_load session_id.

(** The filter of [remaining_tool_calls], with its [after_completed] flag. *)
Fixpoint remaining_from (s : MaterializedSessionState) (completed_call_id : ToolCallId)
    (after_completed : bool) (records : list RecordEnvelope) : list CompletedToolCall :=
  match records with
  | [] => []
  | record :: rest =>
      match env_record record with
      | ToolCallRequested tool_call_id tool_name arguments =>
          if bool_decide (tool_call_id = completed_call_id)
          then remaining_from s completed_call_id true rest
          else if after_completed
                  && match st_tool_calls s !! tool_call_id with
                     | Some tool => bool_decide (tc_policy_decision tool = None)
                                    && match tc_execution tool with NotStarted => true | _ => false end
                     | None => false
                     end
          then mk_CompletedToolCall tool_call_id tool_name arguments
               :: remaining_from s completed_call_id after_completed rest
          else remaining_from s completed_call_id after_completed rest
      | _ => remaining_from s completed_call_id after_completed rest
      end
  end.

Definition remaining_tool_calls (snapshot : SessionSnapshot) (completed_call_id : ToolCallId)
    : list CompletedToolCall :=
  remaining_from (sn_state snapshot) completed_call_id false (sn_records snapshot).

(** The distinct turns the run checkpointed, as a [u32]. *)
Definition completed_tool_iterations (snapshot : SessionSnapshot) (run_id : RunId) : N :=
  let turns : gset TurnId := list_to_set (omap (λ record,
    match env_record record with
    | TurnCheckpointed checkpoint_run turn_id _ =>
        if decide (checkpoint_run = run_id) then Some turn_id else None
    | _ => None
    end) (sn_records snapshot)) in
  N.min (N.of_nat (size turns)) U32_MAX.

Definition persisted_request (snapshot : SessionSnapshot) (approval_id : ApprovalId)
    : Result KernelError ApprovalRequest :=
  ok_or (head (omap (λ entry,
    match entry with
    | ArtifactRequested _ request _ =>
        if decide (rq_approval_id request = approval_id) then Some request else None
    | ArtifactResolved _ _ => None
    end) (sn_approval_artifacts snapshot)))
    (kernel_error CodePolicyFailure "persisted approval request is missing").

Definition persisted_final_output_format (snapshot : SessionSnapshot) (approval_id : ApprovalId)
    : option FinalOutputFormat :=
  head (omap (λ entry,
    match entry with
    | ArtifactRequested _ request format =>
        if decide (rq_approval_id request = approval_id) then format else None
    | ArtifactResolved _ _ => None
    end) (sn_approval_artifacts snapshot)).

Definition checkpoint_model_request (snapshot : SessionSnapshot) (run_id : RunId)
    (turn_id : TurnId) : K SessionSnapshot :=
  let! snapshot := append_records snapshot [TurnCheckpointed run_id turn_id NextModelRequest] in
  do! emit (Some run_id) (Some turn_id) EventTurnCheckpointed in
  st_ret snapshot.
End kernel.
