(* ===== verification/KernelTurn.v ===== *)
(** * Kernel: streaming one model turn

    [crates/tea-kernel/src/model_turn.rs]: a provider stream is validated event
    by event, its fragments are collected into pending content and published as
    deltas, retryable failures start another attempt, and a completed stream is
    finished into one canonical assistant message.  [usize] is 64 bits.  A
    stream is the list of events it yields; before each event the kernel polls
    cancellation and the run deadline.  The attempts recurse on fuel, and
    [stream_turn] has one more than the retry policy allows attempts. *)

From S2P Require Import Prelude Protocol Tools Policy SessionState Validation Usage ModelSpec Event.
From S2P Require Import Registry KernelBase ModelStream ModelProvider KernelConfig KernelMonad.
From S2P Require Import KernelRequest KernelTools.
Local Open Scope tea_scope.

(** ** Data *)

Record ModelTurnOutput : Set := mk_ModelTurnOutput {
  mo_message : CanonicalMessage;
  mo_tool_calls : list CompletedToolCall;
  mo_completion : ModelCompletion;
  mo_output_bytes : N
}.

Inductive PendingContent : Set :=
| PendText (text : string)
| PendThinking (text : string)
| PendTool (tool_call_id : ToolCallId) (completed : option ToolCallCompleted)
| PendHosted (tool_call_id : ToolCallId) (completed : option HostedToolCompleted)
| PendCitation (citation : ModelSourceCitation).

Notation Positions := (gmap ModelStreamIndex nat).
Notation HostedIds := (gmap ProviderToolCallId ToolCallId).

(** The local variables of one attempt. *)
Record TurnAttempt : Set := mk_TurnAttempt {
  at_content : list PendingContent;
  at_tool_positions : Positions;
  at_hosted_positions : Positions;
  at_hosted_ids : HostedIds;
  at_completion : option ModelCompletion;
  at_output_bytes : N
}.

Definition attempt_new : TurnAttempt := mk_TurnAttempt [] ∅ ∅ ∅ None 0.

(** Writes of [content], [output_bytes], and of one local variable each. *)
Definition set_content (content : list PendingContent) (output_bytes : N) (a : TurnAttempt)
    : TurnAttempt :=
  mk_TurnAttempt content (at_tool_positions a) (at_hosted_positions a) (at_hosted_ids a)
    (at_completion a) output_bytes.
Definition set_tool_positions (p : Positions) (a : TurnAttempt) : TurnAttempt :=
  mk_TurnAttempt (at_content a) p (at_hosted_positions a) (at_hosted_ids a) (at_completion a)
    (at_output_bytes a).
Definition set_hosted (p : Positions) (ids : HostedIds) (a : TurnAttempt) : TurnAttempt :=
  mk_TurnAttempt (at_content a) (at_tool_positions a) p ids (at_completion a)
    (at_output_bytes a).
Definition set_completion (c : ModelCompletion) (a : TurnAttempt) : TurnAttempt :=
  mk_TurnAttempt (at_content a) (at_tool_positions a) (at_hosted_positions a) (at_hosted_ids a)
    (Some c) (at_output_bytes a).

(** ** Pure helpers *)

Definition model_contract (message : string) : KernelError :=
  kernel_error CodeModelFailure message.

Definition add_output (current delta output_budget : N) : Result KernelError N :=
  let? total := ok_or (checked_add_u64 current delta)
    (kernel_error CodeLimitExceeded "assistant output byte count overflowed") in
  try? ensure (total <=? output_budget)%N
         (kernel_error CodeLimitExceeded "assistant output byte limit was reached") in
  Ok total.

Definition to_content_index (value : nat) : Result KernelError N :=
  try? ensure (N.of_nat value <=? U32_MAX)%N
         (model_contract "assistant content index is out of range") in
  Ok (N.of_nat value).

Definition pending_text (delta : string) (thinking : bool) : PendingContent :=
  if thinking then PendThinking delta else PendText delta.

(** [append_text]: the new content and the index the delta belongs to. *)
Definition append_text (content : list PendingContent) (delta : string) (thinking : bool)
    : list PendingContent * nat :=
  match last content, thinking with
  | Some (PendText text), false =>
      (<[(length content - 1)%nat := PendText (text ++ delta)]> content,
       (length content - 1)%nat)
  | Some (PendThinking text), true =>
      (<[(length content - 1)%nat := PendThinking (text ++ delta)]> content,
       (length content - 1)%nat)
  | _, _ => (content ++ [pending_text delta thinking], length content)
  end.

Definition complete_tool (content : list PendingContent) (positions : Positions)
    (call : ToolCallCompleted) : Result KernelError (list PendingContent) :=
  let? position := ok_or (positions !! tc_index call)
                     (model_contract "completed tool call has no start") in
  match content !! position with
  | Some (PendTool tool_call_id None) =>
      Ok (<[position := PendTool tool_call_id (Some call)]> content)
  | _ => Err (model_contract "completed tool call has invalid position")
  end.

Definition complete_hosted_tool (content : list PendingContent) (positions : Positions)
    (call : HostedToolCompleted) : Result KernelError (list PendingContent) :=
  let? position := ok_or (positions !! hc_index call)
                     (model_contract "completed hosted tool has no start") in
  match content !! position with
  | Some (PendHosted tool_call_id None) =>
      Ok (<[position := PendHosted tool_call_id (Some call)]> content)
  | _ => Err (model_contract "completed hosted tool has invalid position")
  end.

Definition citation_with_call (citation : SourceCitation) (tool_call_id : ToolCallId)
    : SourceCitation :=
  mk_SourceCitation (Some tool_call_id) (sc_source citation) (sc_start_index citation)
    (sc_end_index citation) (sc_cited_text citation) (sc_continuation citation).

Definition canonical_citation (citation : ModelSourceCitation) (hosted_ids : HostedIds)
    : Result KernelError SourceCitation :=
  match mc_provider_call_id citation with
  | None => Ok (mc_citation citation)
  | Some provider_call_id =>
      let? tool_call_id := ok_or (hosted_ids !! provider_call_id)
        (model_contract "citation references an unknown hosted tool") in
      Ok (citation_with_call (mc_citation citation) tool_call_id)
  end.

Definition is_tool_use (reason : StopReason) : bool :=
  match reason with StopToolUse => true | _ => false end.

Section turn.
Context `{Codec, Display}.

Definition from_model {E : Set} {A} (r : Result E A) : Result KernelError A :=
  from_error CodeModelFailure r.

(** [HostedToolActivity::new] on a completed call. *)
Definition hosted_activity (tool_call_id : ToolCallId) (call : HostedToolCompleted)
    : Result KernelError HostedToolActivity :=
  from_model (activity_new tool_call_id (pti_str (hc_provider_call_id call)) (hc_tool_name call)
                (hc_arguments call) (hc_outcome call) (hc_sources call) (hc_continuation call)).

Definition hosted_block_bytes (content : list PendingContent) (positions : Positions)
    (call : HostedToolCompleted) : Result KernelError N :=
  let? position := ok_or (positions !! hc_index call)
                     (model_contract "completed hosted tool has no start") in
  match content !! position with
  | Some (PendHosted tool_call_id _) =>
      let? activity := hosted_activity tool_call_id call in
      ok_or (encoded_block_len (HostedTool activity))
        (model_contract "hosted tool activity could not be measured")
  | _ => Err (model_contract "hosted tool has invalid position")
  end.

(** The provider identities of the completed hosted tools. *)
Definition finished_hosted_ids (pending : list PendingContent) : HostedIds :=
  btree_collect (omap (λ block,
    match block with
    | PendHosted tool_call_id (Some call) => Some (hc_provider_call_id call, tool_call_id)
    | _ => None
    end) pending).

Definition pending_block (hosted_ids : HostedIds) (block : PendingContent)
    : Result KernelError ContentBlock :=
  match block with
  | PendText text => from_model (block_text text)
  | PendThinking text => from_model (block_thinking text)
  | PendTool tool_call_id (Some call) =>
      from_model (tool_call_inner tool_call_id (Some (pti_str (tc_provider_call_id call)))
                    (tc_called_name call) (tc_called_arguments call))
  | PendTool _ None => Err (model_contract "model tool call is incomplete")
  | PendHosted tool_call_id (Some call) =>
      let? activity := hosted_activity tool_call_id call in Ok (HostedTool activity)
  | PendHosted _ None => Err (model_contract "model hosted tool activity is incomplete")
  | PendCitation citation =>
      let? canonical := canonical_citation citation hosted_ids in Ok (Citation canonical)
  end.

Definition pending_call (block : PendingContent) : option CompletedToolCall :=
  match block with
  | PendTool tool_call_id (Some call) =>
      Some (mk_CompletedToolCall tool_call_id (tc_called_name call) (tc_called_arguments call))
  | _ => None
  end.

Definition finish_turn (message_id : MessageId) (timestamp : ProtocolTimestamp)
    (pending : list PendingContent) (completion : ModelCompletion) (output_bytes : N)
    : Result KernelError ModelTurnOutput :=
  let? content := result_map (pending_block (finished_hosted_ids pending)) pending in
  let tool_calls := omap pending_call pending in
  try? ensure (negb (is_empty content))
         (model_contract "model completion contains no content") in
  try? ensure (eqb (negb (is_empty tool_calls)) (is_tool_use (mcp_stop_reason completion)))
         (model_contract "model stop reason does not match completed tool calls") in
  let? message := from_model (message_assistant message_id content (mcp_stop_reason completion)
                                timestamp) in
  Ok (mk_ModelTurnOutput message tool_calls completion output_bytes).
End turn.

(** ** Streaming *)

Section stream.
Context `{Codec, Display, KernelPorts}.
Context (provider : ModelProvider) (request : ModelRequest) (hosted_tool_names : list ToolName).
Context (message_id : MessageId) (run_id : RunId) (turn_id : TurnId).
Context (output_budget : N) (retry_policy : ModelRetryPolicy).

Definition is_hosted_name (tool_name : string) : bool :=
  existsb (λ name, String.eqb (tn_str name) tool_name) hosted_tool_names.

Definition check_model_signal : K unit :=
  let! t := moment in
  match poll_signal t with
  | Some SignalCancelled => raise CodeCancelled "model request was cancelled"
  | Some SignalDeadline =>
      raise CodeLimitExceeded "run deadline was reached during model streaming"
  | None => st_ret tt
  end.

Definition emit_turn (event : AgentEvent) : K unit := emit (Some run_id) (Some turn_id) event.

(** The arms of a text or thinking delta. *)
Definition push_delta (a : TurnAttempt) (delta : string) (thinking : bool) : K TurnAttempt :=
  let! output_bytes := k_lift (add_output (at_output_bytes a) (str_len delta) output_budget) in
  let '(content, index) := append_text (at_content a) delta thinking in
  let! content_index := k_lift (to_content_index index) in
  do! emit_turn (EventMessageDelta message_id content_index
                   (if thinking then ThinkingDelta delta else TextDelta delta)) in
  st_ret (set_content content output_bytes a).

Definition start_tool_call (a : TurnAttempt) (call : ToolCallStarted) : K TurnAttempt :=
  do! k_lift (ensure (negb (is_hosted_name (ts_tool_name call)))
        (model_contract "provider returned a client tool call that was not projected")) in
  let! tool_call_id := port next_tool_call_id in
  do! k_lift (ensure (bool_decide (at_tool_positions a !! ts_index call = None))
        (model_contract "model reused a tool-call index")) in
  let position := length (at_content a) in
  st_ret (set_content (at_content a ++ [PendTool tool_call_id None]) (at_output_bytes a)
            (set_tool_positions (<[ts_index call := position]> (at_tool_positions a)) a)).

Definition start_hosted_tool (a : TurnAttempt) (call : HostedToolStarted) : K TurnAttempt :=
  do! k_lift (ensure (is_hosted_name (hs_tool_name call))
        (model_contract "provider returned a hosted tool activity that was not projected")) in
  let! tool_call_id := port next_tool_call_id in
  do! k_lift (ensure (bool_decide (at_hosted_positions a !! hs_index call = None)
                      && bool_decide (at_hosted_ids a !! hs_provider_call_id call = None))
        (model_contract "model reused a hosted tool identity")) in
  let position := length (at_content a) in
  do! emit_turn (EventHostedToolStarted tool_call_id (hs_tool_name call)) in
  st_ret (set_content (at_content a ++ [PendHosted tool_call_id None]) (at_output_bytes a)
            (set_hosted (<[hs_index call := position]> (at_hosted_positions a))
               (<[hs_provider_call_id call := tool_call_id]> (at_hosted_ids a)) a)).

Definition finish_hosted_tool (a : TurnAttempt) (call : HostedToolCompleted) : K TurnAttempt :=
  let! block_bytes := k_lift (hosted_block_bytes (at_content a) (at_hosted_positions a) call) in
  let! output_bytes := k_lift (add_output (at_output_bytes a) block_bytes output_budget) in
  do! k_lift (ensure (N.of_nat (length (hc_sources call)) <=? U32_MAX)%N
        (model_contract "hosted source count exceeded event bounds")) in
  let! tool_call_id := k_lift (ok_or (at_hosted_ids a !! hc_provider_call_id call)
        (model_contract "completed hosted tool has no identity")) in
  let! content := k_lift (complete_hosted_tool (at_content a) (at_hosted_positions a) call) in
  do! emit_turn (EventHostedToolCompleted tool_call_id (hc_tool_name call) (hc_arguments call)
                   (hc_outcome call) (N.of_nat (length (hc_sources call)))) in
  st_ret (set_content content output_bytes a).

Definition push_citation (a : TurnAttempt) (citation : ModelSourceCitation) : K TurnAttempt :=
  let! canonical := k_lift (canonical_citation citation (at_hosted_ids a)) in
  let! block_bytes := k_lift (ok_or (encoded_block_len (Citation canonical))
        (model_contract "model citation could not be measured")) in
  let! output_bytes := k_lift (add_output (at_output_bytes a) block_bytes output_budget) in
  st_ret (set_content (at_content a ++ [PendCitation citation]) output_bytes a).

(** The [match event] of the loop; a failure leaves the loop before it. *)
Definition apply_model_event (a : TurnAttempt) (event : ModelEvent) : K TurnAttempt :=
  match event with
  | ModelTextDelta delta => push_delta a (ud_str delta) false
  | ModelThinkingDelta delta => push_delta a (ud_str delta) true
  | ModelToolCallStarted call => start_tool_call a call
  | ModelStarted _ | ModelToolArgumentsDelta _ | ModelFailed _ => st_ret a
  | ModelToolCallCompleted call =>
      let! content := k_lift (complete_tool (at_content a) (at_tool_positions a) call) in
      st_ret (set_content content (at_output_bytes a) a)
  | ModelHostedToolStarted call => start_hosted_tool a call
  | ModelHostedToolCompleted call => finish_hosted_tool a call
  | ModelSourceCited citation => push_citation a citation
  | ModelCompleted value => st_ret (set_completion value a)
  end.

(** The inner loop: the validator and attempt it ends with, and the failure it
    broke at. *)
Fixpoint poll_model (events : list ModelEvent) (validator : ModelStreamValidator)
    (a : TurnAttempt) : K (ModelStreamValidator * TurnAttempt * option ModelFailure) :=
  do! check_model_signal in
  match events with
  | [] => st_ret (validator, a, None)
  | event :: rest =>
      let '(observed, validator) := model_observe event validator in
      do! k_from CodeModelFailure observed in
      match event with
      | ModelFailed failure => st_ret (validator, a, Some failure)
      | _ =>
          let! a := apply_model_event a event in
          poll_model rest validator a
      end
  end.

(** One attempt: the provider's stream, polled to its end. *)
Definition stream_attempt
    : K (ModelStreamValidator * TurnAttempt * option ModelFailure) :=
  let! now := moment in
  do! st_modify (act (ActRequested request)) in
  poll_model (mp_stream provider now request) model_validator_new attempt_new.

Definition complete_attempt (validator : ModelStreamValidator) (a : TurnAttempt)
    : K ModelTurnOutput :=
  do! k_from CodeModelFailure (model_finish validator) in
  let! completion := k_lift (ok_or (at_completion a)
                               (model_contract "model stream has no completion")) in
  let! now := port clock_now in
  k_lift (finish_turn message_id now (at_content a) completion (at_output_bytes a)).

Definition retry_backoff (failure : ModelFailure) (retry_attempt : N) : K unit :=
  let max_retries := (max_attempts retry_policy - 1)%N in
  let delay := delay_for_failure retry_policy failure retry_attempt in
  do! k_lift (ensure (duration_as_millis delay <=? U64_MAX)%N
        (model_contract "model retry delay exceeded event bounds")) in
  do! emit_turn (EventModelRetryScheduled message_id retry_attempt max_retries
                   (duration_as_millis delay)) in
  let! now := port clock_now in
  let! wake := k_lift (add_duration now delay) in
  let! t := moment in
  do! match poll_signal t with
      | Some SignalCancelled =>
          raise CodeCancelled "model request was cancelled during retry backoff"
      | _ => st_ret tt
      end in
  emit_turn (EventModelRetryStarted message_id retry_attempt max_retries).

Fixpoint stream_attempts (fuel : nat) (attempt : N) : K ModelTurnOutput :=
  match fuel with
  | O => st_throw OutOfFuel
  | S fuel =>
      let! polled := stream_attempt in
      let '(validator, a, attempt_failure) := polled in
      match attempt_failure with
      | None => complete_attempt validator a
      | Some failure =>
          if bool_decide (mf_code failure = FailCancelled)
             || bool_decide (mf_retry failure = RetryClassNever)
          then st_throw (Raised (model_failure_error failure false))
          else if (max_attempts retry_policy <=? attempt + 1)%N
          then st_throw (Raised (model_failure_error failure true))
          else
            do! retry_backoff failure (attempt + 1) in
            stream_attempts fuel (attempt + 1)
      end
  end.
End stream.

Definition stream_turn `{Codec, Display, KernelPorts} (provider : ModelProvider)
    (snapshot : TurnRequestSnapshot) (run_id : RunId) (turn_id : TurnId) (output_budget : N)
    (retry_policy : ModelRetryPolicy) : K ModelTurnOutput :=
  let! message_id := port next_message_id in
  stream_attempts provider (tq_request snapshot) (tq_hosted_tool_names snapshot) message_id
    run_id turn_id output_budget retry_policy (S (N.to_nat (max_attempts retry_policy))) 0.
