(* ===== verification/KernelRun.v ===== *)
(** * Kernel: runs

    The run loop of [crates/tea-kernel/src/kernel.rs]: starting a run, resuming
    one from a resolved approval, model turns with queued input, context
    overflow and automatic compaction, declarations of tool calls with their
    audit metadata ([record.rs]), final-output validation, and the terminal of a
    failed run.

    The deadline and the cancellation scope act through the [poll_signal] port.
    [run_loop_inner] recurses on fuel; [run_fuel] is the iterations its progress
    still allows, one automatic compaction, and one. *)

From S2P Require Import Prelude Protocol Tools Policy Approval ToolAudit SessionState Reducer.
From S2P Require Import Artifact Store Validation Usage ModelSpec Event Registry ModelProvider.
From S2P Require Import ModelStream KernelBase KernelConfig KernelMonad KernelRequest KernelTools.
From S2P Require Import KernelTurn.
Local Open Scope tea_scope.

(** ** Progress of a run *)

Record RunProgress : Set := mk_RunProgress {
  rp_tool_iterations : N;
  rp_assistant_output_bytes : N;
  rp_deadline : ProtocolTimestamp;
  rp_terminal_turn_id : TurnId;
  rp_prepared_turn_id : option TurnId
}.

Definition output_budget (p : RunProgress) (config : KernelRunConfig) : Result KernelError N :=
  let limit := max_assistant_output_bytes (kc_limits config) in
  try? ensure (rp_assistant_output_bytes p <=? limit)%N
         (kernel_error CodeLimitExceeded "assistant output byte limit was reached") in
  Ok (limit - rp_assistant_output_bytes p)%N.

Definition observe_output (p : RunProgress) (bytes : N) : Result KernelError RunProgress :=
  let? total := ok_or (checked_add_u64 (rp_assistant_output_bytes p) bytes)
    (kernel_error CodeLimitExceeded "assistant output byte count cannot advance") in
  Ok (mk_RunProgress (rp_tool_iterations p) total (rp_deadline p) (rp_terminal_turn_id p)
        (rp_prepared_turn_id p)).

Definition advance_tools (p : RunProgress) (config : KernelRunConfig)
    : Result KernelError RunProgress :=
  let iterations := (rp_tool_iterations p + 1)%N in
  try? ensure (iterations <=? U32_MAX)%N
         (kernel_error CodeLimitExceeded "tool iteration count cannot advance") in
  try? ensure (iterations <=? max_tool_iterations (kc_limits config))%N
         (kernel_error CodeLimitExceeded "tool iteration limit was reached") in
  Ok (mk_RunProgress iterations (rp_assistant_output_bytes p) (rp_deadline p)
        (rp_terminal_turn_id p) (rp_prepared_turn_id p)).

Definition take_prepared_turn (p : RunProgress) : RunProgress :=
  mk_RunProgress (rp_tool_iterations p) (rp_assistant_output_bytes p) (rp_deadline p)
    (rp_terminal_turn_id p) None.

(** ** Output bytes of a resumed run *)

Definition byte_count_error : KernelError :=
  kernel_error CodeLimitExceeded "assistant output byte count cannot be reconstructed".

Section codec.
Context `{Codec, SchemaEngine, Display}.

Definition output_block_bytes (block : ContentBlock) : Result KernelError N :=
  match block with
  | Text text | ContextualText text | Thinking text => Ok (str_len text)
  | Image _ _ | ToolCall _ _ _ _ => Ok 0%N
  | HostedTool _ | Citation _ => ok_or (encoded_block_len block) byte_count_error
  end.

Definition checked_content_bytes (initial : N) (content : list ContentBlock)
    : Result KernelError N :=
  result_fold (λ total block,
    let? bytes := output_block_bytes block in
    ok_or (checked_add_u64 total bytes) byte_count_error) initial content.

(** The loop of [committed_assistant_output_bytes] over its two counters. *)
Definition count_record_bytes (run_id : RunId) (counts : N * N) (record : RecordEnvelope)
    : Result KernelError (N * N) :=
  let '(segment_bytes, run_bytes) := counts in
  match env_record record with
  | MessageCommitted (Assistant _ content _ _) =>
      let? segment_bytes := checked_content_bytes segment_bytes content in
      Ok (segment_bytes, run_bytes)
  | TurnCheckpointed checkpoint_run _ _ =>
      if decide (checkpoint_run = run_id) then
        let? run_bytes := ok_or (checked_add_u64 run_bytes segment_bytes) byte_count_error in
        Ok (0%N, run_bytes)
      else Ok (0%N, run_bytes)
  | _ => Ok (segment_bytes, run_bytes)
  end.

Definition committed_assistant_output_bytes (snapshot : SessionSnapshot) (run_id : RunId)
    : Result KernelError N :=
  let? counts := result_fold (count_record_bytes run_id) (0%N, 0%N) (sn_records snapshot) in
  Ok counts.2.

(** ** Final-output validation *)

Definition structured_text (content : list ContentBlock) : Result KernelError string :=
  result_fold (λ text block,
    match block with
    | Text part => Ok (text ++ part)%string
    | Thinking _ | HostedTool _ | Citation _ => Ok text
    | ContextualText _ | Image _ _ | ToolCall _ _ _ _ =>
        Err (malformed_response "structured output contains unsupported content")
    end) EmptyString content.

Definition validate_final_output (format : CompiledFinalOutputFormat) (output : ModelTurnOutput)
    : Result KernelError unit :=
  try? ensure (bool_decide (mcp_stop_reason (mo_completion output) = StopCompleted))
         (malformed_response "structured output did not complete normally") in
  match mo_message output with
  | Assistant _ content _ _ =>
      let? text := structured_text content in
      try? ensure (negb (String.eqb text ""))
             (malformed_response "structured output contains no JSON text") in
      let? value := ok_or (json_parse text)
                      (malformed_response "structured output is not valid JSON") in
      match format with
      | CompiledJsonObject =>
          ensure (is_object value) (malformed_response "structured output is not a JSON object")
      | CompiledJsonSchema schema =>
          map_err (λ _, malformed_response "structured output violates its JSON Schema")
            (schema_validate_prebounded schema value)
      end
  | User _ _ _ | ToolResult _ _ _ _ _ _ _ =>
      Err (malformed_response "structured output is not an assistant message")
  end.

(** ** Audit metadata of a declared call ([record.rs]) *)

Definition audit_error (error : ToolAuditMetadataError) : KernelError :=
  kernel_error CodeInvalidState
    ("validated tool audit metadata is invalid: " ++ to_string error).

Definition tool_audit_metadata (invocation : ValidatedToolInvocation)
    : Result KernelError ProtocolMetadata :=
  let? resources := map_err audit_error
    (result_map (λ resource,
       audit_resource_new (tr_scheme resource)
         (redact_resource (tr_scheme resource) (tr_locator resource)) (tr_access resource))
       (vi_resources invocation)) in
  map_err audit_error
    (let? metadata := audit_metadata_new (sp_version (vi_spec invocation)) (vi_source invocation)
                        (sp_effects (vi_spec invocation)) resources in
     to_protocol_metadata metadata).
End codec.

(** What one iteration of the loop ends with: [continue], or [return Ok]. *)
Inductive TurnStep : Type :=
| NextTurn (snapshot : SessionSnapshot) (progress : RunProgress) (auto_compacted : bool)
| RunDone (outcome : KernelRunOutcome).

Section kernel.
Context `{Codec, SchemaEngine, Display, KernelPorts}.
Context (kernel : AgentKernel).

(** ** Models *)

Definition active_model (snapshot : SessionSnapshot)
    : Result KernelError (ModelProvider * ModelSpec) :=
  let? model_ref := ok_or (cfg_model (st_configuration (sn_state snapshot)))
                      (kernel_error CodeInvalidModel "session has no active model") in
  let? provider := ok_or (mr_provider (ak_models kernel) (mr_provider_id model_ref))
                     (kernel_error CodeInvalidModel "active model provider is not registered") in
  let? model := ok_or (router_model (ak_models kernel) model_ref)
                  (kernel_error CodeInvalidModel
                     "active model is not advertised by its provider") in
  Ok (provider, model).

Definition validate_request (provider : ModelProvider) (request : TurnRequestSnapshot) : K unit :=
  let! now := moment in
  do! k_lift (map_err provider_validation
                (mp_validate_request provider now (tq_request request))) in
  st_modify (act (ActValidated now (tq_request request))).

Definition preflight_model_request (snapshot : SessionSnapshot) (config : KernelRunConfig)
    : K unit :=
  let! active := k_lift (active_model snapshot) in
  let! request := k_lift (build (sn_state snapshot) config (ak_tools kernel) active.2) in
  validate_request active.1 request.

(** ** Queued input *)

Definition newline : string := String.String (Ascii.ascii_of_N 10) String.EmptyString.

Definition steering_message (steering : list CommandText) : K CanonicalMessage :=
  let text := String.concat newline (ct_str <$> steering) in
  let! message_id := port next_message_id in
  let! block := k_from CodeModelFailure (block_text text) in
  let! now := port clock_now in
  k_from CodeModelFailure (message_user message_id [block] now).

(** [queue.acknowledge], whose pops outlive its errors. *)
Definition acknowledge_input (queued : QueueSnapshot) : K unit :=
  let! queue := st_gets w_queue in
  match queue with
  | None => st_ret tt
  | Some q =>
      let! q := produce q in
      let '(acknowledged, q) := acknowledge queued q in
      do! st_modify (set_w_queue (Some q)) in
      k_lift acknowledged
  end.

Definition apply_queued_input (snapshot : SessionSnapshot) (config : KernelRunConfig)
    (provider : ModelProvider) (model : ModelSpec) : K SessionSnapshot :=
  let! queue := st_gets w_queue in
  match queue with
  | None => st_ret snapshot
  | Some q =>
      let! q := produce q in
      let queued := queue_snapshot q in
      if is_empty (qs_follow_ups queued) && is_empty (qs_steering queued)
      then st_ret snapshot
      else
        let! messages :=
          if is_empty (qs_steering queued) then st_ret []
          else let! message := steering_message (qs_steering queued) in st_ret [message] in
        let messages := messages ++ qs_follow_ups queued in
        let! request := k_lift (build_with_pending_messages (sn_state snapshot) messages config
                                  (ak_tools kernel) model) in
        do! validate_request provider request in
        let! snapshot := append_records snapshot (MessageCommitted <$> messages) in
        do! acknowledge_input queued in
        st_ret snapshot
  end.

(** ** Committing a turn *)

Definition declaration_metadata (snapshot : SessionSnapshot) (call : CompletedToolCall)
    : K ProtocolMetadata :=
  let! prepared := prepare_call kernel snapshot call in
  match prepared with
  | PreparedValid invocation => k_lift (tool_audit_metadata invocation)
  | PreparedRejected _ _ => st_ret ∅
  end.

Fixpoint declaration_records (snapshot : SessionSnapshot) (calls : list CompletedToolCall)
    : K (list (ProtocolMetadata * SessionRecord)) :=
  match calls with
  | [] => st_ret []
  | call :: rest =>
      let! metadata := declaration_metadata snapshot call in
      let! records := declaration_records snapshot rest in
      st_ret ((metadata, ToolCallRequested (cc_tool_call_id call) (cc_tool_name call)
                           (cc_arguments call)) :: records)
  end.

Definition commit_declarations (snapshot : SessionSnapshot) (output : ModelTurnOutput)
    (run_id : RunId) (turn_id : TurnId) : K SessionSnapshot :=
  let! records := declaration_records snapshot (mo_tool_calls output) in
  let! snapshot := append_records_with_metadata snapshot
                     ((∅, MessageCommitted (mo_message output)) :: records) in
  do! st_for (mo_tool_calls output) (λ call,
        emit (Some run_id) (Some turn_id)
          (EventToolCallRequested (cc_tool_call_id call) (cc_tool_name call) (cc_arguments call))) in
  st_ret snapshot.

Definition finish (snapshot : SessionSnapshot) (output : ModelTurnOutput) (run_id : RunId)
    (turn_id : TurnId) : K KernelRunOutcome :=
  let! snapshot := append_records snapshot
                     [MessageCommitted (mo_message output);
                      TurnCheckpointed run_id turn_id NextFinishRun] in
  do! emit (Some run_id) (Some turn_id) EventTurnCheckpointed in
  do! emit (Some run_id) None
        (EventRunFinished StatusCompleted (mcp_usage (mo_completion output))
           (mcp_cost (mo_completion output))) in
  st_ret (mk_KernelRunOutcome run_id RunCompleted (sn_state snapshot) None).

(** Recording a failure before returning it. *)
Definition fail_turn {A} (snapshot : SessionSnapshot) (run_id : RunId) (turn_id : TurnId)
    (error : KernelError) : K A :=
  do! record_run_terminal snapshot run_id (Some turn_id) error in
  st_throw (Raised error).

Definition or_fail_turn {A} (snapshot : SessionSnapshot) (run_id : RunId) (turn_id : TurnId)
    (r : Result KernelError A) : K A :=
  match r with Ok a => st_ret a | Err error => fail_turn snapshot run_id turn_id error end.

(** ** The run loop *)

(** The branch taken when the estimate does not fit the context window. *)
Definition overflow_turn (snapshot : SessionSnapshot) (config : KernelRunConfig)
    (run_id : RunId) (turn_id : TurnId) (progress : RunProgress) (auto_compacted : bool)
    (estimated window : N) (error : KernelError) : K TurnStep :=
  let! compacts :=
    if auto_compacted then st_ret false
    else let! now := moment in st_ret (kc_compaction_policy config now estimated window) in
  match (if compacts then kc_compaction_summarizer config else None) with
  | Some summarizer =>
      let! now := moment in
      let! summary := k_lift (summarizer now (st_messages (sn_state snapshot))) in
      let! snapshot := compact (st_session_id (sn_state snapshot)) summary
                         (st_tail_record_id (sn_state snapshot)) in
      st_ret (NextTurn snapshot progress true)
  | None => fail_turn snapshot run_id turn_id error
  end.

(** A turn without tool calls: a paused turn goes on, any other is final. *)
Definition settle_final_turn (snapshot : SessionSnapshot) (config : KernelRunConfig)
    (run_id : RunId) (turn_id : TurnId) (progress : RunProgress) (auto_compacted : bool)
    (output : ModelTurnOutput) : K TurnStep :=
  if bool_decide (mcp_stop_reason (mo_completion output) = StopPauseTurn) then
    let! progress := or_fail_turn snapshot run_id turn_id (advance_tools progress config) in
    let! snapshot := commit_declarations snapshot output run_id turn_id in
    let! snapshot := checkpoint_model_request snapshot run_id turn_id in
    st_ret (NextTurn snapshot progress auto_compacted)
  else
    do! or_fail_turn snapshot run_id turn_id
          (match kc_final_output_format config with
           | Some format => validate_final_output format output
           | None => Ok tt
           end) in
    let! outcome := finish snapshot output run_id turn_id in
    st_ret (RunDone outcome).

(** A turn with tool calls. *)
Definition settle_tool_turn (snapshot : SessionSnapshot) (config : KernelRunConfig)
    (run_id : RunId) (turn_id : TurnId) (progress : RunProgress) (auto_compacted : bool)
    (output : ModelTurnOutput) : K TurnStep :=
  let! progress := or_fail_turn snapshot run_id turn_id (advance_tools progress config) in
  let! snapshot := commit_declarations snapshot output run_id turn_id in
  let! processed := process_tool_turn kernel snapshot (mo_tool_calls output) config run_id
                      turn_id in
  match processed with
  | Waiting outcome => st_ret (RunDone outcome)
  | Continue snapshot =>
      let! snapshot := checkpoint_model_request snapshot run_id turn_id in
      st_ret (NextTurn snapshot progress auto_compacted)
  end.

(** One iteration of the loop, after its turn has an identity. *)
Definition run_turn (snapshot : SessionSnapshot) (config : KernelRunConfig) (run_id : RunId)
    (turn_id : TurnId) (progress : RunProgress) (auto_compacted : bool) : K TurnStep :=
  let! active := k_lift (active_model snapshot) in
  let '(provider, model) := active in
  let! snapshot := apply_queued_input snapshot config provider model in
  let! request := k_lift (build (sn_state snapshot) config (ak_tools kernel) model) in
  do! validate_request provider request in
  let accountant := accountant_new model in
  let estimated := estimate_input_tokens None (mq_system_prompt (tq_request request))
                     (mq_tools (tq_request request)) (mq_messages (tq_request request)) in
  match check_overflow accountant estimated with
  | Err error =>
      overflow_turn snapshot config run_id turn_id progress auto_compacted estimated
        (tok_get (cw_context_window accountant)) error
  | Ok _ =>
      let! budget := k_lift (output_budget progress config) in
      let! streamed := k_try (stream_turn provider request run_id turn_id budget
                                (kc_retry_policy config)) in
      let! output := or_fail_turn snapshot run_id turn_id streamed in
      let! progress := k_lift (observe_output progress (mo_output_bytes output)) in
      if is_empty (mo_tool_calls output)
      then settle_final_turn snapshot config run_id turn_id progress auto_compacted output
      else settle_tool_turn snapshot config run_id turn_id progress auto_compacted output
  end.

(** The head of an iteration: cancellation, then the identity of its turn. *)
Definition begin_turn (snapshot : SessionSnapshot) (run_id : RunId) (progress : RunProgress)
    : K TurnId :=
  let! t := moment in
  match poll_signal t with
  | Some SignalCancelled =>
      let error := kernel_error CodeCancelled "agent run was cancelled" in
      do! record_run_terminal snapshot run_id None error in
      st_throw (Raised error)
  | _ =>
      match rp_prepared_turn_id progress with
      | Some turn_id => st_ret turn_id
      | None => port next_turn_id
      end
  end.

(** The loop returns its result with the last turn it began
    ([current_turn_id]). *)
Fixpoint run_loop_inner (fuel : nat) (snapshot : SessionSnapshot) (config : KernelRunConfig)
    (run_id : RunId) (progress : RunProgress) (auto_compacted : bool) (current_turn_id : TurnId)
    : K (Result KernelError KernelRunOutcome * TurnId) :=
  match fuel with
  | O => st_throw OutOfFuel
  | S fuel =>
      let! begun := k_try (begin_turn snapshot run_id progress) in
      match begun with
      | Err error => st_ret (Err error, current_turn_id)
      | Ok turn_id =>
          let! step := k_try (run_turn snapshot config run_id turn_id
                                (take_prepared_turn progress) auto_compacted) in
          match step with
          | Err error => st_ret (Err error, turn_id)
          | Ok (RunDone outcome) => st_ret (Ok outcome, turn_id)
          | Ok (NextTurn snapshot progress auto_compacted) =>
              run_loop_inner fuel snapshot config run_id progress auto_compacted turn_id
          end
      end
  end.

Definition run_fuel (config : KernelRunConfig) (progress : RunProgress) : nat :=
  N.to_nat (max_tool_iterations (kc_limits config) - rp_tool_iterations progress) + 2.

(** Ensuring that a failed run has a durable terminal. *)
Definition or_ensure_terminal {A} (session_id : SessionId) (run_id : RunId) (turn_id : TurnId)
    (r : Result KernelError A) : K A :=
  match r with
  | Ok a => st_ret a
  | Err error =>
      do! ensure_run_terminal session_id run_id turn_id error in
      st_throw (Raised error)
  end.

Definition run_loop (snapshot : SessionSnapshot) (config : KernelRunConfig) (run_id : RunId)
    (progress : RunProgress) : K KernelRunOutcome :=
  let! ended := run_loop_inner (run_fuel config progress) snapshot config run_id progress false
                  (rp_terminal_turn_id progress) in
  or_ensure_terminal (st_session_id (sn_state snapshot)) run_id ended.2 ended.1.

Definition run_deadline (config : KernelRunConfig) : K ProtocolTimestamp :=
  let! now := port clock_now in
  k_lift (add_duration now (max_elapsed (kc_limits config))).

Definition run (session_id : SessionId) (config : KernelRunConfig) : K KernelRunOutcome :=
  let! snapshot := store_load session_id in
  do! k_lift (validate_new_run_state snapshot) in
  do! preflight_model_request snapshot config in
  let! run_id := port next_run_id in
  let! deadline := run_deadline config in
  let! first_turn_id := port next_turn_id in
  do! emitter_new session_id (st_tail_sequence (sn_state snapshot)) (kc_limits config) in
  do! emit (Some run_id) None EventRunStarted in
  run_loop snapshot config run_id (mk_RunProgress 0 0 deadline first_turn_id (Some first_turn_id)).

(** ** Resuming from an approval *)

(** The calls a resumed turn still has to process, in order. *)
Fixpoint process_remaining (snapshot : SessionSnapshot) (calls : list CompletedToolCall)
    (config : KernelRunConfig) (run_id : RunId) (turn_id : TurnId) : K ToolProcessOutcome :=
  match calls with
  | [] => st_ret (Continue snapshot)
  | call :: rest =>
      let! processed := process_tool kernel snapshot call config run_id turn_id in
      match processed with
      | Continue snapshot => process_remaining snapshot rest config run_id turn_id
      | Waiting outcome => st_ret (Waiting outcome)
      end
  end.

Definition continue_resumed_run_inner (snapshot : SessionSnapshot) (call : CompletedToolCall)
    (config : KernelRunConfig) (run_id : RunId) (turn_id : TurnId) (deadline : ProtocolTimestamp)
    : K KernelRunOutcome :=
  let! processed := process_remaining snapshot
                      (remaining_tool_calls snapshot (cc_tool_call_id call)) config run_id
                      turn_id in
  match processed with
  | Waiting outcome => st_ret outcome
  | Continue snapshot =>
      let! snapshot := checkpoint_model_request snapshot run_id turn_id in
      let! output_bytes := k_lift (committed_assistant_output_bytes snapshot run_id) in
      run_loop snapshot config run_id
        (mk_RunProgress (completed_tool_iterations snapshot run_id) output_bytes deadline turn_id
           None)
  end.

Definition continue_resumed_run (snapshot : SessionSnapshot) (call : CompletedToolCall)
    (config : KernelRunConfig) (run_id : RunId) (turn_id : TurnId) (deadline : ProtocolTimestamp)
    : K KernelRunOutcome :=
  let! result := k_try (continue_resumed_run_inner snapshot call config run_id turn_id
                          deadline) in
  or_ensure_terminal (st_session_id (sn_state snapshot)) run_id turn_id result.

(** The turn whose wait checkpoint the approval belongs to. *)
Definition waiting_turn (s : MaterializedSessionState) (run_id : RunId) : option TurnId :=
  checkpoint ← st_latest_checkpoint s;
  if decide (cp_run_id checkpoint = run_id) then
    match cp_next_action checkpoint with
    | NextWaitForApproval => Some (cp_turn_id checkpoint)
    | NextModelRequest | NextFinishRun => None
    end
  else None.

(** The context of the run must be the one the approval was requested in. *)
Definition same_run_context (request : ApprovalRequest) (config : KernelRunConfig) : bool :=
  bool_decide (rq_actor_id request = kc_actor_id config)
  && bool_decide (rq_workspace_id request = kc_workspace_id config)
  && bool_decide (rq_environment request = kc_environment config).

Definition same_tool_context (invocation : ValidatedToolInvocation) (request : ApprovalRequest)
    : bool :=
  bool_decide (ti_name (vi_invocation invocation) = rq_tool_name request)
  && bool_decide (sp_version (vi_spec invocation) = rq_tool_version request)
  && bool_decide (vi_source invocation = rq_tool_source request)
  && bool_decide (sp_effects (vi_spec invocation) = rq_effects request)
  && bool_decide (vi_resources invocation = rq_resources request).

(** A denial is committed before anything else is checked. *)
Definition resume_denied (session_id : SessionId) (snapshot : SessionSnapshot)
    (resolution : ApprovalResolution) (call : CompletedToolCall) (config : KernelRunConfig)
    (run_id : RunId) (turn_id : TurnId) : K KernelRunOutcome :=
  let! snapshot := commit_denied_resolution snapshot resolution call in
  let! prepared := k_try
    (let! config := k_lift (with_final_output_format config
       (persisted_final_output_format snapshot (rq_approval_id (rs_request resolution)))) in
     do! preflight_model_request snapshot config in
     let! deadline := run_deadline config in
     st_ret (config, deadline)) in
  let! resumed := or_ensure_terminal session_id run_id turn_id prepared in
  continue_resumed_run snapshot call resumed.1 run_id turn_id resumed.2.

(** The execution an allowance was recorded for, and the rest of the run. *)
Definition execute_approved (snapshot : SessionSnapshot) (call : CompletedToolCall)
    (invocation : ValidatedToolInvocation) (config : KernelRunConfig) (run_id : RunId)
    (turn_id : TurnId) (deadline : ProtocolTimestamp) : K KernelRunOutcome :=
  let! executed := k_try (execute kernel invocation run_id turn_id) in
  match executed with
  | Ok terminal =>
      let! snapshot := commit_terminal snapshot call terminal in
      continue_resumed_run snapshot call config run_id turn_id deadline
  | Err error =>
      do! record_tool_interruption snapshot call run_id turn_id error in
      st_throw (Raised error)
  end.

Definition resume_allowed (snapshot : SessionSnapshot) (resolution : ApprovalResolution)
    (call : CompletedToolCall) (config : KernelRunConfig) (run_id : RunId) (turn_id : TurnId)
    : K KernelRunOutcome :=
  let request := rs_request resolution in
  let! config := k_lift (with_final_output_format config
                   (persisted_final_output_format snapshot (rq_approval_id request))) in
  let! prepared := prepare_call kernel snapshot call in
  match prepared with
  | PreparedRejected _ _ =>
      raise CodeToolFailure "persisted approval tool no longer validates"
  | PreparedValid invocation =>
      do! k_ensure (same_tool_context invocation request) CodePolicyFailure
            "persisted approval no longer matches registered tool context" in
      do! preflight_model_request snapshot config in
      let! deadline := run_deadline config in
      let! snapshot := commit_resolution snapshot resolution invocation
                         (pe_target (kc_environment config)) in
      execute_approved snapshot call invocation config run_id turn_id deadline
  end.

Definition resume_approval (session_id : SessionId) (resolution : ApprovalResolution)
    (config : KernelRunConfig) : K KernelRunOutcome :=
  let! snapshot := store_load session_id in
  let! request := k_lift (persisted_request snapshot
                            (rq_approval_id (rs_request resolution))) in
  do! k_ensure (bool_decide (request = rs_request resolution)) CodePolicyFailure
        "approval resolution does not match persisted request" in
  let denied := bool_decide (rs_decision resolution = DenyApproval) in
  do! k_ensure (denied || same_run_context request config) CodePolicyFailure
        "approval resolution does not match persisted request context" in
  let! run_id := k_lift (ok_or (rq_run_id request)
    (kernel_error CodeInvalidState "persisted approval has no active run")) in
  let! turn_id := k_lift (ok_or (waiting_turn (sn_state snapshot) run_id)
    (kernel_error CodeInvalidState "persisted approval has no matching wait checkpoint")) in
  let! tool := k_lift (ok_or (st_tool_calls (sn_state snapshot) !! rq_tool_call_id request)
    (kernel_error CodeInvalidState "persisted approval tool call is missing")) in
  let call := mk_CompletedToolCall (tc_tool_call_id tool) (tc_tool_name tool)
                (tc_arguments tool) in
  do! emitter_new session_id (st_tail_sequence (sn_state snapshot)) (kc_limits config) in
  if denied then resume_denied session_id snapshot resolution call config run_id turn_id
  else resume_allowed snapshot resolution call config run_id turn_id.
End kernel.
