(* ===== verification/KernelLogic.v ===== *)
(** * Kernel: what every handler keeps

    A program logic for kernel computations.  [run_inv X w0 τ reserved w]
    relates the world [w] to the world [w0] a handler started in: the store is
    well formed, the ghost trace grew by [τ], each action of [τ] is admissible
    given what is older than it in [τ] (transactions pair every tool terminal
    with its result message, what is executed and requested is in [X]), every
    execution so far followed a durable start of its own, and the durable starts
    still leave room for one execution of each [reserved] invocation.

    [triple P l m l' le Q] is the specification of a computation that never
    panics: what it requires and what it learns are [Fact]s of the trace so far,
    which only grows.  [learns] is the triple of a computation that leaves the
    reservations as they are, [safe] and [neutral] those that learn nothing but
    a property of the value. *)

From S2P Require Import Prelude Protocol Tools Policy Approval SessionState Reducer.
From S2P Require Import ReducerReplay Artifact Store StoreTheorems Validation Usage ModelSpec Event Registry.
From S2P Require Import KernelBase KernelConfig KernelMonad KernelTools.
Local Open Scope tea_scope.

(** ** The ghost trace *)

(** The records of a list that start the call. *)
Definition started_in (id : ToolCallId) (records : list SessionRecord) : nat :=
  length (List.filter (λ r, match r with
                            | ToolExecutionStarted id' _ _ => bool_decide (id' = id)
                            | _ => false
                            end) records).

(** Durable starts and executions of a call in a trace. *)
Fixpoint starts (id : ToolCallId) (trace : list KernelAction) : nat :=
  match trace with
  | [] => 0
  | ActCommitted tx :: older => started_in id (env_record <$> tx_records tx) + starts id older
  | _ :: older => starts id older
  end.

Fixpoint executions (id : ToolCallId) (trace : list KernelAction) : nat :=
  match trace with
  | [] => 0
  | ActExecuted invocation :: older =>
      (if bool_decide (invocation_call_id invocation = id) then 1 else 0) + executions id older
  | _ :: older => executions id older
  end.

(** Every execution came after a durable start no earlier execution used. *)
Fixpoint starts_before_executions (trace : list KernelAction) : Prop :=
  match trace with
  | [] => True
  | ActExecuted invocation :: older =>
      executions (invocation_call_id invocation) older
        < starts (invocation_call_id invocation) older ∧
      starts_before_executions older
  | _ :: older => starts_before_executions older
  end.

(** Each tool terminal is directly followed by the message that shows the model
    the same result. *)
Fixpoint paired_records (records : list SessionRecord) : Prop :=
  match records with
  | [] => True
  | ToolExecutionFinished id is_error content error _ :: rest =>
      (∃ message_id name timestamp rest',
         rest = MessageCommitted (ToolResult message_id id name content is_error error timestamp)
                :: rest') ∧
      paired_records rest
  | _ :: rest => paired_records rest
  end.

Definition results_paired (tx : AppendTransaction) : Prop :=
  paired_records (env_record <$> tx_records tx).

(** ** Facts

    What is known of the actions so far, newest first; actions are never taken
    back, so a stable fact stays true. *)

Definition Fact : Type := list KernelAction → Prop.

Class Stable (P : Fact) : Prop := stable : ∀ a τ, P τ → P (a :: τ).

Definition entails (P Q : Fact) : Prop := ∀ τ, P τ → Q τ.
Notation "P ⊢ Q" := (entails P Q) (at level 99, Q at level 200, right associativity) : tea_scope.

(** What follows from the facts at hand. *)
Ltac known := unfold entails in *; naive_solver.

Lemma stable_app (P : Fact) n τ : Stable P → P τ → P (n ++ τ).
Proof. intros Hs Hp. induction n as [|a n IH]; [done|by apply Hs]. Qed.

#[export] Instance stable_const (φ : Prop) : Stable (λ _, φ).
Proof. by intros a τ. Qed.
#[export] Instance stable_elem (b : KernelAction) : Stable (elem_of b).
Proof. intros a τ Hb. by right. Qed.
#[export] Instance stable_in (b : KernelAction) : Stable (λ τ, b ∈ τ).
Proof. apply stable_elem. Qed.
#[export] Instance stable_and (P Q : Fact) : Stable P → Stable Q → Stable (λ τ, P τ ∧ Q τ).
Proof. intros HP HQ a τ [Hp Hq]. split; [by apply HP|by apply HQ]. Qed.
#[export] Instance stable_or (P Q : Fact) : Stable P → Stable Q → Stable (λ τ, P τ ∨ Q τ).
Proof. intros HP HQ a τ [Hp|Hq]; [left; by apply HP|right; by apply HQ]. Qed.
#[export] Instance stable_exists {A} (P : A → Fact) :
  (∀ x, Stable (P x)) → Stable (λ τ, ∃ x, P x τ).
Proof. intros HP a τ [x Hx]. exists x. by apply HP. Qed.
#[export] Instance stable_forall {A} (P : A → Fact) :
  (∀ x, Stable (P x)) → Stable (λ τ, ∀ x, P x τ).
Proof. intros HP a τ Hx x. by apply HP. Qed.
#[export] Instance stable_Forall {A} (P : A → Fact) (l : list A) :
  (∀ x, Stable (P x)) → Stable (λ τ, Forall (λ x, P x τ) l).
Proof. intros HP a τ Hl. eapply Forall_impl; [exact Hl|]. intros x. apply HP. Qed.

(** A snapshot the session had in a store that was read. *)
Definition loaded (session_id : SessionId) (snapshot : SessionSnapshot) : Fact := λ τ,
  ∃ t store, ActRead t store ∈ τ ∧ load store session_id = Some (Ok snapshot).

(** A transaction on the session that was accepted. *)
Definition committed (session_id : SessionId) (records : list SessionRecord)
    (artifacts : list ApprovalArtifactEntry) : Fact := λ τ,
  ∃ tx, ActCommitted tx ∈ τ ∧ tx_session_id tx = session_id ∧
    env_record <$> tx_records tx = records ∧ tx_approval_artifacts tx = artifacts.

(** What a loaded snapshot is: the state of a reachable session. *)
Definition seen (session_id : SessionId) (snapshot : SessionSnapshot) : Fact := λ τ,
  loaded session_id snapshot τ ∧ st_session_id (sn_state snapshot) = session_id ∧
  ∃ r, reachable r ∧ r_state r = Some (sn_state snapshot).

(** An event that was emitted. *)
Definition emitted (run_id : option RunId) (event : AgentEvent) : Fact := λ τ,
  ∃ e, ActEmitted e ∈ τ ∧ evt_run_id e = run_id ∧ evt_event e = event.

#[export] Instance loaded_stable session_id snapshot : Stable (loaded session_id snapshot).
Proof. unfold loaded. apply _. Qed.
#[export] Instance committed_stable session_id records artifacts :
  Stable (committed session_id records artifacts).
Proof. unfold committed. apply _. Qed.
#[export] Instance seen_stable session_id snapshot : Stable (seen session_id snapshot).
Proof. unfold seen. apply _. Qed.
#[export] Instance emitted_stable run_id event : Stable (emitted run_id event).
Proof. unfold emitted. apply _. Qed.

(** What may execute and what may be asked of a model provider, given the actions
    before. *)
Record Permits : Type := mk_Permits {
  may_execute :> ValidatedToolInvocation → Fact;
  may_request : ModelRequest → Fact;
  #[global] may_execute_stable :: ∀ invocation, Stable (may_execute invocation);
  #[global] may_request_stable :: ∀ request, Stable (may_request request)
}.

Definition action_ok (X : Permits) (older : list KernelAction) (a : KernelAction) : Prop :=
  match a with
  | ActRead _ store => store_wf store
  | ActCommitted tx => results_paired tx
  | ActRequested request => may_request X request older
  | ActExecuted invocation => X invocation older
  | ActPrepared _ _ | ActValidated _ _ | ActEmitted _ => True
  end.

Fixpoint justified (X : Permits) (τ : list KernelAction) : Prop :=
  match τ with
  | [] => True
  | a :: older => action_ok X older a ∧ justified X older
  end.

Lemma justified_action X newer a older : justified X (newer ++ a :: older) → action_ok X older a.
Proof. induction newer as [|b newer IH]; simpl; [by intros [Ha _]|intros [_ Hj]; by apply IH]. Qed.

Definition call_count (id : ToolCallId) (l : list ValidatedToolInvocation) : nat :=
  length (List.filter (λ i, bool_decide (invocation_call_id i = id)) l).

Record run_inv (X : Permits) (w0 : World) (τ : list KernelAction)
    (reserved : list ValidatedToolInvocation) (w : World) : Prop := mk_run_inv {
  ri_store : store_wf (w_store w);
  ri_new : w_trace w = τ ++ w_trace w0;
  ri_ok : justified X τ;
  ri_reserved : Forall (λ i, X i τ) reserved;
  ri_safe : starts_before_executions (w_trace w);
  ri_credit : ∀ id, executions id (w_trace w) + call_count id reserved ≤ starts id (w_trace w)
}.

(** ** Lemmas on traces *)

Lemma starts_before_le trace id :
  starts_before_executions trace → executions id trace ≤ starts id trace.
Proof.
  induction trace as [|[] trace IH]; simpl; try done.
  - intros H. specialize (IH H). lia.
  - intros [Hi H]. specialize (IH H). case_bool_decide; subst; lia.
Qed.

Lemma call_count_app id l1 l2 : call_count id (l1 ++ l2) = call_count id l1 + call_count id l2.
Proof. unfold call_count. by rewrite List.filter_app, length_app. Qed.

Lemma call_count_perm id l1 l2 : l1 ≡ₚ l2 → call_count id l1 = call_count id l2.
Proof.
  unfold call_count. induction 1 as [|i l1 l2 _ IH|i j l|l1 l2 l3 _ IH1 _ IH2]; simpl; [done| | |congruence].
  - case_bool_decide; simpl; by rewrite IH.
  - by repeat (case_bool_decide; simpl).
Qed.

Lemma started_in_app id l1 l2 : started_in id (l1 ++ l2) = started_in id l1 + started_in id l2.
Proof. unfold started_in. by rewrite List.filter_app, length_app. Qed.

(** A batch's start records start each of its invocations. *)
Lemma started_in_batch id (batch : Batch) :
  started_in id (batch ≫= start_records) = call_count id batch.*1.
Proof.
  induction batch as [|[i t] batch IH]; [done|].
  change (started_in id (start_records (i, t) ++ (batch ≫= start_records))
          = call_count id (i :: batch.*1)).
  rewrite started_in_app, IH. unfold started_in, call_count. simpl.
  by case_bool_decide.
Qed.

(** ** Loading from a well-formed store *)

Lemma load_answers store session_id : store_wf store → load store session_id ≠ None.
Proof.
  intros Hm. unfold load. destruct (ms_sessions store !! session_id) as [stored|] eqn:Hs; [|done].
  destruct (mw_sessions _ Hm _ _ Hs) as [_ (state & Hstate & _)]. unfold snapshot. by rewrite Hstate.
Qed.

Lemma load_seen store session_id s t τ :
  store_wf store → load store session_id = Some (Ok s) → ActRead t store ∈ τ →
  seen session_id s τ.
Proof.
  intros Hm Hl Ht. split; [by exists t, store|]. unfold load in Hl.
  destruct (ms_sessions store !! session_id) as [stored|] eqn:Hs; [|done].
  destruct (mw_sessions _ Hm _ _ Hs) as [Hwf (state & Hstate & Hid)].
  unfold snapshot in Hl. rewrite Hstate in Hl. injection Hl as <-. split; [exact Hid|].
  exists (sd_reducer stored). split; [apply Hwf|exact Hstate].
Qed.

Section run_inv.
Context (X : Permits) (w0 : World).

Notation RI := (run_inv X w0).

Lemma run_inv_start l :
  store_wf (w_store w0) → starts_before_executions (w_trace w0) → l = [] → RI [] l w0.
Proof.
  intros Hst Hsafe ->. split; [done..| |done|]; [by constructor|].
  intros id. unfold call_count. simpl. pose proof (starts_before_le _ id Hsafe). lia.
Qed.

Lemma run_inv_drop τ l1 l2 w : RI τ (l1 ++ l2) w → RI τ l2 w.
Proof.
  intros [? ? ? Hr ? Hc]. split; [done..|by apply Forall_app in Hr as [_ ?]|done|].
  intros id. specialize (Hc id). rewrite call_count_app in Hc. lia.
Qed.

Lemma run_inv_nil τ l w : RI τ l w → RI τ [] w.
Proof. intros Hw. apply (run_inv_drop τ l []). by rewrite app_nil_r. Qed.

Lemma run_inv_perm τ l1 l2 w : l1 ≡ₚ l2 → RI τ l1 w → RI τ l2 w.
Proof.
  intros Hp [? ? ? Hr ? Hc]. split; [done..|by rewrite <- Hp|done|].
  intros id. rewrite <- (call_count_perm _ _ _ Hp). apply Hc.
Qed.

(** Steps that leave the trace alone and the store well formed. *)
Lemma run_inv_same τ l w w' :
  RI τ l w → w_trace w' = w_trace w → store_wf (w_store w') → RI τ l w'.
Proof. intros [? ? ? ? ? ?] Ht Hs. split; by rewrite ?Ht. Qed.

(** Reservations outlive actions. *)
Lemma reserved_stable a τ l : Forall (λ i, X i τ) l → Forall (λ i, X i (a :: τ)) l.
Proof. apply (stable_Forall (may_execute X) l _). Qed.

(** An action that neither starts nor executes a call. *)
Lemma run_inv_act τ l w a :
  RI τ l w → action_ok X τ a →
  match a with ActCommitted _ | ActExecuted _ => False | _ => True end →
  RI (a :: τ) l (act a w).
Proof.
  intros [Hs Hn Hok Hr Hsafe Hc] Ha Hkind.
  split; simpl; [done|by rewrite Hn|done|by apply reserved_stable| |];
    by destruct a.
Qed.

Lemma run_inv_committed τ l w tx m :
  RI τ l w → results_paired tx → store_wf m →
  RI (ActCommitted tx :: τ) l (act (ActCommitted tx) (set_w_store m w)).
Proof.
  intros [Hs Hn Hok Hr Hsafe Hc] Hp Hm.
  split; simpl; [done|by rewrite Hn|done|by apply reserved_stable|done|].
  intros id. specialize (Hc id). lia.
Qed.

(** Committing starts reserves their executions. *)
Lemma run_inv_reserve τ l w tx m invocations :
  RI τ l w → results_paired tx → store_wf m →
  (∀ id, started_in id (env_record <$> tx_records tx) = call_count id invocations) →
  Forall (λ i, X i (ActCommitted tx :: τ)) invocations →
  RI (ActCommitted tx :: τ) (invocations ++ l) (act (ActCommitted tx) (set_w_store m w)).
Proof.
  intros Hw Hp Hm Htx HX. pose proof (run_inv_committed _ _ _ _ _ Hw Hp Hm) as [? ? ? Hr ? _].
  destruct Hw as [_ _ _ _ _ Hc]. split; simpl in *; try done; [by apply Forall_app|].
  intros id. rewrite Htx, call_count_app. specialize (Hc id). lia.
Qed.

Lemma run_inv_executed τ i l w : RI τ (i :: l) w → RI (ActExecuted i :: τ) l (act (ActExecuted i) w).
Proof.
  intros [Hs Hn Hok Hr Hsafe Hc]. apply Forall_cons in Hr as [Hi Hr].
  split; simpl; [done|by rewrite Hn|done|by apply reserved_stable| |].
  - split; [|done]. specialize (Hc (invocation_call_id i)). unfold call_count in Hc. simpl in Hc.
    rewrite bool_decide_true in Hc by done. simpl in Hc. lia.
  - intros id. specialize (Hc id). unfold call_count in *. simpl in Hc.
    case_bool_decide; simpl in *; lia.
Qed.

(** ** Triples *)

Definition triple {A} (P : Fact) (l : list ValidatedToolInvocation) (m : K A)
    (l' le : list ValidatedToolInvocation) (Q : A → Fact) : Prop :=
  ∀ τ w, RI τ l w → P τ →
    match m w with
    | (Ok a, w') => ∃ n, RI (n ++ τ) l' w' ∧ Q a (n ++ τ)
    | (Err (Panicked | OutOfFuel), _) => False
    | (Err (Raised _), w') => ∃ n, RI (n ++ τ) le w'
    end.

Definition learns {A} (P : Fact) (m : K A) (Q : A → Fact) : Prop := ∀ l, triple P l m l l Q.

Definition safe {A} (l : list ValidatedToolInvocation) (m : K A)
    (l' le : list ValidatedToolInvocation) (Q : A → Prop) : Prop :=
  triple (λ _, True) l m l' le (λ a _, Q a).

(** A computation that keeps every reservation. *)
Definition neutral {A} (m : K A) (Q : A → Prop) : Prop := ∀ l, safe l m l l Q.

Lemma triple_bind {A B} P l l1 l2 le (m : K A) (k : A → K B) Q R :
  triple P l m l1 le Q → (∀ a, triple (Q a) l1 (k a) l2 le R) →
  triple P l (st_bind m k) l2 le R.
Proof.
  intros Hm Hk τ w Hw Hp. specialize (Hm τ w Hw Hp). unfold st_bind.
  destruct (m w) as [[a|[| |e]] w']; try done. destruct Hm as (n & Hw' & Ha).
  specialize (Hk a _ w' Hw' Ha). destruct (k a w') as [[b|[| |e]] w'']; try done.
  - destruct Hk as (n' & Hk). exists (n' ++ n). by rewrite <- (assoc_L (++)).
  - destruct Hk as (n' & Hk). exists (n' ++ n). by rewrite <- (assoc_L (++)).
Qed.

Lemma triple_conseq {A} P P' l l' le (m : K A) (Q Q' : A → Fact) :
  (P' ⊢ P) → triple P l m l' le Q → (∀ a, Q a ⊢ Q' a) → triple P' l m l' le Q'.
Proof.
  intros HP Hm HQ τ w Hw Hp. specialize (Hm τ w Hw (HP _ Hp)).
  destruct (m w) as [[a|[| |e]] w']; try done. destruct Hm as (n & Hw' & Ha).
  exists n. split; [done|by apply HQ].
Qed.

(** A fact the computation does not concern. *)
Lemma triple_frame {A} P F l l' le (m : K A) (Q : A → Fact) :
  Stable F → triple P l m l' le Q →
  triple (λ τ, F τ ∧ P τ) l m l' le (λ a τ, F τ ∧ Q a τ).
Proof.
  intros HF Hm τ w Hw [Hf Hp]. specialize (Hm τ w Hw Hp).
  destruct (m w) as [[a|[| |e]] w']; try done. destruct Hm as (n & Hw' & Ha).
  exists n. split; [done|]. split; [by apply stable_app|done].
Qed.

(** A step that keeps what is known and learns more. *)
Lemma triple_step {A B} P l l1 l2 le (m : K A) (k : A → K B) Q R :
  Stable P → triple P l m l1 le Q →
  (∀ a, triple (λ τ, P τ ∧ Q a τ) l1 (k a) l2 le R) → triple P l (st_bind m k) l2 le R.
Proof.
  intros HP Hm Hk. eapply triple_bind; [|exact Hk].
  eapply triple_conseq; [|by apply (triple_frame P P)|by intros a τ].
  intros τ Hp. by split.
Qed.

Lemma safe_triple {A} P l l' le (m : K A) Q :
  safe l m l' le Q → triple P l m l' le (λ a _, Q a).
Proof. intros Hm. eapply triple_conseq; [|exact Hm|]; known. Qed.

(** A step that learns nothing but a property of its value. *)
Lemma triple_safe {A B} P l l1 l2 le (m : K A) (k : A → K B) Q R :
  Stable P → safe l m l1 le Q → (∀ a, Q a → triple P l1 (k a) l2 le R) →
  triple P l (st_bind m k) l2 le R.
Proof.
  intros HP Hm Hk. eapply triple_step; [done|by apply safe_triple|].
  intros a τ w Hw [Hp Ha]. by apply Hk.
Qed.

Lemma triple_ret {A} P l le (a : A) (Q : A → Fact) : (P ⊢ Q a) → triple P l (st_ret a) l le Q.
Proof. intros HQ τ w Hw Hp. exists []. split; [done|by apply HQ]. Qed.

Lemma triple_raised {A} P l le e (Q : A → Fact) :
  (∀ τ w, RI τ l w → RI τ le w) → triple P l (st_throw (Raised e)) l le Q.
Proof. intros Hle τ w Hw _. exists []. by apply Hle. Qed.

(** What the facts imply outright. *)
Lemma triple_pure {A} (φ : Prop) P l l' le (m : K A) Q :
  (P ⊢ λ _, φ) → (φ → triple P l m l' le Q) → triple P l m l' le Q.
Proof. intros Hφ Hm τ w Hw Hp. apply Hm; [by eapply Hφ|done..]. Qed.

Lemma triple_weaken {A} P l l' le le' (m : K A) Q :
  (∀ τ w, RI τ le w → RI τ le' w) → triple P l m l' le Q → triple P l m l' le' Q.
Proof.
  intros Hle Hm τ w Hw Hp. specialize (Hm τ w Hw Hp).
  destruct (m w) as [[a|[| |e]] w']; try done. destruct Hm as [n Hn]. exists n. by apply Hle.
Qed.

Lemma triple_pre {A} P l1 l l' le (m : K A) Q :
  (∀ τ w, RI τ l1 w → RI τ l w) → triple P l m l' le Q → triple P l1 m l' le Q.
Proof. intros Hp Hm τ w Hw. by apply Hm, Hp. Qed.

Lemma triple_try {A} P l l' (m : K A) Q :
  triple P l m l' l' Q →
  triple P l (k_try m) l' l' (λ r τ, match r with Ok a => Q a τ | Err _ => True end).
Proof.
  intros Hm τ w Hw Hp. specialize (Hm τ w Hw Hp). unfold k_try.
  destruct (m w) as [[a|[| |e]] w']; try done. destruct Hm as [n Hn]. by exists n.
Qed.

(** *** Computations that keep the reservations *)

Lemma learns_step {A B} P (m : K A) (k : A → K B) Q R :
  Stable P → learns P m Q → (∀ a, learns (λ τ, P τ ∧ Q a τ) (k a) R) →
  learns P (st_bind m k) R.
Proof.
  intros HP Hm Hk l. eapply triple_step; [done|apply Hm|]. intros a. apply Hk.
Qed.

Lemma learns_bind {A B} P (m : K A) (k : A → K B) Q R :
  learns P m Q → (∀ a, learns (Q a) (k a) R) → learns P (st_bind m k) R.
Proof. intros Hm Hk l. eapply triple_bind; [apply Hm|]. intros a. apply Hk. Qed.

Lemma learns_neutral {A B} P (m : K A) (k : A → K B) Q R :
  Stable P → neutral m Q → (∀ a, Q a → learns P (k a) R) → learns P (st_bind m k) R.
Proof. intros HP Hm Hk l. eapply triple_safe; [done|apply Hm|]. intros a Ha. by apply Hk. Qed.

(** A step whose own facts are not needed after it. *)
Lemma learns_then {A B} P (m : K A) (k : A → K B) Q R :
  Stable P → learns P m Q → (∀ a, learns P (k a) R) → learns P (st_bind m k) R.
Proof.
  intros HP Hm Hk. eapply learns_step; [done|exact Hm|]. intros a l τ w Hw [Hp _]. by apply Hk.
Qed.

Lemma learns_conseq {A} P P' (m : K A) (Q Q' : A → Fact) :
  (P' ⊢ P) → learns P m Q → (∀ a, Q a ⊢ Q' a) → learns P' m Q'.
Proof. intros HP Hm HQ l. by eapply triple_conseq. Qed.

Lemma learns_post {A} P (m : K A) (Q Q' : A → Fact) :
  learns P m Q → (∀ a, Q a ⊢ Q' a) → learns P m Q'.
Proof. intros Hm HQ. eapply learns_conseq; [|exact Hm|exact HQ]. by intros τ. Qed.

Lemma learns_frame {A} P (m : K A) (Q : A → Fact) :
  Stable P → learns P m Q → learns P m (λ a τ, P τ ∧ Q a τ).
Proof.
  intros HP Hm l. eapply triple_conseq; [|by apply (triple_frame P P), Hm|by intros a τ].
  intros τ Hp. by split.
Qed.

Lemma learns_ret {A} P (a : A) (Q : A → Fact) : (P ⊢ Q a) → learns P (st_ret a) Q.
Proof. intros HQ l. by apply triple_ret. Qed.

Lemma learns_raised {A} P e (Q : A → Fact) : learns P (st_throw (Raised e)) Q.
Proof. intros l. by apply triple_raised. Qed.

Lemma learns_pure {A} (φ : Prop) P (m : K A) Q :
  (P ⊢ λ _, φ) → (φ → learns P m Q) → learns P m Q.
Proof. intros Hφ Hm l. apply (triple_pure φ); [done|]. intros H. by apply Hm. Qed.

Lemma learns_try {A} P (m : K A) Q :
  learns P m Q → learns P (k_try m) (λ r τ, match r with Ok a => Q a τ | Err _ => True end).
Proof. intros Hm l. apply triple_try, Hm. Qed.

Lemma neutral_learns {A} P (m : K A) Q : neutral m Q → learns P m (λ a _, Q a).
Proof. intros Hm l. apply safe_triple, Hm. Qed.

(** A last step whose result follows from what is known. *)
Lemma learns_last {A} P (m : K A) Q (R : A → Fact) :
  Stable P → neutral m Q → (∀ a, Q a → P ⊢ R a) → learns P m R.
Proof.
  intros HP Hm HR. eapply learns_conseq; [|by apply learns_frame, neutral_learns|];
    [by intros τ|]. intros a τ [Hp Ha]. by apply (HR a Ha).
Qed.

(** *** Computations that learn nothing *)

Lemma safe_bind {A B} l l1 l2 le (m : K A) (k : A → K B) Q R :
  safe l m l1 le Q → (∀ a, Q a → safe l1 (k a) l2 le R) → safe l (st_bind m k) l2 le R.
Proof. intros Hm Hk. eapply triple_safe; [apply _|exact Hm|exact Hk]. Qed.

Lemma safe_conseq {A} l l' le (m : K A) Q R :
  safe l m l' le Q → (∀ a, Q a → R a) → safe l m l' le R.
Proof. intros Hm HQ. eapply triple_conseq; [|exact Hm|]; known. Qed.

Lemma safe_pre {A} l1 l l' le (m : K A) Q :
  (∀ τ w, RI τ l1 w → RI τ l w) → safe l m l' le Q → safe l1 m l' le Q.
Proof. apply triple_pre. Qed.

Lemma safe_ret {A} l le (a : A) (Q : A → Prop) : Q a → safe l (st_ret a) l le Q.
Proof. intros HQ. apply triple_ret. known. Qed.

Lemma neutral_bind {A B} (m : K A) (k : A → K B) Q R :
  neutral m Q → (∀ a, Q a → neutral (k a) R) → neutral (st_bind m k) R.
Proof. intros Hm Hk l. apply (safe_bind l l l l m k Q); [apply Hm|]. intros a Ha. by apply Hk. Qed.

Lemma neutral_conseq {A} (m : K A) Q R : neutral m Q → (∀ a, Q a → R a) → neutral m R.
Proof. intros Hm HQ l. eapply safe_conseq; [apply Hm|done]. Qed.

Lemma neutral_ret {A} (a : A) (Q : A → Prop) : Q a → neutral (st_ret a) Q.
Proof. intros HQ l. by apply safe_ret. Qed.

Lemma neutral_lift {A} (r : Result KernelError A) Q :
  (∀ a, r = Ok a → Q a) → neutral (k_lift r) Q.
Proof.
  intros HQ l τ w Hw _. unfold k_lift, st_lift, map_err. destruct r; exists []; auto.
Qed.

Lemma neutral_raised {A} e (Q : A → Prop) : neutral (st_throw (Raised e)) Q.
Proof. intros l τ w Hw _. by exists []. Qed.

Lemma neutral_gets {A} (f : World → A) (Q : A → Prop) : (∀ w, Q (f w)) → neutral (st_gets f) Q.
Proof. intros HQ l τ w Hw _. exists []. by split. Qed.

Lemma neutral_modify (f : World → World) (Q : unit → Prop) :
  (∀ τ l w, RI τ l w → RI τ l (f w)) → Q tt → neutral (st_modify f) Q.
Proof. intros Hf HQ l τ w Hw _. exists []. split; [by apply Hf|done]. Qed.

Lemma neutral_moment Q : (∀ t, Q t) → neutral moment Q.
Proof. intros HQ l τ w Hw _. exists []. split; [|done]. eapply run_inv_same; [done|done|apply Hw]. Qed.

Lemma neutral_try {A} (m : K A) Q :
  neutral m Q → neutral (k_try m) (λ r, match r with Ok a => Q a | Err _ => True end).
Proof.
  intros Hm l. eapply triple_conseq; [|apply triple_try, Hm|]; [known|]. by intros [a|e] τ.
Qed.

Lemma neutral_try_any {A} (m : K A) : neutral m (λ _, True) → neutral (k_try m) (λ _, True).
Proof. intros Hm. eapply neutral_conseq; [by apply neutral_try|done]. Qed.

Lemma neutral_for {A} (l : list A) (f : A → K unit) :
  (∀ a, neutral (f a) (λ _, True)) → neutral (st_for l f) (λ _, True).
Proof.
  intros Hf. induction l as [|a l IH]; simpl; [by apply neutral_ret|].
  eapply neutral_bind; [apply Hf|by intros].
Qed.

(** An action enters the trace. *)
Lemma learns_act P a :
  (∀ τ, P τ → action_ok X τ a) →
  match a with ActCommitted _ | ActExecuted _ => False | _ => True end →
  learns P (st_modify (act a)) (λ _ τ, a ∈ τ).
Proof.
  intros Ha Hkind l τ w Hw Hp. exists [a]. split; [|left].
  by apply run_inv_act; [|apply Ha|].
Qed.

Lemma neutral_act a :
  (∀ τ, action_ok X τ a) →
  match a with ActCommitted _ | ActExecuted _ => False | _ => True end →
  neutral (st_modify (act a)) (λ _, True).
Proof.
  intros Ha Hkind l. eapply triple_conseq; [|by apply (learns_act (λ _, True) a)|]; known.
Qed.

(** ** Primitives *)

Context `{Codec, SchemaEngine, Display, KernelPorts}.

Lemma neutral_port {A} (f : nat → Result KernelError A) Q : (∀ a, Q a) → neutral (port f) Q.
Proof.
  intros HQ. eapply neutral_bind; [by apply (neutral_moment (λ _, True))|].
  intros t _. by apply neutral_lift.
Qed.

Lemma neutral_from {E : Set} {A} code (r : Result E A) Q :
  (∀ a, r = Ok a → Q a) → neutral (k_from code r) Q.
Proof.
  intros HQ. apply neutral_lift. unfold from_error, map_err. intros a Ha. destruct r; [|done].
  injection Ha as <-. by apply HQ.
Qed.

Lemma neutral_ensure b code message : neutral (k_ensure b code message) (λ _, b = true).
Proof. apply neutral_lift. unfold ensure. by destruct b. Qed.

Lemma writer_steps_wf txs m : store_wf m → store_wf (foldl writer_step m txs).
Proof.
  revert m. induction txs as [|tx txs IH]; intros m Hm; simpl; [done|]. apply IH.
  unfold writer_step. destruct (append m tx) as [[res m']|] eqn:Ha; [|done].
  by eapply append_wf.
Qed.

Lemma neutral_interfere : neutral interfere (λ _, True).
Proof.
  eapply neutral_bind; [by apply (neutral_moment (λ _, True))|]. intros t _.
  apply neutral_modify; [|done]. intros τ l w Hw. eapply run_inv_same; [done|done|].
  apply writer_steps_wf, Hw.
Qed.

(** An accepted transaction enters the trace; the rule for what it reserves is
    the caller's. *)
Lemma triple_append P l l' tx :
  Stable P →
  (∀ τ w m, RI τ l w → P τ → store_wf m →
     RI (ActCommitted tx :: τ) l' (act (ActCommitted tx) (set_w_store m w))) →
  triple P l (store_append tx) l' l (λ _ τ, P τ ∧ ActCommitted tx ∈ τ).
Proof.
  intros HP Hstep. eapply triple_safe; [done|apply neutral_interfere|]. intros [] _ τ w Hw Hp.
  destruct (append_cases (w_store w) tx (ri_store _ _ _ _ _ Hw)) as [_ [[e Ha]|Ha]].
  - rewrite Ha. exists []. eapply run_inv_same; [done|done|apply Hw].
  - destruct Ha as (outcome & s' & previous & Ha & _). rewrite Ha. exists [ActCommitted tx].
    split; [|split; [by apply HP|left]]. apply Hstep; [done..|]. by eapply append_wf; [apply Hw|].
Qed.

Lemma learns_append P tx :
  Stable P → results_paired tx →
  learns P (store_append tx) (λ _ τ, P τ ∧ ActCommitted tx ∈ τ).
Proof. intros HP Hp l. apply triple_append; [done|]. intros τ w m Hw _ Hm. by apply run_inv_committed. Qed.

Lemma neutral_append tx : results_paired tx → neutral (store_append tx) (λ _, True).
Proof. intros Hp l. eapply triple_conseq; [|by apply (learns_append (λ _, True))|]; known. Qed.

(** What a read of the store does. *)
Definition store_at (w : World) : InMemorySessionStore :=
  foldl writer_step (w_store w) (other_writers (w_moment w)).

Definition after_read (w : World) : World :=
  act (ActRead (w_moment w) (store_at w)) (set_w_store (store_at w) (advance w)).

Lemma store_read_run w : store_read w = (Ok (store_at w), after_read w).
Proof. done. Qed.

Lemma run_inv_read τ l w : RI τ l w → RI (ActRead (w_moment w) (store_at w) :: τ) l (after_read w).
Proof.
  intros Hw. assert (store_wf (store_at w)) as Hm by apply writer_steps_wf, Hw.
  apply run_inv_act; [|done|done]. by eapply run_inv_same; [exact Hw| |].
Qed.

Lemma learns_read P :
  learns P store_read (λ store τ, store_wf store ∧ ∃ t, ActRead t store ∈ τ).
Proof.
  intros l τ w Hw _. rewrite store_read_run. exists [ActRead (w_moment w) (store_at w)].
  split; [by apply run_inv_read|]. split; [apply writer_steps_wf, Hw|]. eexists. left.
Qed.

Lemma learns_load P session_id :
  Stable P → learns P (store_load session_id) (λ s τ, P τ ∧ seen session_id s τ).
Proof.
  intros HP. eapply learns_step; [done|apply learns_read|]. intros store.
  apply (learns_pure (store_wf store)); [by intros τ (_ & Hm & _)|]. intros Hm.
  destruct (load store session_id) as [[snapshot|e]|] eqn:Hl.
  - apply learns_ret. intros τ (Hp & _ & t & Ht). split; [done|].
    by apply (load_seen _ _ _ _ _ Hm Hl Ht).
  - apply learns_raised.
  - by destruct (load_answers _ session_id Hm).
Qed.

Lemma neutral_load session_id : neutral (store_load session_id) (λ _, True).
Proof. intros l. eapply triple_conseq; [|by apply (learns_load (λ _, True))|]; known. Qed.

Lemma learns_emit P run_id turn_id event :
  Stable P → learns P (emit run_id turn_id event) (λ _ τ, P τ ∧ emitted run_id event τ).
Proof.
  intros HP.
  eapply learns_neutral; [done|by apply (neutral_gets _ (λ _, True))|]. intros e _.
  eapply learns_neutral; [done|apply neutral_ensure|]. intros _ _.
  eapply learns_neutral; [done|by apply (neutral_lift _ (λ _, True))|]. intros sequence _.
  eapply learns_neutral; [done|apply (neutral_modify _ (λ _, True)); [|done]|].
  { intros τ l w Hw. eapply run_inv_same; [done|done|apply Hw]. }
  intros _ _. eapply learns_neutral; [done|by apply (neutral_port _ (λ _, True))|].
  intros event_id _. eapply learns_neutral; [done|by apply (neutral_port _ (λ _, True))|].
  intros now _. eapply learns_neutral; [done|apply (neutral_from _ _
    (λ envelope, evt_run_id envelope = run_id ∧ evt_event envelope = event))|].
  { unfold event_envelope_new, result_bind. intros envelope He. case_match; [|done].
    by injection He as <-. }
  intros envelope [Hrun Hevent].
  eapply learns_neutral; [done|by apply (neutral_moment (λ _, True))|]. intros t _.
  eapply learns_neutral; [done|by apply (neutral_from _ _ (λ _, True))|]. intros _ _.
  eapply learns_step; [done|by apply learns_act|]. intros [].
  eapply (learns_last _ _ (λ _, True)); [apply _|apply neutral_modify; [|done]|].
  { intros τ l w Hw. eapply run_inv_same; [done|done|apply Hw]. }
  intros [] _ τ [Hp He]. split; [done|]. by exists envelope.
Qed.

Lemma neutral_emit run_id turn_id event : neutral (emit run_id turn_id event) (λ _, True).
Proof. intros l. eapply triple_conseq; [|by apply (learns_emit (λ _, True))|]; known. Qed.

Lemma neutral_envelopes_at session_id previous branch timestamp records :
  neutral (envelopes_at_with_metadata session_id previous branch timestamp records)
    (λ es, env_record <$> es = records.*2).
Proof.
  revert previous. induction records as [|[metadata record] records IH]; intros previous; simpl;
    [by apply neutral_ret|].
  eapply neutral_bind; [by apply (neutral_lift _ (λ _, True))|]. intros sequence _.
  eapply neutral_bind; [by apply (neutral_port _ (λ _, True))|]. intros record_id _.
  eapply neutral_bind; [apply (neutral_from _ _ (λ e, env_record e = record))|].
  { unfold envelope_new, result_bind. intros e He. case_match; [|done]. by injection He as <-. }
  intros envelope <-. eapply neutral_bind; [apply IH|]. intros es Hes.
  apply neutral_ret. simpl. by f_equal.
Qed.

Lemma neutral_plain_envelopes session_id previous branch timestamp records :
  neutral (envelopes_at session_id previous branch timestamp records)
    (λ es, env_record <$> es = records).
Proof.
  eapply neutral_conseq; [apply neutral_envelopes_at|]. simpl. intros es ->.
  rewrite <- list_fmap_compose. simpl. apply list_fmap_id.
Qed.

Lemma neutral_envelopes session_id previous branch records :
  neutral (envelopes session_id previous branch records) (λ es, env_record <$> es = records).
Proof.
  eapply neutral_bind; [by apply (neutral_port _ (λ _, True))|]. intros now _.
  apply neutral_plain_envelopes.
Qed.

(** Appending records and loading the session again. *)
Lemma learns_commit P session_id s es records :
  Stable P → st_session_id s = session_id → env_record <$> es = records →
  paired_records records →
  learns P (let! _ := store_append (record_transaction s es) in store_load (st_session_id s))
    (λ s' τ, P τ ∧ seen session_id s' τ ∧ committed session_id records [] τ).
Proof.
  intros HP Hid Hes Hp. rewrite Hid.
  eapply learns_bind; [apply learns_append; [done|]|].
  { unfold results_paired. simpl. by rewrite Hes. }
  intros []. eapply (learns_conseq (λ τ, P τ ∧ ActCommitted (record_transaction s es) ∈ τ));
    [known|apply learns_load, _|].
  intros s' τ [[Hpτ Htx] Hs]. split_and!; [done..|]. by exists (record_transaction s es).
Qed.

Lemma learns_append_records P session_id snapshot records :
  Stable P → (P ⊢ seen session_id snapshot) → paired_records records →
  learns P (append_records snapshot records)
    (λ s τ, P τ ∧ seen session_id s τ ∧ committed session_id records [] τ).
Proof.
  intros HP Hs Hp.
  apply (learns_pure (st_session_id (sn_state snapshot) = session_id)); [by intros τ (_ & ? & _)%Hs|].
  intros Hid. eapply learns_neutral; [done|apply neutral_envelopes|].
  intros es Hes. by apply learns_commit.
Qed.

Lemma neutral_append_records snapshot records :
  paired_records records → neutral (append_records snapshot records) (λ _, True).
Proof.
  intros Hp. eapply neutral_bind; [apply neutral_envelopes|]. intros es Hes.
  eapply neutral_bind; [apply neutral_append|].
  { unfold results_paired. simpl. by rewrite Hes. }
  intros _ _. apply neutral_load.
Qed.

(** Appending the start of a batch reserves its executions. *)
Lemma triple_append_starts P session_id l snapshot (batch : Batch) :
  Stable P → (P ⊢ seen session_id snapshot) → (P ⊢ λ τ, Forall (λ i, X i τ) batch.*1) →
  triple P l (append_records snapshot (batch ≫= start_records)) (batch.*1 ++ l) l
    (λ s τ, P τ ∧ seen session_id s τ).
Proof.
  intros HP Hs HX.
  apply (triple_pure (st_session_id (sn_state snapshot) = session_id)); [by intros τ (_ & ? & _)%Hs|].
  intros Hid. eapply triple_safe; [done|apply neutral_envelopes|]. simpl.
  intros es Hes. eapply triple_bind.
  - apply triple_append; [done|]. intros τ w m Hw Hp Hm. apply run_inv_reserve; [done| |done| |].
    + unfold results_paired. simpl. rewrite Hes. clear. by induction batch as [|[i t] batch IH].
    + intros id. simpl. by rewrite Hes, started_in_batch.
    + by apply reserved_stable, HX.
  - intros []. rewrite Hid. eapply triple_weaken; [intros τ w; apply run_inv_drop|].
    eapply triple_conseq; [|by apply (learns_load P)|]; known.
Qed.
End run_inv.
