(* ===== verification/KernelTheorems.v ===== *)
(** * Kernel: the properties of tool turns

    Every handler of [KernelTools.v] against the triples of [KernelLogic.v]:
    executions wait for their durable starts, only invocations the policy
    allows execute, tool terminals commit with their result messages, nothing
    panics; and two concrete failures of the turn logic. *)

From S2P Require Import Prelude Protocol Tools Policy Approval SessionState Reducer.
From S2P Require Import Artifact Store StoreTheorems Validation Usage Event Registry.
From S2P Require Import SessionTheorems ModelSpec ModelStream ModelProvider KernelBase KernelConfig KernelMonad.
From S2P Require Import KernelTools KernelLogic.
Local Open Scope tea_scope.

(** ** What allows an execution *)

Section allowed.
Context `{Codec, SchemaEngine, Display, KernelPorts}.
Context (kernel : AgentKernel) (config : KernelRunConfig) (session_id : SessionId).

(** A call the session declares: in a transaction the run committed, or in the
    records of a snapshot it loaded. *)
Definition declared_call (call : CompletedToolCall) : Fact := λ τ,
  let record := ToolCallRequested (cc_tool_call_id call) (cc_tool_name call)
                  (cc_arguments call) in
  (∃ records, committed session_id records [] τ ∧ record ∈ records) ∨
  (∃ snapshot, loaded session_id snapshot τ ∧ record ∈ env_record <$> sn_records snapshot).

(** What a call prepared to, at a moment of the run. *)
Definition prepared_as (call : CompletedToolCall) (prepared : PreparedToolCall) : Fact := λ τ,
  ∃ metadata now, tool_execution_metadata session_id = Ok metadata ∧
    ActPrepared now (cc_tool_call_id call) ∈ τ ∧ prepare kernel call metadata now = prepared.

(** The engine's decision on an invocation in the context of the run: with the
    grants of the store it read, at the time the clock showed right after. *)
Definition decided_as (snapshot : SessionSnapshot) (run_id : RunId)
    (invocation : ValidatedToolInvocation) (evaluated : PolicyInput * PolicyDecision)
    : Fact := λ τ,
  ∃ t store now, ActRead t store ∈ τ ∧ clock_now (S t) = Ok now ∧
    from_validated (kc_actor_id config) (cfg_profile_id (st_configuration (sn_state snapshot)))
      session_id (Some run_id) (kc_workspace_id config) invocation (kc_environment config) now
      (active_grants_for_actor store (kc_actor_id config)) = Ok evaluated.1 ∧
    evaluated.2 = ev_decision (evaluate (ak_policy kernel) evaluated.1).

(** The invocation a declared call prepared to, allowed by the engine. *)
Definition policy_allowed (run_id : RunId) (invocation : ValidatedToolInvocation) : Fact := λ τ,
  ∃ snapshot call evaluated,
    loaded session_id snapshot τ ∧ declared_call call τ ∧
    prepared_as call (PreparedValid invocation) τ ∧
    decided_as snapshot run_id invocation evaluated τ ∧
    durable_decision evaluated.2 = PolicyAllow.

#[export] Instance declared_stable call : Stable (declared_call call).
Proof. unfold declared_call. apply _. Qed.
#[export] Instance prepared_stable call prepared : Stable (prepared_as call prepared).
Proof. unfold prepared_as. apply _. Qed.
#[export] Instance decided_stable snapshot run_id invocation evaluated :
  Stable (decided_as snapshot run_id invocation evaluated).
Proof. unfold decided_as. apply _. Qed.
#[export] Instance policy_allowed_stable run_id invocation :
  Stable (policy_allowed run_id invocation).
Proof. unfold policy_allowed. apply _. Qed.
End allowed.

(** What [prepare] accepts is an invocation of the call it was given. *)
Lemma prepared_call_id `{Codec, SchemaEngine} kernel call metadata now invocation :
  prepare kernel call metadata now = PreparedValid invocation →
  invocation_call_id invocation = cc_tool_call_id call.
Proof.
  unfold prepare, unknown_tool, invalid_tool_arguments. destruct (parse_tool_name _) as [name|]; [|discriminate].
  unfold invocation_new, result_bind. intros Hp.
  repeat case_match; simplify_eq; try discriminate.
  rename select (registry_validate _ _ _ = _) into Hv.
  apply registry_validate_ok in Hv as (? & ? & ? & _ & _ & _ & _ & _ & ->). done.
Qed.

Section handlers.
Context `{Codec, SchemaEngine, Display, KernelPorts}.
Context (kernel : AgentKernel) (X : Permits) (w0 : World).

Notation RI := (run_inv X w0).
Notation safe := (safe X w0).
Notation triple := (triple X w0).
Notation learns := (learns X w0).
Notation neutral := (neutral X w0).

(** One step of a handler, by the lemma of its first computation. *)
Ltac k_bind lem := eapply neutral_bind; [apply lem|].
Ltac k_any lem := eapply (neutral_bind _ _ _ _ (λ _, True)); [by apply lem|intros ? _].

(** The same under facts that stay known. *)
Ltac l_bind lem := eapply learns_neutral; [apply _|apply lem|].
Ltac l_any lem :=
  eapply (learns_neutral _ _ _ _ _ (λ _, True)); [apply _|by apply lem|intros ? _].
Ltac l_know lem := eapply learns_bind; [eapply lem; [apply _|..]|].

Lemma learns_prepare P session_id snapshot call :
  Stable P → (P ⊢ seen session_id snapshot) →
  learns P (prepare_call kernel snapshot call)
    (λ p τ, P τ ∧ prepared_as kernel session_id call p τ).
Proof.
  intros HP Hs.
  apply (learns_pure _ _ (st_session_id (sn_state snapshot) = session_id)); [by intros τ (_ & ? & _)%Hs|].
  intros Hid. unfold prepare_call. rewrite Hid.
  eapply learns_neutral; [done|apply neutral_lift; intros a Ha; exact Ha|].
  intros metadata Hmetadata. l_any neutral_moment. rename a into now.
  eapply learns_step; [done|apply learns_act; [intros τ _; exact I|exact I]|]. intros [].
  apply learns_ret.
  intros τ [Hp Hin]. split; [exact Hp|]. exists metadata, now.
  split; [exact Hmetadata|]. split; [exact Hin|reflexivity].
Qed.

Lemma neutral_prepare snapshot call : neutral (prepare_call kernel snapshot call) (λ _, True).
Proof.
  k_any neutral_lift. k_any neutral_moment. k_bind neutral_act; [exact (λ _, I)|exact I|].
  intros ? _. by apply neutral_ret.
Qed.

(** The read of the grants and the reading of the clock that follows it. *)
Lemma learns_grants_now {A} P actor (k : list PolicyGrant → ProtocolTimestamp → K A) Q :
  Stable P →
  (∀ t store now, clock_now (S t) = Ok now →
     learns (λ τ, P τ ∧ ActRead t store ∈ τ) (k (active_grants_for_actor store actor) now) Q) →
  learns P (let! grants := store_active_grants actor in
            let! now := port clock_now in k grants now) Q.
Proof.
  intros HP Hk l τ w Hw Hp. unfold store_active_grants, port.
  unfold st_bind at 1 2. rewrite store_read_run. simpl.
  unfold st_bind, moment, k_lift, st_lift, map_err. simpl.
  pose proof (run_inv_read _ _ _ _ _ Hw) as Hr.
  assert (run_inv X w0 (ActRead (w_moment w) (store_at w) :: τ) l (advance (after_read w))) as Ha.
  { by eapply run_inv_same; [exact Hr|done|apply Hr]. }
  destruct (clock_now (S (w_moment w))) as [now|e] eqn:Hnow.
  - specialize (Hk _ (store_at w) _ Hnow l _ _ Ha). simpl in *.
    destruct (k _ now _) as [[a|[| |e]] w'];
      try (apply Hk; split; [by apply HP|left]).
    + destruct Hk as (n & Hn & Hq); [split; [by apply HP|left]|].
      exists (n ++ [ActRead (w_moment w) (store_at w)]). by rewrite <- (assoc_L (++)).
    + destruct Hk as (n & Hn); [split; [by apply HP|left]|].
      exists (n ++ [ActRead (w_moment w) (store_at w)]). by rewrite <- (assoc_L (++)).
  - by exists [ActRead (w_moment w) (store_at w)].
Qed.

Lemma learns_evaluate P session_id snapshot invocation config run_id :
  Stable P → (P ⊢ seen session_id snapshot) →
  learns P (evaluate_call kernel snapshot invocation config run_id)
    (λ r τ, P τ ∧ decided_as kernel config session_id snapshot run_id invocation r τ).
Proof.
  intros HP Hs.
  apply (learns_pure _ _ (st_session_id (sn_state snapshot) = session_id)); [by intros τ (_ & ? & _)%Hs|].
  intros Hid. unfold evaluate_call. rewrite Hid. apply learns_grants_now; [done|].
  intros t store now Hnow. eapply learns_neutral; [apply _|apply (neutral_from _ _ _ _ (λ input,
    from_validated (kc_actor_id config) (cfg_profile_id (st_configuration (sn_state snapshot)))
      session_id (Some run_id) (kc_workspace_id config) invocation
      (kc_environment config) now (active_grants_for_actor store (kc_actor_id config))
      = Ok input)); done|].
  intros input Hin. apply learns_ret. intros τ [Hp Ht]. split; [exact Hp|]. exists t, store, now.
  split; [exact Ht|]. split; [exact Hnow|]. split; [exact Hin|reflexivity].
Qed.

Lemma neutral_run_terminal snapshot run_id turn_id error :
  neutral (record_run_terminal snapshot run_id turn_id error) (λ _, True).
Proof.
  eapply (neutral_bind _ _ _ _ (λ t, paired_records [t.1])).
  - case_bool_decide; [by apply neutral_ret|].
    k_any neutral_lift. by apply neutral_ret.
  - intros t Ht. k_any neutral_append_records. apply neutral_emit.
Qed.

Lemma neutral_interruption snapshot call run_id turn_id error :
  neutral (record_tool_interruption snapshot call run_id turn_id error) (λ _, True).
Proof. k_any neutral_append_records. apply neutral_run_terminal. Qed.

Lemma neutral_ensure_terminal session_id run_id turn_id error :
  neutral (ensure_run_terminal session_id run_id turn_id error) (λ _, True).
Proof.
  k_any neutral_load. case_match; [by apply neutral_ret|apply neutral_run_terminal].
Qed.

(** A result message shows the terminal it was made from. *)
Definition shows_terminal (id : ToolCallId) (terminal : ToolTerminal) (m : CanonicalMessage)
    : Prop :=
  ∃ message_id name timestamp,
    m = ToolResult message_id id name (tt_content terminal)
          (bool_decide (is_Some (tt_failure terminal))) (tt_failure terminal) timestamp.

Lemma neutral_result_message id name terminal :
  neutral (result_message id name terminal) (shows_terminal id terminal).
Proof.
  k_any neutral_port. k_any neutral_port. apply neutral_from.
  unfold message_tool_result, result_bind. intros m Hm. repeat case_match; simplify_eq.
  by eexists _, _, _.
Qed.

Lemma paired_terminal id terminal m rest :
  shows_terminal id terminal m → paired_records rest →
  paired_records (finished_record id terminal :: MessageCommitted m :: rest).
Proof. intros (mid & name & ts & ->) Hrest. simpl. split; [by eexists _, _, _, _|done]. Qed.

Lemma learns_commit_prefix P session_id snapshot call terminal prefix :
  Stable P → (P ⊢ seen session_id snapshot) →
  match prefix with Some r => paired_records [r] | None => True end →
  learns P (commit_terminal_with_prefix snapshot call terminal prefix)
    (λ s τ, P τ ∧ seen session_id s τ).
Proof.
  intros HP Hs Hp. l_bind neutral_result_message. intros m Hm.
  eapply learns_post; [eapply learns_append_records; [exact HP|exact Hs|]|].
  - pose proof (paired_terminal _ _ _ [] Hm I) as Hpair.
    destruct prefix as [[]|]; simpl in *; try done. by destruct Hp as [(? & ? & ? & ? & ?) _].
  - by intros s τ (? & ? & _).
Qed.

Lemma learns_denied P session_id snapshot call terminal :
  Stable P → (P ⊢ seen session_id snapshot) →
  learns P (commit_denied snapshot call terminal) (λ s τ, P τ ∧ seen session_id s τ).
Proof. intros HP Hs. by apply learns_commit_prefix. Qed.

Lemma learns_terminal P session_id snapshot call terminal :
  Stable P → (P ⊢ seen session_id snapshot) →
  learns P (commit_terminal snapshot call terminal) (λ s τ, P τ ∧ seen session_id s τ).
Proof. intros HP Hs. by apply learns_commit_prefix. Qed.

Lemma neutral_wait snapshot invocation input reason config run_id turn_id :
  neutral (wait_for_approval kernel snapshot invocation input reason config run_id turn_id)
    (λ _, True).
Proof.
  k_any neutral_port. k_any neutral_port. k_any neutral_lift.
  k_bind neutral_plain_envelopes. simpl. intros es Hes.
  k_any neutral_lift. k_bind neutral_append.
  { unfold results_paired. simpl. by rewrite Hes. }
  intros _ _. k_any neutral_load.
  eapply (neutral_bind _ _ _ _ (λ _, True)).
  { k_any neutral_moment. case_match; [apply neutral_emit|by apply neutral_ret]. }
  intros _ _. k_any neutral_emit. k_any neutral_emit. by apply neutral_ret.
Qed.

(** ** Executions *)

Lemma safe_weaken {A} l l' le le' (m : K A) Q :
  (∀ τ w, RI τ le w → RI τ le' w) → safe l m l' le Q → safe l m l' le' Q.
Proof. apply triple_weaken. Qed.

(** A neutral step under a reservation the error path gives up. *)
Lemma safe_neutral {A} l le (m : K A) Q :
  (∀ τ w, RI τ l w → RI τ le w) → neutral m Q → safe l m l le Q.
Proof. intros Hle Hm. eapply safe_weaken; [done|apply Hm]. Qed.

Lemma neutral_signal : neutral check_signal (λ _, True).
Proof.
  k_any neutral_moment. case_match; [|by apply neutral_ret].
  case_match; apply neutral_raised.
Qed.

Section stream.
Context {St : Type} (on_progress : St → ToolProgress → K St).
Context (Hprogress : ∀ s p, neutral (on_progress s p) (λ _, True)).

Lemma neutral_poll events validator s terminal :
  neutral (poll_stream on_progress events validator s terminal) (λ _, True).
Proof using All.
  revert validator s terminal. induction events as [|event events IH]; intros validator s terminal;
    simpl; (k_bind neutral_signal; intros [] _); [by apply neutral_ret|].
  destruct (tool_observe event validator) as [observed validator'].
  k_any neutral_from. destruct event; [|by apply IH|].
  - eapply neutral_bind; [apply Hprogress|]. intros s' _. apply IH.
  - k_any neutral_lift. apply IH.
Qed.

(** Polling a stream uses one reserved execution, whatever happens to it. *)
Lemma safe_run_stream invocation s l :
  safe (invocation :: l) (run_stream kernel on_progress invocation s) l l (λ _, True).
Proof using All.
  assert (∀ τ w, RI τ (invocation :: l) w → RI τ l w) as Hdrop
    by (intros τ w; apply (run_inv_drop _ _ _ [invocation])).
  eapply safe_bind; [by apply safe_neutral, (neutral_moment _ _ (λ _, True))|]. intros now _.
  eapply safe_bind; [by apply safe_neutral, (neutral_from _ _ _ _ (λ _, True))|].
  intros stream _. eapply (safe_bind _ _ _ l _ _ _ _ (λ _, True)).
  { intros τ w Hw _. exists [ActExecuted invocation]. split; [|done]. by apply run_inv_executed. }
  intros _ _. revert l Hdrop. intros l _.
  apply (neutral_bind _ _ _ _ (λ _, True) (λ _, True)); [apply neutral_poll|].
  intros [[validator s'] terminal] _. k_any neutral_from. k_any neutral_lift. by apply neutral_ret.
Qed.
End stream.

Lemma safe_execute invocation run_id turn_id l :
  safe (invocation :: l) (execute kernel invocation run_id turn_id) l l (λ _, True).
Proof.
  eapply safe_bind; [apply safe_run_stream; intros; apply neutral_emit|].
  intros result _. by apply safe_ret.
Qed.

Lemma safe_collect invocation l :
  safe (invocation :: l) (collect_execution kernel invocation) l l (λ _, True).
Proof.
  eapply safe_bind; [apply safe_run_stream; intros; by apply neutral_ret|].
  intros result _. by apply safe_ret.
Qed.

Lemma safe_try {A} l l' (m : K A) : safe l m l' l' (λ _, True) → safe l (k_try m) l' l' (λ _, True).
Proof. intros Hm. eapply triple_conseq; [|by apply triple_try|]; known. Qed.

Lemma safe_join invocations l :
  safe (invocations ++ l) (join_all kernel invocations) l l (λ _, True).
Proof.
  induction invocations as [|i invocations IH]; simpl; [by apply safe_ret|].
  eapply safe_bind; [|intros collected _].
  - eapply safe_weaken; [|apply safe_try, safe_collect].
    intros τ w. apply run_inv_drop.
  - eapply safe_bind; [apply IH|]. intros others _. by apply safe_ret.
Qed.

Lemma safe_serial invocations results l :
  safe (invocations ++ l) (run_serial kernel invocations results) l l (λ _, True).
Proof.
  revert results. induction invocations as [|i invocations IH]; intros results; simpl;
    [by apply safe_ret|].
  eapply safe_bind; [|intros [execution|e] _].
  - eapply safe_weaken; [|apply safe_try, safe_collect]. intros τ w. apply run_inv_drop.
  - apply IH.
  - intros τ w Hw _. exists []. split; [by eapply run_inv_drop|done].
Qed.

Lemma safe_lane lane results l :
  safe (ln_invocations lane ++ l) (run_lane kernel lane results) l l (λ _, True).
Proof.
  unfold run_lane. destruct (lane_allows_parallel lane); [|apply safe_serial].
  eapply safe_bind; [apply safe_join|]. intros collected _. by apply safe_ret.
Qed.

Lemma safe_lanes lanes results l :
  safe (concat (ln_invocations <$> lanes) ++ l) (execute_schedule_lanes kernel lanes results) l l
    (λ _, True).
Proof.
  revert results. induction lanes as [|lane lanes IH]; intros results; simpl;
    [by apply safe_ret|].
  rewrite <- (assoc_L (++)). eapply safe_bind.
  - eapply safe_weaken; [|apply safe_lane]. intros τ w. apply run_inv_drop.
  - intros [[[]|e] results'] _; [apply IH|].
    intros τ w Hw _. exists []. split; [by eapply run_inv_drop|done].
Qed.

(** ** Batches and turns *)

Lemma neutral_batch_terminals (batch : Batch) results :
  neutral (batch_terminals batch results) paired_records.
Proof.
  induction batch as [|[i t] batch IH]; simpl; [by apply neutral_ret|].
  k_any neutral_lift. k_bind neutral_result_message. intros m Hm.
  eapply neutral_bind; [apply IH|]. intros records Hr. apply neutral_ret.
  by apply paired_terminal.
Qed.

Lemma interrupted_paired (batch : Batch) results error :
  paired_records (interrupted_records batch results error).
Proof.
  unfold interrupted_records. induction batch as [|e batch IH]; [done|]. simpl.
  by case_bool_decide.
Qed.

Lemma learns_flush P session_id snapshot (batch : Batch) run_id turn_id :
  Stable P → (P ⊢ seen session_id snapshot) → (P ⊢ λ τ, Forall (λ i, X i τ) batch.*1) →
  learns P (flush_tool_batch kernel snapshot batch run_id turn_id)
    (λ s τ, P τ ∧ seen session_id s τ).
Proof.
  intros HP Hs HX l. unfold flush_tool_batch.
  destruct (is_empty batch); [apply triple_ret; known|].
  eapply triple_safe; [done|apply (neutral_lift _ _ _ (λ p, plan batch.*1 = Ok p)); done|].
  intros p Hp. eapply triple_bind; [by apply triple_append_starts|]. intros snapshot'.
  eapply (triple_safe _ _ _ _ l _ _ _ _ (λ _, True)); [apply _| |].
  - eapply safe_pre; [|apply safe_lanes]. intros τ w. apply run_inv_perm.
    rewrite (plan_lanes_concat _ _ Hp). f_equiv. symmetry. apply of_class_partition.
    by apply plan_ok in Hp as [? _].
  - intros [[[]|error] results] _; revert l.
    + eapply (learns_neutral _ _ _ _ _ (λ _, True)); [apply _| |].
      { apply neutral_for. intros entry. case_match; [|by apply neutral_ret].
        apply neutral_for. intros progress. apply neutral_emit. }
      intros _ _. l_bind neutral_batch_terminals. intros records Hr.
      eapply learns_post; [eapply (learns_append_records _ _ _ session_id snapshot');
        [apply _|known|exact Hr]|known].
    + eapply (learns_neutral _ _ _ _ _ (λ _, True)); [apply _| |].
      { case_match; [by apply neutral_ret|]. apply neutral_append_records, interrupted_paired. }
      intros snapshot'' _. l_any neutral_run_terminal. apply learns_raised.
Qed.

(** A classification points at a declared call; what it allows is in [X]. *)
Definition classified_ok (bound : nat) (c : Classified) : Fact :=
  match c with
  | ClassRejected index _ _ | ClassDenied index _ => λ _, index < bound
  | ClassAllow invocation _ => X invocation
  | ClassAsk _ _ _ => λ _, True
  end.

#[local] Instance classified_stable bound c : Stable (classified_ok bound c).
Proof. destruct c; apply _. Qed.

(** What the next step of a run starts from. *)
Definition outcome_seen (session_id : SessionId) (r : ToolProcessOutcome) : Fact :=
  match r with Continue snapshot => seen session_id snapshot | Waiting _ => λ _, True end.

Lemma learns_settle session_id calls config run_id turn_id classified : ∀ P snapshot (batch : Batch),
  Stable P → (P ⊢ seen session_id snapshot) → (P ⊢ λ τ, Forall (λ i, X i τ) batch.*1) →
  (P ⊢ λ τ, Forall (λ c, classified_ok (length calls) c τ) classified) →
  learns P (settle_classified kernel calls config run_id turn_id snapshot batch classified)
    (λ r τ, P τ ∧ outcome_seen session_id r τ).
Proof.
  assert (∀ index, index < length calls → neutral (call_at calls index) (λ _, True)) as Hcall.
  { intros index [call Hc]%lookup_lt_is_Some. unfold call_at. rewrite Hc. by apply neutral_ret. }
  induction classified as [|c classified IH]; intros P snapshot batch HP Hs HX Hcs.
  - eapply learns_bind; [by eapply learns_flush|]. intros snapshot'. apply learns_ret. known.
  - assert (P ⊢ classified_ok (length calls) c) as Hc.
    { intros τ Hp. by apply Hcs, Forall_cons in Hp as [? _]. }
    assert (P ⊢ λ τ, Forall (λ c, classified_ok (length calls) c τ) classified) as Hrest.
    { intros τ Hp. by apply Hcs, Forall_cons in Hp as [_ ?]. }
    assert (∀ index terminal b, index < length calls → (P ⊢ λ τ, Forall (λ i, X i τ) b.*1) →
      learns P (let! snapshot := flush_tool_batch kernel snapshot batch run_id turn_id in
                let! terminal := k_lift terminal in
                let! call := call_at calls index in
                let! snapshot := commit_denied snapshot call terminal in
                settle_classified kernel calls config run_id turn_id snapshot b classified)
        (λ r τ, P τ ∧ outcome_seen session_id r τ)) as Hdenied.
    { intros index terminal b Hindex Hb. eapply learns_bind; [by eapply learns_flush|].
      intros snapshot1. l_any neutral_lift. l_any Hcall.
      eapply learns_bind; [eapply (learns_denied _ session_id); [apply _|known]|]. intros snapshot2.
      eapply learns_post; [eapply IH; [apply _|known..]|known]. }
    destruct c as [index code message|index reason|i t|i input reason]; simpl in *.
    + apply (learns_pure _ _ (index < length calls)); [exact Hc|]. intros Hi.
      apply Hdenied; [done|]. intros τ _. constructor.
    + apply (learns_pure _ _ (index < length calls)); [exact Hc|]. intros Hi. by apply Hdenied.
    + apply IH; [done..| |done]. intros τ Hp. rewrite fmap_app. apply Forall_app.
      split; [by apply HX|]. apply Forall_singleton. by apply Hc.
    + eapply learns_bind; [by eapply learns_flush|]. intros snapshot'.
      l_any neutral_wait. apply learns_ret. known.
Qed.

Lemma learns_classify session_id config run_id bound calls : ∀ P index snapshot,
  Stable P → (P ⊢ seen session_id snapshot) →
  (P ⊢ λ τ, Forall (λ c, declared_call session_id c τ) calls) →
  index + length calls ≤ bound →
  (∀ invocation, (λ τ, P τ ∧ policy_allowed kernel config session_id run_id invocation τ)
     ⊢ X invocation) →
  learns P (classify_calls kernel snapshot config run_id index calls)
    (λ cs τ, P τ ∧ Forall (λ c, classified_ok bound c τ) cs).
Proof.
  induction calls as [|call calls IH]; intros P index snapshot HP Hs Hd Hb HX; simpl in *;
    [apply learns_ret; known|].
  assert (P ⊢ declared_call session_id call) as Hcall.
  { intros τ Hp. by apply Hd, Forall_cons in Hp as [? _]. }
  assert (∀ P' c, Stable P' → (P' ⊢ P) → (P' ⊢ classified_ok bound c) →
    learns P' (st_bind (classify_calls kernel snapshot config run_id (S index) calls)
               (λ others, st_ret (c :: others)))
      (λ cs τ, P τ ∧ Forall (λ c, classified_ok bound c τ) cs)) as Hrest.
  { intros P' c HP' Hpp Hc. eapply learns_bind; [apply IH; [done|known| |lia|]|].
    - intros τ Hp. by apply Hpp, Hd, Forall_cons in Hp as [_ ?].
    - intros i τ [Hp Hi]. apply HX. by split; [apply Hpp|].
    - intros others. apply learns_ret. intros τ [Hp Ho]. split; [by apply Hpp|].
      constructor; [by apply Hc|done]. }
  eapply learns_bind; [by eapply learns_prepare|].
  intros [invocation|code message]; [|apply Hrest; [apply _|known|intros τ _; simpl; lia]].
  eapply learns_bind; [eapply learns_evaluate; [apply _|known]|].
  intros [input decision].
  assert (durable_decision decision = PolicyAllow →
    (λ τ, (P τ ∧ prepared_as kernel session_id call (PreparedValid invocation) τ) ∧
       decided_as kernel config session_id snapshot run_id invocation (input, decision) τ)
    ⊢ X invocation) as Hallow.
  { intros Hdec τ ((Hp & Hprep) & Hdecided). apply HX. split; [exact Hp|].
    exists snapshot, call, (input, decision).
    split_and!; [apply Hs, Hp|by apply Hcall|exact Hprep|exact Hdecided|exact Hdec]. }
  destruct decision; try (apply Hrest; [apply _|known|by apply Hallow]);
    try (apply Hrest; [apply _|known|intros τ _; simpl; lia]).
  apply learns_ret. intros τ ((Hp & _) & _). split; [done|]. by repeat constructor.
Qed.

Lemma learns_turn P session_id snapshot calls config run_id turn_id :
  Stable P → (P ⊢ seen session_id snapshot) →
  (P ⊢ λ τ, Forall (λ c, declared_call session_id c τ) calls) →
  (∀ invocation, (λ τ, P τ ∧ policy_allowed kernel config session_id run_id invocation τ)
     ⊢ X invocation) →
  learns P (process_tool_turn kernel snapshot calls config run_id turn_id)
    (λ r τ, P τ ∧ outcome_seen session_id r τ).
Proof.
  intros HP Hs Hd HX.
  eapply learns_bind; [by apply (learns_classify session_id _ _ (length calls))|].
  intros classified. eapply learns_post; [eapply (learns_settle session_id);
    [apply _|known|by intros τ _; constructor|known]|known].
Qed.

(** The allowed branch of [process_validated]. *)
Lemma learns_allowed P session_id snapshot call invocation target run_id turn_id :
  Stable P → (P ⊢ seen session_id snapshot) → (P ⊢ X invocation) →
  invocation_call_id invocation = cc_tool_call_id call →
  learns P (let! snapshot := append_records snapshot
             [PolicyDecisionRecorded (cc_tool_call_id call) PolicyAllow;
              ToolExecutionStarted (cc_tool_call_id call) target
                (te_idempotency (sp_execution (vi_spec invocation)))] in
           let! executed := k_try (execute kernel invocation run_id turn_id) in
           match executed with
           | Ok terminal =>
               let! snapshot := commit_terminal snapshot call terminal in
               st_ret (Continue snapshot)
           | Err error =>
               do! record_tool_interruption snapshot call run_id turn_id error in
               st_throw (Raised error)
           end) (λ r τ, P τ ∧ outcome_seen session_id r τ).
Proof.
  intros HP Hs HX Hid l. rewrite <- Hid. eapply triple_bind.
  - apply (triple_append_starts _ _ _ session_id l snapshot [(invocation, target)]); [done..|].
    intros τ Hp. constructor; [by apply HX|constructor].
  - intros snapshot'. simpl. eapply triple_safe; [apply _|apply safe_try, safe_execute|].
    intros [terminal|error] _; revert l.
    + eapply learns_bind; [eapply (learns_terminal _ session_id); [apply _|known]|].
      intros snapshot2. apply learns_ret. known.
    + l_any neutral_interruption. apply learns_raised.
Qed.

Lemma learns_process P session_id snapshot call config run_id turn_id :
  Stable P → (P ⊢ seen session_id snapshot) → (P ⊢ declared_call session_id call) →
  (∀ invocation, (λ τ, P τ ∧ policy_allowed kernel config session_id run_id invocation τ)
     ⊢ X invocation) →
  learns P (process_tool kernel snapshot call config run_id turn_id)
    (λ r τ, P τ ∧ outcome_seen session_id r τ).
Proof.
  intros HP Hs Hd HX.
  assert (∀ P' snapshot terminal, Stable P' → (P' ⊢ P) → (P' ⊢ seen session_id snapshot) →
    learns P' (let! terminal := k_lift terminal in
               let! snapshot := commit_denied snapshot call terminal in
               st_ret (Continue snapshot))
      (λ r τ, P τ ∧ outcome_seen session_id r τ)) as Hdenied.
  { intros P' s terminal HP' Hpp Hs'. l_any neutral_lift.
    eapply learns_bind; [by eapply (learns_denied _ session_id)|].
    intros snapshot2. apply learns_ret. known. }
  eapply learns_bind; [by eapply learns_prepare|].
  intros [invocation|code message]; [|apply Hdenied; [apply _|known|known]].
  apply (learns_pure _ _ (invocation_call_id invocation = cc_tool_call_id call)).
  { intros τ (_ & metadata & now & _ & _ & Hp). by eapply prepared_call_id. }
  intros Hid. eapply learns_bind; [eapply learns_evaluate; [apply _|known]|].
  intros [input decision].
  assert (durable_decision decision = PolicyAllow →
    (λ τ, (P τ ∧ prepared_as kernel session_id call (PreparedValid invocation) τ) ∧
       decided_as kernel config session_id snapshot run_id invocation (input, decision) τ)
    ⊢ X invocation) as Hallow.
  { intros Hdec τ ((Hp & Hprep) & Hdecided). apply HX. split; [exact Hp|].
    exists snapshot, call, (input, decision).
    split_and!; [apply Hs, Hp|by apply Hd|exact Hprep|exact Hdecided|exact Hdec]. }
  destruct decision; simpl in *.
  1,2: eapply learns_post; [eapply (learns_allowed _ session_id);
    [apply _|known|by apply Hallow|exact Hid]|known].
  - l_any neutral_wait. apply learns_ret. known.
  - apply Hdenied; [apply _|known|known].
  - apply Hdenied; [apply _|known|known].
Qed.
End handlers.

(** ** What a batch leaves in the trace *)

Definition commits (w : World) : list AppendTransaction :=
  omap (λ a, match a with ActCommitted tx => Some tx | _ => None end) (w_trace w).
Definition executed (w : World) : list ValidatedToolInvocation :=
  omap (λ a, match a with ActExecuted i => Some i | _ => None end) (w_trace w).

Lemma elem_executed i w : i ∈ executed w → ActExecuted i ∈ w_trace w.
Proof. intros (a & Ha & Hi)%list_elem_of_omap. destruct a; by simplify_eq. Qed.

(** The calls whose terminal a list of records commits, in order. *)
Definition finished_calls (records : list SessionRecord) : list ToolCallId :=
  omap (λ r, match r with ToolExecutionFinished id _ _ _ _ => Some id | _ => None end) records.

(** The commits and executions of a world, newest first. *)
Definition observed (w : World) : list AppendTransaction * list ValidatedToolInvocation :=
  (commits w, executed w).

(** A computation that commits and executes nothing. *)
Definition quiet {A} (m : K A) : Prop := keeps observed m.

Lemma quiet_eq {A} (m : K A) w r w' : quiet m → m w = (r, w') → observed w' = observed w.
Proof. intros Hq Hm. specialize (Hq w). by rewrite Hm in Hq. Qed.

Section batch.
Context `{Codec, SchemaEngine, Display, KernelPorts}.
Context (kernel : AgentKernel).

Lemma quiet_lift {A} (r : Result KernelError A) : quiet (k_lift r).
Proof. apply keeps_lift. Qed.
Lemma quiet_from {E : Set} {A} code (r : Result E A) : quiet (k_from code r).
Proof. apply keeps_lift. Qed.
Lemma quiet_moment : quiet moment.
Proof. by intros w. Qed.
Lemma quiet_port {A} (g : nat → Result KernelError A) : quiet (port g).
Proof. apply keeps_bind; [apply quiet_moment|]. intros t. apply quiet_lift. Qed.

Ltac solve_quiet :=
  repeat first [ apply keeps_bind; [|intros ?] | apply keeps_for; intros ? | apply keeps_ret
               | apply keeps_gets | apply keeps_throw | apply quiet_lift | apply quiet_from
               | apply quiet_moment | apply quiet_port
               | apply keeps_modify; done | case_match | done ].

Lemma quiet_emit run_id turn_id event : quiet (emit run_id turn_id event).
Proof. unfold quiet, emit, k_ensure. solve_quiet. Qed.

Lemma quiet_load session_id : quiet (store_load session_id).
Proof.
  unfold quiet, store_load, store_read, interfere. solve_quiet.
Qed.

Lemma quiet_envelopes_at session_id previous branch timestamp records :
  quiet (envelopes_at_with_metadata session_id previous branch timestamp records).
Proof.
  revert previous. induction records as [|[metadata record] records IH]; intros previous; simpl;
    unfold quiet; solve_quiet. apply IH.
Qed.

Lemma quiet_batch_terminals (batch : Batch) results : quiet (batch_terminals batch results).
Proof.
  induction batch as [|[i t] batch IH]; simpl; unfold quiet in *; solve_quiet.
Qed.

Lemma envelopes_records session_id previous branch timestamp records w es w' :
  envelopes_at_with_metadata session_id previous branch timestamp records w = (Ok es, w') →
  env_record <$> es = records.*2.
Proof.
  revert previous w es w'. induction records as [|[metadata record] records IH];
    intros previous w es w'; simpl; intros Hes; st_inv; [done|].
  rename select (k_from _ _ _ = _) into He. unfold k_from, k_lift, from_error, map_err in He.
  apply st_lift_ok in He as [He ->]. unfold envelope_new, result_bind in He.
  repeat case_match; simplify_eq. simpl. f_equal. by eapply IH.
Qed.

(** An append that succeeds adds its transaction to the commits. *)
Lemma store_append_observed tx w u w' :
  store_append tx w = (Ok u, w') →
  observed w' = (tx :: commits w, executed w).
Proof.
  unfold store_append, interfere. intros Hrun. apply st_bind_ok in Hrun as ([] & w1 & Hi & Hrun).
  apply quiet_eq in Hi; [|unfold quiet; solve_quiet]. injection Hi as Hc He.
  repeat case_match; simplify_eq.
  change ((tx :: commits w1, executed w1) = (tx :: commits w, executed w)).
  f_equal; [f_equal; exact Hc|exact He].
Qed.

Lemma append_records_observed snapshot records w snapshot' w' :
  append_records snapshot records w = (Ok snapshot', w') →
  ∃ tx, observed w' = (tx :: commits w, executed w) ∧ env_record <$> tx_records tx = records.
Proof.
  unfold append_records. intros (es & w1 & Hes & Hrun)%st_bind_ok.
  apply st_bind_ok in Hrun as (u & w2 & Ha & Hl).
  apply quiet_eq in Hl; [|apply quiet_load]. apply store_append_observed in Ha.
  assert (env_record <$> es = records) as Hrec.
  { unfold envelopes, envelopes_at in Hes. apply st_bind_ok in Hes as (now & w3 & _ & Hes).
    apply envelopes_records in Hes as ->. rewrite <- list_fmap_compose. apply list_fmap_id. }
  apply quiet_eq in Hes; [|unfold quiet, envelopes; solve_quiet; apply quiet_envelopes_at].
  injection Hes as Hc He. exists (record_transaction (sn_state snapshot) es).
  split; [|exact Hrec]. by rewrite Hl, Ha, Hc, He.
Qed.

Lemma quiet_poll {St} (on_progress : St → ToolProgress → K St) events validator s terminal :
  (∀ s p, quiet (on_progress s p)) → quiet (poll_stream on_progress events validator s terminal).
Proof.
  intros Hp. revert validator s terminal. induction events as [|event events IH];
    intros validator s terminal; simpl; unfold quiet, check_signal, raise in *; solve_quiet;
    solve [apply IH | apply Hp].
Qed.

Lemma collect_observed i w c w' :
  collect_execution kernel i w = (Ok c, w') → observed w' = (commits w, i :: executed w).
Proof.
  intros (result & w1 & Hrun & Hret)%st_bind_ok. apply st_ret_ok in Hret as [_ ->].
  unfold run_stream in Hrun. apply st_bind_ok in Hrun as (now & w2 & Hm & Hrun).
  apply quiet_eq in Hm; [|apply quiet_moment].
  apply st_bind_ok in Hrun as (stream & w3 & Hs & Hrun).
  apply quiet_eq in Hs; [|apply quiet_from].
  apply st_bind_ok in Hrun as (u & w4 & Ha & Hrun). apply st_modify_ok in Ha as ->.
  apply quiet_eq in Hrun; [|solve_quiet; apply quiet_poll; intros; apply keeps_ret].
  rewrite Hrun. rewrite Hm in Hs. injection Hs as Hc He.
  change ((commits w3, i :: executed w3) = (commits w, i :: executed w)).
  by rewrite Hc, He.
Qed.

Lemma try_ok {A} (m : K A) w a w' : k_try m w = (Ok (Ok a), w') → m w = (Ok a, w').
Proof. unfold k_try. destruct (m w) as [[b|[| |e]] w1]; naive_solver. Qed.

Lemma join_observed invocations w collected w' results results' :
  join_all kernel invocations w = (Ok collected, w') →
  insert_results collected results = (Ok tt, results') →
  observed w' = (commits w, rev invocations ++ executed w).
Proof.
  revert w collected results. induction invocations as [|i invocations IH];
    intros w collected results; simpl.
  - intros [-> ->]%st_ret_ok _. done.
  - intros (c & w1 & Hc & Hrun)%st_bind_ok Hins.
    apply st_bind_ok in Hrun as (others & w2 & Ho & Hret). apply st_ret_ok in Hret as [-> ->].
    simpl in Hins. destruct c as [execution|e]; [|done].
    apply try_ok, collect_observed in Hc. specialize (IH _ _ _ Ho Hins).
    rewrite IH. injection Hc as -> ->. by rewrite <- app_assoc.
Qed.

Lemma serial_observed invocations w results results' w' :
  run_serial kernel invocations results w = (Ok (Ok tt, results'), w') →
  observed w' = (commits w, rev invocations ++ executed w).
Proof.
  revert w results. induction invocations as [|i invocations IH]; intros w results; simpl.
  - intros [_ ->]%st_ret_ok. done.
  - intros (c & w1 & Hc & Hrun)%st_bind_ok.
    destruct c as [execution|e]; [|by apply st_ret_ok in Hrun as [? _]].
    apply try_ok, collect_observed in Hc. specialize (IH _ _ Hrun).
    rewrite IH. injection Hc as -> ->. by rewrite <- app_assoc.
Qed.

Lemma lanes_observed lanes w results results' w' :
  execute_schedule_lanes kernel lanes results w = (Ok (Ok tt, results'), w') →
  observed w' = (commits w, rev (concat (ln_invocations <$> lanes)) ++ executed w).
Proof.
  revert w results. induction lanes as [|lane lanes IH]; intros w results; simpl.
  - intros [_ ->]%st_ret_ok. done.
  - intros ([[[]|e] results1] & w1 & Hl & Hrun)%st_bind_ok; [|by apply st_ret_ok in Hrun as [? _]].
    specialize (IH _ _ Hrun). rewrite IH, rev_app_distr, <- app_assoc.
    assert (observed w1 = (commits w, rev (ln_invocations lane) ++ executed w)) as Hw1.
    { unfold run_lane in Hl. destruct (lane_allows_parallel lane); [|by eapply serial_observed].
      apply st_bind_ok in Hl as (collected & w2 & Hj & Hret). apply st_ret_ok in Hret as [Hi ->].
      by eapply join_observed. }
    injection Hw1 as -> ->. done.
Qed.

Lemma batch_terminals_finished (batch : Batch) results w records w' :
  batch_terminals batch results w = (Ok records, w') →
  finished_calls records = invocation_call_id <$> batch.*1.
Proof.
  revert w records. induction batch as [|[i t] batch IH]; intros w records; simpl.
  - by intros [-> _]%st_ret_ok.
  - intros (c & w1 & _ & Hrun)%st_bind_ok.
    apply st_bind_ok in Hrun as (m & w2 & _ & Hrun).
    apply st_bind_ok in Hrun as (rest & w3 & Hrest & Hret). apply st_ret_ok in Hret as [-> ->].
    simpl. f_equal. by eapply IH.
Qed.

(** A batch that is flushed successfully leaves exactly two transactions:
    first the policy decision and start of every invocation, in source order,
    then the terminals of all of them, in source order whatever order they ran
    in; and between them every invocation executed exactly once, in lane order,
    which is the source order up to permutation. *)
Theorem flushed_batch_commits_in_order snapshot (batch : Batch) run_id turn_id w snapshot' w' :
  flush_tool_batch kernel snapshot batch run_id turn_id w = (Ok snapshot', w') → batch ≠ [] →
  ∃ starts terminals ran,
    commits w' = terminals :: starts :: commits w ∧
    env_record <$> tx_records starts = batch ≫= start_records ∧
    finished_calls (env_record <$> tx_records terminals) = invocation_call_id <$> batch.*1 ∧
    executed w' = rev ran ++ executed w ∧ ran ≡ₚ batch.*1.
Proof.
  intros Hrun Hne. unfold flush_tool_batch in Hrun.
  replace (is_empty batch) with false in Hrun by (by destruct batch).
  apply st_bind_ok in Hrun as (p & w1 & Hp & Hrun). apply st_lift_ok in Hp as [Hp ->].
  unfold map_err in Hp. destruct (plan batch.*1) as [plan'|] eqn:Hplan; simplify_eq.
  apply st_bind_ok in Hrun as (snapshot1 & w2 & Hstart & Hrun).
  apply append_records_observed in Hstart as (starts & Hobs1 & Hstarts).
  apply st_bind_ok in Hrun as ([[[]|e] results] & w3 & Hlanes & Hrun); [|st_inv; done].
  apply lanes_observed in Hlanes.
  apply st_bind_ok in Hrun as (u & w4 & Hemit & Hrun).
  apply quiet_eq in Hemit; [|unfold quiet, emit_batch_progress, emit_progress; solve_quiet;
    apply quiet_emit].
  apply st_bind_ok in Hrun as (records & w5 & Hterm & Hrun).
  pose proof (batch_terminals_finished _ _ _ _ _ Hterm) as Hfin.
  apply quiet_eq in Hterm; [|apply quiet_batch_terminals].
  apply append_records_observed in Hrun as (terminals & Hobs2 & <-).
  exists starts, terminals, (concat (ln_invocations <$> sp_lanes p)).
  rewrite Hemit, Hlanes in Hterm. injection Hobs1 as Hc1 He1. injection Hterm as Hc2 He2.
  injection Hobs2 as Hc3 He3. split_and!; try done.
  - by rewrite Hc3, Hc2, Hc1.
  - by rewrite He3, He2, He1.
  - rewrite (plan_lanes_concat _ _ Hplan). apply of_class_partition.
    by apply plan_ok in Hplan as [? _].
Qed.
End batch.

(** ** Sample kernel

    Tools that read, write and take secrets, under the coding workspace policy:
    reads are allowed, secrets denied, writes asked for.  The write tool names
    65 resources. *)

Module KernelSample.

#[export] Existing Instances RegistrySample.codec RegistrySample.engine.
#[export] Instance display : Display := {| to_string := λ _ _, "error"%string |}.
#[export] Instance ports : KernelPorts := {|
  next_run_id := λ t, Ok (mk_id (1000 + N.of_nat t)%N);
  next_turn_id := λ t, Ok (mk_id (1000 + N.of_nat t)%N);
  next_message_id := λ t, Ok (mk_id (1000 + N.of_nat t)%N);
  next_tool_call_id := λ t, Ok (mk_id (1000 + N.of_nat t)%N);
  next_approval_id := λ t, Ok (mk_id (1000 + N.of_nat t)%N);
  next_event_id := λ t, Ok (mk_id (1000 + N.of_nat t)%N);
  next_record_id := λ t, Ok (mk_id (1000 + N.of_nat t)%N);
  clock_now := λ _, Ok (Timestamp 50);
  sink_last_sequence := λ _ _, None;
  sink_emit := λ _ _, Ok tt;
  poll_signal := λ _, None;
  other_writers := λ _, [];
  queue_producers := λ _, [];
  max_utc_millis := 8210266876799999%Z
|}.

Definition tool (name : string) (effect : ToolEffect) : ToolSpec :=
  mk_ToolSpec (mk_ToolName name) (mk_ToolVersion "1.0.0") None "A tool."
    (JObject [("type"%string, JString "object")]) (JObject [("type"%string, JString "object")])
    [effect] native_product
    (mk_ToolExecutionSemantics Idempotent RetryNever ConcurrencySerial (mk_ToolTimeout 1000))
    None [] None.

Definition result : ToolResultValue :=
  mk_ToolResultValue [Text "done"] (JObject []) ∅ None None.
Definition executor : ToolExecutor :=
  mk_ToolExecutor (λ _ _, None) (λ _ _, [ExecFinished result]).

Definition resources (n : nat) : list ToolResource :=
  (λ i, mk_ToolResource "file" (String.string_of_list_ascii
          (Ascii.ascii_of_N <$> [97 + N.of_nat (i / 26); 97 + N.of_nat (i mod 26)]%N)) AccessWrite)
    <$> seq 0 n.

Definition bind (n : nat) : ToolBinding :=
  BindClient (mk_ToolResourceResolver (λ _ _ _, Ok (resources n))) executor.

Definition registry : ToolRegistry :=
  (register_binding (tool "write" FsWrite) (bind 65)
     (register_binding (tool "secret" CredentialRead) (bind 0)
        (register_binding (tool "read" FsRead) (bind 0) ∅).2).2).2.

Definition model : ModelSpec :=
  mk_ModelSpec (mk_ModelRef (mk_selector "prov") (mk_selector "m")) (mk_ModelDisplayName "M")
    (mk_TokenCount 100000) (mk_TokenCount 1000) (with_tools_cap false capabilities_text) None.
Definition answer : list ModelEvent :=
  [ModelStarted (mk_ModelResponseInfo None None ∅); ModelTextDelta (mk_Utf8Delta "hello");
   ModelCompleted completion_completed].
Definition provider : ModelProvider :=
  mk_ModelProvider (mk_selector "prov") [model] (λ _ _, Ok tt) (λ _ _, answer).

Definition kernel : AgentKernel :=
  mk_AgentKernel (provider_router provider) registry [FilesystemReadPolicy; CodingWorkspacePolicy].

Definition config : KernelRunConfig :=
  config_new (mk_selector "alice") (mk_PolicyEnvironment SurfaceCli PolicyNative ∅).

Definition declared (names : list (N * string)) : list RecordEnvelope :=
  [ Sample.envelope 0 (Some Sample.trunk) Sample.session_created;
    Sample.envelope 1 (Some Sample.trunk) (Sample.user_message 20);
    Sample.envelope 2 (Some Sample.trunk) (MessageCommitted
      (Assistant (mk_id 21) ((λ c, ToolCall (mk_id c.1) None c.2 (JObject [])) <$> names)
         StopToolUse (Timestamp 0))) ]
  ++ ((λ c, Sample.envelope c.1 (Some Sample.trunk)
              (ToolCallRequested (mk_id c.1) c.2 (JObject []))) <$> names).

Definition calls (names : list (N * string)) : list CompletedToolCall :=
  (λ c, mk_CompletedToolCall (mk_id c.1) c.2 (JObject [])) <$> names.

Definition world (names : list (N * string)) : World :=
  mk_World (StoreSample.after store_new
              (mk_AppendTransaction (mk_id 1) None (declared names) None [] []))
    None 0 (mk_EventEmitter (mk_id 1) (SessionSequence_new 10) 0 limits_default) [].

Definition loaded (w : World) : SessionSnapshot :=
  match load (w_store w) (mk_id 1) with
  | Some (Ok s) => s
  | _ => mk_SessionSnapshot [] (Sample.state_of reducer_new) [] [] [] 0
  end.

(** One turn over the declared calls. *)
Definition turn (names : list (N * string)) : Result Fault ToolProcessOutcome * World :=
  process_tool_turn kernel (loaded (world names)) (calls names) config (mk_id 3) (mk_id 4)
    (world names).

(** The calls whose result message the session holds. *)
Definition settled (w : World) (names : list (N * string)) : bool :=
  forallb (λ c, match st_tool_calls (sn_state (loaded w)) !! (mk_id c.1 : ToolCallId) with
                | Some tool => bool_decide (is_Some (tc_result_message_id tool))
                | None => false
                end) names.

Definition outcome_code (r : Result Fault ToolProcessOutcome) : option KernelErrorCode :=
  match r with Err (Raised e) => Some (ke_code e) | _ => None end.

Definition allowed_then_denied : list (N * string) := [(3, "read"); (4, "secret")]%N%string.
Definition denied_then_allowed : list (N * string) := [(3, "secret"); (4, "read")]%N%string.
Definition asked : list (N * string) := [(3, "write")]%N%string.

End KernelSample.

(** ** Theorems *)

(** An allowed call followed by a denied one fails the turn.  The denied
    branch flushes the batch and keeps it, so the end of the turn commits the
    decision of the allowed call a second time and the store refuses it: the
    turn fails with a session failure although both calls are settled.  The
    same calls in the other order continue. *)
Theorem denied_after_allowed_fails_turn :
  (let '(r, w) := KernelSample.turn KernelSample.allowed_then_denied in
   KernelSample.outcome_code r = Some CodeSessionFailure ∧
   KernelSample.settled w KernelSample.allowed_then_denied = true ∧
   length (executed w) = 1) ∧
  (let '(r, w) := KernelSample.turn KernelSample.denied_then_allowed in
   (∃ snapshot, r = Ok (Continue snapshot)) ∧
   KernelSample.settled w KernelSample.denied_then_allowed = true ∧
   length (executed w) = 1).
Proof.
  split.
  - by vm_compute.
  - assert (match (KernelSample.turn KernelSample.denied_then_allowed).1 with
            | Ok (Continue _) => true | _ => false end = true) as Hok by by vm_compute.
    assert (KernelSample.settled (KernelSample.turn KernelSample.denied_then_allowed).2
              KernelSample.denied_then_allowed = true) as Hs by by vm_compute.
    assert (length (executed (KernelSample.turn KernelSample.denied_then_allowed).2) = 1) as He
      by by vm_compute.
    destruct (KernelSample.turn _) as [[[snapshot|]|] w]; try done. eauto.
Qed.

(** An event that was emitted is valid. *)
Lemma emit_valid `{Codec, Display, KernelPorts} run_id turn_id event w u w' :
  emit run_id turn_id event w = (Ok u, w') → event_validate event = Ok tt.
Proof.
  intros Hrun. unfold emit in Hrun. st_inv.
  rename select (k_from CodeInvalidState _ _ = _) into He.
  unfold k_from, k_lift, from_error, map_err in He. apply st_lift_ok in He as [He _].
  unfold event_envelope_new, event_envelope_validate, result_bind in He.
  simpl in He. by destruct (event_validate event) as [[]|e].
Qed.

Lemma approval_request_resources `{Codec, Display, KernelPorts} approval_id input reason now ttl
    request :
  approval_request approval_id input reason now ttl = Ok request →
  length (ap_resources (rq_presentation request)) = length (in_resources input).
Proof.
  unfold approval_request, from_error, presentation_from_input, presentation_from_parts,
    request_new, request_from_parts, map_err, result_bind.
  intros Hr. repeat case_match; simplify_eq; simpl; by rewrite length_fmap.
Qed.

(** an approval the kernel cannot announce.  An invocation may resolve to
    [MAX_TOOL_RESOURCES] resources, but an approval event names at most
    [MAX_APPROVAL_ITEMS]: with more, waiting for approval never succeeds,
    whatever the ports do. *)
Theorem oversized_approval_never_waits `{Codec, SchemaEngine, Display, KernelPorts} kernel
    snapshot invocation input reason config run_id turn_id w :
  MAX_APPROVAL_ITEMS < length (in_resources input) →
  is_ok (wait_for_approval kernel snapshot invocation input reason config run_id turn_id w).1
    = false.
Proof.
  intros Hlen.
  destruct (wait_for_approval _ _ _ _ _ _ _ _ _) as [[o|e] w'] eqn:Hrun; [exfalso|done].
  unfold wait_for_approval, k_lift in Hrun. st_inv.
  rename select (emit _ _ (EventApprovalRequested _ _ _ _ _) _ = _) into He.
  rename select (map_err _ (approval_request _ _ _ _ _) = _) into Hreq.
  unfold map_err in Hreq. destruct (approval_request _ _ _ _ _) as [request|] eqn:Har; [|done].
  injection Hreq as ->. apply approval_request_resources in Har. apply emit_valid in He.
  simpl in He. unfold result_bind in He. destruct (validate_items _); [|done].
  unfold approval_event_resources in He. rewrite <- Har in Hlen.
  destruct (is_empty _) eqn:Hempty; [destruct (ap_resources _); simpl in *; [lia|done]|].
  unfold validate_items in He. apply ensure_ok in He. bool_prop.
  rename select ((_ <=? MAX_APPROVAL_ITEMS) = true) into Hle. apply Nat.leb_le in Hle. lia.
Qed.

(** ** Witnesses *)

Section witnesses.
#[local] Existing Instances RegistrySample.codec RegistrySample.engine KernelSample.display
  KernelSample.ports.

(** The write call of the sample, and the wait for its approval. *)
Definition sample_input : PolicyInput :=
  mk_PolicyInput (mk_selector "alice") (mk_selector "default") (mk_id 1) (Some (mk_id 3)) None
    (mk_id 3) (mk_ToolName "write") (mk_ToolVersion "1.0.0") native_product (JObject []) [FsWrite]
    (KernelSample.resources 65) (kc_environment KernelSample.config) (Timestamp 50) [].

Definition sample_invocation : ValidatedToolInvocation :=
  validated_new (mk_ToolInvocation (mk_id 3) (mk_ToolName "write") (JObject []) ∅)
    (KernelSample.tool "write" FsWrite) (KernelSample.resources 65).

(** The approval is durable although the wait failed. *)
Lemma oversized_approval_never_waits_witness :
  let run := wait_for_approval KernelSample.kernel
               (KernelSample.loaded (KernelSample.world KernelSample.asked)) sample_invocation
               sample_input "writes need approval" KernelSample.config (mk_id 3) (mk_id 4)
               (KernelSample.world KernelSample.asked) in
  is_ok run.1 = false ∧
  size (st_pending_approvals (sn_state (KernelSample.loaded run.2))) = 1.
Proof.
  split; [|by vm_compute].
  apply oversized_approval_never_waits. apply Nat.ltb_lt. reflexivity.
Defined.

Definition sample_batch : Batch :=
  [(validated_new (mk_ToolInvocation (mk_id 3) (mk_ToolName "read") (JObject []) ∅)
      (KernelSample.tool "read" FsRead) [], TargetNative)].

Definition sample_flush : Result Fault SessionSnapshot * World :=
  flush_tool_batch KernelSample.kernel
    (KernelSample.loaded (KernelSample.world KernelSample.allowed_then_denied)) sample_batch
    (mk_id 3) (mk_id 4) (KernelSample.world KernelSample.allowed_then_denied).

Lemma flushed_batch_commits_in_order_witness :
  is_ok sample_flush.1 = true ∧
  ∃ starts terminals, commits sample_flush.2 = [terminals; starts] ∧
    finished_calls (env_record <$> tx_records terminals) = [mk_id 3].
Proof.
  split; [by vm_compute|].
  destruct sample_flush as [[snapshot|e] w] eqn:Hrun.
  - destruct (flushed_batch_commits_in_order KernelSample.kernel _ _ _ _ _ _ _ Hrun ltac:(done))
      as (starts & terminals & ran & Hc & _ & Hf & _).
    exists starts, terminals. split; [exact Hc|exact Hf].
  - exfalso. assert (is_ok sample_flush.1 = true) as Hok by by vm_compute.
    rewrite Hrun in Hok. discriminate Hok.
Defined.
End witnesses.
