(* ===== verification/KernelTurnTheorems.v ===== *)
(** * Kernel: what a model turn makes of its stream

    A reference reading of a provider stream as the blocks of one message, and
    the proof that [stream_turn] of [KernelTurn.v] computes it: adjacent deltas
    of one kind are one block, calls and hosted activities stand where they
    started and carry what completed them, citations name the call of the
    activity they cite.  The bytes the stream was charged for are the bytes a
    resumed run counts in the committed message. *)

From S2P Require Import Prelude Protocol Tools Policy SessionState Validation Usage ModelSpec Event.
From S2P Require Import Registry KernelBase ModelStream ModelProvider KernelConfig KernelMonad.
From S2P Require Import KernelRequest KernelTools KernelTurn KernelRun KernelTheorems.
Local Open Scope tea_scope.

(** ** The reference reading *)

Inductive Piece : Set :=
| PieceText (text : string)
| PieceThinking (text : string)
| PieceTool (index : ModelStreamIndex)
| PieceHosted (index : ModelStreamIndex)
| PieceCitation (citation : ModelSourceCitation).

Definition piece_of (e : ModelEvent) : option Piece :=
  match e with
  | ModelTextDelta d => Some (PieceText (ud_str d))
  | ModelThinkingDelta d => Some (PieceThinking (ud_str d))
  | ModelToolCallStarted c => Some (PieceTool (ts_index c))
  | ModelHostedToolStarted c => Some (PieceHosted (hs_index c))
  | ModelSourceCited c => Some (PieceCitation c)
  | _ => None
  end.

(** Adjacent fragments of one kind are one block. *)
Definition join (p : Piece) (l : list Piece) : list Piece :=
  match p, l with
  | PieceText a, PieceText b :: rest => PieceText (a ++ b) :: rest
  | PieceThinking a, PieceThinking b :: rest => PieceThinking (a ++ b) :: rest
  | _, _ => p :: l
  end.
Definition merge (l : list Piece) : list Piece := foldr join [] l.

Definition skeleton (events : list ModelEvent) : list Piece := merge (omap piece_of events).

(** What completed the call started at an index. *)
Definition completion_of (events : list ModelEvent) (i : ModelStreamIndex)
    : option ToolCallCompleted :=
  head (omap (λ e, match e with
                   | ModelToolCallCompleted c => if decide (tc_index c = i) then Some c else None
                   | _ => None
                   end) events).
Definition hosted_completion_of (events : list ModelEvent) (i : ModelStreamIndex)
    : option HostedToolCompleted :=
  head (omap (λ e, match e with
                   | ModelHostedToolCompleted c => if decide (hc_index c = i) then Some c else None
                   | _ => None
                   end) events).

(** The block a piece stands for, where [ids] names the hosted calls. *)
Definition block_of (events : list ModelEvent) (ids : HostedIds) (p : Piece) (b : ContentBlock)
    : Prop :=
  match p with
  | PieceText text => b = Text text
  | PieceThinking text => b = Thinking text
  | PieceTool i =>
      ∃ id c, completion_of events i = Some c ∧
        b = ToolCall id (Some (pti_str (tc_provider_call_id c))) (tc_called_name c)
              (tc_called_arguments c)
  | PieceHosted i =>
      ∃ id c, hosted_completion_of events i = Some c ∧ ids !! hc_provider_call_id c = Some id ∧
        b = HostedTool (mk_HostedToolActivity id (pti_str (hc_provider_call_id c))
              (hc_tool_name c) (hc_arguments c) (hc_outcome c) (hc_sources c)
              (hc_continuation c))
  | PieceCitation c =>
      match mc_provider_call_id c with
      | None => b = Citation (mc_citation c)
      | Some provider_id =>
          ∃ id, ids !! provider_id = Some id ∧ b = Citation (citation_with_call (mc_citation c) id)
      end
  end.

(** The call a content block declares. *)
Definition block_call (b : ContentBlock) : option CompletedToolCall :=
  match b with
  | ToolCall id _ name arguments => Some (mk_CompletedToolCall id name arguments)
  | _ => None
  end.

(** ** One more piece *)

(** [merge] from the right. *)
Fixpoint push (l : list Piece) (p : Piece) : list Piece :=
  match l with
  | [] => [p]
  | [q] => join q [p]
  | q :: rest => q :: push rest p
  end.

Lemma join_push q l p : join q (push l p) = push (join q l) p.
Proof.
  destruct l as [|x [|y l]]; simpl; [by destruct q|..].
  - destruct q, x, p; simpl; rewrite ?string_app_assoc; done.
  - by destruct q, x.
Qed.

Lemma merge_snoc l p : merge (l ++ [p]) = push (merge l) p.
Proof.
  unfold merge. induction l as [|q l IH]; simpl; [by destruct p|]. by rewrite IH, join_push.
Qed.

Lemma skeleton_snoc l e :
  skeleton (l ++ [e]) = match piece_of e with Some p => push (skeleton l) p | None => skeleton l end.
Proof.
  unfold skeleton. rewrite omap_app. simpl. destruct (piece_of e); [apply merge_snoc|].
  by rewrite app_nil_r.
Qed.

(** A piece that does not merge is appended. *)
Definition is_fragment (p : Piece) : bool :=
  match p with PieceText _ | PieceThinking _ => true | _ => false end.

Lemma push_plain l p : is_fragment p = false → push l p = l ++ [p].
Proof.
  intros Hp. induction l as [|q [|x l] IH]; [done|by destruct q, p|].
  change (q :: push (x :: l) p = q :: (x :: l) ++ [p]). by rewrite IH.
Qed.

(** A fragment changes no other kind of piece. *)
Lemma push_fragment l p k q :
  is_fragment p = true → is_fragment q = false → push l p !! k = Some q ↔ l !! k = Some q.
Proof.
  intros Hp Hq. revert k. induction l as [|x [|y l] IH]; intros k.
  - simpl. destruct k as [|[|k]]; simpl; split; intros ?; simplify_eq; by rewrite Hp in Hq.
  - simpl. destruct x, p; simpl in *; try done; destruct k as [|[|k]]; simpl; naive_solver.
  - destruct k as [|k]; [done|apply IH].
Qed.

(** ** What an attempt holds of the body it processed *)

Definition pending_of (l : list ModelEvent) (ids : HostedIds) (p : Piece) (c : PendingContent)
    : Prop :=
  match p with
  | PieceText text => c = PendText text
  | PieceThinking text => c = PendThinking text
  | PieceTool i => ∃ id, c = PendTool id (completion_of l i)
  | PieceHosted i =>
      ∃ id, c = PendHosted id (hosted_completion_of l i) ∧
        ∀ call, hosted_completion_of l i = Some call → ids !! hc_provider_call_id call = Some id
  | PieceCitation citation => c = PendCitation citation
  end.

Definition same_completions (l l' : list ModelEvent) : Prop :=
  ∀ i, completion_of l' i = completion_of l i ∧
       hosted_completion_of l' i = hosted_completion_of l i.

Lemma pending_of_mono l l' ids ids' p c :
  same_completions l l' → ids ⊆ ids' → pending_of l ids p c → pending_of l' ids' p c.
Proof.
  intros Hl Hids. destruct p as [| |i|i|]; simpl; [done|done| | |done].
  - destruct (Hl i) as [-> _]. done.
  - destruct (Hl i) as [_ ->]. intros (id & -> & Hid). exists id. split; [done|].
    intros call Hc. eapply lookup_weaken; [by apply Hid|done].
Qed.

Lemma head_snoc {A} (l : list A) x : head (l ++ [x]) = match head l with Some y => Some y | None => Some x end.
Proof. by destruct l. Qed.

Lemma completion_snoc l e i :
  completion_of (l ++ [e]) i =
  match completion_of l i with
  | Some c => Some c
  | None => match e with
            | ModelToolCallCompleted c => if decide (tc_index c = i) then Some c else None
            | _ => None
            end
  end.
Proof.
  unfold completion_of. rewrite omap_snoc. case_match; [apply head_snoc|].
  rewrite app_nil_r. by destruct (head _).
Qed.

Lemma hosted_completion_snoc l e i :
  hosted_completion_of (l ++ [e]) i =
  match hosted_completion_of l i with
  | Some c => Some c
  | None => match e with
            | ModelHostedToolCompleted c => if decide (hc_index c = i) then Some c else None
            | _ => None
            end
  end.
Proof.
  unfold hosted_completion_of. rewrite omap_snoc. case_match; [apply head_snoc|].
  rewrite app_nil_r. by destruct (head _).
Qed.

Lemma same_completions_snoc l e :
  client_end e = None → hosted_end e = None → same_completions l (l ++ [e]).
Proof.
  intros Hc Hh i. rewrite completion_snoc, hosted_completion_snoc.
  split; [destruct (completion_of l i)|destruct (hosted_completion_of l i)]; by destruct e.
Qed.

(** A delta joins the last fragment of its kind, or starts one. *)
Definition fragment (thinking : bool) (delta : string) : Piece :=
  if thinking then PieceThinking delta else PieceText delta.

Lemma push_snoc l q p : push (l ++ [q]) p = l ++ join q [p].
Proof.
  induction l as [|x [|y l] IH]; [done|done|].
  change (x :: push ((y :: l) ++ [q]) p = x :: (y :: l) ++ join q [p]). by rewrite IH.
Qed.

Lemma append_text_snoc cs c delta thinking :
  (append_text (cs ++ [c]) delta thinking).1 =
  match c, thinking with
  | PendText text, false => cs ++ [PendText (text ++ delta)]
  | PendThinking text, true => cs ++ [PendThinking (text ++ delta)]
  | _, _ => cs ++ [c; pending_text delta thinking]
  end.
Proof.
  assert (∀ c', <[(length (cs ++ [c]) - 1)%nat := c']> (cs ++ [c]) = cs ++ [c']) as Hins.
  { intros c'. rewrite length_app. simpl. replace (length cs + 1 - 1)%nat with (length cs + 0)%nat by lia.
    by rewrite insert_app_r. }
  unfold append_text. rewrite last_snoc.
  destruct c, thinking; simpl; rewrite ?Hins, <- ?(assoc_L (++)); done.
Qed.

Lemma append_pending l ids skel content delta thinking :
  Forall2 (pending_of l ids) skel content →
  Forall2 (pending_of l ids) (push skel (fragment thinking delta))
    (append_text content delta thinking).1.
Proof.
  intros Hf. destruct content as [|c cs _] using rev_ind.
  - apply Forall2_nil_inv_r in Hf as ->. destruct thinking; by repeat constructor.
  - apply Forall2_app_inv_r in Hf as (sk & last & Hf & Hlast & ->).
    apply Forall2_cons_inv_r in Hlast as (q & ? & Hq & ->%Forall2_nil_inv_r & ->).
    rewrite push_snoc, append_text_snoc.
    assert (∀ x y, pending_of l ids x y → Forall2 (pending_of l ids) (sk ++ [x]) (cs ++ [y]))
      as Hone by (intros; by apply Forall2_app; [|repeat constructor]).
    assert (∀ y, pending_of l ids q y → pending_of l ids (fragment thinking delta)
              (pending_text delta thinking) → Forall2 (pending_of l ids)
              (sk ++ [q; fragment thinking delta]) (cs ++ [y; pending_text delta thinking])) as Htwo
      by (intros; by apply Forall2_app; [|repeat constructor]).
    destruct q as [| |i|i|], thinking; simpl in Hq; try subst c;
      try (destruct Hq as (id & -> & ?)); try (destruct Hq as (id & ->)); simpl;
      first [by apply Hone|apply Htwo; [simpl; eauto|done]].
Qed.

(** Where the pieces of one constructor are. *)
Definition places (P : ModelStreamIndex → Piece) (skel : list Piece) (m : Positions) : Prop :=
  ∀ i k, m !! i = Some k ↔ skel !! k = Some (P i).

Lemma places_insert P `{!Inj (=) (=) P} skel m j :
  places P skel m → m !! j = None → places P (skel ++ [P j]) (<[j := length skel]> m).
Proof.
  intros Hm Hj i k. rewrite lookup_insert_Some, lookup_app_Some, (Hm i k). split.
  - intros [[<- <-]|[_ Hk]]; [|by left]. right. by rewrite Nat.sub_diag.
  - intros [Hk|[Hlen Hk]].
    + right. split; [|done]. intros <-. apply Hm in Hk. congruence.
    + apply list_lookup_singleton_Some in Hk as [Hk ->%(inj P)]. left. split; [done|lia].
Qed.

Lemma places_other P skel m p :
  (∀ i, p ≠ P i) → places P skel m → places P (skel ++ [p]) m.
Proof.
  intros Hp Hm i k. rewrite (Hm i k), lookup_app_Some. split; [by left|].
  intros [?|[_ [_ Hk]%list_lookup_singleton_Some]]; [done|]. by destruct (Hp i).
Qed.

Lemma places_fragment P skel m p :
  is_fragment p = true → (∀ i, is_fragment (P i) = false) → places P skel m →
  places P (push skel p) m.
Proof. intros Hp HP Hm i k. by rewrite (Hm i k), push_fragment. Qed.

#[local] Instance PieceTool_inj : Inj (=) (=) PieceTool.
Proof. by intros i j [= ->]. Qed.
#[local] Instance PieceHosted_inj : Inj (=) (=) PieceHosted.
Proof. by intros i j [= ->]. Qed.

Section attempt.
Context `{Codec, Display}.

(** The bytes a pending block is charged for. *)
Definition pending_bytes (ids : HostedIds) (c : PendingContent) : option N :=
  match c with
  | PendText text | PendThinking text => Some (str_len text)
  | PendTool _ _ | PendHosted _ None => Some 0%N
  | PendHosted id (Some call) =>
      match hosted_activity id call with
      | Ok activity => encoded_block_len (HostedTool activity)
      | Err _ => None
      end
  | PendCitation citation =>
      match canonical_citation citation ids with
      | Ok canonical => encoded_block_len (Citation canonical)
      | Err _ => None
      end
  end.

Definition total (ns : list N) : N := foldr N.add 0%N ns.

Definition measured (ids : HostedIds) (content : list PendingContent) (n : N) : Prop :=
  ∃ ns, Forall2 (λ c b, pending_bytes ids c = Some b) content ns ∧ n = total ns.

Lemma total_app l k : total (l ++ k) = (total l + total k)%N.
Proof. induction l as [|n l IH]; simpl; [done|]. unfold total in *. simpl. lia. Qed.

Lemma measured_append ids content n c b :
  measured ids content n → pending_bytes ids c = Some b → measured ids (content ++ [c]) (n + b).
Proof.
  intros (ns & Hns & ->) Hc. exists (ns ++ [b]). split; [by apply Forall2_app; [|repeat constructor]|].
  rewrite total_app. unfold total. simpl. lia.
Qed.

Lemma pending_bytes_mono ids ids' c b :
  ids ⊆ ids' → pending_bytes ids c = Some b → pending_bytes ids' c = Some b.
Proof.
  intros Hids. destruct c as [| | | |citation]; simpl; try done. unfold canonical_citation.
  destruct (mc_provider_call_id citation) as [pid|]; [|done]. unfold result_bind, ok_or.
  destruct (ids !! pid) as [id|] eqn:Hid; [|done]. by rewrite (lookup_weaken _ _ _ _ Hid Hids).
Qed.

Lemma measured_mono ids ids' content n :
  ids ⊆ ids' → measured ids content n → measured ids' content n.
Proof.
  intros Hids (ns & Hns & ->). exists ns. split; [|done].
  eapply Forall2_impl; [done|]. intros c b. by apply pending_bytes_mono.
Qed.

Lemma measured_text ids content n delta thinking :
  measured ids content n →
  measured ids (append_text content delta thinking).1 (n + str_len delta).
Proof.
  assert (pending_bytes ids (pending_text delta thinking) = Some (str_len delta)) as Hd
    by by destruct thinking.
  intros Hm. destruct content as [|c cs _] using rev_ind; [by apply (measured_append _ [])|].
  rewrite append_text_snoc.
  assert (measured ids (cs ++ [c; pending_text delta thinking]) (n + str_len delta)) as Hnew.
  { rewrite cons_middle, (assoc_L (++)). by apply measured_append. }
  destruct Hm as (ns & Hns & ->). apply Forall2_app_inv_l in Hns as (ns1 & ns2 & Hns & Hlast & ->).
  apply Forall2_cons_inv_l in Hlast as (b & ? & Hb & ->%Forall2_nil_inv_l & ->).
  assert (∀ c', pending_bytes ids c' = Some (b + str_len delta)%N →
            measured ids (cs ++ [c']) (total (ns1 ++ [b]) + str_len delta)) as Hjoin.
  { intros c' Hc'. rewrite total_app. replace (total ns1 + total [b] + str_len delta)%N
      with (total ns1 + (b + str_len delta))%N by (unfold total; simpl; lia).
    apply measured_append; [by exists ns1|done]. }
  destruct c, thinking; try exact Hnew; apply Hjoin; simpl in *; simplify_eq;
    by rewrite str_len_app.
Qed.

Lemma total_insert ns k b : ns !! k = Some 0%N → total (<[k := b]> ns) = (total ns + b)%N.
Proof.
  revert k. induction ns as [|n ns IH]; intros [|k] Hk; simplify_eq/=; unfold total in *; simpl.
  - lia.
  - rewrite IH by done. lia.
Qed.

Lemma measured_complete ids content n k c c' b :
  measured ids content n → content !! k = Some c → pending_bytes ids c = Some 0%N →
  pending_bytes ids c' = Some b → measured ids (<[k := c']> content) (n + b).
Proof.
  intros (ns & Hns & ->) Hk Hc Hc'. exists (<[k := b]> ns). split.
  - by apply Forall2_insert.
  - destruct (Forall2_lookup_l _ _ _ _ _ Hns Hk) as (b0 & Hb & Hc0). simplify_eq.
    symmetry. apply total_insert. congruence.
Qed.

Lemma measured_uncharged ids content n k c c' :
  measured ids content n → content !! k = Some c → pending_bytes ids c = Some 0%N →
  pending_bytes ids c' = Some 0%N → measured ids (<[k := c']> content) n.
Proof. intros Hm Hk Hc Hc'. rewrite <- (N.add_0_r n). by eapply measured_complete. Qed.

(** What an attempt whose processed body is [l] holds. *)
Record holds (budget : N) (l : list ModelEvent) (a : TurnAttempt) : Prop := {
  h_content : Forall2 (pending_of l (at_hosted_ids a)) (skeleton l) (at_content a);
  h_tools : places PieceTool (skeleton l) (at_tool_positions a);
  h_hosted : places PieceHosted (skeleton l) (at_hosted_positions a);
  h_completed : ∀ i, completion_of l i ≠ None → at_tool_positions a !! i ≠ None;
  h_hosted_completed : ∀ i, hosted_completion_of l i ≠ None → at_hosted_positions a !! i ≠ None;
  h_open : ∀ i pid name, hosted_open l i (pid, name) →
    ∃ k id, at_hosted_positions a !! i = Some k ∧
      at_content a !! k = Some (PendHosted id None) ∧ at_hosted_ids a !! pid = Some id;
  h_bytes : measured (at_hosted_ids a) (at_content a) (at_output_bytes a);
  h_budget : (at_output_bytes a ≤ budget ∧ at_output_bytes a ≤ U64_MAX)%N
}.

Lemma holds_new budget : holds budget [] attempt_new.
Proof.
  split; try done; simpl.
  - intros i pid name (l1 & e & l2 & Heq & _). by destruct l1.
  - by exists [].
  - lia.
Qed.

Lemma add_output_ok n d budget m :
  add_output n d budget = Ok m → m = (n + d)%N ∧ (m ≤ budget ∧ m ≤ U64_MAX)%N.
Proof.
  unfold add_output, checked_add_u64. intros (t & Ht%ok_or_ok & Hm)%result_bind_ok.
  destruct (_ <=? U64_MAX)%N eqn:Hmax; simplify_eq. apply N.leb_le in Hmax.
  apply result_bind_ok in Hm as (u & Hb%ensure_ok & [= <-]). apply N.leb_le in Hb. by split_and!.
Qed.

(** *** One event *)

Lemma append_text_hosted content delta thinking k id o :
  content !! k = Some (PendHosted id o) →
  (append_text content delta thinking).1 !! k = Some (PendHosted id o).
Proof.
  destruct content as [|c cs _] using rev_ind; [done|]. rewrite append_text_snoc.
  intros [Hk|[Hk Hc]]%lookup_app_Some.
  - destruct c, thinking; simpl; by apply lookup_app_l_Some.
  - apply list_lookup_singleton_Some in Hc as [Hc ->].
    assert (k = length cs) as -> by lia. destruct thinking; simpl; by rewrite list_lookup_middle.
Qed.

Lemma hosted_open_other l e i call :
  hosted_start e = None → hosted_open (l ++ [e]) i call → hosted_open l i call.
Proof. intros Hs. rewrite opened_snoc, Hs. naive_solver. Qed.

Lemma completed_other l l' (m : Positions) (P : ModelStreamIndex → Prop) :
  same_completions l l' → (∀ i, completion_of l i ≠ None → m !! i ≠ None) →
  ∀ i, completion_of l' i ≠ None → m !! i ≠ None.
Proof. intros Hl Hm i. destruct (Hl i) as [-> _]. apply Hm. Qed.

Lemma holds_delta budget l a e delta thinking bytes :
  piece_of e = Some (fragment thinking delta) → holds budget l a →
  add_output (at_output_bytes a) (str_len delta) budget = Ok bytes →
  holds budget (l ++ [e]) (set_content (append_text (at_content a) delta thinking).1 bytes a).
Proof.
  intros He [] [-> Hmax]%add_output_ok.
  assert (is_fragment (fragment thinking delta) = true) as Hfrag by by destruct thinking.
  assert (same_completions l (l ++ [e])) as Hl
    by (apply same_completions_snoc; destruct e, thinking; done).
  assert (hosted_start e = None) as Hs by by destruct e, thinking.
  split; simpl; rewrite ?skeleton_snoc, ?He; try done.
  - apply append_pending. eapply Forall2_impl; [done|]. intros p c. by apply pending_of_mono.
  - by apply places_fragment.
  - by apply places_fragment.
  - intros i. destruct (Hl i) as [-> _]. apply h_completed0.
  - intros i. destruct (Hl i) as [_ ->]. apply h_hosted_completed0.
  - intros i pid name (k & id & Hi & Hk & Hp)%hosted_open_other%h_open0; [|done].
    exists k, id. split_and!; [done| |done]. by apply append_text_hosted.
  - by apply measured_text.
Qed.

Lemma holds_arguments budget l a d :
  holds budget l a → holds budget (l ++ [ModelToolArgumentsDelta d]) a.
Proof.
  intros []. assert (same_completions l (l ++ [ModelToolArgumentsDelta d])) as Hl
    by by apply same_completions_snoc.
  split; rewrite ?skeleton_snoc; simpl; try done.
  - eapply Forall2_impl; [done|]. intros p c. by apply pending_of_mono.
  - intros i. destruct (Hl i) as [-> _]. apply h_completed0.
  - intros i. destruct (Hl i) as [_ ->]. apply h_hosted_completed0.
  - intros i pid name Ho%hosted_open_other; [|done]. by eapply h_open0.
Qed.

(** A block after the others. *)
Lemma append_piece budget l a e p c ids :
  holds budget l a → same_completions l (l ++ [e]) → at_hosted_ids a ⊆ ids →
  pending_of (l ++ [e]) ids p c → piece_of e = Some p → is_fragment p = false →
  Forall2 (pending_of (l ++ [e]) ids) (skeleton (l ++ [e])) (at_content a ++ [c]).
Proof.
  intros [] Hl Hids Hc Hp Hfrag. rewrite skeleton_snoc, Hp, push_plain by done.
  apply Forall2_app; [|by repeat constructor].
  eapply Forall2_impl; [done|]. intros q x. by apply pending_of_mono.
Qed.

Lemma open_appended budget l a c :
  holds budget l a → ∀ i pid name, hosted_open l i (pid, name) →
  ∃ k id, at_hosted_positions a !! i = Some k ∧
    (at_content a ++ [c]) !! k = Some (PendHosted id None) ∧ at_hosted_ids a !! pid = Some id.
Proof.
  intros [] i pid name (k & id & Hi & Hk & Hp)%h_open0. exists k, id.
  split_and!; [done| |done]. by apply lookup_app_l_Some.
Qed.

Lemma length_skeleton budget l a : holds budget l a → length (at_content a) = length (skeleton l).
Proof. intros []. symmetry. by eapply Forall2_length. Qed.

Lemma not_completed l (m : Positions) i :
  (completion_of l i ≠ None → m !! i ≠ None) → m !! i = None → completion_of l i = None.
Proof. destruct (completion_of l i); [|done]. intros Hm Hi. by destruct Hm. Qed.

Lemma not_hosted_completed l (m : Positions) i :
  (hosted_completion_of l i ≠ None → m !! i ≠ None) → m !! i = None →
  hosted_completion_of l i = None.
Proof. destruct (hosted_completion_of l i); [|done]. intros Hm Hi. by destruct Hm. Qed.

Lemma holds_start_tool budget l a call id :
  holds budget l a → at_tool_positions a !! ts_index call = None →
  holds budget (l ++ [ModelToolCallStarted call])
    (set_content (at_content a ++ [PendTool id None]) (at_output_bytes a)
       (set_tool_positions (<[ts_index call := length (at_content a)]> (at_tool_positions a)) a)).
Proof.
  intros Hh Hi. assert (same_completions l (l ++ [ModelToolCallStarted call])) as Hl
    by by apply same_completions_snoc.
  rewrite (length_skeleton _ _ _ Hh). pose proof (open_appended _ _ _ (PendTool id None) Hh) as Ho.
  split; simpl.
  - eapply append_piece; try done. simpl. exists id. destruct (Hl (ts_index call)) as [-> _].
    by rewrite (not_completed _ _ _ (h_completed _ _ _ Hh _) Hi).
  - rewrite skeleton_snoc. simpl. rewrite push_plain by done. apply (places_insert PieceTool); [|done]. apply Hh.
  - rewrite skeleton_snoc. simpl. rewrite push_plain by done. apply places_other; [done|]. apply Hh.
  - intros i. destruct (Hl i) as [-> _]. intros Hc. rewrite lookup_insert_None.
    intros [Hm _]. by apply (h_completed _ _ _ Hh i Hc).
  - intros i. destruct (Hl i) as [_ ->]. apply Hh.
  - intros i pid name Hop%hosted_open_other; [|done]. by eapply Ho.
  - rewrite <- (N.add_0_r (at_output_bytes a)). apply measured_append; [apply Hh|done].
  - apply Hh.
Qed.

Lemma holds_start_hosted budget l a call id :
  holds budget l a → at_hosted_positions a !! hs_index call = None →
  at_hosted_ids a !! hs_provider_call_id call = None →
  holds budget (l ++ [ModelHostedToolStarted call])
    (set_content (at_content a ++ [PendHosted id None]) (at_output_bytes a)
       (set_hosted (<[hs_index call := length (at_content a)]> (at_hosted_positions a))
          (<[hs_provider_call_id call := id]> (at_hosted_ids a)) a)).
Proof.
  intros Hh Hi Hid. assert (same_completions l (l ++ [ModelHostedToolStarted call])) as Hl
    by by apply same_completions_snoc.
  assert (at_hosted_ids a ⊆ <[hs_provider_call_id call := id]> (at_hosted_ids a)) as Hids
    by by apply insert_subseteq.
  pose proof (open_appended _ _ _ (PendHosted id None) Hh) as Ho.
  pose proof (length_skeleton _ _ _ Hh) as Hlen.
  assert (hosted_completion_of l (hs_index call) = None) as Hnone
    by by apply (not_hosted_completed _ _ _ (h_hosted_completed _ _ _ Hh _)).
  split; simpl.
  - eapply append_piece; try done. simpl. exists id. destruct (Hl (hs_index call)) as [_ ->].
    by rewrite Hnone.
  - rewrite skeleton_snoc. simpl. rewrite push_plain by done. apply places_other; [done|]. apply Hh.
  - rewrite skeleton_snoc, Hlen. simpl. rewrite push_plain by done. apply (places_insert PieceHosted); [|done].
    apply Hh.
  - intros i. destruct (Hl i) as [-> _]. apply Hh.
  - intros i. destruct (Hl i) as [_ ->]. intros Hc. rewrite lookup_insert_None.
    intros [Hm _]. by apply (h_hosted_completed _ _ _ Hh i Hc).
  - intros i pid name. rewrite opened_snoc. simpl. intros [[= <- <- <-]|[Hop _]].
    + exists (length (at_content a)), id. rewrite !lookup_insert_eq.
      split_and!; [done| |done]. by apply list_lookup_middle.
    + apply Ho in Hop as (k & id' & Hk & Hc & Hp). exists k, id'. split_and!; [|done|].
      * rewrite lookup_insert_ne; [done|congruence].
      * rewrite lookup_insert_ne; [done|congruence].
  - rewrite <- (N.add_0_r (at_output_bytes a)). apply measured_append; [|done].
    eapply measured_mono; [done|apply Hh].
  - apply Hh.
Qed.
Lemma Forall2_insert_changed {A B} (R R' : A → B → Prop) l1 l2 k x y :
  Forall2 R l1 l2 → l1 !! k = Some x → R' x y →
  (∀ j x y, j ≠ k → l1 !! j = Some x → R x y → R' x y) → Forall2 R' l1 (<[k := y]> l2).
Proof.
  intros Hf Hk Hy Hother. apply Forall2_same_length_lookup. split.
  { rewrite length_insert. by eapply Forall2_length. }
  intros j x' y' Hx. rewrite list_lookup_insert_Some. intros [(<- & <- & _)|[Hne Hy']].
  - by simplify_eq.
  - eapply Hother; [done|done|]. by eapply Forall2_lookup_lr.
Qed.

(** The completion of one call leaves what the others stand for. *)
Lemma pending_of_complete_tool l call ids i p c :
  p ≠ PieceTool i → tc_index call = i → pending_of l ids p c →
  pending_of (l ++ [ModelToolCallCompleted call]) ids p c.
Proof.
  intros Hp Hi. destruct p as [| |j|j|]; simpl; try done.
  - rewrite completion_snoc. destruct (completion_of l j); [done|].
    rewrite decide_False by congruence. done.
  - rewrite hosted_completion_snoc. by destruct (hosted_completion_of l j).
Qed.

Lemma pending_of_complete_hosted l call ids i p c :
  p ≠ PieceHosted i → hc_index call = i → pending_of l ids p c →
  pending_of (l ++ [ModelHostedToolCompleted call]) ids p c.
Proof.
  intros Hp Hi. destruct p as [| |j|j|]; simpl; try done.
  - rewrite completion_snoc. by destruct (completion_of l j).
  - rewrite hosted_completion_snoc. destruct (hosted_completion_of l j); [done|].
    rewrite decide_False by congruence. done.
Qed.

Lemma complete_tool_ok content positions call content' :
  complete_tool content positions call = Ok content' →
  ∃ k id, positions !! tc_index call = Some k ∧ content !! k = Some (PendTool id None) ∧
    content' = <[k := PendTool id (Some call)]> content.
Proof.
  unfold complete_tool. intros (k & Hk%ok_or_ok & Hc)%result_bind_ok.
  destruct (content !! k) as [[| |id [c|]| |]|] eqn:Hcont; simplify_eq. by exists k, id.
Qed.

Lemma complete_hosted_tool_ok content positions call content' :
  complete_hosted_tool content positions call = Ok content' →
  ∃ k id, positions !! hc_index call = Some k ∧ content !! k = Some (PendHosted id None) ∧
    content' = <[k := PendHosted id (Some call)]> content.
Proof.
  unfold complete_hosted_tool. intros (k & Hk%ok_or_ok & Hc)%result_bind_ok.
  destruct (content !! k) as [[| | |id [c|]|]|] eqn:Hcont; simplify_eq. by exists k, id.
Qed.

Lemma pending_at budget l a k c p :
  holds budget l a → at_content a !! k = Some c → skeleton l !! k = Some p →
  pending_of l (at_hosted_ids a) p c.
Proof. intros Hh Hc Hp. exact (Forall2_lookup_lr _ _ _ _ _ _ (h_content _ _ _ Hh) Hp Hc). Qed.

Lemma holds_complete_tool budget l a call content :
  holds budget l a → complete_tool (at_content a) (at_tool_positions a) call = Ok content →
  holds budget (l ++ [ModelToolCallCompleted call]) (set_content content (at_output_bytes a) a).
Proof.
  intros Hh (k & id & Hk & Hc & ->)%complete_tool_ok.
  assert (skeleton l !! k = Some (PieceTool (tc_index call))) as Hp by by apply Hh.
  destruct (pending_at _ _ _ _ _ _ Hh Hc Hp) as (id' & [= <- Hnone]).
  split; simpl; rewrite ?skeleton_snoc; simpl; try apply Hh.
  - eapply Forall2_insert_changed; [apply Hh|done| |].
    + simpl. exists id. by rewrite completion_snoc, <- Hnone, decide_True.
    + intros j q c Hj Hq. apply (pending_of_complete_tool _ _ _ (tc_index call)); [|done].
      intros ->. apply (h_tools _ _ _ Hh) in Hq. congruence.
  - intros i. rewrite completion_snoc. destruct (completion_of l i) eqn:Hi.
    + intros _. apply (h_completed _ _ _ Hh). by rewrite Hi.
    + case_decide as Hidx; [|done]. intros _. subst i. by rewrite Hk.
  - intros i. rewrite hosted_completion_snoc. intros Hi. apply (h_hosted_completed _ _ _ Hh).
    by destruct (hosted_completion_of l i).
  - intros i pid name (j & id' & Hj & Hcj & Hpid)%hosted_open_other%(h_open _ _ _ Hh); [|done].
    exists j, id'. split_and!; [done| |done]. rewrite list_lookup_insert_ne; [done|congruence].
  - eapply measured_uncharged; [apply Hh|done..].
Qed.

Lemma hosted_block_bytes_ok content positions call k id bytes :
  hosted_block_bytes content positions call = Ok bytes → positions !! hc_index call = Some k →
  content !! k = Some (PendHosted id None) →
  ∃ activity, hosted_activity id call = Ok activity ∧
    encoded_block_len (HostedTool activity) = Some bytes.
Proof.
  unfold hosted_block_bytes. intros (k' & Hk'%ok_or_ok & Hb)%result_bind_ok Hk Hc.
  rewrite Hk' in Hk. simplify_eq. rewrite Hc in Hb.
  apply result_bind_ok in Hb as (activity & Ha & Hb%ok_or_ok). by exists activity.
Qed.

Lemma holds_complete_hosted budget l a call content block_bytes bytes :
  holds budget l a → event_allowed l (ModelHostedToolCompleted call) →
  hosted_block_bytes (at_content a) (at_hosted_positions a) call = Ok block_bytes →
  add_output (at_output_bytes a) block_bytes budget = Ok bytes →
  complete_hosted_tool (at_content a) (at_hosted_positions a) call = Ok content →
  holds budget (l ++ [ModelHostedToolCompleted call]) (set_content content bytes a).
Proof.
  intros Hh Hallowed Hblock [-> Hmax]%add_output_ok (k & id & Hk & Hc & ->)%complete_hosted_tool_ok.
  destruct (hosted_block_bytes_ok _ _ _ _ _ _ Hblock Hk Hc) as (activity & Ha & Hlen).
  assert (skeleton l !! k = Some (PieceHosted (hc_index call))) as Hp by by apply Hh.
  destruct (pending_at _ _ _ _ _ _ Hh Hc Hp) as (id' & [= <- Hnone] & _).
  destruct (h_open _ _ _ Hh _ _ _ Hallowed) as (k' & id' & Hk' & Hc' & Hid').
  assert (k' = k) as -> by congruence. assert (id' = id) as -> by congruence.
  split; simpl; rewrite ?skeleton_snoc; simpl; try apply Hh.
  - eapply Forall2_insert_changed; [apply Hh|done| |].
    + simpl. exists id. rewrite hosted_completion_snoc, <- Hnone, decide_True by done.
      split; [done|]. by intros ? [= <-].
    + intros j q c Hj Hq. apply (pending_of_complete_hosted _ _ _ (hc_index call)); [|done].
      intros ->. apply (h_hosted _ _ _ Hh) in Hq. congruence.
  - intros i. rewrite completion_snoc. intros Hi. apply (h_completed _ _ _ Hh).
    by destruct (completion_of l i).
  - intros i. rewrite hosted_completion_snoc. destruct (hosted_completion_of l i) eqn:Hi.
    + intros _. apply (h_hosted_completed _ _ _ Hh). by rewrite Hi.
    + case_decide as Hidx; [|done]. intros _. subst i. by rewrite Hk'.
  - intros i pid name. rewrite opened_snoc. simpl. intros [|[Hop Hi]]; [done|].
    destruct (h_open _ _ _ Hh _ _ _ Hop) as (j & id' & Hj & Hcj & Hpid).
    exists j, id'. split_and!; [done| |done]. rewrite list_lookup_insert_ne; [done|]. intros <-.
    apply (h_hosted _ _ _ Hh) in Hj. congruence.
  - eapply measured_complete; [apply Hh|done|done|]. simpl. by rewrite Ha.
  - done.
Qed.

Lemma holds_citation budget l a citation canonical block_bytes bytes :
  holds budget l a → canonical_citation citation (at_hosted_ids a) = Ok canonical →
  encoded_block_len (Citation canonical) = Some block_bytes →
  add_output (at_output_bytes a) block_bytes budget = Ok bytes →
  holds budget (l ++ [ModelSourceCited citation])
    (set_content (at_content a ++ [PendCitation citation]) bytes a).
Proof.
  intros Hh Hcan Hlen [-> Hmax]%add_output_ok.
  assert (same_completions l (l ++ [ModelSourceCited citation])) as Hl
    by by apply same_completions_snoc.
  pose proof (open_appended _ _ _ (PendCitation citation) Hh) as Ho.
  split; simpl.
  - by apply (append_piece budget _ _ _ (PieceCitation citation)).
  - rewrite skeleton_snoc. simpl. rewrite push_plain by done. apply places_other; [done|]. apply Hh.
  - rewrite skeleton_snoc. simpl. rewrite push_plain by done. apply places_other; [done|]. apply Hh.
  - intros i. destruct (Hl i) as [-> _]. apply Hh.
  - intros i. destruct (Hl i) as [_ ->]. apply Hh.
  - intros i pid name Hop%hosted_open_other; [|done]. by eapply Ho.
  - apply measured_append; [apply Hh|]. simpl. by rewrite Hcan.
  - done.
Qed.
End attempt.

(** ** The streaming loop *)

Lemma k_lift_ok {A} (r : Result KernelError A) a w w' :
  k_lift r w = (Ok a, w') ↔ r = Ok a ∧ w' = w.
Proof. unfold k_lift. by rewrite st_lift_ok, map_err_ok. Qed.

Ltac k_inv :=
  repeat first
    [ st_inv_step
    | match goal with
      | H : k_lift _ _ = (Ok _, _) |- _ => apply k_lift_ok in H; destruct H; subst
      | H : k_from _ _ _ = (Ok _, _) |- _ => apply k_lift_ok in H; destruct H; subst
      | H : map_err _ _ = Ok _ |- _ => apply map_err_ok in H
      | H : context [from_model _] |- _ => unfold from_model in H
      | H : context [from_error _ _] |- _ => unfold from_error in H
      | H : Err _ = Ok _ |- _ => discriminate H
      | H : raise _ _ _ = (Ok _, _) |- _ => discriminate H
      end ].

Section stream.
Context `{Codec, Display, KernelPorts}.
Context (provider : ModelProvider) (request : ModelRequest) (hosted : list ToolName).
Context (message_id : MessageId) (run_id : RunId) (turn_id : TurnId) (budget : N).
Context (retry : ModelRetryPolicy).

Notation apply_event := (apply_model_event hosted message_id run_id turn_id budget).
Notation poll := (poll_model hosted message_id run_id turn_id budget).

Lemma apply_event_holds l a e w a' w' :
  is_body e = true → event_allowed l e → holds budget l a →
  apply_event a e w = (Ok a', w') →
  holds budget (l ++ [e]) a' ∧ at_completion a' = at_completion a.
Proof.
  intros He Hallowed Hh Ha.
  destruct e as [info|d|d|c|d|c|c|c|c|c|f]; try done; simpl in Ha;
    unfold push_delta, start_tool_call, start_hosted_tool, finish_hosted_tool, push_citation in Ha;
    k_inv; try (destruct (append_text (at_content a) _ _) as [content index] eqn:Happ; k_inv);
    bool_prop; (split; [|done]).
  - pose proof (holds_delta budget l a (ModelTextDelta d) _ false _ eq_refl Hh ltac:(eassumption))
      as Hnew. by rewrite Happ in Hnew.
  - pose proof (holds_delta budget l a (ModelThinkingDelta d) _ true _ eq_refl Hh
      ltac:(eassumption)) as Hnew. by rewrite Happ in Hnew.
  - by apply holds_start_tool.
  - by apply holds_arguments.
  - by apply holds_complete_tool.
  - by apply holds_start_hosted.
  - by eapply holds_complete_hosted.
  - by eapply holds_citation.
Qed.
Lemma poll_after_terminal rest v a w v' a' w' failed :
  mv_terminal v ≠ None → poll rest v a w = (Ok (v', a', failed), w') →
  rest = [] ∧ v' = v ∧ a' = a.
Proof.
  intros Hv. destruct rest as [|e rest]; simpl; intros Hp; k_inv; [by simplify_eq|].
  assert (model_observe e v = (Err EventAfterTerminalEvent, v)) as Ho.
  { unfold model_observe, st_bind, st_gets, st_ensure, st_lift, ensure.
    by rewrite bool_decide_false. }
  rewrite Ho in Hp. k_inv.
Qed.

(** A stream polled to its end, from a body [l] on. *)
Lemma poll_completed rest l v a w v' a' w' s :
  body_state l v → body_ok l → holds budget l a → at_completion a = None →
  poll rest v a w = (Ok (v', a', None), w') → model_finish v' = Ok s →
  ∃ body completion, rest = body ++ [ModelCompleted completion] ∧ body_ok (l ++ body) ∧
    terminal_allowed (l ++ body) (ModelCompleted completion) ∧ holds budget (l ++ body) a' ∧
    at_completion a' = Some completion.
Proof.
  revert l v a w. induction rest as [|e rest IH]; intros l v a w Hb Hok Hh Hnone Hp Hfin;
    simpl in Hp; k_inv.
  { simplify_eq. unfold model_finish in Hfin.
    by rewrite (bs_started _ _ Hb), (bs_terminal _ _ Hb) in Hfin. }
  destruct (is_body e) eqn:He.
  - pose proof (observe_body _ _ _ Hb He) as Ho.
    destruct (model_observe e v) as [[[]|err] v1]; k_inv; destruct Ho as [Hallowed Hb'].
    assert (∃ a1 w1 w2, apply_event a e w1 = (Ok a1, w2) ∧
              poll rest v1 a1 w2 = (Ok (v', a', None), w')) as (a1 & w1 & w2 & Ha & Hp')
      by (destruct e; try done; k_inv; eauto).
    destruct (apply_event_holds _ _ _ _ _ _ He Hallowed Hh Ha) as [Hh' Hc].
    destruct (IH _ _ _ _ Hb' (proj2 (body_ok_snoc _ _) (conj Hok Hallowed)) Hh'
                ltac:(by rewrite Hc) Hp' Hfin) as (body & c & -> & Hrest).
    exists (e :: body), c. rewrite (cons_middle e l body), (assoc_L (++)). done.
  - pose proof (observe_terminal _ _ _ Hb He) as Ho.
    destruct (model_observe e v) as [[[]|err] v1]; k_inv; destruct Ho as [Hallowed ->].
    destruct e as [| | | | | | | | |c|f]; try done; k_inv.
    eapply poll_after_terminal in Hp as (-> & -> & ->); [|done]. simpl in *. k_inv.
    exists [], c. rewrite app_nil_r. split_and!; try done. destruct Hh. by split.
Qed.
Lemma poll_stream events w v a w' s :
  poll events model_validator_new attempt_new w = (Ok (v, a, None), w') → model_finish v = Ok s →
  ∃ info body completion, events = ModelStarted info :: body ++ [ModelCompleted completion] ∧
    body_ok body ∧ terminal_allowed body (ModelCompleted completion) ∧ holds budget body a ∧
    at_completion a = Some completion.
Proof.
  intros Hp Hfin. destruct events as [|e events]; simpl in Hp; k_inv; [by simplify_eq|].
  destruct e as [info| | | | | | | | | |]; simpl in Hp; k_inv; try discriminate.
  simpl in *. k_inv.
  destruct (poll_completed _ _ _ _ _ _ _ _ _ body_state_start body_ok_nil (holds_new budget) eq_refl
              ltac:(eassumption) Hfin) as (body & c & -> & Hrest).
  by exists info, body, c.
Qed.

Lemma attempts_polled fuel attempt w out w' :
  stream_attempts provider request hosted message_id run_id turn_id budget retry fuel attempt w
    = (Ok out, w') →
  ∃ now v a w1 w2,
    poll (mp_stream provider now request) model_validator_new attempt_new w1 = (Ok (v, a, None), w2) ∧
    complete_attempt message_id v a w2 = (Ok out, w').
Proof.
  revert attempt w. induction fuel as [|fuel IH]; intros attempt w; simpl; intros Hs; k_inv.
  destruct a as [[v a] [failure|]].
  - case_match; k_inv. case_match; k_inv. by eapply IH.
  - unfold stream_attempt in *. k_inv. by eexists _, v, a, _, _.
Qed.
End stream.

(** ** The finished message *)

Section finish.
Context `{Codec, Display}.

(** A finished activity has the identity its provider call was given. *)
Lemma pending_of_hosted l ids p id call :
  pending_of l ids p (PendHosted id (Some call)) → ids !! hc_provider_call_id call = Some id.
Proof.
  destruct p; simpl; try done; [by intros [? [=]]|]. intros (id' & [= <- Hc] & Hid). by apply Hid.
Qed.

Lemma finished_at budget l a id call :
  holds budget l a → PendHosted id (Some call) ∈ at_content a →
  at_hosted_ids a !! hc_provider_call_id call = Some id.
Proof.
  intros Hh [k Hk]%list_elem_of_lookup.
  destruct (Forall2_lookup_r _ _ _ _ _ (h_content _ _ _ Hh) Hk) as (p & _ & Hp).
  by eapply pending_of_hosted.
Qed.

Lemma finished_ids_at budget l a pid id :
  holds budget l a → finished_hosted_ids (at_content a) !! pid = Some id →
  at_hosted_ids a !! pid = Some id.
Proof.
  intros Hh (c & Hin & Hc)%btree_collect_Some%list_elem_of_omap.
  destruct c as [| | |id' [call|]|]; simplify_eq/=. by eapply finished_at.
Qed.

Lemma finished_ids_sub budget l a :
  holds budget l a → finished_hosted_ids (at_content a) ⊆ at_hosted_ids a.
Proof. intros Hh. apply map_subseteq_spec. intros pid id. by eapply finished_ids_at. Qed.

Lemma finished_ids_has budget l a id call :
  holds budget l a → PendHosted id (Some call) ∈ at_content a →
  finished_hosted_ids (at_content a) !! hc_provider_call_id call = Some id.
Proof.
  intros Hh Hin.
  assert (is_Some (finished_hosted_ids (at_content a) !! hc_provider_call_id call)) as [id' Hid'].
  { apply (btree_collect_is_Some _ _ id), list_elem_of_omap. eexists. by split; [exact Hin|]. }
  rewrite Hid'. f_equal. apply (finished_ids_at _ _ _ _ _ Hh) in Hid'.
  pose proof (finished_at _ _ _ _ _ Hh Hin). congruence.
Qed.

Lemma canonical_citation_ok citation ids c :
  canonical_citation citation ids = Ok c ↔
  match mc_provider_call_id citation with
  | None => c = mc_citation citation
  | Some pid => ∃ id, ids !! pid = Some id ∧ c = citation_with_call (mc_citation citation) id
  end.
Proof.
  unfold canonical_citation. destruct (mc_provider_call_id citation) as [pid|]; [|naive_solver].
  rewrite result_bind_ok. setoid_rewrite ok_or_ok. naive_solver.
Qed.

(** The activity a completed call becomes. *)
Lemma hosted_activity_ok id call activity :
  hosted_activity id call = Ok activity →
  activity = mk_HostedToolActivity id (pti_str (hc_provider_call_id call)) (hc_tool_name call)
               (hc_arguments call) (hc_outcome call) (hc_sources call) (hc_continuation call).
Proof.
  unfold hosted_activity, from_model, from_error, activity_new. rewrite map_err_ok.
  intros Ha. by repeat (apply result_bind_ok in Ha as (? & _ & Ha)); simplify_eq.
Qed.

Lemma pending_block_of l ids p c b :
  pending_block ids c = Ok b → pending_of l ids p c → block_of l ids p b.
Proof.
  intros Hb Hp. destruct p as [text|text|i|i|citation]; simpl in *.
  - subst c. simpl in Hb. unfold from_model, from_error, block_text in Hb. rewrite map_err_ok in Hb.
    apply result_bind_ok in Hb as (? & _ & Hb). by simplify_eq.
  - subst c. simpl in Hb. unfold from_model, from_error, block_thinking in Hb.
    rewrite map_err_ok in Hb. apply result_bind_ok in Hb as (? & _ & Hb). by simplify_eq.
  - destruct Hp as (id & ->). destruct (completion_of l i) as [call|]; [|done].
    exists id, call. split; [done|]. simpl in Hb. unfold from_model, from_error, tool_call_inner in Hb.
    rewrite map_err_ok in Hb. apply result_bind_ok in Hb as (? & _ & Hb). by simplify_eq.
  - destruct Hp as (id & -> & Hid). destruct (hosted_completion_of l i) as [call|]; [|done].
    simpl in Hb. apply result_bind_ok in Hb as (activity & ->%hosted_activity_ok & [= <-]).
    exists id, call. by split_and!; [|apply Hid|].
  - subst c. simpl in Hb.
    apply result_bind_ok in Hb as (canonical & Hc%canonical_citation_ok & [= <-]).
    destruct (mc_provider_call_id citation); naive_solver.
Qed.
Lemma finished_pending budget l a :
  holds budget l a →
  Forall2 (pending_of l (finished_hosted_ids (at_content a))) (skeleton l) (at_content a).
Proof.
  intros Hh. apply Forall2_same_length_lookup. split; [apply (Forall2_length _ _ _ (h_content _ _ _ Hh))|].
  intros k p c Hp Hc. pose proof (pending_at _ _ _ _ _ _ Hh Hc Hp) as Hpc.
  destruct p as [| |i|i|]; simpl in *; try done.
  destruct Hpc as (id & -> & _). exists id. split; [done|]. intros call Hcall. rewrite Hcall in Hc.
  eapply finished_ids_has; [done|]. by eapply list_elem_of_lookup_2.
Qed.

Lemma pending_block_call ids c b : pending_block ids c = Ok b → block_call b = pending_call c.
Proof.
  intros Hb. destruct c as [text|text|id [call|]|id [call|]|citation]; simpl in *; try done;
    unfold from_model, from_error, block_text, block_thinking, tool_call_inner in Hb;
    rewrite ?map_err_ok in Hb; apply result_bind_ok in Hb as (? & _ & Hb); by simplify_eq.
Qed.

Lemma pending_block_bytes ids ids' c b n :
  pending_block ids c = Ok b → ids ⊆ ids' → pending_bytes ids' c = Some n →
  output_block_bytes b = Ok n.
Proof.
  intros Hb Hids Hn. destruct c as [text|text|id [call|]|id [call|]|citation]; simpl in *; try done;
    unfold from_model, from_error, block_text, block_thinking, tool_call_inner in Hb;
    rewrite ?map_err_ok in Hb; apply result_bind_ok in Hb as (x & Hx & Hb); simplify_eq/=.
  - done.
  - done.
  - done.
  - rewrite Hx in Hn. by rewrite Hn.
  - assert (canonical_citation citation ids' = Ok x) as Hx'; [|rewrite Hx' in Hn; by rewrite Hn].
    apply canonical_citation_ok in Hx. apply canonical_citation_ok.
    destruct (mc_provider_call_id citation); [|done]. destruct Hx as (id & Hid & ->).
    exists id. split; [|done]. by eapply lookup_weaken.
Qed.

Lemma checked_content_total content ns n :
  Forall2 (λ b m, output_block_bytes b = Ok m) content ns → (n + total ns ≤ U64_MAX)%N →
  checked_content_bytes n content = Ok (n + total ns)%N.
Proof.
  unfold checked_content_bytes, total. intros Hf. revert n.
  induction Hf as [|b m content ns Hb Hf IH]; intros n Hmax; simpl in *; [by rewrite N.add_0_r|].
  rewrite Hb. unfold result_bind at 2, checked_add_u64. simpl.
  rewrite (proj2 (N.leb_le (n + m) U64_MAX)) by lia. unfold result_bind. simpl. rewrite IH by lia.
  f_equal. lia.
Qed.

Lemma pending_calls ids cs bs :
  Forall2 (λ c b, pending_block ids c = Ok b) cs bs → omap pending_call cs = omap block_call bs.
Proof.
  induction 1 as [|c b cs bs Hb _ IH]; [done|]. simpl.
  rewrite (pending_block_call _ _ _ Hb). destruct (pending_call c); [f_equal|]; exact IH.
Qed.

Lemma pending_measured ids ids' cs bs n :
  Forall2 (λ c b, pending_block ids c = Ok b) cs bs → ids ⊆ ids' → measured ids' cs n →
  (n ≤ U64_MAX)%N → checked_content_bytes 0 bs = Ok n.
Proof.
  intros Hbs Hids (ns & Hns & ->) Hmax. rewrite (checked_content_total bs ns); [done| |done].
  clear Hmax. revert bs Hbs. induction Hns as [|c m cs ns Hc _ IH]; intros bs Hbs.
  - apply Forall2_nil_inv_l in Hbs as ->. constructor.
  - apply Forall2_cons_inv_l in Hbs as (b & bs' & Hb & Hbs & ->). constructor; [|by apply IH].
    by eapply pending_block_bytes.
Qed.

(** What finishing an attempt makes of it. *)
Lemma finish_turn_ok budget l a message_id now completion out :
  holds budget l a →
  finish_turn message_id now (at_content a) completion (at_output_bytes a) = Ok out →
  ∃ content,
    mo_message out = Assistant message_id content (mcp_stop_reason completion) now ∧
    mo_completion out = completion ∧
    Forall2 (block_of l (finished_hosted_ids (at_content a))) (skeleton l) content ∧
    mo_tool_calls out = omap block_call content ∧
    negb (is_empty (mo_tool_calls out)) = is_tool_use (mcp_stop_reason completion) ∧
    checked_content_bytes 0 content = Ok (mo_output_bytes out) ∧ (mo_output_bytes out ≤ budget)%N.
Proof.
  intros Hh. unfold finish_turn. cbv zeta.
  intros (content & Hcontent%result_map_ok & Hf)%result_bind_ok.
  apply result_bind_ok in Hf as (? & _ & Hf). apply result_bind_ok in Hf as (? & Huse%ensure_ok & Hf).
  apply result_bind_ok in Hf as (message & Hm & [= <-]).
  unfold from_model, from_error, message_assistant in Hm. rewrite map_err_ok in Hm.
  apply result_bind_ok in Hm as (? & _ & [= <-]). apply eqb_prop in Huse.
  exists content. simpl. split_and!; try done.
  - apply Forall2_same_length_lookup. pose proof (finished_pending _ _ _ Hh) as Hp. split.
    { by rewrite (Forall2_length _ _ _ Hp), (Forall2_length _ _ _ Hcontent). }
    intros k p b Hk Hb. destruct (Forall2_lookup_r _ _ _ _ _ Hcontent Hb) as (c & Hc & Hcb).
    eapply pending_block_of; [done|]. by eapply Forall2_lookup_lr.
  - by eapply pending_calls.
  - eapply pending_measured; [done|by eapply finished_ids_sub|apply Hh|apply Hh].
  - apply Hh.
Qed.
End finish.

(** ** Theorems *)

(** A message and its calls read off a stream; [ids] names the hosted calls. *)
Definition assembles (events : list ModelEvent) (out : ModelTurnOutput) : Prop :=
  ∃ ids id content timestamp,
    mo_message out = Assistant id content (mcp_stop_reason (mo_completion out)) timestamp ∧
    Forall2 (block_of events ids) (skeleton events) content ∧
    mo_tool_calls out = omap block_call content.

Lemma stream_reading info body completion :
  let events := ModelStarted info :: body ++ [ModelCompleted completion] in
  skeleton events = skeleton body ∧
  (∀ i, completion_of events i = completion_of body i) ∧
  (∀ i, hosted_completion_of events i = hosted_completion_of body i).
Proof.
  split_and!.
  - unfold skeleton. simpl. by rewrite omap_snoc, app_nil_r.
  - intros i. unfold completion_of. simpl. by rewrite omap_snoc, app_nil_r.
  - intros i. unfold hosted_completion_of. simpl. by rewrite omap_snoc, app_nil_r.
Qed.

Lemma block_of_stream info body completion ids p b :
  block_of body ids p b → block_of (ModelStarted info :: body ++ [ModelCompleted completion]) ids p b.
Proof.
  destruct (stream_reading info body completion) as (_ & Hc & Hh). cbv zeta in *.
  destruct p; simpl; try done; by rewrite ?Hc, ?Hh.
Qed.

Section turns.
Context `{Codec, Display, KernelPorts}.
Context (provider : ModelProvider) (snapshot : TurnRequestSnapshot).
Context (run_id : RunId) (turn_id : TurnId) (budget : N) (retry : ModelRetryPolicy).

(** A turn is one attempt, completed. *)
Lemma stream_turn_ok w out w' :
  stream_turn provider snapshot run_id turn_id budget retry w = (Ok out, w') →
  ∃ now info body completion a message_id timestamp,
    mp_stream provider now (tq_request snapshot)
      = ModelStarted info :: body ++ [ModelCompleted completion] ∧
    body_ok body ∧ terminal_allowed body (ModelCompleted completion) ∧ holds budget body a ∧
    finish_turn message_id timestamp (at_content a) completion (at_output_bytes a) = Ok out.
Proof.
  intros Hs. unfold stream_turn in Hs. k_inv.
  apply attempts_polled in Hs as (now & v & a' & w1 & w2 & Hp & Hc).
  unfold complete_attempt in Hc. k_inv.
  destruct (poll_stream _ _ _ _ _ _ _ _ _ _ _ Hp ltac:(eassumption))
    as (info & body & c & Heq & Hok & Ht & Hh & Hcompl). simplify_eq.
  by eexists now, info, body, _, a', _, _.
Qed.

(** C16: a completed model turn is its provider stream, read.  The stream obeys
    the grammar and ends in the completion the turn reports; the message has one
    block per run of adjacent deltas of one kind, per call, hosted activity and
    citation, in the order they started, each with what completed it; the calls
    the kernel executes are the calls of that message, and there are some exactly
    when the model stopped to use tools. *)
Theorem model_turn_assembles_stream w out w' :
  stream_turn provider snapshot run_id turn_id budget retry w = (Ok out, w') →
  ∃ now, let events := mp_stream provider now (tq_request snapshot) in
    grammatical events ∧ last events = Some (ModelCompleted (mo_completion out)) ∧
    assembles events out ∧
    (mo_tool_calls out ≠ [] ↔ mcp_stop_reason (mo_completion out) = StopToolUse).
Proof.
  intros (now & info & body & c & a & id & ts & Heq & Hok & Ht & Hh & Hf)%stream_turn_ok.
  exists now. cbv zeta. rewrite Heq.
  destruct (finish_turn_ok _ _ _ _ _ _ _ Hh Hf) as (content & Hm & Hc & Hblocks & Hcalls & Huse & _).
  rewrite Hc. split_and!.
  - by exists info, body, (ModelCompleted c).
  - by rewrite app_comm_cons, last_snoc.
  - exists (finished_hosted_ids (at_content a)), id, content, ts. rewrite Hc.
    split_and!; [done| |done]. destruct (stream_reading info body c) as [-> _].
    eapply Forall2_impl; [done|]. intros p b. apply block_of_stream.
  - destruct (mo_tool_calls out), (mcp_stop_reason c); simpl in Huse; naive_solver.
Qed.

(** C18: what a turn charged against the output budget while it streamed is what
    a resumed run counts in its committed message, and it is within the budget. *)
Theorem streamed_bytes_reconstructed w out w' :
  stream_turn provider snapshot run_id turn_id budget retry w = (Ok out, w') →
  ∃ id content reason timestamp,
    mo_message out = Assistant id content reason timestamp ∧
    checked_content_bytes 0 content = Ok (mo_output_bytes out) ∧ (mo_output_bytes out ≤ budget)%N.
Proof.
  intros (now & info & body & c & a & id & ts & Heq & Hok & Ht & Hh & Hf)%stream_turn_ok.
  destruct (finish_turn_ok _ _ _ _ _ _ _ Hh Hf) as (content & Hm & _ & _ & _ & _ & Hbytes).
  by exists id, content, (mcp_stop_reason c), ts.
Qed.
End turns.

(** ** A concrete turn *)

Module TurnSample.

#[export] Instance codec : Codec := {|
  json_len := λ _, Some 64%N;
  base64_decodes := λ _, true;
  parse_url := λ url, Some (mk_ParsedUrl "https" false (Some "example.org"%string) "" None url);
  json_parse := λ _, None;
  block_json_len := λ _, 64%N
|}.
#[export] Existing Instances KernelSample.display KernelSample.ports.

Definition client : ModelStreamIndex := mk_ModelStreamIndex 0.
Definition search : ModelStreamIndex := mk_ModelStreamIndex 1.
Definition client_id : ProviderToolCallId := mk_ProviderToolCallId "call_1".
Definition search_id : ProviderToolCallId := mk_ProviderToolCallId "search_1".
Definition page : ExternalSource := mk_ExternalSource "https://example.org/" None None.

(** A search whose result is cited, around a call and two joined deltas. *)
Definition events : list ModelEvent :=
  [ModelStarted (mk_ModelResponseInfo None None ∅);
   ModelHostedToolStarted (mk_HostedToolStarted search search_id "web");
   ModelToolCallStarted (mk_ToolCallStarted client client_id "read");
   ModelHostedToolCompleted
     (mk_HostedToolCompleted search search_id "web" (JObject []) HostedSuccess [page] None);
   ModelTextDelta (mk_Utf8Delta "rea"); ModelTextDelta (mk_Utf8Delta "ding");
   ModelSourceCited (mk_ModelSourceCitation (Some search_id)
     (mk_SourceCitation None page None None None None));
   ModelToolCallCompleted (mk_ToolCallCompleted client client_id "read" (JObject []));
   ModelCompleted (mk_ModelCompletion StopToolUse None None ∅)].

Definition provider : ModelProvider :=
  mk_ModelProvider (mk_selector "prov") [KernelSample.model] (λ _ _, Ok tt) (λ _ _, events).
Definition snapshot : TurnRequestSnapshot :=
  mk_TurnRequestSnapshot
    (mk_ModelRequest (mk_selector "m") None [] [] false None None None ∅)
    [mk_ToolName "read"] [mk_ToolName "web"] (SessionSequence_new 0).

Definition turn (budget : N) : Result Fault ModelTurnOutput * World :=
  stream_turn provider snapshot (mk_id 1) (mk_id 2) budget retry_policy_default
    (KernelSample.world []).

Definition output : ModelTurnOutput :=
  match (turn 1000).1 with
  | Ok out => out
  | Err _ => mk_ModelTurnOutput (User (mk_id 0) [] (Timestamp 0)) [] completion_completed 0
  end.

End TurnSample.

Section witnesses.
#[local] Existing Instances TurnSample.codec KernelSample.display KernelSample.ports.

Lemma sample_turn_completes : (TurnSample.turn 1000).1 = Ok TurnSample.output.
Proof. by vm_compute. Qed.

Lemma sample_turn :
  stream_turn TurnSample.provider TurnSample.snapshot (mk_id 1) (mk_id 2) 1000 retry_policy_default
    (KernelSample.world []) = (Ok TurnSample.output, (TurnSample.turn 1000).2).
Proof.
  pose proof sample_turn_completes as Hs. unfold TurnSample.turn in *.
  destruct (stream_turn _ _ _ _ _ _ _) as [r w']. simpl in *. by rewrite Hs.
Qed.

Lemma model_turn_assembles_stream_witness :
  mo_output_bytes TurnSample.output = 135%N ∧
  length (mo_tool_calls TurnSample.output) = 1 ∧
  ∃ now, grammatical (mp_stream TurnSample.provider now (tq_request TurnSample.snapshot)).
Proof.
  split_and!; [by vm_compute|by vm_compute|].
  destruct (model_turn_assembles_stream _ _ _ _ _ _ _ _ _ sample_turn) as (now & Hg & _).
  by exists now.
Defined.

(** With less budget than the stream needs, the turn fails. *)
Lemma streamed_bytes_reconstructed_witness :
  (match (TurnSample.turn 134).1 with Err (Raised e) => Some (ke_code e) | _ => None end)
    = Some CodeLimitExceeded ∧
  (mo_output_bytes TurnSample.output ≤ 1000)%N.
Proof.
  split; [by vm_compute|].
  destruct (streamed_bytes_reconstructed _ _ _ _ _ _ _ _ _ sample_turn)
    as (id & content & reason & ts & _ & _ & Hbytes). exact Hbytes.
Defined.
End witnesses.
