(* ===== verification/KernelRunTheorems.v ===== *)
(** * Kernel: the properties of runs

    The run loop of [KernelRun.v] against the triples of [KernelLogic.v]: runs
    and resumed runs terminate without a panic, execute only what policy or the
    resolved approval allowed and only after a durable start, and send only
    requests built from committed state that their provider accepts. *)

From S2P Require Import Prelude Protocol Tools Policy Approval ToolAudit SessionState Reducer.
From S2P Require Import ReducerReplay SessionInvariants SessionTheorems Artifact Store StoreTheorems.
From S2P Require Import Validation Usage.
From S2P Require Import ModelSpec Event Registry.
From S2P Require Import ModelStream ModelProvider KernelBase KernelConfig KernelMonad.
From S2P Require Import KernelRequest KernelTools KernelTurn KernelRun KernelLogic KernelTheorems.
Local Open Scope tea_scope.

Section handlers.
Context `{Codec, SchemaEngine, Display, KernelPorts}.
Context (kernel : AgentKernel) (X : Permits) (w0 : World).

Notation RI := (run_inv X w0).
Notation safe := (safe X w0).
Notation triple := (triple X w0).
Notation learns := (learns X w0).
Notation neutral := (neutral X w0).

Ltac k_bind lem := eapply neutral_bind; [apply lem|].
Ltac k_any lem := eapply (neutral_bind _ _ _ _ (λ _, True)); [by apply lem|intros ? _].
Ltac l_bind lem := eapply learns_neutral; [apply _|apply lem|].
Ltac l_any lem :=
  eapply (learns_neutral _ _ _ _ _ (λ _, True)); [apply _|by apply lem|intros ? _].
Ltac k_modify :=
  eapply neutral_bind; [apply (neutral_modify _ _ _ (λ _, True)); [|done]|intros _ _].

(** ** Model turns *)

Section stream.
Context (provider : ModelProvider) (request : ModelRequest) (hosted : list ToolName).
Context (message_id : MessageId) (run_id : RunId) (turn_id : TurnId) (budget : N).
Context (retry : ModelRetryPolicy).

Lemma neutral_model_signal : neutral check_model_signal (λ _, True).
Proof.
  k_any neutral_moment. case_match; [|by apply neutral_ret].
  case_match; apply neutral_raised.
Qed.

Lemma neutral_model_event a event :
  neutral (apply_model_event hosted message_id run_id turn_id budget a event) (λ _, True).
Proof.
  assert (∀ delta thinking,
    neutral (push_delta message_id run_id turn_id budget a delta thinking) (λ _, True)) as Hdelta.
  { intros delta thinking. k_any neutral_lift. destruct (append_text _ _ _) as [content index].
    k_any neutral_lift. k_any neutral_emit. by apply neutral_ret. }
  destruct event; simpl; try apply Hdelta; try by apply neutral_ret.
  - k_any neutral_lift. k_any neutral_port. k_any neutral_lift. by apply neutral_ret.
  - k_any neutral_lift. by apply neutral_ret.
  - k_any neutral_lift. k_any neutral_port. k_any neutral_lift. k_any neutral_emit.
    by apply neutral_ret.
  - k_any neutral_lift. k_any neutral_lift. k_any neutral_lift. k_any neutral_lift.
    k_any neutral_lift. k_any neutral_emit. by apply neutral_ret.
  - k_any neutral_lift. k_any neutral_lift. k_any neutral_lift. by apply neutral_ret.
Qed.

Lemma neutral_poll_model events validator a :
  neutral (poll_model hosted message_id run_id turn_id budget events validator a) (λ _, True).
Proof.
  revert validator a. induction events as [|event events IH]; intros validator a; simpl;
    (k_bind neutral_model_signal; intros [] _); [by apply neutral_ret|].
  destruct (model_observe event validator) as [observed validator'].
  k_any neutral_from.
  assert (neutral (let! a := apply_model_event hosted message_id run_id turn_id budget a event in
                   poll_model hosted message_id run_id turn_id budget events validator' a)
            (λ _, True)) as Hnext.
  { k_any neutral_model_event. apply IH. }
  destruct event; try exact Hnext. by apply neutral_ret.
Qed.

(** An attempt sends a request that may be sent. *)
Lemma learns_attempt P :
  Stable P → (P ⊢ may_request X request) →
  learns P (stream_attempt provider request hosted message_id run_id turn_id budget)
    (λ _, P).
Proof.
  intros HP Hq. l_any neutral_moment.
  eapply learns_step; [done|apply learns_act; [exact Hq|exact I]|]. intros [].
  eapply learns_last; [apply _|apply neutral_poll_model|]. known.
Qed.

Lemma neutral_backoff failure attempt :
  neutral (retry_backoff message_id run_id turn_id retry failure attempt) (λ _, True).
Proof.
  k_any neutral_lift. k_any neutral_emit. k_any neutral_port. k_any neutral_lift.
  k_any neutral_moment. eapply (neutral_bind _ _ _ _ (λ _, True)); [|intros _ _; apply neutral_emit].
  repeat case_match; first [by apply neutral_ret|apply neutral_raised].
Qed.

(** The attempts end: there is fuel for every attempt the policy allows. *)
Lemma learns_attempts P fuel attempt :
  Stable P → (P ⊢ may_request X request) → (attempt ≤ max_attempts retry)%N →
  (max_attempts retry < N.of_nat fuel + attempt)%N →
  learns P (stream_attempts provider request hosted message_id run_id turn_id budget retry fuel
             attempt) (λ _, P).
Proof.
  intros HP Hq. revert attempt. induction fuel as [|fuel IH]; intros attempt Hle Hfuel; simpl; [lia|].
  eapply learns_bind; [by apply learns_attempt|].
  intros [[validator a] [failure|]].
  - case_match; [apply learns_raised|]. destruct (max_attempts retry <=? attempt + 1)%N eqn:Hm;
      [apply learns_raised|]. apply N.leb_gt in Hm.
    l_any neutral_backoff. apply IH; lia.
  - l_any neutral_from. l_any neutral_lift. l_any neutral_port.
    eapply (learns_last _ _ _ _ (λ _, True)); [done|by apply neutral_lift|]. known.
Qed.
End stream.

Lemma learns_stream P provider snapshot run_id turn_id budget retry :
  Stable P → (P ⊢ may_request X (tq_request snapshot)) →
  learns P (stream_turn provider snapshot run_id turn_id budget retry) (λ _, P).
Proof. intros HP Hq. l_any neutral_port. apply learns_attempts; [done|done|lia|lia]. Qed.

(** ** Requests *)

(** The provider's own validation accepted the request, at a moment of the run. *)
Definition validated (provider : ModelProvider) (request : ModelRequest) : Fact := λ τ,
  ∃ now, ActValidated now request ∈ τ ∧ mp_validate_request provider now request = Ok tt.

#[export] Instance validated_stable provider request : Stable (validated provider request).
Proof. unfold validated. apply _. Qed.

Lemma learns_validate P provider request :
  Stable P →
  learns P (validate_request provider request)
    (λ _ τ, P τ ∧ validated provider (tq_request request) τ).
Proof.
  intros HP. l_any neutral_moment. rename a into now.
  eapply learns_neutral; [done|apply (neutral_lift _ _ _ (λ _,
    mp_validate_request provider now (tq_request request) = Ok tt))|].
  { intros [] Hv. unfold map_err in Hv. by destruct (mp_validate_request _ _ _) as [[]|]. }
  intros [] Hv. eapply learns_post; [apply (learns_frame _ _ P);
    [done|apply learns_act; [intros τ _; exact I|exact I]]|].
  intros [] τ [Hp Hin]. split; [exact Hp|]. exists now. by split.
Qed.

Lemma neutral_validate_request provider request :
  neutral (validate_request provider request) (λ _, True).
Proof. intros l. eapply triple_conseq; [|by apply (learns_validate (λ _, True))|]; known. Qed.

Lemma neutral_preflight snapshot config :
  neutral (preflight_model_request kernel snapshot config) (λ _, True).
Proof.
  k_any neutral_lift. k_any neutral_lift. apply neutral_validate_request.
Qed.

Lemma neutral_produce q : neutral (produce q) (λ _, True).
Proof.
  k_any neutral_moment. k_modify.
  - intros τ l w Hw. eapply run_inv_same; [done|done|apply Hw].
  - by apply neutral_ret.
Qed.

Lemma neutral_acknowledge queued : neutral (acknowledge_input queued) (λ _, True).
Proof.
  k_any neutral_gets. rename a into queue. destruct queue as [q|]; [|by apply neutral_ret].
  k_any neutral_produce. rename a into q1. cbv zeta.
  destruct (acknowledge queued _) as [acknowledged q'].
  k_modify.
  - intros τ l w Hw. eapply run_inv_same; [done|done|apply Hw].
  - by apply neutral_lift.
Qed.

Lemma paired_messages messages :
  paired_records (MessageCommitted <$> messages).
Proof. by induction messages. Qed.

Lemma learns_queued P session_id snapshot config provider model :
  Stable P → (P ⊢ seen session_id snapshot) →
  learns P (apply_queued_input kernel snapshot config provider model)
    (λ s τ, P τ ∧ seen session_id s τ).
Proof.
  intros HP Hs. l_any neutral_gets. rename a into queue.
  destruct queue as [q|]; [|apply learns_ret; known].
  l_any neutral_produce. rename a into q1. cbv zeta.
  case_match; [apply learns_ret; known|].
  eapply (learns_neutral _ _ _ _ _ (λ _, True)); [done| |].
  - case_match; [by apply neutral_ret|]. eapply (neutral_bind _ _ _ _ (λ _, True));
      [|intros m _; by apply neutral_ret].
    k_any neutral_port. k_any neutral_from. k_any neutral_port. by apply neutral_from.
  - intros messages _. l_any neutral_lift. l_any neutral_validate_request.
    eapply learns_bind; [eapply (learns_append_records _ _ _ session_id);
      [done|done|apply paired_messages]|]. intros snapshot'.
    l_any neutral_acknowledge. apply learns_ret. known.
Qed.

(** ** Committing a turn *)

Lemma neutral_audit snapshot call :
  neutral (declaration_metadata kernel snapshot call) (λ _, True).
Proof.
  eapply neutral_bind; [apply neutral_prepare|]. intros [invocation|code message] _;
    [by apply neutral_lift|by apply neutral_ret].
Qed.

(** The record that declares a call. *)
Definition declaration (call : CompletedToolCall) : SessionRecord :=
  ToolCallRequested (cc_tool_call_id call) (cc_tool_name call) (cc_arguments call).

Lemma neutral_declaration_records snapshot calls :
  neutral (declaration_records kernel snapshot calls) (λ rs, rs.*2 = declaration <$> calls).
Proof.
  induction calls as [|call calls IH]; simpl; [by apply neutral_ret|].
  k_any neutral_audit. eapply neutral_bind; [apply IH|]. intros records Hr. apply neutral_ret.
  csimpl. by rewrite Hr.
Qed.

Lemma paired_declarations message calls :
  paired_records (MessageCommitted message :: (declaration <$> calls)).
Proof. simpl. by induction calls. Qed.

Lemma learns_append_metadata P session_id snapshot records :
  Stable P → (P ⊢ seen session_id snapshot) → paired_records records.*2 →
  learns P (append_records_with_metadata snapshot records)
    (λ s τ, P τ ∧ seen session_id s τ ∧ committed session_id records.*2 [] τ).
Proof.
  intros HP Hs Hp.
  apply (learns_pure _ _ (st_session_id (sn_state snapshot) = session_id)); [by intros τ (_ & ? & _)%Hs|].
  intros Hid. eapply (learns_neutral _ _ _ _ _ (λ es, env_record <$> es = records.*2)); [done| |].
  { k_any neutral_port. apply neutral_envelopes_at. }
  intros es Hes. by apply learns_commit.
Qed.

Lemma learns_declarations P session_id snapshot output run_id turn_id :
  Stable P → (P ⊢ seen session_id snapshot) →
  learns P (commit_declarations kernel snapshot output run_id turn_id)
    (λ s τ, P τ ∧ seen session_id s τ ∧
       Forall (λ c, declared_call session_id c τ) (mo_tool_calls output)).
Proof.
  intros HP Hs. l_bind neutral_declaration_records. intros records Hr.
  eapply learns_bind; [eapply (learns_append_metadata _ session_id); [done|done|]|].
  { csimpl. rewrite Hr. exact (paired_declarations (mo_message output) _). }
  intros snapshot'. eapply (learns_neutral _ _ _ _ _ (λ _, True)); [apply _| |].
  { apply neutral_for. intros call. apply neutral_emit. }
  intros _ _. apply learns_ret. intros τ (Hp & Hs' & Hc). split_and!; [done..|].
  apply Forall_forall. intros call Hcall. left. eexists. split; [exact Hc|]. csimpl. right.
  rewrite Hr. by apply (list_elem_of_fmap_2 declaration).
Qed.

Lemma learns_checkpoint P session_id snapshot run_id turn_id :
  Stable P → (P ⊢ seen session_id snapshot) →
  learns P (checkpoint_model_request snapshot run_id turn_id) (λ s τ, P τ ∧ seen session_id s τ).
Proof.
  intros HP Hs.
  eapply learns_bind; [eapply (learns_append_records _ _ _ session_id); [done|done|done]|].
  intros s. l_any neutral_emit. apply learns_ret. known.
Qed.

Lemma neutral_finish snapshot output run_id turn_id :
  neutral (finish snapshot output run_id turn_id) (λ _, True).
Proof.
  k_any neutral_append_records. k_any neutral_emit. k_any neutral_emit. by apply neutral_ret.
Qed.

Lemma neutral_fail {A} snapshot run_id turn_id error Q :
  neutral (fail_turn (A:=A) snapshot run_id turn_id error) Q.
Proof. k_any neutral_run_terminal. apply neutral_raised. Qed.

Lemma neutral_or_fail {A} snapshot run_id turn_id (r : Result KernelError A) Q :
  (∀ a, r = Ok a → Q a) → neutral (or_fail_turn snapshot run_id turn_id r) Q.
Proof. intros HQ. destruct r; [by apply neutral_ret, HQ|apply neutral_fail]. Qed.

Lemma learns_fail {A} P snapshot run_id turn_id error (Q : A → Fact) :
  Stable P → learns P (fail_turn (A:=A) snapshot run_id turn_id error) Q.
Proof. intros HP. l_any neutral_run_terminal. apply learns_raised. Qed.

Lemma learns_compact P session_id summary through :
  Stable P → learns P (compact session_id summary through) (λ s τ, P τ ∧ seen session_id s τ).
Proof.
  intros HP. eapply learns_bind; [by apply learns_load|]. intros snapshot.
  l_any neutral_lift. l_any neutral_port. l_bind neutral_plain_envelopes.
  intros es Hes. l_bind neutral_append; [unfold results_paired; simpl; by rewrite Hes|].
  intros _ _. eapply learns_post; [apply learns_load, _|known].
Qed.

Lemma neutral_compact session_id summary through :
  neutral (compact session_id summary through) (λ _, True).
Proof. intros l. eapply triple_conseq; [|by apply (learns_compact (λ _, True))|]; known. Qed.

(** ** The loop *)

(** What the loop still allows before it must end. *)
Definition loop_measure (config : KernelRunConfig) (p : RunProgress) (auto_compacted : bool)
    : nat :=
  N.to_nat (max_tool_iterations (kc_limits config) - rp_tool_iterations p)
  + if auto_compacted then 0 else 1.

(** A step that goes on made progress, from a snapshot it loaded. *)
Definition step_progresses (session_id : SessionId) (config : KernelRunConfig) (p : RunProgress)
    (auto_compacted : bool) (step : TurnStep) : Fact :=
  match step with
  | NextTurn snapshot p' auto' => λ τ,
      loop_measure config p' auto' < loop_measure config p auto_compacted ∧
      seen session_id snapshot τ
  | RunDone _ => λ _, True
  end.

#[local] Instance step_stable session_id config p auto step :
  Stable (step_progresses session_id config p auto step).
Proof. destruct step; apply _. Qed.

Lemma advance_tools_measure config p p' auto :
  advance_tools p config = Ok p' → loop_measure config p' auto < loop_measure config p auto.
Proof.
  unfold advance_tools. intros (u & _ & Hp)%result_bind_ok.
  apply result_bind_ok in Hp as (u' & Hle%ensure_ok & [= <-]). apply N.leb_le in Hle.
  unfold loop_measure. simpl. lia.
Qed.

Lemma neutral_advance snapshot config run_id turn_id p auto :
  neutral (or_fail_turn snapshot run_id turn_id (advance_tools p config))
    (λ p', loop_measure config p' auto < loop_measure config p auto).
Proof. apply neutral_or_fail. intros p'. apply advance_tools_measure. Qed.

Lemma observe_output_measure config p p' bytes auto :
  observe_output p bytes = Ok p' → loop_measure config p' auto = loop_measure config p auto.
Proof. unfold observe_output. by intros (total & _ & [= <-])%result_bind_ok. Qed.

(** A request the run may send: built from a state of the session that the run
    loaded, for the model that state selects, accepted by that model's provider,
    and within the model's context window. *)
Definition committed_request (config : KernelRunConfig) (session_id : SessionId)
    (request : ModelRequest) : Fact := λ τ,
  ∃ snapshot provider model built,
    loaded session_id snapshot τ ∧
    active_model kernel snapshot = Ok (provider, model) ∧
    build (sn_state snapshot) config (ak_tools kernel) model = Ok built ∧
    tq_request built = request ∧ validated provider request τ ∧
    check_overflow (accountant_new model)
      (estimate_input_tokens None (mq_system_prompt request) (mq_tools request)
         (mq_messages request)) = Ok tt.

#[export] Instance committed_request_stable config session_id request :
  Stable (committed_request config session_id request).
Proof. unfold committed_request. apply _. Qed.

Lemma learns_overflow P session_id snapshot config run_id turn_id progress auto estimated window
    error :
  Stable P → (P ⊢ seen session_id snapshot) →
  learns P
    (overflow_turn snapshot config run_id turn_id progress auto estimated window error)
    (λ step τ, P τ ∧ step_progresses session_id config progress auto step τ).
Proof.
  intros HP Hs.
  apply (learns_pure _ _ (st_session_id (sn_state snapshot) = session_id)); [by intros τ (_ & ? & _)%Hs|].
  intros Hid. unfold overflow_turn. rewrite Hid. destruct auto.
  { l_bind neutral_ret; [exact (eq_refl false)|]. intros ? <-. by apply learns_fail. }
  eapply (learns_neutral _ _ _ _ _ (λ _, True)); [done|k_any neutral_moment; by apply neutral_ret|].
  intros compacts _. destruct (if compacts then _ else _); [|by apply learns_fail].
  l_any neutral_moment. l_any neutral_lift. eapply learns_bind; [by apply learns_compact|].
  intros s. apply learns_ret. intros τ [Hp Hs']. split; [done|]. split; [|done].
  unfold loop_measure. lia.
Qed.

Lemma learns_final P session_id snapshot config run_id turn_id progress auto output :
  Stable P → (P ⊢ seen session_id snapshot) →
  learns P (settle_final_turn kernel snapshot config run_id turn_id progress auto output)
    (λ step τ, P τ ∧ step_progresses session_id config progress auto step τ).
Proof.
  intros HP Hs. unfold settle_final_turn. case_match.
  - eapply learns_neutral; [done|apply (neutral_advance _ _ _ _ _ auto)|]. intros p' Hp.
    eapply learns_bind; [by apply (learns_declarations _ session_id)|]. intros s1.
    eapply learns_bind; [apply (learns_checkpoint _ session_id); [apply _|known]|].
    intros s2. apply learns_ret. intros τ ((Hp' & _) & Hs2). by split_and!.
  - eapply (learns_neutral _ _ _ _ _ (λ _, True)); [done|by apply neutral_or_fail|]. intros _ _.
    l_any neutral_finish. apply learns_ret. known.
Qed.

Lemma learns_settle_tools P session_id snapshot config run_id turn_id progress auto output :
  Stable P → (P ⊢ seen session_id snapshot) →
  (∀ invocation, (λ τ, P τ ∧ policy_allowed kernel config session_id run_id invocation τ)
     ⊢ X invocation) →
  learns P (settle_tool_turn kernel snapshot config run_id turn_id progress auto output)
    (λ step τ, P τ ∧ step_progresses session_id config progress auto step τ).
Proof.
  intros HP Hs HX. unfold settle_tool_turn.
  eapply learns_neutral; [done|apply (neutral_advance _ _ _ _ _ auto)|]. intros p' Hp.
  eapply learns_bind; [by apply (learns_declarations _ session_id)|]. intros s1.
  eapply learns_bind; [apply (learns_turn _ _ _ _ session_id); [apply _|known|known|]|].
  { intros i τ [[Hp' _] Hi]. apply HX. by split. }
  intros [s2|outcome]; [|apply learns_ret; known].
  eapply learns_bind; [apply (learns_checkpoint _ session_id); [apply _|simpl; known]|].
  intros s3. apply learns_ret. intros τ (((Hp' & _) & _) & Hs3). by split_and!.
Qed.

Lemma active_model_ok snapshot provider model :
  active_model kernel snapshot = Ok (provider, model) ↔
  cfg_model (st_configuration (sn_state snapshot)) = Some (ms_model_ref model) ∧
  mr_provider (ak_models kernel) (mr_provider_id (ms_model_ref model)) = Some provider ∧
  router_model (ak_models kernel) (ms_model_ref model) = Some model.
Proof.
  unfold active_model. split.
  - intros (model_ref & Hcfg%ok_or_ok & Hm)%result_bind_ok.
    apply result_bind_ok in Hm as (p & Hp%ok_or_ok & Hm).
    apply result_bind_ok in Hm as (m & Hr%ok_or_ok & [= -> ->]).
    assert (ms_model_ref model = model_ref) as ->; [|done].
    unfold router_model in Hr. apply bind_Some in Hr as (p' & _ & Hr).
    apply bind_Some in Hr as (m & _ & Hr). by case_decide; simplify_eq.
  - intros (-> & Hp & Hm). simpl. unfold result_bind, ok_or. by rewrite Hp, Hm.
Qed.

(** A request is built for the model its own state selects. *)
Lemma build_model s config model built :
  build s config (ak_tools kernel) model = Ok built →
  cfg_model (st_configuration s) = Some (ms_model_ref model).
Proof.
  unfold build, build_with_pending_messages.
  intros (model_ref & Hcfg%ok_or_ok & Hm)%result_bind_ok.
  apply result_bind_ok in Hm as (u & Href%ensure_ok & _). apply bool_decide_eq_true in Href.
  by rewrite Href.
Qed.

Lemma learns_run_turn P session_id snapshot config run_id turn_id progress auto :
  Stable P → (P ⊢ seen session_id snapshot) →
  (∀ invocation, (λ τ, P τ ∧ policy_allowed kernel config session_id run_id invocation τ)
     ⊢ X invocation) →
  (∀ request, (λ τ, P τ ∧ committed_request config session_id request τ)
     ⊢ may_request X request) →
  learns P (run_turn kernel snapshot config run_id turn_id progress auto)
    (λ step τ, P τ ∧ step_progresses session_id config progress auto step τ).
Proof.
  intros HP Hs HX HR. eapply learns_neutral; [done|apply neutral_lift; intros a Ha; exact Ha|].
  intros [provider model] (_ & Hprovider & Hmodel)%active_model_ok.
  eapply learns_bind; [by apply (learns_queued _ session_id)|]. intros queued.
  eapply learns_neutral; [apply _|apply neutral_lift; intros a Ha; exact Ha|]. intros built Hbuilt.
  eapply learns_bind; [apply learns_validate, _|]. intros []. cbv zeta.
  destruct (check_overflow _ _) as [[]|error] eqn:Hfit;
    [|eapply learns_post; [apply (learns_overflow _ session_id); [apply _|known]|known]].
  assert (active_model kernel queued = Ok (provider, model)) as Hactive.
  { apply active_model_ok. split_and!; [exact (build_model _ _ _ _ Hbuilt)|done..]. }
  l_any neutral_lift.
  eapply (learns_then _ _ (λ τ, (P τ ∧ seen session_id queued τ) ∧
                                     validated provider (tq_request built) τ));
    [apply _|apply learns_try, learns_stream; [apply _|]|].
  { intros τ [[Hp Hq] Hv]. apply HR. split; [exact Hp|].
    exists queued, provider, model, built. by split_and!; [apply Hq|..]. }
  intros streamed. eapply (learns_neutral _ _ _ _ _ (λ _, True)); [apply _|by apply neutral_or_fail|].
  intros output _.
  eapply learns_neutral; [apply _|apply neutral_lift; intros p Hp; exact Hp|]. intros progress' Hp.
  eapply learns_post.
  - case_match; [apply (learns_final _ session_id); [apply _|known]|].
    apply (learns_settle_tools _ session_id); [apply _|known|].
    intros i τ [((Hp' & _) & _) Hi]. apply HX. by split.
  - intros [snapshot' p' auto'|outcome] τ [((Hp' & _) & _) Hstep]; (split; [done|]); [|done].
    simpl in *. by rewrite <- (observe_output_measure _ _ _ _ _ Hp).
Qed.

Lemma neutral_begin snapshot run_id progress :
  neutral (begin_turn snapshot run_id progress) (λ _, True).
Proof.
  k_any neutral_moment. assert (neutral (match rp_prepared_turn_id progress with
    | Some turn_id => st_ret turn_id | None => port next_turn_id end) (λ _, True)) as Hid.
  { case_match; [by apply neutral_ret|by apply neutral_port]. }
  destruct (poll_signal a) as [[]|]; try exact Hid.
  k_any neutral_run_terminal. apply neutral_raised.
Qed.

Lemma neutral_or_ensure {A} session_id run_id turn_id (r : Result KernelError A) Q :
  (∀ a, r = Ok a → Q a) → neutral (or_ensure_terminal session_id run_id turn_id r) Q.
Proof.
  intros HQ. destruct r; [by apply neutral_ret, HQ|].
  k_any neutral_ensure_terminal. apply neutral_raised.
Qed.

Section loop.
Context (config : KernelRunConfig) (session_id : SessionId) (run_id : RunId).

(** What the run knows suffices for what it executes and requests. *)
Definition admits (F : Fact) : Prop :=
  Stable F ∧
  (∀ invocation, (λ τ, F τ ∧ policy_allowed kernel config session_id run_id invocation τ)
     ⊢ X invocation) ∧
  (∀ request, (λ τ, F τ ∧ committed_request config session_id request τ)
     ⊢ may_request X request).

Lemma admits_more F P : admits F → Stable P → (P ⊢ F) → admits P.
Proof.
  intros (_ & HX & HR) HP HF. split_and!; [done|..]; intros x τ [Hp Hx].
  - apply HX. by split; [apply HF|].
  - apply HR. by split; [apply HF|].
Qed.

(** Enough fuel ends the loop. *)
Lemma learns_loop fuel : ∀ P snapshot progress auto current,
  admits P → (P ⊢ seen session_id snapshot) → loop_measure config progress auto < fuel →
  learns P (run_loop_inner kernel fuel snapshot config run_id progress auto current) (λ _, P).
Proof.
  induction fuel as [|fuel IH]; intros P snapshot progress auto current HP Hs Hfuel; simpl; [lia|].
  pose proof HP as (HPs & HX & HR).
  eapply learns_neutral; [done|apply neutral_try, neutral_begin|].
  intros [turn_id|error] _; [|apply learns_ret; known].
  eapply learns_step; [done|apply learns_try; by apply (learns_run_turn _ session_id)|].
  intros [[snapshot' p' auto'|outcome]|error]; [|apply learns_ret; known..].
  apply (learns_pure _ _ (loop_measure config p' auto' < loop_measure config progress auto)).
  { intros τ (_ & _ & Hm & _). exact Hm. }
  intros Hm. eapply learns_post; [apply IH; [|simpl; known|lia]|known].
  eapply admits_more; [exact HP|apply _|known].
Qed.

Lemma learns_run_loop P snapshot progress :
  admits P → (P ⊢ seen session_id snapshot) →
  learns P (run_loop kernel snapshot config run_id progress) (λ _ _, True).
Proof.
  intros HP Hs. pose proof HP as (HPs & _).
  eapply learns_bind; [apply learns_loop; [done|done|unfold loop_measure, run_fuel; lia]|].
  intros ended. eapply (learns_last _ _ _ _ (λ _, True)); [done|by apply neutral_or_ensure|known].
Qed.

(** What is left of a resumed turn was declared in the snapshot. *)
Lemma remaining_declared s completed after records call :
  call ∈ remaining_from s completed after records →
  declaration call ∈ env_record <$> records.
Proof.
  revert after. induction records as [|record records IH]; intros after; simpl; [by intros ?%elem_of_nil|].
  intros Hin. csimpl. destruct (env_record record) eqn:Hrec; try (right; by eapply IH).
  case_bool_decide; [right; by eapply IH|].
  destruct (after && _); [|right; by eapply IH].
  apply elem_of_cons in Hin as [->|Hin]; [by left|right; by eapply IH].
Qed.

Lemma learns_remaining calls : ∀ P snapshot turn_id,
  admits P → (P ⊢ seen session_id snapshot) →
  (P ⊢ λ τ, Forall (λ c, declared_call session_id c τ) calls) →
  learns P (process_remaining kernel snapshot calls config run_id turn_id)
    (λ r τ, P τ ∧ outcome_seen session_id r τ).
Proof.
  induction calls as [|call calls IH]; intros P snapshot turn_id HP Hs Hd; simpl;
    [apply learns_ret; known|].
  pose proof HP as (HPs & HX & _).
  eapply learns_bind; [apply (learns_process _ _ _ _ session_id); [done|done| |done]|].
  { intros τ Hp. by apply Hd, Forall_cons in Hp as [? _]. }
  intros [snapshot'|outcome]; [|apply learns_ret; known].
  eapply learns_post; [apply IH; [|simpl; known|]|known].
  - eapply admits_more; [exact HP|apply _|known].
  - intros τ [Hp _]. by apply Hd, Forall_cons in Hp as [_ ?].
Qed.

Lemma learns_resumed P snapshot call turn_id deadline :
  admits P → (P ⊢ seen session_id snapshot) →
  learns P (continue_resumed_run kernel snapshot call config run_id turn_id deadline)
    (λ _ _, True).
Proof.
  intros HP Hs. pose proof HP as (HPs & _).
  eapply (learns_bind _ _ _ _ _ (λ _ _, True)).
  2: { intros result. apply (neutral_learns _ _ _ _ (λ _, True)). by apply neutral_or_ensure. }
  eapply learns_post; [apply (learns_try _ _ _ _ (λ _ _, True))|by intros [] τ].
  eapply learns_bind; [apply learns_remaining; [done|done|]|].
  { intros τ Hp. apply Forall_forall. intros c Hc%remaining_declared. right.
    exists snapshot. split; [apply (Hs _ Hp)|exact Hc]. }
  intros [snapshot'|outcome]; [|apply learns_ret; known].
  eapply learns_bind; [apply (learns_checkpoint _ session_id); [apply _|simpl; known]|].
  intros s. l_any neutral_lift. apply learns_run_loop; [|known].
  eapply admits_more; [exact HP|apply _|known].
Qed.
End loop.

(** ** Resumed runs *)

Lemma tool_keyed session_id snapshot id tool τ :
  seen session_id snapshot τ → st_tool_calls (sn_state snapshot) !! id = Some tool →
  tc_tool_call_id tool = id.
Proof.
  intros (_ & _ & r & Hr & Hs) Ht. destruct (reachable_projection_wf _ Hr) as [Hwf _].
  apply (wf_id id tool), (pwf_tools _ (Hwf _ Hs)). done.
Qed.

(** The config of a resumed run differs in its final-output format only. *)
Lemma format_context config format config' :
  with_final_output_format config format = Ok config' →
  kc_actor_id config' = kc_actor_id config ∧ kc_workspace_id config' = kc_workspace_id config ∧
  kc_environment config' = kc_environment config.
Proof. unfold with_final_output_format. by intros (compiled & _ & [= <-])%result_bind_ok. Qed.

Lemma format_policy_allowed config format config' session_id run_id invocation τ :
  with_final_output_format config format = Ok config' →
  policy_allowed kernel config' session_id run_id invocation τ →
  policy_allowed kernel config session_id run_id invocation τ.
Proof.
  intros (Ha & Hw & He)%format_context. unfold policy_allowed, decided_as. by rewrite Ha, Hw, He.
Qed.

(** What the resolution of an approval lets execute: the invocation that the
    persisted call, in a snapshot of the session the run loaded, prepared to, in
    the context the persisted request was made in; after the resolution was
    committed. *)
Definition approved_call (resolution : ApprovalResolution) (config : KernelRunConfig)
    (session_id : SessionId) (invocation : ValidatedToolInvocation) : Fact := λ τ,
  rs_decision resolution ≠ DenyApproval ∧
  same_run_context (rs_request resolution) config = true ∧
  same_tool_context invocation (rs_request resolution) = true ∧
  invocation_call_id invocation = rq_tool_call_id (rs_request resolution) ∧
  ∃ snapshot tool,
    loaded session_id snapshot τ ∧
    persisted_request snapshot (rq_approval_id (rs_request resolution)) = Ok (rs_request resolution) ∧
    st_tool_calls (sn_state snapshot) !! rq_tool_call_id (rs_request resolution) = Some tool ∧
    prepared_as kernel session_id (mk_CompletedToolCall (tc_tool_call_id tool) (tc_tool_name tool)
      (tc_arguments tool)) (PreparedValid invocation) τ.

Definition resolution_committed (resolution : ApprovalResolution) (session_id : SessionId)
    : Fact := λ τ,
  ∃ records record_id,
    committed session_id records [ArtifactResolved record_id resolution] τ ∧
    ApprovalResolved (rq_approval_id (rs_request resolution)) (rs_decision resolution) ∈ records.

Definition approved_invocation (resolution : ApprovalResolution) (config : KernelRunConfig)
    (session_id : SessionId) (invocation : ValidatedToolInvocation) : Fact := λ τ,
  approved_call resolution config session_id invocation τ ∧
  resolution_committed resolution session_id τ.

(** The configuration a run works with: its own, and, once resumed, with the
    output format persisted with the approval request. *)
Definition run_config (config : KernelRunConfig) (session_id : SessionId)
    (resolution : option ApprovalResolution) (config' : KernelRunConfig) : Fact := λ τ,
  match resolution with
  | None => config' = config
  | Some r => ∃ snapshot, loaded session_id snapshot τ ∧
      with_final_output_format config
        (persisted_final_output_format snapshot (rq_approval_id (rs_request r))) = Ok config'
  end.

#[export] Instance approved_call_stable resolution config session_id invocation :
  Stable (approved_call resolution config session_id invocation).
Proof. unfold approved_call. apply _. Qed.
#[export] Instance approved_stable resolution config session_id invocation :
  Stable (approved_invocation resolution config session_id invocation).
Proof. unfold approved_invocation, resolution_committed. apply _. Qed.
#[export] Instance run_config_stable config session_id resolution config' :
  Stable (run_config config session_id resolution config').
Proof. unfold run_config. destruct resolution; apply _. Qed.

Section resume.
Context (config : KernelRunConfig) (session_id : SessionId) (resolution : ApprovalResolution).
Context (run_id : RunId).
Context (F : Fact).
Context (HX : ∀ invocation,
           (λ τ, F τ ∧ policy_allowed kernel config session_id run_id invocation τ) ⊢ X invocation).
Context (HR : ∀ config' request,
           (λ τ, F τ ∧ run_config config session_id (Some resolution) config' τ ∧
                 committed_request config' session_id request τ) ⊢ may_request X request).

(** The configuration of the resumed run, as it is made from a snapshot. *)
Definition resumed_config (snapshot : SessionSnapshot) (config' : KernelRunConfig) : Prop :=
  with_final_output_format config
    (persisted_final_output_format snapshot (rq_approval_id (rs_request resolution))) = Ok config'.

Lemma neutral_emitter session_id' tail limits : neutral (emitter_new session_id' tail limits) (λ _, True).
Proof.
  k_any neutral_moment. apply neutral_modify; [|done].
  intros τ l w Hw. eapply run_inv_same; [done|done|apply Hw].
Qed.

Lemma neutral_deadline config' : neutral (run_deadline config') (λ _, True).
Proof. k_any neutral_port. by apply neutral_lift. Qed.

Lemma learns_resumed_with P config' origin snapshot call turn_id deadline :
  Stable P → (P ⊢ F) → (P ⊢ seen session_id snapshot) → (P ⊢ seen session_id origin) →
  resumed_config origin config' →
  learns P (continue_resumed_run kernel snapshot call config' run_id turn_id deadline)
    (λ _ _, True).
Proof using HX HR.
  intros HP HF Hs Ho Hf. apply (learns_resumed _ session_id); [|done]. split_and!; [done|..].
  - intros i τ [Hp Hi]. apply HX. split; [by apply HF|by eapply format_policy_allowed].
  - intros q τ [Hp Hq]. eapply HR. split; [by apply HF|]. split; [|exact Hq].
    exists origin. split; [by apply Ho|done].
Qed.

Lemma learns_denied_resolution P snapshot call :
  Stable P → (P ⊢ seen session_id snapshot) →
  learns P (commit_denied_resolution snapshot resolution call) (λ s τ, P τ ∧ seen session_id s τ).
Proof.
  intros HP Hs.
  apply (learns_pure _ _ (st_session_id (sn_state snapshot) = session_id)); [by intros τ (_ & ? & _)%Hs|].
  intros Hid. unfold commit_denied_resolution. rewrite Hid.
  l_any neutral_lift. rename a into terminal. l_any neutral_port.
  eapply learns_neutral; [done|apply (neutral_lift _ _ _ (λ f, tt_failure terminal = Some f))|].
  { by intros f ?%ok_or_ok. }
  intros failure Hfailure.
  eapply learns_neutral; [done|apply (neutral_from _ _ _ _ (λ m, ∃ message_id name timestamp,
    m = ToolResult message_id (cc_tool_call_id call) name (tt_content terminal) true
          (Some failure) timestamp))|].
  { unfold message_tool_result, result_bind. intros m Hm. repeat case_match; simplify_eq.
    by eexists _, _, _. }
  intros message (message_id & name & timestamp & ->).
  l_bind neutral_plain_envelopes. intros es Hes. destruct es as [|e es]; [done|].
  l_bind neutral_append.
  { unfold results_paired. change (tx_records _) with (e :: es). rewrite Hes. simpl.
    rewrite Hfailure. split; [by eexists _, _, _, _|done]. }
  intros _ _. by apply learns_load.
Qed.

Lemma learns_resume_denied P snapshot call turn_id :
  Stable P → (P ⊢ F) → (P ⊢ seen session_id snapshot) →
  learns P (resume_denied kernel session_id snapshot resolution call config run_id turn_id)
    (λ _ _, True).
Proof using HX HR.
  intros HP HF Hs. eapply learns_bind; [by apply learns_denied_resolution|]. intros snapshot'.
  eapply learns_neutral; [apply _|apply (neutral_try _ _ _ (λ prepared,
    resumed_config snapshot' prepared.1))|].
  { eapply neutral_bind; [apply neutral_lift; intros c Hc; exact Hc|]. intros config' Hc.
    k_any neutral_preflight. k_any neutral_deadline. apply neutral_ret. exact Hc. }
  intros prepared Hprepared.
  eapply learns_neutral; [apply _|apply (neutral_or_ensure _ _ _ _ (λ resumed,
    resumed_config snapshot' resumed.1))|].
  { intros resumed ->. done. }
  intros [config' deadline] Hf. eapply (learns_resumed_with _ _ snapshot'); [apply _|known|known|known|exact Hf].
Qed.

(** An allowance commits the start of the approved invocation. *)
Lemma triple_commit_resolution P l snapshot invocation target :
  Stable P → (P ⊢ seen session_id snapshot) → rs_decision resolution ≠ DenyApproval →
  ((λ τ, P τ ∧ resolution_committed resolution session_id τ) ⊢ X invocation) →
  invocation_call_id invocation = rq_tool_call_id (rs_request resolution) →
  triple P l (commit_resolution snapshot resolution invocation target) (invocation :: l) l
    (λ s τ, P τ ∧ seen session_id s τ).
Proof.
  intros HP Hs Hdec Hi Hid.
  apply (triple_pure _ _ (st_session_id (sn_state snapshot) = session_id)); [by intros τ (_ & ? & _)%Hs|].
  intros Hsid. unfold commit_resolution. rewrite Hsid.
  eapply triple_safe; [done|apply neutral_plain_envelopes|]. intros es Hes.
  eapply triple_safe; [done|by apply (neutral_lift _ _ _ (λ _, True))|]. intros record_id _.
  eapply triple_bind.
  - apply triple_append; [done|]. intros τ w m Hw Hp Hm.
    apply (run_inv_reserve _ _ _ l w _ m [invocation]); [done| |done| |].
    + unfold results_paired. simpl. rewrite Hes. by destruct (rs_decision resolution).
    + intros id. simpl. rewrite Hes. unfold started_in, call_count. rewrite <- Hid.
      destruct (rs_decision resolution); [| |done]; simpl; by case_bool_decide.
    + apply Forall_singleton, Hi. split; [by apply HP|].
      exists (env_record <$> es), record_id. split; [|rewrite Hes; left].
      eexists. split_and!; [left|done..].
  - intros []. eapply triple_weaken; [intros τ w; apply (run_inv_drop _ _ _ [invocation])|].
    eapply triple_conseq; [|by apply (learns_load _ _ P)|]; known.
Qed.

Lemma learns_execute_approved P config' origin snapshot call invocation turn_id deadline l :
  Stable P → (P ⊢ F) → (P ⊢ seen session_id snapshot) → (P ⊢ seen session_id origin) →
  resumed_config origin config' →
  triple P (invocation :: l)
    (execute_approved kernel snapshot call invocation config' run_id turn_id deadline) l l
    (λ _ _, True).
Proof using HX HR.
  intros HP HF Hs Ho Hf. eapply triple_safe; [done|apply safe_try, safe_execute|].
  intros [terminal|error] _; revert l.
  - eapply learns_bind; [by apply (learns_terminal _ _ _ session_id)|]. intros snapshot'.
    eapply (learns_resumed_with _ _ origin); [apply _|known|known|known|exact Hf].
  - l_any neutral_interruption. apply learns_raised.
Qed.

Lemma learns_resume_allowed P snapshot tool turn_id :
  (∀ invocation,
     (λ τ, F τ ∧ approved_invocation resolution config session_id invocation τ) ⊢ X invocation) →
  Stable P → (P ⊢ F) → (P ⊢ seen session_id snapshot) → rs_decision resolution ≠ DenyApproval →
  same_run_context (rs_request resolution) config = true →
  persisted_request snapshot (rq_approval_id (rs_request resolution))
    = Ok (rs_request resolution) →
  st_tool_calls (sn_state snapshot) !! rq_tool_call_id (rs_request resolution) = Some tool →
  learns P (resume_allowed kernel snapshot resolution
             (mk_CompletedToolCall (tc_tool_call_id tool) (tc_tool_name tool) (tc_arguments tool))
             config run_id turn_id) (λ _ _, True).
Proof using HX HR.
  intros Happroved HP HF Hs Hdec Hcontext Hpersisted Htool.
  set (call := mk_CompletedToolCall _ _ _).
  apply (learns_pure _ _ (tc_tool_call_id tool = rq_tool_call_id (rs_request resolution)));
    [intros τ Hp; by eapply tool_keyed; [apply Hs|]|]. intros Hkey.
  eapply learns_neutral; [done|apply neutral_lift; intros c Hc; exact Hc|]. intros config' Hf.
  eapply learns_bind; [by apply (learns_prepare _ _ _ _ session_id)|].
  intros [invocation|code message]; [|apply learns_raised].
  l_bind (neutral_ensure X w0). intros [] Hsame. l_any neutral_preflight. l_any neutral_deadline.
  rename a0 into deadline.
  apply (learns_pure _ _ (invocation_call_id invocation = rq_tool_call_id (rs_request resolution))).
  { intros τ (_ & metadata & now & _ & _ & Hp). by rewrite (prepared_call_id _ _ _ _ _ Hp). }
  intros Hid l. eapply triple_bind.
  - apply triple_commit_resolution; [apply _|known|done| |done].
    intros τ [[Hp Hprep] Hcommitted]. apply Happroved. split; [by apply HF|]. split; [|exact Hcommitted].
    split_and!; [done..|]. exists snapshot, tool. split_and!; [apply (Hs _ Hp)|done..].
  - intros snapshot'. eapply (learns_execute_approved _ _ snapshot); [apply _|known|known|known|exact Hf].
Qed.

End resume.

(** The run an approval belongs to. *)
Lemma learns_resume F session_id resolution config :
  Stable F →
  (∀ run_id invocation, rq_run_id (rs_request resolution) = Some run_id →
     (λ τ, F τ ∧ policy_allowed kernel config session_id run_id invocation τ) ⊢ X invocation) →
  (∀ config' request,
     (λ τ, F τ ∧ run_config config session_id (Some resolution) config' τ ∧
           committed_request config' session_id request τ) ⊢ may_request X request) →
  (∀ invocation,
     (λ τ, F τ ∧ approved_invocation resolution config session_id invocation τ) ⊢ X invocation) →
  learns F (resume_approval kernel session_id resolution config) (λ _ _, True).
Proof.
  intros HF HX HR Happroved.
  eapply learns_bind; [by apply learns_load|]. intros snapshot.
  eapply learns_neutral; [apply _|apply neutral_lift; intros r Hr; exact Hr|].
  intros request Hpersisted.
  l_bind (neutral_ensure X w0). intros [] Hreq. apply bool_decide_eq_true in Hreq as ->.
  l_bind (neutral_ensure X w0). intros [] Hcontext.
  eapply learns_neutral; [apply _|apply neutral_lift; intros r Hr; exact Hr|].
  intros run_id Hrun%ok_or_ok. l_any neutral_lift. rename a into turn_id.
  eapply learns_neutral; [apply _|apply neutral_lift; intros r Hr; exact Hr|].
  intros tool Htool%ok_or_ok.
  l_any neutral_emitter. case_bool_decide as Hdec.
  - apply (learns_resume_denied _ session_id _ _ F);
      [intros i; by apply HX|exact HR|apply _|known|known].
  - apply (learns_resume_allowed _ session_id _ _ F);
      [intros i; by apply HX|exact HR|exact Happroved|apply _|known|known|done..].
Qed.

(** A run announces itself under an identity of its own. *)
Definition announced (run_id : RunId) : Fact := λ τ,
  (∃ t, next_run_id t = Ok run_id) ∧ emitted (Some run_id) EventRunStarted τ.

#[export] Instance announced_stable run_id : Stable (announced run_id).
Proof. unfold announced. apply _. Qed.

Lemma learns_run F session_id config :
  Stable F →
  (∀ run_id invocation,
     (λ τ, F τ ∧ announced run_id τ ∧
           policy_allowed kernel config session_id run_id invocation τ) ⊢ X invocation) →
  (∀ request, (λ τ, F τ ∧ committed_request config session_id request τ)
     ⊢ may_request X request) →
  learns F (run kernel session_id config) (λ _ _, True).
Proof.
  intros HF HX HR. eapply learns_bind; [by apply learns_load|]. intros snapshot.
  l_any neutral_lift. l_any neutral_preflight.
  eapply (learns_neutral _ _ _ _ _ (λ run_id, ∃ t, next_run_id t = Ok run_id)); [apply _| |].
  { eapply neutral_bind; [by apply (neutral_moment _ _ (λ _, True))|]. intros t _.
    apply neutral_lift. intros run_id Hr. by exists t. }
  intros run_id Hid. l_any neutral_deadline. l_any neutral_port. l_any neutral_emitter.
  eapply learns_bind; [apply learns_emit, _|]. intros [].
  apply (learns_run_loop _ session_id); [|known]. split_and!; [apply _|..].
  - intros i τ [((Hp & _) & He) Hi]. eapply HX. split; [exact Hp|]. split; [by split|exact Hi].
  - intros q τ [((Hp & _) & _) Hq]. apply HR. by split.
Qed.
End handlers.

(** ** Theorems *)

(** What a host calls the kernel for: the session, and the resolution of an
    approval it supplies. *)
Inductive run_operation `{Codec, SchemaEngine, Display, KernelPorts} (kernel : AgentKernel)
    (config : KernelRunConfig) (session_id : SessionId)
    : option ApprovalResolution → K KernelRunOutcome → Prop :=
| op_run : run_operation kernel config session_id None (run kernel session_id config)
| op_resume resolution :
    run_operation kernel config session_id (Some resolution)
      (resume_approval kernel session_id resolution config).

Section permitted.
Context `{Codec, SchemaEngine, Display, KernelPorts}.
Context (kernel : AgentKernel) (config : KernelRunConfig) (session_id : SessionId).
Context (resolution : option ApprovalResolution).

(** The identity of the run: announced by it, or that of the run an approval was
    requested in. *)
Definition run_identity (run_id : RunId) : Fact := λ τ,
  match resolution with
  | None => announced run_id τ
  | Some r => rq_run_id (rs_request r) = Some run_id
  end.

(** What an operation may execute and request, given what it did before. *)
Definition may_run (invocation : ValidatedToolInvocation) : Fact := λ τ,
  (∃ run_id, run_identity run_id τ ∧
     policy_allowed kernel config session_id run_id invocation τ) ∨
  (∃ r, resolution = Some r ∧ approved_invocation kernel r config session_id invocation τ).

Definition may_ask (request : ModelRequest) : Fact := λ τ,
  ∃ config', run_config config session_id resolution config' τ ∧
    committed_request kernel config' session_id request τ.

#[export] Instance run_identity_stable run_id : Stable (run_identity run_id).
Proof. unfold run_identity. destruct resolution; apply _. Qed.
#[export] Instance may_run_stable invocation : Stable (may_run invocation).
Proof. unfold may_run. apply _. Qed.
#[export] Instance may_ask_stable request : Stable (may_ask request).
Proof. unfold may_ask. apply _. Qed.

Definition run_permits : Permits := mk_Permits may_run may_ask _ _.
End permitted.

Section theorems.
Context `{Codec, SchemaEngine, Display, KernelPorts}.
Context (kernel : AgentKernel) (config : KernelRunConfig) (session_id : SessionId).
Context (resolution : option ApprovalResolution) (m : K KernelRunOutcome).
Context (Hop : run_operation kernel config session_id resolution m).

Notation X := (run_permits kernel config session_id resolution).

(** The operation, where what it may do is admitted. *)
Lemma operation_learns (Y : Permits) w0 F :
  Stable F →
  (∀ invocation,
     (λ τ, F τ ∧ may_run kernel config session_id resolution invocation τ) ⊢ Y invocation) →
  (∀ request, (λ τ, F τ ∧ may_ask kernel config session_id resolution request τ)
     ⊢ may_request Y request) →
  learns Y w0 F m (λ _ _, True).
Proof using Hop.
  intros HF HX HR. destruct Hop as [|r].
  - apply learns_run; [done|..].
    + intros run_id i τ (Hf & Ha & Hi). apply HX. split; [done|]. left. by exists run_id.
    + intros q τ [Hf Hq]. apply HR. split; [done|]. by exists config.
  - apply learns_resume; [done|..].
    + intros run_id i Hrun τ [Hf Hi]. apply HX. split; [done|]. left. by exists run_id.
    + intros config' q τ (Hf & Hc & Hq). apply HR. split; [done|]. by exists config'.
    + intros i τ [Hf Hi]. apply HX. split; [done|]. right. by exists r.
Qed.

Context (w : World) (Hstore : store_wf (w_store w)) (Hfresh : w_trace w = []).

(** What the operation keeps, for every host, provider, executor and other
    writer. *)
Lemma run_operation_inv :
  match m w with
  | (Err (Panicked | OutOfFuel), _) => False
  | (_, w') => ∃ τ, run_inv X w τ [] w'
  end.
Proof using Hop Hstore Hfresh.
  assert (starts_before_executions (w_trace w)) as Hsafe by by rewrite Hfresh.
  assert (neutral X w m (λ _, True)) as Hm.
  { apply (operation_learns _ _ (λ _, True)); [apply _|by intros i τ [_ Hi]..]. }
  specialize (Hm [] [] w (run_inv_start _ _ _ Hstore Hsafe eq_refl) I).
  destruct (m w) as [[o|[| |e]] w']; try done; destruct Hm as [n Hn]; rewrite app_nil_r in Hn;
    exists n; apply Hn.
Qed.

(** C6: every run ends.  Starting a run or resuming one from an approval ends
    with an outcome or a typed error, never with a panic and never out of fuel,
    whatever the provider streams, the executors, the host ports and other
    writers do; the store stays well formed. *)
Theorem runs_terminate :
  (m w).1 ≠ Err Panicked ∧ (m w).1 ≠ Err OutOfFuel ∧ store_wf (w_store (m w).2).
Proof using Hop Hstore Hfresh.
  pose proof run_operation_inv as Hrun.
  destruct (m w) as [[o|[| |e]] w']; simpl; try done; destruct Hrun as [τ Hrun];
    (split_and!; [done..|apply Hrun]).
Qed.

(** C7: in a whole run no tool executes before its start is durable.  Each
    execution in the trace of a run or resumed run is preceded by a committed
    [ToolExecutionStarted] of its call that no earlier execution used. *)
Theorem runs_execute_after_start : starts_before_executions (w_trace (m w).2).
Proof using Hop Hstore Hfresh.
  pose proof run_operation_inv as Hrun.
  by destruct (m w) as [[o|[| |e]] w']; try done; destruct Hrun as [τ Hrun]; apply Hrun.
Qed.

(** What an operation added to the trace was admissible where it stands. *)
Lemma run_operation_action newer a older :
  w_trace (m w).2 = newer ++ a :: older → action_ok X older a.
Proof using Hop Hstore Hfresh.
  intros Htrace. pose proof run_operation_inv as Hrun.
  assert (∃ τ, run_inv X w τ [] (m w).2) as [τ Hri].
  { by destruct (m w) as [[o|[| |e]] w']. }
  pose proof (ri_new _ _ _ _ _ Hri) as Hnew. rewrite Hfresh, app_nil_r, Htrace in Hnew.
  eapply justified_action. rewrite Hnew. apply Hri.
Qed.

(** C8: a run executes only what was allowed.  Take any execution in the trace
    of a run, and what the run did before it.  Either the run had announced
    itself (or was resumed under the identity of its approval request), had
    committed or loaded the declaration of the call in this session, had
    prepared the call to exactly this invocation, and the engine, on the input
    made from the profile of a state of this session that the run loaded, from
    this run's actor, workspace and environment, from the actor's grants in a
    store the run read and the time its clock showed right after, decided to
    allow it.  Or, in a resumed run, it is the one the resolution approved: not
    denied, requested in this run's actor, workspace and environment, prepared
    by this run from the call persisted in a state of the session it loaded, to
    the tool version, source, effects and resources of the request persisted in
    that same state, and the run had committed the resolution. *)
Theorem runs_execute_allowed newer invocation older :
  w_trace (m w).2 = newer ++ ActExecuted invocation :: older →
  may_run kernel config session_id resolution invocation older.
Proof using Hop Hstore Hfresh. apply run_operation_action. Qed.

(** C9: a run asks a provider only what the session holds.  Take any request in
    the trace of a run, and what the run did before it: the request was built
    from a state of this session that the run had loaded from the store, for
    the model that state selects, with the run's own configuration (for a
    resumed run, the one with the output format persisted with its approval),
    was accepted before by that provider's own validation, and its estimated
    input and reserved output fit the model's context window. *)
Theorem runs_request_committed_state newer request older :
  w_trace (m w).2 = newer ++ ActRequested request :: older →
  may_ask kernel config session_id resolution request older.
Proof using Hop Hstore Hfresh. apply run_operation_action. Qed.

(** C10: every terminal a run commits is shown to the model.  Each transaction a
    run commits pairs every tool terminal with the result message that repeats
    it. *)
Theorem runs_commit_paired_terminals tx :
  ActCommitted tx ∈ w_trace (m w).2 → results_paired tx.
Proof using Hop Hstore Hfresh.
  intros (newer & older & Htx)%list_elem_of_split. exact (run_operation_action _ _ _ Htx).
Qed.
End theorems.

(** The requests a world sent, newest first. *)
Definition requested (w : World) : list ModelRequest :=
  omap (λ a, match a with ActRequested q => Some q | _ => None end) (w_trace w).

Lemma elem_requested q w : q ∈ requested w → ActRequested q ∈ w_trace w.
Proof. intros (a & Ha & Hq)%list_elem_of_omap. destruct a; by simplify_eq. Qed.

(** ** Witnesses *)

Module KernelRunSample.

#[local] Existing Instances RegistrySample.codec RegistrySample.engine KernelSample.display
  KernelSample.ports.

Definition call_index : ModelStreamIndex := mk_ModelStreamIndex 0.
Definition call_id : ProviderToolCallId := mk_ProviderToolCallId "call_1".

(** A provider that calls a tool first and answers its result. *)
Definition calling : list ModelEvent :=
  [ModelStarted (mk_ModelResponseInfo None None ∅);
   ModelTextDelta (mk_Utf8Delta "rea"); ModelTextDelta (mk_Utf8Delta "ding");
   ModelToolCallStarted (mk_ToolCallStarted call_index call_id "read");
   ModelToolCallCompleted (mk_ToolCallCompleted call_index call_id "read" (JObject []));
   ModelCompleted (mk_ModelCompletion StopToolUse None None ∅)].
Definition respond (request : ModelRequest) : list ModelEvent :=
  match last (mq_messages request) with
  | Some (ToolResult _ _ _ _ _ _ _) => KernelSample.answer
  | _ => calling
  end.
Definition provider : ModelProvider :=
  mk_ModelProvider (mk_selector "prov") [KernelSample.model] (λ _ _, Ok tt) (λ _, respond).
Definition kernel : AgentKernel :=
  mk_AgentKernel (provider_router provider) KernelSample.registry
    [FilesystemReadPolicy; CodingWorkspacePolicy].

Definition started : list RecordEnvelope :=
  [ Sample.envelope 0 (Some Sample.trunk) Sample.session_created;
    Sample.envelope 1 (Some Sample.trunk)
      (ConfigurationChanged (Some (ms_model_ref KernelSample.model)) None None);
    Sample.envelope 2 (Some Sample.trunk) (Sample.user_message 20) ].

Definition world : World :=
  mk_World (StoreSample.after store_new
              (mk_AppendTransaction (mk_id 1) None started None [] []))
    None 0 (mk_EventEmitter (mk_id 1) (SessionSequence_new 10) 0 limits_default) [].

Definition ended : Result Fault KernelRunOutcome * World :=
  run kernel (mk_id 1) KernelSample.config world.

Definition completed : bool :=
  match ended.1 with Ok o => bool_decide (ko_state o = RunCompleted) | Err _ => false end.

End KernelRunSample.

Section witnesses.
#[local] Existing Instances RegistrySample.codec RegistrySample.engine KernelSample.display
  KernelSample.ports.

Lemma run_world_wf : store_wf (w_store KernelRunSample.world).
Proof. apply reachable_store_wf, after_reachable, reachable_store_new. Qed.

Lemma runs_terminate_witness :
  KernelRunSample.completed = true ∧ KernelRunSample.ended.1 ≠ Err OutOfFuel.
Proof.
  split; [by vm_compute|].
  apply (runs_terminate KernelRunSample.kernel KernelSample.config (mk_id 1) None
           (run KernelRunSample.kernel (mk_id 1) KernelSample.config) (op_run _ _ _)
           KernelRunSample.world run_world_wf); reflexivity.
Defined.

Lemma runs_execute_after_start_witness :
  executed KernelRunSample.ended.2 ≠ [] ∧
  starts_before_executions (w_trace KernelRunSample.ended.2).
Proof.
  split; [by vm_compute|].
  apply (runs_execute_after_start KernelRunSample.kernel KernelSample.config (mk_id 1) None
           (run KernelRunSample.kernel (mk_id 1) KernelSample.config) (op_run _ _ _)
           KernelRunSample.world run_world_wf); reflexivity.
Defined.

Lemma runs_execute_allowed_witness :
  ∃ newer invocation older,
    w_trace KernelRunSample.ended.2 = newer ++ ActExecuted invocation :: older ∧
    may_run KernelRunSample.kernel KernelSample.config (mk_id 1) None invocation older.
Proof.
  destruct (executed KernelRunSample.ended.2) as [|i l] eqn:He.
  { exfalso. assert (executed KernelRunSample.ended.2 ≠ []) as Hne by by vm_compute.
    exact (Hne He). }
  assert (ActExecuted i ∈ w_trace KernelRunSample.ended.2) as Hin.
  { apply elem_executed. rewrite He. left. }
  apply list_elem_of_split in Hin as (newer & older & Hin).
  exists newer, i, older. split; [exact Hin|].
  apply (runs_execute_allowed KernelRunSample.kernel KernelSample.config (mk_id 1) None
           (run KernelRunSample.kernel (mk_id 1) KernelSample.config) (op_run _ _ _)
           KernelRunSample.world run_world_wf eq_refl newer); exact Hin.
Defined.

Lemma runs_request_committed_state_witness :
  ∃ newer request older,
    w_trace KernelRunSample.ended.2 = newer ++ ActRequested request :: older ∧
    may_ask KernelRunSample.kernel KernelSample.config (mk_id 1) None request older.
Proof.
  destruct (requested KernelRunSample.ended.2) as [|q l] eqn:Hq.
  { exfalso. assert (length (requested KernelRunSample.ended.2) = 2) as Hne by by vm_compute.
    rewrite Hq in Hne. discriminate Hne. }
  assert (ActRequested q ∈ w_trace KernelRunSample.ended.2) as Hin.
  { apply elem_requested. rewrite Hq. left. }
  apply list_elem_of_split in Hin as (newer & older & Hin).
  exists newer, q, older. split; [exact Hin|].
  apply (runs_request_committed_state KernelRunSample.kernel KernelSample.config (mk_id 1) None
           (run KernelRunSample.kernel (mk_id 1) KernelSample.config) (op_run _ _ _)
           KernelRunSample.world run_world_wf eq_refl newer); exact Hin.
Defined.

Lemma runs_commit_paired_terminals_witness :
  length (commits KernelRunSample.ended.2) = 5 ∧
  ∀ tx, ActCommitted tx ∈ w_trace KernelRunSample.ended.2 → results_paired tx.
Proof.
  split; [by vm_compute|].
  apply (runs_commit_paired_terminals KernelRunSample.kernel KernelSample.config (mk_id 1) None
           (run KernelRunSample.kernel (mk_id 1) KernelSample.config) (op_run _ _ _)
           KernelRunSample.world run_world_wf); reflexivity.
Defined.
End witnesses.

(** ** What a resumed run is charged for

    The bytes a resumed run starts with are counted from the log; its segments
    end at checkpoints only. *)
Module ChargedSample.

#[local] Existing Instances RegistrySample.codec.

Definition interrupted_run : RunId := mk_id 3.
Definition waiting_run : RunId := mk_id 4.
Definition other_call : ToolCallId := mk_id 8.

Definition assistant (message : N) (text : string) (call : ToolCallId) : SessionRecord :=
  MessageCommitted (Assistant (mk_id message)
    [Text text; ToolCall call None "write" Sample.arguments] StopToolUse (Timestamp 0)).

(** A run whose calls are settled, interrupted before its checkpoint. *)
Definition first_run : list RecordEnvelope :=
  zip_with (λ n r, Sample.envelope (N.of_nat n) (Some Sample.trunk) r) (seq 0 8)
  [ Sample.session_created; Sample.user_message 20; assistant 21 "0123456789" Sample.call;
    ToolCallRequested Sample.call "write" Sample.arguments;
    PolicyDecisionRecorded Sample.call PolicyDeny;
    ToolExecutionFinished Sample.call true Sample.output
      (Some (mk_ToolFailure "policy_denied" "denied")) None;
    MessageCommitted (ToolResult (mk_id 22) Sample.call "write" Sample.output true
      (Some (mk_ToolFailure "policy_denied" "denied")) (Timestamp 0));
    RunInterrupted interrupted_run (mk_id 5) "interrupted" ].

(** The next run, up to the approval it waits for. *)
Definition second_run : list RecordEnvelope :=
  first_run ++
  zip_with (λ n r, Sample.envelope (N.of_nat n) (Some Sample.trunk) r) (seq 8 6)
  [ Sample.user_message 23; assistant 24 "hello" other_call;
    ToolCallRequested other_call "write" Sample.arguments;
    PolicyDecisionRecorded other_call PolicyRequireApproval;
    ApprovalRequested (mk_id 9) other_call (Timestamp 100);
    TurnCheckpointed waiting_run (mk_id 6) NextWaitForApproval ].

Definition snapshot (records : list RecordEnvelope) : SessionSnapshot :=
  mk_SessionSnapshot records (Sample.state_of (Sample.reducer_of records)) [] [] [] 0.

End ChargedSample.

Section charged.
#[local] Existing Instances RegistrySample.codec.

(** The log is accepted, the second run may start after the first, and a resume
    of it is charged for the five bytes it streamed and for the ten of the run
    that was interrupted before. *)
Lemma resumed_run_charged_for_other_run :
  (is_ok <$> replay ChargedSample.second_run) = Some true ∧
  validate_new_run_state (ChargedSample.snapshot ChargedSample.first_run) = Ok tt ∧
  committed_assistant_output_bytes (ChargedSample.snapshot ChargedSample.second_run)
    ChargedSample.waiting_run = Ok 15%N.
Proof. by vm_compute. Qed.
End charged.
