(* ===== verification/KernelLiveness.v ===== *)
(** * Kernel: failed runs are recorded

    [ensure_run_terminal] of [KernelTools.v] at a store another writer leaves
    alone: the reducer accepts a terminal of a run that has none, the
    transaction that carries it is applied, and so a run whose loop failed has a
    durable terminal even where observing it fails. *)

From S2P Require Import Prelude Protocol Tools Policy Approval SessionState Reducer ReducerReplay.
From S2P Require Import ReducerSteps SessionInvariants SessionHeads Artifact Store StoreTheorems.
From S2P Require Import Validation Usage ModelSpec Event Registry ModelStream ModelProvider.
From S2P Require Import KernelBase KernelConfig KernelMonad KernelRequest KernelTools KernelTurn.
From S2P Require Import KernelRun KernelLogic KernelTheorems KernelRunTheorems.
Local Open Scope tea_scope.

(** ** The reducer accepts a first terminal *)

(** The run a record ends before its completion. *)
Definition ended_run (record : SessionRecord) : option RunId :=
  match record with
  | RunInterrupted run_id _ _ | RunCancelled run_id => Some run_id
  | _ => None
  end.

(** The state after the record. *)
Lemma apply_ended r s envelope run_id :
  r_state r = Some s → ended_run (env_record envelope) = Some run_id →
  st_run_recovery s !! run_id = None →
  ∃ recovery, apply_record envelope r =
    (Ok tt, set_r_state (Some (set_st_run_recovery (<[run_id := recovery]> (st_run_recovery s)) s)) r).
Proof.
  intros Hs Hrun Hnone. unfold apply_record.
  assert (∀ m : reducer_m unit, (do! materialized in m) r = m r) as Hmat.
  { intros m. unfold st_bind. by rewrite (materialized_run _ _ Hs). }
  rewrite Hmat. destruct (env_record envelope); simplify_eq/=.
  - exists (RecoveryInterrupted turn_id reason). unfold apply_run_interrupted.
    eapply st_bind_run; [by apply materialized_run|]. unfold st_bind, st_ensure, st_lift, ensure.
    rewrite bool_decide_true by done. unfold update_state, st_modify. by rewrite Hs.
  - exists RecoveryCancelled. unfold apply_run_cancelled.
    eapply st_bind_run; [by apply materialized_run|].
    eapply st_bind_run; [unfold update_state, st_modify; by rewrite Hs|].
    unfold st_ensure, st_lift, ensure. by rewrite bool_decide_true.
Qed.

Lemma capture_run r s record_id h :
  heads_wf s (r_branch_heads r) (r_record_ids r) →
  (∀ s1, st_active_branch_id s1 = st_active_branch_id s → st_branches s1 = st_branches s →
   ∃ c s2, capture_active_branch record_id (mk_ReducerCall (set_r_state (Some s1) r) h) = (Ok tt, c) ∧
     r_state (rc_self c) = Some s2 ∧ st_run_recovery s2 = st_run_recovery s1).
Proof.
  intros Hwf s1 Hact Hbr. unfold capture_active_branch.
  set (r1 := set_r_state (Some s1) r).
  assert (materialized r1 = (Ok s1, r1)) as Hmat by by apply materialized_run.
  unfold st_bind at 1. rewrite (on_self_run _ _ _ _ _ Hmat). rewrite Hact.
  destruct (st_active_branch_id s) as [b|] eqn:Hb; [|by eexists _, s1].
  destruct (hwf_active _ _ _ Hwf _ Hb) as (head & Hhead & _).
  assert (is_Some (st_branches s !! b)) as [summary Hsummary].
  { apply elem_of_dom. rewrite <- (hwf_branches _ _ _ Hwf). by apply elem_of_dom_2 in Hhead. }
  unfold st_bind at 1. rewrite (on_self_run _ r1 h head r1).
  2:{ unfold get_head, st_bind, st_gets, st_lift. simpl. by rewrite Hhead. }
  unfold st_bind at 1. erewrite on_self_run by done.
  unfold st_bind at 1. erewrite on_self_run.
  2:{ unfold update_leaf. eapply st_bind_run; [by apply materialized_run|].
      rewrite Hbr, Hsummary. reflexivity. }
  by eexists _, _.
Qed.

(** A fresh record that extends the log and ends a run for the first time. *)
Record first_terminal (r : SessionReducer) (s : MaterializedSessionState)
    (envelope : RecordEnvelope) (run_id : RunId) : Prop := {
  ft_run : ended_run (env_record envelope) = Some run_id;
  ft_first : st_run_recovery s !! run_id = None;
  ft_fresh : env_record_id envelope ∉ r_record_ids r;
  ft_extends : extends envelope s;
  ft_branch : env_branch_id envelope = st_active_branch_id s
}.

Lemma first_terminal_inner r s envelope run_id :
  reachable r → r_state r = Some s → first_terminal r s envelope run_id →
  ∃ r' s', apply_inner envelope r = (Ok tt, r') ∧ r_state r' = Some s' ∧
    is_Some (st_run_recovery s' !! run_id).
Proof.
  intros Hr Hs [Hrun Hnone Hfresh [Hsid Hnext] Hbranch].
  pose proof (reachable_session_wf _ Hr _ Hs) as Hwf.
  destruct (apply_ended _ _ _ _ Hs Hrun Hnone) as [recovery Hap].
  set (s1 := set_st_run_recovery (<[run_id := recovery]> (st_run_recovery s)) s) in *.
  destruct (capture_run r s (env_record_id envelope) None Hwf s1 eq_refl eq_refl)
    as (c & s2 & Hcap & Hs2 & Hrec).
  assert (apply_body replay_branch_snapshot envelope (mk_ReducerCall r None) = (Ok tt, c)) as Hbody.
  { unfold apply_body. destruct (env_record envelope); try done;
      (unfold st_bind; rewrite (on_self_run _ _ _ _ _ Hap); exact Hcap). }
  exists (insert_record_id (env_record_id envelope)
            (set_r_state (Some (set_st_tail (env_sequence envelope) (env_record_id envelope) s2))
               (rc_self c))), (set_st_tail (env_sequence envelope) (env_record_id envelope) s2).
  split_and!; [|done|].
  2:{ simpl. rewrite Hrec. simpl. by rewrite lookup_insert_eq. }
  assert (validate_envelope envelope r = (Ok tt, r)) as Hval.
  { unfold validate_envelope. eapply st_bind_run; [by apply materialized_run|].
    unfold st_bind, st_ensure, st_lift, ensure, ok_or.
    rewrite bool_decide_true, Hnext by done. by rewrite bool_decide_true. }
  assert (validate_branch_scope envelope r = (Ok tt, r)) as Hscope.
  { unfold validate_branch_scope. eapply st_bind_run; [by apply materialized_run|].
    unfold st_ensure, st_lift, ensure. by rewrite Hbranch, bool_decide_true, orb_true_r. }
  assert (is_creation_record (env_record envelope) = false) as Hcreation
    by by destruct (env_record envelope).
  unfold apply_inner, apply_inner_with_history, st_bind at 1 2 3, on_self, st_gets. simpl.
  unfold st_ensure, st_lift, ensure. rewrite bool_decide_false by done. simpl.
  rewrite Hs. unfold apply_next, st_bind. rewrite (on_self_run _ _ _ _ _ Hval). unfold st_ensure, st_lift.
  rewrite Hcreation. simpl. rewrite (on_self_run _ _ _ _ _ Hscope), Hbody.
  unfold on_self, materialized, update_state, st_modify. simpl. by rewrite Hs2.
Qed.

Lemma first_terminal_accepted r s envelope run_id :
  reachable r → r_state r = Some s → first_terminal r s envelope run_id →
  ∃ r' s', accept envelope r = (Ok tt, r') ∧ apply r envelope = Some (Ok tt, r') ∧
    r_state r' = Some s' ∧ is_Some (st_run_recovery s' !! run_id).
Proof.
  intros Hr Hs Hft. destruct (first_terminal_inner _ _ _ _ Hr Hs Hft) as (r' & s' & Hi & Hs' & Hrec).
  exists (push_record envelope r'), s'. split_and!; [apply accept_ok; eauto| |done|done].
  unfold apply. by rewrite Hi.
Qed.

(** ** The store applies it *)

Lemma context_of_accepted r e r' contexts :
  accept e r = (Ok tt, r') → is_ok (context_of r' e contexts) = true.
Proof.
  intros (s' & Hs' & Hstep)%accept_step. unfold context_of.
  destruct (env_record e) eqn:He; try done. rewrite Hs'. simpl.
  assert (∀ s s1, record_step e s s1 → is_Some (st_tool_calls s1 !! tool_call_id)) as Hrec.
  { intros s s1 Hr. inversion Hr; try congruence. simplify_eq. simpl. rewrite He in *. simplify_eq.
    by rewrite lookup_insert_eq. }
  assert (is_Some (st_tool_calls s' !! tool_call_id)) as [tool Htool].
  { inversion Hstep; try congruence; subst;
      match goal with H : record_step _ _ _ |- _ => exact (Hrec _ _ H) end. }
  unfold result_bind, ok_or. by rewrite Htool.
Qed.

Lemma contexts_from_accepted records r contexts r' :
  reachable r → st_for records accept r = (Ok tt, r') →
  ∃ contexts', contexts_from r contexts records = Some (Ok contexts').
Proof.
  revert r contexts. induction records as [|e records IH]; intros r contexts Hr; simpl; intros Hall;
    [eauto|]. st_inv. rename select (accept e r = _) into Hacc.
  destruct (apply_cases r e (reachable_replayed _ Hr)) as [(r2 & Ha & Hap)|(er & r1 & Hi & _)].
  - rewrite Ha in Hacc. injection Hacc as <-. rewrite Hap. pose proof (context_of_accepted _ _ _ contexts Ha) as Hc.
    destruct (context_of r2 e contexts) as [contexts1|]; [|done].
    apply IH; [by eapply reachable_apply|done].
  - exfalso. apply accept_ok in Hacc as (? & ? & _). congruence.
Qed.

(** A log and no artifacts leave the artifacts alone. *)
Lemma artifacts_unchanged r sid records s :
  reachable r → artifacts_apply sid (r_records r) records [] [] s = Some (Ok tt, s).
Proof.
  intros Hr. unfold artifacts_apply, approval_contexts.
  destruct (contexts_from_accepted (r_records r) reducer_new ∅ r reachable_new
              (reachable_replayed _ Hr)) as [contexts ->]. done.
Qed.

Lemma terminal_transaction stored s envelope run_id in_use :
  stored_wf stored → r_state (sd_reducer stored) = Some s →
  first_terminal (sd_reducer stored) s envelope run_id →
  ∃ outcome stored' s',
    apply_transaction_in_place (record_transaction s [envelope]) stored true in_use
      = Some (Ok outcome, stored') ∧
    r_state (sd_reducer stored') = Some s' ∧ is_Some (st_run_recovery s' !! run_id).
Proof.
  intros Hwf Hs Hft. pose proof (ft_extends _ _ _ _ Hft) as [Hsid Hnext].
  destruct (first_terminal_accepted _ _ _ _ (sdw_reducer _ Hwf) Hs Hft)
    as (r' & s' & Hacc & Hap & Hs' & Hrec).
  destruct (reachable_log_wf _ _ (sdw_reducer _ Hwf) Hs) as [_ (last & Hlast & Htail & _)].
  rewrite (sdw_records _ Hwf) in Hlast.
  assert (admit_transaction (record_transaction s [envelope]) stored true in_use
            = Ok (Some (st_tail_sequence s), sd_journal_revision stored)) as Hadm.
  { assert (validate_transaction_shape (record_transaction s [envelope]) = Ok tt) as Hshape.
    { unfold validate_transaction_shape. simpl. by rewrite Hsid, bool_decide_true. }
    assert (validate_expectation (Some stored) (record_transaction s [envelope]) = Ok tt) as Hexp.
    { unfold validate_expectation. destruct (sd_records stored) as [|e0 l] eqn:Hrecs; [done|].
      simpl is_empty. cbv iota beta. unfold record_transaction. simpl tx_expected_sequence.
      cbv iota. rewrite Hlast, bool_decide_true by done. unfold result_bind, ensure, ok_or. simpl.
      by rewrite Hnext, bool_decide_true. }
    unfold admit_transaction. rewrite Hshape, Hexp, Hs.
    change (entry_count (tx_approval_artifacts (record_transaction s [envelope]))
      (tx_grant_entries (record_transaction s [envelope])) _) with (Ok (E:=SessionStoreError) 0%N).
    assert (checked_add_u64 (sd_journal_revision stored) 0 = Some (sd_journal_revision stored))
      as Hadd; [|unfold result_bind, ok_or; simpl; by rewrite Hadd].
    apply checked_add_Some. rewrite N.add_0_r. split; [done|].
    pose proof (sdw_revision _ Hwf) as Hrev. apply checked_add_Some in Hrev as [Hrev Hmax].
    by rewrite Hrev. }
  unfold apply_transaction_in_place. rewrite Hadm. simpl. rewrite Hap.
  assert (sd_records stored ++ [envelope] = r_records r') as Hrecords.
  { by rewrite (accept_records _ _ _ _ Hacc), (sdw_records _ Hwf). }
  rewrite Hrecords, artifacts_unchanged by (eapply reachable_apply; [apply Hwf|done]).
  rewrite Hs'. by eexists _, _, s'.
Qed.

Lemma append_terminal m id stored s envelope run_id :
  store_wf m → ms_sessions m !! id = Some stored → r_state (sd_reducer stored) = Some s →
  first_terminal (sd_reducer stored) s envelope run_id →
  ∃ outcome m' stored' s',
    append m (record_transaction s [envelope]) = Some (Ok outcome, m') ∧
    ms_sessions m' !! id = Some stored' ∧ r_state (sd_reducer stored') = Some s' ∧
    is_Some (st_run_recovery s' !! run_id).
Proof.
  intros Hm Hid Hs Hft. destruct (mw_sessions _ Hm _ _ Hid) as (Hwf & s0 & Hs0 & Hsid). simplify_eq.
  destruct (terminal_transaction stored s envelope run_id
    (λ id, bool_decide (id ∈ known_grant_ids (ms_sessions m))) Hwf Hs Hft)
    as (outcome & stored' & s' & Htx & Hs' & Hrec).
  unfold append. simpl tx_session_id. rewrite Hid. rewrite bool_decide_true by done. simpl default.
  rewrite Htx. eexists outcome, _, stored', s'. split_and!; [done| |done|done].
  simpl. by rewrite lookup_insert_eq.
Qed.

(** ** The kernel records it *)

Section liveness.
Context `{Codec, SchemaEngine, Display, KernelPorts}.

(** The session [id] of a store holds a terminal of the run. *)
Definition durable_terminal (m : InMemorySessionStore) (id : SessionId) (run_id : RunId) : Prop :=
  ∃ stored s, ms_sessions m !! id = Some stored ∧ r_state (sd_reducer stored) = Some s ∧
    run_has_terminal s run_id = true.

(** The host a failed run is recorded at: from this world on no other writer
    appends, the clock and the record ids answer, the ids are fresh, the log has
    room, and the failure has a message a record can carry. *)
Record responsive (w : World) (id : SessionId) (error : KernelError) : Prop := {
  rp_store : store_wf (w_store w);
  rp_quiet : ∀ t, w_moment w ≤ t → other_writers t = [];
  rp_clock : ∀ t, w_moment w ≤ t → is_ok (clock_now t) = true;
  rp_session : ∃ stored s, ms_sessions (w_store w) !! id = Some stored ∧
    r_state (sd_reducer stored) = Some s ∧ checked_next (st_tail_sequence s) ≠ None ∧
    ∀ t, w_moment w ≤ t → ∃ rid, next_record_id t = Ok rid ∧ rid ∉ r_record_ids (sd_reducer stored);
  rp_message : bounded_text (ke_message error) 4096 = true
}.

Lemma interfere_quiet w : other_writers (w_moment w) = [] → interfere w = (Ok tt, advance w).
Proof.
  intros Hq. unfold interfere, moment, st_bind, st_modify. simpl. rewrite Hq. simpl. by destruct w.
Qed.

Lemma keeps_moment : keeps w_store moment.
Proof. by intros w. Qed.
#[local] Hint Resolve keeps_moment : keeps.

(** Emitting an event leaves the store alone. *)
Lemma emit_store run_id turn_id event w : w_store (emit run_id turn_id event w).2 = w_store w.
Proof.
  assert (keeps w_store (emit run_id turn_id event)) as Hk; [|by rewrite <- (Hk w)].
  unfold emit, k_ensure, k_from, port, k_lift. solve_keeps.
Qed.

(** A port that answers. *)
Lemma port_run {A} (f : nat → Result KernelError A) a w :
  f (w_moment w) = Ok a → port f w = (Ok a, advance w).
Proof. intros Hf. unfold port, st_bind, moment, k_lift, st_lift. simpl. by rewrite Hf. Qed.

Lemma k_lift_run {A} (r : Result KernelError A) a w : r = Ok a → k_lift r w = (Ok a, w).
Proof. by intros ->. Qed.

(** A read among quiet writers finds the store as it is. *)
Lemma quiet_store w : other_writers (w_moment w) = [] → store_at w = w_store w.
Proof. intros Hq. unfold store_at. by rewrite Hq. Qed.

Lemma load_run w id stored s :
  other_writers (w_moment w) = [] → ms_sessions (w_store w) !! id = Some stored →
  r_state (sd_reducer stored) = Some s →
  ∃ snapshot, store_load id w = (Ok snapshot, after_read w) ∧ sn_state snapshot = s.
Proof.
  intros Hq Hid Hs. unfold store_load. unfold st_bind at 1. rewrite store_read_run.
  rewrite quiet_store by done. unfold load. rewrite Hid. unfold Store.snapshot. rewrite Hs.
  by eexists.
Qed.

(** One record of a session is one fresh envelope. *)
Lemma envelope_run w s record now sequence rid :
  clock_now (w_moment w) = Ok now → next_record_id (S (w_moment w)) = Ok rid →
  checked_next (st_tail_sequence s) = Some sequence → record_validate record = Ok tt →
  ended_run record ≠ None →
  ∃ envelope,
    envelopes (st_session_id s) (st_tail_sequence s) (st_active_branch_id s) [record] w
      = (Ok [envelope], advance (advance w)) ∧
    env_record envelope = record ∧ env_record_id envelope = rid ∧ extends envelope s ∧
    env_branch_id envelope = st_active_branch_id s.
Proof.
  intros Hclock Hid Hnext Hvalid Hended. unfold envelopes.
  eexists. split.
  - eapply st_bind_run; [by apply port_run|]. unfold envelopes_at. simpl.
    eapply st_bind_run; [apply k_lift_run; by rewrite Hnext|].
    eapply st_bind_run; [by apply port_run|].
    eapply st_bind_run.
    { apply k_lift_run. unfold from_error, envelope_new, envelope_validate. simpl. rewrite Hvalid.
      unfold result_bind. destruct record; try done. }
    reflexivity.
  - by split_and!.
Qed.
Lemma recovered_terminal s run_id :
  is_Some (st_run_recovery s !! run_id) → run_has_terminal s run_id = true.
Proof. intros Hs. unfold run_has_terminal. by rewrite bool_decide_true. Qed.

Lemma no_terminal s run_id : run_has_terminal s run_id = false → st_run_recovery s !! run_id = None.
Proof.
  unfold run_has_terminal. intros [Hn _]%orb_false_iff. bool_prop. by apply eq_None_not_Some.
Qed.

(** Appending the terminal of a run that has none. *)
Lemma append_terminal_run w id error snapshot stored s record run_id :
  responsive w id error → ms_sessions (w_store w) !! id = Some stored →
  r_state (sd_reducer stored) = Some s → sn_state snapshot = s →
  st_run_recovery s !! run_id = None → ended_run record = Some run_id →
  record_validate record = Ok tt →
  ∃ snapshot' w', append_records snapshot [record] w = (Ok snapshot', w') ∧
    durable_terminal (w_store w') id run_id.
Proof.
  intros Hr Hid Hs Hsn Hnone Hrun Hvalid.
  destruct (rp_session _ _ _ Hr) as (stored0 & s0 & Hid0 & Hs0 & Hroom & Hfresh).
  assert (stored0 = stored) as -> by congruence. assert (s0 = s) as -> by congruence.
  destruct (mw_sessions _ (rp_store _ _ _ Hr) _ _ Hid) as (_ & s1 & Hs1 & Hsid).
  assert (s1 = s) as -> by congruence.
  destruct (checked_next (st_tail_sequence s)) as [sequence|] eqn:Hnext; [|done].
  pose proof (rp_clock _ _ _ Hr (w_moment w) ltac:(lia)) as Hclock.
  destruct (clock_now (w_moment w)) as [now|] eqn:Hnow; [|done].
  destruct (Hfresh (S (w_moment w)) ltac:(lia)) as (rid & Hrid & Hnew).
  destruct (envelope_run w s record now sequence rid Hnow Hrid Hnext Hvalid ltac:(by rewrite Hrun))
    as (envelope & Hes & Hrec & Hrid' & Hext & Hbranch).
  assert (first_terminal (sd_reducer stored) s envelope run_id) as Hft.
  { split; [by rewrite Hrec|done|by rewrite Hrid'|done|done]. }
  destruct (append_terminal _ _ _ _ _ _ (rp_store _ _ _ Hr) Hid Hs Hft)
    as (outcome & m' & stored' & s' & Happ & Hid' & Hs' & Hrecovery).
  set (w1 := advance (advance w)) in *.
  set (w2 := act (ActCommitted (record_transaction s [envelope])) (set_w_store m' (advance w1))).
  assert (store_append (record_transaction s [envelope]) w1 = (Ok tt, w2)) as Hstore.
  { unfold store_append, st_bind. rewrite interfere_quiet by (apply (rp_quiet _ _ _ Hr); simpl; lia).
    simpl. by rewrite Happ. }
  destruct (load_run w2 id stored' s') as (snapshot' & Hload & _);
    [apply (rp_quiet _ _ _ Hr); simpl; lia|done|done|].
  exists snapshot', (after_read w2). split.
  - unfold append_records. rewrite Hsn. cbv zeta. eapply st_bind_run; [exact Hes|].
    eapply st_bind_run; [exact Hstore|]. by rewrite Hsid.
  - assert (w_store (after_read w2) = m') as Hstore2.
    { unfold after_read. simpl. apply quiet_store, (rp_quiet _ _ _ Hr). simpl. lia. }
    exists stored', s'. rewrite Hstore2. split_and!; [done|done|by apply recovered_terminal].
Qed.

Lemma validate_ended run_id turn_id message :
  bounded_text message 4096 = true → record_validate (RunInterrupted run_id turn_id message) = Ok tt.
Proof. intros Hm. simpl. unfold validate_interruption, ensure. by rewrite Hm. Qed.

Lemma record_terminal_run w id error snapshot stored s run_id turn_id :
  responsive w id error → ms_sessions (w_store w) !! id = Some stored →
  r_state (sd_reducer stored) = Some s → sn_state snapshot = s →
  st_run_recovery s !! run_id = None →
  durable_terminal (w_store (record_run_terminal snapshot run_id (Some turn_id) error w).2) id run_id.
Proof.
  intros Hr Hid Hs Hsn Hnone. unfold record_run_terminal.
  assert (∀ record status, ended_run record = Some run_id → record_validate record = Ok tt →
    durable_terminal (w_store ((let! _ := append_records snapshot [record] in
      emit (Some run_id) None (EventRunFinished status None None)) w).2) id run_id) as Happ.
  { intros record status Hrun Hvalid.
    destruct (append_terminal_run _ _ _ _ _ _ _ _ Hr Hid Hs Hsn Hnone Hrun Hvalid)
      as (snapshot' & w' & Ha & Hd). unfold st_bind. rewrite Ha. by rewrite emit_store. }
  case_bool_decide; unfold st_bind at 1; simpl; apply Happ; try done.
  apply validate_ended, Hr.
Qed.

(** Recording the end of a failed run ends it durably. *)
Lemma ensure_terminal_run w id run_id turn_id error :
  responsive w id error →
  durable_terminal (w_store (ensure_run_terminal id run_id turn_id error w).2) id run_id.
Proof.
  intros Hr. destruct (rp_session _ _ _ Hr) as (stored & s & Hid & Hs & _).
  pose proof (rp_quiet _ _ _ Hr _ (le_n _)) as Hquiet.
  destruct (load_run w id stored s Hquiet Hid Hs) as (snapshot & Hload & Hsn).
  assert (w_store (after_read w) = w_store w) as Hsame by (by apply quiet_store).
  unfold ensure_run_terminal, st_bind. rewrite Hload, Hsn.
  destruct (run_has_terminal s run_id) eqn:Hterm; [exists stored, s; change (w_store _) with (w_store (after_read w)); by rewrite Hsame|].
  apply (record_terminal_run (after_read w) id error snapshot stored s run_id turn_id);
    rewrite ?Hsame; try done.
  - destruct Hr as [? Hq Hc (stored0 & s0 & ? & ? & ? & Hf) ?].
    split; rewrite ?Hsame; try done; simpl.
    + intros t Ht. apply Hq. lia.
    + intros t Ht. apply Hc. lia.
    + exists stored0, s0. split_and!; try done. intros t Ht. apply Hf. lia.
  - by apply no_terminal.
Qed.

(** The loop hands its failure to its caller as a value. *)
Lemma k_try_never_raises {A} (m : K A) w e w' : k_try m w ≠ (Err (Raised e), w').
Proof. unfold k_try. by destruct (m w) as [[a|[| |err]] w1]. Qed.

Lemma loop_never_raises kernel fuel snapshot config run_id progress auto turn_id w e w' :
  run_loop_inner kernel fuel snapshot config run_id progress auto turn_id w ≠ (Err (Raised e), w').
Proof.
  revert snapshot progress auto turn_id w.
  induction fuel as [|fuel IH]; intros snapshot progress auto turn_id w; [done|]. simpl.
  unfold st_bind at 1. pose proof (k_try_never_raises (begin_turn snapshot run_id progress) w) as Hb.
  destruct (k_try _ w) as [[[turn|error]|[| |err]] w1]; try done;
    try by destruct (Hb err w1).
  unfold st_bind. pose proof (k_try_never_raises
    (run_turn kernel snapshot config run_id turn (take_prepared_turn progress) auto) w1) as Ht.
  destruct (k_try _ w1) as [[[[]|error]|[| |err]] w2]; try done;
    first [apply IH|by destruct (Ht err w2)].
Qed.

(** C17: a failed run is never left without a durable end.  When the loop of a
    run fails, and from there on no other writer appends, the clock and fresh
    record ids answer, the log has room and the failure has a message a record
    can carry, the session in the store ends that run, whatever the event sink
    does. *)
Theorem failed_run_recorded kernel snapshot config run_id progress w error w' :
  run_loop kernel snapshot config run_id progress w = (Err (Raised error), w') →
  let id := st_session_id (sn_state snapshot) in
  ∃ cause turn_id w1,
    run_loop_inner kernel (run_fuel config progress) snapshot config run_id progress false
      (rp_terminal_turn_id progress) w = (Ok (Err cause, turn_id), w1) ∧
    (responsive w1 id cause → durable_terminal (w_store w') id run_id).
Proof.
  unfold run_loop, st_bind. intros Hrun. cbv zeta.
  pose proof (loop_never_raises kernel (run_fuel config progress) snapshot config run_id progress
    false (rp_terminal_turn_id progress) w) as Hloop.
  destruct (run_loop_inner _ _ _ _ _ _ _ _ w) as [[[[outcome|cause] turn_id]|fault] w1]; try done.
  2:{ injection Hrun as -> ->. by destruct (Hloop error w'). }
  exists cause, turn_id, w1. split; [done|]. intros Hr.
  pose proof (ensure_terminal_run w1 _ run_id turn_id cause Hr) as Hd.
  simpl in Hrun. unfold st_bind in Hrun.
  destruct (ensure_run_terminal _ _ _ _ w1) as [[[]|fault] w2]; by injection Hrun as -> <-.
Qed.
End liveness.

(** ** A failing run *)

Module LivenessSample.

#[local] Existing Instances RegistrySample.codec RegistrySample.engine KernelSample.display
  KernelSample.ports.

(** A run whose model is gone, and which may not emit a single event. *)
Definition kernel : AgentKernel :=
  mk_AgentKernel (provider_router
    (mk_ModelProvider (mk_selector "other") [] (λ _ _, Ok tt) (λ _ _, KernelSample.answer)))
    KernelSample.registry [].
Definition limits : RunLimits :=
  mk_RunLimits 8 (max_elapsed limits_default) 1000 0 16.
Definition world : World :=
  mk_World (w_store KernelRunSample.world) None 0
    (mk_EventEmitter (mk_id 1) (SessionSequence_new 10) 0 limits) [].
Definition snapshot : SessionSnapshot := KernelSample.loaded world.
Definition progress : RunProgress :=
  mk_RunProgress 0 0 (Timestamp 1000) (mk_id 4) (Some (mk_id 4)).

Definition ended : Result Fault KernelRunOutcome * World :=
  run_loop kernel snapshot KernelSample.config (mk_id 3) progress world.
Definition failed : Result Fault (Result KernelError KernelRunOutcome * TurnId) * World :=
  run_loop_inner kernel (run_fuel KernelSample.config progress) snapshot
    KernelSample.config (mk_id 3) progress false (rp_terminal_turn_id progress) world.

End LivenessSample.

Section witnesses.
#[local] Existing Instances RegistrySample.codec RegistrySample.engine KernelSample.display
  KernelSample.ports.

Definition sample_stored : StoredSession :=
  default stored_default (ms_sessions (w_store KernelRunSample.world) !! (mk_id 1 : SessionId)).

Lemma sample_session :
  ms_sessions (w_store KernelRunSample.world) !! (mk_id 1 : SessionId) = Some sample_stored.
Proof. by vm_compute. Qed.

Lemma sample_record_ids n : (mk_id (1000 + n) : RecordId) ∉ r_record_ids (sd_reducer sample_stored).
Proof.
  destruct (mw_sessions _ run_world_wf _ _ sample_session) as (Hwf & _).
  destruct (reachable_record_ids _ (sdw_reducer _ Hwf)) as [-> _].
  assert (env_record_id <$> r_records (sd_reducer sample_stored) = [mk_id 100; mk_id 101; mk_id 102])
    as ->
    by by vm_compute.
  rewrite elem_of_list_to_set, !elem_of_cons, elem_of_nil.
  intros [Hn|[Hn|[Hn|[]]]]; injection Hn; lia.
Qed.

Lemma sample_failed_store : w_store LivenessSample.failed.2 = w_store KernelRunSample.world.
Proof. by vm_compute. Qed.

Lemma sample_responsive error :
  bounded_text (ke_message error) 4096 = true → responsive LivenessSample.failed.2 (mk_id 1) error.
Proof.
  intros Hm. split; [|done|done| |done]; rewrite sample_failed_store; [apply run_world_wf|].
  destruct (mw_sessions _ run_world_wf _ _ sample_session) as (_ & s & Hs & _).
  exists sample_stored, s. split_and!; [exact sample_session|exact Hs| |].
  - assert (st_tail_sequence <$> r_state (sd_reducer sample_stored) = Some (SessionSequence_new 2))
      as Ht by by vm_compute. rewrite Hs in Ht. injection Ht as ->. by vm_compute.
  - intros t _. eexists. split; [reflexivity|]. apply sample_record_ids.
Qed.

Lemma sample_ended : ∃ error, LivenessSample.ended.1 = Err (Raised error).
Proof. eexists. vm_compute. reflexivity. Qed.

Lemma pair_fst {A B} (p : A * B) a : p.1 = a → p = (a, p.2).
Proof. destruct p. by intros <-. Qed.

Lemma sample_message cause turn_id :
  LivenessSample.failed.1 = Ok (Err cause, turn_id) → bounded_text (ke_message cause) 4096 = true.
Proof.
  intros Hf. assert (match LivenessSample.failed.1 with
    | Ok (Err e, _) => bounded_text (ke_message e) 4096 | _ => false end = true) as Hb
    by (vm_compute; reflexivity). by rewrite Hf in Hb.
Qed.

(** The sink fails the run a second time, after its end is durable. *)
Lemma failed_run_recorded_witness :
  match LivenessSample.ended.1 with Err (Raised e) => ke_code e = CodeLimitExceeded | _ => False end ∧
  durable_terminal (w_store LivenessSample.ended.2) (mk_id 1) (mk_id 3).
Proof.
  split; [by vm_compute|].
  destruct sample_ended as [error He%pair_fst].
  destruct (failed_run_recorded _ _ _ _ _ _ _ _ He) as (cause & turn_id & w1 & Hloop & Hd).
  apply Hd. assert (LivenessSample.failed = (Ok (Err cause, turn_id), w1)) as Hf by exact Hloop.
  assert (LivenessSample.failed.1 = Ok (Err cause, turn_id)) as Hf1 by by rewrite Hf.
  assert (LivenessSample.failed.2 = w1) as <- by by rewrite Hf.
  apply sample_responsive. exact (sample_message _ _ Hf1).
Defined.
End witnesses.
