(* ===== verification/RuntimeData.v ===== *)
(** * Runtime facade: errors, policy wiring, profile bindings and the builder

    [crates/tea/src]: runtime errors and their conversions ([error.rs]), the
    policy engine of a profile ([policy_wiring.rs]), the artifacts a profile is
    bound to ([binding.rs]), the compiled prompt ([prompt.rs],
    [prompt_inspection.rs]) and [AgentRuntimeBuilder] ([builder.rs]).  The clock,
    the identity sources and the event sink a builder is given are the ports of
    the runtime and are parameters. *)

From S2P Require Import Prelude Protocol Tools Policy Approval Validation Usage ModelSpec Event.
From S2P Require Import Registry ModelProvider Artifact Store ContextData ContextCompiler.
From S2P Require Import ContextProviders KernelBase KernelConfig Profile.
Local Open Scope tea_scope.

(** ** Errors ([error.rs]) *)

Inductive RuntimeErrorCode : Set :=
| RtInvalidRequest | RtInvalidState | RtUnknownProfile | RtUnknownProvider | RtUnknownModel
| RtUnknownTool | RtUnknownPolicyRule | RtRunAlreadyActive | RtNoActiveRun | RtSessionFailure
| RtPolicyFailure | RtKernelFailure | RtProviderFailure | RtContextOverflow | RtCancelled
| RtUnsupportedCommand | RtEventSinkClosed | RtBoundsExceeded | RtDuplicateEntry.

#[export] Instance RuntimeErrorCode_eq_dec : EqDecision RuntimeErrorCode.
Proof. solve_decision. Defined.

Record RuntimeError : Set := mk_RuntimeError {
  re_code : RuntimeErrorCode;
  re_model_failure_code : option ModelFailureCode;
  re_message : string;
  re_safe_diagnostic : bool
}.

#[export] Instance RuntimeError_eq_dec : EqDecision RuntimeError.
Proof. solve_decision. Defined.

(** [RuntimeError::new]. *)
Definition runtime_error (code : RuntimeErrorCode) (message : string) : RuntimeError :=
  let message := if String.eqb message "" then "runtime operation failed"%string else message in
  mk_RuntimeError code None (truncate_utf8 (strip_nul message) 4096) false.

Definition kernel_runtime_code (code : KernelErrorCode) : RuntimeErrorCode :=
  match code with
  | CodeModelFailure | CodeRetryExhausted => RtProviderFailure
  | CodeContextOverflow => RtContextOverflow
  | CodePolicyFailure => RtPolicyFailure
  | CodeCancelled => RtCancelled
  | _ => RtKernelFailure
  end.

(** The [From] implementations. *)
Definition runtime_of_kernel (e : KernelError) : RuntimeError :=
  let runtime := runtime_error (kernel_runtime_code (ke_code e)) (ke_message e) in
  mk_RuntimeError (re_code runtime) (ke_model_failure_code e) (re_message runtime)
    (ke_safe_diagnostic e).
Definition runtime_of_store `{Display} (e : SessionStoreError) : RuntimeError :=
  runtime_error RtSessionFailure (to_string e).
Definition runtime_of_profile (e : ProfileError) : RuntimeError :=
  runtime_error RtInvalidRequest (pfe_message e).
Definition runtime_of_context (e : ContextError) : RuntimeError :=
  runtime_error RtKernelFailure (ce_message e).

(** [map_err(|error| RuntimeError::new(code, error.message()))] on a kernel
    error. *)
Definition kernel_as {A} (code : RuntimeErrorCode) (r : Result KernelError A)
    : Result RuntimeError A :=
  map_err (λ e, runtime_error code (ke_message e)) r.

(** [map_err(|error| RuntimeError::new(code, error.to_string()))]. *)
Definition error_as `{Display} {E : Set} {A} (code : RuntimeErrorCode) (r : Result E A)
    : Result RuntimeError A :=
  map_err (λ e, runtime_error code (to_string e)) r.

(** ** Policy wiring ([policy_wiring.rs])

    A [SharedPolicyRule] delegates its three methods, so it is the rule. *)

Record RegisteredPolicyRule : Set := mk_RegisteredPolicyRule {
  rg_id : ProfileRuleId;
  rg_rule : PolicyRule
}.

(** The loop of [build_engine], with its [has_platform] flag. *)
Fixpoint add_rules (rules : list PolicyRule) (engine : PolicyEngine) (has_platform : bool)
    : Result PolicyRuleError (PolicyEngine * bool) :=
  match rules with
  | [] => Ok (engine, has_platform)
  | rule :: rest =>
      let has_platform :=
        has_platform || String.eqb (rule_id rule) (rule_id UnknownEffectPolicy) in
      let? engine := add_rule engine rule in
      add_rules rest engine has_platform
  end.

Definition build_engine (rules : list PolicyRule) : Result PolicyRuleError PolicyEngine :=
  let? added := add_rules rules [] false in
  let '(engine, has_platform) := added in
  if has_platform then Ok engine else add_rule engine UnknownEffectPolicy.

(** ** Tool registrations and profile bindings ([binding.rs]) *)

Inductive ToolRegistrationKind : Set := RegisteredProduct | RegisteredExtension.

Record ToolRegistration : Type := mk_ToolRegistration {
  tg_spec : ToolSpec;
  tg_binding : ToolBinding;
  tg_kind : ToolRegistrationKind
}.

Record ProfileBinding : Type := mk_ProfileBinding {
  pb_profile_id : ProfileId;
  pb_model : ModelRef;
  pb_all_tools : ToolRegistry;
  pb_tools : ToolRegistry;
  pb_policy : PolicyEngine;
  pb_context_providers : list ContextProvider;
  pb_active_tool_names : list ToolName;
  pb_active_tool_specs : list ToolSpec;
  pb_prompt_budget : PromptBudget;
  pb_run_limits : RunLimits;
  pb_environment : PolicyEnvironment;
  pb_approval_ttl : Duration;
  pb_actor_id : ActorId;
  pb_workspace_id : option WorkspaceId
}.

Definition find_registration (registrations : list ToolRegistration) (name : ToolName)
    : option ToolRegistration :=
  List.find (λ entry, bool_decide (sp_name (tg_spec entry) = name)) registrations.

Section registrations.
Context `{Codec, SchemaEngine, Display}.

(** One iteration of [build_filtered_registry], on its registry and specs. *)
Definition register_active (registrations : list ToolRegistration)
    (built : ToolRegistry * list ToolSpec) (name : ToolName)
    : Result RuntimeError (ToolRegistry * list ToolSpec) :=
  let? registration := ok_or (find_registration registrations name)
    (runtime_error RtUnknownTool
       ("profile references unregistered tool " ++ tn_str name)) in
  match register_binding (tg_spec registration) (tg_binding registration) built.1 with
  | (Ok _, registry) => Ok (registry, built.2 ++ [tg_spec registration])
  | (Err e, _) => Err (runtime_error RtInvalidRequest (to_string e))
  end.

Definition build_filtered_registry (active_tool_names : list ToolName)
    (registrations : list ToolRegistration) : Result RuntimeError (ToolRegistry * list ToolSpec) :=
  result_fold (register_active registrations) (∅, []) active_tool_names.
End registrations.

Definition profile_trust (trust : ProfileTrustLevel) : TrustLevel :=
  match trust with
  | ProfileTrusted => Trusted
  | ProfileDelegated => Delegated
  | ProfileUntrusted => Untrusted
  end.

Definition context_as {A} (r : Result ContextError A) : Result RuntimeError A :=
  map_err (λ e, runtime_error RtInvalidRequest (ce_message e)) r.

Definition convert_workspace_instruction (i : ProfileWorkspaceInstruction)
    : Result RuntimeError WorkspaceInstruction :=
  let? segment_id := map_err (λ _, runtime_error RtInvalidRequest
      "workspace instruction segment id is not canonical")
    (parse_context_id (psi_str (pwi_segment_id i))) in
  context_as (workspace_instruction_new segment_id (pwi_content i) (pwi_locator i)
                (profile_trust (pwi_trust i))).

Definition build_context_providers (workspace_instructions : list ProfileWorkspaceInstruction)
    (builtin_tool_hints : bool) (extra : list ContextProvider)
    : Result RuntimeError (list ContextProvider) :=
  let? workspace :=
    match workspace_instructions with
    | [] => Ok []
    | _ =>
        let? instructions := result_map convert_workspace_instruction workspace_instructions in
        let? provider := context_as (workspace_provider instructions) in
        Ok [provider]
    end in
  let? hints :=
    if builtin_tool_hints then
      let? provider := map_err (λ e, runtime_error RtInvalidRequest
          ("tool hint provider failed: " ++ identity_error_text e)) tool_hint_provider in
      Ok [provider]
    else Ok [] in
  Ok (workspace ++ hints ++ extra).

(** ** The compiled prompt ([prompt.rs], [prompt_inspection.rs])

    The providers are asked at successive moments from [moment] on. *)
Definition compile_prompt (moment : nat) (providers : list ContextProvider)
    (profile_id : ProfileId) (session_id : SessionId) (run_id : option RunId)
    (active_tools : list ToolSpec) (metadata : ProtocolMetadata) (budget : PromptBudget)
    : Result RuntimeError CompiledPrompt :=
  map_err runtime_of_context
    (let? request := context_request_new profile_id session_id run_id active_tools metadata in
     let? modules := provide_all moment providers request in
     compile modules budget).

Record RuntimePromptInspection : Set := mk_RuntimePromptInspection {
  ri_session_id : SessionId;
  ri_run_id : option RunId;
  ri_prompt : PromptInspection
}.

(** ** Models ([runtime.rs]) *)

Definition model_ref_text (m : ModelRef) : string :=
  (selector_str (mr_provider_id m) ++ ":" ++ selector_str (mr_model_id m))%string.

Definition unknown_provider (id : ProviderId) : RuntimeError :=
  runtime_error RtUnknownProvider
    ("model provider " ++ selector_str id ++ " is not registered").

Definition router_provider (models : ModelRouter) (model_ref : ModelRef)
    : Result RuntimeError ModelProvider :=
  ok_or (mr_provider models (mr_provider_id model_ref))
    (unknown_provider (mr_provider_id model_ref)).

Definition resolve_model (models : ModelRouter) (model_ref : ModelRef)
    : Result RuntimeError ModelSpec :=
  try? router_provider models model_ref in
  ok_or (router_model models model_ref)
    (runtime_error RtUnknownModel
       ("model " ++ model_ref_text model_ref ++ " is not advertised by its provider")).

Definition registry_error `{Display} (e : ModelRegistryError) : RuntimeError :=
  runtime_error match e with
                | DuplicateProvider _ => RtDuplicateEntry
                | UnknownProvider _ => RtUnknownProvider
                | ProviderCatalogMismatch _ => RtInvalidRequest
                end (to_string e).

(** ** The builder ([builder.rs]) *)

Definition DEFAULT_EVENT_CHANNEL_CAPACITY : N := 256.

(** [compaction_policy] is [None] for the default, [NeverCompactPolicy];
    [session_store] for a fresh in-memory store; [session_catalog] tells
    whether the store is also configured as the catalog. *)
Record AgentRuntimeBuilder : Type := mk_AgentRuntimeBuilder {
  rb_providers : list ModelProvider;
  rb_session_store : option InMemorySessionStore;
  rb_session_catalog : bool;
  rb_event_capacity : N;
  rb_actor_id : option ActorId;
  rb_workspace_id : option WorkspaceId;
  rb_retry_policy : ModelRetryPolicy;
  rb_compaction_policy : option CompactionPolicy;
  rb_compaction_summarizer : option CompactionSummarizer;
  rb_tool_registrations : list ToolRegistration;
  rb_policy_rules : list RegisteredPolicyRule;
  rb_context_providers : list ContextProvider;
  rb_builtin_tool_hints : bool;
  rb_profiles : list AgentProfile;
  rb_default_reasoning_effort : option ReasoningEffort
}.

Definition runtime_builder_new : AgentRuntimeBuilder :=
  mk_AgentRuntimeBuilder [] None false DEFAULT_EVENT_CHANNEL_CAPACITY None None
    retry_policy_default None None [] [] [] true [] None.

(** The setters, each of which replaces or extends one field. *)
Definition builder_provider (provider : ModelProvider) (b : AgentRuntimeBuilder)
    : AgentRuntimeBuilder :=
  mk_AgentRuntimeBuilder (rb_providers b ++ [provider]) (rb_session_store b)
    (rb_session_catalog b) (rb_event_capacity b) (rb_actor_id b) (rb_workspace_id b)
    (rb_retry_policy b) (rb_compaction_policy b) (rb_compaction_summarizer b)
    (rb_tool_registrations b) (rb_policy_rules b) (rb_context_providers b)
    (rb_builtin_tool_hints b) (rb_profiles b) (rb_default_reasoning_effort b).
Definition builder_session_store (store : InMemorySessionStore) (b : AgentRuntimeBuilder)
    : AgentRuntimeBuilder :=
  mk_AgentRuntimeBuilder (rb_providers b) (Some store) (rb_session_catalog b)
    (rb_event_capacity b) (rb_actor_id b) (rb_workspace_id b) (rb_retry_policy b)
    (rb_compaction_policy b) (rb_compaction_summarizer b) (rb_tool_registrations b)
    (rb_policy_rules b) (rb_context_providers b) (rb_builtin_tool_hints b) (rb_profiles b)
    (rb_default_reasoning_effort b).
Definition builder_session_catalog (b : AgentRuntimeBuilder) : AgentRuntimeBuilder :=
  mk_AgentRuntimeBuilder (rb_providers b) (rb_session_store b) true (rb_event_capacity b)
    (rb_actor_id b) (rb_workspace_id b) (rb_retry_policy b) (rb_compaction_policy b)
    (rb_compaction_summarizer b) (rb_tool_registrations b) (rb_policy_rules b)
    (rb_context_providers b) (rb_builtin_tool_hints b) (rb_profiles b)
    (rb_default_reasoning_effort b).
Definition builder_event_capacity (capacity : N) (b : AgentRuntimeBuilder)
    : AgentRuntimeBuilder :=
  mk_AgentRuntimeBuilder (rb_providers b) (rb_session_store b) (rb_session_catalog b) capacity
    (rb_actor_id b) (rb_workspace_id b) (rb_retry_policy b) (rb_compaction_policy b)
    (rb_compaction_summarizer b) (rb_tool_registrations b) (rb_policy_rules b)
    (rb_context_providers b) (rb_builtin_tool_hints b) (rb_profiles b)
    (rb_default_reasoning_effort b).
Definition builder_actor (actor_id : ActorId) (b : AgentRuntimeBuilder)
    : AgentRuntimeBuilder :=
  mk_AgentRuntimeBuilder (rb_providers b) (rb_session_store b) (rb_session_catalog b)
    (rb_event_capacity b) (Some actor_id) (rb_workspace_id b) (rb_retry_policy b)
    (rb_compaction_policy b) (rb_compaction_summarizer b) (rb_tool_registrations b)
    (rb_policy_rules b) (rb_context_providers b) (rb_builtin_tool_hints b) (rb_profiles b)
    (rb_default_reasoning_effort b).
Definition builder_workspace (workspace_id : WorkspaceId) (b : AgentRuntimeBuilder)
    : AgentRuntimeBuilder :=
  mk_AgentRuntimeBuilder (rb_providers b) (rb_session_store b) (rb_session_catalog b)
    (rb_event_capacity b) (rb_actor_id b) (Some workspace_id) (rb_retry_policy b)
    (rb_compaction_policy b) (rb_compaction_summarizer b) (rb_tool_registrations b)
    (rb_policy_rules b) (rb_context_providers b) (rb_builtin_tool_hints b) (rb_profiles b)
    (rb_default_reasoning_effort b).
Definition builder_retry_policy (policy : ModelRetryPolicy) (b : AgentRuntimeBuilder)
    : AgentRuntimeBuilder :=
  mk_AgentRuntimeBuilder (rb_providers b) (rb_session_store b) (rb_session_catalog b)
    (rb_event_capacity b) (rb_actor_id b) (rb_workspace_id b) policy (rb_compaction_policy b)
    (rb_compaction_summarizer b) (rb_tool_registrations b) (rb_policy_rules b)
    (rb_context_providers b) (rb_builtin_tool_hints b) (rb_profiles b)
    (rb_default_reasoning_effort b).
Definition builder_default_reasoning (effort : ReasoningEffort) (b : AgentRuntimeBuilder)
    : AgentRuntimeBuilder :=
  mk_AgentRuntimeBuilder (rb_providers b) (rb_session_store b) (rb_session_catalog b)
    (rb_event_capacity b) (rb_actor_id b) (rb_workspace_id b) (rb_retry_policy b)
    (rb_compaction_policy b) (rb_compaction_summarizer b) (rb_tool_registrations b)
    (rb_policy_rules b) (rb_context_providers b) (rb_builtin_tool_hints b) (rb_profiles b)
    (Some effort).
Definition builder_compaction_policy (policy : CompactionPolicy) (b : AgentRuntimeBuilder)
    : AgentRuntimeBuilder :=
  mk_AgentRuntimeBuilder (rb_providers b) (rb_session_store b) (rb_session_catalog b)
    (rb_event_capacity b) (rb_actor_id b) (rb_workspace_id b) (rb_retry_policy b) (Some policy)
    (rb_compaction_summarizer b) (rb_tool_registrations b) (rb_policy_rules b)
    (rb_context_providers b) (rb_builtin_tool_hints b) (rb_profiles b)
    (rb_default_reasoning_effort b).
Definition builder_summarizer (summarizer : CompactionSummarizer) (b : AgentRuntimeBuilder)
    : AgentRuntimeBuilder :=
  mk_AgentRuntimeBuilder (rb_providers b) (rb_session_store b) (rb_session_catalog b)
    (rb_event_capacity b) (rb_actor_id b) (rb_workspace_id b) (rb_retry_policy b)
    (rb_compaction_policy b) (Some summarizer) (rb_tool_registrations b) (rb_policy_rules b)
    (rb_context_providers b) (rb_builtin_tool_hints b) (rb_profiles b)
    (rb_default_reasoning_effort b).
Definition set_registrations (registrations : list ToolRegistration) (b : AgentRuntimeBuilder)
    : AgentRuntimeBuilder :=
  mk_AgentRuntimeBuilder (rb_providers b) (rb_session_store b) (rb_session_catalog b)
    (rb_event_capacity b) (rb_actor_id b) (rb_workspace_id b) (rb_retry_policy b)
    (rb_compaction_policy b) (rb_compaction_summarizer b) registrations (rb_policy_rules b)
    (rb_context_providers b) (rb_builtin_tool_hints b) (rb_profiles b)
    (rb_default_reasoning_effort b).
Definition set_rules (rules : list RegisteredPolicyRule) (b : AgentRuntimeBuilder)
    : AgentRuntimeBuilder :=
  mk_AgentRuntimeBuilder (rb_providers b) (rb_session_store b) (rb_session_catalog b)
    (rb_event_capacity b) (rb_actor_id b) (rb_workspace_id b) (rb_retry_policy b)
    (rb_compaction_policy b) (rb_compaction_summarizer b) (rb_tool_registrations b) rules
    (rb_context_providers b) (rb_builtin_tool_hints b) (rb_profiles b)
    (rb_default_reasoning_effort b).
Definition builder_context_provider (provider : ContextProvider) (b : AgentRuntimeBuilder)
    : AgentRuntimeBuilder :=
  mk_AgentRuntimeBuilder (rb_providers b) (rb_session_store b) (rb_session_catalog b)
    (rb_event_capacity b) (rb_actor_id b) (rb_workspace_id b) (rb_retry_policy b)
    (rb_compaction_policy b) (rb_compaction_summarizer b) (rb_tool_registrations b)
    (rb_policy_rules b) (rb_context_providers b ++ [provider]) (rb_builtin_tool_hints b)
    (rb_profiles b) (rb_default_reasoning_effort b).
Definition builder_builtin_tool_hints (enabled : bool) (b : AgentRuntimeBuilder)
    : AgentRuntimeBuilder :=
  mk_AgentRuntimeBuilder (rb_providers b) (rb_session_store b) (rb_session_catalog b)
    (rb_event_capacity b) (rb_actor_id b) (rb_workspace_id b) (rb_retry_policy b)
    (rb_compaction_policy b) (rb_compaction_summarizer b) (rb_tool_registrations b)
    (rb_policy_rules b) (rb_context_providers b) enabled (rb_profiles b)
    (rb_default_reasoning_effort b).
Definition builder_profile (profile : AgentProfile) (b : AgentRuntimeBuilder)
    : AgentRuntimeBuilder :=
  mk_AgentRuntimeBuilder (rb_providers b) (rb_session_store b) (rb_session_catalog b)
    (rb_event_capacity b) (rb_actor_id b) (rb_workspace_id b) (rb_retry_policy b)
    (rb_compaction_policy b) (rb_compaction_summarizer b) (rb_tool_registrations b)
    (rb_policy_rules b) (rb_context_providers b) (rb_builtin_tool_hints b)
    (rb_profiles b ++ [profile]) (rb_default_reasoning_effort b).

(** The registration replaced in place, or none under its name. *)
Fixpoint replace_registration (registration : ToolRegistration) (l : list ToolRegistration)
    : list ToolRegistration :=
  match l with
  | [] => []
  | entry :: rest =>
      if decide (sp_name (tg_spec entry) = sp_name (tg_spec registration))
      then registration :: rest else entry :: replace_registration registration rest
  end.

Definition register_tool_binding_with_kind (spec : ToolSpec) (binding : ToolBinding)
    (kind : ToolRegistrationKind) (b : AgentRuntimeBuilder)
    : Result RuntimeError AgentRuntimeBuilder :=
  let registration := mk_ToolRegistration spec binding kind in
  match find_registration (rb_tool_registrations b) (sp_name spec) with
  | Some existing =>
      match tg_kind existing, kind with
      | RegisteredProduct, RegisteredExtension => Ok b
      | RegisteredExtension, RegisteredProduct =>
          Ok (set_registrations (replace_registration registration (rb_tool_registrations b)) b)
      | _, _ => Err (runtime_error RtDuplicateEntry
                       "tool name is already registered at the same precedence")
      end
  | None => Ok (set_registrations (rb_tool_registrations b ++ [registration]) b)
  end.

(** Product tools, and extension tools. *)
Definition tool_binding (spec : ToolSpec) (binding : ToolBinding) (b : AgentRuntimeBuilder)
    : Result RuntimeError AgentRuntimeBuilder :=
  try? ensure (is_native_product (sp_source spec))
         (runtime_error RtInvalidRequest "product tools must declare product provenance") in
  register_tool_binding_with_kind spec binding RegisteredProduct b.
Definition builder_tool (spec : ToolSpec) (resolver : ToolResourceResolver)
    (executor : ToolExecutor) (b : AgentRuntimeBuilder) : Result RuntimeError AgentRuntimeBuilder :=
  tool_binding spec (BindClient resolver executor) b.

Definition register_tool_binding (spec : ToolSpec) (binding : ToolBinding)
    (b : AgentRuntimeBuilder) : Result RuntimeError AgentRuntimeBuilder :=
  try? ensure (negb (is_native_product (sp_source spec)))
         (runtime_error RtInvalidRequest
            "extension tools must declare non-product provenance") in
  register_tool_binding_with_kind spec binding RegisteredExtension b.
Definition register_tool (spec : ToolSpec) (resolver : ToolResourceResolver)
    (executor : ToolExecutor) (b : AgentRuntimeBuilder) : Result RuntimeError AgentRuntimeBuilder :=
  register_tool_binding spec (BindClient resolver executor) b.

Definition find_rule (rules : list RegisteredPolicyRule) (id : ProfileRuleId)
    : option RegisteredPolicyRule :=
  List.find (λ entry, bool_decide (rg_id entry = id)) rules.

Definition builder_policy_rule (id : ProfileRuleId) (rule : PolicyRule)
    (b : AgentRuntimeBuilder) : Result RuntimeError AgentRuntimeBuilder :=
  try? ensure (negb (bool_decide (is_Some (find_rule (rb_policy_rules b) id))))
         (runtime_error RtDuplicateEntry "policy rule id is already registered") in
  Ok (set_rules (rb_policy_rules b ++ [mk_RegisteredPolicyRule id rule]) b).

(** ** Building the runtime *)

(** The fields of [AgentRuntime] that [build] fixes. *)
Record AgentRuntime : Type := mk_AgentRuntime {
  ar_session_catalog : bool;
  ar_event_capacity : N;
  ar_bindings : gmap ProfileId ProfileBinding;
  ar_tool_registrations : list ToolRegistration;
  ar_policy_rules : list RegisteredPolicyRule;
  ar_actor_id : ActorId;
  ar_workspace_id : option WorkspaceId;
  ar_retry_policy : ModelRetryPolicy;
  ar_compaction_policy : CompactionPolicy;
  ar_compaction_summarizer : option CompactionSummarizer;
  ar_default_reasoning_effort : option ReasoningEffort
}.

Definition with_platform_rule (platform_id : ProfileRuleId) (rules : list RegisteredPolicyRule)
    : list RegisteredPolicyRule :=
  match find_rule rules platform_id with
  | Some _ => rules
  | None => rules ++ [mk_RegisteredPolicyRule platform_id UnknownEffectPolicy]
  end.

Section build.
Context `{Codec, SchemaEngine, Display}.

Definition resolve_rule (profile_id : ProfileId) (rules : list RegisteredPolicyRule)
    (id : ProfileRuleId) : Result RuntimeError PolicyRule :=
  let? entry := ok_or (find_rule rules id)
    (runtime_error RtUnknownPolicyRule
       ("profile " ++ selector_str profile_id ++ " references unregistered policy rule "
        ++ pri_str id)) in
  Ok (rg_rule entry).

(** A profile's model, when its provider is registered. *)
Definition bound_model (models : ModelRegistry) (model_ref : ModelRef)
    : Result RuntimeError (option ModelSpec) :=
  match mg_providers models !! mr_provider_id model_ref with
  | Some _ => let? model := resolve_model (registry_router models) model_ref in Ok (Some model)
  | None => Ok None
  end.

Definition check_definitions (tools : ToolRegistry) (model : option ModelSpec)
    : Result RuntimeError unit :=
  match model with
  | Some model =>
      try? error_as RtInvalidRequest (model_definitions tools model) in Ok tt
  | None => Ok tt
  end.

(** One iteration of the loop over the profiles. *)
Definition bind_profile (b : AgentRuntimeBuilder) (models : ModelRegistry) (actor_id : ActorId)
    (rules : list RegisteredPolicyRule) (all_tools : ToolRegistry)
    (bindings : gmap ProfileId ProfileBinding) (profile : AgentProfile)
    : Result RuntimeError (gmap ProfileId ProfileBinding) :=
  let profile_id := ap_profile_id profile in
  try? ensure (bool_decide (bindings !! profile_id = None))
         (runtime_error RtDuplicateEntry "profile id is already registered") in
  let? model := bound_model models (ap_model profile) in
  let? filtered := build_filtered_registry (ap_active_tool_names profile)
                     (rb_tool_registrations b) in
  try? check_definitions filtered.1 model in
  let? resolved := result_map (resolve_rule profile_id rules) (ap_policy_rule_ids profile) in
  let? policy := error_as RtPolicyFailure (build_engine resolved) in
  let? providers := build_context_providers (ap_workspace_instructions profile)
                      (rb_builtin_tool_hints b) (rb_context_providers b) in
  let budget := ap_prompt_budget profile in
  let? prompt_budget := map_err runtime_of_context
    (prompt_budget_new (ppb_max_bytes budget) (ppb_max_estimated_tokens budget)) in
  let limits := ap_run_limits profile in
  let? run_limits := kernel_as RtInvalidRequest
    (limits_new (prl_max_tool_iterations limits) (profile_max_elapsed limits)
       (prl_max_assistant_output_bytes limits) (prl_max_events limits)
       (prl_max_queued_messages limits)) in
  Ok (<[profile_id := mk_ProfileBinding profile_id (ap_model profile) all_tools filtered.1 policy
          providers (ap_active_tool_names profile) filtered.2 prompt_budget run_limits
          (ap_environment profile) (profile_approval_ttl profile) actor_id
          (rb_workspace_id b)]> bindings).

(** The part of [build] before the platform rule: the model registry and the
    actor. *)
Definition build_inputs (b : AgentRuntimeBuilder)
    : Result RuntimeError (ModelRegistry * ActorId) :=
  let? models := error_as RtInvalidRequest (model_registry_new (rb_providers b)) in
  try? ensure (negb (is_empty (rb_profiles b)))
         (runtime_error RtUnknownProfile "at least one profile must be registered") in
  let? actor_id := ok_or (rb_actor_id b)
    (runtime_error RtInvalidRequest "a default actor identity is required") in
  Ok (models, actor_id).

(** The part after it, before the event sink is created. *)
Definition build_runtime (b : AgentRuntimeBuilder) (models : ModelRegistry) (actor_id : ActorId)
    (platform_id : ProfileRuleId) : Result RuntimeError AgentRuntime :=
  let rules := with_platform_rule platform_id (rb_policy_rules b) in
  let names := (λ entry, sp_name (tg_spec entry)) <$> rb_tool_registrations b in
  let? all_tools := build_filtered_registry names (rb_tool_registrations b) in
  let? bindings := result_fold (bind_profile b models actor_id rules all_tools.1) ∅
                     (rb_profiles b) in
  Ok (mk_AgentRuntime (rb_session_catalog b) (rb_event_capacity b) bindings
        (rb_tool_registrations b) rules actor_id (rb_workspace_id b) (rb_retry_policy b)
        (default never_compact (rb_compaction_policy b)) (rb_compaction_summarizer b)
        (rb_default_reasoning_effort b)).

(** [build]: the runtime, its models and its store.  [None] is a panic: the
    [expect] on the platform rule's id, or an event sink without capacity. *)
Definition runtime_build (b : AgentRuntimeBuilder)
    : option (Result RuntimeError (AgentRuntime * ModelRegistry * InMemorySessionStore)) :=
  match build_inputs b with
  | Err e => Some (Err e)
  | Ok (models, actor_id) =>
      match parse_rule_id "platform.unknown_effect" with
      | Err _ => None
      | Ok platform_id =>
          match build_runtime b models actor_id platform_id with
          | Err e => Some (Err e)
          | Ok runtime =>
              if (rb_event_capacity b =? 0)%N then None
              else Some (Ok (runtime, models, default store_new (rb_session_store b)))
          end
      end
  end.
End build.
