(* ===== verification/RuntimeWiring.v ===== *)
(** * Runtime facade: what building a runtime promises

    Lemmas and claims about [RuntimeData]: filtered registries hold exactly the
    active tools, engines hold exactly the rules a profile names and the
    platform rule, product tools win over extension tools whatever the order of
    registration, and every profile gets the binding it declares. *)

From S2P Require Import Prelude Protocol Tools Policy Approval Validation Usage ModelSpec Event.
From S2P Require Import Registry ModelProvider Artifact Store ContextData ContextCompiler.
From S2P Require Import ContextProviders KernelBase KernelConfig KernelTools KernelTheorems.
From S2P Require Import KernelRunTheorems Profile RuntimeData.
Local Open Scope tea_scope.

(** ** Filtered registries *)

Lemma find_registration_ok registrations name r :
  find_registration registrations name = Some r →
  r ∈ registrations ∧ sp_name (tg_spec r) = name.
Proof.
  unfold find_registration. intros [Hin Hn]%List.find_some.
  apply bool_decide_eq_true in Hn. by rewrite list_elem_of_In.
Qed.

(** A registry of exactly the named tools, each as it is registered, and their
    specifications in the order of the names. *)
Record filtered (registrations : list ToolRegistration) (names : list ToolName)
    (built : ToolRegistry * list ToolSpec) : Prop := mk_filtered {
  ft_registered name tool : built.1 !! name = Some tool →
    ∃ r, find_registration registrations name = Some r ∧ rt_spec tool = tg_spec r ∧
         rt_binding tool = tg_binding r;
  ft_names name : is_Some (built.1 !! name) ↔ name ∈ names;
  ft_distinct : NoDup names;
  ft_specs : built.2 = omap (λ name, tg_spec <$> find_registration registrations name) names
}.

Section registrations.
Context `{Codec, SchemaEngine, Display}.

Lemma register_active_ok registrations names built name built' :
  filtered registrations names built → register_active registrations built name = Ok built' →
  filtered registrations (names ++ [name]) built'.
Proof.
  intros [Hreg Hnames Hnd Hspecs] Hr. unfold register_active in Hr.
  apply result_bind_ok in Hr as (r & Hf%ok_or_ok & Hr).
  destruct (find_registration_ok _ _ _ Hf) as [_ Hname].
  destruct (register_binding _ _ built.1) as [[u|e] tools] eqn:Hb; [|done]. injection Hr as <-.
  apply register_binding_ok in Hb as (input & output & Hnone & _ & _ & _ & ->).
  rewrite Hname in *. split; simpl.
  - intros name' tool [[<- <-]|[_ Htool]]%lookup_insert_Some; [by exists r|by apply Hreg].
  - intros name'. rewrite lookup_insert_is_Some', elem_of_app, list_elem_of_singleton, Hnames.
    naive_solver.
  - apply NoDup_app. split; [done|]. split; [|apply NoDup_singleton].
    intros x Hx ->%list_elem_of_singleton. apply Hnames in Hx as [tool Htool]. congruence.
  - by rewrite omap_app, Hspecs; simpl; rewrite Hf.
Qed.

Lemma build_filtered_ok names registrations built :
  build_filtered_registry names registrations = Ok built → filtered registrations names built.
Proof.
  unfold build_filtered_registry. intros Hf.
  assert (∀ l done built0, filtered registrations done built0 →
    result_fold (register_active registrations) built0 l = Ok built →
    filtered registrations (done ++ l) built) as Hgen.
  { clear Hf. induction l as [|name l IH]; intros seen built0 Hs; simpl;
      [intros [= <-]; by rewrite app_nil_r|].
    intros (built1 & Hr1 & Hr2)%result_bind_ok. rewrite (cons_middle name), app_assoc.
    by eapply IH; [eapply register_active_ok|]. }
  apply (Hgen names [] (∅, [])); [|done]. split; simpl; [done| |constructor|done].
  intros name. rewrite lookup_empty. split; [by intros [??]|set_solver].
Qed.
End registrations.

(** ** Policy engines *)

Definition is_platform_rule (rule : PolicyRule) : bool :=
  String.eqb (rule_id rule) (rule_id UnknownEffectPolicy).

Lemma add_rules_ok rules engine flag engine' flag' :
  built engine → add_rules rules engine flag = Ok (engine', flag') →
  built engine' ∧ engine' ≡ₚ engine ++ rules ∧
  flag' = flag || existsb is_platform_rule rules.
Proof.
  revert engine flag. induction rules as [|rule rules IH]; intros engine flag Hb; simpl.
  { intros [= <- <-]. by rewrite app_nil_r, orb_false_r. }
  intros (engine1 & Hr1 & Hr2)%result_bind_ok.
  pose proof (built_add _ _ _ Hb Hr1) as Hb1. apply add_rule_ok in Hr1 as (-> & _ & _).
  apply IH in Hr2 as (Hb' & Hp & ->); [|done]. split_and!; [done| |by rewrite <- orb_assoc].
  rewrite Hp, stable_sort_perm, <- app_assoc. done.
Qed.

(** An engine holds the given rules, and the platform rule unless one of them
    has its id. *)
Definition engine_rules (rules : list PolicyRule) : list PolicyRule :=
  rules ++ (if existsb is_platform_rule rules then [] else [UnknownEffectPolicy]).

Lemma build_engine_ok rules engine :
  build_engine rules = Ok engine → built engine ∧ engine ≡ₚ engine_rules rules.
Proof.
  unfold build_engine. intros ([engine1 flag] & Hr1 & Hr2)%result_bind_ok.
  apply add_rules_ok in Hr1 as (Hb & Hp & ->); [|constructor]. unfold engine_rules.
  simpl in *. destruct (existsb is_platform_rule rules).
  - injection Hr2 as <-. by rewrite app_nil_r.
  - split; [by eapply built_add|]. apply add_rule_ok in Hr2 as (-> & _ & _).
    by rewrite stable_sort_perm, Hp.
Qed.

(** No rule poses as the platform rule. *)
Definition platform_genuine (rules : list PolicyRule) : Prop :=
  ∀ rule, rule ∈ rules → is_platform_rule rule = true → rule = UnknownEffectPolicy.

Lemma no_platform_rule rules : existsb is_platform_rule rules = false → platform_genuine rules.
Proof.
  intros Hn rule Hr%list_elem_of_In Hp. apply not_true_iff_false in Hn.
  destruct Hn. apply existsb_exists. by exists rule.
Qed.

Lemma engine_rules_platform rules : platform_genuine rules → UnknownEffectPolicy ∈ engine_rules rules.
Proof.
  intros Hg. unfold engine_rules. destruct (existsb is_platform_rule rules) eqn:He; [|set_solver].
  apply existsb_exists in He as (rule & Hr%list_elem_of_In & Hp).
  rewrite app_nil_r. by rewrite <- (Hg rule Hr Hp).
Qed.

Lemma engine_denies_unknown engine input name :
  UnknownEffectPolicy ∈ engine → UnknownEffect name ∈ in_effects input →
  is_hard_deny (ev_decision (evaluate engine input)) = true.
Proof. intros Hr He. by apply (unknown_effect_denied _ _ name). Qed.

(** ** Precedence of registrations *)

(** The calls of a host that register a tool, and their meaning. *)
Inductive ToolCallKind : Type :=
| RegisterProduct (spec : ToolSpec) (binding : ToolBinding)
| RegisterExtension (spec : ToolSpec) (binding : ToolBinding).

Definition register_call (b : AgentRuntimeBuilder) (call : ToolCallKind)
    : Result RuntimeError AgentRuntimeBuilder :=
  match call with
  | RegisterProduct spec binding => tool_binding spec binding b
  | RegisterExtension spec binding => register_tool_binding spec binding b
  end.

Definition call_registration (call : ToolCallKind) : ToolRegistration :=
  match call with
  | RegisterProduct spec binding => mk_ToolRegistration spec binding RegisteredProduct
  | RegisterExtension spec binding => mk_ToolRegistration spec binding RegisteredExtension
  end.

(** Reference: the product registration of a name, otherwise the extension
    one. *)
Definition registers (product : bool) (name : ToolName) (call : ToolCallKind) : bool :=
  bool_decide (sp_name (tg_spec (call_registration call)) = name)
  && Bool.eqb product (match call with RegisterProduct _ _ => true | _ => false end).

Definition winner (calls : list ToolCallKind) (name : ToolName) : option ToolRegistration :=
  call_registration <$>
    match List.find (registers true name) calls with
    | Some call => Some call
    | None => List.find (registers false name) calls
    end.

(** Adding a call changes the winner of its own name only. *)
Lemma winner_other calls call name :
  sp_name (tg_spec (call_registration call)) ≠ name → winner (calls ++ [call]) name = winner calls name.
Proof.
  intros Hne. assert (∀ p, registers p name call = false) as Hr.
  { intros p. unfold registers. by rewrite bool_decide_false. }
  unfold winner. rewrite !find_app. simpl. rewrite !Hr.
  by destruct (List.find (registers true name) calls), (List.find (registers false name) calls).
Qed.

Lemma winner_kind calls name r :
  winner calls name = Some r →
  sp_name (tg_spec r) = name ∧
  tg_kind r = match List.find (registers true name) calls with
              | Some _ => RegisteredProduct
              | None => RegisteredExtension
              end.
Proof.
  unfold winner. destruct (List.find (registers true name) calls) as [call|] eqn:Hp.
  - intros [= <-]. apply List.find_some in Hp as [_ Hp]. unfold registers in Hp.
    rewrite andb_true_iff, bool_decide_eq_true in Hp. destruct Hp as [Hn Hk].
    by destruct call; simpl in *.
  - destruct (List.find (registers false name) calls) as [call|] eqn:He; [|done]. intros [= <-].
    apply List.find_some in He as [_ He]. unfold registers in He.
    rewrite andb_true_iff, bool_decide_eq_true in He. destruct He as [Hn Hk].
    by destruct call; simpl in *.
Qed.

(** A new name, a product over an extension, an extension under a product. *)
Lemma winner_new calls call :
  winner calls (sp_name (tg_spec (call_registration call))) = None →
  winner (calls ++ [call]) (sp_name (tg_spec (call_registration call)))
    = Some (call_registration call).
Proof.
  unfold winner. rewrite !find_app. simpl.
  set (name := sp_name (tg_spec (call_registration call))).
  destruct (List.find (registers true name) calls), (List.find (registers false name) calls);
    try done. intros _. unfold registers. rewrite bool_decide_true by done. by destruct call.
Qed.

Lemma winner_over calls spec binding :
  List.find (registers true (sp_name spec)) calls = None →
  winner (calls ++ [RegisterProduct spec binding]) (sp_name spec)
    = Some (mk_ToolRegistration spec binding RegisteredProduct).
Proof.
  intros Hn. unfold winner. rewrite find_app, Hn. simpl. unfold registers at 1. simpl.
  by rewrite bool_decide_true.
Qed.

Lemma winner_under calls spec binding :
  is_Some (List.find (registers true (sp_name spec)) calls) →
  winner (calls ++ [RegisterExtension spec binding]) (sp_name spec) = winner calls (sp_name spec).
Proof. intros [c Hc]. unfold winner. by rewrite find_app, Hc. Qed.

Lemma find_replaced registration l name :
  is_Some (find_registration l (sp_name (tg_spec registration))) →
  find_registration (replace_registration registration l) name =
  if decide (sp_name (tg_spec registration) = name) then Some registration
  else find_registration l name.
Proof.
  unfold find_registration. induction l as [|entry l IH]; intros Hs; simpl in *; [by destruct Hs|].
  case_bool_decide as Hd.
  - rewrite decide_True by done. simpl. repeat case_bool_decide; repeat case_decide; congruence.
  - rewrite decide_False by done. simpl. rewrite IH by done.
    repeat case_bool_decide; repeat case_decide; congruence.
Qed.

Lemma names_replaced registration l :
  (λ e, sp_name (tg_spec e)) <$> replace_registration registration l
  = (λ e, sp_name (tg_spec e)) <$> l.
Proof.
  induction l as [|entry l IH]; csimpl; [done|].
  case_decide as Hd; csimpl; [by rewrite Hd|by rewrite IH].
Qed.

Lemma find_registration_app l r name :
  find_registration (l ++ [r]) name =
  match find_registration l name with
  | Some e => Some e
  | None => if decide (sp_name (tg_spec r) = name) then Some r else None
  end.
Proof.
  unfold find_registration. rewrite find_app. simpl.
  repeat case_match; repeat case_bool_decide; repeat case_decide; simplify_eq; done.
Qed.

Lemma find_registration_none l name :
  find_registration l name = None → name ∉ (λ e, sp_name (tg_spec e)) <$> l.
Proof.
  intros Hn (r & -> & Hr)%list_elem_of_fmap. unfold find_registration in Hn.
  apply list_elem_of_In in Hr. pose proof (List.find_none _ _ Hn _ Hr) as Hf.
  by apply bool_decide_eq_false in Hf.
Qed.

(** What the calls so far leave registered. *)
Definition registered_by (calls : list ToolCallKind) (b : AgentRuntimeBuilder) : Prop :=
  NoDup ((λ e, sp_name (tg_spec e)) <$> rb_tool_registrations b) ∧
  ∀ name, find_registration (rb_tool_registrations b) name = winner calls name.

Lemma register_call_step calls call b b' :
  registered_by calls b → register_call b call = Ok b' → registered_by (calls ++ [call]) b'.
Proof.
  intros [Hnd Hfind] Hstep.
  set (name := sp_name (tg_spec (call_registration call))).
  assert (∃ spec binding kind, call_registration call = mk_ToolRegistration spec binding kind ∧
    register_tool_binding_with_kind spec binding kind b = Ok b') as (spec & binding & kind & Hc & Hr).
  { destruct call as [spec binding|spec binding]; apply result_bind_ok in Hstep as (u & _ & Hr);
      by eexists _, _, _. }
  unfold register_tool_binding_with_kind in Hr. pose proof (Hfind (sp_name spec)) as Hn.
  destruct (find_registration (rb_tool_registrations b) (sp_name spec)) as [existing|] eqn:He.
  - symmetry in Hn. destruct (winner_kind _ _ _ Hn) as [_ Hk].
    destruct (List.find _ calls) as [c|] eqn:Hp; rewrite Hk in Hr; destruct kind; try done;
      injection Hr as <-.
    + split; [done|]. intros n. rewrite Hfind. destruct call; simplify_eq/=.
      destruct (decide (sp_name spec = n)) as [<-|Hne]; [by rewrite winner_under by eauto|].
      by rewrite winner_other.
    + split; simpl; [by rewrite names_replaced|]. intros n.
      rewrite find_replaced by (simpl; by rewrite He). simpl. destruct call; simplify_eq/=.
      destruct (decide (sp_name spec = n)) as [<-|Hne].
      * by rewrite winner_over.
      * by rewrite winner_other, Hfind.
  - injection Hr as <-. split; simpl.
    + rewrite fmap_app. apply NoDup_app. split; [done|]. split; [|apply NoDup_singleton].
      intros n Hin ->%list_elem_of_singleton. by eapply find_registration_none.
    + intros n. rewrite find_registration_app, Hfind. simpl.
      destruct (decide (sp_name spec = n)) as [<-|Hne].
      * rewrite <- Hn. symmetry. pose proof (winner_new calls call) as Hw. rewrite Hc in Hw.
        by apply Hw.
      * rewrite winner_other by (by rewrite Hc). by destruct (winner calls n).
Qed.

(** Product tools win.  However product and extension tools are registered,
    in whatever order: if the builder accepts every registration, each name is
    registered once, and what it names is the product tool of that name when
    there is one and the extension tool otherwise, with its whole binding. *)
Theorem product_tools_win calls b b' :
  rb_tool_registrations b = [] → result_fold register_call b calls = Ok b' →
  NoDup ((λ e, sp_name (tg_spec e)) <$> rb_tool_registrations b') ∧
  ∀ name, find_registration (rb_tool_registrations b') name = winner calls name.
Proof.
  intros Hnil Hf.
  assert (∀ l seen b0, registered_by seen b0 → result_fold register_call b0 l = Ok b' →
    registered_by (seen ++ l) b') as Hgen.
  { clear. induction l as [|call l IH]; intros seen b0 Hinv; simpl;
      [intros [= <-]; by rewrite app_nil_r|].
    intros (b1 & Hstep & Hrest)%result_bind_ok. rewrite (cons_middle call), app_assoc.
    eapply IH; [|done]. by eapply register_call_step. }
  apply (Hgen calls [] b); [|done]. split; rewrite Hnil; [constructor|done].
Qed.

(** ** Profile bindings *)

Section bindings.
Context `{Codec, SchemaEngine, Display}.

(** The provider of a profile's own instructions, when it has any, and the one
    of the tool hints, when the builder asks for it. *)
Definition own_instructions (instructions : list ProfileWorkspaceInstruction)
    (own : list ContextProvider) : Prop :=
  (instructions = [] ∧ own = []) ∨
  (instructions ≠ [] ∧ ∃ converted provider,
     result_map convert_workspace_instruction instructions = Ok converted ∧
     workspace_provider converted = Ok provider ∧ own = [provider]).

Definition builtin_hints (wanted : bool) (hints : list ContextProvider) : Prop :=
  if wanted then ∃ provider, tool_hint_provider = Ok provider ∧ hints = [provider] else hints = [].

Lemma build_context_providers_ok instructions wanted extra providers :
  build_context_providers instructions wanted extra = Ok providers →
  ∃ own hints, providers = own ++ hints ++ extra ∧ own_instructions instructions own ∧
    builtin_hints wanted hints.
Proof.
  unfold build_context_providers. intros (own & Hown & Hp)%result_bind_ok.
  apply result_bind_ok in Hp as (hints & Hhints & [= <-]). exists own, hints. split; [done|]. split.
  - destruct instructions as [|i l]; [injection Hown as <-; by left|right]. split; [done|].
    apply result_bind_ok in Hown as (converted & Hc & Hown).
    apply result_bind_ok in Hown as (provider & Hp%map_err_ok & [= <-]). by exists converted, provider.
  - destruct wanted; [|by injection Hhints].
    apply result_bind_ok in Hhints as (provider & Hp%map_err_ok & [= <-]). by exists provider.
Qed.

(** What a profile is bound to: its own settings and bounds, the context
    providers of its instructions and of the builder, the registered tools it
    activates, and an engine of exactly the rules it names and the platform
    rule. *)
Record bound_profile (b : AgentRuntimeBuilder) (rules : list RegisteredPolicyRule)
    (actor_id : ActorId) (p : AgentProfile) (bd : ProfileBinding) : Prop := mk_bound_profile {
  bp_settings :
    (pb_profile_id bd, pb_model bd, pb_active_tool_names bd, pb_environment bd,
     pb_approval_ttl bd, pb_actor_id bd, pb_workspace_id bd)
    = (ap_profile_id p, ap_model p, ap_active_tool_names p, ap_environment p,
       profile_approval_ttl p, actor_id, rb_workspace_id b);
  bp_limits :
    pb_run_limits bd
    = mk_RunLimits (prl_max_tool_iterations (ap_run_limits p)) (profile_max_elapsed (ap_run_limits p))
        (prl_max_assistant_output_bytes (ap_run_limits p)) (prl_max_events (ap_run_limits p))
        (prl_max_queued_messages (ap_run_limits p));
  bp_budget :
    pb_prompt_budget bd
    = mk_PromptBudget (ppb_max_bytes (ap_prompt_budget p))
        (ppb_max_estimated_tokens (ap_prompt_budget p));
  bp_context : ∃ own hints,
    pb_context_providers bd = own ++ hints ++ rb_context_providers b ∧
    own_instructions (ap_workspace_instructions p) own ∧
    builtin_hints (rb_builtin_tool_hints b) hints;
  bp_tools : filtered (rb_tool_registrations b) (ap_active_tool_names p)
               (pb_tools bd, pb_active_tool_specs bd);
  bp_policy : ∃ named,
    Forall2 (λ id rule, ∃ entry, entry ∈ rules ∧ rg_id entry = id ∧ rg_rule entry = rule)
      (ap_policy_rule_ids p) named ∧
    pb_policy bd ≡ₚ engine_rules named ∧ built (pb_policy bd)
}.

Lemma bind_profile_ok b models actor_id rules all_tools bindings p bindings' :
  bind_profile b models actor_id rules all_tools bindings p = Ok bindings' →
  bindings !! ap_profile_id p = None ∧
  ∃ bd, bindings' = <[ap_profile_id p := bd]> bindings ∧ bound_profile b rules actor_id p bd.
Proof.
  unfold bind_profile. intros (u & Hnone%ensure_ok & Hb)%result_bind_ok. bool_prop.
  apply result_bind_ok in Hb as (model & _ & Hb).
  apply result_bind_ok in Hb as ([tools specs] & Htools%build_filtered_ok & Hb).
  apply result_bind_ok in Hb as (u2 & _ & Hb).
  apply result_bind_ok in Hb as (named & Hnamed%result_map_ok & Hb).
  apply result_bind_ok in Hb as (policy & [Hbuilt Hpolicy]%map_err_ok%build_engine_ok & Hb).
  apply result_bind_ok in Hb as (providers & Hcontext%build_context_providers_ok & Hb).
  apply result_bind_ok in Hb as (budget & Hbudget%map_err_ok & Hb).
  apply result_bind_ok in Hb as (limits & Hlimits%map_err_ok & [= <-]).
  unfold prompt_budget_new in Hbudget. unfold limits_new in Hlimits.
  do 2 case_match; simplify_eq.
  split; [done|]. eexists. split; [done|]. split; simpl; [done..|].
  exists named. split; [|done]. eapply Forall2_impl; [exact Hnamed|].
  intros id rule (entry & Hf%ok_or_ok & [= <-])%result_bind_ok. exists entry.
  unfold find_rule in Hf. apply List.find_some in Hf as [Hin Hid%bool_decide_eq_true].
  by rewrite list_elem_of_In.
Qed.

Lemma bind_profiles_ok b models actor_id rules all_tools profiles bindings :
  result_fold (bind_profile b models actor_id rules all_tools) ∅ profiles = Ok bindings →
  NoDup (ap_profile_id <$> profiles) ∧
  (∀ id, is_Some (bindings !! id) ↔ id ∈ ap_profile_id <$> profiles) ∧
  ∀ p, p ∈ profiles →
    ∃ bd, bindings !! ap_profile_id p = Some bd ∧ bound_profile b rules actor_id p bd.
Proof.
  revert bindings. induction profiles as [|p profiles IH] using rev_ind; intros bindings.
  { intros [= <-]. split_and!; [constructor| |set_solver]. intros id. rewrite lookup_empty.
    split; [by intros [??]|set_solver]. }
  rewrite result_fold_app. intros (bindings0 & Hf & Hstep)%result_bind_ok. simpl in Hstep.
  apply result_bind_ok in Hstep as (bindings1 & Hstep & [= <-]).
  apply IH in Hf as (Hnd & Hdom & Hbound).
  apply bind_profile_ok in Hstep as (Hnone & bd & -> & Hbd).
  assert (ap_profile_id p ∉ ap_profile_id <$> profiles) as Hfresh.
  { intros Hin. apply Hdom in Hin as [bd' Hbd']. congruence. }
  rewrite fmap_app. split_and!.
  - apply NoDup_app. split; [done|]. split; [|apply NoDup_singleton].
    by intros id Hid ->%list_elem_of_singleton.
  - intros id. rewrite lookup_insert_is_Some', Hdom. set_solver.
  - intros q [Hq| ->%list_elem_of_singleton]%elem_of_app.
    + destruct (Hbound q Hq) as (bdq & Hbq & Hokq). exists bdq. split; [|done].
      rewrite lookup_insert_ne; [done|]. intros Heq. apply Hfresh. rewrite Heq.
      by apply list_elem_of_fmap_2.
    + exists bd. by rewrite lookup_insert_eq.
Qed.

(** The parts of a runtime that was built. *)
Lemma runtime_build_ok b runtime models store :
  runtime_build b = Some (Ok (runtime, models, store)) →
  ∃ platform_id all_tools,
    platform_id = mk_ProfileRuleId "platform.unknown_effect" ∧
    result_fold (bind_profile b models (ar_actor_id runtime)
      (with_platform_rule platform_id (rb_policy_rules b)) all_tools) ∅ (rb_profiles b)
      = Ok (ar_bindings runtime) ∧
    ar_policy_rules runtime = with_platform_rule platform_id (rb_policy_rules b) ∧
    ar_tool_registrations runtime = rb_tool_registrations b ∧
    rb_profiles b ≠ [] ∧ model_registry_new (rb_providers b) = Ok models.
Proof.
  unfold runtime_build. destruct (build_inputs b) as [[models0 actor_id]|e] eqn:Hi; [|done].
  assert (parse_rule_id "platform.unknown_effect"
          = Ok (mk_ProfileRuleId "platform.unknown_effect")) as -> by by vm_compute.
  destruct (build_runtime b models0 actor_id _) as [runtime0|e] eqn:Hr; [|done].
  destruct (rb_event_capacity b =? 0)%N; [done|]. intros [= <- <- <-].
  apply result_bind_ok in Hi as (models1 & Hm%map_err_ok & Hi).
  apply result_bind_ok in Hi as (u & Hp%ensure_ok & Hi).
  apply result_bind_ok in Hi as (actor & _ & [= <- <-]).
  apply result_bind_ok in Hr as (all_tools & _ & Hr).
  apply result_bind_ok in Hr as (bindings & Hb & [= <-]).
  eexists _, all_tools.1. split_and!; simpl; try done. by destruct (rb_profiles b).
Qed.

(** C15: a runtime binds every profile to what it declares.  If [build] returns
    a runtime, the profiles have different ids and each is bound to exactly its
    model, environment, approval lifetime, run limits and prompt budget and the
    default actor and workspace, to the providers of its own instructions, of
    the built-in hints and of the builder, to a registry of exactly its active
    tools as they are registered, and to an engine of exactly the rules it names
    and the platform rule.  Provided no rule the host registered poses as the
    platform rule ([platform_genuine]; see [platform_rule_impersonated] for one
    that does), that engine hard-denies every invocation with an unknown
    effect. *)
Theorem runtime_binds_profiles b runtime models store :
  runtime_build b = Some (Ok (runtime, models, store)) →
  NoDup (ap_profile_id <$> rb_profiles b) ∧
  (∀ id, is_Some (ar_bindings runtime !! id) ↔ id ∈ ap_profile_id <$> rb_profiles b) ∧
  ∀ p, p ∈ rb_profiles b →
    ∃ bd, ar_bindings runtime !! ap_profile_id p = Some bd ∧
      bound_profile b (ar_policy_rules runtime) (ar_actor_id runtime) p bd ∧
      (platform_genuine (rg_rule <$> rb_policy_rules b) →
       ∀ input name, UnknownEffect name ∈ in_effects input →
         is_hard_deny (ev_decision (evaluate (pb_policy bd) input)) = true).
Proof.
  intros (platform_id & all_tools & Hid & Hf & Hrules & _)%runtime_build_ok.
  apply bind_profiles_ok in Hf as (Hnd & Hdom & Hbound). rewrite <- Hrules in Hbound.
  split_and!; [done|done|]. intros p Hp. destruct (Hbound p Hp) as (bd & Hbd & Hok).
  exists bd. split_and!; [done|done|]. intros Hgenuine input name Hin.
  destruct (bp_policy _ _ _ _ _ Hok) as (named & Hnamed & Hpolicy & _).
  eapply engine_denies_unknown, Hin. rewrite Hpolicy. apply engine_rules_platform.
  intros rule Hrule Hpl. apply list_elem_of_lookup in Hrule as [i Hi].
  destruct (Forall2_lookup_r _ _ _ _ _ Hnamed Hi) as (id & _ & entry & Hentry & _ & Heq).
  rewrite Hrules in Hentry. unfold with_platform_rule in Hentry. subst rule.
  destruct (find_rule (rb_policy_rules b) platform_id).
  - apply Hgenuine; [by apply list_elem_of_fmap_2|done].
  - apply elem_of_app in Hentry as [Hentry| ->%list_elem_of_singleton]; [|done].
    apply Hgenuine; [by apply list_elem_of_fmap_2|done].
Qed.
End bindings.

(** ** A sample runtime

    Two product tools, a shadowed extension tool, one profile under the coding
    policy. *)
Module RuntimeSample.

#[export] Existing Instances RegistrySample.codec RegistrySample.engine KernelSample.display
  KernelSample.ports.

Definition extension (name : string) : ToolSpec :=
  mk_ToolSpec (mk_ToolName name) (mk_ToolVersion "2.0.0") None "An extension."
    (JObject [("type"%string, JString "object")]) (JObject [("type"%string, JString "object")])
    [UnknownEffect "a.b.c"] (mk_ToolSource SourceMcp "server" TrustUser "")
    (mk_ToolExecutionSemantics Idempotent RetryNever ConcurrencySerial (mk_ToolTimeout 1000))
    None [] None.

Definition calls : list ToolCallKind :=
  [RegisterExtension (extension "read") (KernelSample.bind 0);
   RegisterProduct (KernelSample.tool "read" FsRead) (KernelSample.bind 0);
   RegisterProduct (KernelSample.tool "write" FsWrite) (KernelSample.bind 1);
   RegisterExtension (extension "write") (KernelSample.bind 0);
   RegisterExtension (extension "remote") (KernelSample.bind 0)].

Definition or_default {E A} (a : A) (r : Result E A) : A :=
  match r with Ok a => a | Err _ => a end.

Definition registered : AgentRuntimeBuilder :=
  or_default runtime_builder_new (result_fold register_call runtime_builder_new calls).

Definition profile : AgentProfile :=
  ProfileSample.or_builder
    (with_environment cli_environment
       (active_tool (mk_ToolName "write") (active_tool (mk_ToolName "read")
          (policy_rule (mk_ProfileRuleId "product.coding")
             (profile_builder_new (mk_selector "coding") (mk_ProfileDisplayName "Coding")
                (ms_model_ref KernelSample.model)))))).

Definition builder : AgentRuntimeBuilder :=
  builder_profile profile
    (builder_actor (mk_selector "alice")
       (builder_provider KernelRunSample.provider
          (or_default registered
             (builder_policy_rule (mk_ProfileRuleId "product.coding") CodingWorkspacePolicy
                registered)))).

Definition built_runtime : option (AgentRuntime * ModelRegistry * InMemorySessionStore) :=
  match runtime_build builder with Some (Ok parts) => Some parts | _ => None end.

Definition runtime : AgentRuntime :=
  match built_runtime with
  | Some (runtime, _, _) => runtime
  | None => mk_AgentRuntime false 0 ∅ [] [] (mk_selector "") None retry_policy_default
              never_compact None None
  end.
Definition models : ModelRegistry :=
  match built_runtime with Some (_, models, _) => models | None => model_registry_empty end.

Definition store : InMemorySessionStore :=
  match built_runtime with Some (_, _, store) => store | None => store_new end.

End RuntimeSample.

Section witnesses.
Import RuntimeSample.

(** The builder builds; its closures are not normalised. *)
Lemma sample_runtime_built :
  runtime_build RuntimeSample.builder
  = Some (Ok (RuntimeSample.runtime, RuntimeSample.models, RuntimeSample.store)).
Proof.
  assert (bool_decide (is_Some RuntimeSample.built_runtime) = true) as Hbuilt
    by (vm_compute; reflexivity).
  unfold RuntimeSample.runtime, RuntimeSample.models, RuntimeSample.store,
    RuntimeSample.built_runtime in *.
  by destruct (runtime_build RuntimeSample.builder) as [[[[r m] s]|e]|].
Qed.

Lemma product_tools_win_witness :
  is_ok (result_fold register_call runtime_builder_new RuntimeSample.calls) = true ∧
  (sp_version ∘ tg_spec <$> winner RuntimeSample.calls (mk_ToolName "read"))
    = Some (mk_ToolVersion "1.0.0") ∧
  NoDup ((λ e, sp_name (tg_spec e)) <$> rb_tool_registrations RuntimeSample.registered).
Proof.
  split; [by vm_compute|]. split; [by vm_compute|].
  apply (proj1 (product_tools_win RuntimeSample.calls runtime_builder_new
                  RuntimeSample.registered eq_refl ltac:(by vm_compute))).
Defined.

Lemma runtime_binds_profiles_witness :
  ∃ bd, ar_bindings RuntimeSample.runtime !! (mk_selector "coding" : ProfileId) = Some bd ∧
    is_hard_deny (ev_decision (evaluate (pb_policy bd)
      (PolicySample.input_at 20 [FsRead; UnknownEffect "a.b.c"]))) = true.
Proof.
  destruct (runtime_binds_profiles RuntimeSample.builder RuntimeSample.runtime
              RuntimeSample.models RuntimeSample.store sample_runtime_built)
    as (_ & _ & Hbound).
  destruct (Hbound RuntimeSample.profile) as (bd & Hbd & _ & Hdeny); [left|].
  exists bd. split; [exact Hbd|].
  refine (Hdeny _ _ "a.b.c"%string _); [|by right; left].
  apply no_platform_rule. vm_compute. reflexivity.
Defined.

(** A rule that only takes the platform rule's name is accepted in its place:
    the engine built from it allows what the platform rule denies. *)
Lemma platform_rule_impersonated :
  let poser := mk_PolicyRule "platform.unknown_effect" LayerWorkspace (λ _, allow) in
  build_engine [poser] = Ok [poser] ∧
  ev_decision (evaluate [poser] (PolicySample.input_at 20 [UnknownEffect "a.b.c"])) = Allow.
Proof. by vm_compute. Qed.

(** A profile at its limit of policy rules leaves no room for the platform
    rule. *)
Lemma full_profile_not_built :
  let rule (i : nat) := mk_PolicyRule
    (String.string_of_list_ascii (Ascii.ascii_of_N <$> [97; 97 + N.of_nat (i / 26); 97 + N.of_nat (i mod 26)]%N))
    LayerProduct (λ _, abstain) in
  build_engine (rule <$> seq 0 MAX_PROFILE_POLICY_RULES) = Err TooManyRules.
Proof. by vm_compute. Qed.
End witnesses.
