(* ===== verification/Runtime.v ===== *)
(** * Runtime facade: commands over sessions

    [crates/tea/src]: the state of [AgentRuntime] ([runtime.rs]), the handlers of
    the eleven commands ([command.rs]) and the host-facing queries
    ([session_host.rs], [health.rs]).

    A handler is a computation over the runtime's state: the world the kernel
    works on and the maps the runtime's mutexes guard.  It ends with a value, a
    [RuntimeError], or the panic or exhausted fuel of a kernel computation.
    Handlers of other commands that run at the same time appear as the other
    writers of the store and the producers of the input queue, and the
    cancellation scope of a run is polled through [poll_signal]; mutexes are
    never poisoned, because nothing panics while one is held.  The compiled
    prompt is asked of the context providers at one moment. *)

From S2P Require Import Prelude Protocol Tools Policy Approval SessionState Validation Usage.
From S2P Require Import ModelSpec Event Registry ModelProvider Artifact Store ContextData.
From S2P Require Import ContextCompiler ContextProviders KernelBase KernelConfig KernelMonad.
From S2P Require Import KernelRequest KernelTools KernelTurn KernelRun Profile Command RuntimeData.
Local Open Scope tea_scope.

(** ** State ([runtime.rs]) *)

(** [SessionIdSource] and the grant identities of [KernelIdSource]. *)
Class RuntimePorts : Type := {
  next_session_id : nat → Result RuntimeError SessionId;
  next_grant_id : nat → Result KernelError GrantId
}.

Record ActiveToolOverride : Set := mk_ActiveToolOverride {
  ao_profile_id : ProfileId;
  ao_names : list ToolName
}.

(** A cancellation scope is its number; [rs_cancelled] holds the cancelled
    ones. *)
Notation CancellationScope := nat.

Record RtState : Type := mk_RtState {
  rs_world : World;
  rs_models : ModelRegistry;
  rs_active_runs : gmap SessionId CancellationScope;
  rs_cancelled : gset CancellationScope;
  rs_next_scope : CancellationScope;
  rs_active_tool_overrides : gmap SessionId ActiveToolOverride;
  rs_sessions_created : gset SessionId;
  rs_queues : gmap SessionId KernelInputQueue;
  rs_prompt_inspections : gmap SessionId RuntimePromptInspection
}.

Definition set_rs_world (w : World) (s : RtState) : RtState :=
  mk_RtState w (rs_models s) (rs_active_runs s) (rs_cancelled s) (rs_next_scope s)
    (rs_active_tool_overrides s) (rs_sessions_created s) (rs_queues s) (rs_prompt_inspections s).
Definition set_rs_models (g : ModelRegistry) (s : RtState) : RtState :=
  mk_RtState (rs_world s) g (rs_active_runs s) (rs_cancelled s) (rs_next_scope s)
    (rs_active_tool_overrides s) (rs_sessions_created s) (rs_queues s) (rs_prompt_inspections s).
Definition set_rs_runs (runs : gmap SessionId CancellationScope)
    (cancelled : gset CancellationScope) (next : CancellationScope) (s : RtState) : RtState :=
  mk_RtState (rs_world s) (rs_models s) runs cancelled next
    (rs_active_tool_overrides s) (rs_sessions_created s) (rs_queues s) (rs_prompt_inspections s).
Definition set_rs_overrides (overrides : gmap SessionId ActiveToolOverride) (s : RtState)
    : RtState :=
  mk_RtState (rs_world s) (rs_models s) (rs_active_runs s) (rs_cancelled s) (rs_next_scope s)
    overrides (rs_sessions_created s) (rs_queues s) (rs_prompt_inspections s).
Definition set_rs_created (created : gset SessionId) (s : RtState) : RtState :=
  mk_RtState (rs_world s) (rs_models s) (rs_active_runs s) (rs_cancelled s) (rs_next_scope s)
    (rs_active_tool_overrides s) created (rs_queues s) (rs_prompt_inspections s).
Definition set_rs_queues (queues : gmap SessionId KernelInputQueue) (s : RtState) : RtState :=
  mk_RtState (rs_world s) (rs_models s) (rs_active_runs s) (rs_cancelled s) (rs_next_scope s)
    (rs_active_tool_overrides s) (rs_sessions_created s) queues (rs_prompt_inspections s).
Definition set_rs_inspections (inspections : gmap SessionId RuntimePromptInspection)
    (s : RtState) : RtState :=
  mk_RtState (rs_world s) (rs_models s) (rs_active_runs s) (rs_cancelled s) (rs_next_scope s)
    (rs_active_tool_overrides s) (rs_sessions_created s) (rs_queues s) inspections.

(** [AgentRuntime::new] over a world. *)
Definition runtime_state_new (models : ModelRegistry) (w : World) : RtState :=
  mk_RtState w models ∅ ∅ 0 ∅ ∅ ∅ ∅.

(** ** The monad *)

Inductive RtFault : Set := RtPanicked | RtOutOfFuel | RtRaised (e : RuntimeError).

Definition RT (A : Type) : Type := ST RtState RtFault A.

Definition rt_raise {A} (code : RuntimeErrorCode) (message : string) : RT A :=
  st_throw (RtRaised (runtime_error code message)).
Definition rt_lift {A} (r : Result RuntimeError A) : RT A := st_lift (map_err RtRaised r).

Definition rt_fault (from : KernelError → RuntimeError) (f : Fault) : RtFault :=
  match f with
  | Panicked => RtPanicked
  | OutOfFuel => RtOutOfFuel
  | Raised e => RtRaised (from e)
  end.

(** A kernel computation; [from] converts its error. *)
Definition on_world {A} (from : KernelError → RuntimeError) (m : K A) : RT A :=
  λ s, let '(r, w) := m (rs_world s) in (map_err (rt_fault from) r, set_rs_world w s).

Definition as_code (code : RuntimeErrorCode) (e : KernelError) : RuntimeError :=
  runtime_error code (ke_message e).

Definition rt_moment : RT nat := on_world runtime_of_kernel moment.

Section runtime.
Context `{UuidText, Codec, SchemaEngine, Display, KernelPorts, RuntimePorts}.
Context (runtime : AgentRuntime).

Definition rt_port {A} (from : KernelError → RuntimeError) (f : nat → Result KernelError A)
    : RT A := on_world from (port f).

(** [SessionStore::append] and [load], with the conversion of their errors. *)
Definition sessions_append (tx : AppendTransaction) : RT unit :=
  do! on_world runtime_of_kernel interfere in
  λ s, match append (w_store (rs_world s)) tx with
       | None => (Err RtPanicked, s)
       | Some (Err e, m) =>
           (Err (RtRaised (runtime_of_store e)), set_rs_world (set_w_store m (rs_world s)) s)
       | Some (Ok _, m) =>
           (Ok tt, set_rs_world (act (ActCommitted tx) (set_w_store m (rs_world s))) s)
       end.

Definition load_snapshot (session_id : SessionId) : RT SessionSnapshot :=
  let! store := on_world runtime_of_kernel store_read in
  match load store session_id with
  | None => st_throw RtPanicked
  | Some (Err e) => st_throw (RtRaised (runtime_of_store e))
  | Some (Ok snapshot) => st_ret snapshot
  end.

(** ** Lookups and small updates ([runtime.rs]) *)

Definition binding (profile_id : ProfileId) (message : string) : RT ProfileBinding :=
  rt_lift (ok_or (ar_bindings runtime !! profile_id) (runtime_error RtUnknownProfile message)).

Definition profile_not_registered (profile_id : ProfileId) : string :=
  ("profile " ++ selector_str profile_id ++ " is not registered")%string.
Definition session_profile_not_registered (profile_id : ProfileId) : string :=
  ("session profile " ++ selector_str profile_id ++ " is not registered")%string.

(** [resolve_model] on the current generation. *)
Definition runtime_resolve_model (model_ref : ModelRef) : RT ModelSpec :=
  let! models := st_gets rs_models in
  rt_lift (resolve_model (registry_router models) model_ref).

Definition update_model_providers (provider_ids : list ProviderId)
    (providers : list ModelProvider) : RT ModelRegistry :=
  let! current := st_gets rs_models in
  let! next := rt_lift (map_err registry_error
    (let? registry := without_providers current provider_ids in
     with_registered registry providers)) in
  do! st_modify (set_rs_models next) in
  st_ret next.

Definition register_model_providers (providers : list ModelProvider) : RT ModelRegistry :=
  update_model_providers [] providers.
Definition remove_model_providers (provider_ids : list ProviderId) : RT ModelRegistry :=
  update_model_providers provider_ids [].

(** The names a session's tools are built from; an override of another profile
    is dropped. *)
Definition active_tool_names (session_id : SessionId) (b : ProfileBinding)
    : RT (list ToolName) :=
  let! overrides := st_gets rs_active_tool_overrides in
  match overrides !! session_id with
  | Some active =>
      if decide (ao_profile_id active = pb_profile_id b) then st_ret (ao_names active)
      else do! st_modify (set_rs_overrides (delete session_id overrides)) in
           st_ret (pb_active_tool_names b)
  | None => st_ret (pb_active_tool_names b)
  end.

Definition active_tool_snapshot (session_id : SessionId) (b : ProfileBinding)
    : RT (ToolRegistry * list ToolSpec) :=
  let! names := active_tool_names session_id b in
  rt_lift (build_filtered_registry names (ar_tool_registrations runtime)).

Definition has_active_run (session_id : SessionId) (s : RtState) : bool :=
  bool_decide (is_Some (rs_active_runs s !! session_id)).

(** The early return of a handler while a run is active. *)
Definition ensure_inactive (session_id : SessionId) (message : string) : RT unit :=
  let! active := st_gets (has_active_run session_id) in
  rt_lift (ensure (negb active) (runtime_error RtRunAlreadyActive message)).

Definition replace_active_tool_override (session_id : SessionId) (profile_id : ProfileId)
    (names : list ToolName) : RT unit :=
  do! ensure_inactive session_id "active tools cannot change while a run is active" in
  st_modify (λ s, set_rs_overrides
    (<[session_id := mk_ActiveToolOverride profile_id names]> (rs_active_tool_overrides s)) s).

Definition clear_active_tool_override (session_id : SessionId) : RT unit :=
  st_modify (λ s, set_rs_overrides (delete session_id (rs_active_tool_overrides s)) s).

Definition session_count (s : RtState) : nat := size (rs_sessions_created s).

Definition track_session_created (session_id : SessionId) : RT unit :=
  let! created := st_gets rs_sessions_created in
  do! st_modify (set_rs_created ({[session_id]} ∪ created)) in
  rt_lift (ensure (negb (bool_decide (session_id ∈ created)))
    (runtime_error RtInvalidRequest "session was already created through this runtime")).

Definition track_session_attached (session_id : SessionId) : RT unit :=
  st_modify (λ s, set_rs_created ({[session_id]} ∪ rs_sessions_created s) s).

Definition session_queue (session_id : SessionId) : RT KernelInputQueue :=
  let! queues := st_gets rs_queues in
  match queues !! session_id with
  | Some queue => st_ret queue
  | None =>
      let! queue := rt_lift (kernel_as RtInvalidRequest (queue_new 64 65536)) in
      do! st_modify (set_rs_queues (<[session_id := queue]> queues)) in
      st_ret queue
  end.

Definition record_prompt_inspection (session_id : SessionId) (run_id : option RunId)
    (prompt : CompiledPrompt) : RT unit :=
  st_modify (λ s, set_rs_inspections
    (<[session_id := mk_RuntimePromptInspection session_id run_id (inspection_snapshot prompt)]>
       (rs_prompt_inspections s)) s).

(** [prompt_inspection]. *)
Definition prompt_inspection (session_id : SessionId) (s : RtState)
    : option RuntimePromptInspection := rs_prompt_inspections s !! session_id.

(** The parts of [health], in its order. *)
Record RuntimeHealth : Set := mk_RuntimeHealth {
  rh_provider_ids : list ProviderId;
  rh_model_refs : list ModelRef;
  rh_model_ids : list ModelId;
  rh_profile_ids : list ProfileId;
  rh_policy_rule_ids : list ProfileRuleId;
  rh_tool_count : nat;
  rh_session_count : nat
}.

Definition rule_id_leb (a b : ProfileRuleId) : bool := str_leb (pri_str a) (pri_str b).
Definition profile_id_leb (a b : ProfileId) : bool := str_leb (selector_str a) (selector_str b).

Definition health (s : RtState) : RuntimeHealth :=
  let model_refs := ms_model_ref <$> mg_models (rs_models s) in
  mk_RuntimeHealth (btree_entries provider_id_leb (mg_providers (rs_models s))).*1 model_refs
    (mr_model_id <$> model_refs) (stable_sort profile_id_leb (map_to_list (ar_bindings runtime)).*1)
    (stable_sort rule_id_leb (rg_id <$> ar_policy_rules runtime))
    (length (ar_tool_registrations runtime)) (session_count s).

(** ** Records and configuration ([command.rs]) *)

Definition require_session (session_id : option SessionId) : RT SessionId :=
  rt_lift (ok_or session_id
    (runtime_error RtInvalidRequest "command requires an existing session id")).

Definition now : RT ProtocolTimestamp := rt_port (as_code RtInvalidState) clock_now.

(** The sequence of the next record: zero without a previous one. *)
Definition next_sequence (previous : option SessionSequence) : Result RuntimeError SessionSequence :=
  match previous with
  | None => Ok (SessionSequence_new 0)
  | Some previous =>
      ok_or (checked_next previous)
        (runtime_error RtSessionFailure "durable session sequence cannot advance")
  end.

Fixpoint build_records (session_id : SessionId) (timestamp : ProtocolTimestamp)
    (previous : option SessionSequence) (branch_id : option BranchId)
    (records : list SessionRecord) : RT (list RecordEnvelope) :=
  match records with
  | [] => st_ret []
  | record :: rest =>
      let! next := rt_lift (next_sequence previous) in
      let! record_id := rt_port (as_code RtInvalidState) next_record_id in
      let! envelope := rt_lift (error_as RtSessionFailure
        (envelope_new record_id session_id next timestamp None None branch_id ∅ record)) in
      let! envelopes := build_records session_id timestamp (Some next) branch_id rest in
      st_ret (envelope :: envelopes)
  end.

Definition rt_append_records (session_id : SessionId) (expected : option SessionSequence)
    (records : list RecordEnvelope) : RT SessionSnapshot :=
  do! sessions_append (mk_AppendTransaction session_id expected records None [] []) in
  load_snapshot session_id.

Definition append_configuration_change (session_id : SessionId) (model : option ModelRef)
    (profile_id : option ProfileId) (reasoning_effort : option ReasoningEffort) : RT unit :=
  let! snapshot := load_snapshot session_id in
  let! timestamp := now in
  let tail := st_tail_sequence (sn_state snapshot) in
  let! records := build_records session_id timestamp (Some tail)
                    (st_active_branch_id (sn_state snapshot))
                    [ConfigurationChanged model profile_id reasoning_effort] in
  do! rt_append_records session_id (Some tail) records in
  st_ret tt.

Definition ensure_configuration_mutable (session_id : SessionId) : RT unit :=
  ensure_inactive session_id "session configuration cannot change while a run is active".

(** ** Outcomes *)

Inductive RuntimeCommandOutcome : Set :=
| OutcomeCreated (session_id : SessionId)
| OutcomeRunCompleted (state : RunState) (session : MaterializedSessionState)
    (pending_approval_id : option ApprovalId)
| OutcomeEnqueued (follow_ups steering : nat)
| OutcomeAborted (session_id : SessionId)
| OutcomeConfigurationChanged (session_id : SessionId) (model : option ModelRef)
    (profile_id : option ProfileId) (reasoning_effort : option ReasoningEffort)
    (requested_reasoning_effort : option ReasoningEffort)
| OutcomeSessionCompacted (session_id : SessionId) (record_id : RecordId)
| OutcomeSessionForked (session_id : SessionId) (source_branch_id branch_id : BranchId)
| OutcomeUnsupported (command_type : AgentCommandType).

(** ** Sessions and their configuration *)

Definition create_session (profile_id : ProfileId) (metadata : ProtocolMetadata)
    : RT RuntimeCommandOutcome :=
  let! b := binding profile_id (profile_not_registered profile_id) in
  let! t := rt_moment in
  let! session_id := rt_lift (next_session_id t) in
  let! timestamp := now in
  let! root_branch_id := rt_lift (map_err
    (λ _, runtime_error RtInvalidState "session id cannot be converted to a root branch id")
    (parse_protocol_id (k := KBranch) (show_protocol_id session_id))) in
  let! models := st_gets rs_models in
  let reasoning_effort :=
    model ← router_model (registry_router models) (pb_model b);
    requested ← ar_default_reasoning_effort runtime;
    rr_effective <$> resolve_reasoning model (Some requested) in
  let! records := build_records session_id timestamp None (Some root_branch_id)
                    [SessionCreated profile_id metadata;
                     ConfigurationChanged (Some (pb_model b)) None reasoning_effort] in
  do! rt_append_records session_id None records in
  do! track_session_created session_id in
  st_ret (OutcomeCreated session_id).

(** The resolution of the session's effort for a model, when it changes it. *)
Definition adjusted_reasoning (requested : option ReasoningEffort) (model : ModelSpec)
    : option ReasoningResolution :=
  requested ← requested;
  resolution ← resolve_reasoning model (Some requested);
  if was_clamped resolution then Some resolution else None.

Definition runtime_set_model (session_id : option SessionId) (model_ref : ModelRef)
    : RT RuntimeCommandOutcome :=
  let! session_id := require_session session_id in
  do! ensure_configuration_mutable session_id in
  let! model := runtime_resolve_model model_ref in
  let! snapshot := load_snapshot session_id in
  let configuration := st_configuration (sn_state snapshot) in
  let profile_id := cfg_profile_id configuration in
  let! b := binding profile_id (session_profile_not_registered profile_id) in
  let! active := active_tool_snapshot session_id b in
  do! rt_lift (error_as RtInvalidRequest (model_definitions active.1 model)) in
  let adjusted := adjusted_reasoning (cfg_reasoning_effort configuration) model in
  let reasoning_effort := rr_effective <$> adjusted in
  do! append_configuration_change session_id (Some model_ref) None reasoning_effort in
  st_ret (OutcomeConfigurationChanged session_id (Some model_ref) None reasoning_effort
            (rr_requested <$> adjusted)).

(** The [expect] on the resolution of an explicit request is a panic here. *)
Definition runtime_set_reasoning_effort (session_id : option SessionId) (requested : ReasoningEffort)
    : RT RuntimeCommandOutcome :=
  let! session_id := require_session session_id in
  do! ensure_configuration_mutable session_id in
  let! snapshot := load_snapshot session_id in
  let! model_ref := rt_lift (ok_or (cfg_model (st_configuration (sn_state snapshot)))
    (runtime_error RtUnknownModel "session has no model")) in
  let! model := runtime_resolve_model model_ref in
  let! resolution := st_lift (ok_or (resolve_reasoning model (Some requested)) RtPanicked) in
  let effective := rr_effective resolution in
  do! append_configuration_change session_id None None (Some effective) in
  st_ret (OutcomeConfigurationChanged session_id None None (Some effective)
            (if was_clamped resolution then Some requested else None)).

Definition runtime_set_profile (session_id : option SessionId) (profile_id : ProfileId)
    : RT RuntimeCommandOutcome :=
  let! session_id := require_session session_id in
  do! ensure_configuration_mutable session_id in
  let! b := binding profile_id (profile_not_registered profile_id) in
  let! snapshot := load_snapshot session_id in
  let! model := runtime_resolve_model (pb_model b) in
  let adjusted :=
    adjusted_reasoning (cfg_reasoning_effort (st_configuration (sn_state snapshot))) model in
  let reasoning_effort := rr_effective <$> adjusted in
  do! append_configuration_change session_id (Some (pb_model b)) (Some profile_id)
        reasoning_effort in
  do! clear_active_tool_override session_id in
  st_ret (OutcomeConfigurationChanged session_id (Some (pb_model b)) (Some profile_id)
            reasoning_effort (rr_requested <$> adjusted)).

Definition set_active_tools (session_id : SessionId) (names : list ToolName) : RT unit :=
  let! snapshot := load_snapshot session_id in
  let configuration := st_configuration (sn_state snapshot) in
  let profile_id := cfg_profile_id configuration in
  do! binding profile_id (session_profile_not_registered profile_id) in
  let names := stable_sort tool_name_leb names in
  let! filtered := rt_lift (build_filtered_registry names (ar_tool_registrations runtime)) in
  let! model_ref := rt_lift (ok_or (cfg_model configuration)
    (runtime_error RtUnknownModel "session has no active model")) in
  let! models := st_gets rs_models in
  do! rt_lift (check_definitions filtered.1 (router_model (registry_router models) model_ref)) in
  replace_active_tool_override session_id profile_id names.

(** ** Compaction and forks *)

Definition session_kernel (models : ModelRegistry) (tools : ToolRegistry) (b : ProfileBinding)
    : AgentKernel := mk_AgentKernel (registry_router models) tools (pb_policy b).

(** [AgentRuntime::compact]; its kernel has no input queue. *)
Definition runtime_compact (session_id : SessionId) (summary : CanonicalMessage)
    (compacted_through_record_id : RecordId) : RT SessionSnapshot :=
  let! snapshot := load_snapshot session_id in
  let! b := binding (cfg_profile_id (st_configuration (sn_state snapshot)))
              "session profile is not registered" in
  let! active := active_tool_snapshot session_id b in
  let! models := st_gets rs_models in
  on_world runtime_of_kernel (compact session_id summary compacted_through_record_id).

Definition handle_compact (session_id : option SessionId) (instruction : option CommandText)
    : RT RuntimeCommandOutcome :=
  let! session_id := require_session session_id in
  do! ensure_inactive session_id "cannot compact while a run is active" in
  do! rt_lift (ensure (bool_decide (instruction = None)) (runtime_error RtInvalidRequest
        "custom compaction instructions are not supported by the configured summarizer contract"))
  in
  let! summarizer := rt_lift (ok_or (ar_compaction_summarizer runtime)
    (runtime_error RtInvalidState "manual compaction requires a configured summarizer")) in
  let! snapshot := load_snapshot session_id in
  do! rt_lift (map_err runtime_of_kernel (validate_new_run_state snapshot)) in
  do! rt_lift (ensure (negb (is_empty (st_messages (sn_state snapshot))))
        (runtime_error RtInvalidRequest "cannot compact an empty transcript")) in
  let! t := rt_moment in
  let! summary := rt_lift (map_err runtime_of_kernel
                             (summarizer t (st_messages (sn_state snapshot)))) in
  let! snapshot := runtime_compact session_id summary (st_tail_record_id (sn_state snapshot)) in
  st_ret (OutcomeSessionCompacted session_id (st_tail_record_id (sn_state snapshot))).

(** The record that committed a message. *)
Definition committing_record (id : MessageId) (records : list RecordEnvelope) : option RecordId :=
  head (omap (λ record,
    match env_record record with
    | MessageCommitted message =>
        if decide (message_id message = id) then Some (env_record_id record) else None
    | _ => None
    end) records).

Definition handle_fork (session_id : option SessionId) (from_message_id : MessageId)
    (branch_id : BranchId) : RT RuntimeCommandOutcome :=
  let! session_id := require_session session_id in
  do! ensure_inactive session_id "cannot fork while a run is active" in
  let! snapshot := load_snapshot session_id in
  let s := sn_state snapshot in
  let! source_branch_id := rt_lift (ok_or (st_active_branch_id s)
    (runtime_error RtInvalidState "legacy unbranched sessions cannot be forked")) in
  let! from_record_id := rt_lift (ok_or (committing_record from_message_id (sn_records snapshot))
    (runtime_error RtInvalidRequest "fork source message does not exist in the session")) in
  let! timestamp := now in
  let! records := build_records session_id timestamp (Some (st_tail_sequence s)) (Some branch_id)
                    [BranchCreated source_branch_id branch_id from_record_id;
                     ActiveBranchChanged branch_id] in
  do! rt_append_records session_id (Some (st_tail_sequence s)) records in
  st_ret (OutcomeSessionForked session_id source_branch_id branch_id).

(** ** Prompts and runs *)

Record PreparedPrompt : Type := mk_PreparedPrompt {
  pp_snapshot : SessionSnapshot;
  pp_models : ModelRegistry;
  pp_binding : ProfileBinding;
  pp_active_tools : ToolRegistry;
  pp_config : KernelRunConfig
}.

Definition validate_provider_request (t : nat) (provider : ModelProvider)
    (request : ModelRequest) : Result RuntimeError unit :=
  map_err (λ failure,
    runtime_error (if bool_decide (mf_code failure = FailInvalidRequest)
                   then RtInvalidRequest else RtProviderFailure) (mf_message failure))
    (mp_validate_request provider t request).

Definition build_run_config (b : ProfileBinding) (prompt : option CompiledPrompt)
    : Result RuntimeError KernelRunConfig :=
  let config := config_new (pb_actor_id b) (pb_environment b) in
  let config := match pb_workspace_id b with
                | Some workspace => config_with_workspace config workspace
                | None => config
                end in
  let? config := match prompt with
                 | Some prompt =>
                     kernel_as RtInvalidRequest (with_compiled_prompt config (cp_text prompt))
                 | None => Ok config
                 end in
  let? config := kernel_as RtInvalidRequest (with_approval_ttl config (pb_approval_ttl b)) in
  let config := with_limits config (pb_run_limits b) in
  let config := with_retry_policy config (ar_retry_policy runtime) in
  let config := with_compaction_policy config (ar_compaction_policy runtime) in
  let config := with_request_metadata config ∅ in
  Ok match ar_compaction_summarizer runtime with
     | Some summarizer => with_compaction_summarizer config summarizer
     | None => config
     end.

(** Compilation of a session's prompt for a run, at one moment. *)
Definition runtime_prompt (b : ProfileBinding) (profile_id : ProfileId) (session_id : SessionId)
    (run_id : option RunId) (specs : list ToolSpec) : RT CompiledPrompt :=
  let! t := rt_moment in
  rt_lift (compile_prompt t (pb_context_providers b) profile_id session_id run_id specs ∅
             (pb_prompt_budget b)).

Definition check_provider_request (provider : ModelProvider) (request : TurnRequestSnapshot)
    : RT unit :=
  let! t := rt_moment in
  rt_lift (validate_provider_request t provider (tq_request request)).

Definition prepare_prompt (session_id : SessionId) (message : CanonicalMessage)
    (final_output_format : option FinalOutputFormat) (run_id : option RunId)
    : RT PreparedPrompt :=
  let! snapshot := load_snapshot session_id in
  do! rt_lift (map_err runtime_of_kernel (validate_new_run_state snapshot)) in
  let! models := st_gets rs_models in
  let router := registry_router models in
  let configuration := st_configuration (sn_state snapshot) in
  let! model_ref := rt_lift (ok_or (cfg_model configuration)
    (runtime_error RtUnknownModel "session has no active model")) in
  let! model := rt_lift (resolve_model router model_ref) in
  let profile_id := cfg_profile_id configuration in
  let! b := binding profile_id (session_profile_not_registered profile_id) in
  let! active := active_tool_snapshot session_id b in
  do! rt_lift (error_as RtInvalidRequest (model_definitions active.1 model)) in
  let! prompt := runtime_prompt b profile_id session_id run_id active.2 in
  do! match run_id with
      | Some _ => record_prompt_inspection session_id run_id prompt
      | None => st_ret tt
      end in
  let! config := rt_lift (build_run_config b (Some prompt)) in
  let! config := rt_lift (kernel_as RtInvalidRequest
                            (with_final_output_format config final_output_format)) in
  let! prospective := rt_lift (kernel_as RtInvalidRequest
    (build_with_pending_messages (sn_state snapshot) [message] config active.1 model)) in
  let! provider := rt_lift (router_provider router model_ref) in
  do! check_provider_request provider prospective in
  st_ret (mk_PreparedPrompt snapshot models b active.1 config).

Definition preflight_prompt (session_id : SessionId) (message : CanonicalMessage)
    (final_output_format : option FinalOutputFormat) : RT unit :=
  do! prepare_prompt session_id message final_output_format None in st_ret tt.

Definition append_user_message (session_id : SessionId) (tail : SessionSequence)
    (message : CanonicalMessage) : RT unit :=
  let! timestamp := now in
  let! snapshot := load_snapshot session_id in
  let! records := build_records session_id timestamp (Some tail)
                    (st_active_branch_id (sn_state snapshot)) [MessageCommitted message] in
  do! rt_append_records session_id (Some tail) records in
  st_ret tt.

(** A kernel computation with the input queue of a session, which it shares. *)
Definition with_input_queue {A} (session_id : SessionId) (m : K A) : RT A :=
  let! queue := session_queue session_id in
  λ s, let '(r, w) := m (set_w_queue (Some queue) (rs_world s)) in
       (map_err (rt_fault runtime_of_kernel) r,
        set_rs_queues (<[session_id := default queue (w_queue w)]> (rs_queues s))
          (set_rs_world (set_w_queue None w) s)).

Definition run_kernel (session_id : SessionId) (models : ModelRegistry) (b : ProfileBinding)
    (tools : ToolRegistry) (config : KernelRunConfig) : RT KernelRunOutcome :=
  with_input_queue session_id (run (session_kernel models tools b) session_id config).

Definition resume_kernel (session_id : SessionId) (models : ModelRegistry) (b : ProfileBinding)
    (tools : ToolRegistry) (resolution : ApprovalResolution) (config : KernelRunConfig)
    : RT KernelRunOutcome :=
  with_input_queue session_id
    (resume_approval (session_kernel models tools b) session_id resolution config).

Definition begin_active_run (session_id : SessionId) : RT CancellationScope :=
  do! ensure_inactive session_id "a run is already active on this session" in
  let! scope := st_gets rs_next_scope in
  do! st_modify (λ s, set_rs_runs (<[session_id := scope]> (rs_active_runs s)) (rs_cancelled s)
                        (S scope) s) in
  st_ret scope.

(** [ActiveRunGuard]: dropped on every exit, it cancels its scope and clears the
    active run. *)
Definition drop_guard (session_id : SessionId) (scope : CancellationScope) (s : RtState)
    : RtState :=
  set_rs_runs (delete session_id (rs_active_runs s)) ({[scope]} ∪ rs_cancelled s)
    (rs_next_scope s) s.

Definition with_active_run {A} (session_id : SessionId) (body : CancellationScope → RT A)
    : RT A :=
  let! scope := begin_active_run session_id in
  λ s, let '(r, s) := body scope s in (r, drop_guard session_id scope s).

Definition run_completed (outcome : KernelRunOutcome) : RuntimeCommandOutcome :=
  OutcomeRunCompleted (ko_state outcome) (ko_session outcome) (ko_pending_approval_id outcome).

Definition handle_prompt (session_id : option SessionId) (message : CanonicalMessage)
    (final_output_format : option FinalOutputFormat) : RT RuntimeCommandOutcome :=
  let! session_id := require_session session_id in
  with_active_run session_id (λ _,
    let! run_id := rt_port (as_code RtInvalidState) next_run_id in
    let! p := prepare_prompt session_id message final_output_format (Some run_id) in
    do! append_user_message session_id (st_tail_sequence (sn_state (pp_snapshot p))) message in
    let! outcome := run_kernel session_id (pp_models p) (pp_binding p) (pp_active_tools p)
                      (pp_config p) in
    st_ret (run_completed outcome)).

Definition handle_abort (session_id : option SessionId) : RT RuntimeCommandOutcome :=
  let! session_id := require_session session_id in
  let! runs := st_gets rs_active_runs in
  let! scope := rt_lift (ok_or (runs !! session_id)
    (runtime_error RtNoActiveRun "no active run to abort on this session")) in
  do! st_modify (λ s, set_rs_runs (rs_active_runs s) ({[scope]} ∪ rs_cancelled s)
                        (rs_next_scope s) s) in
  st_ret (OutcomeAborted session_id).

(** ** Approvals *)

Definition session_grant (grant_id : GrantId) (request : ApprovalRequest)
    (session_id : SessionId) (issued_at : ProtocolTimestamp) : Result RuntimeError PolicyGrant :=
  let? resources := error_as RtPolicyFailure
    (result_map (λ r, pattern_new (tr_scheme r) (tr_locator r) (Some (tr_access r)))
       (rq_resources request)) in
  let? grant := error_as RtPolicyFailure
    (grant_new grant_id (rq_actor_id request) (rq_profile_id request) (rq_tool_name request)
       (rq_tool_version request) (rq_effects request) resources
       (ScopeSessionResource session_id) issued_at) in
  Ok (grant_with_source grant (rq_tool_source request)).

(** The persisted request of an approval that is not resolved yet, and the
    output format it was made with. *)
Definition unresolved_request (approval_id : ApprovalId) (artifacts : list ApprovalArtifactEntry)
    : Result RuntimeError (ApprovalRequest * option FinalOutputFormat) :=
  let already_resolved := existsb (λ entry,
    match entry with
    | ArtifactResolved _ resolution =>
        bool_decide (rq_approval_id (rs_request resolution) = approval_id)
    | ArtifactRequested _ _ _ => false
    end) artifacts in
  ok_or (if already_resolved then None
         else head (omap (λ entry,
           match entry with
           | ArtifactRequested _ request format =>
               if decide (rq_approval_id request = approval_id) then Some (request, format)
               else None
           | ArtifactResolved _ _ => None
           end) artifacts))
    (runtime_error RtPolicyFailure
       "persisted approval request is missing or already resolved").

(** The provider's validation of the request the resumed run would send. *)
Definition preflight_resumed (models : ModelRegistry) (snapshot : SessionSnapshot)
    (config : KernelRunConfig) (tools : ToolRegistry) : RT unit :=
  let router := registry_router models in
  let! model_ref := rt_lift (ok_or (cfg_model (st_configuration (sn_state snapshot)))
    (runtime_error RtUnknownModel "session has no active model")) in
  let! model := rt_lift (resolve_model router model_ref) in
  let! provider := rt_lift (router_provider router model_ref) in
  let! prospective := rt_lift (kernel_as RtInvalidRequest
                                 (build (sn_state snapshot) config tools model)) in
  check_provider_request provider prospective.

Definition issue_grant (request : ApprovalRequest) (decision : ApprovalDecision)
    (session_id : SessionId) (decided_at : ProtocolTimestamp) : RT (option PolicyGrant) :=
  if decide (decision = AllowSession) then
    let! grant_id := rt_port (as_code RtInvalidState) next_grant_id in
    let! grant := rt_lift (session_grant grant_id request session_id decided_at) in
    st_ret (Some grant)
  else st_ret None.

Definition handle_resolve_approval (session_id : option SessionId) (approval_id : ApprovalId)
    (decision : ApprovalDecision) : RT RuntimeCommandOutcome :=
  let! session_id := require_session session_id in
  with_active_run session_id (λ _,
    let! snapshot := load_snapshot session_id in
    let! models := st_gets rs_models in
    let profile_id := cfg_profile_id (st_configuration (sn_state snapshot)) in
    let! b := binding profile_id (session_profile_not_registered profile_id) in
    let! active := active_tool_snapshot session_id b in
    let! found := rt_lift (unresolved_request approval_id (sn_approval_artifacts snapshot)) in
    let '(request, final_output_format) := found in
    let run_id := rq_run_id request in
    let! prompt := runtime_prompt b profile_id session_id run_id active.2 in
    do! record_prompt_inspection session_id run_id prompt in
    let preflight_required := negb (bool_decide (decision = DenyApproval)) in
    let! config := rt_lift (build_run_config b (Some prompt)) in
    let! config := rt_lift (kernel_as RtInvalidRequest
      (with_final_output_format config
         (if preflight_required then final_output_format else None))) in
    do! (if preflight_required then preflight_resumed models snapshot config active.1
         else st_ret tt) in
    let! decided_at := now in
    let! issued_grant := issue_grant request decision session_id decided_at in
    let! resolution := rt_lift (error_as RtPolicyFailure
                                  (resolution_new request decision decided_at issued_grant)) in
    let! outcome := resume_kernel session_id models b active.1 resolution config in
    st_ret (run_completed outcome)).

(** ** Queued input *)

(** An enqueue of a handler, and the lengths it reports. *)
Definition enqueue (session_id : SessionId) (m : ST KernelInputQueue KernelError unit)
    : RT RuntimeCommandOutcome :=
  let! queue := session_queue session_id in
  let '(r, queue) := m queue in
  do! st_modify (λ s, set_rs_queues (<[session_id := queue]> (rs_queues s)) s) in
  do! rt_lift (kernel_as RtInvalidRequest r) in
  st_ret (OutcomeEnqueued (length (q_follow_ups queue)) (length (q_steering queue))).

Definition handle_steer (session_id : option SessionId) (text : CommandText)
    : RT RuntimeCommandOutcome :=
  let! session_id := require_session session_id in
  enqueue session_id (enqueue_steering text).

Definition handle_follow_up (session_id : option SessionId) (message : CanonicalMessage)
    : RT RuntimeCommandOutcome :=
  let! session_id := require_session session_id in
  enqueue session_id (enqueue_follow_up message).

(** ** Dispatch *)

Definition send (envelope : CommandEnvelope) : RT RuntimeCommandOutcome :=
  let session_id := cmd_session_id envelope in
  match cmd_command envelope with
  | CommandCreateSession profile_id metadata => create_session profile_id metadata
  | CommandSetModel model => runtime_set_model session_id model
  | CommandSetReasoningEffort effort => runtime_set_reasoning_effort session_id effort
  | CommandSetProfile profile_id => runtime_set_profile session_id profile_id
  | CommandPrompt message format => handle_prompt session_id message format
  | CommandSteer text => handle_steer session_id text
  | CommandFollowUp message => handle_follow_up session_id message
  | CommandAbort => handle_abort session_id
  | CommandResolveApproval approval_id decision =>
      handle_resolve_approval session_id approval_id decision
  | CommandCompactSession instruction => handle_compact session_id instruction
  | CommandForkSession from_message_id branch_id =>
      handle_fork session_id from_message_id branch_id
  end.

(** ** Host queries ([session_host.rs]) *)

Record RuntimeSessionState : Set := mk_RuntimeSessionState {
  rss_session_id : SessionId;
  rss_name : option SessionName;
  rss_profile_id : ProfileId;
  rss_model : option ModelRef;
  rss_active_branch_id : option BranchId;
  rss_message_count : nat;
  rss_pending_approval_id : option ApprovalId;
  rss_is_running : bool
}.

(** The configured catalog is the one of the store. *)
Definition catalog_name (session_id : SessionId) : RT (option SessionName) :=
  if ar_session_catalog runtime then
    do! on_world runtime_of_kernel interfere in
    let! store := st_gets (λ s, w_store (rs_world s)) in
    rt_lift (map_err runtime_of_store (session_name store session_id))
  else st_ret None.

Definition runtime_set_session_name (session_id : SessionId) (name : option SessionName)
    : RT unit :=
  do! rt_lift (ensure (ar_session_catalog runtime)
        (runtime_error RtInvalidState "runtime has no session catalog configured")) in
  do! on_world runtime_of_kernel interfere in
  let! world := st_gets rs_world in
  let '(r, store) := set_session_name (w_store world) session_id name in
  do! st_modify (set_rs_world (set_w_store store world)) in
  rt_lift (map_err runtime_of_store r).

Definition approval_id_leb (a b : ApprovalId) : bool := (as_uuid a <=? as_uuid b)%N.

Definition session_state_from_snapshot (snapshot : SessionSnapshot) : RT RuntimeSessionState :=
  let state := sn_state snapshot in
  let! name := catalog_name (st_session_id state) in
  let! running := st_gets (has_active_run (st_session_id state)) in
  st_ret (mk_RuntimeSessionState (st_session_id state) name
            (cfg_profile_id (st_configuration state)) (cfg_model (st_configuration state))
            (st_active_branch_id state) (length (st_messages state))
            (head (btree_entries approval_id_leb (st_pending_approvals state)).*1) running).

Definition attach_session (session_id : SessionId) : RT RuntimeSessionState :=
  let! snapshot := load_snapshot session_id in
  let profile_id := cfg_profile_id (st_configuration (sn_state snapshot)) in
  do! binding profile_id (session_profile_not_registered profile_id) in
  do! track_session_attached session_id in
  session_state_from_snapshot snapshot.

Definition runtime_session_state (session_id : SessionId) : RT RuntimeSessionState :=
  let! snapshot := load_snapshot session_id in
  session_state_from_snapshot snapshot.

Record SessionStats : Set := mk_SessionStats {
  ss_message_count : nat;
  ss_user_messages : nat;
  ss_assistant_messages : nat;
  ss_tool_result_messages : nat;
  ss_tool_calls : nat
}.

Definition count_role (r : MessageRole) (messages : list CanonicalMessage) : nat :=
  length (List.filter (λ m, bool_decide (role m = r)) messages).

Definition session_stats (session_id : SessionId) : RT SessionStats :=
  let! snapshot := load_snapshot session_id in
  let messages := st_messages (sn_state snapshot) in
  st_ret (mk_SessionStats (length messages) (count_role RoleUser messages)
            (count_role RoleAssistant messages) (count_role RoleToolResult messages)
            (size (st_tool_calls (sn_state snapshot)))).
End runtime.
