(* ===== verification/RuntimeLogic.v ===== *)
(** * Runtime facade: what every command keeps

    The program logic of the runtime's computations, over the one of the kernel
    ([KernelLogic]).  [rt_learns P m Q] is the triple of a computation that
    never panics, never runs out of fuel, keeps the kernel's invariant of the
    world and leaves the active runs as they were, with what it requires and
    learns as facts of the trace; [rt_safe] is the triple of one that learns
    nothing but a property of its value.  What a command may execute and request
    is what the kernel of its session's profile may. *)

From S2P Require Import Prelude Protocol Tools Policy Approval SessionState Validation Usage.
From S2P Require Import ModelSpec Event Registry ModelProvider Artifact Store StoreTheorems.
From S2P Require Import ContextData ContextCompiler ContextProviders KernelBase KernelConfig.
From S2P Require Import KernelMonad KernelRequest KernelTools KernelTurn KernelRun KernelLogic.
From S2P Require Import KernelTheorems KernelRunTheorems Profile Command RuntimeData Runtime.
Local Open Scope tea_scope.

(** ** What the runtime permits *)

Section permits.
Context `{Codec, SchemaEngine, Display, KernelPorts}.
Context (runtime : AgentRuntime).

(** The kernels the runtime builds for a profile: its policy, and a registry
    filtered from the registered tools. *)
Definition runtime_kernel (kernel : AgentKernel) (b : ProfileBinding) : Prop :=
  ak_policy kernel = pb_policy b ∧
  ∃ names specs,
    build_filtered_registry names (ar_tool_registrations runtime) = Ok (ak_tools kernel, specs).

(** The run configurations of a profile. *)
Definition profile_config (b : ProfileBinding) (config : KernelRunConfig) : Prop :=
  kc_actor_id config = pb_actor_id b ∧ kc_workspace_id config = pb_workspace_id b ∧
  kc_environment config = pb_environment b.

(** The binding of the profile that a state of the session selects, which the
    command loaded. *)
Definition session_binding (session_id : SessionId) (b : ProfileBinding) : Fact := λ τ,
  ∃ snapshot, loaded session_id snapshot τ ∧
    ar_bindings runtime !! cfg_profile_id (st_configuration (sn_state snapshot)) = Some b.

(** The resolution a command acts under: none for a prompt; for an approval, the
    user's decision on the unresolved request that the session holds under the
    approval's identity, as the protocol accepts it.  No other command runs. *)
Definition command_resolution (command : AgentCommand) (session_id : SessionId)
    (resolution : option ApprovalResolution) : Fact := λ τ,
  match command with
  | CommandPrompt _ _ => resolution = None
  | CommandResolveApproval approval_id decision =>
      ∃ r snapshot format, resolution = Some r ∧ loaded session_id snapshot τ ∧
        unresolved_request approval_id (sn_approval_artifacts snapshot) = Ok (rs_request r, format) ∧
        resolution_new (rs_request r) decision (rs_decided_at r) (rs_issued_grant r) = Ok r
  | _ => False
  end.

(** The context of the run a command starts or resumes. *)
Definition command_run (envelope : CommandEnvelope) (kernel : AgentKernel)
    (config : KernelRunConfig) (session_id : SessionId)
    (resolution : option ApprovalResolution) : Fact := λ τ,
  cmd_session_id envelope = Some session_id ∧
  command_resolution (cmd_command envelope) session_id resolution τ ∧
  ∃ b, session_binding session_id b τ ∧ runtime_kernel kernel b ∧ profile_config b config.

Definition runtime_may_run (envelope : CommandEnvelope) (invocation : ValidatedToolInvocation)
    : Fact := λ τ,
  ∃ kernel config session_id resolution,
    command_run envelope kernel config session_id resolution τ ∧
    may_run kernel config session_id resolution invocation τ.

Definition runtime_may_ask (envelope : CommandEnvelope) (request : ModelRequest) : Fact := λ τ,
  ∃ kernel config session_id resolution,
    command_run envelope kernel config session_id resolution τ ∧
    may_ask kernel config session_id resolution request τ.

#[export] Instance session_binding_stable session_id b : Stable (session_binding session_id b).
Proof. unfold session_binding. apply _. Qed.
#[export] Instance command_resolution_stable command session_id resolution :
  Stable (command_resolution command session_id resolution).
Proof. unfold command_resolution. destruct command; apply _. Qed.
#[export] Instance command_run_stable envelope kernel config session_id resolution :
  Stable (command_run envelope kernel config session_id resolution).
Proof. unfold command_run. apply _. Qed.
#[export] Instance runtime_may_run_stable envelope invocation :
  Stable (runtime_may_run envelope invocation).
Proof. unfold runtime_may_run. apply _. Qed.
#[export] Instance runtime_may_ask_stable envelope request :
  Stable (runtime_may_ask envelope request).
Proof. unfold runtime_may_ask. apply _. Qed.

Definition runtime_permits (envelope : CommandEnvelope) : Permits :=
  mk_Permits (runtime_may_run envelope) (runtime_may_ask envelope) _ _.
End permits.

(** ** Triples *)

Section triples.
Context (X : Permits) (w0 : World).

Definition rt_inv (τ : list KernelAction) (s : RtState) : Prop := run_inv X w0 τ [] (rs_world s).

Definition rt_learns {A} (P : Fact) (m : RT A) (Q : A → Fact) : Prop :=
  ∀ τ s, rt_inv τ s → P τ →
    match m s with
    | (Err (RtPanicked | RtOutOfFuel), _) => False
    | (Err (RtRaised _), s') =>
        (∃ n, rt_inv (n ++ τ) s') ∧ rs_active_runs s' = rs_active_runs s
    | (Ok a, s') =>
        (∃ n, rt_inv (n ++ τ) s' ∧ Q a (n ++ τ)) ∧ rs_active_runs s' = rs_active_runs s
    end.

Definition rt_safe {A} (m : RT A) (Q : A → Prop) : Prop := rt_learns (λ _, True) m (λ a _, Q a).

Notation triv := (λ _, True).

Lemma rt_learns_bind {A B} P (m : RT A) (k : A → RT B) Q R :
  rt_learns P m Q → (∀ a, rt_learns (Q a) (k a) R) → rt_learns P (st_bind m k) R.
Proof.
  intros Hm Hk τ s Hs Hp. specialize (Hm τ s Hs Hp). unfold st_bind.
  destruct (m s) as [[a|[| |e]] s']; [|done..]. destruct Hm as [(n & Hs' & Ha) Hruns].
  specialize (Hk a _ s' Hs' Ha). rewrite <- Hruns.
  destruct (k a s') as [[b|[| |e]] s'']; try done; destruct Hk as [[n' Hn] Hruns'];
    (split; [|done]); exists (n' ++ n); by rewrite <- (assoc_L (++)).
Qed.

Lemma rt_learns_conseq {A} P P' (m : RT A) (Q Q' : A → Fact) :
  (P' ⊢ P) → rt_learns P m Q → (∀ a, Q a ⊢ Q' a) → rt_learns P' m Q'.
Proof.
  intros HP Hm HQ τ s Hs Hp. specialize (Hm τ s Hs (HP _ Hp)).
  destruct (m s) as [[a|[| |e]] s']; try done. destruct Hm as [(n & Hn & Ha) Hruns].
  split; [|done]. exists n. split; [done|by apply HQ].
Qed.

(** A step that keeps what is known and learns more. *)
Lemma rt_learns_step {A B} P (m : RT A) (k : A → RT B) Q R :
  Stable P → rt_learns P m Q → (∀ a, rt_learns (λ τ, P τ ∧ Q a τ) (k a) R) →
  rt_learns P (st_bind m k) R.
Proof.
  intros HP Hm Hk. eapply rt_learns_bind; [|exact Hk].
  intros τ s Hs Hp. specialize (Hm τ s Hs Hp).
  destruct (m s) as [[a|[| |e]] s']; try done. destruct Hm as [(n & Hn & Ha) Hruns].
  split; [|done]. exists n. split; [done|]. split; [by apply stable_app|done].
Qed.

Lemma rt_learns_safe {A B} P (m : RT A) (k : A → RT B) Q R :
  Stable P → rt_safe m Q → (∀ a, Q a → rt_learns P (k a) R) → rt_learns P (st_bind m k) R.
Proof.
  intros HP Hm Hk. eapply (rt_learns_step _ _ _ (λ a _, Q a));
    [done|eapply rt_learns_conseq; [|exact Hm|]|].
  - by intros τ.
  - by intros a τ.
  - intros a τ s Hs [Hp Ha]. by apply Hk.
Qed.

Lemma rt_learns_ret {A} P (a : A) (Q : A → Fact) : (P ⊢ Q a) → rt_learns P (st_ret a) Q.
Proof. intros HQ τ s Hs Hp. split; [|done]. exists []. split; [done|by apply HQ]. Qed.

Lemma rt_learns_raised {A} P e (Q : A → Fact) : rt_learns P (st_throw (RtRaised e)) Q.
Proof. intros τ s Hs _. split; [|done]. by exists []. Qed.

Lemma rt_learns_pure {A} (φ : Prop) P (m : RT A) Q :
  (P ⊢ λ _, φ) → (φ → rt_learns P m Q) → rt_learns P m Q.
Proof. intros Hφ Hm τ s Hs Hp. apply Hm; [by eapply Hφ|done..]. Qed.

Lemma rt_safe_bind {A B} (m : RT A) (k : A → RT B) Q R :
  rt_safe m Q → (∀ a, Q a → rt_safe (k a) R) → rt_safe (st_bind m k) R.
Proof. intros Hm Hk. eapply rt_learns_safe; [apply _|exact Hm|exact Hk]. Qed.

Lemma rt_safe_conseq {A} (m : RT A) Q R : rt_safe m Q → (∀ a, Q a → R a) → rt_safe m R.
Proof. intros Hm HQ. eapply rt_learns_conseq; [|exact Hm|]; known. Qed.

(** What a computation learns of the trace, forgotten. *)
Lemma rt_learns_triv {A} (m : RT A) Q : rt_learns (λ _, True) m Q → rt_safe m triv.
Proof. intros Hm. eapply rt_learns_conseq; [|exact Hm|]; known. Qed.

Lemma rt_safe_ret {A} (a : A) (Q : A → Prop) : Q a → rt_safe (st_ret a) Q.
Proof. intros HQ. apply rt_learns_ret. known. Qed.

Lemma rt_safe_lift {A} (r : Result RuntimeError A) Q :
  (∀ a, r = Ok a → Q a) → rt_safe (rt_lift r) Q.
Proof.
  intros HQ τ s Hs _. unfold rt_lift, st_lift, map_err.
  destruct r; (split; [|done]); exists []; auto.
Qed.

Lemma rt_safe_gets {A} (f : RtState → A) (Q : A → Prop) :
  (∀ s, Q (f s)) → rt_safe (st_gets f) Q.
Proof. intros HQ τ s Hs _. split; [|done]. exists []. by split. Qed.

(** Updates of the runtime's own maps. *)
Lemma rt_safe_modify (f : RtState → RtState) :
  (∀ s, rs_world (f s) = rs_world s) → (∀ s, rs_active_runs (f s) = rs_active_runs s) →
  rt_safe (st_modify f) triv.
Proof.
  intros Hw Hr τ s Hs _. split; [|done]. exists []. split; [|done]. unfold rt_inv. by rewrite Hw.
Qed.

Lemma rt_learns_world {A} from P (m : K A) Q :
  learns X w0 P m Q → rt_learns P (on_world from m) Q.
Proof.
  intros Hm τ s Hs Hp. specialize (Hm [] τ (rs_world s) Hs Hp). unfold on_world.
  destruct (m (rs_world s)) as [[a|[| |e]] w]; simpl; try done; by split.
Qed.

Lemma rt_safe_world {A} from (m : K A) Q : neutral X w0 m Q → rt_safe (on_world from m) Q.
Proof. apply rt_learns_world. Qed.

Lemma rt_safe_moment : rt_safe rt_moment triv.
Proof. apply rt_safe_world. by apply neutral_moment. Qed.

Context `{UuidText, Codec, SchemaEngine, Display, KernelPorts, RuntimePorts}.
Context (runtime : AgentRuntime).

Lemma rt_safe_port {A} from (f : nat → Result KernelError A) : rt_safe (rt_port from f) triv.
Proof. apply rt_safe_world. by apply neutral_port. Qed.

Lemma rt_safe_interfere : rt_safe (on_world runtime_of_kernel interfere) triv.
Proof. apply rt_safe_world, neutral_interfere. Qed.

Lemma rt_safe_append tx : results_paired tx → rt_safe (sessions_append tx) triv.
Proof.
  intros Hp. eapply rt_safe_bind; [apply rt_safe_interfere|]. intros [] _ τ s Hs _.
  destruct (append_cases (w_store (rs_world s)) tx (ri_store _ _ _ _ _ Hs)) as [_ [[e Ha]|Ha]].
  - rewrite Ha. split; [|done]. exists []. eapply run_inv_same; [exact Hs|done|apply Hs].
  - destruct Ha as (outcome & s' & previous & Ha & _). rewrite Ha. split; [|done].
    exists [ActCommitted tx]. split; [|done].
    apply run_inv_committed; [exact Hs|exact Hp|]. by eapply append_wf; [apply Hs|].
Qed.

Lemma rt_learns_load P session_id :
  Stable P → rt_learns P (load_snapshot session_id) (λ s τ, P τ ∧ seen session_id s τ).
Proof.
  intros HP. eapply rt_learns_step; [done|apply rt_learns_world, learns_read|]. intros store.
  apply (rt_learns_pure (store_wf store)); [by intros τ (_ & Hm & _)|]. intros Hm.
  destruct (load store session_id) as [[snapshot|e]|] eqn:Hl.
  - apply rt_learns_ret. intros τ (Hp & _ & t & Ht). split; [done|].
    by apply (load_seen _ _ _ _ _ Hm Hl Ht).
  - apply rt_learns_raised.
  - by destruct (load_answers _ session_id Hm).
Qed.

Lemma rt_safe_load session_id : rt_safe (load_snapshot session_id) triv.
Proof. eapply rt_learns_triv, (rt_learns_load triv), _. Qed.

(** ** Handlers *)

(** The same under facts that stay known. *)
Tactic Notation "l_bind" uconstr(lem) := eapply rt_learns_safe; [apply _|apply lem|].
Tactic Notation "l_any" uconstr(lem) :=
  eapply (rt_learns_safe _ _ _ triv); [apply _|by apply lem|intros ? _].

Tactic Notation "rt_bind" uconstr(lem) := eapply rt_safe_bind; [apply lem|].
Tactic Notation "rt_any" uconstr(lem) :=
  eapply (rt_safe_bind _ _ triv); [by apply lem|intros ? _].

Lemma rt_safe_binding profile_id message :
  rt_safe (binding runtime profile_id message) (λ b, ar_bindings runtime !! profile_id = Some b).
Proof. apply rt_safe_lift. by intros b ?%ok_or_ok. Qed.

Lemma rt_safe_tools session_id b :
  rt_safe (active_tool_snapshot runtime session_id b)
    (λ active, ∃ names, build_filtered_registry names (ar_tool_registrations runtime) = Ok active).
Proof.
  eapply (rt_safe_bind _ _ triv).
  - unfold active_tool_names. rt_any rt_safe_gets. case_match; [|by apply rt_safe_ret].
    case_match; [by apply rt_safe_ret|]. rt_any rt_safe_modify. by apply rt_safe_ret.
  - intros names _. apply rt_safe_lift. intros active Ha. by exists names.
Qed.

Lemma rt_safe_inactive session_id message :
  rt_safe (ensure_inactive session_id message) triv.
Proof. unfold ensure_inactive. rt_any rt_safe_gets. by apply rt_safe_lift. Qed.

Lemma rt_safe_queue session_id : rt_safe (session_queue session_id) triv.
Proof.
  unfold session_queue. rt_any rt_safe_gets. case_match; [by apply rt_safe_ret|].
  rt_any rt_safe_lift. rt_any rt_safe_modify. by apply rt_safe_ret.
Qed.

Lemma rt_safe_records session_id timestamp previous branch_id records :
  rt_safe (build_records session_id timestamp previous branch_id records)
    (λ es, env_record <$> es = records).
Proof.
  revert previous. induction records as [|record records IH]; intros previous; simpl;
    [by apply rt_safe_ret|].
  rt_any rt_safe_lift. rt_any rt_safe_port.
  eapply rt_safe_bind; [apply (rt_safe_lift _ (λ e, env_record e = record))|].
  { unfold error_as, envelope_new, result_bind, map_err. intros e He. repeat case_match; try done.
    simplify_eq. done. }
  intros envelope <-. rt_bind IH. intros es Hes. apply rt_safe_ret. simpl. by f_equal.
Qed.

Lemma rt_safe_append_records session_id expected es :
  paired_records (env_record <$> es) →
  rt_safe (rt_append_records session_id expected es) triv.
Proof.
  intros Hp. rt_any rt_safe_append. apply rt_safe_load.
Qed.

(** Building records and appending them. *)
Ltac rt_commit :=
  eapply rt_safe_bind; [apply rt_safe_records|];
  let es := fresh "es" in let Hes := fresh "Hes" in intros es Hes;
  eapply (rt_safe_bind _ _ triv); [apply rt_safe_append_records; by rewrite Hes|intros _ _].

Lemma rt_safe_now : rt_safe now triv.
Proof. apply rt_safe_port. Qed.

Lemma rt_safe_configuration session_id model profile_id effort :
  rt_safe (append_configuration_change session_id model profile_id effort) triv.
Proof.
  unfold append_configuration_change. rt_any rt_safe_load. rt_any rt_safe_now.
  rt_commit. by apply rt_safe_ret.
Qed.

Lemma rt_safe_session session_id : rt_safe (require_session session_id) triv.
Proof. by apply rt_safe_lift. Qed.

Lemma rt_safe_create profile_id metadata :
  rt_safe (create_session runtime profile_id metadata) triv.
Proof.
  unfold create_session. rt_bind rt_safe_binding. intros b _. rt_any rt_safe_moment.
  rt_any rt_safe_lift.
  rt_any rt_safe_now. rt_any rt_safe_lift. rt_any rt_safe_gets.
  rt_commit.
  unfold track_session_created. eapply (rt_safe_bind _ _ triv); [|by intros; apply rt_safe_ret].
  rt_any rt_safe_gets. rt_any rt_safe_modify. by apply rt_safe_lift.
Qed.

Lemma rt_safe_resolve model_ref : rt_safe (runtime_resolve_model model_ref) triv.
Proof. unfold runtime_resolve_model. rt_any rt_safe_gets. by apply rt_safe_lift. Qed.

Lemma rt_safe_set_model session_id model_ref : rt_safe (runtime_set_model runtime session_id model_ref) triv.
Proof.
  unfold runtime_set_model. rt_any rt_safe_session. rt_any rt_safe_inactive. rt_any rt_safe_resolve.
  rt_any rt_safe_load. rt_bind rt_safe_binding. intros b _. rt_bind rt_safe_tools. intros active _.
  rt_any rt_safe_lift. rt_any rt_safe_configuration. by apply rt_safe_ret.
Qed.

Lemma rt_safe_set_effort session_id effort :
  rt_safe (runtime_set_reasoning_effort session_id effort) triv.
Proof.
  unfold runtime_set_reasoning_effort. rt_any rt_safe_session. rt_any rt_safe_inactive.
  rt_any rt_safe_load. rt_any rt_safe_lift. rt_bind rt_safe_resolve. intros model _.
  assert (∃ resolution, resolve_reasoning model (Some effort) = Some resolution) as [resolution ->].
  { unfold resolve_reasoning. case_match; eauto. }
  eapply (rt_safe_bind _ _ triv); [by apply rt_safe_ret|intros r _].
  rt_any rt_safe_configuration. by apply rt_safe_ret.
Qed.

Lemma rt_safe_set_profile session_id profile_id :
  rt_safe (runtime_set_profile runtime session_id profile_id) triv.
Proof.
  unfold runtime_set_profile. rt_any rt_safe_session. rt_any rt_safe_inactive.
  rt_bind rt_safe_binding. intros b _. rt_any rt_safe_load. rt_any rt_safe_resolve.
  rt_any rt_safe_configuration. unfold clear_active_tool_override.
  rt_any rt_safe_modify. by apply rt_safe_ret.
Qed.

Lemma rt_safe_compact session_id instruction :
  rt_safe (handle_compact runtime session_id instruction) triv.
Proof.
  unfold handle_compact. rt_any rt_safe_session. rt_any rt_safe_inactive. do 2 rt_any rt_safe_lift.
  rt_any rt_safe_load. do 2 rt_any rt_safe_lift. rt_any rt_safe_moment. rt_any rt_safe_lift.
  eapply (rt_safe_bind _ _ triv); [|by intros; apply rt_safe_ret]. unfold runtime_compact.
  rt_any rt_safe_load. rt_bind rt_safe_binding. intros b _. rt_bind rt_safe_tools. intros active _.
  rt_any rt_safe_gets. apply rt_safe_world, neutral_compact.
Qed.

Lemma rt_safe_fork session_id from_message_id branch_id :
  rt_safe (handle_fork session_id from_message_id branch_id) triv.
Proof.
  unfold handle_fork. rt_any rt_safe_session. rt_any rt_safe_inactive. rt_any rt_safe_load.
  do 2 rt_any rt_safe_lift. rt_any rt_safe_now. rt_commit. by apply rt_safe_ret.
Qed.

Lemma rt_safe_enqueue session_id m : rt_safe (enqueue session_id m) triv.
Proof.
  unfold enqueue. rt_bind rt_safe_queue. intros queue _. destruct (m queue) as [r queue'].
  rt_any rt_safe_modify. rt_any rt_safe_lift. by apply rt_safe_ret.
Qed.

Lemma rt_safe_abort session_id : rt_safe (handle_abort session_id) triv.
Proof.
  unfold handle_abort. rt_any rt_safe_session. rt_any rt_safe_gets. rt_any rt_safe_lift.
  rt_any rt_safe_modify. by apply rt_safe_ret.
Qed.

(** ** Runs *)

(** The guard gives the active runs back on every exit. *)
Lemma rt_learns_guard {A} P session_id (body : CancellationScope → RT A) Q :
  (∀ scope, rt_learns P (body scope) Q) → rt_learns P (with_active_run session_id body) Q.
Proof.
  intros Hbody τ s Hs Hp. unfold with_active_run, begin_active_run, ensure_inactive,
    has_active_run, rt_lift, st_bind, st_gets, st_lift, st_modify, ensure, st_ret, map_err.
  destruct (rs_active_runs s !! session_id) as [other|] eqn:Hrun; cbn.
  { split; [|done]. by exists []. }
  match goal with |- context [body ?scope ?state] =>
    specialize (Hbody scope τ state Hs Hp); destruct (body scope state) as [[a|[| |e]] s'] end;
    try done; destruct Hbody as [Hs' Hruns]; (split; [exact Hs'|]); simpl in *; rewrite Hruns;
    by apply delete_insert_id.
Qed.

(** A kernel computation on a session's queue. *)
Lemma rt_learns_with_queue {A} P session_id (m : K A) Q :
  Stable P → learns X w0 P m Q → rt_learns P (with_input_queue session_id m) Q.
Proof.
  intros HP Hm. unfold with_input_queue. eapply rt_learns_safe; [done|apply rt_safe_queue|].
  intros queue _ τ s Hs Hp.
  assert (run_inv X w0 τ [] (set_w_queue (Some queue) (rs_world s))) as Hw.
  { eapply run_inv_same; [exact Hs|done|apply Hs]. }
  specialize (Hm [] τ _ Hw Hp).
  destruct (m (set_w_queue (Some queue) (rs_world s))) as [[a|[| |e]] w]; simpl; [|done..|].
  - destruct Hm as (n & Hn & Ha). split; [|done]. exists n. split; [|done].
    eapply run_inv_same; [exact Hn|done|apply Hn].
  - destruct Hm as [n Hn]. split; [|done]. exists n.
    eapply run_inv_same; [exact Hn|done|apply Hn].
Qed.

Lemma rt_safe_prompt_of b profile_id session_id run_id specs :
  rt_safe (runtime_prompt b profile_id session_id run_id specs) triv.
Proof. unfold runtime_prompt. rt_any rt_safe_moment. by apply rt_safe_lift. Qed.

Lemma rt_safe_check provider request : rt_safe (check_provider_request provider request) triv.
Proof. unfold check_provider_request. rt_any rt_safe_moment. by apply rt_safe_lift. Qed.

Lemma build_run_config_profile b prompt config :
  build_run_config runtime b prompt = Ok config → profile_config b config.
Proof.
  unfold build_run_config, profile_config. intros (c1 & Hc1 & Hc)%result_bind_ok.
  assert (kc_actor_id c1 = pb_actor_id b ∧ kc_workspace_id c1 = pb_workspace_id b ∧
          kc_environment c1 = pb_environment b) as Hp.
  { destruct prompt as [prompt|]; [|injection Hc1 as <-; by destruct (pb_workspace_id b)].
    unfold kernel_as, with_compiled_prompt in Hc1. apply map_err_ok in Hc1.
    apply result_bind_ok in Hc1 as (u & _ & [= <-]). by destruct (pb_workspace_id b). }
  apply result_bind_ok in Hc as (c2 & Hc2 & [= <-]).
  unfold kernel_as, with_approval_ttl in Hc2. apply map_err_ok in Hc2. case_match; [done|].
  injection Hc2 as <-. by destruct (ar_compaction_summarizer runtime).
Qed.

Lemma formatted_config b prompt config format config' :
  build_run_config runtime b prompt = Ok config →
  kernel_as RtInvalidRequest (with_final_output_format config format) = Ok config' →
  profile_config b config'.
Proof.
  intros Hb%build_run_config_profile (Ha & Hw & He)%map_err_ok%format_context.
  unfold profile_config in *. by rewrite Ha, Hw, He.
Qed.

(** What preparing a prompt establishes. *)
Definition prepared_ok (session_id : SessionId) (p : PreparedPrompt) : Fact := λ τ,
  session_binding runtime session_id (pp_binding p) τ ∧
  (∃ names specs, build_filtered_registry names (ar_tool_registrations runtime)
     = Ok (pp_active_tools p, specs)) ∧
  profile_config (pp_binding p) (pp_config p).

#[export] Instance prepared_ok_stable session_id p : Stable (prepared_ok session_id p).
Proof. unfold prepared_ok. apply _. Qed.

Lemma rt_learns_prepare P session_id message format run_id :
  Stable P →
  rt_learns P (prepare_prompt runtime session_id message format run_id)
    (λ p τ, P τ ∧ prepared_ok session_id p τ).
Proof.
  intros HP. eapply rt_learns_bind; [by apply rt_learns_load|]. intros snapshot.
  l_any rt_safe_lift. l_any rt_safe_gets. do 2 l_any rt_safe_lift.
  l_bind rt_safe_binding. intros b Hb. l_bind rt_safe_tools. intros [tools specs] [names Htools].
  l_any rt_safe_lift. l_any rt_safe_prompt_of.
  eapply (rt_learns_safe _ _ _ triv); [apply _| |].
  { case_match; [by apply rt_safe_modify|by apply rt_safe_ret]. }
  intros _ _. eapply rt_learns_safe; [apply _|apply rt_safe_lift; intros c Hc; exact Hc|].
  intros config Hconfig.
  eapply rt_learns_safe; [apply _|apply rt_safe_lift; intros c Hc; exact Hc|].
  intros config' Hconfig'.
  do 2 l_any rt_safe_lift. l_any rt_safe_check. apply rt_learns_ret. intros τ [Hp Hs].
  split; [exact Hp|]. split; [exists snapshot; split; [apply Hs|exact Hb]|].
  split; [eexists _, _; exact Htools|].
  eapply formatted_config; [exact Hconfig|exact Hconfig'].
Qed.

Lemma rt_safe_user_message session_id tail message :
  rt_safe (append_user_message session_id tail message) triv.
Proof.
  unfold append_user_message. rt_any rt_safe_now. rt_any rt_safe_load. rt_commit.
  by apply rt_safe_ret.
Qed.

Lemma rt_safe_grant request decision session_id decided_at :
  rt_safe (issue_grant request decision session_id decided_at) triv.
Proof.
  unfold issue_grant. case_match; [|by apply rt_safe_ret]. rt_any rt_safe_port.
  rt_any rt_safe_lift. by apply rt_safe_ret.
Qed.

Lemma rt_safe_preflight models snapshot config tools :
  rt_safe (preflight_resumed models snapshot config tools) triv.
Proof.
  unfold preflight_resumed. do 4 rt_any rt_safe_lift. apply rt_safe_check.
Qed.
End triples.

(** ** Commands *)

Section commands.
Context `{UuidText, Codec, SchemaEngine, Display, KernelPorts, RuntimePorts}.
Context (runtime : AgentRuntime) (envelope : CommandEnvelope) (w0 : World).

Notation X := (runtime_permits runtime envelope).
Notation triv := (λ _, True).
Notation rt_safe := (rt_safe X w0).
Notation rt_learns := (rt_learns X w0).

Tactic Notation "rt_any" uconstr(lem) :=
  eapply (rt_safe_bind _ _ _ _ triv); [by apply lem|intros ? _].
Tactic Notation "l_bind" uconstr(lem) := eapply rt_learns_safe; [apply _|apply lem|].
Tactic Notation "l_any" uconstr(lem) :=
  eapply (rt_learns_safe _ _ _ _ _ triv); [apply _|by apply lem|intros ? _].

(** The operation a command runs, where the command's facts are known. *)
Lemma command_learns P kernel config session_id resolution (m : K KernelRunOutcome) :
  run_operation kernel config session_id resolution m →
  Stable P → (P ⊢ command_run runtime envelope kernel config session_id resolution) →
  learns X w0 P m (λ _ _, True).
Proof.
  intros Hop HP Hrun. eapply operation_learns; [exact Hop|done|..]; intros x τ [Hp Hx];
    exists kernel, config, session_id, resolution; (split; [by apply Hrun|exact Hx]).
Qed.

Lemma command_operation P kernel config session_id resolution (m : K KernelRunOutcome) :
  run_operation kernel config session_id resolution m →
  Stable P → (P ⊢ command_run runtime envelope kernel config session_id resolution) →
  rt_learns P (with_input_queue session_id m) (λ _ _, True).
Proof. intros Hop HP Hrun. apply rt_learns_with_queue; [done|]. by eapply command_learns. Qed.

Lemma session_kernel_ok models tools b :
  (∃ names specs, build_filtered_registry names (ar_tool_registrations runtime)
     = Ok (tools, specs)) →
  runtime_kernel runtime (session_kernel models tools b) b.
Proof. by intros Htools. Qed.

Lemma rt_safe_prompt message format :
  cmd_command envelope = CommandPrompt message format →
  rt_safe (handle_prompt runtime (cmd_session_id envelope) message format) triv.
Proof.
  intros Hcmd. unfold handle_prompt.
  eapply (rt_safe_bind _ _ _ _ (λ id, cmd_session_id envelope = Some id)).
  { apply rt_safe_lift. by intros id ?%ok_or_ok. }
  intros session_id Hid. apply rt_learns_guard. intros scope.
  l_any rt_safe_port. eapply rt_learns_bind; [apply rt_learns_prepare, _|]. intros p.
  l_any rt_safe_user_message. eapply rt_learns_bind; [eapply command_operation; [constructor|apply _|]|].
  - intros τ (_ & Hb & Htools & Hconfig). split; [exact Hid|]. rewrite Hcmd. split; [done|].
    exists (pp_binding p). split_and!; [exact Hb|by apply session_kernel_ok|exact Hconfig].
  - intros outcome. by apply rt_learns_ret.
Qed.

Lemma resolution_new_fields request decision decided_at grant r :
  resolution_new request decision decided_at grant = Ok r →
  r = mk_ApprovalResolution request decision decided_at grant.
Proof.
  unfold resolution_new. intros (? & _ & Hr)%result_bind_ok.
  apply result_bind_ok in Hr as (? & _ & Hr). by apply result_bind_ok in Hr as (? & _ & [= <-]).
Qed.

Lemma rt_safe_resolve_approval approval_id decision :
  cmd_command envelope = CommandResolveApproval approval_id decision →
  rt_safe (handle_resolve_approval runtime (cmd_session_id envelope) approval_id decision) triv.
Proof.
  intros Hcmd. unfold handle_resolve_approval.
  eapply (rt_safe_bind _ _ _ _ (λ id, cmd_session_id envelope = Some id)).
  { apply rt_safe_lift. by intros id ?%ok_or_ok. }
  intros session_id Hid. apply rt_learns_guard. intros scope.
  eapply rt_learns_bind; [apply rt_learns_load, _|]. intros snapshot.
  l_any rt_safe_gets. l_bind rt_safe_binding. intros b Hb.
  l_bind rt_safe_tools. intros [tools specs] [names Htools].
  eapply rt_learns_safe; [apply _|apply rt_safe_lift; intros found Hfound; exact Hfound|].
  intros [request format] Hfound.
  l_any rt_safe_prompt_of.
  eapply (rt_learns_safe _ _ _ _ _ triv); [apply _|by apply rt_safe_modify|intros _ _].
  eapply rt_learns_safe; [apply _|apply rt_safe_lift; intros c Hc; exact Hc|].
  intros config Hconfig.
  eapply rt_learns_safe; [apply _|apply rt_safe_lift; intros c Hc; exact Hc|].
  intros config' Hconfig'.
  eapply (rt_learns_safe _ _ _ _ _ triv); [apply _| |].
  { case_match; [apply rt_safe_preflight|by apply rt_safe_ret]. }
  intros _ _. l_any rt_safe_now. l_any rt_safe_grant.
  eapply rt_learns_safe; [apply _|apply rt_safe_lift; intros r Hr; exact Hr|].
  intros r Hr%map_err_ok.
  eapply rt_learns_bind; [eapply (command_operation _ _ _ _ (Some r)); [constructor|apply _|]|].
  - intros τ [_ Hs]. split; [exact Hid|]. split.
    + rewrite Hcmd. exists r, snapshot, format.
      pose proof (resolution_new_fields _ _ _ _ _ Hr) as ->. simpl.
      split_and!; [done|apply Hs|exact Hfound|exact Hr].
    + exists b. split; [exists snapshot; split; [apply Hs|exact Hb]|].
      split; [by apply session_kernel_ok; eexists _, _|].
      eapply formatted_config; [exact Hconfig|exact Hconfig'].
  - intros outcome. by apply rt_learns_ret.
Qed.

(** Every command. *)
Lemma rt_safe_send : rt_safe (send runtime envelope) triv.
Proof.
  unfold send. destruct (cmd_command envelope) eqn:Hcmd.
  - apply rt_safe_create.
  - by apply rt_safe_prompt.
  - rt_any rt_safe_session. apply rt_safe_enqueue.
  - rt_any rt_safe_session. apply rt_safe_enqueue.
  - apply rt_safe_abort.
  - by apply rt_safe_resolve_approval.
  - apply rt_safe_set_model.
  - apply rt_safe_set_effort.
  - apply rt_safe_set_profile.
  - apply rt_safe_compact.
  - apply rt_safe_fork.
Qed.
End commands.
