(* ===== verification/RuntimeTheorems.v ===== *)
(** * Runtime facade: claims about commands

    What every command keeps, who may run what, what an active run excludes,
    and exactly what a session-wide approval authorizes. *)

From S2P Require Import Prelude Protocol Tools Policy Approval SessionState Validation Usage.
From S2P Require Import ModelSpec Event Registry ModelProvider Artifact Store StoreTheorems.
From S2P Require Import ContextData ContextCompiler ContextProviders KernelBase KernelConfig.
From S2P Require Import KernelMonad KernelRequest KernelTools KernelTurn KernelRun KernelLogic.
From S2P Require Import KernelTheorems KernelRunTheorems Profile Command RuntimeData.
From S2P Require Import RuntimeWiring Runtime RuntimeLogic.
Local Open Scope tea_scope.

(** ** A sample session

    The runtime of [RuntimeSample] creates a session and prompts it: its model
    calls the read tool and answers.  UUIDs are written in hexadecimal. *)

Module CommandSample.

#[export] Existing Instances RegistrySample.codec RegistrySample.engine KernelSample.display
  KernelSample.ports.

Definition hex_digit (d : N) : N := if (d <? 10)%N then (48 + d)%N else (87 + d)%N.
Definition hex_value (b : N) : N := if (b <? 58)%N then (b - 48)%N else (b - 87)%N.
Fixpoint hex_digits (fuel : nat) (n : N) : list N :=
  match fuel with
  | O => []
  | S fuel => hex_digits fuel (n / 16) ++ [hex_digit (n mod 16)]
  end.
Definition uuid_text (n : N) : string :=
  let d := hex_digits 32 n in
  string_of_bytes (take 8 d ++ [45%N] ++ take 4 (drop 8 d) ++ [45%N] ++ take 4 (drop 12 d)
                   ++ [45%N] ++ take 4 (drop 16 d) ++ [45%N] ++ drop 20 d).
Definition uuid_value (s : string) : option N :=
  if (String.length s =? 36)%nat
  then Some (foldl (λ n b, (n * 16 + hex_value b)%N) 0%N
               (List.filter (λ b, negb (b =? 45)%N) (bytes s)))
  else None.

#[export] Instance uuids : UuidText := {| hyphenated := uuid_text; uuid_parse := uuid_value |}.

Definition session : SessionId := mk_id 0x01890000000070008000000000000001.
#[export] Instance runtime_ports : RuntimePorts := {|
  next_session_id := λ _, Ok session;
  next_grant_id := λ t, Ok (mk_id (1000 + N.of_nat t)%N)
|}.

Definition initial : RtState :=
  runtime_state_new RuntimeSample.models
    (mk_World store_new None 0 (mk_EventEmitter session (SessionSequence_new 0) 0 limits_default)
       []).

Definition command (session_id : option SessionId) (c : AgentCommand) : CommandEnvelope :=
  mk_CommandEnvelope CURRENT_PROTOCOL_VERSION (mk_id 1) session_id (Timestamp 40) c.

Definition create : CommandEnvelope :=
  command None (CommandCreateSession (mk_selector "coding") ∅).
Definition prompt : CommandEnvelope :=
  command (Some session)
    (CommandPrompt (User (mk_id 500) [Text "hello"] (Timestamp 40)) None).

Definition created : RtState := (send RuntimeSample.runtime create initial).2.
Definition prompted : Result RtFault RuntimeCommandOutcome * RtState :=
  send RuntimeSample.runtime prompt created.

End CommandSample.

(** ** Every command *)

Section commands.
Context `{UuidText, Codec, SchemaEngine, Display, KernelPorts, RuntimePorts}.
Context (runtime : AgentRuntime) (envelope : CommandEnvelope) (s : RtState).
Context (Hstore : store_wf (w_store (rs_world s))).
Context (Htrace : starts_before_executions (w_trace (rs_world s))).

Notation X := (runtime_permits runtime envelope).

Lemma send_safe :
  match send runtime envelope s with
  | (Err (RtPanicked | RtOutOfFuel), _) => False
  | (_, s') => (∃ τ, rt_inv X (rs_world s) τ s') ∧ rs_active_runs s' = rs_active_runs s
  end.
Proof using Hstore Htrace.
  assert (rt_inv X (rs_world s) [] s) as Hinv by (by apply run_inv_start).
  pose proof (rt_safe_send runtime envelope (rs_world s) [] s Hinv I) as Hsend.
  destruct (send runtime envelope s) as [[a|[| |e]] s']; try done;
    destruct Hsend as [[n Hn] Hruns]; (split; [|done]); eexists; apply Hn.
Qed.

Lemma send_state_safe :
  ∃ τ, rt_inv X (rs_world s) τ (send runtime envelope s).2.
Proof using Hstore Htrace.
  pose proof send_safe as Hs. by destruct (send runtime envelope s) as [[a|[| |e]] s']; try apply Hs.
Qed.

(** C11: every command ends, and ends its run.  Whatever the command, the
    providers, executors, ports and concurrent writers: it returns an outcome
    or a typed error, never panics and never runs out of fuel; the session
    store stays well formed, no execution precedes its durable start, and the
    active runs are those before it, so a run is inactive again on every exit
    of its command. *)
Theorem commands_terminate :
  (send runtime envelope s).1 ≠ Err RtPanicked ∧ (send runtime envelope s).1 ≠ Err RtOutOfFuel ∧
  rs_active_runs (send runtime envelope s).2 = rs_active_runs s ∧
  store_wf (w_store (rs_world (send runtime envelope s).2)) ∧
  starts_before_executions (w_trace (rs_world (send runtime envelope s).2)).
Proof using Hstore Htrace.
  pose proof send_safe as Hs. pose proof send_state_safe as [τ Hinv].
  destruct (send runtime envelope s) as [[a|[| |e]] s']; try done;
    (split_and!; [done..|apply Hs|apply Hinv|apply Hinv]).
Qed.

(** What a prepared invocation is of. *)
Lemma prepared_registered kernel call metadata moment invocation names specs :
  build_filtered_registry names (ar_tool_registrations runtime) = Ok (ak_tools kernel, specs) →
  prepare kernel call metadata moment = PreparedValid invocation →
  ∃ r, find_registration (ar_tool_registrations runtime) (sp_name (tg_spec r)) = Some r ∧
    tg_spec r = vi_spec invocation ∧ has_client_execution (tg_binding r) = true.
Proof using Type.
  intros Hb Hp. unfold prepare, unknown_tool, invalid_tool_arguments in Hp.
  destruct (parse_tool_name _) as [name|]; [|discriminate].
  destruct (invocation_new _ _ _ _ _) as [i|]; [|discriminate].
  destruct (registry_validate _ _ _) as [v|e] eqn:Hv; [|by destruct e].
  injection Hp as ->.
  apply registry_validate_ok in Hv as (tool & parts & resources & Htool & Hparts & _ & _ & _ & ->).
  apply build_filtered_ok in Hb. destruct (ft_registered _ _ _ Hb _ _ Htool) as (r & Hf & Hs & Hbd).
  exists r. destruct (find_registration_ok _ _ _ Hf) as [_ Hname]. rewrite Hname.
  split_and!; [done|by rewrite <- Hs|]. rewrite <- Hbd. by destruct (rt_binding tool).
Qed.

(** C12: commands execute registered tools that the policy of their session's
    profile allowed or the user approved.  Take any execution of a command, and
    what the command did before it.  The invocation is of a tool as it is
    registered with the runtime, with a client route.  The command is a prompt
    or the resolution of an approval, addressed to a session; the kernel that
    executes has the policy, and the run the actor, workspace and environment,
    of the profile that a state of that session, loaded by the command,
    selects; and the invocation is one such a run may execute: allowed by that
    policy in this run ([runs_execute_allowed]), or, for a resolution, the one
    approved, where the resolution is the command's own decision on the
    unresolved request that the session holds under the command's approval
    identity. *)
Theorem commands_execute_authorized :
  ∃ new, w_trace (rs_world (send runtime envelope s).2) = new ++ w_trace (rs_world s) ∧
    ∀ newer invocation older, new = newer ++ ActExecuted invocation :: older →
      (∃ r, find_registration (ar_tool_registrations runtime) (sp_name (tg_spec r)) = Some r ∧
         tg_spec r = vi_spec invocation ∧ has_client_execution (tg_binding r) = true) ∧
      ∃ kernel config session_id resolution,
        command_run runtime envelope kernel config session_id resolution older ∧
        may_run kernel config session_id resolution invocation older.
Proof using Hstore Htrace.
  destruct send_state_safe as [new Hinv].
  exists new. split; [apply Hinv|]. intros newer invocation older ->.
  pose proof (justified_action _ _ _ _ (ri_ok _ _ _ _ _ Hinv))
    as (kernel & config & session_id & resolution & Hrun & Hmay).
  split; [|by exists kernel, config, session_id, resolution].
  destruct Hrun as (_ & _ & b & _ & (_ & names & specs & Htools) & _).
  destruct Hmay as [(run_id & _ & snapshot & call & evaluated & _ & _ & Hprep & _)
    |(r & _ & (_ & _ & _ & _ & snapshot & tool & _ & _ & _ & Hprep) & _)];
    destruct Hprep as (metadata & now & _ & _ & Hprep); by eapply prepared_registered.
Qed.
End commands.

(** ** Active runs *)

(** What a command does on a session with an active run: it is refused and
    changes nothing, cancels the run, or touches the input queue alone. *)
Definition excluded `{UuidText, Codec, SchemaEngine, Display, KernelPorts, RuntimePorts}
    (runtime : AgentRuntime) (session_id : SessionId) (scope : CancellationScope)
    (envelope : CommandEnvelope) (s : RtState) : Prop :=
  match cmd_command envelope with
  | CommandCreateSession _ _ => True
  | CommandSteer _ | CommandFollowUp _ =>
      (send runtime envelope s).2
      = set_rs_queues (rs_queues (send runtime envelope s).2) s
  | CommandAbort =>
      send runtime envelope s
      = (Ok (OutcomeAborted session_id),
         set_rs_runs (rs_active_runs s) ({[scope]} ∪ rs_cancelled s) (rs_next_scope s) s)
  | CommandPrompt _ _ | CommandResolveApproval _ _ | CommandSetModel _
  | CommandSetReasoningEffort _ | CommandSetProfile _ | CommandForkSession _ _
  | CommandCompactSession _ =>
      ∃ message,
        send runtime envelope s = (Err (RtRaised (runtime_error RtRunAlreadyActive message)), s)
  end.

Section active.
Context `{UuidText, Codec, SchemaEngine, Display, KernelPorts, RuntimePorts}.

Lemma refused_active {A} session_id message (k : unit → RT A) s :
  has_active_run session_id s = true →
  st_bind (ensure_inactive session_id message) k s
  = (Err (RtRaised (runtime_error RtRunAlreadyActive message)), s).
Proof.
  intros Ha. unfold ensure_inactive, st_bind, st_gets, rt_lift, st_lift, ensure, map_err.
  by rewrite Ha.
Qed.

Lemma with_active_run_refused {A} session_id (body : CancellationScope → RT A) s :
  has_active_run session_id s = true →
  with_active_run session_id body s
  = (Err (RtRaised (runtime_error RtRunAlreadyActive
                      "a run is already active on this session")), s).
Proof. intros Ha. unfold with_active_run, begin_active_run. unfold st_bind at 1. by rewrite refused_active. Qed.

Lemma enqueue_queues session_id m s :
  (enqueue session_id m s).2 = set_rs_queues (rs_queues (enqueue session_id m s).2) s.
Proof.
  destruct s as [w models runs cancelled next overrides created queues inspections].
  unfold enqueue, session_queue, st_bind, st_gets, rt_lift, st_lift, kernel_as.
  destruct (queue_new 64 65536) as [fresh|e]; simpl;
    (destruct (queues !! session_id) as [queue|]; simpl; [by destruct (m queue) as [[u|e'] q]|]);
    [by destruct (m fresh) as [[u|e'] q]|done].
Qed.

(** Replacing the active tools reads, and then meets the same test. *)
Definition run_maps (s : RtState) :=
  (rs_active_runs s, rs_active_tool_overrides s).

Lemma keeps_on_world {A} from (m : K A) : keeps run_maps (on_world from m).
Proof. intros s. unfold on_world. by destruct (m (rs_world s)). Qed.

Lemma keeps_load session_id : keeps run_maps (load_snapshot session_id).
Proof.
  apply keeps_bind; [apply keeps_on_world|]. intros [] s. by repeat case_match.
Qed.

Lemma held_bind {A B} session_id (m : RT A) (k : A → RT B) :
  keeps run_maps m →
  (∀ a s, has_active_run session_id s = true → run_maps (k a s).2 = run_maps s) →
  ∀ s, has_active_run session_id s = true → run_maps (st_bind m k s).2 = run_maps s.
Proof.
  intros Hm Hk s Ha. unfold st_bind. specialize (Hm s). destruct (m s) as [[a|e] s']; simpl in *;
    [|done]. rewrite Hk; [done|]. unfold has_active_run in *. by injection Hm as ->.
Qed.

Lemma active_tools_kept runtime session_id names s :
  has_active_run session_id s = true →
  run_maps (set_active_tools runtime session_id names s).2 = run_maps s.
Proof.
  revert s. unfold set_active_tools, binding, rt_lift.
  repeat (apply held_bind; [first [apply keeps_load|apply keeps_lift|apply keeps_gets]|intros ?]).
  intros s Ha. unfold replace_active_tool_override. by rewrite refused_active.
Qed.

(** C13: an active run excludes what it must not see.  While a run is active on
    a session, a prompt, an approval resolution, a change of model, effort or
    profile, a compaction and a fork are refused with [RunAlreadyActive] and
    change nothing; an abort cancels exactly the scope of the run; steering
    and follow-ups change the input queue alone; and the session's active
    tools cannot be replaced. *)
Theorem active_run_excludes runtime session_id scope s :
  rs_active_runs s !! session_id = Some scope →
  (∀ envelope, cmd_session_id envelope = Some session_id →
     excluded runtime session_id scope envelope s) ∧
  ∀ names, rs_active_tool_overrides (set_active_tools runtime session_id names s).2
           = rs_active_tool_overrides s.
Proof.
  intros Hrun. assert (has_active_run session_id s = true) as Ha.
  { unfold has_active_run. rewrite Hrun. by apply bool_decide_eq_true. }
  split.
  - intros envelope Hid. unfold excluded, send. rewrite Hid. destruct (cmd_command envelope).
    + done.
    + eexists. by apply with_active_run_refused.
    + apply enqueue_queues.
    + apply enqueue_queues.
    + unfold handle_abort, require_session, st_bind, st_gets, rt_lift, st_lift. simpl.
      by rewrite Hrun.
    + eexists. by apply with_active_run_refused.
    + eexists. by apply refused_active.
    + eexists. by apply refused_active.
    + eexists. by apply refused_active.
    + eexists. by apply refused_active.
    + eexists. by apply refused_active.
  - intros names. pose proof (active_tools_kept runtime session_id names s Ha) as Hk.
    by injection Hk.
Qed.
End active.

(** ** Session-wide approvals *)

(** What a persisted request satisfies ([ApprovalRequest::from_parts] and
    [ToolResource::new]). *)
Definition request_bounded (request : ApprovalRequest) : Prop :=
  0 < length (rq_effects request) ≤ 64 ∧ length (rq_resources request) ≤ 128 ∧
  Forall (λ r, valid_scheme (tr_scheme r) && valid_locator (tr_locator r) = true)
    (rq_resources request).

(** The pattern [session_grant] makes of a resource matches what extends its
    locator. *)
Definition extends_resource (approved r : ToolResource) : Prop :=
  tr_scheme approved = tr_scheme r ∧ tr_access approved = tr_access r ∧
  String.prefix (tr_locator approved) (tr_locator r) = true.

(** The authority of an approval for a session, in its own terms. *)
Definition session_authority (request : ApprovalRequest) (session_id : SessionId)
    (issued_at : ProtocolTimestamp) (input : PolicyInput) : Prop :=
  ts_leb issued_at (in_now input) = true ∧ in_session_id input = session_id ∧
  in_actor_id input = rq_actor_id request ∧ in_profile_id input = rq_profile_id request ∧
  in_tool_name input = rq_tool_name request ∧ in_tool_version input = rq_tool_version request ∧
  in_tool_source input = rq_tool_source request ∧
  (∀ effect, effect ∈ in_effects input → effect ∈ rq_effects request) ∧
  ∀ r, r ∈ in_resources input →
    ∃ approved, approved ∈ rq_resources request ∧ extends_resource approved r.

Section grants.
Context `{Display}.

Lemma dedup_length {A} (same : A → A → bool) l : length (dedup same l) ≤ length l.
Proof. destruct l as [|x l]; simpl; [done|]. apply dedup_from_length. Qed.

Lemma dedup_nonempty {A} (same : A → A → bool) l : l ≠ [] → length (dedup same l) ≠ 0.
Proof.
  destruct l as [|x l]; [done|]. intros _. simpl. revert x.
  induction l as [|z l IH]; intros x; simpl; [done|]. by destruct (same z x).
Qed.

Lemma prefix_refl s : String.prefix s s = true.
Proof. induction s as [|c s IH]; simpl; [done|]. by destruct (Ascii.ascii_dec c c). Qed.

Lemma patterns_of (resources : list ToolResource) :
  Forall (λ r, valid_scheme (tr_scheme r) && valid_locator (tr_locator r) = true) resources →
  result_map (λ r, pattern_new (tr_scheme r) (tr_locator r) (Some (tr_access r))) resources
  = Ok ((λ r, mk_ResourcePattern (tr_scheme r) (tr_locator r) (Some (tr_access r))) <$> resources).
Proof.
  induction 1 as [|r l Hr Hl IH]; [done|]. csimpl. unfold pattern_new at 1. rewrite Hr. simpl.
  by rewrite IH.
Qed.

Lemma grant_new_fields id actor profile name version effects resources scope issued_at g :
  grant_new id actor profile name version effects resources scope issued_at = Ok g →
  (gr_actor_id g, gr_profile_id g, gr_tool_name g, gr_tool_version g, gr_scope g,
   gr_issued_at g, gr_revoked_at g)
  = (actor, profile, name, version, scope, issued_at, None).
Proof.
  unfold grant_new. intros (u & _ & Hg)%result_bind_ok.
  apply result_bind_ok in Hg as (u2 & _ & Hg).
  by apply result_bind_ok in Hg as (u3 & _ & [= <-]).
Qed.

(** A session grant is made exactly when there is a resource to bind it to. *)
Lemma grant_new_session id actor profile name version effects resources session_id issued_at :
  0 < length effects ≤ 64 → length resources ≤ 128 →
  is_ok (grant_new id actor profile name version effects resources
           (ScopeSessionResource session_id) issued_at) = negb (is_empty resources).
Proof.
  intros [Hpos Hle] Hlen. unfold grant_new, ensure.
  set (es := dedup effect_same _). set (ps := dedup pattern_same _).
  assert (length es ≤ 64) as Hes.
  { etrans; [apply dedup_length|]. by rewrite stable_sort_perm. }
  assert (length es ≠ 0) as Hes0.
  { apply dedup_nonempty. intros Hn. pose proof (stable_sort_perm effect_leb effects) as Hp.
    rewrite Hn in Hp. apply Permutation_nil_l in Hp as <-. simpl in Hpos. lia. }
  assert (length ps ≤ 128) as Hps.
  { etrans; [apply dedup_length|]. by rewrite stable_sort_perm. }
  rewrite (proj2 (Nat.eqb_neq _ _) Hes0), (proj2 (Nat.leb_le (length es) _)) by done. simpl.
  rewrite (proj2 (Nat.leb_le (length ps) _)) by done. rewrite andb_true_r.
  destruct resources as [|r resources]; [done|].
  assert (length ps ≠ 0) as Hps0.
  { apply dedup_nonempty. intros Hn.
    pose proof (stable_sort_perm pattern_leb (r :: resources)) as Hp.
    rewrite Hn in Hp. by apply Permutation_nil_l in Hp. }
  by rewrite (proj2 (Nat.eqb_neq _ _) Hps0).
Qed.

(** What the patterns of a request cover. *)
Lemma covers_request g (resources rs : list ToolResource) :
  (∀ rs, covers_resources g rs = true ↔
     ∀ r, r ∈ rs → ∃ p, p ∈ ((λ r, mk_ResourcePattern (tr_scheme r) (tr_locator r)
       (Some (tr_access r))) <$> resources) ∧ pattern_matches p r = true) →
  covers_resources g rs = true ↔
  ∀ r, r ∈ rs → ∃ approved, approved ∈ resources ∧ extends_resource approved r.
Proof.
  intros ->. split; intros Hr r Hin; specialize (Hr r Hin).
  - destruct Hr as (p & (a & -> & Ha)%list_elem_of_fmap & Hm). exists a. split; [done|].
    unfold pattern_matches in Hm. simpl in Hm.
    rewrite !andb_true_iff, String.eqb_eq, bool_decide_eq_true in Hm.
    destruct Hm as [[Hs Hp] Hacc]. by split_and!.
  - destruct Hr as (a & Ha & Hs & Hacc & Hp). eexists. split; [by apply list_elem_of_fmap_2|].
    unfold pattern_matches. simpl. rewrite Hs, String.eqb_refl, Hp, Hacc. simpl.
    by apply bool_decide_eq_true.
Qed.

Lemma session_grant_cases grant_id request session_id issued_at :
  request_bounded request →
  match session_grant grant_id request session_id issued_at with
  | Ok g =>
      (gr_actor_id g, gr_profile_id g, gr_tool_name g, gr_tool_version g, gr_tool_source g,
       gr_scope g, gr_issued_at g, gr_revoked_at g)
      = (rq_actor_id request, rq_profile_id request, rq_tool_name request,
         rq_tool_version request, Some (rq_tool_source request),
         ScopeSessionResource session_id, issued_at, None) ∧
      (∀ es, covers_effects g es = true ↔ ∀ e, e ∈ es → e ∈ rq_effects request) ∧
      ∀ rs, covers_resources g rs = true ↔
        ∀ r, r ∈ rs → ∃ approved, approved ∈ rq_resources request ∧ extends_resource approved r
  | Err e => rq_resources request = [] ∧ re_code e = RtPolicyFailure
  end.
Proof.
  intros (Heffects & Hlen & Hvalid). unfold session_grant, error_as.
  rewrite patterns_of by done. unfold map_err, result_bind.
  set (patterns := _ <$> rq_resources request).
  pose proof (grant_new_session grant_id (rq_actor_id request) (rq_profile_id request)
    (rq_tool_name request) (rq_tool_version request) _ patterns session_id issued_at Heffects) as Hok.
  unfold patterns in Hok. rewrite length_fmap in Hok. specialize (Hok Hlen). fold patterns in Hok.
  destruct (grant_new _ _ _ _ _ _ patterns _ _) as [g|e] eqn:Hg; simpl.
  - pose proof (grant_new_covers _ _ _ _ _ _ _ _ _ _ Hg) as (Hce & Hcr & _).
    apply grant_new_fields in Hg. injection Hg as ? ? ? ? ? ? ?.
    split; [congruence|]. split; [exact Hce|]. intros rs. by apply (covers_request (grant_with_source g _)).
  - split; [|done]. by destruct (rq_resources request).
Qed.

(** C14: a session-wide approval authorizes exactly this.  For an approval
    request with at least one resource, [AllowSession] issues a grant that the
    resolution accepts within the request's lifetime, and that grant matches
    exactly the inputs of the same session, actor, profile, tool, version and
    source, from the time of the decision on, whose effects are among the
    approved ones and whose resources each have the scheme and access of an
    approved resource and a locator that extends its locator.  Without
    resources the approval is refused with [PolicyFailure]. *)
Theorem session_grant_exact grant_id request session_id issued_at :
  request_bounded request →
  match session_grant grant_id request session_id issued_at with
  | Ok g =>
      (∀ input, grant_matches g input = true ↔ session_authority request session_id issued_at input) ∧
      (ts_leb (rq_created_at request) issued_at = true →
       ts_ltb issued_at (rq_expires_at request) = true →
       resolution_new request AllowSession issued_at (Some g)
       = Ok (mk_ApprovalResolution request AllowSession issued_at (Some g)))
  | Err e => rq_resources request = [] ∧ re_code e = RtPolicyFailure
  end.
Proof.
  intros Hb. pose proof (session_grant_cases grant_id request session_id issued_at Hb) as Hcases.
  destruct (session_grant _ _ _ _) as [g|e]; [|exact Hcases].
  destruct Hcases as (Hfields & Hce & Hcr).
  injection Hfields as Hactor Hprofile Hname Hversion Hsource Hscope Hissued Hrevoked. split.
  - intros input. unfold grant_matches, session_authority, grant_source_matches.
    rewrite Hactor, Hprofile, Hname, Hversion, Hsource, Hissued, Hrevoked, Hscope, <- Hce, <- Hcr.
    unfold ts_ltb, ts_leb. rewrite Z.ltb_antisym.
    destruct (as_utc issued_at <=? as_utc (in_now input))%Z; simpl;
      [|split; [done|by intros [? _]]].
    repeat (case_bool_decide; simpl; [|split; [done|intros; destruct_and?; congruence]]).
    destruct (covers_effects g (in_effects input)), (covers_resources g (in_resources input));
      simpl; rewrite ?bool_decide_eq_true; split; intros; destruct_and?; try done; by split_and!.
  - intros Hcreated Hexpires. unfold resolution_new, grant_fits_request, grant_source_matches.
    rewrite Hactor, Hprofile, Hname, Hversion, Hsource, Hissued.
    rewrite (proj2 (Hce _)) by done.
    rewrite (proj2 (Hcr _)) by (intros r Hr; exists r; split; [done|by split_and!; [..|apply prefix_refl]]).
    unfold ts_ltb, ts_leb in *. apply Z.leb_le in Hcreated. apply Z.ltb_lt in Hexpires.
    rewrite (proj2 (Z.ltb_ge _ (as_utc (rq_created_at request)))) by done.
    rewrite (proj2 (Z.leb_gt _ (as_utc issued_at))) by done. rewrite Z.ltb_irrefl.
    by rewrite !bool_decide_true.
Qed.
End grants.

(** ** Samples and witnesses *)

Section witnesses.
Import CommandSample.

Lemma created_wf : store_wf (w_store (rs_world created)) ∧
  starts_before_executions (w_trace (rs_world created)).
Proof.
  assert (store_wf (w_store (rs_world initial))) as Hwf
    by apply reachable_store_wf, reachable_store_new.
  pose proof (send_state_safe RuntimeSample.runtime create initial Hwf I) as [τ Hinv].
  split; [exact (ri_store _ _ _ _ _ Hinv)|exact (ri_safe _ _ _ _ _ Hinv)].
Qed.

Lemma commands_terminate_witness :
  match prompted.1 with Ok (OutcomeRunCompleted RunCompleted _ None) => True | _ => False end ∧
  prompted.1 ≠ Err RtOutOfFuel ∧ rs_active_runs prompted.2 = rs_active_runs created.
Proof.
  split; [by vm_compute|].
  destruct (commands_terminate RuntimeSample.runtime prompt created (proj1 created_wf)
              (proj2 created_wf)) as (_ & Hfuel & Hruns & _).
  split; [exact Hfuel|exact Hruns].
Defined.

Lemma commands_execute_authorized_witness :
  ∃ new, w_trace (rs_world prompted.2) = new ++ w_trace (rs_world created) ∧
    length (executed (rs_world prompted.2)) = 1 ∧
    ∀ newer invocation older, new = newer ++ ActExecuted invocation :: older →
      ∃ kernel config, command_run RuntimeSample.runtime prompt kernel config session None older ∧
        may_run kernel config session None invocation older.
Proof.
  destruct (commands_execute_authorized RuntimeSample.runtime prompt created (proj1 created_wf)
              (proj2 created_wf)) as (new & Hnew & Hok).
  exists new. split; [exact Hnew|]. split; [by vm_compute|]. intros newer invocation older Heq.
  destruct (Hok newer invocation older Heq)
    as [_ (kernel & config & session_id & resolution & Hrun & Hmay)].
  exists kernel, config. pose proof Hrun as (Hid & Hres & _).
  injection Hid as <-. simpl in Hres. subst resolution. split; [exact Hrun|exact Hmay].
Defined.

(** The state in which the sample's run is active. *)
Definition running : RtState := set_rs_runs {[session := 0]} ∅ 1 created.

Lemma active_run_excludes_witness :
  has_active_run session running = true ∧
  ∃ message, send RuntimeSample.runtime prompt running
             = (Err (RtRaised (runtime_error RtRunAlreadyActive message)), running).
Proof.
  split; [by vm_compute|].
  refine (proj1 (active_run_excludes RuntimeSample.runtime session 0 running _) prompt _);
    vm_compute; reflexivity.
Defined.

Definition approved : ToolResource := mk_ToolResource "file" "src/main.rs" AccessWrite.
Definition request : ApprovalRequest :=
  mk_ApprovalRequest (mk_id 30) (mk_id 31) (mk_selector "alice") (mk_selector "coding") session None
    None cli_environment (mk_ToolName "write") (mk_ToolVersion "1.0.0") native_product [FsWrite]
    [approved] (Timestamp 10) (Timestamp 100) (rq_presentation ApprovalSample.request).
Definition input_on (resources : list ToolResource) : PolicyInput :=
  mk_PolicyInput (mk_selector "alice") (mk_selector "coding") session None None (mk_id 40)
    (mk_ToolName "write") (mk_ToolVersion "1.0.0") native_product (JObject []) [FsWrite] resources
    cli_environment (Timestamp 30) [].

Lemma session_grant_exact_witness :
  ∃ g, session_grant (mk_id 50) request session (Timestamp 20) = Ok g ∧
    grant_matches g (input_on [approved]) = true.
Proof.
  assert (request_bounded request) as Hb.
  { split; [simpl; lia|]. split; [simpl; lia|]. by constructor. }
  pose proof (session_grant_exact (mk_id 50) request session (Timestamp 20) Hb) as Hexact.
  destruct (session_grant (mk_id 50) request session (Timestamp 20)) as [g|e] eqn:Hg;
    [|by destruct Hexact].
  exists g. split; [reflexivity|]. apply (proj1 Hexact).
  split; [reflexivity|]. split; [reflexivity|]. do 5 (split; [reflexivity|]).
  split; [intros effect Heffect; exact Heffect|].
  intros r ->%list_elem_of_singleton. exists approved.
  split; [left|]. by split.
Defined.

(** What the grant of an approval for [src/main.rs] also matches: a file whose
    path extends it, and a call that names no resource. *)
Lemma session_grant_reaches_further :
  ∀ g, session_grant (mk_id 50) request session (Timestamp 20) = Ok g →
    grant_matches g (input_on [mk_ToolResource "file" "src/main.rs.bak" AccessWrite]) = true ∧
    grant_matches g (input_on []) = true.
Proof. intros g Hg. vm_compute in Hg. injection Hg as <-. by vm_compute. Qed.

(** The run whose prompt the runtime inspects is not the run of the kernel: the
    facade and the kernel each draw an identity. *)
Definition started_runs (w : World) : list (option RunId) :=
  omap (λ a, match a with ActEmitted e => Some (evt_run_id e) | _ => None end) (w_trace w).

Definition inspected_run : option RunId :=
  rs_prompt_inspections prompted.2 !! session ≫= ri_run_id.

Lemma inspected_run_never_starts :
  let runs := started_runs (rs_world prompted.2) in
  runs ≠ [] ∧ ∃ run_id, inspected_run = Some run_id ∧ Some run_id ∉ runs.
Proof.
  intros runs.
  assert (match inspected_run with
          | Some run_id => negb (bool_decide (Some run_id ∈ runs)) && negb (is_empty runs)
          | None => false
          end = true) as Hruns by (vm_compute; reflexivity).
  clearbody runs. generalize dependent inspected_run. intros [run_id|] Hruns; [|discriminate].
  apply andb_true_iff in Hruns as [Hin Hne]. apply negb_true_iff, bool_decide_eq_false in Hin.
  split; [by destruct runs|by exists run_id].
Qed.
End witnesses.
