(* ===== verification/FetchAddress.v ===== *)
(** * Web fetch: the address policy

    [crates/tea-coding-tools/src/web_fetch/address_policy.rs]: which addresses a
    fetch may connect to.  An address is its number, of 32 or 128 bits. *)

From Stdlib Require Import ZifyBool ZifyN.
From S2P Require Import Prelude Ordering.
Local Open Scope tea_scope.

(** ** Addresses *)

Inductive IpAddr : Set := V4 (address : N) | V6 (address : N).

#[export] Instance IpAddr_eq_dec : EqDecision IpAddr.
Proof. solve_decision. Defined.

(** [Ipv4Addr::new] and [Ipv6Addr::new]: octets and groups, high ones first. *)
Definition ipv4 (a b c d : N) : N := (((a * 256 + b) * 256 + c) * 256 + d)%N.
Definition ipv6 (a b c d e f g h : N) : N :=
  (((((((a * 65536 + b) * 65536 + c) * 65536 + d) * 65536 + e) * 65536 + f) * 65536 + g) * 65536
   + h)%N.

(** [is_loopback]: 127.0.0.0/8, and the one address ::1. *)
Definition is_loopback_v4 (address : N) : bool := (address / 16777216 =? 127)%N.
Definition is_loopback_v6 (address : N) : bool := (address =? 1)%N.

(** [to_ipv4_mapped]: ::ffff:a.b.c.d. *)
Definition to_ipv4_mapped (address : N) : option N :=
  if (address / 2 ^ 32 =? 65535)%N then Some (address mod 2 ^ 32)%N else None.

(** The order of [IpAddr]: version 4 before 6, then by number. *)
Definition ip_leb (x y : IpAddr) : bool :=
  match x, y with
  | V4 x, V4 y | V6 x, V6 y => (x <=? y)%N
  | V4 _, V6 _ => true
  | V6 _, V4 _ => false
  end.

Record SocketAddr : Set := mk_SocketAddr { sa_ip : IpAddr; sa_port : N }.

#[export] Instance SocketAddr_eq_dec : EqDecision SocketAddr.
Proof. solve_decision. Defined.

(** ** Networks *)

(** [checked_shl] of a word of [width] bits. *)
Definition checked_shl (width value count : N) : option N :=
  if (count <? width)%N then Some (N.land (N.shiftl value count) (N.ones width)) else None.

Definition in_v4_network (value network prefix : N) : bool :=
  let mask := default 0%N (checked_shl 32 (N.ones 32) (32 - prefix)) in
  (N.land value mask =? N.land network mask)%N.

Definition in_v6_network (value network prefix : N) : bool :=
  let mask := default 0%N (checked_shl 128 (N.ones 128) (128 - prefix)) in
  (N.land value mask =? N.land network mask)%N.

Definition IPV4_FORBIDDEN : list (N * N) :=
  [(ipv4 0 0 0 0, 8); (ipv4 10 0 0 0, 8); (ipv4 100 64 0 0, 10); (ipv4 169 254 0 0, 16);
   (ipv4 172 16 0 0, 12); (ipv4 192 0 0 0, 24); (ipv4 192 0 2 0, 24); (ipv4 192 31 196 0, 24);
   (ipv4 192 52 193 0, 24); (ipv4 192 88 99 0, 24); (ipv4 192 168 0 0, 16);
   (ipv4 192 175 48 0, 24); (ipv4 198 18 0 0, 15); (ipv4 198 51 100 0, 24);
   (ipv4 203 0 113 0, 24); (ipv4 224 0 0 0, 4); (ipv4 240 0 0 0, 4)]%N.

Definition IPV6_FORBIDDEN : list (N * N) :=
  [(ipv6 0 0 0 0 0 0 0 0, 96); (ipv6 0x64 0xff9b 0 0 0 0 0 0, 96);
   (ipv6 0x64 0xff9b 1 0 0 0 0 0, 48); (ipv6 0x100 0 0 0 0 0 0 0, 64);
   (ipv6 0x2001 0 0 0 0 0 0 0, 32); (ipv6 0x2001 2 0 0 0 0 0 0, 48);
   (ipv6 0x2001 0x10 0 0 0 0 0 0, 28); (ipv6 0x2001 0x20 0 0 0 0 0 0, 28);
   (ipv6 0x2001 0x0db8 0 0 0 0 0 0, 32); (ipv6 0x2002 0 0 0 0 0 0 0, 16);
   (ipv6 0x3fff 0 0 0 0 0 0 0, 20); (ipv6 0xfc00 0 0 0 0 0 0 0, 7);
   (ipv6 0xfe80 0 0 0 0 0 0 0, 10); (ipv6 0xfec0 0 0 0 0 0 0 0, 10);
   (ipv6 0xff00 0 0 0 0 0 0 0, 8)]%N.

(** ** The policy *)

Inductive FetchAddressPolicyError : Set := AddressesEmpty | AddressForbidden.

Record FetchAddressPolicy : Set := mk_FetchAddressPolicy { fap_allow_loopback : bool }.

#[export] Instance FetchAddressPolicy_eq_dec : EqDecision FetchAddressPolicy.
Proof. solve_decision. Defined.

Definition public_network : FetchAddressPolicy := mk_FetchAddressPolicy false.
Definition loopback_addresses : FetchAddressPolicy := mk_FetchAddressPolicy true.

Definition allows_v4 (policy : FetchAddressPolicy) (address : N) : bool :=
  if is_loopback_v4 address then fap_allow_loopback policy
  else negb (existsb (λ entry, in_v4_network address entry.1 entry.2) IPV4_FORBIDDEN).

Definition allows_v6 (policy : FetchAddressPolicy) (address : N) : bool :=
  if is_loopback_v6 address then fap_allow_loopback policy
  else
    match to_ipv4_mapped address with
    | Some mapped => allows_v4 policy mapped
    | None => negb (existsb (λ entry, in_v6_network address entry.1 entry.2) IPV6_FORBIDDEN)
    end.

Definition address_allowed (policy : FetchAddressPolicy) (address : IpAddr) : bool :=
  match address with
  | V4 address => allows_v4 policy address
  | V6 address => allows_v6 policy address
  end.

(** Sorted addresses without duplicates. *)
Record ValidatedFetchAddresses : Set := mk_ValidatedFetchAddresses {
  vfa_addresses : list IpAddr
}.

Definition validate_addresses (policy : FetchAddressPolicy) (addresses : list IpAddr)
    : Result FetchAddressPolicyError ValidatedFetchAddresses :=
  let addresses := dedup (λ x y, bool_decide (x = y)) (stable_sort ip_leb addresses) in
  try? ensure (negb (is_empty addresses)) AddressesEmpty in
  try? ensure (negb (existsb (λ address, negb (address_allowed policy address)) addresses))
         AddressForbidden in
  Ok (mk_ValidatedFetchAddresses addresses).

Definition socket_addresses (addresses : ValidatedFetchAddresses) (port : N) : list SocketAddr :=
  (λ ip, mk_SocketAddr ip port) <$> vfa_addresses addresses.

(** [binary_search] in the sorted addresses finds exactly their members. *)
Definition contains_peer (addresses : ValidatedFetchAddresses) (peer : SocketAddr)
    (expected_port : N) : bool :=
  (sa_port peer =? expected_port)%N && bool_decide (sa_ip peer ∈ vfa_addresses addresses).

(** ** What the policy permits *)

(** The special-purpose IPv4 addresses, by their octets. *)
Definition special_v4 (a b c d : N) : Prop :=
  (a = 0 ∨ a = 10 ∨ a = 127 ∨ 224 <= a ∨
   a = 100 ∧ 64 <= b <= 127 ∨ a = 169 ∧ b = 254 ∨ a = 172 ∧ 16 <= b <= 31 ∨
   a = 192 ∧ (b = 0 ∧ (c = 0 ∨ c = 2) ∨ b = 31 ∧ c = 196 ∨ b = 52 ∧ c = 193 ∨ b = 88 ∧ c = 99 ∨
              b = 168 ∨ b = 175 ∧ c = 48) ∨
   a = 198 ∧ (18 <= b <= 19 ∨ b = 51 ∧ c = 100) ∨ a = 203 ∧ b = 0 ∧ c = 113)%N.

(** The special-purpose IPv6 addresses, by their groups; an IPv4 address mapped
    into IPv6 is as special as itself. *)
Definition special_v6 (a b c d e f g h : N) : Prop :=
  (a = 0 ∧ b = 0 ∧ c = 0 ∧ d = 0 ∧ e = 0 ∧
     (f = 0 ∨ f = 0xffff ∧ special_v4 (g / 256) (g mod 256) (h / 256) (h mod 256)) ∨
   a = 0x64 ∧ b = 0xff9b ∧ (c = 0 ∧ d = 0 ∧ e = 0 ∧ f = 0 ∨ c = 1) ∨
   a = 0x100 ∧ b = 0 ∧ c = 0 ∧ d = 0 ∨
   a = 0x2001 ∧ (b = 0 ∨ b = 2 ∧ c = 0 ∨ 0x10 <= b <= 0x2f ∨ b = 0xdb8) ∨
   a = 0x2002 ∨ a = 0x3fff ∧ b <= 0xfff ∨ 0xfc00 <= a <= 0xfdff ∨ 0xfe80 <= a <= 0xfeff ∨
   0xff00 <= a)%N.

(** Masking keeps the high bits. *)
Lemma masked width value prefix mask :
  (0 < prefix <= width)%N → (value < 2 ^ width)%N →
  checked_shl width (N.ones width) (width - prefix) = mask →
  N.land value (default 0%N mask) = (value / 2 ^ (width - prefix) * 2 ^ (width - prefix))%N.
Proof.
  intros Hp Hv <-. unfold checked_shl.
  replace (width - prefix <? width)%N with true by (symmetry; apply N.ltb_lt; lia). simpl.
  rewrite <- N.shiftr_div_pow2, <- N.shiftl_mul_pow2. apply N.bits_inj. intros i.
  rewrite !N.land_spec. destruct (N.lt_ge_cases i (width - prefix)) as [Hi|Hi].
  { rewrite !N.shiftl_spec_low by done. by rewrite andb_false_r. }
  rewrite !N.shiftl_spec_high' by done. rewrite N.shiftr_spec' .
  replace (i - (width - prefix) + (width - prefix))%N with i by lia.
  destruct (N.lt_ge_cases i width) as [Hw|Hw].
  - rewrite !N.ones_spec_low by lia. by rewrite andb_true_r.
  - rewrite (N.ones_spec_high width i) by done. rewrite !andb_false_r. symmetry.
    destruct (N.eq_dec value 0%N) as [->|Hne]; [apply N.bits_0|].
    apply N.bits_above_log2. apply N.log2_lt_pow2 in Hv; lia.
Qed.

Lemma in_network width value network prefix :
  (0 < prefix <= width)%N → (value < 2 ^ width)%N → (network < 2 ^ width)%N →
  (let mask := default 0%N (checked_shl width (N.ones width) (width - prefix)) in
   (N.land value mask =? N.land network mask)%N) =
  (value / 2 ^ (width - prefix) =? network / 2 ^ (width - prefix))%N.
Proof.
  intros Hp Hv Hn. simpl. rewrite !(masked width _ prefix) by done.
  assert (2 ^ (width - prefix) ≠ 0)%N as Hpow by by apply N.pow_nonzero.
  apply eq_true_iff_eq. rewrite !N.eqb_eq. by rewrite N.mul_cancel_r.
Qed.

Definition octet (n : N) : Prop := (n < 256)%N.
Definition group (n : N) : Prop := (n < 65536)%N.

Lemma v4_network a b c d network prefix :
  octet a → octet b → octet c → octet d → (network < 2 ^ 32)%N → (0 < prefix <= 32)%N →
  in_v4_network (ipv4 a b c d) network prefix =
    (ipv4 a b c d / 2 ^ (32 - prefix) =? network / 2 ^ (32 - prefix))%N.
Proof.
  intros Ha Hb Hc Hd Hn Hp. apply (in_network 32); [done| |done].
  unfold ipv4, octet in *. lia.
Qed.

(** The networks an address is in, by its octets. *)
Lemma v4_quotients a b c d :
  octet a → octet b → octet c → octet d →
  (ipv4 a b c d / 268435456 = a / 16 ∧ ipv4 a b c d / 16777216 = a ∧
   ipv4 a b c d / 4194304 = a * 4 + b / 64 ∧ ipv4 a b c d / 1048576 = a * 16 + b / 16 ∧
   ipv4 a b c d / 131072 = a * 128 + b / 2 ∧ ipv4 a b c d / 65536 = a * 256 + b ∧
   ipv4 a b c d / 256 = (a * 256 + b) * 256 + c)%N.
Proof. unfold octet, ipv4. intros. split_and!; lia. Qed.

Ltac split_cases :=
  repeat match goal with
  | H : _ ∨ _ |- _ => destruct H
  | H : _ ∧ _ |- _ => destruct H
  end.
Ltac find_case :=
  lazymatch goal with
  | |- _ ∨ _ => first [left; solve [lia] | right; find_case]
  | |- _ => solve [lia]
  end.

Lemma v4_forbidden a b c d :
  octet a → octet b → octet c → octet d →
  is_loopback_v4 (ipv4 a b c d)
    || existsb (λ entry, in_v4_network (ipv4 a b c d) entry.1 entry.2) IPV4_FORBIDDEN = true ↔
  special_v4 a b c d.
Proof.
  intros Ha Hb Hc Hd. unfold IPV4_FORBIDDEN, is_loopback_v4. cbn [existsb fst snd].
  rewrite !v4_network by (try done; by vm_compute).
  destruct (v4_quotients a b c d) as (H28 & H24 & H22 & H20 & H17 & H16 & H8); [done..|].
  generalize dependent (ipv4 a b c d). intros address H28 H24 H22 H20 H17 H16 H8.
  rewrite !orb_true_iff, !N.eqb_eq.
  repeat match goal with |- context [(2 ^ (32 - ?p))%N] =>
    let n := eval vm_compute in (2 ^ (32 - p))%N in change (2 ^ (32 - p))%N with n end.
  repeat match goal with |- context [(ipv4 ?x ?y ?z ?t / ?n)%N] =>
    let q := eval vm_compute in (ipv4 x y z t / n)%N in change (ipv4 x y z t / n)%N with q end.
  rewrite H28, H24, H22, H20, H17, H16, H8. unfold octet, special_v4 in *.
  clear H28 H24 H22 H20 H17 H16 H8. assert (a < 240 ∨ 240 <= a)%N as Hsplit by lia.
  split; intros Hcases; [clear Hsplit|]; split_cases; subst; try done;
    first [solve [exfalso; lia] | find_case].
Qed.

Lemma v6_network a b c d e f g h network prefix :
  group a → group b → group c → group d → group e → group f → group g → group h →
  (network < 2 ^ 128)%N → (0 < prefix <= 128)%N →
  in_v6_network (ipv6 a b c d e f g h) network prefix =
    (ipv6 a b c d e f g h / 2 ^ (128 - prefix) =? network / 2 ^ (128 - prefix))%N.
Proof.
  intros. apply (in_network 128); [done| |done].
  unfold ipv6, group in *. lia.
Qed.

Lemma v6_quotients a b c d e f g h :
  group a → group b → group c → group d → group e → group f → group g → group h →
  (ipv6 a b c d e f g h / 2 ^ 32 = ((((a * 65536 + b) * 65536 + c) * 65536 + d) * 65536 + e) * 65536 + f ∧
   ipv6 a b c d e f g h mod 2 ^ 32 = g * 65536 + h ∧
   ipv6 a b c d e f g h / 2 ^ 64 = ((a * 65536 + b) * 65536 + c) * 65536 + d ∧
   ipv6 a b c d e f g h / 2 ^ 80 = (a * 65536 + b) * 65536 + c ∧
   ipv6 a b c d e f g h / 2 ^ 96 = a * 65536 + b ∧
   ipv6 a b c d e f g h / 2 ^ 100 = a * 4096 + b / 16 ∧
   ipv6 a b c d e f g h / 2 ^ 108 = a * 16 + b / 4096 ∧
   ipv6 a b c d e f g h / 2 ^ 112 = a ∧ ipv6 a b c d e f g h / 2 ^ 118 = a / 64 ∧
   ipv6 a b c d e f g h / 2 ^ 120 = a / 256 ∧ ipv6 a b c d e f g h / 2 ^ 121 = a / 512)%N.
Proof. unfold group, ipv6. intros. split_and!; lia. Qed.

(** A mapped address is its IPv4 address. *)
Lemma mapped_octets g h :
  group g → group h →
  (g * 65536 + h)%N = ipv4 (g / 256) (g mod 256) (h / 256) (h mod 256) ∧
  octet (g / 256) ∧ octet (g mod 256) ∧ octet (h / 256) ∧ octet (h mod 256).
Proof. unfold group, octet, ipv4. intros. split_and!; lia. Qed.

Ltac compute_networks :=
  repeat match goal with |- context [(?b ^ (?w - ?p))%N] =>
    let n := eval vm_compute in (b ^ (w - p))%N in change (b ^ (w - p))%N with n end;
  repeat match goal with
  | |- context [(ipv4 ?x ?y ?z ?t / ?n)%N] =>
    let q := eval vm_compute in (ipv4 x y z t / n)%N in change (ipv4 x y z t / n)%N with q
  | |- context [(ipv6 ?a ?b ?c ?d ?e ?f ?g ?h / ?n)%N] =>
    let q := eval vm_compute in (ipv6 a b c d e f g h / n)%N in
    change (ipv6 a b c d e f g h / n)%N with q
  end.

Lemma digits x y x' y' :
  group y → group y' → (x * 65536 + y = x' * 65536 + y' ↔ x = x' ∧ y = y')%N.
Proof. unfold group. lia. Qed.

(** Being in a network, group by group. *)
Section networks.
Context (a b c d e f g h a' b' c' d' e' f' : N).
Context (Ha : group a) (Hb : group b) (Hc : group c) (Hd : group d) (He : group e) (Hf : group f).
Context (Hg : group g) (Hh : group h) (Ha' : group a') (Hb' : group b') (Hc' : group c').
Context (Hd' : group d') (He' : group e') (Hf' : group f').

Notation network := (ipv6 a' b' c' d' e' f' 0 0).

Lemma network_quotients prefix (P : Prop) :
  (0 < prefix <= 128)%N →
  (ipv6 a b c d e f g h / 2 ^ (128 - prefix) = network / 2 ^ (128 - prefix) ↔ P)%N →
  in_v6_network (ipv6 a b c d e f g h) network prefix = true ↔ P.
Proof.
  intros Hp <-. rewrite v6_network, N.eqb_eq by (try done; unfold ipv6, group in *; lia). done.
Qed.

Lemma all_quotients :
  let n := ipv6 a b c d e f g h in
  let m := network in
  (n / 2 ^ 32 = m / 2 ^ 32 ↔ a = a' ∧ b = b' ∧ c = c' ∧ d = d' ∧ e = e' ∧ f = f')%N ∧
  (n / 2 ^ 64 = m / 2 ^ 64 ↔ a = a' ∧ b = b' ∧ c = c' ∧ d = d')%N ∧
  (n / 2 ^ 80 = m / 2 ^ 80 ↔ a = a' ∧ b = b' ∧ c = c')%N ∧
  (n / 2 ^ 96 = m / 2 ^ 96 ↔ a = a' ∧ b = b')%N ∧
  (n / 2 ^ 100 = m / 2 ^ 100 ↔ a = a' ∧ b / 16 = b' / 16)%N ∧
  (n / 2 ^ 108 = m / 2 ^ 108 ↔ a = a' ∧ b / 4096 = b' / 4096)%N ∧
  (n / 2 ^ 112 = m / 2 ^ 112 ↔ a = a')%N ∧
  (n / 2 ^ 118 = m / 2 ^ 118 ↔ a / 64 = a' / 64)%N ∧
  (n / 2 ^ 120 = m / 2 ^ 120 ↔ a / 256 = a' / 256)%N ∧
  (n / 2 ^ 121 = m / 2 ^ 121 ↔ a / 512 = a' / 512)%N.
Proof.
  assert (group 0) as H0 by done. intros n m. subst n m.
  destruct (v6_quotients a b c d e f g h) as (-> & _ & -> & -> & -> & -> & -> & -> & -> & -> & ->);
    [done..|].
  destruct (v6_quotients a' b' c' d' e' f' 0 0)
    as (-> & _ & -> & -> & -> & -> & -> & -> & -> & -> & ->); [done..|].
  rewrite !digits by done. split_and!; try (clear; tauto); unfold group in *; lia.
Qed.
End networks.

Lemma v6_forbidden a b c d e f g h :
  group a → group b → group c → group d → group e → group f → group g → group h →
  existsb (λ entry, in_v6_network (ipv6 a b c d e f g h) entry.1 entry.2) IPV6_FORBIDDEN = true ↔
  (a = 0 ∧ b = 0 ∧ c = 0 ∧ d = 0 ∧ e = 0 ∧ f = 0 ∨
   a = 0x64 ∧ b = 0xff9b ∧ (c = 0 ∧ d = 0 ∧ e = 0 ∧ f = 0 ∨ c = 1) ∨
   a = 0x100 ∧ b = 0 ∧ c = 0 ∧ d = 0 ∨
   a = 0x2001 ∧ (b = 0 ∨ b = 2 ∧ c = 0 ∨ 0x10 <= b <= 0x2f ∨ b = 0xdb8) ∨
   a = 0x2002 ∨ a = 0x3fff ∧ b <= 0xfff ∨ 0xfc00 <= a <= 0xfdff ∨ 0xfe80 <= a <= 0xfeff ∨
   0xff00 <= a)%N.
Proof.
  intros Ha Hb Hc Hd He Hf Hg Hh. unfold IPV6_FORBIDDEN. cbn [existsb fst snd].
  rewrite !orb_true_iff.
  repeat match goal with
  | |- context [in_v6_network ?n (ipv6 ?a' ?b' ?c' ?d' ?e' ?f' 0 0) ?p = true] =>
      destruct (all_quotients a b c d e f g h a' b' c' d' e' f')
        as (H32 & H64 & H80 & H96 & H100 & H108 & H112 & H118 & H120 & H121); [done..|];
      let k := eval vm_compute in (128 - p)%N in
      let Hin := fresh in
      eassert (in_v6_network n (ipv6 a' b' c' d' e' f' 0 0) p = true ↔ _) as Hin;
        [apply network_quotients; [done..|change (128 - p)%N with k;
           first [exact H32|exact H64|exact H80|exact H96|exact H100
                 |exact H108|exact H112|exact H118|exact H120|exact H121]]|];
      rewrite Hin; clear Hin;
      clear H32 H64 H80 H96 H100 H108 H112 H118 H120 H121
  end.
  assert (b / 16 = 16 / 16 ↔ 0x10 <= b <= 0x1f)%N as -> by (clear; lia).
  assert (b / 16 = 32 / 16 ↔ 0x20 <= b <= 0x2f)%N as -> by (clear; lia).
  assert (b / 4096 = 0 / 4096 ↔ b <= 0xfff)%N as -> by (clear; lia).
  assert (a / 512 = 64512 / 512 ↔ 0xfc00 <= a <= 0xfdff)%N as -> by (clear; lia).
  assert (a / 64 = 65152 / 64 ↔ 0xfe80 <= a <= 0xfebf)%N as -> by (clear; lia).
  assert (a / 64 = 65216 / 64 ↔ 0xfec0 <= a <= 0xfeff)%N as -> by (clear; lia).
  assert (a / 256 = 65280 / 256 ↔ 0xff00 <= a)%N as -> by (unfold group in Ha; clear -Ha; lia).
  clear. assert (b <= 0x1f ∨ 0x20 <= b)%N as Hb by lia. assert (a <= 0xfebf ∨ 0xfec0 <= a)%N as Ha by lia.
  split; intros Hcases; [clear Ha Hb|]; split_cases; subst; try done; first [solve [exfalso; lia] | find_case].
Qed.

(** A version 6 address is refused by the public policy exactly when it is
    special. *)
Lemma public_v6 a b c d e f g h :
  group a → group b → group c → group d → group e → group f → group g → group h →
  allows_v6 public_network (ipv6 a b c d e f g h) = false ↔ special_v6 a b c d e f g h.
Proof.
  intros Ha Hb Hc Hd He Hf Hg Hh. unfold allows_v6, is_loopback_v6, to_ipv4_mapped.
  destruct (v6_quotients a b c d e f g h) as (H32 & Hm & _); [done..|].
  destruct (mapped_octets g h) as (Hgh & Hg1 & Hg2 & Hh1 & Hh2); [done..|].
  pose proof (v4_forbidden _ _ _ _ Hg1 Hg2 Hh1 Hh2) as Hv4.
  pose proof (v6_forbidden a b c d e f g h Ha Hb Hc Hd He Hf Hg Hh) as Hv6.
  rewrite Hm, H32, Hgh. unfold allows_v4. simpl fap_allow_loopback.
  destruct (N.eqb_spec (ipv6 a b c d e f g h) 1) as [Hone|Hone].
  { split; [intros _; left|done]. unfold ipv6 in Hone.
    assert (a = 0 ∧ b = 0 ∧ c = 0 ∧ d = 0 ∧ e = 0 ∧ f = 0)%N as (-> & -> & -> & -> & -> & ->)
      by (clear -Hone; lia). auto 10. }
  destruct (N.eqb_spec (((((a * 65536 + b) * 65536 + c) * 65536 + d) * 65536 + e) * 65536 + f)
    65535) as [Hmapped|Hmapped].
  - assert (a = 0 ∧ b = 0 ∧ c = 0 ∧ d = 0 ∧ e = 0 ∧ f = 65535)%N as (-> & -> & -> & -> & -> & ->)
      by (unfold group in *; clear -Hmapped Ha Hb Hc Hd He Hf; lia).
    trans (special_v4 (g / 256) (g mod 256) (h / 256) (h mod 256)).
    + rewrite <- Hv4. destruct (is_loopback_v4 _); [done|]. simpl. by rewrite negb_false_iff.
    + unfold special_v6. split; [intros Hs; left; split_and!; auto|]. intros Hs. clear -Hs. split_cases; (done || lia).
  - rewrite negb_false_iff, Hv6. unfold special_v6.
    split; intros Hs; [split_cases; auto 10|]. destruct Hs as [Hs|Hs]; [|by right].
    left. destruct Hs as (-> & -> & -> & -> & -> & [->|[-> _]]); done.
Qed.

(** ** The claim *)

Definition well_formed_address (address : IpAddr) : Prop :=
  match address with V4 n => (n < 2 ^ 32)%N | V6 n => (n < 2 ^ 128)%N end.

(** An address that belongs to a special-purpose range. *)
Definition special_address (address : IpAddr) : Prop :=
  match address with
  | V4 n => ∃ a b c d, octet a ∧ octet b ∧ octet c ∧ octet d ∧ n = ipv4 a b c d ∧ special_v4 a b c d
  | V6 n => ∃ a b c d e f g h,
      group a ∧ group b ∧ group c ∧ group d ∧ group e ∧ group f ∧ group g ∧ group h ∧
      n = ipv6 a b c d e f g h ∧ special_v6 a b c d e f g h
  end.

Lemma v4_octets n :
  (n < 2 ^ 32)%N →
  ∃ a b c d, octet a ∧ octet b ∧ octet c ∧ octet d ∧ n = ipv4 a b c d.
Proof.
  intros Hn. exists (n / 16777216)%N, (n / 65536 mod 256)%N, (n / 256 mod 256)%N, (n mod 256)%N.
  unfold octet, ipv4. split_and!; lia.
Qed.

Lemma v6_groups n :
  (n < 2 ^ 128)%N →
  ∃ a b c d e f g h,
    group a ∧ group b ∧ group c ∧ group d ∧ group e ∧ group f ∧ group g ∧ group h ∧
    n = ipv6 a b c d e f g h.
Proof.
  assert (∀ k m : N, (k < m * 65536 → ∃ q r, group r ∧ q < m ∧ k = q * 65536 + r)%N) as Hdigit.
  { intros k m Hk. exists (k / 65536)%N, (k mod 65536)%N. unfold group. split_and!; lia. }
  intros Hn.
  destruct (Hdigit n (2 ^ 112)%N) as (n1 & h & Hh & Hn1 & ->); [done|].
  destruct (Hdigit n1 (2 ^ 96)%N) as (n2 & g & Hg & Hn2 & ->); [done|].
  destruct (Hdigit n2 (2 ^ 80)%N) as (n3 & f & Hf & Hn3 & ->); [done|].
  destruct (Hdigit n3 (2 ^ 64)%N) as (n4 & e & He & Hn4 & ->); [done|].
  destruct (Hdigit n4 (2 ^ 48)%N) as (n5 & d & Hd & Hn5 & ->); [done|].
  destruct (Hdigit n5 (2 ^ 32)%N) as (n6 & c & Hc & Hn6 & ->); [done|].
  destruct (Hdigit n6 (2 ^ 16)%N) as (a & b & Hb & Ha & ->); [done|].
  by exists a, b, c, d, e, f, g, h.
Qed.

(** The public policy refuses exactly the special addresses. *)
Lemma public_allowed address :
  well_formed_address address →
  address_allowed public_network address = false ↔ special_address address.
Proof.
  destruct address as [n|n]; intros Hn; simpl in *.
  - destruct (v4_octets n Hn) as (a & b & c & d & Ha & Hb & Hc & Hd & Heq).
    unfold allows_v4. simpl. trans (special_v4 a b c d).
    + rewrite <- v4_forbidden, <- Heq by done. destruct (is_loopback_v4 n); [done|].
      simpl. apply negb_false_iff.
    + split; [intros Hs; by exists a, b, c, d|].
      intros (a' & b' & c' & d' & Ha' & Hb' & Hc' & Hd' & Heq' & Hs).
      assert (a' = a ∧ b' = b ∧ c' = c) as (-> & -> & ->); [|done].
      rewrite Heq' in Heq. unfold octet, ipv4 in *. clear -Heq Ha Hb Hc Hd Ha' Hb' Hc' Hd'. lia.
  - destruct (v6_groups n Hn) as (a & b & c & d & e & f & g & h & Ha & Hb & Hc & Hd & He & Hf & Hg
      & Hh & Heq).
    split.
    + rewrite Heq, public_v6 by done. intros Hs. exists a, b, c, d, e, f, g, h. by split_and!.
    + intros (a' & b' & c' & d' & e' & f' & g' & h' & Ha' & Hb' & Hc' & Hd' & He' & Hf' & Hg' & Hh'
        & Heq' & Hs). rewrite Heq'. by apply public_v6.
Qed.

(** A validated answer: its addresses in order, all of them allowed. *)
Lemma validate_addresses_cases policy addresses :
  match validate_addresses policy addresses with
  | Ok validated =>
      addresses ≠ [] ∧ (∀ a, a ∈ vfa_addresses validated ↔ a ∈ addresses) ∧
      Sorted ip_leb (vfa_addresses validated) ∧
      ∀ a, a ∈ addresses → address_allowed policy a = true
  | Err AddressesEmpty => addresses = []
  | Err AddressForbidden => ∃ a, a ∈ addresses ∧ address_allowed policy a = false
  end.
Proof.
  unfold validate_addresses.
  set (sorted := stable_sort ip_leb addresses). set (l := dedup _ sorted).
  assert (∀ a, a ∈ l ↔ a ∈ addresses) as Hin.
  { intros a. unfold l. rewrite elem_of_dedup by by intros x y ?%bool_decide_eq_true.
    apply elem_of_stable_sort. }
  assert (Sorted ip_leb l) as Hsorted.
  { assert (Sorted ip_leb sorted) as Hs.
    { apply stable_sort_sorted. intros [x|x] [y|y]; simpl; lia. }
    unfold l. destruct sorted as [|x s]; [constructor|].
    apply dedup_from_sorted; [by intros a b ?%bool_decide_eq_true|done]. }
  unfold result_bind, ensure. destruct (is_empty l) eqn:Hempty; simpl.
  { destruct l; [|done]. destruct addresses as [|a ?]; [done|]. exfalso.
    apply (not_elem_of_nil a), Hin. by left. }
  set (bad := λ address, negb (address_allowed policy address)).
  destruct (existsb bad l) eqn:Hbad; simpl.
  - apply existsb_exists in Hbad as (a & Ha%list_elem_of_In%Hin & Hbad%negb_true_iff). by exists a.
  - split_and!; [|done..|].
    { intros ->. destruct l as [|a l']; [done|]. apply (not_elem_of_nil a), Hin. by left. }
    intros a Ha. destruct (address_allowed policy a) eqn:Hallowed; [done|].
    assert (existsb bad l = true); [|congruence].
    apply existsb_exists. exists a. split; [by apply list_elem_of_In, Hin|].
    unfold bad. by rewrite Hallowed.
Qed.

(** C25: a DNS answer passes the public policy exactly when it is not empty and
    none of its addresses is special: loopback, private, link-local, shared,
    documentation, benchmarking, multicast, reserved, or an IPv6 address that
    translates or embeds such addresses.  The validated addresses are those of
    the answer, in order; one special address rejects the whole answer. *)
Theorem fetch_addresses_public addresses :
  Forall well_formed_address addresses →
  match validate_addresses public_network addresses with
  | Ok validated =>
      addresses ≠ [] ∧ (∀ a, a ∈ vfa_addresses validated ↔ a ∈ addresses) ∧
      Sorted ip_leb (vfa_addresses validated) ∧ Forall (λ a, ¬ special_address a) addresses
  | Err AddressesEmpty => addresses = []
  | Err AddressForbidden => ∃ a, a ∈ addresses ∧ special_address a
  end.
Proof.
  rewrite Forall_forall. intros Hwf. pose proof (validate_addresses_cases public_network addresses) as H.
  destruct (validate_addresses _ _) as [validated|[]]; [|done|].
  - destruct H as (Hne & Hin & Hs & Hallowed). split_and!; [done..|]. rewrite Forall_forall.
    intros a Ha Hspecial%public_allowed; [|by apply Hwf]. by rewrite (Hallowed a Ha) in Hspecial.
  - destruct H as (a & Ha & Hf%public_allowed); [by exists a|by apply Hwf].
Qed.

Lemma fetch_addresses_public_witness :
  Forall well_formed_address [V4 (ipv4 8 8 8 8); V6 (ipv6 0 0 0 0 0 0xffff 0x7f00 1)] ∧
  validate_addresses public_network [V4 (ipv4 8 8 8 8)] =
    Ok (mk_ValidatedFetchAddresses [V4 (ipv4 8 8 8 8)]) ∧
  ∃ a, a ∈ [V4 (ipv4 8 8 8 8); V6 (ipv6 0 0 0 0 0 0xffff 0x7f00 1)] ∧ special_address a.
Proof.
  assert (Forall well_formed_address [V4 (ipv4 8 8 8 8); V6 (ipv6 0 0 0 0 0 0xffff 0x7f00 1)])
    as Hwf by by repeat constructor.
  split; [exact Hwf|split; [by vm_compute|]].
  exact (fetch_addresses_public [V4 (ipv4 8 8 8 8); V6 (ipv6 0 0 0 0 0 0xffff 0x7f00 1)] Hwf).
Defined.
