(* ===== verification/FetchUrl.v ===== *)
(** * Web fetch: the URL policy

    [crates/tea-coding-tools/src/web_fetch/url_policy.rs]: which URLs a fetch may
    request.  The [url] crate is a class; what the policy relies on of it is
    [UrlLaws].  The text of addresses is that of the standard library. *)

From S2P Require Import Prelude Utf8 Decimal FetchAddress.
Local Open Scope tea_scope.

(** ** The text of addresses *)

(** A parser takes the bytes it reads off the front. *)
Definition Reader (A : Type) : Type := list N → option (A * list N).

Definition digit_of (radix b : N) : option N :=
  let value :=
    if is_ascii_digit b then Some (b - 48)%N
    else if is_ascii_lowercase b then Some (b - 87)%N
    else if is_ascii_uppercase b then Some (b - 55)%N
    else None in
  match value with
  | Some value => if (value <? radix)%N then Some value else None
  | None => None
  end.

Fixpoint digit_run (radix : N) (bs : list N) : list N * list N :=
  match bs with
  | b :: rest =>
      match digit_of radix b with
      | Some digit => let '(digits, rest) := digit_run radix rest in (digit :: digits, rest)
      | None => ([], bs)
      end
  | [] => ([], [])
  end.

Definition digits_value (radix : N) (digits : list N) : N :=
  foldl (λ value digit, (value * radix + digit)%N) 0%N digits.

Definition read_number (radix : N) (max_digits : nat) (max_value : N) (zero_prefix : bool)
    : Reader N :=
  λ bs,
    let '(digits, rest) := digit_run radix bs in
    let leading_zero := match digits with d :: _ => (d =? 0)%N | [] => false end in
    if negb (is_empty digits) && (length digits <=? max_digits)%nat
       && (digits_value radix digits <=? max_value)%N
       && (zero_prefix || (length digits =? 1)%nat || negb leading_zero)
    then Some (digits_value radix digits, rest) else None.

(** [read_separator]: the separator comes before every item but the first. *)
Definition read_separated {A} (separator : N) (index : nat) (reader : Reader A) : Reader A :=
  λ bs,
    match index, bs with
    | O, _ => reader bs
    | S _, b :: rest => if (b =? separator)%N then reader rest else None
    | S _, [] => None
    end.

Fixpoint read_octets (remaining index : nat) : Reader (list N) :=
  λ bs,
    match remaining with
    | O => Some ([], bs)
    | S remaining =>
        match read_separated 46 index (read_number 10 3 255 false) bs with
        | Some (octet, rest) =>
            match read_octets remaining (S index) rest with
            | Some (octets, rest) => Some (octet :: octets, rest)
            | None => None
            end
        | None => None
        end
    end.

Definition read_ipv4 : Reader N := λ bs,
  match read_octets 4 0 bs with
  | Some (octets, rest) => Some (digits_value 256 octets, rest)
  | None => None
  end.

(** Up to [remaining] groups; an IPv4 address stands for the last two. *)
Fixpoint read_groups (remaining index : nat) (bs : list N) : list N * bool * list N :=
  match remaining with
  | O => ([], false, bs)
  | S remaining =>
      match (if (0 <? remaining)%nat then read_separated 58 index read_ipv4 bs else None) with
      | Some (address, rest) => ([(address / 65536)%N; (address mod 65536)%N], true, rest)
      | None =>
          match read_separated 58 index (read_number 16 4 65535 true) bs with
          | Some (group, rest) =>
              let '(groups, v4, rest) := read_groups remaining (S index) rest in
              (group :: groups, v4, rest)
          | None => ([], false, bs)
          end
      end
  end.

Definition read_ipv6 : Reader N := λ bs,
  let '(head, v4, rest) := read_groups 8 0 bs in
  if (length head =? 8)%nat then Some (digits_value 65536 head, rest)
  else if v4 then None
  else
    match rest with
    | 58%N :: 58%N :: rest =>
        let '(tail, _, rest) := read_groups (7 - length head) 0 rest in
        Some (digits_value 65536 (head ++ replicate (8 - length head - length tail) 0%N ++ tail),
              rest)
    | _ => None
    end.

(** [str::parse::<IpAddr>]. *)
Definition parse_ip (text : string) : option IpAddr :=
  let bs := bytes text in
  match
    match read_ipv4 bs with
    | Some (address, rest) => Some (V4 address, rest)
    | None => match read_ipv6 bs with
              | Some (address, rest) => Some (V6 address, rest)
              | None => None
              end
    end
  with
  | Some (address, []) => Some address
  | _ => None
  end.

(** [Display] of [Ipv4Addr]. *)
Definition ipv4_text (address : N) : list N :=
  decimal (address / 16777216) ++ 46%N :: decimal (address / 65536 mod 256)
    ++ 46%N :: decimal (address / 256 mod 256) ++ 46%N :: decimal (address mod 256).

Definition hex_digit (d : N) : N := if (d <? 10)%N then (48 + d)%N else (87 + d)%N.
Definition hex (group : N) : list N :=
  (if (group <? 4096)%N then [] else [hex_digit (group / 4096)])
    ++ (if (group <? 256)%N then [] else [hex_digit (group / 256 mod 16)])
    ++ (if (group <? 16)%N then [] else [hex_digit (group / 16 mod 16)])
    ++ [hex_digit (group mod 16)].

Definition ipv6_groups (address : N) : list N :=
  (λ i, (address / 65536 ^ i mod 65536)%N) <$> [7; 6; 5; 4; 3; 2; 1; 0]%N.

(** The first longest run of zero groups, as its start and length. *)
Fixpoint longest_zeroes (groups : list N) (index : nat) (current longest : nat * nat)
    : nat * nat :=
  match groups with
  | [] => longest
  | group :: groups =>
      if (group =? 0)%N then
        let current := (if (current.2 =? 0)%nat then index else current.1, S current.2) in
        longest_zeroes groups (S index) current
          (if (longest.2 <? current.2)%nat then current else longest)
      else longest_zeroes groups (S index) (0, 0) longest
  end.

Fixpoint hex_groups (groups : list N) : list N :=
  match groups with
  | [] => []
  | [group] => hex group
  | group :: groups => hex group ++ 58%N :: hex_groups groups
  end.

(** [Display] of [Ipv6Addr]. *)
Definition ipv6_text (address : N) : list N :=
  match to_ipv4_mapped address with
  | Some mapped => bytes "::ffff:" ++ ipv4_text mapped
  | None =>
      let groups := ipv6_groups address in
      let '(start, count) := longest_zeroes groups 0 (0, 0) (0, 0) in
      if (1 <? count)%nat then
        hex_groups (take start groups) ++ bytes "::" ++ hex_groups (drop (start + count) groups)
      else hex_groups groups
  end.

(** ** The [url] crate *)

Inductive Host : Set :=
| HostDomain (domain : string)
| HostIpv4 (address : N)
| HostIpv6 (address : N).

Class UrlCrate : Type := {
  Url : Type;
  url_parse : string → option Url;
  url_join : Url → string → option Url;
  url_text : Url → string;
  url_scheme : Url → string;
  url_username : Url → string;
  url_password : Url → option string;
  url_host : Url → option Host;
  url_port : Url → option N;
  url_port_or_known_default : Url → option N;
  url_path : Url → string;
  url_cannot_be_a_base : Url → bool;
  (** [set_fragment(None)], [set_path], [set_host(Some(..))], [set_port(None)] *)
  url_without_fragment : Url → Url;
  url_with_path : Url → string → Url;
  url_with_host : Url → string → option Url;
  url_without_port : Url → option Url
}.

(** ** The policy *)

Definition MAX_FETCH_URL_BYTES : N := 2048.

Inductive FetchUrlPolicyError : Set :=
| FetchInvalidUrl | ForbiddenScheme | ForbiddenPort.

Record FetchUrlPolicy : Set := mk_FetchUrlPolicy { fup_allow_loopback_http : bool }.

#[export] Instance FetchUrlPolicy_eq_dec : EqDecision FetchUrlPolicy.
Proof. solve_decision. Defined.

Definition production_urls : FetchUrlPolicy := mk_FetchUrlPolicy false.
Definition loopback_urls : FetchUrlPolicy := mk_FetchUrlPolicy true.

Inductive FetchUrlScheme : Set := SchemeHttp | SchemeHttps.

#[export] Instance FetchUrlScheme_eq_dec : EqDecision FetchUrlScheme.
Proof. solve_decision. Defined.

(** [str::to_ascii_lowercase], [str::eq_ignore_ascii_case]. *)
Definition lowercase (s : string) : string := string_of_bytes (to_ascii_lowercase <$> bytes s).
Definition eq_ignore_ascii_case (a b : string) : bool := bool_decide (lowercase a = lowercase b).

(** [strip_suffix('.').unwrap_or(domain)]. *)
Definition without_final_dot (domain : string) : string :=
  match rev (bytes domain) with
  | 46%N :: rest => string_of_bytes (rev rest)
  | _ => domain
  end.

Definition domain_label (label : list N) : bool :=
  negb (is_empty label) && (N.of_nat (length label) <=? 63)%N
  && negb (bool_decide (head label = Some 45%N)) && negb (bool_decide (last label = Some 45%N))
  && forallb (λ b, is_ascii_alphanumeric b || (b =? 45)%N) label.

Definition fetch_domain_valid (domain : string) : bool :=
  negb (bool_decide (domain = ""%string)) && (str_len domain <=? 253)%N
  && forallb (λ b, (b <? 128)%N) (bytes domain)
  && forallb domain_label (split_bytes 46 (bytes domain)).

Definition is_loopback (address : IpAddr) : bool :=
  match address with V4 n => is_loopback_v4 n | V6 n => is_loopback_v6 n end.

Definition is_loopback_host (host : string) : bool :=
  eq_ignore_ascii_case host "localhost"
  || match parse_ip host with Some address => is_loopback address | None => false end.

Definition is_dangerous_port (port : N) : bool :=
  existsb (λ range, (range.1 <=? port)%N && (port <=? range.2)%N)
    [(1, 1); (7, 7); (9, 9); (11, 11); (13, 13); (15, 15); (17, 17); (19, 23); (25, 25); (37, 37);
     (42, 43); (53, 53); (69, 69); (77, 77); (79, 79); (87, 87); (95, 95); (101, 104); (109, 111);
     (113, 113); (115, 115); (117, 117); (119, 119); (123, 123); (135, 135); (137, 139);
     (143, 143); (161, 161); (179, 179); (389, 389); (427, 427); (465, 465); (512, 515);
     (526, 526); (530, 532); (540, 540); (548, 548); (554, 554); (556, 556); (563, 563);
     (587, 587); (601, 601); (636, 636); (989, 990); (993, 993); (995, 995); (1719, 1720);
     (1723, 1723); (2049, 2049); (3659, 3659); (4045, 4045); (5060, 5061); (6000, 6000);
     (6566, 6566); (6665, 6669); (6697, 6697); (10080, 10080)]%N.

Section policy.
Context `{UrlCrate}.

Record ValidatedFetchUrl : Type := mk_ValidatedFetchUrl {
  vfu_canonical : string;
  vfu_parsed : Url;
  vfu_host : string;
  vfu_port : N;
  vfu_scheme : FetchUrlScheme
}.

Definition is_https (url : ValidatedFetchUrl) : bool :=
  bool_decide (vfu_scheme url = SchemeHttps).

(** The host, and the URL with its domain set anew. *)
Definition canonical_host (parsed : Url) : Result FetchUrlPolicyError (string * Url) :=
  let? host := ok_or (url_host parsed) FetchInvalidUrl in
  match host with
  | HostDomain domain =>
      let domain := without_final_dot domain in
      try? ensure (fetch_domain_valid domain) FetchInvalidUrl in
      let? parsed := ok_or (url_with_host parsed domain) FetchInvalidUrl in
      Ok (lowercase domain, parsed)
  | HostIpv4 address => Ok (string_of_bytes (ipv4_text address), parsed)
  | HostIpv6 address => Ok (string_of_bytes (ipv6_text address), parsed)
  end.

(** [match parsed.scheme()]. *)
Definition check_scheme (policy : FetchUrlPolicy) (parsed : Url) (loopback_host : bool)
    : Result FetchUrlPolicyError Url :=
  if bool_decide (url_scheme parsed = "https"%string) then
    match url_port parsed with
    | Some port =>
        if (port =? 443)%N then ok_or (url_without_port parsed) FetchInvalidUrl
        else Err ForbiddenPort
    | None => Ok parsed
    end
  else if bool_decide (url_scheme parsed = "http"%string)
          && fup_allow_loopback_http policy && loopback_host then
    try? ensure (match url_port parsed with
                 | Some port => negb (is_dangerous_port port)
                 | None => true
                 end) ForbiddenPort in
    Ok parsed
  else Err ForbiddenScheme.

Definition validate_url (policy : FetchUrlPolicy) (value : string)
    : Result FetchUrlPolicyError ValidatedFetchUrl :=
  try? ensure (negb (bool_decide (value = ""%string)) && (str_len value <=? MAX_FETCH_URL_BYTES)%N
               && negb (existsb (λ c, is_control c || is_whitespace c) (chars value)))
         FetchInvalidUrl in
  let? parsed := ok_or (url_parse value) FetchInvalidUrl in
  try? ensure (bool_decide (url_username parsed = ""%string)
               && bool_decide (url_password parsed = None)
               && bool_decide (is_Some (url_host parsed))) FetchInvalidUrl in
  let parsed := url_without_fragment parsed in
  let parsed :=
    if bool_decide (url_path parsed = ""%string) then url_with_path parsed "/" else parsed in
  let? canonical := canonical_host parsed in
  let '(host, parsed) := canonical in
  let? parsed := check_scheme policy parsed (is_loopback_host host) in
  let? port := ok_or (url_port_or_known_default parsed) FetchInvalidUrl in
  let scheme :=
    if bool_decide (url_scheme parsed = "https"%string) then SchemeHttps else SchemeHttp in
  Ok (mk_ValidatedFetchUrl (url_text parsed) parsed host port scheme).

Definition resolve_redirect (url : ValidatedFetchUrl) (location : string) (policy : FetchUrlPolicy)
    : Result FetchUrlPolicyError ValidatedFetchUrl :=
  try? ensure (negb (bool_decide (location = ""%string))
               && (str_len location <=? MAX_FETCH_URL_BYTES)%N
               && negb (has_control (bytes location))) FetchInvalidUrl in
  let? resolved := ok_or (url_join (vfu_parsed url) location) FetchInvalidUrl in
  validate_url policy (url_text resolved).

End policy.

(** ** What the policy relies on *)

(** The name a host is resolved by. *)
Definition host_name (host : Host) : string :=
  match host with
  | HostDomain domain => domain
  | HostIpv4 address => string_of_bytes (ipv4_text address)
  | HostIpv6 address => string_of_bytes (ipv6_text address)
  end.

Section laws.
Context `{UrlCrate}.

Definition url_user_info (url : Url) : string * string * option string :=
  (url_scheme url, url_username url, url_password url).

(** The documented behaviour of the accessors and setters of the crate: the
    default ports, and that a setter changes its own component. *)
Class UrlLaws : Prop := {
  url_port_explicit url port :
    url_port url = Some port → url_port_or_known_default url = Some port;
  url_port_https url :
    url_port url = None → url_scheme url = "https"%string →
    url_port_or_known_default url = Some 443%N;
  url_port_http url :
    url_port url = None → url_scheme url = "http"%string →
    url_port_or_known_default url = Some 80%N;
  without_fragment_keeps url :
    url_user_info (url_without_fragment url) = url_user_info url;
  with_path_keeps url path : url_user_info (url_with_path url path) = url_user_info url;
  with_host_keeps url host url' :
    url_with_host url host = Some url' →
    url_user_info url' = url_user_info url ∧ url_port url' = url_port url;
  with_host_sets url domain host url' :
    url_host url = Some (HostDomain domain) → host = without_final_dot domain →
    fetch_domain_valid host = true → url_scheme url = "http"%string ∨ url_scheme url = "https"%string →
    url_with_host url host = Some url' → url_host url' = Some (HostDomain (lowercase host));
  without_port_keeps url url' :
    url_without_port url = Some url' →
    url_user_info url' = url_user_info url ∧ url_host url' = url_host url ∧ url_port url' = None
}.

(** The URLs of a policy: [https] on its own port, or with the loopback policy
    also [http] to a loopback host on a port that is not dangerous; without
    credentials, and resolved by the name of their own host. *)
Definition url_accepted (policy : FetchUrlPolicy) (url : ValidatedFetchUrl) : Prop :=
  vfu_canonical url = url_text (vfu_parsed url) ∧
  url_username (vfu_parsed url) = ""%string ∧ url_password (vfu_parsed url) = None ∧
  (∃ host, url_host (vfu_parsed url) = Some host ∧ host_name host = vfu_host url) ∧
  url_port_or_known_default (vfu_parsed url) = Some (vfu_port url) ∧
  (vfu_scheme url = SchemeHttps ∧ url_scheme (vfu_parsed url) = "https"%string ∧
     vfu_port url = 443%N ∨
   fup_allow_loopback_http policy = true ∧ vfu_scheme url = SchemeHttp ∧
     url_scheme (vfu_parsed url) = "http"%string ∧ is_loopback_host (vfu_host url) = true ∧
     is_dangerous_port (vfu_port url) = false).

Context `{UrlLaws}.

Lemma canonical_host_ok parsed host parsed' :
  canonical_host parsed = Ok (host, parsed') →
  url_user_info parsed' = url_user_info parsed ∧ url_port parsed' = url_port parsed ∧
  (url_scheme parsed = "http"%string ∨ url_scheme parsed = "https"%string →
   ∃ h, url_host parsed' = Some h ∧ host_name h = host).
Proof.
  unfold canonical_host. rewrite result_bind_ok. intros (h & Hhost%ok_or_ok & Hh).
  destruct h as [domain|address|address]; simpl in Hh.
  - apply result_bind_ok in Hh as (? & Hvalid%ensure_ok & Hh).
    apply result_bind_ok in Hh as (url' & Hwith%ok_or_ok & [= <- <-]).
    destruct (with_host_keeps _ _ _ Hwith) as [Hinfo Hport]. split_and!; [done..|].
    intros Hs. eexists. split; [by eapply with_host_sets|done].
  - injection Hh as <- <-. split_and!; [done..|]. intros _. by eexists.
  - injection Hh as <- <-. split_and!; [done..|]. intros _. by eexists.
Qed.

Lemma check_scheme_ok policy parsed loopback parsed' :
  check_scheme policy parsed loopback = Ok parsed' →
  url_user_info parsed' = url_user_info parsed ∧ url_host parsed' = url_host parsed ∧
  (url_scheme parsed = "https"%string ∧ url_port_or_known_default parsed' = Some 443%N ∨
   url_scheme parsed = "http"%string ∧ fup_allow_loopback_http policy = true ∧ loopback = true ∧
   ∃ port, url_port_or_known_default parsed' = Some port ∧ is_dangerous_port port = false).
Proof.
  unfold check_scheme. case_bool_decide as Hs.
  { destruct (url_port parsed) as [port|] eqn:Hport.
    - destruct (N.eqb_spec port 443) as [->|]; [|done]. intros Hw%ok_or_ok.
      destruct (without_port_keeps _ _ Hw) as (Hinfo & Hhost & Hnone). split_and!; [done..|].
      left. split; [done|]. apply url_port_https; [done|]. unfold url_user_info in Hinfo. congruence.
    - intros [= <-]. split_and!; [done..|]. left. split; [done|]. by apply url_port_https. }
  destruct (_ && _ && _) eqn:Hc; [|done]. bool_prop.
  rewrite result_bind_ok. intros (? & Hp%ensure_ok & [= <-]). split_and!; [done..|].
  right. split_and!; [done..|]. destruct (url_port parsed) as [port|] eqn:Hport.
  - exists port. split; [by apply url_port_explicit|by apply negb_true_iff].
  - exists 80%N. split; [by apply url_port_http|done].
Qed.

Lemma validate_url_ok policy value url :
  validate_url policy value = Ok url → url_accepted policy url.
Proof.
  unfold validate_url. rewrite result_bind_ok. intros (? & _ & Hv).
  apply result_bind_ok in Hv as (parsed & _ & Hv).
  apply result_bind_ok in Hv as (? & Hinfo%ensure_ok & Hv).
  set (parsed1 := url_without_fragment parsed) in Hv.
  set (parsed2 := if bool_decide (url_path parsed1 = _) then _ else parsed1) in Hv.
  assert (url_user_info parsed2 = (url_scheme parsed, ""%string, None)) as Hinfo2.
  { apply andb_true_iff in Hinfo as [[Hu%bool_decide_eq_true Hp%bool_decide_eq_true]%andb_true_iff _].
    unfold parsed2. case_bool_decide; [rewrite with_path_keeps|];
      unfold parsed1; rewrite without_fragment_keeps; unfold url_user_info; congruence. }
  apply result_bind_ok in Hv as ([host parsed3] & (Hinfo3 & Hport3 & Hhost3)%canonical_host_ok & Hv).
  apply result_bind_ok in Hv as (parsed4 & (Hinfo4 & Hhost4 & Hcases)%check_scheme_ok & Hv).
  apply result_bind_ok in Hv as (port & Hport%ok_or_ok & [= <-]).
  assert (url_user_info parsed4 = (url_scheme parsed, ""%string, None)) as Hinfo' by congruence.
  rewrite Hinfo2 in Hinfo3. unfold url_user_info in Hinfo', Hinfo2, Hinfo3.
  injection Hinfo' as Hs Hu Hp. injection Hinfo3 as Hs3 _ _. injection Hinfo2 as Hs2 _ _.
  unfold url_accepted. simpl. split_and!; [done..| |done|].
  - rewrite Hhost4. apply Hhost3. rewrite Hs2, <- Hs3. destruct Hcases as [[? _]|[? _]]; auto.
  - destruct Hcases as [[Hh H443]|(Hh & Hallow & Hloop & port' & Hport' & Hsafe)].
    + left. rewrite Hs, <- Hs3, Hh. split_and!; [done..|]. congruence.
    + right. rewrite Hs, <- Hs3, Hh. split_and!; [done..|]. congruence.
Qed.

(** Production accepts [https] on port 443 only. *)
Lemma validate_url_production value url :
  validate_url production_urls value = Ok url →
  vfu_scheme url = SchemeHttps ∧ vfu_port url = 443%N ∧
  url_scheme (vfu_parsed url) = "https"%string.
Proof.
  intros (_ & _ & _ & _ & _ & [(? & ? & ?)|(Hallow & _)])%validate_url_ok; [done|].
  by simpl in Hallow.
Qed.

End laws.

(** ** Literal addresses *)

Lemma digit_run_decimal l rest :
  forallb is_ascii_digit l = true →
  digit_of 10 (default 0%N (head rest)) = None ∨ rest = [] →
  digit_run 10 (l ++ rest) = ((λ d, (d - 48)%N) <$> l, rest).
Proof.
  intros Hl Hrest. induction l as [|d l IH]; simpl in *.
  - destruct rest as [|b rest]; [done|]. simpl in *. destruct Hrest as [->|]; done.
  - apply andb_true_iff in Hl as [Hd Hl]. unfold digit_of. rewrite Hd.
    replace (d - 48 <? 10)%N with true by (unfold is_ascii_digit in Hd; lia).
    by rewrite IH.
Qed.

Lemma digits_value_decimal l :
  digits_value 10 ((λ d, (d - 48)%N) <$> l) = decimal_value l.
Proof.
  unfold digits_value, decimal_value. generalize 0%N. induction l as [|d l IH]; intros v; [done|].
  simpl. apply IH.
Qed.

(** Octets have three digits at most and no leading zero. *)
Lemma octet_digits o :
  octet o →
  let digits := (λ d, (d - 48)%N) <$> decimal o in
  negb (is_empty digits) && (length digits <=? 3)%nat
  && ((length digits =? 1)%nat || negb match digits with d :: _ => (d =? 0)%N | [] => false end)
  = true.
Proof.
  intros Ho.
  assert (forallb (λ n, let digits := (λ d, (d - 48)%N) <$> decimal (N.of_nat n) in
    negb (is_empty digits) && (length digits <=? 3)%nat
    && ((length digits =? 1)%nat || negb match digits with d :: _ => (d =? 0)%N | [] => false end))
    (seq 0 256) = true) as Hall by by vm_compute.
  rewrite forallb_forall in Hall. specialize (Hall (N.to_nat o)). rewrite N2Nat.id in Hall.
  apply Hall. apply in_seq. unfold octet in Ho. lia.
Qed.

Lemma octet_text o : forallb (λ b, (b <? 256)%N) (decimal o) = true.
Proof.
  pose proof (decimal_digits_all 20 o) as Hall. fold (decimal o) in Hall. revert Hall.
  rewrite !forallb_forall. unfold is_ascii_digit. intros Hall b Hb%Hall. lia.
Qed.

Lemma read_octet o rest :
  octet o → digit_of 10 (default 0%N (head rest)) = None ∨ rest = [] →
  read_number 10 3 255 false (decimal o ++ rest) = Some (o, rest).
Proof.
  intros Ho Hrest. unfold read_number.
  assert (o <= U16_MAX)%N as Hmax by (unfold octet, U16_MAX in *; lia).
  pose proof (decimal_canonical o ltac:(unfold U16_MAX, U64_MAX in *; lia)) as Hcan.
  rewrite digit_run_decimal by (auto; by apply canonical_digits).
  pose proof (octet_digits o Ho) as Hd. simpl in Hd.
  rewrite digits_value_decimal.
  pose proof (parse_u16_decimal o Hmax) as Hval. unfold parse_u16 in Hval.
  destruct (_ && _ && _) in Hval; [|done]. injection Hval as ->.
  replace (o <=? 255)%N with true by (unfold octet in Ho; lia).
  apply andb_true_iff in Hd as [[H1 H2]%andb_true_iff H3]. by rewrite H1, H2, orb_false_l, H3.
Qed.

(** An IPv4 address reads back from its text. *)
Lemma parse_ipv4_text a b c d :
  octet a → octet b → octet c → octet d →
  parse_ip (string_of_bytes (ipv4_text (ipv4 a b c d))) = Some (V4 (ipv4 a b c d)).
Proof.
  intros Ha Hb Hc Hd. unfold ipv4_text.
  replace (ipv4 a b c d / 16777216)%N with a by (unfold ipv4, octet in *; lia).
  replace (ipv4 a b c d / 65536 mod 256)%N with b by (unfold ipv4, octet in *; lia).
  replace (ipv4 a b c d / 256 mod 256)%N with c by (unfold ipv4, octet in *; lia).
  replace (ipv4 a b c d mod 256)%N with d by (unfold ipv4, octet in *; lia).
  unfold parse_ip. rewrite bytes_string_of_bytes.
  2: { rewrite forallb_app. cbn [forallb]. rewrite forallb_app. cbn [forallb].
       rewrite forallb_app. cbn [forallb]. by rewrite !octet_text. }
  unfold read_ipv4. cbn [read_octets read_separated].
  rewrite read_octet by auto. cbn [read_separated]. rewrite N.eqb_refl.
  rewrite read_octet by auto. cbn [read_separated]. rewrite N.eqb_refl.
  rewrite read_octet by auto. cbn [read_separated]. rewrite N.eqb_refl.
  rewrite <- (app_nil_r (decimal d)), read_octet by auto.
  done.
Qed.

Example loopback_literals :
  parse_ip "127.0.0.1" = Some (V4 (ipv4 127 0 0 1)) ∧ parse_ip "::1" = Some (V6 1%N) ∧
  parse_ip "::ffff:127.0.0.1" = Some (V6 (ipv6 0 0 0 0 0 0xffff 0x7f00 1)) ∧
  parse_ip "127.0.0.01" = None ∧ parse_ip "1::2::3" = None ∧
  string_of_bytes (ipv6_text (ipv6 0x2001 0xdb8 0 0 1 0 0 0)) = "2001:db8:0:0:1::"%string.
Proof. by vm_compute. Qed.
