(* ===== verification/FetchData.v ===== *)
(** * Web fetch: requests, errors and results

    The values of [crates/tea-coding-tools/src/web_fetch/mod.rs]. *)

From S2P Require Import Prelude Utf8 FetchAddress FetchUrl.
Local Open Scope tea_scope.

Definition DEFAULT_FETCH_MAX_CHARS : N := 20000.
Definition MAX_FETCH_MAX_CHARS : N := 100000.
Definition MAX_FETCH_TITLE_BYTES : N := 4096.
Definition MAX_FETCH_MIME_BYTES : N := 128.
Definition MAX_FETCH_REDIRECTS : N := 10.

(** ** Errors *)

Inductive FetchRequestError : Set :=
| RequestInvalidUrl | RequestInvalidMaxChars | RequestInvalidShape.

Inductive FetchProviderErrorCode : Set :=
| FetchInvalidConfiguration | FetchInvalidRequest | FetchForbiddenDestination
| FetchDnsResolution | FetchRedirectRejected | FetchResponseTooLarge | FetchUnsupportedMime
| FetchTimeout | FetchTransport | FetchMalformedResponse | FetchCancelled.

Inductive FetchRetryDisposition : Set := RetryFetchNever | RetryFetchExplicit.

Record FetchProviderError : Set := mk_FetchProviderError {
  fpe_code : FetchProviderErrorCode;
  fpe_message : string;
  fpe_retry : FetchRetryDisposition
}.

#[export] Instance FetchProviderErrorCode_eq_dec : EqDecision FetchProviderErrorCode.
Proof. solve_decision. Defined.
#[export] Instance FetchRetryDisposition_eq_dec : EqDecision FetchRetryDisposition.
Proof. solve_decision. Defined.
#[export] Instance FetchProviderError_eq_dec : EqDecision FetchProviderError.
Proof. solve_decision. Defined.

Definition fetch_error_message (code : FetchProviderErrorCode) : string :=
  match code with
  | FetchInvalidConfiguration => "web fetch backend configuration is invalid"
  | FetchInvalidRequest => "web fetch request is invalid"
  | FetchForbiddenDestination => "web fetch destination is forbidden"
  | FetchDnsResolution => "web fetch destination could not be resolved safely"
  | FetchRedirectRejected => "web fetch redirect was rejected"
  | FetchResponseTooLarge => "web fetch response exceeded its bounds"
  | FetchUnsupportedMime => "web fetch response MIME type is unsupported"
  | FetchTimeout => "web fetch backend timed out"
  | FetchTransport => "web fetch backend transport failed"
  | FetchMalformedResponse => "web fetch response is malformed"
  | FetchCancelled => "web fetch was cancelled"
  end.

Definition fetch_error (code : FetchProviderErrorCode) : FetchProviderError :=
  mk_FetchProviderError code (fetch_error_message code) RetryFetchNever.
Definition explicit_retry (code : FetchProviderErrorCode) : FetchProviderError :=
  mk_FetchProviderError code (fetch_error_message code) RetryFetchExplicit.
Definition fetch_cancelled : FetchProviderError := fetch_error FetchCancelled.

Inductive FetchTruncationReason : Set :=
| TruncatedCompressedBytes | TruncatedDecodedBytes | TruncatedBodyCharacters
| TruncatedParserComplexity.

#[export] Instance FetchTruncationReason_eq_dec : EqDecision FetchTruncationReason.
Proof. solve_decision. Defined.

(** ** Requests *)

Record FetchRequest : Set := mk_FetchRequest {
  fr_url : string;
  fr_max_chars : N
}.

Record FetchRedirect : Set := mk_FetchRedirect {
  fd_from : string;
  fd_to : string;
  fd_status : N
}.

#[export] Instance FetchRedirect_eq_dec : EqDecision FetchRedirect.
Proof. solve_decision. Defined.

Record FetchResult : Set := mk_FetchResult {
  fres_requested_url : string;
  fres_final_url : string;
  fres_title : option string;
  fres_mime_type : string;
  fres_body : string;
  fres_truncated : option FetchTruncationReason;
  fres_redirects : list FetchRedirect
}.

#[export] Instance FetchResult_eq_dec : EqDecision FetchResult.
Proof. solve_decision. Defined.

(** [chars().count()]. *)
Definition char_count (s : string) : N := N.of_nat (length (chars s)).

(** [!value.is_empty() && value.len() <= MAX && all(..)], in lower case. *)
Definition mime_byte (b : N) : bool :=
  is_ascii_alphanumeric b || (b =? 47)%N || (b =? 46)%N || (b =? 43)%N || (b =? 45)%N
  || (b =? 59)%N || (b =? 61)%N || (b =? 32)%N.
Definition mime_valid (value : string) : bool :=
  negb (bool_decide (value = ""%string)) && (str_len value <=? MAX_FETCH_MIME_BYTES)%N
  && forallb mime_byte (bytes value).
Definition validate_fetch_mime (value : string) : Result FetchProviderError string :=
  try? ensure (mime_valid value) (fetch_error FetchMalformedResponse) in Ok (lowercase value).

(** [with_title]'s condition. *)
Definition title_valid (title : string) : bool :=
  negb (bool_decide (title = ""%string)) && (str_len title <=? MAX_FETCH_TITLE_BYTES)%N
  && negb (has_control (bytes title)).

Section urls.
Context `{UrlCrate}.

Definition fetch_request_with_policy (raw_url : string) (max_chars : N) (policy : FetchUrlPolicy)
    : Result FetchRequestError FetchRequest :=
  let? url := map_err (λ _, RequestInvalidUrl) (validate_url policy raw_url) in
  try? ensure ((1 <=? max_chars)%N && (max_chars <=? MAX_FETCH_MAX_CHARS)%N)
         RequestInvalidMaxChars in
  Ok (mk_FetchRequest (vfu_canonical url) max_chars).

Definition fetch_request_new (url : string) (max_chars : N)
    : Result FetchRequestError FetchRequest :=
  fetch_request_with_policy url max_chars production_urls.

Definition normalize_result_url (value : string) (policy : FetchUrlPolicy)
    : Result FetchProviderError string :=
  let? url := map_err (λ _, fetch_error FetchMalformedResponse) (validate_url policy value) in
  Ok (vfu_canonical url).

Definition fetch_redirect_with_policy (raw_from raw_to : string) (status : N)
    (policy : FetchUrlPolicy) : Result FetchProviderError FetchRedirect :=
  try? ensure ((300 <=? status)%N && (status <=? 399)%N) (fetch_error FetchMalformedResponse) in
  let? from := normalize_result_url raw_from policy in
  let? to := normalize_result_url raw_to policy in
  Ok (mk_FetchRedirect from to status).

Definition fetch_result_with_policy (raw_requested_url raw_final_url raw_mime_type body : string)
    (policy : FetchUrlPolicy) : Result FetchProviderError FetchResult :=
  let? requested_url := normalize_result_url raw_requested_url policy in
  let? final_url := normalize_result_url raw_final_url policy in
  let? mime_type := validate_fetch_mime raw_mime_type in
  try? ensure ((char_count body <=? MAX_FETCH_MAX_CHARS)%N && negb (contains_nul body))
         (fetch_error FetchResponseTooLarge) in
  Ok (mk_FetchResult requested_url final_url None mime_type body None []).

End urls.

Definition result_with_title (result : FetchResult) (title : string)
    : Result FetchProviderError FetchResult :=
  try? ensure (title_valid title) (fetch_error FetchMalformedResponse) in
  Ok (mk_FetchResult (fres_requested_url result) (fres_final_url result) (Some title)
        (fres_mime_type result) (fres_body result) (fres_truncated result)
        (fres_redirects result)).

Definition result_with_truncation (result : FetchResult) (reason : FetchTruncationReason)
    : FetchResult :=
  mk_FetchResult (fres_requested_url result) (fres_final_url result) (fres_title result)
    (fres_mime_type result) (fres_body result) (Some reason) (fres_redirects result).

Definition result_with_redirects (result : FetchResult) (redirects : list FetchRedirect)
    : Result FetchProviderError FetchResult :=
  try? ensure (N.of_nat (length redirects) <=? MAX_FETCH_REDIRECTS)%N
         (fetch_error FetchMalformedResponse) in
  Ok (mk_FetchResult (fres_requested_url result) (fres_final_url result) (fres_title result)
        (fres_mime_type result) (fres_body result) (fres_truncated result) redirects).
