(* ===== verification/FetchHttp.v ===== *)
(** * Web fetch: the HTTP transport

    [crates/tea-coding-tools/src/web_fetch/http.rs]: resolving, connecting to a
    pinned address, following redirects and reading a bounded body.  The resolver,
    the HTTP client and the clock are an environment that answers at moments; the
    addresses asked and the requests sent are a ghost trace. *)

From S2P Require Import Prelude Utf8 Decimal KernelBase FetchAddress FetchUrl FetchData.
Local Open Scope tea_scope.

(** ** Configuration *)

Definition DEFAULT_FETCH_RESPONSE_BYTES : N := 2097152.
Definition MAX_FETCH_RESPONSE_BYTES : N := 8388608.
Definition MAX_RESPONSE_HEADER_VALUE_BYTES : N := 1024.
Definition MAX_HTTP_TIMEOUT : Duration := from_secs 120.

Record FetchHttpTimeouts : Set := mk_FetchHttpTimeouts {
  fht_dns : Duration;
  fht_connect : Duration;
  fht_first_byte : Duration;
  fht_total : Duration;
  fht_low_speed_window : Duration;
  fht_low_speed_min_bytes : N
}.

#[export] Instance FetchHttpTimeouts_eq_dec : EqDecision FetchHttpTimeouts.
Proof. solve_decision. Defined.

Definition timeouts_new (dns connect first_byte total low_speed_window : Duration)
    (low_speed_min_bytes : N) : Result FetchProviderError FetchHttpTimeouts :=
  try? ensure
         (negb (existsb (λ duration, (duration =? 0)%N || (MAX_HTTP_TIMEOUT <? duration)%N)
                  [dns; connect; first_byte; total; low_speed_window]
                || (total <? dns)%N || (total <? connect)%N || (total <? first_byte)%N
                || (total <? low_speed_window)%N || (low_speed_min_bytes =? 0)%N))
         (fetch_error FetchInvalidConfiguration) in
  Ok (mk_FetchHttpTimeouts dns connect first_byte total low_speed_window low_speed_min_bytes).

Definition timeouts_default : FetchHttpTimeouts :=
  mk_FetchHttpTimeouts (from_secs 5) (from_secs 10) (from_secs 15) (from_secs 30) (from_secs 5)
    1024.

Record FetchHttpLimits : Set := mk_FetchHttpLimits {
  fhl_max_redirects : N;
  fhl_max_response_bytes : N
}.

#[export] Instance FetchHttpLimits_eq_dec : EqDecision FetchHttpLimits.
Proof. solve_decision. Defined.

Definition http_limits_new (max_redirects max_response_bytes : N)
    : Result FetchProviderError FetchHttpLimits :=
  try? ensure (negb ((MAX_FETCH_REDIRECTS <? max_redirects)%N
                     || negb ((1 <=? max_response_bytes)%N
                              && (max_response_bytes <=? MAX_FETCH_RESPONSE_BYTES)%N)))
         (fetch_error FetchInvalidConfiguration) in
  Ok (mk_FetchHttpLimits max_redirects max_response_bytes).

Definition http_limits_default : FetchHttpLimits :=
  mk_FetchHttpLimits 5 DEFAULT_FETCH_RESPONSE_BYTES.

Record FetchHttpConfig : Set := mk_FetchHttpConfig {
  fhc_url_policy : FetchUrlPolicy;
  fhc_address_policy : FetchAddressPolicy;
  fhc_timeouts : FetchHttpTimeouts;
  fhc_limits : FetchHttpLimits
}.

#[export] Instance FetchHttpConfig_eq_dec : EqDecision FetchHttpConfig.
Proof. solve_decision. Defined.

Definition production_config : FetchHttpConfig :=
  mk_FetchHttpConfig production_urls public_network timeouts_default http_limits_default.
Definition loopback_config (timeouts : FetchHttpTimeouts) (limits : FetchHttpLimits)
    : FetchHttpConfig :=
  mk_FetchHttpConfig loopback_urls loopback_addresses timeouts limits.

(** ** Headers *)

(** A header value as [to_str] reads it: nothing unless it is visible ASCII. *)
Definition HeaderValue : Set := option string.

(** What is read of a [reqwest::Response]; the body is what its stream yields
    until it ends, with whether an error was a timeout. *)
Inductive Waited (A : Type) : Type :=
| WaitCancelled
| WaitElapsed
| WaitStopped
| WaitReady (a : A).
Arguments WaitCancelled {A}. Arguments WaitElapsed {A}. Arguments WaitStopped {A}.
Arguments WaitReady {A} _.

Record Response : Set := mk_Response {
  rsp_status : N;
  rsp_remote_addr : option SocketAddr;
  rsp_location : option HeaderValue;
  rsp_content_type : option HeaderValue;
  rsp_content_encoding : option HeaderValue;
  rsp_content_length_header : option HeaderValue;
  rsp_content_length : option N;
  rsp_body : list (Waited (Result bool (list N)))
}.

Record FetchHttpHeaders : Set := mk_FetchHttpHeaders {
  fhh_mime : option string;
  fhh_encoding : option string;
  fhh_length : option N
}.

Definition validate_header_value (value : string) : Result FetchProviderError string :=
  try? ensure ((str_len value <=? MAX_RESPONSE_HEADER_VALUE_BYTES)%N
               && negb (has_control (bytes value))) (fetch_error FetchMalformedResponse) in
  Ok value.

(** [Option::map(f).transpose()]. *)
Definition transpose_map {E A B} (f : A → Result E B) (o : option A) : Result E (option B) :=
  match o with
  | Some a => let? b := f a in Ok (Some b)
  | None => Ok None
  end.

Definition fetch_headers_new (content_type content_encoding : option string)
    (content_length : option N) : Result FetchProviderError FetchHttpHeaders :=
  let? mime := transpose_map validate_header_value content_type in
  let? encoding := transpose_map validate_header_value content_encoding in
  Ok (mk_FetchHttpHeaders mime encoding content_length).

(** [str::parse::<u64>]: digits after an optional plus sign. *)
Definition parse_u64 (value : string) : option N :=
  let digits := match bytes value with 43%N :: rest => rest | digits => digits end in
  if negb (is_empty digits) && forallb is_ascii_digit digits && (decimal_value digits <=? U64_MAX)%N
  then Some (decimal_value digits) else None.

Definition bounded_header (value : option HeaderValue)
    : Result FetchProviderError (option string) :=
  transpose_map
    (λ value : HeaderValue,
       let? value := ok_or value (fetch_error FetchMalformedResponse) in
       try? ensure (str_len value <=? MAX_RESPONSE_HEADER_VALUE_BYTES)%N
              (fetch_error FetchMalformedResponse) in
       Ok value) value.

Definition response_headers (response : Response) : Result FetchProviderError FetchHttpHeaders :=
  let? content_type := bounded_header (rsp_content_type response) in
  let? content_encoding := bounded_header (rsp_content_encoding response) in
  let? content_length :=
    transpose_map (λ value : HeaderValue, ok_or (value ≫= parse_u64) (fetch_error FetchMalformedResponse))
      (rsp_content_length_header response) in
  fetch_headers_new content_type content_encoding content_length.

Record FetchHttpResponse : Set := mk_FetchHttpResponse {
  fhr_requested_url : string;
  fhr_final_url : string;
  fhr_status : N;
  fhr_headers : FetchHttpHeaders;
  fhr_body : list N;
  fhr_redirects : list FetchRedirect
}.

Definition is_redirect (status : N) : bool :=
  existsb (N.eqb status) [301; 302; 303; 307; 308]%N.

Definition map_pre_response_error (timeout : bool) : FetchProviderError :=
  explicit_retry (if timeout then FetchTimeout else FetchTransport).
Definition map_response_body_error (timeout : bool) : FetchProviderError :=
  fetch_error (if timeout then FetchTimeout else FetchTransport).

(** ** The transport *)

Inductive FetchStop : Set := FetchFailed (error : FetchProviderError) | FetchOutOfFuel.

Section transport.
Context `{UrlCrate}.

(** What the transport asks, at a moment; [env_client] tells whether a client
    pinned to an address was built. *)
Record FetchEnvironment : Type := mk_FetchEnvironment {
  env_clock : nat → Duration;
  env_cancelled : nat → bool;
  env_resolve : nat → string → Waited (Result FetchProviderError (list IpAddr));
  env_client : nat → string → SocketAddr → bool;
  env_send : nat → string → SocketAddr → string → Waited (Result bool Response)
}.

Inductive FetchEvent : Type :=
| FetchResolved (url : ValidatedFetchUrl) (answer : list IpAddr)
| FetchRequested (url : ValidatedFetchUrl) (peer : SocketAddr).

Record FetchState : Type := mk_FetchState { fst_moment : nat; fst_trace : list FetchEvent }.

Definition Fetching (A : Type) : Type := ST FetchState FetchStop A.

Context (env : FetchEnvironment) (config : FetchHttpConfig).

Definition fetch_fail {A} (error : FetchProviderError) : Fetching A := st_throw (FetchFailed error).
Definition fetch_lift {A} (result : Result FetchProviderError A) : Fetching A :=
  st_lift (map_err FetchFailed result).

(** The answer to a question of this moment; the next question comes later. *)
Definition asking {A} (question : nat → A) : Fetching A :=
  λ s, (Ok (question (fst_moment s)), mk_FetchState (S (fst_moment s)) (fst_trace s)).
Definition record_event (event : FetchEvent) : Fetching unit :=
  st_modify (λ s, mk_FetchState (fst_moment s) (fst_trace s ++ [event])).

(** [SystemFetchDnsResolver]: a literal address resolves to itself. *)
Definition system_resolve (lookup_host : nat → string → Waited (option (list IpAddr)))
    (moment : nat) (host : string) : Waited (Result FetchProviderError (list IpAddr)) :=
  match parse_ip host with
  | Some address => WaitReady (Ok [address])
  | None =>
      match lookup_host moment host with
      | WaitCancelled => WaitReady (Err fetch_cancelled)
      | WaitElapsed => WaitElapsed
      | WaitStopped => WaitStopped
      | WaitReady addresses => WaitReady (ok_or addresses (fetch_error FetchDnsResolution))
      end
  end.

Definition fetch_resolve (url : ValidatedFetchUrl) : Fetching ValidatedFetchAddresses :=
  let! outcome := asking (λ moment, env_resolve env moment (vfu_host url)) in
  match outcome with
  | WaitCancelled => fetch_fail fetch_cancelled
  | WaitElapsed | WaitStopped => fetch_fail (fetch_error FetchTimeout)
  | WaitReady result =>
      let! addresses := fetch_lift result in
      do! record_event (FetchResolved url addresses) in
      fetch_lift (map_err (λ _, fetch_error FetchDnsResolution)
                    (validate_addresses (fhc_address_policy config) addresses))
  end.

(** The loop of [send_to_validated_peer]. *)
Fixpoint send_to_peers (url : ValidatedFetchUrl) (addresses : list SocketAddr)
    (last_error : FetchProviderError) : Fetching Response :=
  match addresses with
  | [] => fetch_fail last_error
  | address :: rest =>
      let! built := asking (λ moment, env_client env moment (vfu_host url) address) in
      do! fetch_lift (ensure built (fetch_error FetchInvalidConfiguration)) in
      do! record_event (FetchRequested url address) in
      let! outcome :=
        asking (λ moment, env_send env moment (vfu_host url) address (vfu_canonical url)) in
      match outcome with
      | WaitCancelled => fetch_fail fetch_cancelled
      | WaitStopped => fetch_fail (fetch_error FetchTimeout)
      | WaitElapsed => send_to_peers url rest (explicit_retry FetchTimeout)
      | WaitReady (Err timeout) => send_to_peers url rest (map_pre_response_error timeout)
      | WaitReady (Ok response) =>
          do! fetch_lift (ensure (bool_decide (rsp_remote_addr response = Some address))
                            (fetch_error FetchForbiddenDestination)) in
          st_ret response
      end
  end.

Definition send_to_validated_peer (url : ValidatedFetchUrl) (addresses : ValidatedFetchAddresses)
    : Fetching Response :=
  send_to_peers url (socket_addresses addresses (vfu_port url)) (explicit_retry FetchTransport).

(** The loop of [read_raw_body], at the reads that are left. *)
Fixpoint read_body_loop (fuel : nat) (reads : list (Waited (Result bool (list N))))
    (body : list N) (window_started : Duration) (window_bytes : N) : Fetching (list N) :=
  match fuel with
  | O => st_throw FetchOutOfFuel
  | S fuel =>
      let! now := asking (env_clock env) in
      let remaining := (fht_low_speed_window (fhc_timeouts config) - (now - window_started))%N in
      if (remaining =? 0)%N then
        do! fetch_lift (ensure (negb (window_bytes <? fht_low_speed_min_bytes (fhc_timeouts config))%N)
                          (fetch_error FetchTimeout)) in
        let! now := asking (env_clock env) in
        read_body_loop fuel reads body now 0
      else
        match reads with
        | [] => st_ret body
        | WaitCancelled :: _ => fetch_fail fetch_cancelled
        | WaitElapsed :: _ | WaitStopped :: _ => fetch_fail (fetch_error FetchTimeout)
        | WaitReady (Err timeout) :: _ => fetch_fail (map_response_body_error timeout)
        | WaitReady (Ok chunk) :: reads =>
            do! fetch_lift (ensure (N.of_nat (length body + length chunk)
                                    <=? fhl_max_response_bytes (fhc_limits config))%N
                              (fetch_error FetchResponseTooLarge)) in
            read_body_loop fuel reads (body ++ chunk) window_started
              (window_bytes + N.of_nat (length chunk))
        end
  end.

Definition read_raw_body (response : Response) : Fetching (list N) :=
  do! fetch_lift (ensure match rsp_content_length response with
                         | Some length => (length <=? fhl_max_response_bytes (fhc_limits config))%N
                         | None => true
                         end (fetch_error FetchResponseTooLarge)) in
  let! now := asking (env_clock env) in
  read_body_loop (2 * length (rsp_body response) + 2) (rsp_body response) [] now 0.

(** The variables of the loop of [get_inner]. *)
Record FetchProgress : Type := mk_FetchProgress {
  fp_current : ValidatedFetchUrl;
  fp_visited : gset string;
  fp_redirects : list FetchRedirect
}.

(** A redirect response: the next URL and its record. *)
Definition follow_redirect (progress : FetchProgress) (response : Response)
    : Result FetchProviderError FetchProgress :=
  let rejected := fetch_error FetchRedirectRejected in
  let '(mk_FetchProgress current visited redirects) := progress in
  try? ensure (N.of_nat (length redirects) <? fhl_max_redirects (fhc_limits config))%N rejected in
  let? location := ok_or (rsp_location response) rejected in
  let? location := ok_or location rejected in
  let? next := map_err (λ _, rejected) (resolve_redirect current location (fhc_url_policy config)) in
  try? ensure (negb (is_https current && negb (is_https next))) rejected in
  try? ensure (bool_decide (vfu_canonical next ∉ visited)) rejected in
  let? redirect :=
    fetch_redirect_with_policy (vfu_canonical current) (vfu_canonical next) (rsp_status response)
      (fhc_url_policy config) in
  Ok (mk_FetchProgress next ({[vfu_canonical next]} ∪ visited) (redirects ++ [redirect])).

Fixpoint get_loop (fuel : nat) (requested : ValidatedFetchUrl) (progress : FetchProgress)
    : Fetching FetchHttpResponse :=
  match fuel with
  | O => st_throw FetchOutOfFuel
  | S fuel =>
      let current := fp_current progress in
      let! addresses := fetch_resolve current in
      let! response := send_to_validated_peer current addresses in
      if is_redirect (rsp_status response) then
        let! progress := fetch_lift (follow_redirect progress response) in
        get_loop fuel requested progress
      else
        let! headers := fetch_lift (response_headers response) in
        let! body := read_raw_body response in
        st_ret (mk_FetchHttpResponse (vfu_canonical requested) (vfu_canonical current)
                  (rsp_status response) headers body (fp_redirects progress))
  end.

(** A round per redirect and the first one. *)
Definition get_inner (requested : ValidatedFetchUrl) : Fetching FetchHttpResponse :=
  get_loop (S (N.to_nat (fhl_max_redirects (fhc_limits config)))) requested
    (mk_FetchProgress requested {[vfu_canonical requested]} []).

(** [FetchHttpTransport::get]; the total timeout and the cancellation that end
    the operation from outside are outcomes of its awaits. *)
Definition fetch_get (url : string) : Fetching FetchHttpResponse :=
  let! cancelled := asking (env_cancelled env) in
  do! fetch_lift (ensure (negb cancelled) fetch_cancelled) in
  let! request :=
    fetch_lift (map_err (λ _, fetch_error FetchInvalidRequest)
                  (validate_url (fhc_url_policy config) url)) in
  get_inner request.

End transport.
