(* ===== verification/FetchHttpTheorems.v ===== *)
(** * Web fetch: what the transport asks for

    Every request of [fetch_get] goes to a validated address of its own URL, and
    every fetch ends. *)

From S2P Require Import Prelude Utf8 Decimal KernelBase FetchAddress FetchUrl FetchData FetchHttp.
Local Open Scope tea_scope.

(** ** The hops of a fetch *)

Section hops.
Context `{UrlLaws} (env : FetchEnvironment) (config : FetchHttpConfig).

(** One URL of a chain of redirects: the answer of the resolver for its host and
    the peers the request was sent to. *)
Record Hop : Type := mk_Hop {
  hop_url : ValidatedFetchUrl;
  hop_answer : list IpAddr;
  hop_peers : list SocketAddr
}.

Definition hop_events (hop : Hop) : list FetchEvent :=
  FetchResolved (hop_url hop) (hop_answer hop) :: (FetchRequested (hop_url hop) <$> hop_peers hop).

Definition hop_validated (hop : Hop) : Prop :=
  url_accepted (fhc_url_policy config) (hop_url hop) ∧
  (∃ moment, env_resolve env moment (vfu_host (hop_url hop)) = WaitReady (Ok (hop_answer hop))) ∧
  (hop_peers hop = [] ∨
   ∀ a, a ∈ hop_answer hop → address_allowed (fhc_address_policy config) a = true) ∧
  ∀ peer, peer ∈ hop_peers hop →
    sa_port peer = vfu_port (hop_url hop) ∧ sa_ip peer ∈ hop_answer hop.

(** The response a hop ended with: sent by the last peer, which is the pinned
    one. *)
Definition hop_response (hop : Hop) (response : Response) : Prop :=
  ∃ moment peer,
    last (hop_peers hop) = Some peer ∧ rsp_remote_addr response = Some peer ∧
    env_send env moment (vfu_host (hop_url hop)) peer (vfu_canonical (hop_url hop)) =
      WaitReady (Ok response).

Lemma asking_run {A} (question : nat → A) s :
  asking question s = (Ok (question (fst_moment s)), mk_FetchState (S (fst_moment s)) (fst_trace s)).
Proof. done. Qed.

Lemma fetch_lift_run {A} (result : Result FetchProviderError A) s :
  fetch_lift result s = (map_err FetchFailed result, s).
Proof. done. Qed.

Lemma fetch_bind_run {A B} (m : Fetching A) (k : A → Fetching B) s :
  st_bind m k s = match m s with
                  | (Ok a, s) => k a s
                  | (Err e, s) => (Err e, s)
                  end.
Proof. done. Qed.

Lemma fetch_resolve_spec url s r s' :
  fetch_resolve env config url s = (r, s') →
  r ≠ Err FetchOutOfFuel ∧
  ((∃ error, r = Err error) ∧ fst_trace s' = fst_trace s ∨
   ∃ answer, fst_trace s' = fst_trace s ++ [FetchResolved url answer] ∧
     (∃ moment, env_resolve env moment (vfu_host url) = WaitReady (Ok answer)) ∧
     ∀ validated, r = Ok validated →
       validate_addresses (fhc_address_policy config) answer = Ok validated).
Proof.
  unfold fetch_resolve. rewrite fetch_bind_run, asking_run.
  destruct (env_resolve env (fst_moment s) (vfu_host url)) as [| | |[answer|error]] eqn:Henv.
  1-3: by (intros [= <- <-]; split; [done|left; split; [eexists|]]).
  - rewrite !fetch_bind_run, !fetch_lift_run. simpl. intros [= <- <-].
    destruct (validate_addresses _ answer) as [validated|error] eqn:Hvalid; simpl.
    + split; [done|]. right. exists answer. split_and!; [done|by eexists|].
      by intros validated' [= <-].
    + split; [done|]. right. exists answer. by split_and!; [done|eexists|].
  - rewrite fetch_bind_run, fetch_lift_run. simpl. intros [= <- <-].
    split; [done|left; split; [by eexists|done]].
Qed.

Lemma send_to_peers_spec url addresses last_error s r s' :
  send_to_peers env url addresses last_error s = (r, s') →
  r ≠ Err FetchOutOfFuel ∧
  ∃ peers,
    fst_trace s' = fst_trace s ++ (FetchRequested url <$> peers) ∧ peers `prefix_of` addresses ∧
    ∀ response, r = Ok response → ∃ moment peer,
      last peers = Some peer ∧ rsp_remote_addr response = Some peer ∧
      env_send env moment (vfu_host url) peer (vfu_canonical url) = WaitReady (Ok response).
Proof.
  revert last_error s. induction addresses as [|address rest IH]; intros last_error s.
  { intros [= <- <-]. split; [done|]. exists []. by rewrite app_nil_r. }
  cbn [send_to_peers]. rewrite fetch_bind_run, asking_run, fetch_bind_run, fetch_lift_run.
  destruct (env_client _ _ _ _); simpl.
  2: { intros [= <- <-]. split; [done|]. exists []. rewrite app_nil_r.
       split_and!; [done|apply prefix_nil|done]. }
  rewrite !fetch_bind_run. unfold record_event, st_modify. rewrite fetch_bind_run, asking_run.
  simpl fst_moment. simpl fst_trace.
  set (s1 := mk_FetchState _ (fst_trace s ++ _)).
  assert (∀ error, send_to_peers env url rest error s1 = (r, s') →
    r ≠ Err FetchOutOfFuel ∧ ∃ peers,
      fst_trace s' = fst_trace s ++ (FetchRequested url <$> peers) ∧
      peers `prefix_of` address :: rest ∧
      ∀ response, r = Ok response → ∃ moment peer,
        last peers = Some peer ∧ rsp_remote_addr response = Some peer ∧
        env_send env moment (vfu_host url) peer (vfu_canonical url) = WaitReady (Ok response))
    as Hnext.
  { intros error Hrun. destruct (IH _ _ Hrun) as (Hfuel & peers & Htrace & Hprefix & Hok).
    split; [done|]. exists (address :: peers). split_and!.
    - rewrite Htrace. simpl. by rewrite <- app_assoc.
    - by apply prefix_cons.
    - intros response Hr. destruct (Hok response Hr) as (moment & peer & Hlast & Hrest).
      exists moment, peer. split; [|done]. by destruct peers. }
  assert (fst_trace s1 = fst_trace s ++ (FetchRequested url <$> [address])) as Hone by done.
  assert ([address] `prefix_of` address :: rest) as Hprefix by by exists rest.
  destruct (env_send env _ _ _ _) as [| | |[response|timeout]] eqn:Hsend.
  - intros [= <- <-]. split; [done|]. by exists [address].
  - apply Hnext.
  - intros [= <- <-]. split; [done|]. by exists [address].
  - rewrite fetch_bind_run, fetch_lift_run. case_bool_decide as Hpeer; simpl; intros [= <- <-].
    + split; [done|]. exists [address]. split_and!; [done..|].
      intros response' [= <-]. eexists _, address. by split_and!.
    + split; [done|]. by exists [address].
  - apply Hnext.
Qed.

(** ** Bodies *)

Definition max_body : N := fhl_max_response_bytes (fhc_limits config).

(** The rounds that are enough: a window is left only after a read. *)
Definition body_rounds (reads : nat) (window_bytes : N) : nat :=
  2 * reads + if (window_bytes <? fht_low_speed_min_bytes (fhc_timeouts config))%N then 1 else 2.

Lemma read_body_loop_spec fuel reads body started window_bytes s r s' :
  read_body_loop env config fuel reads body started window_bytes s = (r, s') →
  (N.of_nat (length body) <= max_body)%N →
  (0 < fht_low_speed_min_bytes (fhc_timeouts config))%N →
  body_rounds (length reads) window_bytes ≤ fuel →
  fst_trace s' = fst_trace s ∧ r ≠ Err FetchOutOfFuel ∧
  ∀ result, r = Ok result → (N.of_nat (length result) <= max_body)%N.
Proof.
  intros Hrun Hbody Hmin. revert fuel reads body started window_bytes s Hrun Hbody.
  induction fuel as [|fuel IH]; intros reads body started window_bytes s Hrun Hbody Hfuel.
  { exfalso. unfold body_rounds in Hfuel. destruct (window_bytes <? _)%N; lia. }
  cbn [read_body_loop] in Hrun. rewrite fetch_bind_run, asking_run in Hrun.
  destruct (_ =? 0)%N.
  - rewrite fetch_bind_run, fetch_lift_run in Hrun.
    destruct (window_bytes <? _)%N eqn:Hwindow; simpl in Hrun.
    { injection Hrun as <- <-. by split_and!. }
    rewrite fetch_bind_run, asking_run in Hrun. apply IH in Hrun; [done..|].
    unfold body_rounds in *. rewrite Hwindow in Hfuel.
    replace (0 <? _)%N with true by (symmetry; by apply N.ltb_lt). lia.
  - destruct reads as [|[| | |[chunk|timeout]] reads].
    + injection Hrun as <- <-. split_and!; [done..|]. by intros result [= <-].
    + injection Hrun as <- <-. by split_and!.
    + injection Hrun as <- <-. by split_and!.
    + injection Hrun as <- <-. by split_and!.
    + rewrite fetch_bind_run, fetch_lift_run in Hrun.
      destruct (_ <=? _)%N eqn:Hlen; simpl in Hrun.
      2: { injection Hrun as <- <-. by split_and!. }
      apply IH in Hrun; [done|rewrite length_app; by apply N.leb_le|].
      unfold body_rounds in *. simpl in Hfuel. destruct (_ <? _)%N, (_ <? _)%N; lia.
    + injection Hrun as <- <-. by split_and!.
Qed.

Lemma read_raw_body_spec response s r s' :
  read_raw_body env config response s = (r, s') →
  (0 < fht_low_speed_min_bytes (fhc_timeouts config))%N →
  fst_trace s' = fst_trace s ∧ r ≠ Err FetchOutOfFuel ∧
  ∀ body, r = Ok body → (N.of_nat (length body) <= max_body)%N.
Proof.
  unfold read_raw_body. rewrite fetch_bind_run, fetch_lift_run. destruct (ensure _ _) as [[]|e]; simpl.
  2: { intros [= <- <-] _. by split_and!. }
  rewrite fetch_bind_run, asking_run. intros Hrun Hmin.
  apply read_body_loop_spec in Hrun; [done|simpl; lia|done|].
  unfold body_rounds. destruct (_ <? _)%N; lia.
Qed.

(** A read that is still pending when the window ends fails the download,
    however many bytes the window received. *)
Lemma pending_read_ends_window fuel reads body started window_bytes s :
  (env_clock env (fst_moment s) - started < fht_low_speed_window (fhc_timeouts config))%N →
  (read_body_loop env config (S fuel) (WaitElapsed :: reads) body started window_bytes s).1 =
    Err (FetchFailed (fetch_error FetchTimeout)).
Proof.
  intros Hwindow. cbn [read_body_loop]. rewrite fetch_bind_run, asking_run.
  destruct (N.eqb_spec (fht_low_speed_window (fhc_timeouts config) - (env_clock env (fst_moment s)
    - started)) 0); [lia|done].
Qed.

(** ** The chain of redirects *)

Lemma follow_redirect_ok progress response progress' :
  follow_redirect config progress response = Ok progress' →
  url_accepted (fhc_url_policy config) (fp_current progress') ∧
  vfu_canonical (fp_current progress') ∉ fp_visited progress ∧
  fp_visited progress' = {[vfu_canonical (fp_current progress')]} ∪ fp_visited progress ∧
  length (fp_redirects progress') = S (length (fp_redirects progress)) ∧
  (N.of_nat (length (fp_redirects progress)) < fhl_max_redirects (fhc_limits config))%N ∧
  (is_https (fp_current progress) = true → is_https (fp_current progress') = true).
Proof.
  unfold follow_redirect. destruct progress as [current visited redirects]. simpl.
  rewrite result_bind_ok. intros (? & Hmax%ensure_ok%N.ltb_lt & Hrun).
  apply result_bind_ok in Hrun as (location & _ & Hrun).
  apply result_bind_ok in Hrun as (location' & _ & Hrun).
  apply result_bind_ok in Hrun as (next & Hnext%map_err_ok & Hrun).
  apply result_bind_ok in Hrun as (? & Hhttps%ensure_ok & Hrun).
  apply result_bind_ok in Hrun as (? & Hvisited%ensure_ok%bool_decide_eq_true & Hrun).
  apply result_bind_ok in Hrun as (redirect & _ & [= <-]). simpl. split_and!.
  - unfold resolve_redirect in Hnext. apply result_bind_ok in Hnext as (? & _ & Hnext).
    apply result_bind_ok in Hnext as (resolved & _ & Hnext). by eapply validate_url_ok.
  - done.
  - done.
  - rewrite length_app. simpl. lia.
  - done.
  - intros Hc. rewrite Hc in Hhttps. by destruct (is_https next).
Qed.

(** The response of a fetch is the one its last hop ended with. *)
Definition fetched_from (requested : ValidatedFetchUrl) (hops : list Hop) (earlier : nat)
    (response : FetchHttpResponse) : Prop :=
  ∃ hop raw,
    last hops = Some hop ∧ hop_response hop raw ∧
    fhr_requested_url response = vfu_canonical requested ∧
    fhr_final_url response = vfu_canonical (hop_url hop) ∧
    fhr_status response = rsp_status raw ∧ is_redirect (fhr_status response) = false ∧
    response_headers raw = Ok (fhr_headers response) ∧
    S (length (fhr_redirects response)) = earlier + length hops ∧
    (N.of_nat (length (fhr_body response)) <= max_body)%N.

(** The hops from [current] on, after the visited URLs. *)
Definition chain_from (current : ValidatedFetchUrl) (visited : gset string) (hops : list Hop)
    : Prop :=
  Forall hop_validated hops ∧ NoDup ((λ hop, vfu_canonical (hop_url hop)) <$> hops) ∧
  match hops with
  | [] => True
  | hop :: later =>
      hop_url hop = current ∧ Forall (λ hop, vfu_canonical (hop_url hop) ∉ visited) later
  end.

Lemma chain_one current visited hop :
  hop_validated hop → hop_url hop = current → chain_from current visited [hop].
Proof.
  intros Hhop Hurl. split_and!; [by constructor|apply NoDup_singleton|done|constructor].
Qed.

Lemma chain_cons current visited next visited' hop hops :
  hop_validated hop → hop_url hop = current → vfu_canonical current ∈ visited →
  vfu_canonical next ∉ visited → visited' = {[vfu_canonical next]} ∪ visited →
  chain_from next visited' hops → chain_from current visited (hop :: hops).
Proof.
  intros Hhop Hurl Hcurrent Hnext -> (Hall & Hnodup & Hfirst).
  assert (Forall (λ h, vfu_canonical (hop_url h) ∉ visited) hops) as Hfresh.
  { destruct hops as [|h later]; [constructor|]. destruct Hfirst as [Hh Hlater].
    constructor; [by rewrite Hh|]. eapply Forall_impl; [exact Hlater|]. simpl. set_solver. }
  split_and!; [by constructor| |done|done].
  rewrite fmap_cons. apply NoDup_cons. split; [|done]. simpl. rewrite Hurl.
  intros (h & Heq & Hh)%list_elem_of_fmap. rewrite Forall_forall in Hfresh.
  apply (Hfresh h Hh). simpl in Heq. by rewrite <- Heq.
Qed.

Lemma get_loop_spec fuel requested progress s r s' :
  get_loop env config fuel requested progress s = (r, s') →
  (0 < fht_low_speed_min_bytes (fhc_timeouts config))%N →
  url_accepted (fhc_url_policy config) (fp_current progress) →
  vfu_canonical (fp_current progress) ∈ fp_visited progress →
  length (fp_redirects progress) ≤ N.to_nat (fhl_max_redirects (fhc_limits config)) <
    fuel + length (fp_redirects progress) →
  ∃ hops,
    fst_trace s' = fst_trace s ++ (hops ≫= hop_events) ∧
    chain_from (fp_current progress) (fp_visited progress) hops ∧ length hops ≤ fuel ∧
    r ≠ Err FetchOutOfFuel ∧
    ∀ response, r = Ok response →
      fetched_from requested hops (length (fp_redirects progress)) response.
Proof.
  intros Hrun Hmin. revert progress s Hrun.
  induction fuel as [|fuel IH]; intros progress s Hrun Haccepted Hvisited Hfuel; [lia|].
  cbn [get_loop] in Hrun. set (current := fp_current progress) in *. rewrite fetch_bind_run in Hrun.
  destruct (fetch_resolve env config current s) as [resolved s1] eqn:Hresolve.
  apply fetch_resolve_spec in Hresolve as (Hfuel1 & [[[error ->] Htrace1]|(answer & Htrace1 & Hanswer & Hvalid)]).
  { injection Hrun as <- <-. exists []. rewrite Htrace1, app_nil_r.
    split_and!; [done| |simpl; lia|congruence|done]. split_and!; [constructor|constructor|done]. }
  destruct resolved as [validated|error].
  2: { injection Hrun as <- <-. exists [mk_Hop current answer []]. simpl. rewrite Htrace1.
       split_and!; [done| |lia|congruence|done]. apply chain_one; [|done].
       split_and!; [done..|by left|by intros peer ?%not_elem_of_nil]. }
  specialize (Hvalid validated eq_refl). rewrite fetch_bind_run in Hrun.
  destruct (send_to_validated_peer env current validated s1) as [sent s2] eqn:Hsend.
  apply send_to_peers_spec in Hsend as (Hfuel2 & peers & Htrace2 & Hprefix & Hsent).
  set (hop := mk_Hop current answer peers).
  assert (fst_trace s2 = fst_trace s ++ hop_events hop) as Htrace.
  { rewrite Htrace2, Htrace1, <- app_assoc. done. }
  assert (hop_validated hop) as Hhop.
  { pose proof (validate_addresses_cases (fhc_address_policy config) answer) as Hcases.
    rewrite Hvalid in Hcases. destruct Hcases as (_ & Hin & _ & Hallowed).
    split_and!; [done..|by right|]. intros peer Hpeer.
    destruct Hprefix as [rest Hrest]. assert (peer ∈ socket_addresses validated (vfu_port current))
      as (ip & -> & Hip%Hin)%list_elem_of_fmap by (rewrite Hrest; set_solver). done. }
  clear Htrace1 Htrace2 Hprefix Hvalid Hanswer.
  destruct sent as [raw|error].
  2: { injection Hrun as <- <-. exists [hop]. rewrite Htrace. simpl. rewrite app_nil_r.
       split_and!; [done|by apply chain_one|lia|congruence|done]. }
  assert (hop_response hop raw) as Hraw by by destruct (Hsent raw eq_refl) as (moment & peer & Hr); exists moment, peer.
  destruct (is_redirect (rsp_status raw)) eqn:Hredirect.
  - rewrite fetch_bind_run, fetch_lift_run in Hrun.
    destruct (follow_redirect config progress raw) as [progress'|error] eqn:Hfollow; simpl in Hrun.
    2: { injection Hrun as <- <-. exists [hop]. rewrite Htrace. simpl. rewrite app_nil_r.
         split_and!; [done|by apply chain_one|lia|done..]. }
    apply follow_redirect_ok in Hfollow as (Hacc' & Hfresh & Hvisited' & Hlen & Hmax & _).
    apply IH in Hrun as (hops & Htrace' & Hchain & Hlength & Hfuel' & Hok);
      [|done|rewrite Hvisited'; set_solver|lia].
    exists (hop :: hops). split_and!.
    + rewrite Htrace', Htrace. simpl. by rewrite <- app_assoc.
    + by eapply chain_cons.
    + simpl. lia.
    + done.
    + intros response Hr. destruct (Hok response Hr) as (last_hop & raw' & Hlast & Hresp).
      exists last_hop, raw'. rewrite last_cons, Hlast. split; [done|].
      destruct Hresp as (? & ? & ? & ? & ? & ? & Hcount & ?). split_and!; [done..| |done].
      rewrite Hcount, Hlen. simpl. lia.
  - rewrite fetch_bind_run, fetch_lift_run in Hrun.
    destruct (response_headers raw) as [headers|error] eqn:Hheaders; simpl in Hrun.
    2: { injection Hrun as <- <-. exists [hop]. rewrite Htrace. simpl. rewrite app_nil_r.
         split_and!; [done|by apply chain_one|lia|done..]. }
    rewrite fetch_bind_run in Hrun.
    destruct (read_raw_body env config raw s2) as [body s3] eqn:Hbody.
    apply read_raw_body_spec in Hbody as (Htrace3 & Hfuel3 & Hsize); [|done].
    exists [hop]. rewrite bind_singleton.
    destruct body as [body|error]; injection Hrun as <- <-; rewrite Htrace3, Htrace.
    + split_and!; [done|by apply chain_one|simpl; lia|done|]. intros response [= <-].
      exists hop, raw. simpl. split_and!; [done..|lia|by apply Hsize].
    + split_and!; [done|by apply chain_one|simpl; lia|congruence|done].
Qed.

(** ** A whole fetch *)

Lemma fetch_get_spec url s r s' :
  fetch_get env config url s = (r, s') →
  (0 < fht_low_speed_min_bytes (fhc_timeouts config))%N →
  ∃ hops,
    fst_trace s' = fst_trace s ++ (hops ≫= hop_events) ∧ Forall hop_validated hops ∧
    NoDup ((λ hop, vfu_canonical (hop_url hop)) <$> hops) ∧
    length hops ≤ S (N.to_nat (fhl_max_redirects (fhc_limits config))) ∧
    r ≠ Err FetchOutOfFuel ∧
    ∀ response, r = Ok response →
      ∃ requested, validate_url (fhc_url_policy config) url = Ok requested ∧
        hop_url <$> head hops = Some requested ∧ fetched_from requested hops 0 response.
Proof.
  unfold fetch_get. rewrite fetch_bind_run, asking_run, fetch_bind_run, fetch_lift_run.
  set (s1 := mk_FetchState _ _). set (Claim := ∃ hops, _). intros Hrun Hmin. revert Hrun.
  assert (∀ error, (Err (FetchFailed error), s1) = (r, s') → Claim) as Hnone.
  { intros error [= <- <-]. exists []. rewrite app_nil_r.
    split_and!; [done|constructor|constructor|simpl; lia|done..]. }
  destruct (ensure _ _) as [[]|error]; simpl; [|by apply Hnone].
  rewrite fetch_bind_run, fetch_lift_run.
  destruct (validate_url _ url) as [requested|error] eqn:Hvalid; simpl; [|by apply Hnone].
  intros Hrun. apply get_loop_spec in Hrun as (hops & Htrace & Hchain & Hlen & Hfuel & Hok);
    [|done|by eapply validate_url_ok|simpl; set_solver|simpl; lia].
  destruct Hchain as (Hall & Hnodup & Hfirst). simpl in *.
  exists hops. split_and!; [done..|]. intros response Hr. exists requested. split; [done|].
  specialize (Hok response Hr). split; [|done].
  destruct Hok as (hop & raw & Hlast & _). destruct hops as [|h later]; [done|].
  destruct Hfirst as [Hh _]. simpl. by rewrite Hh.
Qed.

End hops.

(** C22: whatever the resolver, the servers and the clock answer, a production
    fetch is a chain of at most six URLs, none twice.  Each is an [https] URL of
    port 443 without credentials; its requests go to port 443 of addresses the
    resolver answered for the host of that URL, none of which is special, and the
    client is pinned to the host the URL names.  A response comes from the pinned
    peer of the last URL, is not a redirect and has a body within the limit.  The
    fetch always ends. *)
Theorem fetch_requests_safe `{UrlLaws} env url r s :
  (∀ moment host answer, env_resolve env moment host = WaitReady (Ok answer) →
     Forall well_formed_address answer) →
  fetch_get env production_config url (mk_FetchState 0 []) = (r, s) →
  ∃ hops,
    fst_trace s = hops ≫= hop_events ∧ length hops ≤ 6 ∧
    NoDup ((λ hop, vfu_canonical (hop_url hop)) <$> hops) ∧
    Forall (λ hop,
      url_scheme (vfu_parsed (hop_url hop)) = "https"%string ∧
      url_port_or_known_default (vfu_parsed (hop_url hop)) = Some 443%N ∧
      url_username (vfu_parsed (hop_url hop)) = ""%string ∧
      url_password (vfu_parsed (hop_url hop)) = None ∧
      vfu_canonical (hop_url hop) = url_text (vfu_parsed (hop_url hop)) ∧
      host_name <$> url_host (vfu_parsed (hop_url hop)) = Some (vfu_host (hop_url hop)) ∧
      (∃ moment, env_resolve env moment (vfu_host (hop_url hop)) = WaitReady (Ok (hop_answer hop))) ∧
      Forall (λ peer, sa_port peer = 443%N ∧ sa_ip peer ∈ hop_answer hop ∧
                Forall (λ ip, ¬ special_address ip) (hop_answer hop)) (hop_peers hop)) hops ∧
    r ≠ Err FetchOutOfFuel ∧
    ∀ response, r = Ok response → ∃ requested hop raw,
      validate_url production_urls url = Ok requested ∧ hop_url <$> head hops = Some requested ∧
      fhr_requested_url response = vfu_canonical requested ∧ last hops = Some hop ∧
      hop_response env hop raw ∧ fhr_final_url response = vfu_canonical (hop_url hop) ∧
      fhr_status response = rsp_status raw ∧ is_redirect (fhr_status response) = false ∧
      S (length (fhr_redirects response)) = length hops ∧
      (N.of_nat (length (fhr_body response)) <= DEFAULT_FETCH_RESPONSE_BYTES)%N.
Proof.
  intros Hwf Hrun. apply fetch_get_spec in Hrun as (hops & Htrace & Hall & Hnodup & Hlen & Hfuel & Hok);
    [|done].
  exists hops. split_and!; [done..| |done|].
  - eapply Forall_impl; [exact Hall|]. intros hop (Haccepted & Hanswer & Hallowed & Hpeers).
    destruct Haccepted as (Htext & Huser & Hpass & (host & Hhost & Hname) & Hport &
      [(_ & Hscheme & H443)|(Hloop & _)]); [|done].
    split_and!; [done| |done..| |done|]; [congruence|by rewrite Hhost; simpl; rewrite Hname|].
    rewrite Forall_forall. intros peer Hpeer. destruct (Hpeers peer Hpeer) as [Hpp Hip].
    split_and!; [congruence|done|]. rewrite Forall_forall. intros ip Hin Hspecial.
    destruct Hallowed as [Hnil|Hallowed]; [rewrite Hnil in Hpeer; by apply not_elem_of_nil in Hpeer|].
    destruct Hanswer as [moment Hanswer]. specialize (Hwf _ _ _ Hanswer).
    rewrite Forall_forall in Hwf. apply public_allowed in Hspecial; [|by apply Hwf].
    specialize (Hallowed ip Hin). simpl in Hallowed. congruence.
  - intros response Hr. destruct (Hok response Hr) as (requested & Hvalid & Hfirst & hop & raw & Hf).
    destruct Hf as (Hlast & Hraw & Hreq & Hfinal & Hstatus & Hredirect & _ & Hcount & Hbody).
    exists requested, hop, raw. by split_and!.
Qed.

(** ** An example *)

(** URLs of the form [https://domain/path]. *)
Record PlainUrl : Set := mk_PlainUrl { plu_domain : string; plu_path : string }.

Fixpoint split_path (s : string) : string * string :=
  match s with
  | EmptyString => (EmptyString, EmptyString)
  | String a rest =>
      if (Ascii.N_of_ascii a =? 47)%N then (EmptyString, s)
      else let '(domain, path) := split_path rest in (String a domain, path)
  end.

Definition plain_parse (s : string) : option PlainUrl :=
  rest ← strip_prefix "https://" s;
  let '(domain, path) := split_path rest in Some (mk_PlainUrl domain path).

Definition plain_urls : UrlCrate := {|
  Url := PlainUrl;
  url_parse := plain_parse;
  url_join := λ url location,
    match plain_parse location with
    | Some url => Some url
    | None => Some (mk_PlainUrl (plu_domain url) location)
    end;
  url_text := λ url, ("https://" ++ plu_domain url ++ plu_path url)%string;
  url_scheme := λ _, "https";
  url_username := λ _, "";
  url_password := λ _, None;
  url_host := λ url, Some (HostDomain (plu_domain url));
  url_port := λ _, None;
  url_port_or_known_default := λ _, Some 443%N;
  url_path := plu_path;
  url_cannot_be_a_base := λ _, false;
  url_without_fragment := λ url, url;
  url_with_path := λ url path, mk_PlainUrl (plu_domain url) path;
  url_with_host := λ url host, Some (mk_PlainUrl (lowercase host) (plu_path url));
  url_without_port := λ url, Some url
|}.

Lemma plain_laws : @UrlLaws plain_urls.
Proof.
  split; cbn; try done.
  - by intros url domain host url' _ _ _ _ [= <-].
  - by intros url url' [= <-].
Qed.

(** [https://a.test/] redirects to [/b], which answers; the first address of
    every answer refuses the connection. *)
Definition plain_response (status : N) (location : option HeaderValue) (peer : SocketAddr)
    : Response :=
  mk_Response status (Some peer) location None None None None
    [WaitReady (Ok (bytes "hello")); WaitReady (Ok (bytes " world"))].

Definition plain_environment : FetchEnvironment := {|
  env_clock := λ _, 0%N;
  env_cancelled := λ _, false;
  env_resolve := λ _ _, WaitReady (Ok [V4 (ipv4 9 9 9 9); V4 (ipv4 8 8 8 8)]);
  env_client := λ _ _ _, true;
  env_send := λ _ _ peer url,
    if bool_decide (sa_ip peer = V4 (ipv4 8 8 8 8)) then WaitElapsed
    else if bool_decide (url = "https://a.test/"%string)
    then WaitReady (Ok (plain_response 302 (Some (Some "/b"%string)) peer))
    else WaitReady (Ok (plain_response 200 None peer))
|}.

Definition plain_run : Result FetchStop FetchHttpResponse * @FetchState plain_urls :=
  @fetch_get plain_urls plain_environment production_config "https://a.test" (mk_FetchState 0 []).

Lemma fetch_requests_safe_witness :
  fhr_body <$> match plain_run.1 with Ok response => Some response | Err _ => None end =
    Some (bytes "hello world") ∧
  length (fst_trace plain_run.2) = 6 ∧
  ∃ hops, fst_trace plain_run.2 = hops ≫= hop_events ∧ length hops ≤ 6.
Proof.
  split; [vm_compute; reflexivity|]. split; [vm_compute; reflexivity|].
  destruct (@fetch_requests_safe plain_urls plain_laws plain_environment "https://a.test"
    plain_run.1 plain_run.2
    ltac:(intros moment host answer [= <-]; by repeat constructor)
    (surjective_pairing plain_run)) as (hops & Htrace & Hlen & _).
  exists hops. split; [exact Htrace|exact Hlen].
Defined.
