(* ===== verification/FetchBody.v ===== *)
(** * Web fetch: decoding a body

    [crates/tea-coding-tools/src/web_fetch/body.rs]: content encodings, the kind of
    a document, its text and its bounds.  Decompressors, character encodings, MIME
    types and the HTML parser are classes of what the code asks of their crates;
    text is worked on as its characters. *)

From S2P Require Import Prelude Utf8 Protocol Tools Validation FetchAddress FetchUrl FetchData FetchHttp.
Local Open Scope tea_scope.

Definition MAX_FETCH_DECODED_BYTES : N := 16777216.
Definition MIME_SNIFF_BYTES : nat := 512.

Record FetchBodyLimits : Set := mk_FetchBodyLimits {
  fbl_decoded_bytes : N;
  fbl_html_bytes : N;
  fbl_html_elements : N
}.

#[export] Instance FetchBodyLimits_eq_dec : EqDecision FetchBodyLimits.
Proof. solve_decision. Defined.

Definition body_limits_new (max_decoded_bytes max_html_bytes max_html_elements : N)
    : Result FetchProviderError FetchBodyLimits :=
  try? ensure (negb (negb ((1 <=? max_decoded_bytes)%N
                           && (max_decoded_bytes <=? MAX_FETCH_DECODED_BYTES)%N)
                     || negb ((1 <=? max_html_bytes)%N && (max_html_bytes <=? max_decoded_bytes)%N)
                     || (max_html_elements =? 0)%N)) (fetch_error FetchInvalidConfiguration) in
  Ok (mk_FetchBodyLimits max_decoded_bytes max_html_bytes max_html_elements).

Definition body_limits_default : FetchBodyLimits := mk_FetchBodyLimits 4194304 1048576 50000.

Inductive FetchContentKind : Set := KindHtml | KindPlainText | KindJson.

#[export] Instance FetchContentKind_eq_dec : EqDecision FetchContentKind.
Proof. solve_decision. Defined.

Definition kind_mime_type (kind : FetchContentKind) : string :=
  match kind with
  | KindHtml => "text/html; charset=utf-8"
  | KindPlainText => "text/plain; charset=utf-8"
  | KindJson => "application/json; charset=utf-8"
  end.

Record DecodedFetchBody : Set := mk_DecodedFetchBody {
  dfb_kind : FetchContentKind;
  dfb_title : option string;
  dfb_body : string;
  dfb_truncation : option FetchTruncationReason;
  dfb_decoded_bytes : N
}.

(** ** Other crates *)

(** The parts of a [mime::Mime] the code looks at, in lower case. *)
Record Mime : Set := mk_Mime {
  mime_type_ : string;
  mime_subtype : string;
  mime_suffix : option string;
  mime_charset : option string
}.

Inductive Decompressor : Set := Gzip | Zlib | Deflate | Brotli.

Class BodyCrates : Type := {
  (** [encoding_rs]: the text of some bytes and whether they had errors *)
  Encoding : Set;
  Encoding_eq_dec :: EqDecision Encoding;
  UTF_8 : Encoding;
  encoding_for_bom : list N → option (Encoding * nat);
  encoding_for_label : string → option Encoding;
  encoding_decode : Encoding → list N → string * bool;
  parse_mime : string → option Mime;
  (** The bytes a reader yields, and whether an error ends them *)
  decompress : Decompressor → list N → list N * bool;
  (** [dom_query], after the removal of scripts, styles and the like: the text of
      the titles, of the body if there is one, and of the document *)
  document_title : string → string;
  document_body : string → option string;
  document_text : string → string
}.

(** ** Text *)

(** [replace("\r\n", "\n").replace('\r', "\n")]. *)
Fixpoint newlines (cs : list N) : list N :=
  match cs with
  | c :: rest =>
      if (c =? 13)%N then
        10%N :: match rest with
                | d :: rest' => if (d =? 10)%N then newlines rest' else newlines rest
                | [] => []
                end
      else c :: newlines rest
  | [] => []
  end.

Definition kept_char (c : N) : bool := negb (is_control c) || (c =? 10)%N || (c =? 9)%N.

Definition normalize_plain_text (cs : list N) : list N :=
  trim_chars (List.filter kept_char (newlines cs)).

(** [split_whitespace]: the words, longest first part [word] reversed. *)
Fixpoint words (word : list N) (cs : list N) : list (list N) :=
  let finished := match word with [] => [] | _ => [rev word] end in
  match cs with
  | c :: rest => if is_whitespace c then finished ++ words [] rest else words (c :: word) rest
  | [] => finished
  end.

(** [join(" ")]. *)
Fixpoint join_words (ws : list (list N)) : list N :=
  match ws with
  | [] => []
  | [word] => word
  | word :: ws => word ++ 32%N :: join_words ws
  end.

Definition normalize_inline_text (cs : list N) : list N := join_words (words [] cs).

(** The title, cut at the last boundary within its bound. *)
Definition bounded_title (cs : list N) : option string :=
  match cs with
  | [] => None
  | _ => Some (string_of_chars (floor_chars (N.to_nat MAX_FETCH_TITLE_BYTES) cs))
  end.

Definition truncate_body (cs : list N) (max_chars : N)
    : list N * option FetchTruncationReason :=
  (take (N.to_nat max_chars) cs,
   if is_empty (drop (N.to_nat max_chars) cs) then None else Some TruncatedBodyCharacters).

(** ** Decoding *)

Inductive SniffedContent : Set := SniffHtml | SniffJson | SniffText | SniffBinary.

Definition chars_start_with (prefix : string) (cs : list N) : bool :=
  bool_decide (bytes prefix `prefix_of` cs).

Definition sniff_content (bs : list N) : SniffedContent :=
  if existsb (λ b, (b =? 0)%N) bs then SniffBinary
  else
    let normalized :=
      to_ascii_lowercase <$> skip_whitespace (utf8_chars (take MIME_SNIFF_BYTES bs)) in
    if existsb (λ prefix, chars_start_with prefix normalized)
         ["<!doctype html"; "<html"; "<head"; "<body"]%string then SniffHtml
    else if chars_start_with "{" normalized || chars_start_with "[" normalized then SniffJson
    else SniffText.

Definition select_kind (declared : option FetchContentKind) (sniffed : SniffedContent)
    : Result FetchProviderError FetchContentKind :=
  match declared, sniffed with
  | _, SniffBinary => Err (fetch_error FetchUnsupportedMime)
  | Some KindJson, _ | None, SniffJson => Ok KindJson
  | Some KindHtml, _ | _, SniffHtml => Ok KindHtml
  | Some KindPlainText, _ | None, SniffText => Ok KindPlainText
  end.

Definition bounded_identity (raw : list N) (max_bytes : N)
    : Result FetchProviderError (list N) :=
  try? ensure (N.of_nat (length raw) <=? max_bytes)%N (fetch_error FetchResponseTooLarge) in Ok raw.

(** [reader.take(max + 1).read_to_end]: an error is met only when the reader gets
    to it. *)
Definition read_bounded (reader : list N * bool) (max_bytes : N)
    : Result FetchProviderError (list N) :=
  let '(yielded, fails) := reader in
  let bytes := take (N.to_nat (max_bytes + 1)) yielded in
  let stopped := (max_bytes + 1 <=? N.of_nat (length yielded))%N in
  try? ensure (stopped || negb fails) (fetch_error FetchMalformedResponse) in
  try? ensure (N.of_nat (length bytes) <=? max_bytes)%N (fetch_error FetchResponseTooLarge) in
  Ok bytes.

Section decoder.
Context `{Codec, BodyCrates}.

Record DeclaredContent : Set := mk_DeclaredContent {
  dc_kind : FetchContentKind;
  dc_encoding : option Encoding
}.

Definition mime_kind (parsed : Mime) : Result FetchProviderError FetchContentKind :=
  let media (t s : string) :=
    bool_decide (mime_type_ parsed = t) && bool_decide (mime_subtype parsed = s) in
  if media "text" "html" then Ok KindHtml
  else if media "text" "plain" then Ok KindPlainText
  else if bool_decide (mime_type_ parsed = "application"%string)
          && (bool_decide (mime_subtype parsed = "json"%string)
              || bool_decide (mime_suffix parsed = Some "json"%string)) then Ok KindJson
  else if media "application" "xhtml" && bool_decide (mime_suffix parsed = Some "xml"%string)
  then Ok KindHtml
  else Err (fetch_error FetchUnsupportedMime).

Definition declared_content (value : option string)
    : Result FetchProviderError (option DeclaredContent) :=
  transpose_map
    (λ value,
       let? parsed := ok_or (parse_mime value) (fetch_error FetchUnsupportedMime) in
       let? kind := mime_kind parsed in
       let? encoding :=
         transpose_map
           (λ label, ok_or (encoding_for_label label) (fetch_error FetchUnsupportedMime))
           (mime_charset parsed) in
       Ok (mk_DeclaredContent kind encoding)) value.

Definition select_encoding (declared : option DeclaredContent) (kind : FetchContentKind)
    (bs : list N) : Result FetchProviderError (Encoding * nat) :=
  let allowed (encoding : Encoding) :=
    negb (bool_decide (kind = KindJson) && negb (bool_decide (encoding = UTF_8))) in
  match encoding_for_bom bs with
  | Some (encoding, bom_bytes) =>
      try? ensure (allowed encoding) (fetch_error FetchMalformedResponse) in
      Ok (encoding, bom_bytes)
  | None =>
      let encoding := default UTF_8 (declared ≫= dc_encoding) in
      try? ensure (allowed encoding) (fetch_error FetchMalformedResponse) in
      Ok (encoding, 0)
  end.

Definition decode_text (bs : list N) (encoding : Encoding * nat)
    : Result FetchProviderError string :=
  let '(text, had_errors) := encoding_decode encoding.1 (drop encoding.2 bs) in
  try? ensure (negb (had_errors || contains_nul text)) (fetch_error FetchMalformedResponse) in
  Ok text.

Definition decode_content_encoding (encoding : option string) (raw : list N) (max_bytes : N)
    : Result FetchProviderError (list N) :=
  match encoding with
  | None => bounded_identity raw max_bytes
  | Some encoding =>
      let name := string_of_chars (to_ascii_lowercase <$> trim_chars (chars encoding)) in
      let named (names : list string) := existsb (String.eqb name) names in
      if named ["";"identity"]%string then bounded_identity raw max_bytes
      else if named ["gzip"; "x-gzip"]%string then read_bounded (decompress Gzip raw) max_bytes
      else if named ["deflate"]%string then
        match read_bounded (decompress Zlib raw) max_bytes with
        | Err error =>
            if bool_decide (fpe_code error = FetchMalformedResponse)
            then read_bounded (decompress Deflate raw) max_bytes else Err error
        | Ok bytes => Ok bytes
        end
      else if named ["br"]%string then read_bounded (decompress Brotli raw) max_bytes
      else Err (fetch_error FetchUnsupportedMime)
  end.

Definition extract_html (limits : FetchBodyLimits) (html : string)
    : Result FetchProviderError (option string * list N) :=
  try? ensure (negb ((fbl_html_bytes limits <? str_len html)%N
                     || (fbl_html_elements limits
                         <? N.of_nat (length (List.filter (N.eqb 60) (bytes html))))%N))
         (fetch_error FetchResponseTooLarge) in
  let title := bounded_title (normalize_inline_text (chars (document_title html))) in
  let visible_text := default (document_text html) (document_body html) in
  Ok (title, normalize_plain_text (trim_chars (chars visible_text))).

(** [FetchBodyDecoder::decode]. *)
Definition decode_body (limits : FetchBodyLimits) (headers : FetchHttpHeaders) (raw : list N)
    (max_chars : N) : Result FetchProviderError DecodedFetchBody :=
  try? ensure ((1 <=? max_chars)%N && (max_chars <=? MAX_FETCH_MAX_CHARS)%N)
         (fetch_error FetchInvalidRequest) in
  let? decoded :=
    decode_content_encoding (fhh_encoding headers) raw (fbl_decoded_bytes limits) in
  let? declared := declared_content (fhh_mime headers) in
  let? kind := select_kind (dc_kind <$> declared) (sniff_content decoded) in
  let? encoding := select_encoding declared kind decoded in
  let? text := decode_text decoded encoding in
  let? extracted :=
    match kind with
    | KindHtml => extract_html limits text
    | KindPlainText => Ok (None, normalize_plain_text (chars text))
    | KindJson =>
        try? ensure (bool_decide (is_Some (json_parse text))) (fetch_error FetchMalformedResponse) in
        Ok (None, normalize_plain_text (trim_chars (chars text)))
    end in
  let '(title, body) := extracted in
  let '(body, truncation) := truncate_body body max_chars in
  Ok (mk_DecodedFetchBody kind title (string_of_chars body) truncation
        (N.of_nat (length decoded))).

End decoder.
