(* ===== verification/FetchCache.v ===== *)
(** * Web fetch: the result cache

    [crates/tea-coding-tools/src/web_fetch/cache.rs].  The mutex makes every
    operation atomic, and its poisoning is ignored by the code; an [Instant] is
    its nanoseconds.  [size_of] of a struct is a parameter. *)

From S2P Require Import Prelude Ordering Utf8 KernelBase FetchAddress FetchUrl FetchData FetchHttp FetchBody.
Local Open Scope tea_scope.

Definition MAX_FETCH_CACHE_TTL : Duration := from_secs 3600.
Definition MAX_FETCH_CACHE_ENTRIES : N := 1024.
Definition MAX_FETCH_CACHE_TOTAL_BYTES : N := 67108864.
Definition MAX_FETCH_CACHE_ENTRY_BYTES : N := 4194304.
Definition MAX_FETCH_CACHE_SCOPE_BYTES : N := 4096.
Definition CACHE_ENTRY_OVERHEAD_BYTES : N := 512.

Record FetchCacheConfig : Set := mk_FetchCacheConfig {
  fcc_ttl : Duration;
  fcc_entries : N;
  fcc_total_bytes : N;
  fcc_entry_bytes : N
}.

Definition cache_config_new (ttl : Duration) (max_entries max_total_bytes max_entry_bytes : N)
    : Result FetchProviderError FetchCacheConfig :=
  try? ensure (negb ((ttl =? 0)%N || (MAX_FETCH_CACHE_TTL <? ttl)%N
                     || negb ((1 <=? max_entries)%N && (max_entries <=? MAX_FETCH_CACHE_ENTRIES)%N)
                     || negb ((1 <=? max_total_bytes)%N
                              && (max_total_bytes <=? MAX_FETCH_CACHE_TOTAL_BYTES)%N)
                     || negb ((1 <=? max_entry_bytes)%N
                              && (max_entry_bytes <=? MAX_FETCH_CACHE_ENTRY_BYTES)%N)
                     || (max_total_bytes <? max_entry_bytes)%N))
         (fetch_error FetchInvalidConfiguration) in
  Ok (mk_FetchCacheConfig ttl max_entries max_total_bytes max_entry_bytes).

(** ** Keys *)

Record FetchCacheScope : Set := mk_FetchCacheScope {
  fcs_workspace : string;
  fcs_profile : string
}.

Definition validate_scope_component (value : string) : Result FetchProviderError string :=
  try? ensure (negb (bool_decide (value = ""%string))
               && (str_len value <=? MAX_FETCH_CACHE_SCOPE_BYTES)%N
               && negb (has_control (bytes value))) (fetch_error FetchInvalidConfiguration) in
  Ok value.

Definition cache_scope_new (workspace profile : string)
    : Result FetchProviderError FetchCacheScope :=
  let? workspace := validate_scope_component workspace in
  let? profile := validate_scope_component profile in
  Ok (mk_FetchCacheScope workspace profile).

Record FetchCachePolicyKey : Set := mk_FetchCachePolicyKey {
  fcp_policy_version : N;
  fcp_http_config : FetchHttpConfig;
  fcp_body_limits : FetchBodyLimits;
  fcp_accept : string;
  fcp_accept_encoding : string
}.

Record FetchCacheKey : Set := mk_FetchCacheKey {
  fck_scope : FetchCacheScope;
  fck_url : string;
  fck_max_chars : N;
  fck_policy : FetchCachePolicyKey
}.

(** The fields of a key in the order of its derived [Ord]: texts and numbers. *)
Definition key_texts (key : FetchCacheKey) : string * string * string :=
  (fcs_workspace (fck_scope key), fcs_profile (fck_scope key), fck_url key).

Definition timeout_fields (timeouts : FetchHttpTimeouts) : list N :=
  [fht_dns timeouts; fht_connect timeouts; fht_first_byte timeouts; fht_total timeouts;
   fht_low_speed_window timeouts; fht_low_speed_min_bytes timeouts].

Definition bool_number (b : bool) : N := if b then 1%N else 0%N.

Definition key_numbers (key : FetchCacheKey) : list N :=
  let policy := fck_policy key in
  let http := fcp_http_config policy in
  let limits := fcp_body_limits policy in
  [fck_max_chars key; fcp_policy_version policy;
   bool_number (fup_allow_loopback_http (fhc_url_policy http));
   bool_number (fap_allow_loopback (fhc_address_policy http))]
  ++ timeout_fields (fhc_timeouts http)
  ++ [fhl_max_redirects (fhc_limits http); fhl_max_response_bytes (fhc_limits http);
      fbl_decoded_bytes limits; fbl_html_bytes limits; fbl_html_elements limits].

Fixpoint compare_numbers (xs ys : list N) : comparison :=
  match xs, ys with
  | [], [] => Eq
  | [], _ => Lt
  | _, [] => Gt
  | x :: xs, y :: ys => match N.compare x y with Eq => compare_numbers xs ys | c => c end
  end.

Definition key_compare : FetchCacheKey → FetchCacheKey → comparison :=
  compare_then (compare_on (λ k, (key_texts k).1.1) String.compare)
    (compare_then (compare_on (λ k, (key_texts k).1.2) String.compare)
      (compare_then (compare_on (λ k, (key_texts k).2) String.compare)
        (compare_then (compare_on key_numbers compare_numbers)
          (compare_then (compare_on (λ k, fcp_accept (fck_policy k)) String.compare)
            (compare_on (λ k, fcp_accept_encoding (fck_policy k)) String.compare))))).

Definition cache_key_leb : FetchCacheKey → FetchCacheKey → bool := not_greater key_compare.

#[export] Instance FetchCacheScope_eq_dec : EqDecision FetchCacheScope.
Proof. solve_decision. Defined.
#[export] Instance FetchCachePolicyKey_eq_dec : EqDecision FetchCachePolicyKey.
Proof. solve_decision. Defined.
#[export] Instance FetchCacheKey_eq_dec : EqDecision FetchCacheKey.
Proof. solve_decision. Defined.

#[export] Instance FetchHttpConfig_countable : Countable FetchHttpConfig.
Proof.
  refine (inj_countable'
    (λ c, (fup_allow_loopback_http (fhc_url_policy c), fap_allow_loopback (fhc_address_policy c),
           (fht_dns (fhc_timeouts c), fht_connect (fhc_timeouts c), fht_first_byte (fhc_timeouts c),
            fht_total (fhc_timeouts c), fht_low_speed_window (fhc_timeouts c),
            fht_low_speed_min_bytes (fhc_timeouts c)),
           (fhl_max_redirects (fhc_limits c), fhl_max_response_bytes (fhc_limits c))))
    (λ '(u, a, (dns, connect, first_byte, total, window, bytes), (redirects, response)),
       mk_FetchHttpConfig (mk_FetchUrlPolicy u) (mk_FetchAddressPolicy a)
         (mk_FetchHttpTimeouts dns connect first_byte total window bytes)
         (mk_FetchHttpLimits redirects response)) _).
  by intros [[] [] [] []].
Defined.

#[export] Instance FetchCacheKey_countable : Countable FetchCacheKey.
Proof.
  refine (inj_countable'
    (λ k, (fcs_workspace (fck_scope k), fcs_profile (fck_scope k), fck_url k, fck_max_chars k,
           fcp_policy_version (fck_policy k), fcp_http_config (fck_policy k),
           (fbl_decoded_bytes (fcp_body_limits (fck_policy k)),
            fbl_html_bytes (fcp_body_limits (fck_policy k)),
            fbl_html_elements (fcp_body_limits (fck_policy k))),
           fcp_accept (fck_policy k), fcp_accept_encoding (fck_policy k)))
    (λ '(w, p, u, m, v, h, (d, b, e), a, ae),
       mk_FetchCacheKey (mk_FetchCacheScope w p) u m
         (mk_FetchCachePolicyKey v h (mk_FetchBodyLimits d b e) a ae)) _).
  by intros [[] ? ? [? ? [] ? ?]].
Defined.

(** ** The cache *)

Record CacheEntry : Set := mk_CacheEntry {
  ce_result : FetchResult;
  ce_expires_at : Duration;
  ce_last_access : N;
  ce_logical_bytes : N
}.

Record CacheState : Set := mk_CacheState {
  cst_entries : gmap FetchCacheKey CacheEntry;
  cst_logical_bytes : N;
  cst_access : N
}.

Definition cache_empty : CacheState := mk_CacheState ∅ 0 0.

Definition result_logical_bytes (result : FetchResult) : N :=
  foldl saturating_add (str_len (fres_requested_url result))
    [str_len (fres_final_url result);
     match fres_title result with Some title => str_len title | None => 0%N end;
     str_len (fres_mime_type result); str_len (fres_body result);
     foldl saturating_add 0%N
       ((λ redirect, saturating_add (saturating_add (str_len (fd_from redirect))
                                       (str_len (fd_to redirect))) 2)
          <$> fres_redirects result)].

Definition cache_remove (key : FetchCacheKey) (state : CacheState) : CacheState :=
  match cst_entries state !! key with
  | Some entry =>
      mk_CacheState (delete key (cst_entries state))
        (cst_logical_bytes state - ce_logical_bytes entry) (cst_access state)
  | None => state
  end.

Definition purge_expired (now : Duration) (state : CacheState) : CacheState :=
  let expired :=
    omap (λ entry : FetchCacheKey * CacheEntry,
            if (ce_expires_at entry.2 <=? now)%N then Some entry.1 else None)
      (btree_entries cache_key_leb (cst_entries state)) in
  foldl (λ state key, cache_remove key state) state expired.

(** [min_by_key]: the first of the entries with the least access. *)
Fixpoint least_recent (entries : list (FetchCacheKey * CacheEntry))
    : option (FetchCacheKey * CacheEntry) :=
  match entries with
  | [] => None
  | entry :: entries =>
      match least_recent entries with
      | Some other =>
          if (ce_last_access other.2 <? ce_last_access entry.2)%N then Some other else Some entry
      | None => Some entry
      end
  end.

Definition evict_least_recently_used (state : CacheState) : bool * CacheState :=
  match least_recent (btree_entries cache_key_leb (cst_entries state)) with
  | Some (key, _) => (true, cache_remove key state)
  | None => (false, state)
  end.

(** The entries numbered in the order of their keys. *)
Definition renumbered (entries : gmap FetchCacheKey CacheEntry)
    : gmap FetchCacheKey CacheEntry :=
  list_to_map
    (imap (λ index (entry : FetchCacheKey * CacheEntry),
             (entry.1, mk_CacheEntry (ce_result entry.2) (ce_expires_at entry.2) (N.of_nat index)
                         (ce_logical_bytes entry.2)))
       (btree_entries cache_key_leb entries)).

Definition next_access (state : CacheState) : N * CacheState :=
  let state :=
    if (cst_access state =? U64_MAX)%N
    then mk_CacheState (renumbered (cst_entries state)) (cst_logical_bytes state)
           (N.of_nat (size (cst_entries state)))
    else state in
  (cst_access state,
   mk_CacheState (cst_entries state) (cst_logical_bytes state)
     (saturating_add (cst_access state) 1)).

(** The loop that makes room; each round removes an entry. *)
Fixpoint evict_loop (fuel : nat) (config : FetchCacheConfig) (logical_bytes : N)
    (state : CacheState) : CacheState :=
  match fuel with
  | O => state
  | S fuel =>
      if (fcc_entries config <=? N.of_nat (size (cst_entries state)))%N
         || (fcc_total_bytes config <? saturating_add (cst_logical_bytes state) logical_bytes)%N
      then
        let '(evicted, state) := evict_least_recently_used state in
        if evicted then evict_loop fuel config logical_bytes state else state
      else state
  end.

Section cache.
Context (policy_key_size : N).

Definition key_logical_bytes (key : FetchCacheKey) : N :=
  foldl saturating_add CACHE_ENTRY_OVERHEAD_BYTES
    [str_len (fcs_workspace (fck_scope key)); str_len (fcs_profile (fck_scope key));
     str_len (fck_url key); str_len (fcp_accept (fck_policy key));
     str_len (fcp_accept_encoding (fck_policy key)); 8%N; policy_key_size].

Definition entry_bytes (key : FetchCacheKey) (result : FetchResult) : N :=
  saturating_add (key_logical_bytes key) (result_logical_bytes result).

Definition cache_get_at (key : FetchCacheKey) (now : Duration) (state : CacheState)
    : option FetchResult * CacheState :=
  let state := purge_expired now state in
  match cst_entries state !! key with
  | None => (None, state)
  | Some _ =>
      let '(access, state) := next_access state in
      match cst_entries state !! key with
      | Some entry =>
          (Some (ce_result entry),
           mk_CacheState
             (<[key := mk_CacheEntry (ce_result entry) (ce_expires_at entry) access
                         (ce_logical_bytes entry)]> (cst_entries state))
             (cst_logical_bytes state) (cst_access state))
      | None => (None, state)
      end
  end.

Definition cache_insert_at (config : FetchCacheConfig) (key : FetchCacheKey)
    (result : FetchResult) (now : Duration) (state : CacheState) : CacheState :=
  let logical_bytes := entry_bytes key result in
  if (fcc_entry_bytes config <? logical_bytes)%N || (fcc_total_bytes config <? logical_bytes)%N
  then state
  else
    let state := cache_remove key (purge_expired now state) in
    let state := evict_loop (S (size (cst_entries state))) config logical_bytes state in
    let '(last_access, state) := next_access state in
    mk_CacheState
      (<[key := mk_CacheEntry result (now + fcc_ttl config) last_access logical_bytes]>
         (cst_entries state))
      (saturating_add (cst_logical_bytes state) logical_bytes) (cst_access state).

(** [stats]: the entries and their bytes. *)
Definition cache_stats (now : Duration) (state : CacheState) : (N * N) * CacheState :=
  let state := purge_expired now state in
  ((N.of_nat (size (cst_entries state)), cst_logical_bytes state), state).

(** The operations on a shared cache, in the order the mutex gives them. *)
Inductive CacheOperation : Set :=
| CacheGet (key : FetchCacheKey) (now : Duration)
| CacheInsert (key : FetchCacheKey) (result : FetchResult) (now : Duration)
| CacheStats (now : Duration)
| CacheClear.

Definition cache_operate (config : FetchCacheConfig) (state : CacheState)
    (operation : CacheOperation) : CacheState :=
  match operation with
  | CacheGet key now => (cache_get_at key now state).2
  | CacheInsert key result now => cache_insert_at config key result now state
  | CacheStats now => (cache_stats now state).2
  | CacheClear => cache_empty
  end.

Definition cache_run (config : FetchCacheConfig) (operations : list CacheOperation)
    (state : CacheState) : CacheState :=
  foldl (cache_operate config) state operations.

End cache.
