(* ===== verification/FetchCacheTheorems.v ===== *)
(** * Web fetch: what the cache promises

    The cache is within its bounds after any operations, and a hit is what a
    reference cache without bounds holds under the key. *)

From S2P Require Import Prelude Ordering Utf8 KernelBase FetchAddress FetchUrl FetchData FetchHttp FetchBody FetchCache.
Local Open Scope tea_scope.

(** ** Entries without their access numbers *)

Definition stored (entry : CacheEntry) : FetchResult * Duration * N :=
  (ce_result entry, ce_expires_at entry, ce_logical_bytes entry).

Definition total_bytes (entries : gmap FetchCacheKey CacheEntry) : N :=
  map_fold (λ _ (entry : FetchResult * Duration * N) total, (entry.2 + total)%N) 0%N
    (stored <$> entries).

Lemma total_bytes_delete entries key entry :
  entries !! key = Some entry →
  total_bytes entries = (ce_logical_bytes entry + total_bytes (delete key entries))%N.
Proof.
  intros Hkey. unfold total_bytes. rewrite fmap_delete.
  rewrite (map_fold_delete_L _ _ key (stored entry) (stored <$> entries)); [done|lia|].
  by rewrite lookup_fmap, Hkey.
Qed.

Lemma total_bytes_insert entries key entry :
  entries !! key = None →
  total_bytes (<[key := entry]> entries) = (ce_logical_bytes entry + total_bytes entries)%N.
Proof.
  intros Hkey. unfold total_bytes. rewrite fmap_insert.
  rewrite map_fold_insert_L; [done|intros; lia|]. by rewrite lookup_fmap, Hkey.
Qed.

Lemma elem_of_btree_entries (entries : gmap FetchCacheKey CacheEntry) key entry :
  (key, entry) ∈ btree_entries cache_key_leb entries ↔ entries !! key = Some entry.
Proof. unfold btree_entries. rewrite elem_of_stable_sort. apply elem_of_map_to_list. Qed.

Lemma list_to_map_btree (entries : gmap FetchCacheKey CacheEntry) :
  list_to_map (btree_entries cache_key_leb entries) = entries.
Proof.
  unfold btree_entries. rewrite <- (list_to_map_to_list entries) at 2.
  apply list_to_map_proper; [|apply stable_sort_perm].
  rewrite stable_sort_perm. apply NoDup_fst_map_to_list.
Qed.

(** Numbering the entries anew changes their numbers only. *)
Lemma renumbered_stored entries : stored <$> renumbered entries = stored <$> entries.
Proof.
  rewrite <- (list_to_map_btree entries) at 2. unfold renumbered.
  rewrite <- !list_to_map_fmap. f_equal. rewrite fmap_imap.
  rewrite (imap_ext _ (λ _ entry, prod_map id stored entry)); [|by intros i []].
  apply imap_const.
Qed.

Lemma renumbered_lookup entries key entry :
  renumbered entries !! key = Some entry →
  ∃ before, entries !! key = Some before ∧ stored before = stored entry ∧
    (ce_last_access entry < N.of_nat (size entries))%N.
Proof.
  intros Hkey. assert (stored <$> entries !! key = Some (stored entry)) as Hstored.
  { rewrite <- lookup_fmap, <- renumbered_stored, lookup_fmap. by rewrite Hkey. }
  apply fmap_Some in Hstored as (before & Hbefore & Heq). exists before. split_and!; [done..|].
  unfold renumbered in Hkey. apply elem_of_list_to_map_2 in Hkey.
  apply list_elem_of_lookup in Hkey as [i Hi]. rewrite list_lookup_imap in Hi.
  destruct (btree_entries cache_key_leb entries !! i) as [[k e]|] eqn:Hentry; [|done].
  injection Hi as -> <-. simpl. apply lookup_lt_Some in Hentry.
  unfold btree_entries in Hentry. rewrite stable_sort_perm, length_map_to_list in Hentry. lia.
Qed.

(** ** The invariant *)

Section cache.
Context (policy_key_size : N) (config : FetchCacheConfig).

Notation entry_bytes := (entry_bytes policy_key_size).

(** Every entry accounts for its bytes and was used before the next access;
    the total is theirs. *)
Record cache_accounts (state : CacheState) : Prop := mk_cache_accounts {
  ca_bytes : cst_logical_bytes state = total_bytes (cst_entries state);
  ca_entries key entry :
    cst_entries state !! key = Some entry →
    ce_logical_bytes entry = entry_bytes key (ce_result entry) ∧
    (ce_logical_bytes entry <= fcc_entry_bytes config)%N
}.

Record cache_bounds (state : CacheState) : Prop := mk_cache_bounds {
  cb_accounts : cache_accounts state;
  cb_count : (N.of_nat (size (cst_entries state)) <= fcc_entries config)%N;
  cb_total : (cst_logical_bytes state <= fcc_total_bytes config)%N
}.

(** [state'] holds some of the entries of [state]. *)
Definition shrinks (state state' : CacheState) : Prop :=
  stored <$> cst_entries state' ⊆ stored <$> cst_entries state ∧
  (cst_logical_bytes state' <= cst_logical_bytes state)%N ∧
  size (cst_entries state') ≤ size (cst_entries state).

#[local] Instance shrinks_refl : Reflexive shrinks.
Proof. intros state. by split_and!. Qed.
#[local] Instance shrinks_trans : Transitive shrinks.
Proof.
  intros s1 s2 s3 (H1 & H2 & H3) (H4 & H5 & H6). split_and!; [by etrans|lia|lia].
Qed.

Lemma shrinks_lookup state state' key entry :
  shrinks state state' → cst_entries state' !! key = Some entry →
  ∃ before, cst_entries state !! key = Some before ∧ stored before = stored entry.
Proof.
  intros (Hsub & _) Hkey.
  assert (stored <$> cst_entries state !! key = Some (stored entry)) as Hstored.
  { rewrite <- lookup_fmap. eapply lookup_weaken; [|exact Hsub]. by rewrite lookup_fmap, Hkey. }
  apply fmap_Some in Hstored as (before & ? & ?). by exists before.
Qed.

Lemma shrinks_bounds state state' :
  shrinks state state' → cache_accounts state' → cache_bounds state → cache_bounds state'.
Proof. intros (_ & Hb & Hs) Ha [_ Hc Ht]. split; [done|lia|lia]. Qed.

Lemma cache_remove_spec key state :
  cache_accounts state →
  cache_accounts (cache_remove key state) ∧ shrinks state (cache_remove key state) ∧
  cst_entries (cache_remove key state) = delete key (cst_entries state) ∧
  cst_access (cache_remove key state) = cst_access state.
Proof.
  intros [Hbytes Hentries]. unfold cache_remove.
  destruct (cst_entries state !! key) as [entry|] eqn:Hkey.
  - pose proof (total_bytes_delete _ _ _ Hkey) as Htotal. split_and!; simpl; [|..|done|done].
    + split; simpl; [lia|]. intros key' entry' [_ Hkey']%lookup_delete_Some. by apply Hentries.
    + split_and!; simpl; [rewrite fmap_delete; apply delete_subseteq|lia|].
      rewrite map_size_delete_Some by by eexists. lia.
  - split_and!; [by split|apply reflexivity| |done]. by rewrite delete_id.
Qed.

(** A relation that every removal keeps. *)
Lemma cache_remove_all (keys : list FetchCacheKey) state :
  cache_accounts state →
  let state' := foldl (λ state key, cache_remove key state) state keys in
  cache_accounts state' ∧ shrinks state state' ∧ cst_access state' = cst_access state ∧
  ∀ key, cst_entries state' !! key = if bool_decide (key ∈ keys) then None else cst_entries state !! key.
Proof.
  revert state. induction keys as [|key keys IH]; intros state Ha; simpl.
  { split_and!; [done|apply reflexivity|done|done]. }
  destruct (cache_remove_spec key state Ha) as (Ha1 & Hs1 & He1 & Hacc1).
  destruct (IH _ Ha1) as (Ha2 & Hs2 & Hacc2 & He2). split_and!; [done|by etrans|congruence|].
  intros key'. rewrite He2, He1. case_bool_decide as Hin; case_bool_decide as Hin'.
  - done.
  - exfalso. apply Hin'. by right.
  - apply elem_of_cons in Hin' as [->|?]; [apply lookup_delete_eq|done].
  - apply lookup_delete_ne. intros ->. apply Hin'. by left.
Qed.

Lemma purge_expired_spec now state :
  cache_accounts state →
  cache_accounts (purge_expired now state) ∧ shrinks state (purge_expired now state) ∧
  ∀ key entry, cst_entries (purge_expired now state) !! key = Some entry ↔
    cst_entries state !! key = Some entry ∧ (now < ce_expires_at entry)%N.
Proof.
  intros Ha. unfold purge_expired. set (expired := omap _ _).
  destruct (cache_remove_all expired state Ha) as (Ha' & Hs & _ & Hlookup).
  split_and!; [done..|]. intros key entry. rewrite Hlookup.
  assert (∀ e, cst_entries state !! key = Some e → key ∈ expired ↔ (ce_expires_at e <= now)%N)
    as Hexpired.
  { intros e He. unfold expired. rewrite list_elem_of_omap. split.
    - intros ([k e'] & Hin%elem_of_btree_entries & Hif). simpl in Hif.
      destruct (_ <=? _)%N eqn:Hle; [|done]. injection Hif as ->. rewrite He in Hin.
      injection Hin as ->. by apply N.leb_le.
    - intros Hle. exists (key, e). rewrite elem_of_btree_entries. split; [done|]. simpl.
      apply N.leb_le in Hle. by rewrite Hle. }
  case_bool_decide as Hin.
  - split; [done|]. intros [He Hnow]. apply (Hexpired _ He) in Hin. lia.
  - split; [|by intros [? _]]. intros He. split; [done|].
    apply N.lt_nge. intros Hle. by apply Hin, (Hexpired _ He).
Qed.

Lemma next_access_spec state :
  cache_accounts state →
  cache_accounts (next_access state).2 ∧
  stored <$> cst_entries (next_access state).2 = stored <$> cst_entries state ∧
  cst_logical_bytes (next_access state).2 = cst_logical_bytes state.
Proof.
  intros Ha.
  assert (stored <$> cst_entries (next_access state).2 = stored <$> cst_entries state) as Hstored.
  { unfold next_access. destruct (_ =? _)%N; simpl; [apply renumbered_stored|done]. }
  assert (cst_logical_bytes (next_access state).2 = cst_logical_bytes state) as Hbytes.
  { unfold next_access. by destruct (_ =? _)%N. }
  split_and!; [|done..]. destruct Ha as [Hb He]. split.
  - rewrite Hbytes, Hb. unfold total_bytes. by rewrite Hstored.
  - intros key entry Hkey.
    assert (stored <$> cst_entries state !! key = Some (stored entry)) as Hk.
    { rewrite <- lookup_fmap, <- Hstored, lookup_fmap. by rewrite Hkey. }
    apply fmap_Some in Hk as (before & Hbefore & Heq). destruct (He _ _ Hbefore) as [H1 H2].
    unfold stored in Heq. injection Heq as -> _ ->. done.
Qed.

Lemma next_access_size state :
  size (cst_entries (next_access state).2) = size (cst_entries state).
Proof.
  unfold next_access. destruct (_ =? _)%N; simpl; [|done].
  rewrite <- (map_size_fmap stored), renumbered_stored. apply map_size_fmap.
Qed.

Lemma least_recent_spec entries :
  match least_recent entries with
  | Some entry => entry ∈ entries ∧ ∀ other, other ∈ entries →
      (ce_last_access entry.2 <= ce_last_access other.2)%N
  | None => entries = []
  end.
Proof.
  induction entries as [|entry entries IH]; [done|]. cbn [least_recent].
  destruct (least_recent entries) as [best|].
  - destruct IH as [Hin Hbest]. destruct (N.ltb_spec (ce_last_access best.2) (ce_last_access entry.2)).
    + split; [by right|]. intros other [->|Hother]%elem_of_cons; [lia|by apply Hbest].
    + split; [by left|]. intros other [->|Hother]%elem_of_cons; [lia|].
      specialize (Hbest other Hother). lia.
  - subst entries. split; [by left|]. intros other [->|Hnil]%elem_of_cons; [done|].
    by apply not_elem_of_nil in Hnil.
Qed.

(** What a round removes was not used after anything it keeps. *)
Definition evicts_oldest (state state' : CacheState) : Prop :=
  ∀ key entry, cst_entries state !! key = Some entry → cst_entries state' !! key = None →
  ∀ key' entry', cst_entries state' !! key' = Some entry' →
    (ce_last_access entry <= ce_last_access entry')%N.

Definition keeps_entries (state state' : CacheState) : Prop := cst_entries state' ⊆ cst_entries state.

Lemma evict_spec state :
  cache_accounts state →
  match evict_least_recently_used state with
  | (true, state') =>
      cache_accounts state' ∧ shrinks state state' ∧ keeps_entries state state' ∧
      evicts_oldest state state' ∧ S (size (cst_entries state')) = size (cst_entries state)
  | (false, state') => state' = state ∧ cst_entries state = ∅
  end.
Proof.
  intros Ha. unfold evict_least_recently_used.
  pose proof (least_recent_spec (btree_entries cache_key_leb (cst_entries state))) as Hleast.
  destruct (least_recent _) as [[key entry]|].
  - destruct Hleast as [Hin Hmin]. apply elem_of_btree_entries in Hin.
    destruct (cache_remove_spec key state Ha) as (Ha' & Hs & He & _).
    split_and!; [done..| | |].
    + unfold keeps_entries. rewrite He. apply delete_subseteq.
    + intros k e Hk Hnone k' e' Hk'. rewrite He in Hnone, Hk'.
      apply lookup_delete_None in Hnone as [<-|Hnone]; [|congruence].
      rewrite Hk in Hin. injection Hin as ->.
      apply lookup_delete_Some in Hk' as [_ Hk'%elem_of_btree_entries]. apply (Hmin _ Hk').
    + rewrite He, map_size_delete_Some by by eexists.
      assert (size (cst_entries state) ≠ 0); [|lia].
      intros Hz%map_size_empty_inv. rewrite Hz in Hin. by rewrite lookup_empty in Hin.
  - split; [done|]. rewrite <- (list_to_map_btree (cst_entries state)), Hleast. done.
Qed.

Lemma evict_loop_spec fuel bytes state :
  cache_accounts state → size (cst_entries state) < fuel →
  let state' := evict_loop fuel config bytes state in
  cache_accounts state' ∧ shrinks state state' ∧ keeps_entries state state' ∧
  evicts_oldest state state' ∧
  ((1 <= fcc_entries config)%N → (bytes <= fcc_total_bytes config < U64_MAX)%N →
   (N.of_nat (size (cst_entries state')) < fcc_entries config)%N ∧
   (cst_logical_bytes state' + bytes <= fcc_total_bytes config)%N).
Proof.
  revert state. induction fuel as [|fuel IH]; intros state Ha Hfuel; [lia|]. cbn [evict_loop].
  destruct (_ || _) eqn:Hfull.
  2: { apply orb_false_iff in Hfull as [Hc%N.leb_gt Ht%N.ltb_ge]. unfold saturating_add in Ht.
       split_and!; [done|apply reflexivity|unfold keeps_entries; done| |lia].
       intros k e Hk Hnone. congruence. }
  pose proof (evict_spec state Ha) as Hevict.
  destruct (evict_least_recently_used state) as [[|] state1].
  - destruct Hevict as (Ha1 & Hs1 & Hk1 & Ho1 & Hsize).
    destruct (IH state1 Ha1 ltac:(lia)) as (Ha2 & Hs2 & Hk2 & Ho2 & Hroom).
    split_and!; [done|by etrans|unfold keeps_entries in *; by etrans| |done].
    intros k e Hk Hnone k' e' Hk'.
    destruct (cst_entries state1 !! k) as [e1|] eqn:Hk1'.
    + pose proof (lookup_weaken _ _ _ _ Hk1' Hk1) as Hsame. rewrite Hk in Hsame.
      injection Hsame as ->. by apply (Ho2 k e1 Hk1' Hnone k' e').
    + apply (Ho1 k e Hk Hk1' k' e'). by eapply lookup_weaken.
  - destruct Hevict as [-> Hempty].
    split_and!; [done|apply reflexivity|unfold keeps_entries; done| |].
    + intros k e Hk Hnone. congruence.
    + intros Hone [Hbytes Hmax]. destruct Ha as [Hb _]. rewrite Hempty in *.
      unfold total_bytes in Hb. rewrite fmap_empty, map_fold_empty in Hb. rewrite map_size_empty. lia.
Qed.

(** ** Operations *)

Lemma bounds_shrink state state' :
  cache_bounds state → cache_accounts state' ∧ shrinks state state' → cache_bounds state'.
Proof. intros Hb [Ha Hs]. by eapply shrinks_bounds. Qed.

Lemma next_access_shrinks state :
  cache_accounts state → shrinks state (next_access state).2.
Proof.
  intros Ha. destruct (next_access_spec state Ha) as (_ & Hs & Hb).
  split_and!; [by rewrite Hs|lia|by rewrite next_access_size].
Qed.

(** A hit is an entry that has not expired; looking up keeps the entries that
    have not. *)
Lemma cache_get_at_spec key now state :
  cache_accounts state →
  cache_accounts (cache_get_at key now state).2 ∧ shrinks state (cache_get_at key now state).2 ∧
  ∀ result, (cache_get_at key now state).1 = Some result →
    ∃ entry, cst_entries state !! key = Some entry ∧ ce_result entry = result ∧
      (now < ce_expires_at entry)%N.
Proof.
  intros Ha. destruct (purge_expired_spec now state Ha) as (Ha1 & Hs1 & He1). unfold cache_get_at.
  destruct (cst_entries (purge_expired now state) !! key) as [entry1|] eqn:Hkey; [|done].
  destruct (next_access_spec _ Ha1) as (Ha2 & Hst2 & Hb2). pose proof (next_access_shrinks _ Ha1) as Hs2.
  destruct (next_access (purge_expired now state)) as [access state2]. simpl in *.
  destruct (cst_entries state2 !! key) as [entry|] eqn:Hkey2; [|by split_and!; [|etrans|]].
  assert (stored <$> <[key := mk_CacheEntry (ce_result entry) (ce_expires_at entry) access
    (ce_logical_bytes entry)]> (cst_entries state2) = stored <$> cst_entries state2) as Hsame.
  { rewrite fmap_insert. apply insert_id. rewrite lookup_fmap, Hkey2. done. }
  split_and!.
  - destruct Ha2 as [Hb He]. split; simpl.
    + rewrite Hb. unfold total_bytes. by rewrite Hsame.
    + intros k e [[<- <-]|[_ Hk]]%lookup_insert_Some; [simpl; by apply He|by apply He].
  - etrans; [exact Hs1|]. etrans; [exact Hs2|]. split_and!; simpl; [by rewrite Hsame|lia|].
    rewrite <- (map_size_fmap stored), Hsame, map_size_fmap. lia.
  - intros result [= <-]. destruct (shrinks_lookup _ _ _ _ Hs2 Hkey2) as (before & Hbefore & Heq).
    rewrite Hkey in Hbefore. injection Hbefore as <-. apply He1 in Hkey as [Hkey Hnow].
    exists entry1. unfold stored in Heq. injection Heq as -> _ _. done.
Qed.

Lemma cache_get_at_hit key now state entry :
  cache_accounts state → cst_entries state !! key = Some entry → (now < ce_expires_at entry)%N →
  (cache_get_at key now state).1 = Some (ce_result entry).
Proof.
  intros Ha Hkey Hnow. destruct (purge_expired_spec now state Ha) as (Ha1 & _ & He1).
  assert (cst_entries (purge_expired now state) !! key = Some entry) as Hkey1 by by apply He1.
  unfold cache_get_at. rewrite Hkey1.
  destruct (next_access_spec _ Ha1) as (_ & Hst & _).
  assert (stored <$> cst_entries (next_access (purge_expired now state)).2 !! key = Some (stored entry))
    as Hstored by by rewrite <- lookup_fmap, Hst, lookup_fmap, Hkey1.
  destruct (next_access _) as [access state2]. simpl in *.
  apply fmap_Some in Hstored as (entry2 & -> & Heq). unfold stored in Heq.
  injection Heq as -> _ _. done.
Qed.

Definition fits (key : FetchCacheKey) (result : FetchResult) : bool :=
  negb ((fcc_entry_bytes config <? entry_bytes key result)%N
        || (fcc_total_bytes config <? entry_bytes key result)%N).

Definition valid_config : Prop :=
  (1 <= fcc_entries config)%N ∧ (fcc_total_bytes config < U64_MAX)%N.

(** An accepted insertion. *)
Lemma cache_insert_at_spec key result now state :
  valid_config → cache_bounds state → fits key result = true →
  let state' := cache_insert_at policy_key_size config key result now state in
  cache_bounds state' ∧
  (∃ entry, cst_entries state' !! key = Some entry ∧
     ce_result entry = result ∧ ce_expires_at entry = (now + fcc_ttl config)%N) ∧
  (∀ key' entry', key' ≠ key → cst_entries state' !! key' = Some entry' →
     ∃ before, cst_entries state !! key' = Some before ∧ stored before = stored entry' ∧
       ∀ victim entry, victim ≠ key → cst_entries state !! victim = Some entry →
         (now < ce_expires_at entry)%N → cst_entries state' !! victim = None →
         (ce_last_access entry <= ce_last_access before)%N).
Proof.
  intros [Hone Hmax] Hbounds Hfits. pose proof (cb_accounts _ Hbounds) as Ha.
  unfold cache_insert_at. unfold fits in Hfits. apply negb_true_iff in Hfits. rewrite Hfits.
  apply orb_false_iff in Hfits as [Hentry%N.ltb_ge Htotal%N.ltb_ge].
  destruct (purge_expired_spec now state Ha) as (Ha1 & Hs1 & He1).
  destruct (cache_remove_spec key _ Ha1) as (Ha2 & Hs2 & He2 & _).
  set (state2 := cache_remove key (purge_expired now state)) in *.
  destruct (evict_loop_spec (S (size (cst_entries state2))) (entry_bytes key result) state2 Ha2
    ltac:(lia)) as (Ha3 & Hs3 & Hk3 & Ho3 & Hroom).
  destruct (Hroom Hone ltac:(lia)) as [Hcount Hbytes]. clear Hroom.
  set (state3 := evict_loop _ _ _ _) in *.
  destruct (next_access_spec state3 Ha3) as (Ha4 & Hst4 & Hb4).
  pose proof (next_access_size state3) as Hsize4.
  pose proof (next_access_shrinks state3 Ha3) as Hs4.
  destruct (next_access state3) as [access state4]. simpl in *.
  assert (cst_entries state4 !! key = None) as Hfresh.
  { apply eq_None_not_Some. intros [e He]. destruct (shrinks_lookup _ _ _ _ Hs4 He) as (b & Hb & _).
    eapply lookup_weaken in Hb; [|exact Hk3]. rewrite He2 in Hb.
    by apply lookup_delete_Some in Hb as [? _]. }
  assert (saturating_add (cst_logical_bytes state4) (entry_bytes key result) =
    cst_logical_bytes state4 + entry_bytes key result)%N as Hadd
    by (unfold saturating_add; rewrite Hb4; lia).
  split_and!.
  - split; [split|..]; simpl.
    + rewrite Hadd, total_bytes_insert by done. simpl. destruct Ha4 as [-> _]. lia.
    + intros k e [[<- <-]|[_ Hk]]%lookup_insert_Some; [done|by apply (ca_entries _ Ha4)].
    + rewrite map_size_insert_None by done. lia.
    + rewrite Hadd, Hb4. lia.
  - eexists. by rewrite lookup_insert_eq.
  - intros key' entry' Hne. rewrite lookup_insert_ne by done. intros Hkey'.
    destruct (shrinks_lookup _ _ _ _ Hs4 Hkey') as (b3 & Hb3 & Heq).
    pose proof (lookup_weaken _ _ _ _ Hb3 Hk3) as Hb2. rewrite He2 in Hb2.
    apply lookup_delete_Some in Hb2 as [_ Hb1]. apply He1 in Hb1 as [Hb0 _].
    exists b3. split_and!; [done..|]. intros victim entry Hv Hentry0 Hnow Hnone.
    rewrite lookup_insert_ne in Hnone by done.
    assert (cst_entries state3 !! victim = None) as Hnone3.
    { apply (fmap_None stored). by rewrite <- lookup_fmap, <- Hst4, lookup_fmap, Hnone. }
    eapply (Ho3 victim entry); [|done|exact Hb3]. rewrite He2.
    apply lookup_delete_Some. split; [done|]. by apply He1.
Qed.

(** ** The reference cache *)

(** What was last inserted under a key and not cleared, with its expiry: a
    cache without bounds. *)
Definition reference_operate (key : FetchCacheKey) (held : option (FetchResult * Duration))
    (operation : CacheOperation) : option (FetchResult * Duration) :=
  match operation with
  | CacheInsert key' result now =>
      if bool_decide (key' = key) && fits key' result
      then Some (result, (now + fcc_ttl config)%N) else held
  | CacheClear => None
  | CacheGet _ _ | CacheStats _ => held
  end.

Definition reference (operations : list CacheOperation) (key : FetchCacheKey)
    : option (FetchResult * Duration) :=
  foldl (reference_operate key) None operations.

Definition agrees (operations : list CacheOperation) (state : CacheState) : Prop :=
  ∀ key entry, cst_entries state !! key = Some entry →
    reference operations key = Some (ce_result entry, ce_expires_at entry).

Lemma agrees_shrinks operations operation state state' :
  (∀ key held, reference_operate key held operation = held) →
  agrees operations state → shrinks state state' → agrees (operations ++ [operation]) state'.
Proof.
  intros Hsame Hagrees Hs key entry Hkey. unfold reference. rewrite foldl_snoc, Hsame.
  destruct (shrinks_lookup _ _ _ _ Hs Hkey) as (before & Hbefore & Heq).
  unfold stored in Heq. injection Heq as <- <- _. by apply Hagrees.
Qed.

Lemma empty_bounds : cache_bounds cache_empty.
Proof.
  split; [split; [done|]|simpl; rewrite map_size_empty; lia|simpl; lia].
  intros key entry Hkey. simpl in Hkey. by apply lookup_empty_Some in Hkey.
Qed.

Lemma cache_operate_spec operations operation state :
  valid_config → cache_bounds state → agrees operations state →
  let state' := cache_operate policy_key_size config state operation in
  cache_bounds state' ∧ agrees (operations ++ [operation]) state'.
Proof.
  intros Hvalid Hb Hagrees. pose proof (cb_accounts _ Hb) as Ha.
  destruct operation as [key now|key result now|now|]; simpl.
  - destruct (cache_get_at_spec key now state Ha) as (Ha' & Hs & _).
    split; [by eapply shrinks_bounds|by eapply agrees_shrinks].
  - destruct (fits key result) eqn:Hfits.
    + destruct (cache_insert_at_spec key result now state Hvalid Hb Hfits) as (Hb' & Hkey & Hothers).
      split; [done|]. intros k entry Hk. unfold reference. rewrite foldl_snoc. simpl. rewrite Hfits.
      case_bool_decide as Heq; simpl.
      * subst k. destruct Hkey as (e & He & <- & <-). rewrite He in Hk. by injection Hk as ->.
      * destruct (Hothers k entry (not_eq_sym Heq) Hk) as (before & Hbefore & Hst & _).
        unfold stored in Hst. injection Hst as <- <- _. by apply Hagrees.
    + unfold cache_insert_at. unfold fits in Hfits. apply negb_false_iff in Hfits as Htoo.
      rewrite Htoo. split; [done|]. intros k entry Hk. unfold reference. rewrite foldl_snoc. simpl.
      unfold fits. rewrite Htoo, andb_false_r. by apply Hagrees.
  - destruct (purge_expired_spec now state Ha) as (Ha' & Hs & _).
    split; [by eapply shrinks_bounds|by eapply agrees_shrinks].
  - split; [apply empty_bounds|]. intros key entry Hkey. simpl in Hkey. by apply lookup_empty_Some in Hkey.
Qed.

Lemma cache_run_spec operations :
  valid_config →
  cache_bounds (cache_run policy_key_size config operations cache_empty) ∧
  agrees operations (cache_run policy_key_size config operations cache_empty).
Proof.
  intros Hvalid. induction operations as [|operation operations IH] using rev_ind.
  { split; [apply empty_bounds|]. intros key entry Hkey. simpl in Hkey. by apply lookup_empty_Some in Hkey. }
  destruct IH as [Hb Hagrees]. unfold cache_run. rewrite foldl_snoc. by apply cache_operate_spec.
Qed.

End cache.

Lemma cache_config_valid ttl entries total_bytes entry_bytes config :
  cache_config_new ttl entries total_bytes entry_bytes = Ok config → valid_config config.
Proof.
  unfold cache_config_new. rewrite result_bind_ok. intros (? & Hok%ensure_ok & [= <-]).
  apply negb_true_iff in Hok. unfold valid_config, MAX_FETCH_CACHE_TOTAL_BYTES, U64_MAX in *. simpl.
  lia.
Qed.

(** C24: whatever operations a cache has seen, from however many tasks, it holds
    at most its configured entries and bytes, which are exactly those of its
    entries.  A lookup that hits returns the result that was last accepted under
    that very key, not cleared since, and not yet expired.  A new result that fits
    is found under its key, and what gives way to it has no later access number
    than anything that stays. *)
Theorem cache_refines_reference ttl max_entries max_total max_entry config policy_key_size
    operations key now :
  cache_config_new ttl max_entries max_total max_entry = Ok config →
  let state := cache_run policy_key_size config operations cache_empty in
  (N.of_nat (size (cst_entries state)) <= max_entries)%N ∧
  (cst_logical_bytes state <= max_total)%N ∧
  cst_logical_bytes state = total_bytes (cst_entries state) ∧
  (∀ key entry, cst_entries state !! key = Some entry →
     ce_logical_bytes entry = entry_bytes policy_key_size key (ce_result entry) ∧
     (ce_logical_bytes entry <= max_entry)%N) ∧
  (∀ result, (cache_get_at key now state).1 = Some result →
     ∃ expires_at, reference policy_key_size config operations key = Some (result, expires_at) ∧
       (now < expires_at)%N) ∧
  (∀ result, fits policy_key_size config key result = true →
     let state' := cache_insert_at policy_key_size config key result now state in
     (cache_get_at key now state').1 = Some result ∧
     ∀ victim entry kept entry', victim ≠ key → kept ≠ key →
       cst_entries state !! victim = Some entry → (now < ce_expires_at entry)%N →
       cst_entries state' !! victim = None →
       cst_entries state' !! kept = Some entry' →
       ∃ before, cst_entries state !! kept = Some before ∧ ce_result before = ce_result entry' ∧
         (ce_last_access entry <= ce_last_access before)%N).
Proof.
  intros Hconfig state. pose proof (cache_config_valid _ _ _ _ _ Hconfig) as Hvalid.
  assert (fcc_entries config = max_entries ∧ fcc_total_bytes config = max_total ∧
    fcc_entry_bytes config = max_entry ∧ fcc_ttl config = ttl ∧ ttl ≠ 0%N)
    as (<- & <- & <- & <- & Httl).
  { unfold cache_config_new in Hconfig. apply result_bind_ok in Hconfig as (? & Hok%ensure_ok & [= <-]).
    apply negb_true_iff in Hok. simpl. split_and!; [done..|]. intros ->. by rewrite N.eqb_refl in Hok. }
  destruct (cache_run_spec policy_key_size config operations Hvalid) as [Hb Hagrees].
  fold state in Hb, Hagrees. destruct Hb as [[Hbytes Hentries] Hcount Htotal] eqn:Hbounds.
  split_and!; [done..| |].
  - intros result Hhit. destruct (cache_get_at_spec policy_key_size config key now state
      (cb_accounts _ _ _ Hb)) as (_ & _ & Hget).
    destruct (Hget result Hhit) as (entry & Hkey & <- & Hnow). eexists. split; [|exact Hnow].
    by apply Hagrees.
  - intros result Hfits.
    destruct (cache_insert_at_spec policy_key_size config key result now state Hvalid Hb Hfits)
      as (Hb' & (entry & Hkey & <- & Hexpires) & Hothers).
    split. { apply (cache_get_at_hit policy_key_size config); [apply Hb'|done|lia]. }
    intros victim entry0 kept entry' Hv Hk Hvictim Hnow Hgone Hkept.
    destruct (Hothers kept entry' Hk Hkept) as (before & Hbefore & Heq & Holdest).
    exists before. unfold stored in Heq. injection Heq as -> _ _. split_and!; [done..|].
    by apply (Holdest victim).
Qed.

Definition example_result : FetchResult :=
  mk_FetchResult "https://a.test/" "https://a.test/" None "text/plain; charset=utf-8" "hello" None [].
Definition example_key (url : string) : FetchCacheKey :=
  mk_FetchCacheKey (mk_FetchCacheScope "w" "p") url 100
    (mk_FetchCachePolicyKey 1 production_config body_limits_default "text/plain" "identity").
Definition example_cache : FetchCacheConfig := mk_FetchCacheConfig 5 2 4096 2048.

(** A cache of two entries, of which the less recently used gives way. *)
Definition example_operations : list CacheOperation :=
  [CacheInsert (example_key "https://a.test/") example_result 0;
   CacheInsert (example_key "https://b.test/") example_result 1;
   CacheGet (example_key "https://a.test/") 2; CacheStats 2;
   CacheInsert (example_key "https://c.test/") example_result 3].

Lemma cache_refines_reference_witness :
  cache_config_new 5 2 4096 2048 = Ok example_cache ∧
  (cache_get_at (example_key "https://a.test/") 4
     (cache_run 176 example_cache example_operations cache_empty)).1 = Some example_result ∧
  (cache_get_at (example_key "https://b.test/") 4
     (cache_run 176 example_cache example_operations cache_empty)).1 = None ∧
  (cache_get_at (example_key "https://a.test/") 5
     (cache_run 176 example_cache example_operations cache_empty)).1 = None ∧
  (N.of_nat (size (cst_entries (cache_run 176 example_cache example_operations cache_empty))) <= 2)%N.
Proof.
  split; [vm_compute; reflexivity|]. split; [vm_compute; reflexivity|].
  split; [vm_compute; reflexivity|]. split; [vm_compute; reflexivity|].
  exact (proj1 (cache_refines_reference 5 2 4096 2048 example_cache 176 example_operations
    (example_key "https://a.test/") 4 eq_refl)).
Defined.
