(* ===== verification/FetchProvider.v ===== *)
(** * Web fetch: the provider

    [crates/tea-coding-tools/src/web_fetch/provider.rs]: a fetch composed of the
    cache, the transport and the decoder. *)

From S2P Require Import Prelude Utf8 Protocol Tools Validation KernelBase FetchAddress FetchUrl FetchData FetchHttp FetchHttpTheorems FetchBody FetchCache FetchCacheTheorems.
Local Open Scope tea_scope.

Definition FETCH_SECURITY_POLICY_VERSION : N := 1.
Definition FETCH_ACCEPT_VALUE : string :=
  "text/html, application/xhtml+xml, application/json, text/plain".
Definition FETCH_ACCEPT_ENCODING_VALUE : string := "identity".

Definition status_error (status : N) : FetchProviderError :=
  fetch_error (if (400 <=? status)%N && (status <=? 499)%N then FetchInvalidRequest
               else if (500 <=? status)%N && (status <=? 599)%N then FetchTransport
               else FetchMalformedResponse).

Section provider.
Context `{Codec, BodyCrates, UrlCrate} (policy_key_size : N).

Record HttpFetchProvider : Set := mk_HttpFetchProvider {
  hfp_config : FetchHttpConfig;
  hfp_limits : FetchBodyLimits;
  hfp_scope : FetchCacheScope;
  hfp_cache_config : FetchCacheConfig
}.

(** The transport's state and the shared cache. *)
Record ProviderState : Type := mk_ProviderState {
  prs_fetch : FetchState;
  prs_cache : CacheState
}.

Definition Providing (A : Type) : Type := ST ProviderState FetchStop A.

(** [others] are the operations of other tasks on the cache while this one waits
    for the network. *)
Context (env : FetchEnvironment) (others : list CacheOperation) (provider : HttpFetchProvider).

Definition in_transport {A} (m : Fetching A) : Providing A := λ s,
  let '(result, fetch) := m (prs_fetch s) in (result, mk_ProviderState fetch (prs_cache s)).
Definition in_cache {A} (f : CacheState → A * CacheState) : Providing A := λ s,
  let '(a, cache) := f (prs_cache s) in (Ok a, mk_ProviderState (prs_fetch s) cache).

(** [if cancellation.is_cancelled()]. *)
Definition provider_not_cancelled : Providing unit :=
  in_transport (let! cancelled := asking (env_cancelled env) in
                fetch_lift (ensure (negb cancelled) fetch_cancelled)).

Definition provider_key (url : ValidatedFetchUrl) (max_chars : N) : FetchCacheKey :=
  mk_FetchCacheKey (hfp_scope provider) (vfu_canonical url) max_chars
    (mk_FetchCachePolicyKey FETCH_SECURITY_POLICY_VERSION (hfp_config provider)
       (hfp_limits provider) FETCH_ACCEPT_VALUE FETCH_ACCEPT_ENCODING_VALUE).

Definition normalize_response (response : FetchHttpResponse) (max_chars : N)
    : Result FetchProviderError FetchResult :=
  let? decoded :=
    decode_body (hfp_limits provider) (fhr_headers response) (fhr_body response) max_chars in
  let? result :=
    fetch_result_with_policy (fhr_requested_url response) (fhr_final_url response)
      (kind_mime_type (dfb_kind decoded)) (dfb_body decoded)
      (fhc_url_policy (hfp_config provider)) in
  let? result := match dfb_title decoded with
                 | Some title => result_with_title result title
                 | None => Ok result
                 end in
  let result := match dfb_truncation decoded with
                | Some truncation => result_with_truncation result truncation
                | None => result
                end in
  result_with_redirects result (fhr_redirects response).

(** [HttpFetchProvider::execute]. *)
Definition fetch_execute (request : FetchRequest) : Providing FetchResult :=
  do! provider_not_cancelled in
  let! url :=
    in_transport (fetch_lift (map_err (λ _, fetch_error FetchInvalidRequest)
      (validate_url (fhc_url_policy (hfp_config provider)) (fr_url request)))) in
  let key := provider_key url (fr_max_chars request) in
  let! now := in_transport (asking (env_clock env)) in
  let! hit := in_cache (cache_get_at key now) in
  match hit with
  | Some result => do! provider_not_cancelled in st_ret result
  | None =>
      let! response := in_transport (fetch_get env (hfp_config provider) (vfu_canonical url)) in
      do! in_cache (λ cache,
            (tt, cache_run policy_key_size (hfp_cache_config provider) others cache)) in
      do! provider_not_cancelled in
      do! in_transport (fetch_lift (ensure ((200 <=? fhr_status response)%N
                                            && (fhr_status response <=? 299)%N)
                                      (status_error (fhr_status response)))) in
      let! result := in_transport (fetch_lift (normalize_response response (fr_max_chars request))) in
      do! provider_not_cancelled in
      let! now := in_transport (asking (env_clock env)) in
      do! in_cache (λ cache,
            (tt, cache_insert_at policy_key_size (hfp_cache_config provider) key result now cache)) in
      st_ret result
  end.

End provider.
