(* ===== verification/FetchProviderTheorems.v ===== *)
(** * Web fetch: what a result promises

    Every result of a fetch is bounded by its request, whether it was fetched or
    cached, whatever other tasks share the cache. *)

From S2P Require Import Prelude Utf8 Protocol Tools Validation KernelBase FetchAddress FetchUrl FetchData FetchHttp FetchHttpTheorems FetchBody FetchCache FetchCacheTheorems FetchProvider.
Local Open Scope tea_scope.

(** ** Text *)

Section text.
Context (P : N → Prop).

Lemma newlines_forall cs : P 10%N → Forall P cs → Forall P (newlines cs).
Proof.
  intros Hnl. induction cs as [cs IH] using list_length_ind.
  destruct cs as [|c rest]; [done|]. intros [Hc Hrest]%Forall_cons. cbn [newlines].
  destruct (c =? 13)%N; [|constructor; [done|apply IH; [simpl; lia|done]]].
  constructor; [done|]. destruct rest as [|d rest']; [done|].
  destruct (d =? 10)%N; apply IH; simpl; try lia; [|done]. by apply Forall_cons in Hrest as [_ ?].
Qed.

Lemma filter_forall f cs : Forall P cs → Forall P (List.filter f cs).
Proof. induction 1; simpl; [done|]. destruct (f x); [by constructor|done]. Qed.
End text.

(** The text kept is of characters, none of them a control but line feed and
    tab. *)
Definition clean (c : N) : Prop := is_scalar c = true ∧ kept_char c = true.

Lemma normalize_plain_text_clean cs :
  Forall (λ c, is_scalar c = true) cs → Forall clean (normalize_plain_text cs).
Proof.
  intros Hcs. unfold normalize_plain_text. apply trim_chars_forall.
  assert (Forall (λ c, is_scalar c = true) (newlines cs)) as Hn by by apply newlines_forall.
  induction Hn as [|c cs' Hc Hn IH]; simpl; [done|].
  destruct (kept_char c) eqn:Hkept; [by constructor|done].
Qed.

Section decoder.
Context `{Codec, BodyCrates}.

Lemma extract_html_clean limits html title body :
  extract_html limits html = Ok (title, body) → Forall clean body.
Proof.
  unfold extract_html. rewrite result_bind_ok. intros (? & _ & [= _ <-]).
  apply normalize_plain_text_clean, trim_chars_forall, chars_scalar.
Qed.

(** A decoded body has at most the characters asked for. *)
Lemma decode_body_ok limits headers raw max_chars decoded :
  decode_body limits headers raw max_chars = Ok decoded →
  (char_count (dfb_body decoded) <= max_chars <= MAX_FETCH_MAX_CHARS)%N ∧
  Forall clean (chars (dfb_body decoded)).
Proof.
  unfold decode_body. rewrite result_bind_ok. intros (? & Hmax%ensure_ok & Hrun).
  apply result_bind_ok in Hrun as (bs & _ & Hrun).
  apply result_bind_ok in Hrun as (declared & _ & Hrun).
  apply result_bind_ok in Hrun as (kind & _ & Hrun).
  apply result_bind_ok in Hrun as (encoding & _ & Hrun).
  apply result_bind_ok in Hrun as (text & _ & Hrun).
  apply result_bind_ok in Hrun as ([title body] & Hbody & [= <-]).
  assert (Forall clean body) as Hclean.
  { destruct kind.
    - by eapply extract_html_clean.
    - injection Hbody as _ <-. apply normalize_plain_text_clean, chars_scalar.
    - apply result_bind_ok in Hbody as (? & _ & [= _ <-]).
      apply normalize_plain_text_clean, trim_chars_forall, chars_scalar. }
  unfold truncate_body. simpl. set (kept := take (N.to_nat max_chars) body).
  assert (Forall clean kept) as Hkept by by apply Forall_take.
  assert (chars (string_of_chars kept) = kept) as Hchars.
  { apply chars_string_of_chars. eapply Forall_impl; [exact Hkept|]. by intros c [? _]. }
  unfold char_count. rewrite Hchars. split; [|done].
  apply andb_true_iff in Hmax as [_ Hmax%N.leb_le]. split; [|done].
  unfold kept. rewrite length_take. lia.
Qed.

End decoder.

(** ** Results *)

(** A result within the bounds of its request, of URLs the policy accepts. *)
Definition within_bounds `{UrlCrate} (policy : FetchUrlPolicy) (max_chars : N) (result : FetchResult)
    : Prop :=
  (char_count (fres_body result) <= max_chars)%N ∧ Forall clean (chars (fres_body result)) ∧
  contains_nul (fres_body result) = false ∧
  (∃ kind, fres_mime_type result = kind_mime_type kind) ∧
  (∀ title, fres_title result = Some title → title_valid title = true) ∧
  (N.of_nat (length (fres_redirects result)) <= MAX_FETCH_REDIRECTS)%N ∧
  (∃ raw, normalize_result_url raw policy = Ok (fres_requested_url result)) ∧
  (∃ raw, normalize_result_url raw policy = Ok (fres_final_url result)).

Lemma kind_mime_type_lowercase kind : lowercase (kind_mime_type kind) = kind_mime_type kind.
Proof. by destruct kind; vm_compute. Qed.

Section provider.
Context `{Codec, BodyCrates, UrlCrate} (policy_key_size : N).
Context (env : FetchEnvironment) (others : list CacheOperation) (provider : HttpFetchProvider).

Notation policy := (fhc_url_policy (hfp_config provider)).

Lemma normalize_response_ok response max_chars result :
  normalize_response provider response max_chars = Ok result →
  within_bounds policy max_chars result.
Proof.
  unfold normalize_response. rewrite result_bind_ok. intros (decoded & Hdecoded & Hrun).
  apply decode_body_ok in Hdecoded as ([Hmax _] & Hclean).
  apply result_bind_ok in Hrun as (result1 & Hresult1 & Hrun).
  unfold fetch_result_with_policy in Hresult1.
  apply result_bind_ok in Hresult1 as (requested & Hrequested & Hresult1).
  apply result_bind_ok in Hresult1 as (final & Hfinal & Hresult1).
  apply result_bind_ok in Hresult1 as (mime & Hmime & Hresult1).
  apply result_bind_ok in Hresult1 as (? & Hbody%ensure_ok & [= <-]).
  apply andb_true_iff in Hbody as [_ Hnul%negb_true_iff].
  unfold validate_fetch_mime in Hmime. apply result_bind_ok in Hmime as (? & _ & [= <-]).
  apply result_bind_ok in Hrun as (result2 & Hresult2 & Hrun).
  assert (∃ title, (∀ t, title = Some t → title_valid t = true) ∧
    result2 = mk_FetchResult requested final title (lowercase (kind_mime_type (dfb_kind decoded)))
                (dfb_body decoded) None []) as (title & Htitle & ->).
  { destruct (dfb_title decoded) as [title|]; [|injection Hresult2 as <-; by exists None].
    unfold result_with_title in Hresult2. apply result_bind_ok in Hresult2 as (? & Hvalid%ensure_ok & [= <-]).
    exists (Some title). split; [by intros t [= <-]|done]. }
  clear Hresult2. unfold result_with_redirects in Hrun.
  apply result_bind_ok in Hrun as (? & Hredirects%ensure_ok%N.leb_le & [= <-]).
  rewrite kind_mime_type_lowercase.
  destruct (dfb_truncation decoded); simpl; split_and!; eauto.
Qed.

(** Every entry of the cache is within the bounds of its key. *)
Definition cache_sound (state : CacheState) : Prop :=
  ∀ key entry, cst_entries state !! key = Some entry →
    fcp_http_config (fck_policy key) = hfp_config provider →
    within_bounds policy (fck_max_chars key) (ce_result entry).

Definition inserts_sound (operation : CacheOperation) : Prop :=
  match operation with
  | CacheInsert key result _ =>
      fcp_http_config (fck_policy key) = hfp_config provider →
      within_bounds policy (fck_max_chars key) result
  | _ => True
  end.

Notation config := (hfp_cache_config provider).

Lemma shrinks_sound state state' : cache_sound state → shrinks state state' → cache_sound state'.
Proof.
  intros Hsound Hs key entry Hkey Hhttp.
  destruct (shrinks_lookup _ _ _ _ Hs Hkey) as (before & Hbefore & Heq).
  unfold stored in Heq. injection Heq as <- _ _. by apply (Hsound key).
Qed.

Lemma cache_operate_sound operation state :
  valid_config config → cache_bounds policy_key_size config state → cache_sound state →
  inserts_sound operation →
  cache_bounds policy_key_size config (cache_operate policy_key_size config state operation) ∧
  cache_sound (cache_operate policy_key_size config state operation).
Proof.
  intros Hvalid Hb Hsound Hop. pose proof (cb_accounts _ _ _ Hb) as Ha.
  destruct operation as [key now|key result now|now|]; simpl.
  - destruct (cache_get_at_spec _ _ key now state Ha) as (Ha' & Hs & _).
    split; [by eapply shrinks_bounds|by eapply shrinks_sound].
  - destruct (fits policy_key_size config key result) eqn:Hfits.
    + destruct (cache_insert_at_spec _ _ key result now state Hvalid Hb Hfits)
        as (Hb' & (e & He & Hres & _) & Hothers).
      split; [done|]. intros k entry Hk Hhttp. destruct (decide (k = key)) as [->|Hne].
      * rewrite He in Hk. injection Hk as <-. rewrite Hres. by apply Hop.
      * destruct (Hothers k entry Hne Hk) as (before & Hbefore & Hst & _).
        unfold stored in Hst. injection Hst as <- _ _. by apply (Hsound k).
    + unfold cache_insert_at. unfold fits in Hfits. apply negb_false_iff in Hfits. by rewrite Hfits.
  - destruct (purge_expired_spec _ _ now state Ha) as (Ha' & Hs & _).
    split; [by eapply shrinks_bounds|by eapply shrinks_sound].
  - split; [apply empty_bounds|]. intros key entry Hkey. simpl in Hkey. by apply lookup_empty_Some in Hkey.
Qed.

Lemma cache_run_sound operations state :
  valid_config config → cache_bounds policy_key_size config state → cache_sound state →
  Forall inserts_sound operations →
  cache_bounds policy_key_size config (cache_run policy_key_size config operations state) ∧
  cache_sound (cache_run policy_key_size config operations state).
Proof.
  intros Hvalid Hb Hsound Hops. revert state Hb Hsound.
  induction Hops as [|operation operations Hop Hops IH]; intros state Hb Hsound; [done|].
  destruct (cache_operate_sound operation state Hvalid Hb Hsound Hop) as [Hb' Hs'].
  by apply (IH _ Hb' Hs').
Qed.

(** ** An execution *)

Lemma provider_bind_run {A B} (m : Providing A) (k : A → Providing B) s :
  st_bind m k s = match m s with
                  | (Ok a, s) => k a s
                  | (Err e, s) => (Err e, s)
                  end.
Proof. done. Qed.

Lemma provider_not_cancelled_run s :
  provider_not_cancelled env s =
    (map_err FetchFailed (ensure (negb (env_cancelled env (fst_moment (prs_fetch s)))) fetch_cancelled),
     mk_ProviderState (mk_FetchState (S (fst_moment (prs_fetch s))) (fst_trace (prs_fetch s)))
       (prs_cache s)).
Proof. done. Qed.

Lemma in_transport_lift {A} (result : Result FetchProviderError A) s :
  in_transport (fetch_lift result) s = (map_err FetchFailed result, s).
Proof. by destruct s. Qed.

Lemma in_transport_asking {A} (question : nat → A) s :
  in_transport (asking question) s =
    (Ok (question (fst_moment (prs_fetch s))),
     mk_ProviderState (mk_FetchState (S (fst_moment (prs_fetch s))) (fst_trace (prs_fetch s)))
       (prs_cache s)).
Proof. done. Qed.

Context `{!UrlLaws}.

(** Where a result came from: the cache, without a request, or the last of the
    URLs requested, with a status of success. *)
Definition result_origin (request : FetchRequest) (cache : CacheState) (hops : list Hop)
    (result : FetchResult) : Prop :=
  ∃ url, validate_url policy (fr_url request) = Ok url ∧
  (hops = [] ∧
     (∃ entry moment, cst_entries cache !! provider_key provider url (fr_max_chars request) = Some entry ∧
        ce_result entry = result ∧ (env_clock env moment < ce_expires_at entry)%N) ∨
   ∃ hop raw,
     last hops = Some hop ∧ hop_response env hop raw ∧
     (200 <= rsp_status raw <= 299)%N ∧
     normalize_result_url (vfu_canonical (hop_url hop)) policy = Ok (fres_final_url result) ∧
     S (length (fres_redirects result)) = length hops).

(** What every execution leaves behind. *)
Definition execution_sound (request : FetchRequest) (s : ProviderState)
    (r : Result FetchStop FetchResult) (s' : ProviderState) : Prop :=
  cache_bounds policy_key_size config (prs_cache s') ∧ cache_sound (prs_cache s') ∧
  r ≠ Err FetchOutOfFuel ∧
  ∃ hops,
    fst_trace (prs_fetch s') = fst_trace (prs_fetch s) ++ (hops ≫= hop_events) ∧
    Forall (hop_validated env (hfp_config provider)) hops ∧
    ∀ result, r = Ok result →
      within_bounds policy (fr_max_chars request) result ∧
      result_origin request (prs_cache s) hops result.

Lemma normalize_response_urls response max_chars result :
  normalize_response provider response max_chars = Ok result →
  normalize_result_url (fhr_final_url response) policy = Ok (fres_final_url result) ∧
  fres_redirects result = fhr_redirects response.
Proof.
  unfold normalize_response. rewrite result_bind_ok. intros (decoded & _ & Hrun).
  apply result_bind_ok in Hrun as (result1 & Hresult1 & Hrun).
  unfold fetch_result_with_policy in Hresult1.
  apply result_bind_ok in Hresult1 as (requested & _ & Hresult1).
  apply result_bind_ok in Hresult1 as (final & Hfinal & Hresult1).
  apply result_bind_ok in Hresult1 as (mime & _ & Hresult1).
  apply result_bind_ok in Hresult1 as (? & _ & [= <-]).
  apply result_bind_ok in Hrun as (result2 & Hresult2 & Hrun).
  unfold result_with_redirects in Hrun. apply result_bind_ok in Hrun as (? & _ & [= <-]). simpl.
  split; [|done]. rewrite Hfinal. f_equal. destruct (dfb_title decoded) as [title|].
  - unfold result_with_title in Hresult2. apply result_bind_ok in Hresult2 as (? & _ & [= <-]).
    by destruct (dfb_truncation decoded).
  - injection Hresult2 as <-. by destruct (dfb_truncation decoded).
Qed.

Lemma failed_execution request s error s' hops :
  cache_bounds policy_key_size config (prs_cache s') → cache_sound (prs_cache s') →
  fst_trace (prs_fetch s') = fst_trace (prs_fetch s) ++ (hops ≫= hop_events) →
  Forall (hop_validated env (hfp_config provider)) hops →
  execution_sound request s (Err (FetchFailed error)) s'.
Proof. intros Hb Hs Htrace Hhops. split_and!; [done..|]. exists hops. by split_and!. Qed.

(** The part of an execution after a response. *)
Lemma fetched_execution url request response hops s0 s r s' :
  validate_url policy (fr_url request) = Ok url →
  valid_config config → Forall inserts_sound others →
  cache_bounds policy_key_size config (prs_cache s) → cache_sound (prs_cache s) →
  fst_trace (prs_fetch s) = fst_trace (prs_fetch s0) ++ (hops ≫= hop_events) →
  Forall (hop_validated env (hfp_config provider)) hops →
  (∃ requested, fetched_from env (hfp_config provider) requested hops 0 response) →
  (do! in_cache (λ cache, (tt, cache_run policy_key_size config others cache)) in
   do! provider_not_cancelled env in
   do! in_transport (fetch_lift (ensure ((200 <=? fhr_status response)%N
                                         && (fhr_status response <=? 299)%N)
                                   (status_error (fhr_status response)))) in
   let! result := in_transport (fetch_lift (normalize_response provider response (fr_max_chars request))) in
   do! provider_not_cancelled env in
   let! now := in_transport (asking (env_clock env)) in
   do! in_cache (λ cache,
         (tt, cache_insert_at policy_key_size config (provider_key provider url (fr_max_chars request))
                result now cache)) in
   st_ret result) s = (r, s') →
  execution_sound request s0 r s'.
Proof.
  intros Hurl Hvalid Hothers Hb Hs Htrace Hhops (requested & Hfrom) Hrun.
  rewrite provider_bind_run in Hrun. unfold in_cache at 1 in Hrun.
  destruct (cache_run_sound others (prs_cache s) Hvalid Hb Hs Hothers) as [Hb1 Hs1].
  rewrite provider_bind_run, provider_not_cancelled_run in Hrun.
  destruct (env_cancelled _ _); simpl in Hrun.
  { injection Hrun as <- <-. by eapply failed_execution. }
  rewrite provider_bind_run, in_transport_lift in Hrun.
  destruct (_ && _) eqn:Hstatus; simpl in Hrun.
  2: { injection Hrun as <- <-. by eapply failed_execution. }
  rewrite provider_bind_run, in_transport_lift in Hrun.
  destruct (normalize_response _ _ _) as [result|error] eqn:Hnormal; simpl in Hrun.
  2: { injection Hrun as <- <-. by eapply failed_execution. }
  rewrite provider_bind_run, provider_not_cancelled_run in Hrun.
  destruct (env_cancelled _ _); simpl in Hrun.
  { injection Hrun as <- <-. by eapply failed_execution. }
  rewrite provider_bind_run, in_transport_asking, provider_bind_run in Hrun. simpl in Hrun.
  injection Hrun as <- <-. pose proof (normalize_response_ok _ _ _ Hnormal) as Hbounds.
  destruct (normalize_response_urls _ _ _ Hnormal) as [Hfinal Hredirects].
  destruct (cache_operate_sound (CacheInsert (provider_key provider url (fr_max_chars request)) result
    (env_clock env (S (S (fst_moment (prs_fetch s)))))) _ Hvalid Hb1 Hs1) as [Hb2 Hs2]; [by intros _|].
  split_and!; [exact Hb2|exact Hs2|done|]. exists hops. split_and!; [done..|].
  intros result' [= <-]. split; [done|]. exists url. split; [done|]. right.
  destruct Hfrom as (hop & raw & Hlast & Hraw & _ & Hurl' & Hstat & _ & _ & Hcount & _).
  exists hop, raw. rewrite <- Hstat, <- Hurl', Hredirects.
  apply andb_true_iff in Hstatus as [?%N.leb_le ?%N.leb_le]. split_and!; done.
Qed.

Lemma fetch_execute_spec request s r s' :
  valid_config config → (0 < fht_low_speed_min_bytes (fhc_timeouts (hfp_config provider)))%N →
  Forall inserts_sound others →
  cache_bounds policy_key_size config (prs_cache s) → cache_sound (prs_cache s) →
  fetch_execute policy_key_size env others provider request s = (r, s') →
  execution_sound request s r s'.
Proof.
  intros Hvalid Hmin Hothers Hb Hs Hrun. unfold fetch_execute in Hrun.
  rewrite provider_bind_run, provider_not_cancelled_run in Hrun.
  destruct (env_cancelled _ _); simpl in Hrun.
  { injection Hrun as <- <-. apply (failed_execution _ _ _ _ []); simpl; [done|done|by rewrite app_nil_r|done]. }
  rewrite provider_bind_run, in_transport_lift in Hrun.
  destruct (validate_url _ (fr_url request)) as [url|error] eqn:Hurl; simpl in Hrun.
  2: { injection Hrun as <- <-. apply (failed_execution _ _ _ _ []); simpl; [done|done|by rewrite app_nil_r|done]. }
  rewrite provider_bind_run, in_transport_asking, provider_bind_run in Hrun. simpl in Hrun.
  set (now := env_clock env _) in Hrun. set (key := provider_key _ _ _) in Hrun.
  unfold in_cache at 1 in Hrun. simpl prs_cache in Hrun.
  destruct (cache_operate_sound (CacheGet key now) _ Hvalid Hb Hs) as [Hb1 Hs1]; [done|].
  destruct (cache_get_at_spec policy_key_size config key now (prs_cache s) (cb_accounts _ _ _ Hb))
    as (_ & _ & Hget). simpl in Hb1, Hs1.
  destruct (cache_get_at key now (prs_cache s)) as [[result|] cache1]; simpl in *.
  - rewrite provider_bind_run, provider_not_cancelled_run in Hrun.
    destruct (env_cancelled _ _); simpl in Hrun; injection Hrun as <- <-.
    { apply (failed_execution _ _ _ _ []); simpl; [done|done|by rewrite app_nil_r|done]. }
    split_and!; [done..|]. exists []. rewrite app_nil_r. split_and!; [done..|].
    intros result' [= <-]. destruct (Hget result eq_refl) as (entry & Hentry & Hres & Hnow).
    split; [rewrite <- Hres; by apply (Hs key)|]. exists url. split; [done|]. left.
    split; [done|]. by exists entry, (S (fst_moment (prs_fetch s))).
  - rewrite provider_bind_run in Hrun. unfold in_transport at 1 in Hrun. simpl prs_fetch in Hrun.
    destruct (fetch_get env (hfp_config provider) (vfu_canonical url) _) as [got fetch] eqn:Hfetch.
    apply fetch_get_spec in Hfetch as (hops & Htrace & Hhops & _ & _ & Hfuel & Hok); [|done].
    destruct got as [response|[error|]]; [| |done].
    2: { injection Hrun as <- <-. by eapply failed_execution. }
    destruct (Hok response eq_refl) as (requested & _ & _ & Hfrom).
    apply (fetched_execution url request response hops s (mk_ProviderState fetch cache1));
      [done..| |exact Hrun]. by exists requested.
Qed.

End provider.

(** C23: an execution of the provider on a cache whose entries are within their
    bounds, while other tasks do any operations that keep them so, ends and leaves
    such a cache, itself within its own bounds.  Its requests are one chain of
    validated hops.  A result has at most the characters asked for, none of them a
    control but line feed and tab, a known MIME type, a bounded title and at most
    ten redirects; it is an unexpired entry of exactly this scope, URL, size and
    policy, found without a request, or comes from the last hop, with a success
    status. *)
Theorem fetch_results_bounded `{Codec, BodyCrates, UrlLaws} policy_key_size env others
    http limits scope ttl max_entries max_total max_entry cache_config dns connect first_byte total
    window min_bytes request s r s' :
  cache_config_new ttl max_entries max_total max_entry = Ok cache_config →
  timeouts_new dns connect first_byte total window min_bytes = Ok (fhc_timeouts http) →
  let provider := mk_HttpFetchProvider http limits scope cache_config in
  Forall (inserts_sound provider) others →
  cache_bounds policy_key_size cache_config (prs_cache s) → cache_sound provider (prs_cache s) →
  fetch_execute policy_key_size env others provider request s = (r, s') →
  cache_bounds policy_key_size cache_config (prs_cache s') ∧ cache_sound provider (prs_cache s') ∧
  r ≠ Err FetchOutOfFuel ∧
  ∃ hops,
    fst_trace (prs_fetch s') = fst_trace (prs_fetch s) ++ (hops ≫= hop_events) ∧
    Forall (hop_validated env http) hops ∧
    ∀ result, r = Ok result →
      within_bounds (fhc_url_policy http) (fr_max_chars request) result ∧
      result_origin env provider request (prs_cache s) hops result.
Proof.
  intros Hcache Htimeouts provider Hothers Hb Hs Hrun.
  apply (fetch_execute_spec policy_key_size env others provider request s r s');
    [by eapply cache_config_valid| |done..].
  unfold timeouts_new in Htimeouts. apply result_bind_ok in Htimeouts as (? & Hok%ensure_ok & [= Heq]).
  simpl. rewrite <- Heq. apply negb_true_iff, orb_false_iff in Hok as [_ Hmin%N.eqb_neq]. simpl. lia.
Qed.

(** ** An example *)

(** Text that is UTF-8, and no other encoding, compression or document. *)
Definition utf8_bodies : BodyCrates := {|
  Encoding := unit;
  Encoding_eq_dec := unit_eq_dec;
  UTF_8 := tt;
  encoding_for_bom := λ _, None;
  encoding_for_label := λ _, Some tt;
  encoding_decode := λ _ bs, (string_of_bytes bs, false);
  parse_mime := λ _, None;
  decompress := λ _ bs, (bs, false);
  document_title := λ _, "";
  document_body := λ _, None;
  document_text := λ html, html
|}.

Definition no_codec : Codec := {|
  json_len := λ _, None;
  base64_decodes := λ _, false;
  parse_url := λ _, None;
  json_parse := λ _, None;
  block_json_len := λ _, 0%N
|}.

Definition plain_provider : HttpFetchProvider :=
  mk_HttpFetchProvider production_config body_limits_default (mk_FetchCacheScope "w" "p")
    (mk_FetchCacheConfig 5 2 4096 2048).

Definition plain_start : @ProviderState plain_urls :=
  mk_ProviderState (mk_FetchState 0 []) cache_empty.

Definition plain_execute (start : @ProviderState plain_urls) (others : list CacheOperation)
    : Result FetchStop FetchResult * @ProviderState plain_urls :=
  @fetch_execute no_codec utf8_bodies plain_urls 176 plain_environment others plain_provider
    (mk_FetchRequest "https://a.test" 5) start.

(** The first execution fetches the text through a redirect and cuts it; the
    second one finds it in the cache. *)
Lemma fetch_results_bounded_witness :
  fres_body <$> match (plain_execute plain_start []).1 with Ok result => Some result | Err _ => None end =
    Some "hello"%string ∧
  length (fst_trace (prs_fetch (plain_execute (plain_execute plain_start []).2 []).2)) =
    length (fst_trace (prs_fetch (plain_execute plain_start []).2)) ∧
  (plain_execute (plain_execute plain_start []).2 []).1 = (plain_execute plain_start []).1 ∧
  (plain_execute plain_start [CacheStats 1]).1 ≠ Err FetchOutOfFuel ∧
  ∀ result, (plain_execute plain_start [CacheStats 1]).1 = Ok result →
    (char_count (fres_body result) <= 5)%N.
Proof.
  split; [vm_compute; reflexivity|]. split; [vm_compute; reflexivity|].
  split; [vm_compute; reflexivity|].
  destruct (@fetch_results_bounded no_codec utf8_bodies plain_urls plain_laws 176 plain_environment
    [CacheStats 1] production_config body_limits_default (mk_FetchCacheScope "w" "p") 5 2 4096 2048
    (mk_FetchCacheConfig 5 2 4096 2048) (from_secs 5) (from_secs 10) (from_secs 15) (from_secs 30)
    (from_secs 5) 1024 (mk_FetchRequest "https://a.test" 5) plain_start
    (plain_execute plain_start [CacheStats 1]).1 (plain_execute plain_start [CacheStats 1]).2
    eq_refl eq_refl ltac:(by repeat constructor) (empty_bounds _ _)
    ltac:(intros key entry Hkey; simpl in Hkey; by apply lookup_empty_Some in Hkey)
    (surjective_pairing (plain_execute plain_start [CacheStats 1])))
    as (_ & _ & Hfuel & hops & _ & _ & Hok).
  split; [exact Hfuel|]. intros result Hr. exact (proj1 (proj1 (Hok result Hr))).
Defined.
