(* ===== verification/FetchTool.v ===== *)
(** * Web fetch: the tool

    The executor of [crates/tea-coding-tools/src/web_fetch/mod.rs] and the
    presentation of its results ([crates/tea-protocol/src/external.rs]).  The
    provider is what answers a request. *)

From S2P Require Import Prelude Utf8 Decimal Protocol Tools Validation ProviderStream Registry FetchAddress FetchUrl FetchData FetchHttp FetchBody FetchCache FetchProvider FetchProviderTheorems.
Local Open Scope tea_scope.

(** ** Presentations ([external.rs]) *)

Definition MAX_WEB_FETCH_BODY_CHARS : N := 100000.
Definition MAX_WEB_FETCH_BODY_BYTES : N := 400000.

Section presentation.
Context `{UrlCrate}.

Definition normalize_web_fetch_url (url : string) : Result ExternalContentError string :=
  let invalid := InvalidWebFetchMetadata in
  try? ensure (bounded_line url 2048 && negb (existsb (λ b, (b =? 32)%N) (bytes url))) invalid in
  let? parsed := ok_or (url_parse url) invalid in
  try? ensure ((String.eqb (url_scheme parsed) "http" || String.eqb (url_scheme parsed) "https")
               && negb (url_cannot_be_a_base parsed)
               && bool_decide (is_Some (url_host parsed))
               && String.eqb (url_username parsed) ""
               && bool_decide (url_password parsed = None)) invalid in
  let normalized := url_text (url_without_fragment parsed) in
  try? ensure (str_len normalized <=? 2048)%N invalid in
  Ok normalized.

Definition normalize_web_fetch_mime (value : string) : Result ExternalContentError string :=
  try? ensure (mime_valid value) InvalidWebFetchMetadata in Ok (lowercase value).

Definition validate_web_fetch_title (title : string) : Result ExternalContentError unit :=
  ensure (title_valid title) InvalidWebFetchTitle.

Definition validate_web_fetch_body (body : string) : Result ExternalContentError unit :=
  ensure ((str_len body <=? MAX_WEB_FETCH_BODY_BYTES)%N
          && (char_count body <=? MAX_WEB_FETCH_BODY_CHARS)%N && negb (contains_nul body))
    InvalidWebFetchBody.

Definition redirect_status (status : N) : bool := (300 <=? status)%N && (status <=? 399)%N.

Definition web_fetch_redirect_new (from to : string) (status : N)
    : Result ExternalContentError WebFetchRedirect :=
  try? ensure (redirect_status status) InvalidWebFetchRedirect in
  let? from := normalize_web_fetch_url from in
  let? to := normalize_web_fetch_url to in
  Ok (mk_WebFetchRedirect from to status).

Definition web_fetch_redirect_validate (redirect : WebFetchRedirect)
    : Result ExternalContentError unit :=
  let? from := normalize_web_fetch_url (wfr_from redirect) in
  try? ensure (String.eqb from (wfr_from redirect)) InvalidWebFetchRedirect in
  let? to := normalize_web_fetch_url (wfr_to redirect) in
  try? ensure (String.eqb to (wfr_to redirect)) InvalidWebFetchRedirect in
  ensure (redirect_status (wfr_status redirect)) InvalidWebFetchRedirect.

Definition web_fetch_presentation_new (requested_url final_url mime_type body : string)
    : Result ExternalContentError WebFetchPresentation :=
  try? validate_web_fetch_body body in
  let? requested_url := normalize_web_fetch_url requested_url in
  let? final_url := normalize_web_fetch_url final_url in
  let? mime_type := normalize_web_fetch_mime mime_type in
  Ok (mk_WebFetchPresentation requested_url final_url None mime_type body None []).

Definition presentation_with_title (presentation : WebFetchPresentation) (title : string)
    : Result ExternalContentError WebFetchPresentation :=
  try? validate_web_fetch_title title in
  Ok (mk_WebFetchPresentation (wfp_requested_url presentation) (wfp_final_url presentation)
        (Some title) (wfp_mime_type presentation) (wfp_body presentation)
        (wfp_truncation presentation) (wfp_redirects presentation)).

Definition presentation_with_truncation (presentation : WebFetchPresentation)
    (truncation : WebFetchTruncation) : WebFetchPresentation :=
  mk_WebFetchPresentation (wfp_requested_url presentation) (wfp_final_url presentation)
    (wfp_title presentation) (wfp_mime_type presentation) (wfp_body presentation)
    (Some truncation) (wfp_redirects presentation).

Definition validate_web_fetch_redirects (redirects : list WebFetchRedirect)
    : Result ExternalContentError unit :=
  try? ensure (N.of_nat (length redirects) <=? 10)%N InvalidWebFetchRedirect in
  check_all web_fetch_redirect_validate redirects.

Definition presentation_with_redirects (presentation : WebFetchPresentation)
    (redirects : list WebFetchRedirect) : Result ExternalContentError WebFetchPresentation :=
  try? validate_web_fetch_redirects redirects in
  Ok (mk_WebFetchPresentation (wfp_requested_url presentation) (wfp_final_url presentation)
        (wfp_title presentation) (wfp_mime_type presentation) (wfp_body presentation)
        (wfp_truncation presentation) redirects).

(** ** Results as events ([mod.rs]) *)

Definition web_fetch_truncation (reason : FetchTruncationReason) : WebFetchTruncation :=
  match reason with
  | TruncatedCompressedBytes => FetchCompressedBytes
  | TruncatedDecodedBytes => FetchDecodedBytes
  | TruncatedBodyCharacters => FetchBodyCharacters
  | TruncatedParserComplexity => FetchParserComplexity
  end.

Definition truncation_code (truncation : WebFetchTruncation) : string :=
  match truncation with
  | FetchCompressedBytes => "compressed_bytes"
  | FetchDecodedBytes => "decoded_bytes"
  | FetchBodyCharacters => "body_characters"
  | FetchParserComplexity => "parser_complexity"
  end.

Definition web_fetch_presentation (result : FetchResult)
    : Result ExternalContentError WebFetchPresentation :=
  let? presentation :=
    web_fetch_presentation_new (fres_requested_url result) (fres_final_url result)
      (fres_mime_type result) (fres_body result) in
  let? presentation := match fres_title result with
                       | Some title => presentation_with_title presentation title
                       | None => Ok presentation
                       end in
  let presentation := match fres_truncated result with
                      | Some reason =>
                          presentation_with_truncation presentation (web_fetch_truncation reason)
                      | None => presentation
                      end in
  let? redirects :=
    result_map (λ redirect, web_fetch_redirect_new (fd_from redirect) (fd_to redirect)
                              (fd_status redirect)) (fres_redirects result) in
  presentation_with_redirects presentation redirects.

Definition newline : string := string_of_bytes [10%N].

Definition web_fetch_visible_text (presentation : WebFetchPresentation) : string :=
  ("Fetched URL: " ++ wfp_final_url presentation ++ newline ++ "Content-Type: "
   ++ wfp_mime_type presentation
   ++ (if String.eqb (wfp_requested_url presentation) (wfp_final_url presentation) then ""
       else newline ++ "Requested URL: " ++ wfp_requested_url presentation)
   ++ match wfp_title presentation with
      | Some title => newline ++ "Title: " ++ title
      | None => ""
      end
   ++ match wfp_truncation presentation with
      | Some truncation => newline ++ "Truncated: " ++ truncation_code truncation
      | None => ""
      end
   ++ match wfp_redirects presentation with
      | [] => ""
      | redirects => newline ++ "Redirects: " ++ show_decimal (N.of_nat (length redirects))
      end
   ++ newline ++ newline ++ wfp_body presentation)%string.

Definition json_option (text : option string) : Value :=
  match text with Some text => JString text | None => JNull end.

(** The output, with its keys in order. *)
Definition fetch_output (result : FetchResult) : Value :=
  JObject
    [("body"%string, JString (fres_body result));
     ("final_url"%string, JString (fres_final_url result));
     ("mime_type"%string, JString (fres_mime_type result));
     ("redirects"%string,
      JArray ((λ redirect, JObject [("from"%string, JString (fd_from redirect));
                                    ("status"%string, JNumber (PosInt (fd_status redirect)));
                                    ("to"%string, JString (fd_to redirect))])
                <$> fres_redirects result));
     ("requested_url"%string, JString (fres_requested_url result));
     ("title"%string, json_option (fres_title result));
     ("truncated"%string,
      json_option ((λ reason, truncation_code (web_fetch_truncation reason))
                     <$> fres_truncated result))].

Section tool.
Context `{Codec}.

Definition fetch_success (result : FetchResult) : ToolExecutionEvent :=
  match web_fetch_presentation result with
  | Err _ => ExecFailed failure_internal_contract
  | Ok presentation =>
      match block_text (web_fetch_visible_text presentation) with
      | Err _ => ExecFailed failure_internal_contract
      | Ok content =>
          match tool_result_new [content] (fetch_output result) with
          | Err _ => ExecFailed failure_internal_contract
          | Ok value =>
              ExecFinished (mk_ToolResultValue (tr_content value) (tr_output value)
                (tr_details value) (Some (PresentWebFetch presentation)) (tr_usage value))
          end
      end
  end.

Definition fetch_error_code (code : FetchProviderErrorCode) : string :=
  match code with
  | FetchInvalidConfiguration => "invalid_configuration"
  | FetchInvalidRequest => "invalid_request"
  | FetchForbiddenDestination => "forbidden_destination"
  | FetchDnsResolution => "dns_resolution"
  | FetchRedirectRejected => "redirect_rejected"
  | FetchResponseTooLarge => "response_too_large"
  | FetchUnsupportedMime => "unsupported_mime"
  | FetchTimeout => "timeout"
  | FetchTransport => "transport"
  | FetchMalformedResponse => "malformed_response"
  | FetchCancelled => "cancelled"
  end.

Definition fetch_retry_code (disposition : FetchRetryDisposition) : string :=
  match disposition with RetryFetchNever => "never" | RetryFetchExplicit => "explicit" end.

Definition provider_failure (error : FetchProviderError) : ToolExecutionEvent :=
  if bool_decide (fpe_code error = FetchCancelled) then ExecFailed failure_cancelled
  else
    let details :=
      match metadata_from_entries
              [("dev.tea-rs.web-fetch"%string,
                JObject [("code"%string, JString (fetch_error_code (fpe_code error)));
                         ("retry"%string, JString (fetch_retry_code (fpe_retry error)))])] with
      | Ok details => details
      | Err _ => ∅
      end in
    let failure := match failure_new ExecutionFailed (fpe_message error) with
                   | Ok failure => failure
                   | Err _ => failure_internal_contract
                   end in
    ExecFailed (mk_ToolExecutionFailure (xf_code failure) (xf_message failure) details).

Definition request_from_invocation (invocation : ValidatedToolInvocation)
    : Result FetchRequestError FetchRequest :=
  let arguments := ti_arguments (vi_invocation invocation) in
  let? url := ok_or (get_str arguments "url") RequestInvalidUrl in
  fetch_request_new url (default DEFAULT_FETCH_MAX_CHARS (get_u64 arguments "max_chars")).

(** [WebFetchTool::run], for a provider that answers [fetch]. *)
Definition web_fetch_run (fetch : FetchRequest → Result FetchProviderError FetchResult)
    (cancelled : bool) (invocation : ValidatedToolInvocation) : ToolExecutionEvent :=
  if cancelled then ExecFailed failure_cancelled
  else
    match request_from_invocation invocation with
    | Err _ => provider_failure (fetch_error FetchInvalidRequest)
    | Ok request =>
        match fetch request with
        | Ok result => fetch_success result
        | Err error => provider_failure error
        end
    end.

(** [ToolExecutor::execute]: one event. *)
Definition web_fetch_tool (fetch : nat → FetchRequest → Result FetchProviderError FetchResult)
    (cancelled : nat → bool) : ToolExecutor :=
  mk_ToolExecutor (λ _ _, None)
    (λ moment invocation, [web_fetch_run (fetch moment) (cancelled moment) invocation]).

(** ** What becomes of a result *)

(** A message of the provider is a valid failure message. *)
Lemma provider_failure_message code retry :
  failure_new ExecutionFailed (fpe_message (mk_FetchProviderError code (fetch_error_message code) retry)) =
    Ok (mk_ToolExecutionFailure ExecutionFailed (fetch_error_message code) ∅).
Proof. by destruct code; vm_compute. Qed.

(** A result whose output is longer than a tool may return is reported as a
    broken executor. *)
Lemma large_output_breaks_contract result length :
  json_len (fetch_output result) = Some length → (262144 < length)%N →
  fetch_success result = ExecFailed failure_internal_contract.
Proof.
  intros Hlen Hlarge. unfold fetch_success.
  destruct (web_fetch_presentation result) as [presentation|]; [|done].
  destruct (block_text _) as [content|]; [|done].
  unfold tool_result_new, exceeds_bytes. rewrite Hlen.
  replace (262144 <? length)%N with true by (symmetry; by apply N.ltb_lt).
  done.
Qed.

End tool.
End presentation.

(** A control character in a title, which [normalize_inline_text] keeps, is
    refused by [with_title]: the fetch of such a page fails. *)
Example control_in_title_refused :
  ∃ title, bounded_title (normalize_inline_text [97; 1; 98]%N) = Some title ∧
    title_valid title = false.
Proof. eexists. by vm_compute. Qed.
